(* ===== verification/_CoqProject ===== *)
-Q . S2P
Prelude.v
CString.v
Bytes.v
Spinlock.v
DList.v
Pm.v
Vm.v
Uvm.v
Space.v
Ids.v
Kalloc.v
Proc.v
Schedule.v
Sleep.v
Printf.v
Ustdio.v
Virt.v
VirtTest.v
Buf.v
Fat32.v
Fs.v
Dir.v
Console.v
File.v
Umalloc.v
Life.v
Aspace.v
Fork.v
SpaceLife.v
Create.v
Syscall.v
Trap.v
Ulib.v
Sh.v
ShTotal.v
ShRun.v
Dtb.v
Boot.v
