(* ===== verification/Prelude.v ===== *)
(** * patingOS, a RISC-V kernel with a small user land

    This library models the kernel under src/kernel/, with its headers under
    src/include/, and the user programs under src/user/. Every definition is a
    translation of the C code named in its file; the theorems say what makes
    each part correct, or show where it is not.

    ** The program

    [main] (kernel/main.c) runs on every hart. The boot hart reads the device
    tree, sets up the console, the page allocator, the kernel's page table, the
    kernel heap, the processes and the file system, starts the other harts and
    waits for them; then every hart runs the scheduler. The scheduler takes the
    process with the least virtual run time from a queue and switches to it;
    the process comes back through [sched]: by [yield], [sleep] or
    [process_exit]. A process enters the kernel by a trap, which serves a system
    call, a timer or a device. Files lie on a FAT32 volume, reached through a
    cache of blocks over a virtio disk. User programs have a library with a
    heap and formatted output; the shell is the first of them.

    ** How the code is modelled

    A C function is a computation in the monad [K S A] (below): from a state to
    a result and a state, or to one of the outcomes [Panic] (a failed [ASSERT],
    a call of [panic]), [Fault] (an access outside what the model has mapped),
    [Spin] (a lock that is never released to this hart) and [NoFuel]. Integers
    are [Z] with the wrap-around of their type written out ([u8] ... [u64],
    [s32]); memory is a map from addresses to bytes with little-endian
    accesses. Objects that code shares by pointer are records in a finite map
    keyed by their address. A component's state is a record; where one
    component runs inside another, [Lens] says where its state is and [via] or
    [zoom] runs it there. What is not under src/, or is assembly, is a
    parameter: a class of operations with a class of its documented laws.

    Loops that are not structural carry fuel. It is never a hypothesis that a
    loop ends: the theorems say how much fuel is enough and that the function
    returns, and a function that runs for ever is shown to.

    A switch to another process is a parameter of the code that sleeps or
    yields; what the other processes may do meanwhile is a contract stated with
    the theorem. Locks are modelled twice: on one hart, run to completion, which
    is what the other components use, and with every access of every hart as a
    step, which is where mutual exclusion is proved; [lock_ops_refine_steps]
    ties the two. Start-up is modelled as such steps as well.

    ** The files

    - Prelude.v: the monad, machine integers, memory, lenses, tactics and hints;
      Bytes.v: runs of bytes.
    - CString.v: kernel/string.c. [memmove] is the simultaneous copy; short and
      long file names, [strncmp] and [strncpy] with what they do past the end of
      a string.
    - Spinlock.v: kernel/spinlock.c. Mutual exclusion, nesting of interrupt
      disabling, interleavings of any number of harts.
    - DList.v: kernel/list.c and include/list.h. A store of links and the
      predicate [dlist]; the operations against a mathematical deque, the merge
      sort, ordered insertion, duplicates, extrema, reversal.
    - Pm.v: kernel/pm.c. No page is handed out twice or lost.
    - Vm.v, Uvm.v, Space.v: kernel/vm.c and uvm.c. Page tables as trees of pages;
      mapping, copying between the kernel and the user, growing and freeing an
      address space without losing a page; its copy, and its life through any
      sequence of operations. Aspace.v: the frames a page table reaches, and the
      space of a process with its stack, trap frame and trampoline.
    - Ids.v: the bitmaps of process identifiers (proc.c) and descriptors
      (fs/file.c), against a set.
    - Kalloc.v: kernel/buddy.c and kalloc.c. Slabs, and the buddy allocator that
      hands one block out twice.
    - Proc.v, Schedule.v, Sleep.v, Life.v, Fork.v, SpaceLife.v, Create.v:
      kernel/proc.c, schedule.c, sleeplock.c, semaphore.c. The order of the run queue, its invariant over
      iterations of the endless loop, a bound on how long a process waits;
      sleep locks and semaphores; creation, ELF loading, [fork] with the
      address space of the child, exit and [process_wait]; no page is
      lost from the making of an address space to its end; every way the
      making of a process ends.
    - Printf.v, Ustdio.v: kernel/printf.c, user/stdio.c. Formatted output against
      a reference formatter; the line buffer against the stream of characters.
    - Virt.v: kernel/virt.c. The rings shared with the device, requests from
      several callers, and the transfer of a sector for every device that keeps
      to the specification; VirtTest.v: the driver's self-test passes.
    - Buf.v: kernel/fs/buf.c. The cache against an array of blocks; [Class Cache]
      and [CacheLaws] are its interface, which the last section proves over the
      driver.
    - Fat32.v, Fs.v, File.v: kernel/fs/fat32.c, fs.c, dirent.c, vfs.c, file.c. A
      table of entries and an array of clusters; paths; reading and writing
      files; descriptors. Proved against [CacheLaws].
    - Dir.v: looking names up (fs/fs.c), against a search of the directories of
      the volume; [Class PagesLaws] is a cache with a number of pages left.
    - Console.v: kernel/console.c, against a line editor on lists.
    - Syscall.v, Trap.v: kernel/syscall.c, sysproc.c, sysfile.c, trap.c, plic.c,
      timer.c. The table of system calls and its handlers; traps from user and
      kernel mode and the way back.
    - Dtb.v: kernel/dtb.c. The device tree; Boot.v: kernel/main.c.
    - Umalloc.v, Ulib.v, Sh.v, ShTotal.v, ShRun.v: user/stdlib.c, lib.c,
      string.c, start.c, init.c, echo.c, sh.c. The heap with boundary tags; the
      library; the shell, whose parser is proved against a printer of commands
      and, on every line, to stop and to stay in bounds; running a line, against
      the system calls a command stands for.

    ** The theorems

    The theorems with a number are the main claims; the others are steps to
    them or say more about a component. They are of these groups:
    - invariants and safety under any sequence or interleaving of operations:
      [mutual_exclusion], [client_exclusive], [schedule_never_panics],
      [uvmfree_frees_all], [heap_life_well_formed], [space_life_loses_nothing],
      [child_life_loses_nothing], [start_up_ordered],
      [kerneltrap_restores], [malloc_allocates];
    - refinement of a mathematical object: [deque_refinement],
      [ids_refine_set], [buffer_cache_is_disk], [fat_volume_operations],
      [slab_keeps_set], [memmove_simultaneous], [usertrap_syscall],
      [run_line_means];
    - equivalence with a reference definition: [parse_path_splits],
      [get_file_resolves], [console_read_edits_line], [line_buffer_stream],
      [printf_formats];
    - round trips: [parsecmd_roundtrip], [filewrite_fileread_roundtrip],
      [printint_roundtrip], [short_name_roundtrip];
    - what an operation does on every branch: [mappages_maps],
      [copyin_reads_user], [copyout_writes_user], [uvmalloc_grows_or_undoes],
      [copy_space_copies], [schedule_picks_least], [wakeup_wakes],
      [process_create_outcomes], [process_wait_reaps], [virtio_disk_rw_transfers], [fileread_reads_range],
      [filesys_read_advances], [sys_sbrk_grows], [transstr_copies_string],
      [parseDtb_finds_memory], [list_sort_sorts];
    - termination and progress: [acquiresleeplock_acquires], [no_starvation],
      [parsecmd_total];
    - what goes wrong: [buddy_double_allocation], [free_returns_or_corrupts],
      [filewrite_empty_file_diverges], [sbrk_shrink_then_grow_panics],
      [multiple_alloc_out_of_pages_faults], [sema_down_empty_panics],
      [start_up_can_hang].

    ** Bounds

    The sizes of the tables are those of the code: 4 harts, page tables of 512
    words, 30 buffers, 8 descriptors of the disk's queue, 32768 process
    identifiers, 9 arguments of a command. Fuel: one more than the length of
    the list a loop walks, the number of bytes of a string, of clusters of a
    file or of blocks of a heap; for a disk request the rank of the device's
    promise ([DeviceLaws]); for the parser of the shell a linear function of the
    length of the line. The theorems name the bound they need.

    ** Not modelled

    The assembly (entry.S, swtch.S, trampoline.S, kernelvec.S) and the firmware
    below [ecall] are parameters. Caches, reordering of memory accesses and the
    translation buffer are not modelled: [__sync_synchronize] and [sfence_vma]
    have no effect here. Several harts interleave in Spinlock.v and Boot.v
    only; elsewhere one hart runs and the others act where it sleeps or yields.
    The [ASSERT_INFO]s of the file system log through [Class Cache] and go on;
    those of buddy.c and the prints under CONFIG_DEBUG are left out. The kernel and
    the shell are not put together: below [ecall] the shell has a class of laws.
    include/sbi_ecall_interface.h holds the numbers of the firmware's calls, and
    include/virtio_net.h is used by no file. *)

From stdpp Require Export base tactics numbers list option strings relations sorting gmap.
From Stdlib Require Export ZArith Lia.

#[global] Open Scope Z_scope.

(** ** Machine integers

    A w-bit unsigned integer is a [Z]; every operation of the source that can
    leave the range is followed by the wrap of its type. *)

Definition wrap (w x : Z) : Z := x mod 2 ^ w.
Definition u8 (x : Z) : Z := wrap 8 x.
Definition u16 (x : Z) : Z := wrap 16 x.
Definition u32 (x : Z) : Z := wrap 32 x.
Definition u64 (x : Z) : Z := wrap 64 x.

(** Two's complement reading of a 32-bit value: the C type [int]. *)
Definition s32 (x : Z) : Z := let y := u32 x in if y <? 2 ^ 31 then y else y - 2 ^ 32.

Lemma wrap_small w x : 0 <= x < 2 ^ w -> wrap w x = x.
Proof. intros H. unfold wrap. by apply Z.mod_small. Qed.

Lemma wrap_range w x : 0 <= w -> 0 <= wrap w x < 2 ^ w.
Proof. intros H. unfold wrap. apply Z.mod_pos_bound. by apply Z.pow_pos_nonneg. Qed.

Lemma u64_small x : 0 <= x < 2 ^ 64 -> u64 x = x.
Proof. apply wrap_small. Qed.

Lemma u32_small x : 0 <= x < 2 ^ 32 -> u32 x = x.
Proof. apply wrap_small. Qed.

Lemma u8_small x : 0 <= x < 2 ^ 8 -> u8 x = x.
Proof. apply wrap_small. Qed.

Lemma u64_range x : 0 <= u64 x < 2 ^ 64.
Proof. by apply wrap_range. Qed.

Lemma u8_range x : 0 <= u8 x < 2 ^ 8.
Proof. by apply wrap_range. Qed.

Lemma u8_idem x : u8 (u8 x) = u8 x.
Proof. apply u8_small, u8_range. Qed.

Lemma u64_idem x : u64 (u64 x) = u64 x.
Proof. apply u64_small, u64_range. Qed.

(** ** Outcomes

    A C function returns, calls [panic] (which prints and spins for ever),
    performs an access the language does not define, waits for a lock no other
    hart releases, or has not finished within the fuel its model was given. *)

Inductive res (A : Type) : Type :=
| Ret (a : A)
| Panic (msg : string)
| Fault
| Spin
| NoFuel.
Arguments Ret {A} a.
Arguments Panic {A} msg.
Arguments Fault {A}.
Arguments Spin {A}.
Arguments NoFuel {A}.

Definition res_bind {A B} (r : res A) (k : A -> res B) : res B :=
  match r with
  | Ret a => k a
  | Panic s => Panic s
  | Fault => Fault
  | Spin => Spin
  | NoFuel => NoFuel
  end.

(** A stateful C function: explicit state passing with outcomes. *)
Definition K (S A : Type) : Type := S -> res (A * S).

Section Monad.
Context {S : Type}.

Definition kret {A} (a : A) : K S A := fun s => Ret (a, s).
Definition kbind {A B} (m : K S A) (k : A -> K S B) : K S B :=
  fun s => match m s with
           | Ret (a, s') => k a s'
           | Panic e => Panic e
           | Fault => Fault
           | Spin => Spin
           | NoFuel => NoFuel
           end.
Definition kget {A} (f : S -> A) : K S A := fun s => Ret (f s, s).
Definition kmod (f : S -> S) : K S unit := fun s => Ret (tt, f s).
Definition kpanic {A} (msg : string) : K S A := fun _ => Panic msg.
Definition kfault {A} : K S A := fun _ => Fault.
Definition kspin {A} : K S A := fun _ => Spin.
Definition knofuel {A} : K S A := fun _ => NoFuel.
(** [ASSERT] of include/macro.h. *)
Definition kassert (b : bool) : K S unit :=
  if b then kret tt else kpanic "assertion fail"%string.
End Monad.

(** Running an operation of a component inside a larger state. *)
Definition zoom {S T A} (get : S -> T) (set : T -> S -> S) (m : K T A) : K S A :=
  fun s => match m (get s) with
           | Ret (a, t) => Ret (a, set t s)
           | Panic e => Panic e
           | Fault => Fault
           | Spin => Spin
           | NoFuel => NoFuel
           end.

(** A component's state [T] inside the state [S] of the code that uses it. *)
Class Lens (S T : Type) : Type := {
  lget : S -> T;
  lput : T -> S -> S;
  lget_lput t s : lget (lput t s) = t;
  lput_lget s : lput (lget s) s = s;
  lput_lput t t' s : lput t (lput t' s) = lput t s
}.
#[global] Instance lens_id S : Lens S S.
Proof. by refine {| lget := fun s => s; lput := fun t _ => t |}. Defined.

Definition via {S T A} `{Lens S T} (m : K T A) : K S A := zoom lget lput m.

Declare Scope kernel_scope.
Delimit Scope kernel_scope with K.
Notation "x <- m ;; k" := (kbind m (fun x => k))
  (at level 100, m at next level, right associativity) : kernel_scope.
Notation "m ;; k" := (kbind m (fun _ => k))
  (at level 100, right associativity) : kernel_scope.
Definition kwhen {S} (b : bool) (m : K S unit) : K S unit := if b then m else kret tt.
#[global] Open Scope kernel_scope.

Lemma kbind_ret {S A B} (m : K S A) (k : A -> K S B) s a s' :
  m s = Ret (a, s') -> kbind m k s = k a s'.
Proof. intros H. unfold kbind. by rewrite H. Qed.

Lemma kbind_inv {S A B} (m : K S A) (k : A -> K S B) s r :
  kbind m k s = Ret r -> exists a s', m s = Ret (a, s') /\ k a s' = Ret r.
Proof. unfold kbind. destruct (m s) as [[a s']| | | |]; [|done..]. eauto. Qed.

Lemma kbind_assoc {S A B C} (m : K S A) (f : A -> K S B) (g : B -> K S C) s :
  kbind (kbind m f) g s = kbind m (fun a => kbind (f a) g) s.
Proof. unfold kbind. by destruct (m s) as [[a s']| | | |]. Qed.

Lemma zoom_ret {S T A} (get : S -> T) set (m : K T A) s a t :
  m (get s) = Ret (a, t) -> zoom get set m s = Ret (a, set t s).
Proof. intros H. unfold zoom. by rewrite H. Qed.

Lemma via_ret {S T A} `{Lens S T} (m : K T A) s a t :
  m (lget s) = Ret (a, t) -> via m s = Ret (a, lput t s).
Proof. apply zoom_ret. Qed.

Lemma via_id {S A} (m : K S A) s : via m s = m s.
Proof. unfold via, zoom. cbn. by destruct (m s) as [[a t]| | | |]. Qed.

Lemma kbind_same {S A B} (m m' : K S A) (k : A -> K S B) s s' : m s = m' s' -> kbind m k s = kbind m' k s'.
Proof. intros H. unfold kbind. by rewrite H. Qed.

(** Runs the first operation of [(_ ;; _) s] when it reduces by computation;
    [kinv] splits a run that returned. *)
Ltac krun := erewrite kbind_ret by reflexivity.
Ltac kinv H :=
  let a := fresh "a" in let s := fresh "s" in let E := fresh "E" in
  apply kbind_inv in H as (a & s & E & H).

(** ** Physical memory

    Bytes indexed by address. Multi-byte accesses are little endian, as on
    riscv64. *)

Definition mem : Type := Z -> Z.

Definition ld8 (m : mem) (a : Z) : Z := u8 (m a).
Definition st8 (m : mem) (a v : Z) : mem := fun x => if x =? a then u8 v else m x.

Fixpoint ldn (n : nat) (m : mem) (a : Z) : Z :=
  match n with
  | O => 0
  | S n' => ld8 m a + 256 * ldn n' m (a + 1)
  end.

Fixpoint stn (n : nat) (m : mem) (a v : Z) : mem :=
  match n with
  | O => m
  | S n' => stn n' (st8 m a v) (a + 1) (v / 256)
  end.

Definition ld16 := ldn 2.
Definition ld32 := ldn 4.
Definition ld64 := ldn 8.
Definition st16 := stn 2.
Definition st32 := stn 4.
Definition st64 := stn 8.

(** Memories are compared by what a load can see of them. *)
Definition mem_eq (m1 m2 : mem) : Prop := forall a, ld8 m1 a = ld8 m2 a.
#[global] Instance mem_eq_equiv : Equivalence mem_eq.
Proof.
  split; [done| |]; unfold mem_eq; [intros ?? H a|intros ??? H1 H2 a]; congruence.
Qed.
#[global] Instance mem_equiv : Equiv mem := mem_eq.
#[global] Instance mem_equiv_equiv : Equivalence (≡@{mem}) := mem_eq_equiv.

Lemma ld8_range m a : 0 <= ld8 m a < 256.
Proof. apply u8_range. Qed.

Lemma ld8_st8 m a v x : ld8 (st8 m a v) x = if x =? a then u8 v else ld8 m x.
Proof. unfold ld8, st8. destruct (x =? a); [apply u8_idem|done]. Qed.

Lemma ld8_st8_eq m a v : ld8 (st8 m a v) a = u8 v.
Proof. by rewrite ld8_st8, Z.eqb_refl. Qed.

Lemma ld8_st8_ne m a v x : x <> a -> ld8 (st8 m a v) x = ld8 m x.
Proof. intros H. rewrite ld8_st8. by apply Z.eqb_neq in H as ->. Qed.

Lemma ldn_ext n m1 m2 a :
  (forall x, a <= x < a + Z.of_nat n -> ld8 m1 x = ld8 m2 x) -> ldn n m1 a = ldn n m2 a.
Proof.
  revert a. induction n as [|n IH]; intros a H; simpl; [done|].
  rewrite (H a) by lia. rewrite IH; [done|]. intros x Hx. apply H. lia.
Qed.

Lemma ldn_range n m a : 0 <= ldn n m a < 2 ^ (8 * Z.of_nat n).
Proof.
  revert a. induction n as [|n IH]; intros a; simpl ldn; [done|].
  pose proof (ld8_range m a). specialize (IH (a + 1)).
  replace (8 * Z.of_nat (S n)) with (8 + 8 * Z.of_nat n) by lia.
  rewrite Z.pow_add_r by lia. change (2 ^ 8) with 256. lia.
Qed.

Lemma ld8_stn_other n m a v x :
  x < a \/ a + Z.of_nat n <= x -> ld8 (stn n m a v) x = ld8 m x.
Proof.
  revert m a v. induction n as [|n IH]; intros m a v H; simpl; [done|].
  rewrite IH by lia. apply ld8_st8_ne. lia.
Qed.

Lemma ldn_stn_other n k m a v b :
  b + Z.of_nat k <= a \/ a + Z.of_nat n <= b -> ldn k (stn n m a v) b = ldn k m b.
Proof. intros H. apply ldn_ext. intros x Hx. apply ld8_stn_other. lia. Qed.

Lemma ldn_stn_eq n m a v : ldn n (stn n m a v) a = v mod 2 ^ (8 * Z.of_nat n).
Proof.
  revert m a v. induction n as [|n IH]; intros m a v; simpl ldn; simpl stn.
  { by rewrite Z.mod_1_r. }
  rewrite IH, ld8_stn_other, ld8_st8_eq by lia.
  replace (8 * Z.of_nat (S n)) with (8 + 8 * Z.of_nat n) by lia.
  rewrite Z.pow_add_r by lia. change (2 ^ 8) with 256.
  rewrite Z.rem_mul_r by lia. reflexivity.
Qed.

Lemma ld64_range m a : 0 <= ld64 m a < 2 ^ 64.
Proof. apply (ldn_range 8). Qed.

Lemma ld64_st64_eq m a v : ld64 (st64 m a v) a = u64 v.
Proof. apply (ldn_stn_eq 8). Qed.

Lemma ld64_st64_other m a v b : b + 8 <= a \/ a + 8 <= b -> ld64 (st64 m a v) b = ld64 m b.
Proof. apply (ldn_stn_other 8 8). Qed.

Lemma ld64_ext m1 m2 a :
  (forall x, a <= x < a + 8 -> ld8 m1 x = ld8 m2 x) -> ld64 m1 a = ld64 m2 a.
Proof. apply (ldn_ext 8). Qed.

#[global] Instance ldn_proper n : Proper ((≡) ==> eq ==> eq) (ldn n).
Proof. intros m1 m2 Hm a b <-. apply ldn_ext. intros x _. apply Hm. Qed.
#[global] Instance ld8_proper : Proper ((≡@{mem}) ==> eq ==> eq) ld8.
Proof. intros m1 m2 Hm a b <-. apply Hm. Qed.
#[global] Instance st8_proper : Proper ((≡@{mem}) ==> eq ==> eq ==> (≡)) st8.
Proof.
  intros m1 m2 Hm a b <- v w <- x. rewrite !ld8_st8. destruct (x =? a); [done|apply Hm].
Qed.
#[global] Instance stn_proper n : Proper ((≡@{mem}) ==> eq ==> eq ==> (≡)) (stn n).
Proof.
  induction n as [|n IH]; intros m1 m2 Hm a b <- v w <-; simpl; [done|].
  apply IH; [|done..]. by apply st8_proper.
Qed.

#[global] Opaque ld64 st64.

(** ** Automation shared by the components *)

Create HintDb kernel discriminated.
Create Rewrite HintDb kernel.
#[export] Hint Resolve ld8_range ld64_range u64_range u8_range : kernel.
#[export] Hint Rewrite ld64_st64_eq ld8_st8_eq : kernel.
#[export] Hint Rewrite ld64_st64_other ld8_st8_ne using lia : kernel.

Ltac bool_to_prop :=
  repeat match goal with
         | H : (_ && _)%bool = true |- _ => apply andb_true_iff in H as [? ?]
         | H : (_ || _)%bool = false |- _ => apply orb_false_iff in H as [? ?]
         | H : negb _ = true |- _ => apply negb_true_iff in H
         | H : negb _ = false |- _ => apply negb_false_iff in H
         | H : (_ =? _) = true |- _ => apply Z.eqb_eq in H
         | H : (_ =? _) = false |- _ => apply Z.eqb_neq in H
         | H : (_ <? _) = true |- _ => apply Z.ltb_lt in H
         | H : (_ <? _) = false |- _ => apply Z.ltb_ge in H
         | H : (_ <=? _) = true |- _ => apply Z.leb_le in H
         | H : (_ <=? _) = false |- _ => apply Z.leb_gt in H
         end.

(** [lia] with the defining equations of the divisions and remainders. *)
Ltac dlia := Z.to_euclidean_division_equations; lia.

(** Splits on the first integer comparison of the goal. *)
Ltac case_cmp :=
  match goal with
  | |- context [?a =? ?b] => destruct (Z.eqb_spec a b)
  | |- context [?a <? ?b] => destruct (Z.ltb_spec a b)
  | |- context [?a <=? ?b] => destruct (Z.leb_spec a b)
  end.
