(* ===== verification/CString.v ===== *)
(** Byte and string routines: kernel/string.c (user/string.c holds the same
    code for [memset] ... [strncpy], and [strchr]).

    [char] is unsigned on riscv64, so a byte is read as 0..255. Pointers are
    unbounded here: a C object never wraps around the address space. Loops
    that run over a counter are structural in the number of iterations left;
    the loops that look for a terminator carry fuel. *)

From S2P Require Import Prelude.

(** ** Definitions *)

(** [for (i = 0; i < n; i++) *(cdst + i) = c;] *)
Fixpoint memset_loop (k : nat) (m : mem) (cdst c i : Z) : mem :=
  match k with
  | O => m
  | S k' => memset_loop k' (st8 m (cdst + i) c) cdst c (i + 1)
  end.

Definition memset (m : mem) (dst c n : Z) : mem :=
  memset_loop (Z.to_nat (u32 n)) m dst c 0.

(** [while (n-- > 0) *d++ = *s++;] *)
Fixpoint move_fwd (k : nat) (m : mem) (d s : Z) : mem :=
  match k with
  | O => m
  | S k' => move_fwd k' (st8 m d (ld8 m s)) (d + 1) (s + 1)
  end.

(** [while (n-- > 0) *--d = *--s;] *)
Fixpoint move_bwd (k : nat) (m : mem) (d s : Z) : mem :=
  match k with
  | O => m
  | S k' => move_bwd k' (st8 m (d - 1) (ld8 m (s - 1))) (d - 1) (s - 1)
  end.

Definition memmove (m : mem) (dst src n : Z) : mem :=
  let n := u32 n in
  if n =? 0 then m
  else if (src <? dst) && (dst <? src + n)
       then move_bwd (Z.to_nat n) m (dst + n) (src + n)
       else move_fwd (Z.to_nat n) m dst src.

Definition memcpy (m : mem) (dst src n : Z) : mem := memmove m dst src n.

Fixpoint strlen_loop (fuel : nat) (m : mem) (s len : Z) : res Z :=
  match fuel with
  | O => NoFuel
  | S f => if ld8 m (s + len) =? 0 then Ret len else strlen_loop f m s (len + 1)
  end.

Definition strlen (fuel : nat) (m : mem) (s : Z) : res Z := strlen_loop fuel m s 0.

(** The loop of [strncmp]: [k] is [len - idx]. It stops with the index when a
    terminator or the length is met and with the difference otherwise. *)
Fixpoint strncmp_loop (k : nat) (m : mem) (s1 s2 idx : Z) : Z + Z :=
  if (ld8 m (s1 + idx) =? 0) || (ld8 m (s2 + idx) =? 0) then inl idx
  else match k with
       | O => inl idx
       | S k' => if negb (ld8 m (s1 + idx) =? ld8 m (s2 + idx))
                 then inr (ld8 m (s1 + idx) - ld8 m (s2 + idx))
                 else strncmp_loop k' m s1 s2 (idx + 1)
       end.

Definition strncmp (m : mem) (s1 s2 len : Z) : Z :=
  match strncmp_loop (Z.to_nat len) m s1 s2 0 with
  | inr d => d
  | inl idx => if len <=? idx then 0
               else if negb (ld8 m (s1 + len) =? 0) then ld8 m (s1 + idx)
               else ld8 m (s2 + idx)
  end.

(** [while (n-- > 0 && (dst[idx] = src[idx]) != 0) ++idx;] with the values of
    the memory, of [idx] and of the wrapped [n] when it ends. *)
Fixpoint strncpy_loop (k : nat) (m : mem) (dst src idx : Z) : mem * Z * Z :=
  match k with
  | O => (m, idx, u64 (-1))
  | S k' => let c := ld8 m (src + idx) in
            let m := st8 m (dst + idx) c in
            if c =? 0 then (m, idx, Z.of_nat k')
            else strncpy_loop k' m dst src (idx + 1)
  end.

Definition strncpy (m : mem) (dst src n : Z) : mem * Z :=
  if n <=? 0 then (m, 0)
  else let '(m, idx, n') := strncpy_loop (Z.to_nat n) m dst src 0 in
       (st8 m (dst + idx) 0, u64 (n - n')).

(** [char* strchr] of user/string.c: the address found, 0 for [NULL]. *)
Fixpoint strchr (fuel : nat) (m : mem) (s c : Z) : res Z :=
  match fuel with
  | O => NoFuel
  | S f => if ld8 m s =? 0 then Ret 0
           else if ld8 m s =? u8 c then Ret s
           else strchr f m (s + 1) c
  end.

(** [wchar] is 16 bits wide: [dst[i]] is at byte [2 * i]. *)
Fixpoint str2wstr_loop (k : nat) (m : mem) (dst src i : Z) : mem * Z :=
  match k with
  | O => (m, i)
  | S k' => str2wstr_loop k' (st16 m (dst + 2 * i) (ld8 m (src + i))) dst src (i + 1)
  end.

Definition str2wstr (m : mem) (dst src srclen : Z) : mem * Z :=
  let '(m, i) := str2wstr_loop (Z.to_nat srclen) m dst src 0 in
  (st16 m (dst + 2 * i) 0, i).

Fixpoint wstr2str_loop (k : nat) (m : mem) (dst src i : Z) : mem * Z :=
  match k with
  | O => (m, i)
  | S k' => wstr2str_loop k' (st8 m (dst + i) (ld8 m (src + i * 2))) dst src (i + 1)
  end.

Definition wstr2str (m : mem) (dst src srclen : Z) : mem * Z :=
  wstr2str_loop (Z.to_nat (Z.quot srclen 2)) m dst src 0.

(** The bound of the loop is the byte it is about to read, at most 255: 256
    iterations always reach the exit. *)
Fixpoint fill_fat32_long_name_loop (k : nat) (m : mem) (dst src i j : Z) : mem * Z :=
  match k with
  | O => (m, j)
  | S k' =>
      if i <? ld8 m (src + i)
      then if ld8 m (src + i) =? 255
           then fill_fat32_long_name_loop k' m dst src (i + 1) j
           else fill_fat32_long_name_loop k' (st8 m (dst + j) (ld8 m (src + i))) dst src
                  (i + 1) (j + 1)
      else (m, j)
  end.

Definition fill_fat32_long_name (m : mem) (dst src : Z) : mem * Z :=
  let '(m, j) := fill_fat32_long_name_loop 256 m dst src 0 0 in
  (st8 m (dst + j) 0, j).

Definition FATDIR_DLT : Z := 0x20.
Definition DOT : Z := 46.

(** The two loops of [read_fat32_short_name]. *)
Fixpoint read_short_base (k : nat) (m : mem) (dst src i j : Z) : mem * Z :=
  match k with
  | O => (m, j)
  | S k' => if ld8 m (src + i) =? FATDIR_DLT then (m, j)
            else read_short_base k' (st8 m (dst + j) (ld8 m (src + i))) dst src (i + 1) (j + 1)
  end.

Fixpoint read_short_ext (k : nat) (m : mem) (dst src i j : Z) : mem * Z :=
  match k with
  | O => (m, j)
  | S k' =>
      if ld8 m (src + i) =? FATDIR_DLT then (m, j)
      else let '(m, j) := if i =? 8 then (st8 m (dst + j) DOT, j + 1) else (m, j) in
           read_short_ext k' (st8 m (dst + j) (ld8 m (src + i))) dst src (i + 1) (j + 1)
  end.

Definition read_fat32_short_name (m : mem) (dst src : Z) : mem * Z :=
  let '(m, j) := read_short_base 8 m dst src 0 0 in
  let '(m, j) := read_short_ext 3 m dst src 8 j in
  (st8 m (dst + j) 0, j).

(** [for (name = 0; src[name] != '.' && src[name] != '\0'; name++);] *)
Fixpoint scan_dot (fuel : nat) (m : mem) (src name : Z) : res Z :=
  match fuel with
  | O => NoFuel
  | S f => if (ld8 m (src + name) =? DOT) || (ld8 m (src + name) =? 0) then Ret name
           else scan_dot f m src (name + 1)
  end.

(** [for (attr = name + 1; src[attr] != '\0'; attr++);] *)
Fixpoint scan_nul (fuel : nat) (m : mem) (src attr : Z) : res Z :=
  match fuel with
  | O => NoFuel
  | S f => if ld8 m (src + attr) =? 0 then Ret attr else scan_nul f m src (attr + 1)
  end.

(** The two padding loops of [write_fat32_short_name]: byte [i] is
    [src[off + i]] while [i < lim] and a blank after it. *)
Fixpoint pad_loop (k : nat) (m : mem) (dst src off lim i : Z) : mem :=
  match k with
  | O => m
  | S k' => pad_loop k' (st8 m (dst + i) (if i <? lim then ld8 m (src + off + i) else FATDIR_DLT))
              dst src off lim (i + 1)
  end.

Definition write_fat32_short_name (fuel : nat) (m : mem) (dst src : Z) : res (mem * Z) :=
  res_bind (scan_dot fuel m src 0) (fun name =>
  res_bind (scan_nul fuel m src (name + 1)) (fun attr =>
  let attr := attr - name - 1 in
  let m := pad_loop 8 m dst src 0 name 0 in
  let m := pad_loop 3 m (dst + 8) src (name + 1) attr 0 in
  Ret (m, 0))).

(** A C string in memory: the bytes of [l], none of them 0, then a 0. *)
Fixpoint cstr (m : mem) (s : Z) (l : list Z) : Prop :=
  match l with
  | [] => ld8 m s = 0
  | c :: l' => ld8 m s = c /\ c <> 0 /\ cstr m (s + 1) l'
  end.

(** ** [memset] *)

Lemma memset_loop_spec k m d c i a :
  ld8 (memset_loop k m d c i) a =
  if (d + i <=? a) && (a <? d + i + Z.of_nat k) then u8 c else ld8 m a.
Proof.
  revert m i. induction k as [|k IH]; intros m i; simpl memset_loop.
  - repeat case_cmp; simpl; lia || done.
  - rewrite IH, ld8_st8. repeat case_cmp; simpl; lia || done.
Qed.

Lemma memset_spec m d c n a :
  0 <= n < 2 ^ 32 ->
  ld8 (memset m d c n) a = if (d <=? a) && (a <? d + n) then u8 c else ld8 m a.
Proof.
  intros Hn. unfold memset. rewrite memset_loop_spec, u32_small by done.
  by rewrite Z.add_0_r, Z2Nat.id by lia.
Qed.

Lemma memset_in m d c n a :
  0 <= n < 2 ^ 32 -> d <= a < d + n -> ld8 (memset m d c n) a = u8 c.
Proof. intros Hn Ha. rewrite memset_spec by done. repeat case_cmp; simpl; lia || done. Qed.

Lemma memset_out m d c n a :
  0 <= n < 2 ^ 32 -> a < d \/ d + n <= a -> ld8 (memset m d c n) a = ld8 m a.
Proof. intros Hn Ha. rewrite memset_spec by done. repeat case_cmp; simpl; lia || done. Qed.

Lemma memset_ld64_out m d c n a :
  0 <= n < 2 ^ 32 -> a + 8 <= d \/ d + n <= a -> ld64 (memset m d c n) a = ld64 m a.
Proof. intros Hn Ha. apply ld64_ext. intros x Hx. apply memset_out; lia. Qed.

(** A word of a region filled with the byte [c]. *)
Definition word_of_byte (c : Z) : Z := ldn 8 (fun _ => c) 0.

Lemma memset_ld64_in m d c n a :
  0 <= n < 2 ^ 32 -> d <= a -> a + 8 <= d + n -> ld64 (memset m d c n) a = word_of_byte c.
Proof.
  intros Hn H1 H2. unfold word_of_byte.
  transitivity (ld64 (fun _ => c) a); [|done].
  apply ld64_ext. intros x Hx. rewrite memset_in by lia. done.
Qed.

Lemma memset_ld64_zero m d n a :
  0 <= n < 2 ^ 32 -> d <= a -> a + 8 <= d + n -> ld64 (memset m d 0 n) a = 0.
Proof. intros Hn H1 H2. by rewrite memset_ld64_in. Qed.

(** ** [memmove] *)

Lemma move_fwd_spec k m d s a :
  d <= s \/ s + Z.of_nat k <= d ->
  ld8 (move_fwd k m d s) a =
  if (d <=? a) && (a <? d + Z.of_nat k) then ld8 m (s + (a - d)) else ld8 m a.
Proof.
  revert m d s. induction k as [|k IH]; intros m d s H; simpl move_fwd.
  { repeat case_cmp; simpl; lia || done. }
  rewrite IH by lia. rewrite !ld8_st8.
  replace (s + 1 + (a - (d + 1))) with (s + (a - d)) by lia.
  destruct (Z.eqb_spec a d) as [->|Hne].
  - rewrite Z.sub_diag, Z.add_0_r, (u8_small (ld8 m s)) by apply ld8_range.
    repeat case_cmp; simpl; lia || done.
  - repeat case_cmp; simpl; lia || done.
Qed.

Lemma move_bwd_spec k m d s a :
  s <= d ->
  ld8 (move_bwd k m d s) a =
  if (d - Z.of_nat k <=? a) && (a <? d) then ld8 m (s - (d - a)) else ld8 m a.
Proof.
  revert m d s. induction k as [|k IH]; intros m d s H; simpl move_bwd.
  { repeat case_cmp; simpl; lia || done. }
  rewrite IH by lia. rewrite !ld8_st8.
  replace (s - 1 - (d - 1 - a)) with (s - (d - a)) by lia.
  destruct (Z.eqb_spec a (d - 1)) as [->|Hne].
  - replace (s - (d - (d - 1))) with (s - 1) by lia.
    rewrite (u8_small (ld8 m (s - 1))) by apply ld8_range.
    repeat case_cmp; simpl; lia || done.
  - repeat case_cmp; simpl; lia || done.
Qed.

Lemma memmove_ld8 m d s n a :
  0 <= n < 2 ^ 32 ->
  ld8 (memmove m d s n) a = if (d <=? a) && (a <? d + n) then ld8 m (s + (a - d)) else ld8 m a.
Proof.
  intros Hn. unfold memmove. rewrite u32_small by done.
  destruct (Z.eqb_spec n 0) as [->|Hn0].
  { repeat case_cmp; simpl; lia || done. }
  destruct ((s <? d) && (d <? s + n)) eqn:Hov.
  - bool_to_prop. rewrite move_bwd_spec by lia. rewrite Z2Nat.id by lia.
    replace (d + n - n) with d by lia.
    by replace (s + n - (d + n - a)) with (s + (a - d)) by lia.
  - rewrite move_fwd_spec; [by rewrite Z2Nat.id by lia|].
    apply andb_false_iff in Hov as [Hov|Hov]; bool_to_prop; lia.
Qed.

(** ** C strings *)

Lemma cstr_app m s l1 l2 :
  cstr m s (l1 ++ l2) <->
  (forall i c, l1 !! i = Some c -> ld8 m (s + Z.of_nat i) = c /\ c <> 0) /\
  cstr m (s + Z.of_nat (length l1)) l2.
Proof.
  revert s. induction l1 as [|c l1 IH]; intros s; simpl.
  - rewrite Z.add_0_r. naive_solver.
  - rewrite IH. replace (s + 1 + Z.of_nat (length l1)) with (s + Z.of_nat (S (length l1))) by lia.
    split.
    + intros (Hc & Hn & Hl & H). split; [|done]. intros [|i] c' Hi; simpl in Hi.
      * simplify_eq. by rewrite Z.add_0_r.
      * specialize (Hl i c' Hi). by replace (s + Z.of_nat (S i)) with (s + 1 + Z.of_nat i) by lia.
    + intros [Hl H]. destruct (Hl 0%nat c) as [Hc Hn]; [done|]. rewrite Z.add_0_r in Hc.
      split_and!; try done. intros i c' Hi. destruct (Hl (S i) c') as [? ?]; [done|].
      by replace (s + 1 + Z.of_nat i) with (s + Z.of_nat (S i)) by lia.
Qed.

Lemma cstr_spec m s l :
  cstr m s l <->
  (forall i c, l !! i = Some c -> ld8 m (s + Z.of_nat i) = c /\ c <> 0) /\
  ld8 m (s + Z.of_nat (length l)) = 0.
Proof. rewrite <-(app_nil_r l) at 1. by rewrite cstr_app. Qed.

Lemma cstr_lookup m s l i c :
  cstr m s l -> l !! i = Some c -> ld8 m (s + Z.of_nat i) = c /\ c <> 0.
Proof. rewrite cstr_spec. naive_solver. Qed.

Lemma cstr_end m s l : cstr m s l -> ld8 m (s + Z.of_nat (length l)) = 0.
Proof. rewrite cstr_spec. naive_solver. Qed.

Lemma cstr_ext m m' s l :
  (forall a, s <= a <= s + Z.of_nat (length l) -> ld8 m' a = ld8 m a) ->
  cstr m s l -> cstr m' s l.
Proof.
  rewrite !cstr_spec. intros Hext [Hl He]. split.
  - intros i c Hi. rewrite Hext; [by apply Hl|]. apply lookup_lt_Some in Hi. lia.
  - rewrite Hext; [done|lia].
Qed.

Lemma strlen_loop_spec fuel m s l len :
  cstr m (s + len) l -> (length l < fuel)%nat ->
  strlen_loop fuel m s len = Ret (len + Z.of_nat (length l)).
Proof.
  revert fuel len. induction l as [|c l IH]; intros [|fuel] len Hc Hf; simpl in *; try lia.
  - rewrite Hc. simpl. f_equal. lia.
  - destruct Hc as (-> & Hc & Hl). apply Z.eqb_neq in Hc as ->.
    rewrite IH; [f_equal; lia| |lia]. by rewrite Z.add_assoc.
Qed.

Lemma strlen_cstr fuel m s l :
  cstr m s l -> (length l < fuel)%nat -> strlen fuel m s = Ret (Z.of_nat (length l)).
Proof. intros Hc Hf. unfold strlen. rewrite (strlen_loop_spec _ _ _ l); rewrite ?Z.add_0_r; done. Qed.

(** ** [strncmp] *)

(** The three ways the loop of [strncmp] ends when the length is that of the
    second string. *)
Lemma strncmp_loop_cases m s1 s2 l1 l2 idx :
  cstr m (s1 + idx) l1 -> cstr m (s2 + idx) l2 ->
  (l2 `prefix_of` l1 /\
   strncmp_loop (length l2) m s1 s2 idx = inl (idx + Z.of_nat (length l2))) \/
  (~ l2 `prefix_of` l1 /\
   (exists d, d <> 0 /\ strncmp_loop (length l2) m s1 s2 idx = inr d)) \/
  (~ l2 `prefix_of` l1 /\ (length l1 < length l2)%nat /\
   strncmp_loop (length l2) m s1 s2 idx = inl (idx + Z.of_nat (length l1)) /\
   ld8 m (s2 + (idx + Z.of_nat (length l1))) <> 0).
Proof.
  revert l1 idx. induction l2 as [|c2 l2 IH]; intros l1 idx H1 H2; simpl in H2.
  { left. split; [apply prefix_nil|]. simpl. rewrite H2, orb_true_r. f_equal. lia. }
  destruct H2 as (E2 & Hn2 & H2). destruct l1 as [|c1 l1]; simpl in H1.
  { right; right. simpl. rewrite H1. simpl. rewrite Z.add_0_r, E2.
    split_and!; [by intros ?%prefix_nil_inv|lia|done|done]. }
  destruct H1 as (E1 & Hn1 & H1). simpl. rewrite E1, E2.
  rewrite (proj2 (Z.eqb_neq c1 0) Hn1), (proj2 (Z.eqb_neq c2 0) Hn2). simpl.
  destruct (Z.eqb_spec c1 c2) as [->|Hne]; simpl.
  2:{ right; left. split; [by intros ?%prefix_cons_inv_1|]. exists (c1 - c2). split; [lia|done]. }
  rewrite <-Z.add_assoc in H1, H2.
  destruct (IH l1 (idx + 1) H1 H2) as [[Hp Hl]|[(Hp & d & Hd & Hl)|(Hp & Hlt & Hl & Hz)]].
  - left. split; [by apply prefix_cons|]. rewrite Hl. f_equal. lia.
  - right; left. split; [by intros ?%prefix_cons_inv_2|]. eauto.
  - right; right. split; [by intros ?%prefix_cons_inv_2|]. rewrite Hl.
    split_and!; [lia|f_equal; lia|].
    by replace (idx + Z.of_nat (S (length l1))) with (idx + 1 + Z.of_nat (length l1)) by lia.
Qed.

(** A string compared with a longer one by [strncmp] is decided by a byte
    beyond its own terminator: when that byte is not 0 the two compare equal. *)
Lemma strncmp_short_collides m s1 s2 l1 l2 :
  cstr m s1 l1 -> cstr m s2 l2 -> l1 `prefix_of` l2 -> l1 <> l2 ->
  ld8 m (s1 + Z.of_nat (length l2)) <> 0 -> strncmp m s1 s2 (Z.of_nat (length l2)) = 0.
Proof.
  intros H1 H2 [k ->] Hne Hz. destruct k as [|c k]; [by rewrite app_nil_r in Hne|].
  unfold strncmp. rewrite Nat2Z.id.
  destruct (strncmp_loop_cases m s1 s2 l1 (l1 ++ c :: k) 0) as [[Hp Hl]|[(Hp & d & Hd & Hl)|(Hp & Hlt & Hl & Hs2)]];
    rewrite ?Z.add_0_r; try done.
  - apply prefix_length in Hp. rewrite length_app in Hp. simpl in Hp. lia.
  - exfalso. clear -H1 H2 Hl Hd.
    assert (forall idx, cstr m (s1 + idx) l1 -> cstr m (s2 + idx) (l1 ++ c :: k) ->
      strncmp_loop (length (l1 ++ c :: k)) m s1 s2 idx = inl (idx + Z.of_nat (length l1))) as Hgen.
    { clear. revert c k. induction l1 as [|x l1 IH]; intros c k idx H1 H2; simpl in *.
      - rewrite H1. simpl. f_equal. lia.
      - destruct H1 as (E1 & Hx & H1), H2 as (E2 & _ & H2). rewrite E1, E2, Z.eqb_refl.
        apply Z.eqb_neq in Hx as ->. simpl. rewrite <-Z.add_assoc in H1, H2.
        rewrite (IH c k) by done. f_equal. lia. }
    rewrite Hgen in Hl by (by rewrite Z.add_0_r). done.
  - rewrite Hl, Z.add_0_l. destruct (Z.leb _ _); [done|].
    apply Z.eqb_neq in Hz as ->. simpl. by apply cstr_end.
Qed.

(** ** [strncpy] *)

Lemma strncpy_loop_spec k m d s idx l :
  cstr m (s + idx) l ->
  (d + idx + Z.of_nat (k `min` S (length l)) <= s + idx \/ s + idx + Z.of_nat (length l) < d + idx) ->
  exists m', strncpy_loop k m d s idx =
    (m', idx + Z.of_nat (k `min` length l),
     if (length l <? k)%nat then Z.of_nat k - Z.of_nat (length l) - 1 else u64 (-1)) /\
    forall a, ld8 m' a =
      if (d + idx <=? a) && (a <? d + idx + Z.of_nat (k `min` S (length l)))
      then ld8 m (s + idx + (a - (d + idx))) else ld8 m a.
Proof.
  revert m idx l. induction k as [|k IH]; intros m idx l Hc Hd.
  { exists m. split; [simpl; by rewrite Z.add_0_r|]. intros a. repeat case_cmp; simpl; lia || done. }
  destruct l as [|c l]; simpl in Hc.
  { simpl strncpy_loop. rewrite Hc. simpl. eexists. split; [f_equal; [f_equal; lia|lia]|].
    intros a. rewrite ld8_st8. destruct (Z.eqb_spec a (d + idx)) as [->|Hne].
    - rewrite Z.sub_diag, Z.add_0_r, Hc. repeat case_cmp; simpl; lia || done.
    - repeat case_cmp; simpl; lia || done. }
  destruct Hc as (Hc & Hn & Hl). simpl in Hd. simpl strncpy_loop. rewrite Hc.
  pose proof Hn as Hn'. apply Z.eqb_neq in Hn' as ->.
  destruct (IH (st8 m (d + idx) c) (idx + 1) l) as (m' & Hr & Hm').
  { eapply cstr_ext; [|by rewrite Z.add_assoc]. intros a Ha. apply ld8_st8_ne. lia. }
  { lia. }
  exists m'. split.
  { rewrite Hr. simpl length. f_equal; [f_equal; lia|].
    change (S (length l) <? S k)%nat with (length l <? k)%nat.
    destruct (length l <? k)%nat; lia. }
  intros a. rewrite Hm'. simpl length. rewrite !ld8_st8.
  destruct (Z.eqb_spec a (d + idx)) as [->|Hne].
  - rewrite Z.sub_diag, Z.add_0_r, Hc.
    assert (u8 c = c) by (rewrite <-Hc; apply u8_small, ld8_range).
    repeat case_cmp; simpl; lia || done.
  - replace (s + (idx + 1) + (a - (d + (idx + 1)))) with (s + idx + (a - (d + idx))) by lia.
    repeat case_cmp; simpl; lia || done.
Qed.

Lemma strncpy_effect m d s n l :
  0 < n < 2 ^ 64 - 1 -> cstr m s l ->
  d + n + 1 <= s \/ s + Z.of_nat (length l) < d ->
  let w := Z.of_nat (Z.to_nat n `min` length l) in
  exists m', strncpy m d s n = (m', w + 1) /\
    (forall a, d <= a < d + w -> ld8 m' a = ld8 m (s + (a - d))) /\
    ld8 m' (d + w) = 0 /\
    (forall a, a < d \/ d + w < a -> ld8 m' a = ld8 m a).
Proof.
  intros Hn Hc Hd w. unfold strncpy. destruct (Z.leb_spec n 0); [lia|].
  destruct (strncpy_loop_spec (Z.to_nat n) m d s 0 l) as (m' & -> & Hm').
  { by rewrite Z.add_0_r. } { rewrite !Z.add_0_r. lia. }
  rewrite !Z.add_0_l in *. rewrite !Z.add_0_r in Hm'. eexists. split; [f_equal|].
  - destruct (Nat.ltb_spec (length l) (Z.to_nat n)).
    + rewrite u64_small by lia. unfold w. lia.
    + transitivity (u64 (n + 1)); [|rewrite u64_small; unfold w; lia].
      unfold u64, wrap. rewrite Zminus_mod_idemp_r. f_equal; lia.
  - fold w. split_and!.
    + intros a Ha. rewrite ld8_st8_ne by lia. rewrite Hm'. repeat case_cmp; simpl; lia || done.
    + apply ld8_st8_eq.
    + intros a Ha. rewrite ld8_st8_ne by lia. rewrite Hm'.
      repeat case_cmp; simpl; try done. exfalso. lia.
Qed.

(** ** FAT short names *)

Definition bytes_at (m : mem) (s : Z) (l : list Z) : Prop :=
  forall i c, l !! i = Some c -> ld8 m (s + Z.of_nat i) = c.

Lemma bytes_at_cons m s c l :
  bytes_at m s (c :: l) <-> ld8 m s = c /\ bytes_at m (s + 1) l.
Proof.
  unfold bytes_at. split.
  - intros H. split; [rewrite <-(Z.add_0_r s); by apply (H 0%nat)|].
    intros i x Hi. rewrite <-(H (S i) x Hi). f_equal. lia.
  - intros [H0 H] [|i] x Hi; simplify_eq/=; [f_equal; lia|].
    rewrite <-(H i x Hi). f_equal. lia.
Qed.

Lemma bytes_at_ext m m' s l :
  (forall a, s <= a < s + Z.of_nat (length l) -> ld8 m' a = ld8 m a) ->
  bytes_at m s l -> bytes_at m' s l.
Proof.
  intros He H i c Hi. rewrite He; [by apply H|]. apply lookup_lt_Some in Hi. lia.
Qed.

Lemma bytes_at_shift m m' s s' l :
  (forall i, 0 <= i < Z.of_nat (length l) -> ld8 m' (s' + i) = ld8 m (s + i)) ->
  bytes_at m s l -> bytes_at m' s' l.
Proof.
  intros He H i c Hi. rewrite He; [by apply H|]. apply lookup_lt_Some in Hi. lia.
Qed.

Lemma cstr_bytes_at m s l :
  cstr m s l <-> bytes_at m s l /\ Forall (fun c => c <> 0) l /\ ld8 m (s + Z.of_nat (length l)) = 0.
Proof.
  rewrite cstr_spec, Forall_lookup. unfold bytes_at. split.
  - intros [H He]. split_and!; [intros i c Hi; by apply H|intros i c Hi; by apply (H i)|done].
  - intros (H & Hn & He). split; [|done]. intros i c Hi. split; [by apply H|by apply (Hn i)].
Qed.

Lemma scan_dot_spec fuel m s n base :
  bytes_at m (s + n) base -> Forall (fun c => c <> DOT /\ c <> 0) base ->
  ld8 m (s + n + Z.of_nat (length base)) = DOT \/ ld8 m (s + n + Z.of_nat (length base)) = 0 ->
  (length base < fuel)%nat -> scan_dot fuel m s n = Ret (n + Z.of_nat (length base)).
Proof.
  revert fuel n. induction base as [|c base IH]; intros [|fuel] n Hb Hf He Hl; simpl in *; try lia.
  - rewrite Z.add_0_r in He. destruct He as [-> | ->]; simpl; f_equal; lia.
  - apply bytes_at_cons in Hb as [-> Hb]. apply Forall_cons in Hf as [[Hd Hz] Hf].
    apply Z.eqb_neq in Hd as ->. apply Z.eqb_neq in Hz as ->. simpl.
    rewrite IH; [f_equal; lia| |done| |lia].
    + by rewrite Z.add_assoc.
    + by replace (s + (n + 1) + Z.of_nat (length base)) with (s + n + Z.of_nat (S (length base))) by lia.
Qed.

Lemma scan_nul_spec fuel m s n l :
  cstr m (s + n) l -> (length l < fuel)%nat -> scan_nul fuel m s n = Ret (n + Z.of_nat (length l)).
Proof.
  revert fuel n. induction l as [|c l IH]; intros [|fuel] n Hc Hl; simpl in *; try lia.
  - rewrite Hc. simpl. f_equal. lia.
  - destruct Hc as (-> & Hz & Hc). apply Z.eqb_neq in Hz as ->.
    rewrite IH; [f_equal; lia| |lia]. by rewrite Z.add_assoc.
Qed.

Lemma pad_loop_spec k m d s off lim i a :
  (forall j, i <= j < lim -> s + off + j < d + i \/ d + i + Z.of_nat k <= s + off + j) ->
  ld8 (pad_loop k m d s off lim i) a =
  if (d + i <=? a) && (a <? d + i + Z.of_nat k)
  then (if a - d <? lim then ld8 m (s + off + (a - d)) else FATDIR_DLT)
  else ld8 m a.
Proof.
  revert m i. induction k as [|k IH]; intros m i Hd; simpl pad_loop.
  { repeat case_cmp; simpl; lia || done. }
  rewrite IH by (intros j Hj; specialize (Hd j ltac:(lia)); lia).
  destruct (Z.eqb_spec a (d + i)) as [->|Hne].
  - rewrite ld8_st8_eq. replace (d + i - d) with i by lia.
    assert (u8 (if i <? lim then ld8 m (s + off + i) else FATDIR_DLT) =
            if i <? lim then ld8 m (s + off + i) else FATDIR_DLT) as ->.
    { destruct (i <? lim); [apply u8_small, ld8_range|done]. }
    repeat case_cmp; simpl; lia || done.
  - assert ((a - d <? lim) = true -> d + i <= a ->
      ld8 (st8 m (d + i) (if i <? lim then ld8 m (s + off + i) else FATDIR_DLT)) (s + off + (a - d))
      = ld8 m (s + off + (a - d))) as Hsrc.
    { intros Ha Hle. bool_to_prop. apply ld8_st8_ne.
      destruct (Hd (a - d)); [|lia..]. lia. }
    rewrite (ld8_st8_ne _ _ _ a) by done.
    repeat case_cmp; simpl; try lia; try done; apply Hsrc; lia || done.
Qed.

Lemma pad_loop_out k m d s off lim i a :
  a < d + i \/ d + i + Z.of_nat k <= a -> ld8 (pad_loop k m d s off lim i) a = ld8 m a.
Proof.
  revert m i. induction k as [|k IH]; intros m i Ha; simpl pad_loop; [done|].
  rewrite IH by lia. apply ld8_st8_ne. lia.
Qed.

Lemma read_short_base_spec k m d s i j l :
  bytes_at m (s + i) l -> Forall (fun c => c <> FATDIR_DLT) l -> (length l <= k)%nat ->
  ((length l < k)%nat -> ld8 m (s + i + Z.of_nat (length l)) = FATDIR_DLT) ->
  d + j + Z.of_nat (length l) <= s + i \/ s + i + Z.of_nat (length l) < d + j ->
  exists m', read_short_base k m d s i j = (m', j + Z.of_nat (length l)) /\
    bytes_at m' (d + j) l /\
    forall a, a < d + j \/ d + j + Z.of_nat (length l) <= a -> ld8 m' a = ld8 m a.
Proof.
  revert m i j l. induction k as [|k IH]; intros m i j l Hb Hn Hk He Hd.
  { destruct l; simpl in Hk; [|lia]. exists m. split_and!; [simpl; by rewrite Z.add_0_r|done|done]. }
  destruct l as [|c l]; simpl read_short_base.
  { simpl in He. rewrite Z.add_0_r in He. rewrite He by lia. simpl.
    exists m. split_and!; [by rewrite Z.add_0_r|done|done]. }
  apply bytes_at_cons in Hb as [Hc Hb]. apply Forall_cons in Hn as [Hnc Hn].
  simpl in Hd, Hk, He. rewrite Hc. apply Z.eqb_neq in Hnc as ->.
  destruct (IH (st8 m (d + j) c) (i + 1) (j + 1) l) as (m' & Hr & Hb' & Hf); try done; try lia.
  { eapply bytes_at_ext; [|by rewrite Z.add_assoc]. intros a Ha. apply ld8_st8_ne. lia. }
  { intros Hlt. rewrite ld8_st8_ne by lia. rewrite <-He by lia. f_equal. lia. }
  exists m'. split_and!.
  - rewrite Hr. f_equal. simpl. lia.
  - apply bytes_at_cons. split; [|by rewrite <-Z.add_assoc].
    rewrite Hf, ld8_st8_eq by lia. rewrite <-Hc. apply u8_small, ld8_range.
  - intros a Ha. simpl in Ha. rewrite Hf, ld8_st8_ne by lia. done.
Qed.

Lemma read_short_ext_later k m d s i j :
  8 < i -> read_short_ext k m d s i j = read_short_base k m d s i j.
Proof.
  revert m i j. induction k as [|k IH]; intros m i j Hi; [done|]. simpl.
  destruct (_ =? FATDIR_DLT); [done|]. rewrite (proj2 (Z.eqb_neq i 8)) by lia.
  apply IH. lia.
Qed.

Lemma read_short_ext_first k m d s j :
  ld8 m (s + 8) <> FATDIR_DLT -> d + j <> s + 8 ->
  read_short_ext (S k) m d s 8 j =
  read_short_base k (st8 (st8 m (d + j) DOT) (d + (j + 1)) (ld8 m (s + 8))) d s 9 (j + 2).
Proof.
  intros Hb Hd. cbn [read_short_ext]. apply Z.eqb_neq in Hb as ->.
  change (8 =? 8) with true. cbn iota. rewrite ld8_st8_ne by done.
  rewrite read_short_ext_later by lia. f_equal; lia.
Qed.

Lemma write_fat32_short_name_layout fuel m d s base ext :
  cstr m s (base ++ DOT :: ext) -> Forall (fun c => c <> DOT /\ c <> 0) base ->
  (length base <= 8)%nat -> (length ext <= 3)%nat -> (length base + length ext < fuel)%nat ->
  s + Z.of_nat (length base + length ext + 2) <= d \/ d + 11 <= s ->
  exists m', write_fat32_short_name fuel m d s = Ret (m', 0) /\
    (forall a, d <= a < d + 8 -> ld8 m' a =
       if a - d <? Z.of_nat (length base) then ld8 m (s + (a - d)) else FATDIR_DLT) /\
    (forall a, d + 8 <= a < d + 11 -> ld8 m' a =
       if a - (d + 8) <? Z.of_nat (length ext)
       then ld8 m (s + Z.of_nat (length base) + 1 + (a - (d + 8))) else FATDIR_DLT).
Proof.
  intros Hc Hb Hlb Hle Hf Hd. pose proof Hc as Hc'.
  apply cstr_app in Hc as [Hbase Hc]. simpl in Hc. destruct Hc as (Hdot & _ & Hext).
  unfold write_fat32_short_name.
  rewrite (scan_dot_spec fuel m s 0 base); [|by intros i c Hi; rewrite Z.add_0_r; apply Hbase|done| |lia].
  2:{ left. by rewrite Z.add_0_r. }
  cbn [res_bind]. rewrite (scan_nul_spec fuel m s _ ext); [|by rewrite Z.add_assoc|lia].
  cbn [res_bind]. rewrite !Z.add_0_l.
  eexists. split; [done|]. split.
  - intros a Ha. rewrite pad_loop_out by lia. rewrite pad_loop_spec by lia.
    repeat case_cmp; cbn [andb]; try lia; try done; f_equal; lia.
  - intros a Ha. rewrite pad_loop_spec by lia.
    repeat case_cmp; cbn [andb]; try lia; try done.
    rewrite pad_loop_out by lia. f_equal; lia.
Qed.

(** ** Properties *)

(** [memmove] (hence [memcpy]) copies as if the whole source were read
    before the first byte is written, whichever way the two regions overlap:
    it refines the simultaneous copy, and touches nothing outside the
    destination. *)
Theorem memmove_simultaneous m d s n :
  0 <= n < 2 ^ 32 ->
  memmove m d s n ≡
  (fun a => if (d <=? a) && (a <? d + n) then ld8 m (s + (a - d)) else m a).
Proof.
  intros Hn a. rewrite memmove_ld8 by done. unfold ld8 at 3.
  destruct ((d <=? a) && (a <? d + n)); [|done]. by rewrite u8_small by apply ld8_range.
Qed.

(** An overlapping instance: three bytes moved one place up. *)
Lemma memmove_simultaneous_witness :
  0 <= 3 < 2 ^ 32 /\
  memmove (fun a => a) 11 10 3 ≡
  (fun a => if (11 <=? a) && (a <? 11 + 3) then ld8 (fun a => a) (10 + (a - 11)) else a).
Proof. split; [lia|]. apply (memmove_simultaneous (fun a => a) 11 10 3). lia. Defined.

(** With the length of its second argument [strncmp] decides whether that
    string is a prefix of the first one, provided the byte it reads [len]
    places into a shorter first string is 0. *)
Theorem strncmp_decides_prefix m s1 s2 l1 l2 :
  cstr m s1 l1 -> cstr m s2 l2 ->
  ((length l1 < length l2)%nat -> ld8 m (s1 + Z.of_nat (length l2)) = 0) ->
  strncmp m s1 s2 (Z.of_nat (length l2)) = 0 <-> l2 `prefix_of` l1.
Proof.
  intros H1 H2 Hz. unfold strncmp. rewrite Nat2Z.id.
  destruct (strncmp_loop_cases m s1 s2 l1 l2 0) as
    [[Hp ->]|[(Hp & d & Hd & ->)|(Hp & Hlt & -> & Hs2)]]; rewrite ?Z.add_0_r; try done.
  - rewrite Z.add_0_l, Z.leb_refl. done.
  - rewrite Z.add_0_l in *. rewrite Hz by done. simpl.
    destruct (Z.leb_spec (Z.of_nat (length l2)) (Z.of_nat (length l1))); [lia|]. done.
Qed.

Definition two_strings : mem := fun a => if a =? 0 then 97 else if a =? 1 then 98 else
  if a =? 10 then 97 else 0.

Lemma strncmp_decides_prefix_witness :
  strncmp two_strings 0 10 1 = 0 <-> [97] `prefix_of` [97; 98].
Proof.
  apply (strncmp_decides_prefix two_strings 0 10 [97; 98] [97]); simpl.
  - repeat split; done.
  - repeat split; done.
  - lia.
Defined.

(** [strncpy] copies the first [n] bytes of a string (all of it when it is
    shorter), always writes a terminator after them, hence one byte beyond [n]
    when the source is not shorter than [n], returns the number of bytes it
    wrote, and writes nowhere else. *)
Theorem strncpy_terminates_string m d s n l :
  0 < n < 2 ^ 64 - 1 -> cstr m s l ->
  d + n + 1 <= s \/ s + Z.of_nat (length l) < d ->
  let t := take (Z.to_nat n) l in
  exists m', strncpy m d s n = (m', Z.of_nat (length t) + 1) /\ cstr m' d t /\
    forall a, a < d \/ d + Z.of_nat (length t) < a -> ld8 m' a = ld8 m a.
Proof.
  intros Hn Hc Hd t. destruct (strncpy_effect m d s n l Hn Hc Hd) as (m' & Hr & Hcp & He & Hf).
  assert (Hlen : length t = (Z.to_nat n `min` length l)%nat) by (unfold t; by rewrite length_take).
  exists m'. rewrite Hlen. split_and!; [done| |done].
  apply cstr_spec. rewrite Hlen. split; [|done]. intros i c Hi.
  pose proof (lookup_lt_Some _ _ _ Hi). unfold t in Hi.
  apply lookup_take_Some in Hi as [Hi _]. rewrite Hcp by lia.
  replace (s + (d + Z.of_nat i - d)) with (s + Z.of_nat i) by lia. by eapply cstr_lookup.
Qed.

Lemma strncpy_terminates_string_witness :
  exists m', strncpy two_strings 20 0 1 = (m', 2) /\ cstr m' 20 [97] /\
    forall a, a < 20 \/ 20 + 1 < a -> ld8 m' a = ld8 two_strings a.
Proof.
  apply (strncpy_terminates_string two_strings 20 0 1 [97; 98]); simpl; [lia| |lia].
  repeat split; done.
Defined.

(** The extension of a short name, with its dot if there is one. *)
Definition dotted (ext : list Z) : list Z := match ext with [] => [] | _ => DOT :: ext end.
Lemma read_short_ext_ok m d s j ext :
  bytes_at m (s + 8) ext -> ((length ext < 3)%nat -> ld8 m (s + 8 + Z.of_nat (length ext)) = FATDIR_DLT) ->
  Forall (fun c => c <> FATDIR_DLT) ext -> (length ext <= 3)%nat -> s + 11 <= d + j \/ d + j + 5 <= s ->
  exists m', read_short_ext 3 m d s 8 j = (m', j + Z.of_nat (length (dotted ext))) /\ bytes_at m' (d + j) (dotted ext) /\
    forall a, a < d + j \/ d + j + Z.of_nat (length (dotted ext)) <= a -> ld8 m' a = ld8 m a.
Proof.
  intros Hb Hp Hn Hl Hd. destruct ext as [|e ext].
  { exists m. cbn in Hp |- *. rewrite Z.add_0_r in *. rewrite Hp by lia. by split. }
  cbn [length dotted] in *. apply bytes_at_cons in Hb as [He Hb]. apply Forall_cons in Hn as [He0 Hn].
  rewrite read_short_ext_first, He by (rewrite ?He; lia || done). set (m3 := st8 (st8 m (d + j) DOT) (d + (j + 1)) e).
  assert (Hfr : forall a, a < d + j \/ d + j + 2 <= a -> ld8 m3 a = ld8 m a) by (intros a Ha; unfold m3; by rewrite !ld8_st8_ne by lia).
  destruct (read_short_base_spec 2 m3 d s 9 (j + 2) ext) as (m4 & Hr4 & Hm4 & Hf4); [|done|lia| |lia|].
  - replace (s + 9) with (s + 8 + 1) by lia. eapply bytes_at_ext; [|exact Hb]. intros a Ha. apply Hfr. lia.
  - intros Hlt. rewrite Hfr by lia. rewrite <- Hp by lia. f_equal. lia.
  - exists m4. split; [by rewrite Hr4; f_equal; lia|]. split; [|intros a Ha; rewrite Hf4, Hfr by lia; done].
    apply bytes_at_cons. split; [by rewrite Hf4 by lia; unfold m3; rewrite ld8_st8_ne, ld8_st8_eq by lia|].
    apply bytes_at_cons. split; [|by replace (d + j + 1 + 1) with (d + (j + 2)) by lia].
    rewrite Hf4 by lia. unfold m3. replace (d + j + 1) with (d + (j + 1)) by lia. rewrite ld8_st8_eq. rewrite <- He. apply u8_small, ld8_range.
Qed.

(** The string [read_fat32_short_name] makes of a name and an extension. *)
Lemma read_fat32_short_name_ok m1 d1 d2 base ext :
  bytes_at m1 (d1 + 0) base -> bytes_at m1 (d1 + 8) ext ->
  ((length base < 8)%nat -> ld8 m1 (d1 + Z.of_nat (length base)) = FATDIR_DLT) ->
  ((length ext < 3)%nat -> ld8 m1 (d1 + 8 + Z.of_nat (length ext)) = FATDIR_DLT) ->
  Forall (fun c => c <> FATDIR_DLT) base -> Forall (fun c => c <> FATDIR_DLT) ext ->
  Forall (fun c => c <> 0) (base ++ dotted ext) ->
  (length base <= 8)%nat -> (length ext <= 3)%nat -> d1 + 11 <= d2 \/ d2 + 13 <= d1 ->
  exists m2, read_fat32_short_name m1 d2 d1 = (m2, Z.of_nat (length (base ++ dotted ext))) /\ cstr m2 d2 (base ++ dotted ext) /\
    forall a, a < d2 \/ d2 + 13 <= a -> ld8 m2 a = ld8 m1 a.
Proof.
  intros Hm1b Hm1e Hpb Hpe Hb He Hnz Hlb Hle Hd2. assert (Hdl : (length (dotted ext) <= 4)%nat) by (destruct ext; cbn in *; lia).
  destruct (read_short_base_spec 8 m1 d2 d1 0 0 base) as (m2 & Hr & Hm2 & Hf2); try done; try lia.
  { intros Hlt. rewrite Z.add_0_r. by apply Hpb. }
  rewrite Z.add_0_l in Hr. set (j := Z.of_nat (length base)) in *.
  destruct (read_short_ext_ok m2 d2 d1 j ext) as (m3 & Hr3 & Hm3 & Hf3); [| |done|done|lia|].
  { eapply bytes_at_ext; [|exact Hm1e]. intros a Ha. apply Hf2. lia. }
  { intros Hlt. rewrite Hf2 by lia. by apply Hpe. }
  exists (st8 m3 (d2 + (j + Z.of_nat (length (dotted ext)))) 0). split; [|split].
  - unfold read_fat32_short_name. rewrite Hr, Hr3. f_equal. rewrite length_app. lia.
  - apply cstr_bytes_at. split; [|split; [done|]].
    + intros i c Hi. pose proof (lookup_lt_Some _ _ _ Hi) as Hil. rewrite length_app in Hil. rewrite ld8_st8_ne by lia.
      apply lookup_app_Some in Hi as [Hi|[Hge Hi]].
      * rewrite Hf3 by (apply lookup_lt_Some in Hi; lia). rewrite <- (Hm2 i c Hi). f_equal. lia.
      * rewrite <- (Hm3 _ c Hi). f_equal. lia.
    + rewrite length_app. replace (d2 + Z.of_nat _) with (d2 + (j + Z.of_nat (length (dotted ext)))) by lia. apply ld8_st8_eq.
  - intros a Ha. rewrite ld8_st8_ne by lia. rewrite Hf3 by lia. apply Hf2. lia.
Qed.

(** A file name that fits the 8.3 form survives being written as a
    directory entry's short name and read back. *)
Theorem short_name_roundtrip fuel m d1 d2 s base ext :
  cstr m s (base ++ DOT :: ext) ->
  Forall (fun c => c <> DOT /\ c <> FATDIR_DLT) base ->
  Forall (fun c => c <> FATDIR_DLT) ext ->
  (length base <= 8)%nat -> (0 < length ext <= 3)%nat -> (12 < fuel)%nat ->
  s + 13 <= d1 \/ d1 + 11 <= s -> d1 + 11 <= d2 \/ d2 + 13 <= d1 ->
  exists m1 m2,
    write_fat32_short_name fuel m d1 s = Ret (m1, 0) /\
    read_fat32_short_name m1 d2 d1 = (m2, Z.of_nat (length (base ++ DOT :: ext))) /\
    cstr m2 d2 (base ++ DOT :: ext).
Proof.
  intros Hc Hb He Hlb Hle Hf Hd1 Hd2. pose proof Hc as Hsrc. apply cstr_bytes_at in Hsrc as (Hba & Hnz & _).
  destruct (write_fat32_short_name_layout fuel m d1 s base ext) as (m1 & Hw & Hn & Hx);
    [done| |done|lia|lia|lia|].
  { apply Forall_app in Hnz as [Hnz _]. apply Forall_and. split; [|done].
    eapply Forall_impl; [exact Hb|]. naive_solver. }
  assert (Ed : DOT :: ext = dotted ext) by (destruct ext; [cbn in Hle; lia|done]). assert (Hnz' := Hnz). rewrite Ed in Hnz'.
  destruct (read_fat32_short_name_ok m1 d1 d2 base ext) as (m2 & Hr & Hc2 & _); try done; try lia; [| | | | |by exists m1, m2; rewrite Ed].
  - intros i c Hi. pose proof (lookup_lt_Some _ _ _ Hi). rewrite Hn by lia.
    case_cmp; [|lia]. rewrite <-(Hba i c); [f_equal; lia|]. by apply lookup_app_l_Some.
  - intros i c Hi. pose proof (lookup_lt_Some _ _ _ Hi). rewrite Hx by lia.
    case_cmp; [|lia]. rewrite <-(Hba (length base + S i)%nat c); [f_equal; lia|].
    rewrite lookup_app_r by lia. by replace (length base + S i - length base)%nat with (S i) by lia.
  - intros Hlt. rewrite Hn by lia. case_cmp; [lia|done].
  - intros Hlt. rewrite Hx by lia. case_cmp; [lia|done].
  - eapply Forall_impl; [exact Hb|]. naive_solver.
Qed.

Definition name_ab_c : mem := fun a => if a =? 0 then 65 else if a =? 1 then 66 else
  if a =? 2 then DOT else if a =? 3 then 67 else 0.

Lemma short_name_roundtrip_witness :
  exists m1 m2,
    write_fat32_short_name 13 name_ab_c 20 0 = Ret (m1, 0) /\
    read_fat32_short_name m1 40 20 = (m2, 4) /\ cstr m2 40 [65; 66; DOT; 67].
Proof.
  apply (short_name_roundtrip 13 name_ab_c 20 40 0 [65; 66] [67]); simpl; try lia.
  - repeat split; done.
  - repeat constructor; done.
  - repeat constructor; done.
Defined.
