(* ===== verification/Bytes.v ===== *)
(** Runs of bytes: lists of bytes written to and read from a memory, parts of a
    list of bytes and their replacement, and the lemmas on them that the file
    system, the console and the user heap share. *)
From S2P Require Import Prelude.

(** ** Bytes *)

(** The bytes of a list as a memory, and the bytes of a memory as a list. *)
Definition bytes_mem (x : list Z) : mem := fun i => if i <? 0 then 0 else nth (Z.to_nat i) x 0.
Fixpoint mput (m : mem) (a : Z) (l : list Z) : mem :=
  match l with [] => m | b :: l => mput (st8 m a b) (a + 1) l end.
Fixpoint mget (m : mem) (a : Z) (n : nat) : list Z :=
  match n with O => [] | S n => ld8 m a :: mget m (a + 1) n end.
(** The bytes [off] to [off + n] of a block, and the block with them replaced. *)
Definition sub (x : list Z) (off n : Z) : list Z := take (Z.to_nat n) (drop (Z.to_nat off) x).
Definition splice (x : list Z) (off : Z) (l : list Z) : list Z := list_inserts (Z.to_nat off) l x.
Definition le32 (v : Z) : list Z := [u8 v; u8 (v / 256); u8 (v / 256 / 256); u8 (v / 256 / 256 / 256)].

(** ** Bytes of a list and of a memory *)

Lemma length_mget n : forall m a, length (mget m a n) = n.
Proof. induction n as [|n IH]; intros m a; [done|]. cbn. by rewrite IH. Qed.
Lemma lookup_mget n : forall m a i, (i < n)%nat -> mget m a n !! i = Some (ld8 m (a + Z.of_nat i)).
Proof.
  induction n as [|n IH]; intros m a i Hi; [lia|]. destruct i as [|i]; cbn.
  - by rewrite Z.add_0_r.
  - rewrite IH by lia. do 2 f_equal. lia.
Qed.
Lemma mget_eq m a n l : length l = n -> (forall i, (i < n)%nat -> l !! i = Some (ld8 m (a + Z.of_nat i))) -> mget m a n = l.
Proof.
  intros Hl H. apply list_eq. intros i. destruct (decide (i < n)%nat).
  - by rewrite lookup_mget, H.
  - rewrite !lookup_ge_None_2; [done|by rewrite Hl; lia|by rewrite length_mget; lia].
Qed.
Lemma mget_app m a n1 n2 : mget m a (n1 + n2) = mget m a n1 ++ mget m (a + Z.of_nat n1) n2.
Proof.
  revert a. induction n1 as [|n1 IH]; intros a; cbn; [by rewrite Z.add_0_r|]. rewrite IH. do 3 f_equal. lia.
Qed.
Lemma mget_ext m1 m2 a n : (forall x, a <= x < a + Z.of_nat n -> ld8 m1 x = ld8 m2 x) -> mget m1 a n = mget m2 a n.
Proof.
  revert a. induction n as [|n IH]; intros a H; cbn; [done|]. rewrite (H a) by lia. f_equal. apply IH. intros x Hx. apply H. lia.
Qed.
#[global] Instance mget_proper : Proper ((≡@{mem}) ==> eq ==> eq ==> eq) mget.
Proof. intros m1 m2 Hm a ? <- n ? <-. apply mget_ext. intros x _. apply Hm. Qed.
Lemma sub_mget m a N off n : 0 <= off -> 0 <= n -> off + n <= N ->
  sub (mget m a (Z.to_nat N)) off n = mget m (a + off) (Z.to_nat n).
Proof.
  intros H1 H2 H3. unfold sub.
  replace (Z.to_nat N) with (Z.to_nat off + (Z.to_nat n + Z.to_nat (N - off - n)))%nat by lia.
  rewrite mget_app, drop_app_length' by by rewrite length_mget.
  rewrite mget_app, take_app_length' by by rewrite length_mget. by rewrite Z2Nat.id by done.
Qed.

Lemma ld8_mput l : forall m a p,
  ld8 (mput m a l) p = if (a <=? p) && (p <? a + Z.of_nat (length l)) then u8 (nth (Z.to_nat (p - a)) l 0) else ld8 m p.
Proof.
  induction l as [|b l IH]; intros m a p; cbn [mput length].
  - repeat case_cmp; cbn; lia || done.
  - rewrite IH, ld8_st8. destruct (Z.eqb_spec p a) as [->|Hne].
    + rewrite Z.sub_diag. repeat case_cmp; cbn; lia || done.
    + repeat case_cmp; cbn [andb]; try lia; try done.
      by replace (Z.to_nat (p - a)) with (Datatypes.S (Z.to_nat (p - (a + 1)))) by lia.
Qed.
Lemma ld8_mput_out m a l p : p < a \/ a + Z.of_nat (length l) <= p -> ld8 (mput m a l) p = ld8 m p.
Proof. intros H. rewrite ld8_mput. repeat case_cmp; cbn; lia || done. Qed.
Lemma ld8_mput_in m a l i b : l !! i = Some b -> ld8 (mput m a l) (a + Z.of_nat i) = u8 b.
Proof.
  intros H. pose proof (lookup_lt_Some _ _ _ H). rewrite ld8_mput.
  rewrite (proj2 (Z.leb_le _ _)), (proj2 (Z.ltb_lt _ _)) by lia. cbn [andb].
  replace (Z.to_nat (a + Z.of_nat i - a)) with i by lia. f_equal. apply nth_lookup_Some with (d := 0) in H. exact H.
Qed.
Lemma mput_app l1 l2 : forall m a, mput m a (l1 ++ l2) = mput (mput m a l1) (a + Z.of_nat (length l1)) l2.
Proof.
  induction l1 as [|b l1 IH]; intros m a; cbn [app mput length]; [by rewrite Z.add_0_r|]. rewrite IH. f_equal. lia.
Qed.
Lemma st8_u8 m a v : st8 m a (u8 v) = st8 m a v.
Proof. unfold st8. by rewrite u8_idem. Qed.
Lemma mput_u8 l : forall m a, mput m a (map u8 l) = mput m a l.
Proof. induction l as [|b l IH]; intros m a; cbn; [done|]. by rewrite st8_u8, IH. Qed.
#[global] Instance mput_proper : Proper ((≡@{mem}) ==> eq ==> eq ==> (≡@{mem})) mput.
Proof. intros m1 m2 Hm a ? <- l ? <- p. rewrite !ld8_mput. case_match; [done|apply Hm]. Qed.
Lemma mget_mput_out m a l b n : b + Z.of_nat n <= a \/ a + Z.of_nat (length l) <= b -> mget (mput m a l) b n = mget m b n.
Proof. intros H. apply mget_ext. intros x Hx. apply ld8_mput_out. lia. Qed.
Lemma length_splice x off l : length (splice x off l) = length x.
Proof. apply length_inserts. Qed.
Lemma splice_all x l : length l = length x -> splice x 0 l = l.
Proof.
  intros Hl. unfold splice. change (Z.to_nat 0) with 0%nat. apply list_eq. intros i. destruct (decide (i < length x)%nat).
  - rewrite list_lookup_inserts by lia. by rewrite Nat.sub_0_r.
  - rewrite !lookup_ge_None_2; [done|lia|rewrite length_inserts; lia].
Qed.
(** Writing into a run of bytes. *)
Lemma mget_mput_splice m a off l n : 0 <= off -> off + Z.of_nat (length l) <= Z.of_nat n ->
  mget (mput m (a + off) l) a n = splice (mget m a n) off (map u8 l).
Proof.
  intros Ho Hl. apply mget_eq; [by rewrite length_splice, length_mget|]. intros i Hi. unfold splice.
  destruct (decide (Z.to_nat off <= i < Z.to_nat off + length l)%nat) as [Hin|Hout].
  - rewrite list_lookup_inserts by (rewrite ?length_map, ?length_mget; lia). rewrite list_lookup_fmap.
    destruct (lookup_lt_is_Some_2 l (i - Z.to_nat off)) as [b Hb]; [lia|]. rewrite Hb. cbn. f_equal. symmetry.
    replace (a + Z.of_nat i) with (a + off + Z.of_nat (i - Z.to_nat off)) by lia. by apply ld8_mput_in.
  - rewrite ld8_mput_out by lia.
    assert (i < Z.to_nat off \/ Z.to_nat off + length (map u8 l) <= i)%nat as [?|?] by (rewrite length_map; lia).
    + rewrite list_lookup_inserts_lt by done. by apply lookup_mget.
    + rewrite list_lookup_inserts_ge by done. by apply lookup_mget.
Qed.
Lemma bytes_mem_lookup x i b : x !! i = Some b -> bytes_mem x (Z.of_nat i) = b.
Proof.
  intros H. unfold bytes_mem. rewrite (proj2 (Z.ltb_ge _ _)) by lia. rewrite Nat2Z.id. by apply nth_lookup_Some with (d := 0) in H.
Qed.
Lemma map_u8_mget m a n : map u8 (mget m a n) = mget m a n.
Proof. revert a. induction n as [|n IH]; intros a; cbn; [done|]. by rewrite IH, (u8_small (ld8 m a)) by apply ld8_range. Qed.
Lemma mget_bytes_mem x off n : 0 <= off -> (Z.to_nat off + n <= length x)%nat ->
  mget (bytes_mem x) off n = map u8 (sub x off (Z.of_nat n)).
Proof.
  intros Ho Hn. unfold sub. rewrite Nat2Z.id. apply mget_eq.
  - rewrite length_map, length_take, length_drop. lia.
  - intros i Hi. rewrite list_lookup_fmap, lookup_take_lt, lookup_drop by lia.
    destruct (lookup_lt_is_Some_2 x (Z.to_nat off + i)) as [b Hb]; [lia|]. rewrite Hb. cbn. unfold ld8.
    replace (off + Z.of_nat i) with (Z.of_nat (Z.to_nat off + i)) by lia. by rewrite (bytes_mem_lookup x _ b).
Qed.

Lemma ld32_st32_eq m a v : ld32 (st32 m a v) a = u32 v.
Proof. apply (ldn_stn_eq 4). Qed.
Lemma ld32_st32_other m a v b : b + 4 <= a \/ a + 4 <= b -> ld32 (st32 m a v) b = ld32 m b.
Proof. apply (ldn_stn_other 4 4). Qed.

Lemma splice_twice x off l : splice (splice x off l) off l = splice x off l.
Proof.
  unfold splice. apply list_eq. intros i. set (o := Z.to_nat off). destruct (decide (i < length x)%nat) as [Hi|Hi].
  - destruct (decide (o <= i < o + length l)%nat) as [Hin|Hout].
    + rewrite !list_lookup_inserts by (rewrite ?length_inserts; lia). done.
    + assert (i < o \/ o + length l <= i)%nat as [?|?] by lia.
      * by rewrite list_lookup_inserts_lt.
      * by rewrite list_lookup_inserts_ge.
  - rewrite !lookup_ge_None_2; [done|rewrite !length_inserts; lia..].
Qed.
Lemma le32_bytes v : length (le32 v) = 4%nat /\ forall m a, mput m a (le32 v) = st32 m a v.
Proof.
  split; [done|]. intros m a. unfold le32. cbn [mput]. by rewrite !st8_u8.
Qed.
Lemma splice_app_l X B off l : (Z.to_nat off + length l <= length X)%nat -> splice (X ++ B) off l = splice X off l ++ B.
Proof.
  unfold splice. generalize (Z.to_nat off) as i. induction l as [|b l IH]; intros i Hi; cbn in *; [done|].
  rewrite IH by lia. apply insert_app_l. rewrite length_inserts. lia.
Qed.
Lemma splice_app_r A X off l : 0 <= off -> splice (A ++ X) (Z.of_nat (length A) + off) l = A ++ splice X off l.
Proof. intros. unfold splice. rewrite Z2Nat.inj_add, Nat2Z.id by lia. apply list_inserts_app_r. Qed.
Lemma sub_splice X off l : 0 <= off -> off + Z.of_nat (length l) <= Z.of_nat (length X) ->
  sub (splice X off l) off (Z.of_nat (length l)) = l.
Proof.
  intros Ho Hl. unfold sub, splice. rewrite Nat2Z.id. apply list_eq. intros i. destruct (decide (i < length l)%nat) as [Hi|Hi].
  - rewrite lookup_take_lt, lookup_drop, list_lookup_inserts by lia. f_equal. lia.
  - rewrite !lookup_ge_None_2; [done|lia|rewrite length_take; lia].
Qed.
Lemma sub_app l off n1 n2 : 0 <= off -> 0 <= n1 -> 0 <= n2 ->
  sub l off (n1 + n2) = sub l off n1 ++ sub l (off + n1) n2.
Proof.
  intros. unfold sub. rewrite !Z2Nat.inj_add by lia. rewrite <- drop_drop. by rewrite <- take_take_drop.
Qed.
Lemma length_sub l off n : 0 <= off -> 0 <= n -> off + n <= Z.of_nat (length l) -> Z.of_nat (length (sub l off n)) = n.
Proof. intros. unfold sub. rewrite length_take, length_drop. lia. Qed.

Lemma land_le a b : 0 <= a -> 0 <= b -> 0 <= Z.land a b <= a.
Proof.
  intros Ha Hb. assert (E : Z.land (Z.ldiff a b) (Z.land a b) = 0).
  { apply Z.bits_inj'. intros i Hi. rewrite Z.land_spec, Z.ldiff_spec, Z.land_spec, Z.bits_0.
    by destruct (Z.testbit a i), (Z.testbit b i). }
  pose proof (Z.add_nocarry_lxor _ _ E) as Hadd. rewrite Z.lxor_lor, Z.lor_ldiff_and in Hadd by done.
  pose proof (proj2 (Z.ldiff_nonneg a b) (or_introl Ha)). pose proof (proj2 (Z.land_nonneg a b) (or_introl Ha)). lia.
Qed.

Lemma s32_small z : 0 <= z < 2 ^ 31 -> s32 z = z.
Proof. intros Hz. unfold s32. rewrite u32_small by lia. by rewrite (proj2 (Z.ltb_lt _ _)) by lia. Qed.
