(* ===== verification/Spinlock.v ===== *)
(** Spin locks: kernel/spinlock.c.

    Two models. The first is the code of one hart run to completion, as a
    function on the state of the hart and of the locks: this is what every
    component that takes a lock is built on. The second is the interleaving of
    several harts, one access to a lock at a time (but for [holding], whose two
    reads are one step), which is where mutual exclusion is proved. *)

From S2P Require Import Prelude.

(** ** Data *)

(** The locks of the kernel: the global ones, the lock of the process at an
    address, the spin lock inside the sleep lock at an address. *)
Inductive lockid : Type :=
| kmem_lock | pid_lock | process_lock | rq_lock | fd_lock | bcache_lock | pr_lock | ticks_lock
| proc_lock (p : Z)
| sleep_lk (lk : Z).

#[global] Instance lockid_eq_dec : EqDecision lockid.
Proof. solve_decision. Defined.

(** [struct spinlock]: [cpu] is [None] for the null pointer. *)
Record spinlock : Type := mkSpinlock { locked : Z; lcpu : option Z }.

(** The fields of [struct cpu] the lock code uses, and the SIE bit of the
    hart's sstatus register. *)
Record cpu : Type := mkCpu { noff : Z; intena : bool; sie : bool }.

(** What one hart sees: its own identity ([r_tp]), its [struct cpu], and the
    locks. *)
Record lockst : Type := mkLockst { hartid : Z; hcpu : cpu; locks : lockid -> spinlock }.

Definition set_lock (lk : lockid) (l : spinlock) (f : lockid -> spinlock) : lockid -> spinlock :=
  fun x => if decide (x = lk) then l else f x.

Definition set_noff (n : Z) (c : cpu) : cpu := mkCpu n (intena c) (sie c).
Definition set_intena (b : bool) (c : cpu) : cpu := mkCpu (noff c) b (sie c).
Definition set_sie (b : bool) (c : cpu) : cpu := mkCpu (noff c) (intena c) b.

Definition on_cpu (f : cpu -> cpu) (s : lockst) : lockst :=
  mkLockst (hartid s) (f (hcpu s)) (locks s).
Definition on_lock (lk : lockid) (f : spinlock -> spinlock) (s : lockst) : lockst :=
  mkLockst (hartid s) (hcpu s) (set_lock lk (f (locks s lk)) (locks s)).

(** ** Operations of one hart *)

Definition intr_get : K lockst bool := kget (fun s => sie (hcpu s)).
Definition intr_off : K lockst unit := kmod (on_cpu (set_sie false)).
Definition intr_on : K lockst unit := kmod (on_cpu (set_sie true)).

Definition initlock (lk : lockid) : K lockst unit :=
  kmod (on_lock lk (fun _ => mkSpinlock 0 None)).

Definition push_off : K lockst unit :=
  old <- intr_get ;;
  intr_off ;;
  n <- kget (fun s => noff (hcpu s)) ;;
  kwhen (n =? 0) (kmod (on_cpu (set_intena old))) ;;
  kmod (on_cpu (fun c => set_noff (noff c + 1) c)).

Definition pop_off : K lockst unit :=
  on <- intr_get ;;
  kwhen on (kpanic "pop_off - interrupt enable") ;;
  n <- kget (fun s => noff (hcpu s)) ;;
  kwhen (n <? 1) (kpanic "pop_off") ;;
  kmod (on_cpu (fun c => set_noff (noff c - 1) c)) ;;
  c <- kget hcpu ;;
  kwhen ((noff c =? 0) && intena c) intr_on.

(** [lk->cpu == cur_cpu() && lk->locked] *)
Definition holding_in (h : Z) (l : spinlock) : bool :=
  bool_decide (lcpu l = Some h) && negb (locked l =? 0).
Definition holding (lk : lockid) : K lockst bool :=
  kget (fun s => holding_in (hartid s) (locks s lk)).

(** [__sync_lock_test_and_set]: the old value. *)
Definition test_and_set (lk : lockid) : K lockst Z := fun s =>
  Ret (locked (locks s lk), on_lock lk (fun l => mkSpinlock 1 (lcpu l)) s).

(** The swap loop either wins at once or, as nothing else runs between the
    instructions of this hart, spins for ever. *)
Definition acquire (lk : lockid) : K lockst unit :=
  push_off ;;
  h <- holding lk ;;
  kwhen h (kpanic "acquire") ;;
  old <- test_and_set lk ;;
  kwhen (negb (old =? 0)) kspin ;;
  kmod (fun s => on_lock lk (fun l => mkSpinlock (locked l) (Some (hartid s))) s).

Definition release (lk : lockid) : K lockst unit :=
  h <- holding lk ;;
  kwhen (negb h) (kpanic "release") ;;
  kmod (on_lock lk (fun l => mkSpinlock (locked l) None)) ;;
  kmod (on_lock lk (fun l => mkSpinlock 0 (lcpu l))) ;;
  pop_off.

(** ** The state of a hart between two calls *)

(** [noff] is an int; 2^31 - 1 nested calls would overflow it. The interrupt
    discipline: interrupts are off while [noff] is positive. *)
Definition cpu_ok (c : cpu) : Prop := 0 <= noff c /\ (0 < noff c -> sie c = false).

(** The [struct cpu] after [push_off]. *)
Definition cpu_pushed (c : cpu) : cpu :=
  mkCpu (noff c + 1) (if noff c =? 0 then sie c else intena c) false.

Definition lock_free (lk : lockid) (s : lockst) : Prop := locks s lk = mkSpinlock 0 None.
Definition lock_held (lk : lockid) (s : lockst) : Prop :=
  locks s lk = mkSpinlock 1 (Some (hartid s)).

(** The state while the critical section of [lk] runs. *)
Definition acquired (lk : lockid) (s : lockst) : lockst :=
  mkLockst (hartid s) (cpu_pushed (hcpu s))
    (set_lock lk (mkSpinlock 1 (Some (hartid s))) (locks s)).

(** The state after the matching release. *)
Definition released (lk : lockid) (s : lockst) : lockst :=
  let c := hcpu s in
  mkLockst (hartid s)
    (mkCpu (noff c - 1) (intena c) ((noff c - 1 =? 0) && intena c))
    (set_lock lk (mkSpinlock 0 None) (locks s)).

Lemma set_lock_eq lk l f : set_lock lk l f lk = l.
Proof. unfold set_lock. by rewrite decide_True. Qed.
Lemma set_lock_ne lk lk' l f : lk' <> lk -> set_lock lk l f lk' = f lk'.
Proof. intros H. unfold set_lock. by rewrite decide_False. Qed.
Lemma set_lock_twice lk l1 l2 f x : set_lock lk l2 (set_lock lk l1 f) x = set_lock lk l2 f x.
Proof. unfold set_lock. by case_decide. Qed.

Lemma push_off_spec s :
  push_off s = Ret (tt, mkLockst (hartid s) (cpu_pushed (hcpu s)) (locks s)).
Proof.
  destruct s as [h [n ie si] f]. unfold push_off, cpu_pushed. cbn.
  destruct (n =? 0); reflexivity.
Qed.

Lemma pop_off_spec s :
  1 <= noff (hcpu s) -> sie (hcpu s) = false ->
  pop_off s = Ret (tt, let c := hcpu s in
    mkLockst (hartid s)
      (mkCpu (noff c - 1) (intena c) ((noff c - 1 =? 0) && intena c)) (locks s)).
Proof.
  destruct s as [h [n ie si] f]. simpl. intros Hn ->. unfold pop_off. cbn.
  destruct (Z.ltb_spec n 1); [lia|]. cbn. by destruct ((n - 1 =? 0) && ie).
Qed.

(** Locks are compared by the content of each of them. *)
Definition lockst_eq (s1 s2 : lockst) : Prop :=
  hartid s1 = hartid s2 /\ hcpu s1 = hcpu s2 /\ forall lk, locks s1 lk = locks s2 lk.
#[global] Instance lockst_equiv : Equiv lockst := lockst_eq.
#[global] Instance lockst_equivalence : Equivalence (≡@{lockst}).
Proof.
  split; [done| |].
  - intros s1 s2 (? & ? & ?). split_and!; congruence.
  - intros s1 s2 s3 (? & ? & H12) (? & ? & H23). split_and!; [congruence..|].
    intros lk. by rewrite H12.
Qed.
#[global] Instance locks_proper : Proper ((≡) ==> eq ==> eq) locks.
Proof. intros s1 s2 (_ & _ & H) lk ? <-. apply H. Qed.
#[global] Instance hcpu_proper : Proper ((≡) ==> eq) hcpu.
Proof. by intros s1 s2 (_ & H & _). Qed.

Lemma holding_free h l : locked l = 0 -> holding_in h l = false.
Proof. intros H. unfold holding_in. by rewrite H, andb_false_r. Qed.

(** [acquire] of a free lock enters the critical section. *)
Lemma acquire_free lk s :
  lock_free lk s -> exists s', acquire lk s = Ret (tt, s') /\ s' ≡ acquired lk s.
Proof.
  intros Hf. unfold acquire. rewrite (kbind_ret _ _ _ _ _ (push_off_spec s)).
  destruct s as [h c f]. unfold lock_free in Hf. cbn in Hf.
  unfold kbind, holding, kget, test_and_set, on_lock. cbn. rewrite Hf. cbn.
  rewrite holding_free by done. cbn. rewrite Hf. cbn. eexists. split; [reflexivity|].
  split_and!; [done..|]. intros x. cbn. rewrite set_lock_twice, set_lock_eq. done.
Qed.

Lemma acquire_held lk s : lock_held lk s -> acquire lk s = Panic "acquire".
Proof.
  intros Hf. unfold acquire. rewrite (kbind_ret _ _ _ _ _ (push_off_spec s)).
  destruct s as [h c f]. unfold lock_held in Hf. cbn in Hf.
  unfold kbind, holding, kget. cbn. rewrite Hf. unfold holding_in. cbn.
  by rewrite bool_decide_eq_true_2.
Qed.

Lemma acquire_other lk s h' :
  locks s lk = mkSpinlock 1 (Some h') -> h' <> hartid s -> acquire lk s = Spin.
Proof.
  intros Hf Hne. unfold acquire. rewrite (kbind_ret _ _ _ _ _ (push_off_spec s)).
  destruct s as [h c f]. cbn in Hf, Hne.
  unfold kbind, holding, kget, test_and_set, on_lock. cbn. rewrite Hf. unfold holding_in. cbn.
  rewrite bool_decide_eq_false_2 by congruence. cbn. by rewrite Hf.
Qed.

Lemma release_held lk s :
  lock_held lk s -> 1 <= noff (hcpu s) -> sie (hcpu s) = false ->
  exists s', release lk s = Ret (tt, s') /\ s' ≡ released lk s.
Proof.
  intros Hl Hn Hs. unfold release. unfold lock_held in Hl.
  krun. rewrite Hl. unfold holding_in at 1. cbn [lcpu locked].
  rewrite bool_decide_eq_true_2 by done. repeat krun.
  rewrite pop_off_spec by done. eexists. split; [reflexivity|].
  split_and!; [done..|]. intros x. cbn. by rewrite set_lock_twice, Hl, !set_lock_eq.
Qed.

Lemma release_not_held lk s : holding_in (hartid s) (locks s lk) = false -> release lk s = Panic "release".
Proof. intros H. unfold release, kbind, holding, kget. cbn. by rewrite H. Qed.

(** What a critical section leaves behind: the lock is free again, the nesting
    depth and the interrupt enable are those from before; only the saved
    [intena] of an outermost section differs. *)
Definition lk_restored (s s' : lockst) : Prop :=
  hartid s' = hartid s /\ noff (hcpu s') = noff (hcpu s) /\ sie (hcpu s') = sie (hcpu s) /\
  (0 < noff (hcpu s) -> intena (hcpu s') = intena (hcpu s)) /\
  forall lk, locks s' lk = locks s lk.

Lemma lk_restored_refl s : lk_restored s s.
Proof. done. Qed.

Lemma lk_restored_trans s1 s2 s3 : lk_restored s1 s2 -> lk_restored s2 s3 -> lk_restored s1 s3.
Proof.
  intros (H1 & H2 & H3 & H4 & H5) (G1 & G2 & G3 & G4 & G5).
  split_and!; try congruence. intros Hp. rewrite G4 by lia. by apply H4.
Qed.

Lemma lk_restored_free lk s s' : lk_restored s s' -> lock_free lk s -> lock_free lk s'.
Proof. unfold lock_free. intros (_ & _ & _ & _ & H) Hf. by rewrite H. Qed.

Lemma lk_restored_ok s s' : lk_restored s s' -> cpu_ok (hcpu s) -> cpu_ok (hcpu s').
Proof. unfold cpu_ok. intros (_ & H1 & H2 & _). by rewrite H1, H2. Qed.

Lemma acquired_released lk s s' :
  lock_free lk s -> cpu_ok (hcpu s) -> s' ≡ acquired lk s ->
  exists s'', release lk s' = Ret (tt, s'') /\ lk_restored s s''.
Proof.
  intros Hf [Hn Hs] Heq. pose proof Heq as (Hh & Hc & Hlk).
  destruct (release_held lk s') as (s'' & Hr & Hs'').
  - unfold lock_held. rewrite Hlk. cbn. by rewrite set_lock_eq, Hh.
  - rewrite Hc. cbn. lia.
  - by rewrite Hc.
  - exists s''. split; [done|]. destruct Hs'' as (Hh2 & Hc2 & Hlk2).
    unfold lk_restored. rewrite Hh2, Hc2. cbn. rewrite Hh, Hc. cbn.
    replace (noff (hcpu s) + 1 - 1) with (noff (hcpu s)) by lia.
    split_and!; [done|done| | |].
    + destruct (Z.eqb_spec (noff (hcpu s)) 0); cbn; [done|]. symmetry. apply Hs. lia.
    + intros Hp. by rewrite (proj2 (Z.eqb_neq _ 0)) by lia.
    + intros x. rewrite Hlk2. cbn. unfold set_lock. case_decide as Hx; [by subst; symmetry|].
      rewrite Hlk. cbn. by rewrite set_lock_ne.
Qed.

(** ** Several harts

    Every write to a field of a lock is one step, and so is the test and set;
    [holding] reads [locked] and [cpu] in one step, because only this hart stores
    its own number there and what it reads cannot change in between. The program
    counter says which access of [acquire] or [release] a hart is about to make. *)

Module Interleave.

Inductive pc : Type :=
| Run                      (* outside acquire and release *)
| Check (l : lockid)       (* acquire: push_off done, about to call holding *)
| Swap (l : lockid)        (* acquire: about to test-and-set *)
| Won (l : lockid)         (* acquire: about to store lk->cpu *)
| Clear (l : lockid)       (* release: holding returned true *)
| Unlock (l : lockid)      (* release: lk->cpu cleared *)
| Pop                      (* release: lk->locked cleared *)
| Panicked.

(** [held] and [pushes] are ghost: the locks between their acquire and their
    release, and the calls of [push_off] outside of locks. *)
Record hart : Type := mkHart { hc : cpu; at_ : pc; held : list lockid; pushes : nat }.
Record sys : Type := mkSys { harts : Z -> hart; lks : lockid -> spinlock }.

Definition upd (h : Z) (x : hart) (f : Z -> hart) : Z -> hart :=
  fun i => if decide (i = h) then x else f i.
Definition goto (p : pc) (x : hart) : hart := mkHart (hc x) p (held x) (pushes x).
Definition pushed (p : pc) (x : hart) : hart := mkHart (cpu_pushed (hc x)) p (held x) (pushes x).
Definition popped_cpu (c : cpu) : cpu :=
  mkCpu (noff c - 1) (intena c) ((noff c - 1 =? 0) && intena c).
Definition remove_lock (l : lockid) (ls : list lockid) : list lockid :=
  filter (fun x => x <> l) ls.

Inductive step (h : Z) (s : sys) : sys -> Prop :=
| s_acquire l :
    at_ (harts s h) = Run ->
    step h s (mkSys (upd h (pushed (Check l) (harts s h)) (harts s)) (lks s))
| s_check l :
    at_ (harts s h) = Check l -> holding_in h (lks s l) = false ->
    step h s (mkSys (upd h (goto (Swap l) (harts s h)) (harts s)) (lks s))
| s_check_panic l :
    at_ (harts s h) = Check l -> holding_in h (lks s l) = true ->
    step h s (mkSys (upd h (goto Panicked (harts s h)) (harts s)) (lks s))
| s_swap_lose l :
    at_ (harts s h) = Swap l -> locked (lks s l) <> 0 ->
    step h s (mkSys (upd h (goto (Swap l) (harts s h)) (harts s))
                    (set_lock l (mkSpinlock 1 (lcpu (lks s l))) (lks s)))
| s_swap_win l :
    at_ (harts s h) = Swap l -> locked (lks s l) = 0 ->
    step h s (mkSys (upd h (goto (Won l) (harts s h)) (harts s))
                    (set_lock l (mkSpinlock 1 (lcpu (lks s l))) (lks s)))
| s_owner l :
    at_ (harts s h) = Won l ->
    step h s (mkSys (upd h (mkHart (hc (harts s h)) Run (l :: held (harts s h)) (pushes (harts s h)))
                         (harts s))
                    (set_lock l (mkSpinlock (locked (lks s l)) (Some h)) (lks s)))
| s_release l :
    at_ (harts s h) = Run -> holding_in h (lks s l) = true ->
    step h s (mkSys (upd h (goto (Clear l) (harts s h)) (harts s)) (lks s))
| s_release_panic l :
    at_ (harts s h) = Run -> holding_in h (lks s l) = false ->
    step h s (mkSys (upd h (goto Panicked (harts s h)) (harts s)) (lks s))
| s_clear l :
    at_ (harts s h) = Clear l ->
    step h s (mkSys (upd h (goto (Unlock l) (harts s h)) (harts s))
                    (set_lock l (mkSpinlock (locked (lks s l)) None) (lks s)))
| s_unlock l :
    at_ (harts s h) = Unlock l ->
    step h s (mkSys (upd h (mkHart (hc (harts s h)) Pop (remove_lock l (held (harts s h)))
                                   (pushes (harts s h))) (harts s))
                    (set_lock l (mkSpinlock 0 (lcpu (lks s l))) (lks s)))
| s_pop :
    at_ (harts s h) = Pop ->
    step h s (mkSys (upd h (mkHart (popped_cpu (hc (harts s h))) Run (held (harts s h))
                                   (pushes (harts s h))) (harts s)) (lks s))
| s_push_off :
    at_ (harts s h) = Run ->
    step h s (mkSys (upd h (mkHart (cpu_pushed (hc (harts s h))) Run (held (harts s h))
                                   (S (pushes (harts s h)))) (harts s)) (lks s))
| s_pop_off n :
    at_ (harts s h) = Run -> pushes (harts s h) = S n ->
    step h s (mkSys (upd h (mkHart (popped_cpu (hc (harts s h))) Run (held (harts s h)) n)
                         (harts s)) (lks s))
| s_interrupts b :
    at_ (harts s h) = Run -> noff (hc (harts s h)) = 0 ->
    step h s (mkSys (upd h (mkHart (set_sie b (hc (harts s h))) Run (held (harts s h))
                                   (pushes (harts s h))) (harts s)) (lks s)).

Definition initial (s : sys) : Prop :=
  (forall h, at_ (harts s h) = Run /\ held (harts s h) = [] /\ pushes (harts s h) = 0%nat /\
             noff (hc (harts s h)) = 0) /\
  forall l, lks s l = mkSpinlock 0 None.

Inductive reachable : sys -> Prop :=
| r_init s : initial s -> reachable s
| r_step h s s' : reachable s -> step h s s' -> reachable s'.

(** *** The invariant *)

Definition owns (s : sys) (h : Z) (l : lockid) : Prop :=
  l ∈ held (harts s h) \/ at_ (harts s h) = Won l.

Definition pc_ok (x : hart) : Prop :=
  match at_ x with
  | Swap l | Won l => l ∉ held x
  | Clear l | Unlock l => l ∈ held x
  | _ => True
  end.

Definition pc_depth (p : pc) : Z :=
  match p with Check _ | Swap _ | Won _ | Pop => 1 | _ => 0 end.

Definition depth_ok (x : hart) : Prop :=
  at_ x <> Panicked ->
  noff (hc x) = Z.of_nat (length (held x) + pushes x) + pc_depth (at_ x).

Record inv (s : sys) : Prop := {
  i_nodup : forall h, NoDup (held (harts s h));
  i_pc : forall h, pc_ok (harts s h);
  i_excl : forall h h' l, owns s h l -> owns s h' l -> h = h';
  i_locked : forall h l, owns s h l -> locked (lks s l) <> 0;
  i_cpu : forall h l, lcpu (lks s l) = Some h ->
            l ∈ held (harts s h) /\ at_ (harts s h) <> Unlock l;
  i_owner : forall h l, l ∈ held (harts s h) -> at_ (harts s h) <> Unlock l ->
            lcpu (lks s l) = Some h;
  i_depth : forall h, depth_ok (harts s h);
  i_sie : forall h, 0 < noff (hc (harts s h)) -> sie (hc (harts s h)) = false }.

Lemma upd_eq h x f : upd h x f h = x.
Proof. unfold upd. by rewrite decide_True. Qed.
Lemma upd_ne h h' x f : h' <> h -> upd h x f h' = f h'.
Proof. intros H. unfold upd. by rewrite decide_False. Qed.

Lemma length_remove_lock l ls :
  NoDup ls -> l ∈ ls -> length ls = S (length (remove_lock l ls)).
Proof.
  induction ls as [|x ls IH]; intros Hnd Hin; [by apply not_elem_of_nil in Hin|].
  apply NoDup_cons in Hnd as [Hx Hnd]. unfold remove_lock in *. simpl.
  rewrite filter_cons. case_decide as Hxl; simpl.
  - f_equal. apply IH; [done|]. apply elem_of_cons in Hin as [->|]; done.
  - f_equal. assert (x = l) as -> by (destruct (decide (x = l)); naive_solver).
    clear -Hx. induction ls as [|y ls IH]; [done|]. apply not_elem_of_cons in Hx as [Hy Hx].
    rewrite filter_cons. rewrite decide_True by done. simpl. f_equal. by apply IH.
Qed.

(** One hart moved from [harts s h] to [x'] and left the locks as [k]. *)
Lemma inv_local s h x' k :
  inv s ->
  NoDup (held x') -> pc_ok x' -> depth_ok x' ->
  (0 < noff (hc x') -> sie (hc x') = false) ->
  (forall l, l ∈ held x' \/ at_ x' = Won l ->
     locked (k l) <> 0 /\ (owns s h l \/ locked (lks s l) = 0)) ->
  (forall h' l, h' <> h -> owns s h' l -> locked (k l) <> 0) ->
  (forall h' l, h' <> h -> lcpu (k l) = Some h' <-> lcpu (lks s l) = Some h') ->
  (forall l, lcpu (k l) = Some h <-> l ∈ held x' /\ at_ x' <> Unlock l) ->
  inv (mkSys (upd h x' (harts s)) k).
Proof.
  intros [] Hnd Hpc Hdp Hsie Hown Hoth Hcpu Hcpu'.
  assert (forall h', (h' = h /\ upd h x' (harts s) h' = x') \/
                     (h' <> h /\ upd h x' (harts s) h' = harts s h')) as Hu.
  { intros h'. unfold upd. case_decide; naive_solver. }
  assert (forall h' l, owns (mkSys (upd h x' (harts s)) k) h' l ->
            (h' = h /\ locked (k l) <> 0 /\ (owns s h l \/ locked (lks s l) = 0)) \/
            (h' <> h /\ owns s h' l)) as Ho.
  { intros h' l. unfold owns. cbn. destruct (Hu h') as [[-> ->]|[Hne ->]]; eauto. }
  split; cbn.
  - intros h'. destruct (Hu h') as [[-> ->]|[_ ->]]; auto.
  - intros h'. destruct (Hu h') as [[-> ->]|[_ ->]]; auto.
  - intros h1 h2 l [(-> & _ & H1)|[Hn1 H1]]%Ho [(-> & _ & H2)|[Hn2 H2]]%Ho; try done.
    + destruct H1 as [H1|H1]; [by eapply i_excl0|]. by apply i_locked0 in H2.
    + destruct H2 as [H2|H2]; [by eapply i_excl0|]. by apply i_locked0 in H1.
    + by eapply i_excl0.
  - intros h' l [(_ & H & _)|[Hn H]]%Ho; [done|]. by eapply Hoth.
  - intros h' l H. destruct (Hu h') as [[-> ->]|[Hn ->]]; [by apply Hcpu'|].
    apply i_cpu0. by apply Hcpu.
  - intros h' l. destruct (Hu h') as [[-> ->]|[Hn ->]]; intros H1 H2; [by apply Hcpu'|].
    apply Hcpu; [done|]. by apply i_owner0.
  - intros h'. destruct (Hu h') as [[-> ->]|[_ ->]]; auto.
  - intros h'. destruct (Hu h') as [[-> ->]|[_ ->]]; auto.
Qed.

(** The moving hart kept what it owns and the locks. *)
Lemma inv_keep s h x' :
  inv s -> held x' = held (harts s h) ->
  (forall l, at_ x' <> Won l /\ at_ x' <> Unlock l /\ at_ (harts s h) <> Unlock l) ->
  pc_ok x' -> depth_ok x' -> (0 < noff (hc x') -> sie (hc x') = false) ->
  inv (mkSys (upd h x' (harts s)) (lks s)).
Proof.
  intros I Hh Hp Hpc Hd Hs. destruct (id I) as []. apply inv_local; rewrite ?Hh; auto.
  - intros l [Hl|Hl]; [|destruct (Hp l) as [? _]; congruence].
    split; [eapply i_locked0; by left|by left; left].
  - intros h' l _ Ho. by eapply i_locked0.
  - intros l. split.
    + intros Hl. split; [by apply i_cpu0 in Hl as [? _]|apply Hp].
    + intros [Hl _]. apply i_owner0; [done|apply Hp].
Qed.

Lemma holding_in_true h l : holding_in h l = true <-> lcpu l = Some h /\ locked l <> 0.
Proof.
  unfold holding_in. rewrite andb_true_iff, bool_decide_eq_true, negb_true_iff, Z.eqb_neq. done.
Qed.

Ltac pcs :=
  repeat match goal with H : at_ (harts _ _) = _ |- _ => rewrite H in * end.

(** The steps that write to a lock. *)
Section Writes.
Context (h : Z) (s : sys) (I : inv s).
#[local] Abbreviation x := (harts s h).
#[local] Abbreviation move x' k := (mkSys (upd h x' (harts s)) k).

(** The value [v] of the test-and-set does not name another owner. *)
Lemma inv_swap l p : at_ x = Swap l -> p = Swap l /\ locked (lks s l) <> 0 \/ p = Won l /\ locked (lks s l) = 0 ->
  inv (move (goto p x) (set_lock l (mkSpinlock 1 (lcpu (lks s l))) (lks s))).
Proof.
  intros Ha Hp. destruct (id I) as [Ind Ipc Iex Ilk Icpu Iow Idp Isie].
  specialize (Ind h) as Hnd. specialize (Ipc h) as Hpc. specialize (Idp h) as Hdp. specialize (Isie h) as Hsie.
  unfold pc_ok, depth_ok in Hpc, Hdp. rewrite Ha in Hpc, Hdp. cbn in Hpc, Hdp. specialize (Hdp ltac:(done)).
  assert (HU : forall l', p <> Unlock l') by (intros l'; destruct Hp as [[-> _]|[-> _]]; done).
  apply inv_local; cbn; try done.
  - unfold pc_ok. cbn. destruct Hp as [[-> _]|[-> _]]; done.
  - unfold depth_ok. cbn. destruct Hp as [[-> _]|[-> _]]; intros _; cbn; lia.
  - intros l' [Hl'|Hw].
    + split; [|by left; left]. unfold set_lock. case_decide; [done|]. eapply Ilk. by left.
    + destruct Hp as [[-> _]|[-> Hz]]; simplify_eq. rewrite set_lock_eq. by split; [|right].
  - intros h' l' _ Ho. unfold set_lock. case_decide; [done|]. by eapply Ilk.
  - intros h' l' _. unfold set_lock. by case_decide; subst.
  - intros l'. unfold set_lock. split.
    + intros Hc. assert (lcpu (lks s l') = Some h) as Hc' by (by case_decide; subst).
      apply Icpu in Hc' as [? _]. by split.
    + intros [Hin _]. apply Iow in Hin; [|by rewrite Ha]. by case_decide; subst.
Qed.

Lemma inv_own l : at_ x = Won l ->
  inv (move (mkHart (hc x) Run (l :: held x) (pushes x)) (set_lock l (mkSpinlock (locked (lks s l)) (Some h)) (lks s))).
Proof.
  intros Ha. destruct (id I) as [Ind Ipc Iex Ilk Icpu Iow Idp Isie].
  specialize (Ind h) as Hnd. specialize (Ipc h) as Hpc. specialize (Idp h) as Hdp. specialize (Isie h) as Hsie.
  unfold pc_ok, depth_ok in Hpc, Hdp. rewrite Ha in Hpc, Hdp. cbn in Hpc, Hdp. specialize (Hdp ltac:(done)).
  assert (owns s h l) as Hol by (by right). apply inv_local; cbn; try done; try (intros _; cbn; lia).
  - by apply NoDup_cons.
  - intros l' [Hl'|?]; [|done]. assert (owns s h l') as Hol'.
    { apply elem_of_cons in Hl' as [->|Hl']; [done|by left]. }
    split; [|by left]. unfold set_lock. case_decide; subst; by eapply Ilk.
  - intros h' l' _ Ho. unfold set_lock. case_decide; subst; by eapply Ilk.
  - intros h' l' Hne. unfold set_lock. case_decide; [subst; cbn|done]. split; [naive_solver|].
    intros Hc. apply Icpu in Hc as [Hin _]. destruct Hne. eapply Iex; [by left|done].
  - intros l'. unfold set_lock. case_decide; subst; cbn.
    + split; [|done]. intros _. split; [by left|done].
    + rewrite elem_of_cons. split.
      * intros [Hin _]%Icpu. naive_solver.
      * intros [[?|Hin] _]; [done|]. apply Iow; [done|by rewrite Ha].
Qed.

Lemma inv_clear l : at_ x = Clear l -> inv (move (goto (Unlock l) x) (set_lock l (mkSpinlock (locked (lks s l)) None) (lks s))).
Proof.
  intros Ha. destruct (id I) as [Ind Ipc Iex Ilk Icpu Iow Idp Isie].
  specialize (Ind h) as Hnd. specialize (Ipc h) as Hpc. specialize (Idp h) as Hdp. specialize (Isie h) as Hsie.
  unfold pc_ok, depth_ok in Hpc, Hdp. rewrite Ha in Hpc, Hdp. cbn in Hpc, Hdp. specialize (Hdp ltac:(done)).
  assert (owns s h l) as Hol by (by left). apply inv_local; cbn; try done; try (intros _; cbn; lia).
  - intros l' [Hl'|?]; [|done]. split; [|by left; left].
    unfold set_lock. case_decide; subst; eapply Ilk; by left.
  - intros h' l' _ Ho. unfold set_lock. case_decide; subst; by eapply Ilk.
  - intros h' l' Hne. unfold set_lock. case_decide; [subst; cbn|done]. split; [done|].
    rewrite (Iow h l) by (try done; by rewrite Ha). naive_solver.
  - intros l'. unfold set_lock. case_decide; subst; cbn; [naive_solver|]. split.
    + intros [Hin _]%Icpu. naive_solver.
    + intros [Hin _]. apply Iow; [done|by rewrite Ha].
Qed.

Lemma inv_unlock l : at_ x = Unlock l ->
  inv (move (mkHart (hc x) Pop (remove_lock l (held x)) (pushes x)) (set_lock l (mkSpinlock 0 (lcpu (lks s l))) (lks s))).
Proof.
  intros Ha. destruct (id I) as [Ind Ipc Iex Ilk Icpu Iow Idp Isie].
  specialize (Ind h) as Hnd. specialize (Ipc h) as Hpc. specialize (Idp h) as Hdp. specialize (Isie h) as Hsie.
  unfold pc_ok, depth_ok in Hpc, Hdp. rewrite Ha in Hpc, Hdp. cbn in Hpc, Hdp. specialize (Hdp ltac:(done)).
  assert (owns s h l) as Hol by (by left).
  assert (lcpu (lks s l) <> Some h) as Hcl by (intros [_ Hu]%Icpu; by rewrite Ha in Hu).
  pose proof (length_remove_lock l _ Hnd Hpc) as Hlen.
  apply inv_local; cbn; try done; try (intros _; cbn; lia).
  - by apply NoDup_filter.
  - intros l' [[Hne Hl']%list_elem_of_filter|?]; [|done]. rewrite set_lock_ne by done.
    split; [eapply Ilk|left]; by left.
  - intros h' l' Hne Ho. rewrite set_lock_ne; [by eapply Ilk|]. intros ->. destruct Hne. by eapply Iex.
  - intros h' l' _. unfold set_lock. by case_decide; subst.
  - intros l'. unfold remove_lock. rewrite list_elem_of_filter. unfold set_lock.
    case_decide; subst; cbn; [naive_solver|]. split.
    + intros [Hin _]%Icpu. naive_solver.
    + intros [[_ Hin] _]. apply Iow; [done|]. rewrite Ha. naive_solver.
Qed.
End Writes.

Lemma step_inv h s s' : inv s -> step h s s' -> inv s'.
Proof.
  intros I Hstep. destruct (id I) as [Ind Ipc Iex Ilk Icpu Iow Idp Isie].
  specialize (Ipc h) as Hpc. specialize (Idp h) as Hdp. specialize (Isie h) as Hsie. unfold pc_ok, depth_ok in Hpc, Hdp.
  destruct Hstep as [l Ha|l Ha Hh|l Ha Hh|l Ha Hl|l Ha Hl|l Ha|l Ha Hh|l Ha Hh
    |l Ha|l Ha|Ha|Ha|n Ha Hp|b Ha Hn]; rewrite Ha in Hpc, Hdp; cbn in Hpc, Hdp;
    specialize (Hdp ltac:(done)).
  4-5: apply inv_swap; auto.
  4: by apply inv_own.
  6: by apply inv_clear.
  6: by apply inv_unlock.
  all: apply inv_keep; cbn; rewrite ?Ha; try done; try (intros _; cbn; lia).
  - intros Hin. assert (holding_in h (lks s l) = true) as Ht; [|congruence].
    apply holding_in_true. split; [apply Iow; [done|by rewrite Ha]|eapply Ilk; by left].
  - by intros [].
  - apply holding_in_true in Hh as [Hc _]. by apply Icpu in Hc as [Hin _].
  - intros Hp0. destruct (Z.eqb_spec (noff (hc (harts s h)) - 1) 0); [lia|done].
  - intros Hp0. destruct (Z.eqb_spec (noff (hc (harts s h)) - 1) 0); [lia|done].
  - lia.
Qed.

Lemma initial_inv s : initial s -> inv s.
Proof.
  intros [Hh Hl].
  assert (forall h l, ~ owns s h l) as Hno.
  { intros h l. destruct (Hh h) as (Ha & He & _). unfold owns. rewrite Ha, He.
    intros [?%elem_of_nil|?]; done. }
  split.
  - intros h. destruct (Hh h) as (_ & -> & _). constructor.
  - intros h. unfold pc_ok. by destruct (Hh h) as (-> & _).
  - intros h h' l Ho. by destruct (Hno h l).
  - intros h l Ho. by destruct (Hno h l).
  - intros h l. by rewrite Hl.
  - intros h l Ho. destruct (Hno h l). by left.
  - intros h _. destruct (Hh h) as (-> & -> & -> & ->). done.
  - intros h. destruct (Hh h) as (_ & _ & _ & ->). lia.
Qed.

Lemma reachable_inv s : reachable s -> inv s.
Proof. induction 1 as [s Hi|h s s' _ IH Hs]; [by apply initial_inv|by eapply step_inv]. Qed.

(** What the code of hart [h] sees of the system. *)
Definition view (h : Z) (s : sys) : lockst := mkLockst h (hc (harts s h)) (lks s).

Lemma acquire_inv lk s s' :
  acquire lk s = Ret (tt, s') ->
  holding_in (hartid s) (locks s lk) = false /\ locked (locks s lk) = 0 /\
  s' ≡ acquired lk s.
Proof.
  unfold acquire. rewrite (kbind_ret _ _ _ _ _ (push_off_spec s)).
  destruct s as [h c f]. unfold kbind, holding, kget, test_and_set, on_lock. cbn.
  destruct (holding_in h (f lk)) eqn:Hh; [done|]. cbn.
  destruct (Z.eqb_spec (locked (f lk)) 0) as [Hl|Hl]; [|done]. cbn.
  intros [= <-]. split_and!; [done..|].
  split_and!; [done..|]. intros x. cbn. by rewrite set_lock_twice, set_lock_eq.
Qed.

Lemma release_inv lk s s' :
  release lk s = Ret (tt, s') ->
  holding_in (hartid s) (locks s lk) = true /\
  s' ≡ released lk s.
Proof.
  intros Hr. destruct (holding_in (hartid s) (locks s lk)) eqn:Hh;
    [|by rewrite release_not_held in Hr].
  split; [done|]. revert Hr. unfold release. krun. rewrite Hh. repeat krun.
  unfold pop_off. krun. cbn. destruct (sie (hcpu s)) eqn:Hs; [done|].
  krun. krun. cbn. destruct (Z.ltb_spec (noff (hcpu s)) 1); [done|]. cbn.
  intros Hr. assert (s' = mkLockst (hartid s) (popped_cpu (hcpu s))
    (set_lock lk (mkSpinlock 0 None) (set_lock lk (mkSpinlock (locked (locks s lk)) None) (locks s)))) as ->.
  { revert Hr. unfold kwhen, popped_cpu.
    destruct ((noff (hcpu s) - 1 =? 0) && intena (hcpu s)); intros [= <-];
      unfold on_cpu, on_lock, set_noff, set_sie; cbn; rewrite ?set_lock_eq, ?Hs; reflexivity. }
  split_and!; [done..|]. intros x. cbn. by rewrite set_lock_twice.
Qed.

(** Runs of [acquire] and [release] by one hart, as sequences of its steps. *)
Lemma acquire_steps h lk s s' :
  at_ (harts s h) = Run -> acquire lk (view h s) = Ret (tt, s') ->
  exists t, rtc (step h) s t /\ view h t ≡ s' /\ at_ (harts t h) = Run /\
    held (harts t h) = lk :: held (harts s h) /\
    forall h', h' <> h -> harts t h' = harts s h'.
Proof.
  intros Ha Hr. apply acquire_inv in Hr as (Hh & Hl & Heq). cbn in Hh, Hl.
  eexists. split_and!.
  - eapply rtc_l; [by apply (s_acquire h s lk)|]. cbn.
    eapply rtc_l; [apply (s_check h _ lk); cbn; by rewrite ?upd_eq|]. cbn.
    eapply rtc_l; [apply (s_swap_win h _ lk); cbn; by rewrite ?upd_eq|]. cbn.
    eapply rtc_l; [apply (s_owner h _ lk); cbn; by rewrite ?upd_eq|]. apply rtc_refl.
  - etransitivity; [|by symmetry]. unfold view. cbn. rewrite !upd_eq. cbn.
    split_and!; [done..|]. intros x. cbn. by rewrite set_lock_twice, set_lock_eq.
  - cbn. by rewrite upd_eq.
  - cbn. by rewrite !upd_eq.
  - intros h' Hne. cbn. by rewrite !upd_ne by done.
Qed.

Lemma release_steps h lk s s' :
  at_ (harts s h) = Run -> release lk (view h s) = Ret (tt, s') ->
  exists t, rtc (step h) s t /\ view h t ≡ s' /\ at_ (harts t h) = Run /\
    held (harts t h) = remove_lock lk (held (harts s h)) /\
    forall h', h' <> h -> harts t h' = harts s h'.
Proof.
  intros Ha Hr. apply release_inv in Hr as (Hh & Heq). cbn in Hh.
  eexists. split_and!.
  - eapply rtc_l; [by apply (s_release h s lk)|]. cbn.
    eapply rtc_l; [apply (s_clear h _ lk); cbn; by rewrite ?upd_eq|]. cbn.
    eapply rtc_l; [apply (s_unlock h _ lk); cbn; by rewrite ?upd_eq|]. cbn.
    eapply rtc_l; [apply (s_pop h); cbn; by rewrite ?upd_eq|]. apply rtc_refl.
  - etransitivity; [|by symmetry]. unfold view. cbn. rewrite !upd_eq. cbn.
    split_and!; [done..|]. intros x. cbn. by rewrite set_lock_twice, set_lock_eq.
  - cbn. by rewrite upd_eq.
  - cbn. by rewrite !upd_eq.
  - intros h' Hne. cbn. by rewrite !upd_ne by done.
Qed.

Lemma steps_reachable h s t : reachable s -> rtc (step h) s t -> reachable t.
Proof. intros Hs Hst. induction Hst as [|a b c Hab _ IH]; [done|]. apply IH. by eapply r_step. Qed.

(** A hart that holds a lock runs with interrupts off. *)
Lemma held_interrupts_off h l s :
  inv s -> l ∈ held (harts s h) -> at_ (harts s h) <> Panicked -> sie (hc (harts s h)) = false.
Proof.
  intros I Hl Hp. apply (i_sie _ I). pose proof (i_depth _ I h Hp) as ->.
  assert (0 < length (held (harts s h)))%nat by (destruct (held (harts s h)); [by apply not_elem_of_nil in Hl|simpl; lia]).
  destruct (at_ (harts s h)); cbn; lia.
Qed.

(** A system where hart 1 has taken the lock of the page allocator. *)
Definition boot : sys :=
  mkSys (fun _ => mkHart (mkCpu 0 false true) Run [] 0) (fun _ => mkSpinlock 0 None).

Lemma boot_initial : initial boot.
Proof. split; [intros h; done|done]. Qed.

(** C1. Mutual exclusion: in every interleaving of any number of harts, at most
    one of them is between the acquire and the release of a given lock, and,
    unless it has panicked, it has interrupts disabled there and its nesting
    depth counts exactly the locks it holds plus its open [push_off] calls. *)
Theorem mutual_exclusion s h h' l :
  reachable s -> l ∈ held (harts s h) -> l ∈ held (harts s h') ->
  h = h' /\
  (at_ (harts s h) <> Panicked -> sie (hc (harts s h)) = false) /\
  (at_ (harts s h) = Run ->
   noff (hc (harts s h)) = Z.of_nat (length (held (harts s h)) + pushes (harts s h))).
Proof.
  intros Hr Hl Hl'. apply reachable_inv in Hr as I. split_and!.
  - eapply (i_excl _ I); by left.
  - by eapply held_interrupts_off.
  - intros Ha. pose proof (i_depth _ I h) as Hd. unfold depth_ok in Hd. rewrite Ha in Hd.
    rewrite Hd by done. cbn. lia.
Qed.

Definition boot_check : sys :=
  mkSys (upd 1 (pushed (Check kmem_lock) (harts boot 1)) (harts boot)) (lks boot).
Definition boot_swap : sys :=
  mkSys (upd 1 (goto (Swap kmem_lock) (harts boot_check 1)) (harts boot_check)) (lks boot_check).
Definition boot_won : sys :=
  mkSys (upd 1 (goto (Won kmem_lock) (harts boot_swap 1)) (harts boot_swap))
        (set_lock kmem_lock (mkSpinlock 1 (lcpu (lks boot_swap kmem_lock))) (lks boot_swap)).
Definition boot_acquired : sys :=
  mkSys (upd 1 (mkHart (hc (harts boot_won 1)) Run (kmem_lock :: held (harts boot_won 1))
                       (pushes (harts boot_won 1))) (harts boot_won))
        (set_lock kmem_lock (mkSpinlock (locked (lks boot_won kmem_lock)) (Some 1)) (lks boot_won)).

Lemma boot_acquired_reachable : reachable boot_acquired.
Proof.
  apply (r_step 1 boot_won); [apply (r_step 1 boot_swap); [apply (r_step 1 boot_check);
    [apply (r_step 1 boot); [apply r_init, boot_initial|]|]|]|].
  - by apply s_acquire.
  - by apply s_check.
  - by apply s_swap_win.
  - by apply s_owner.
Qed.

Lemma mutual_exclusion_witness :
  kmem_lock ∈ held (harts boot_acquired 1) /\
  (1 = 1 /\
   (at_ (harts boot_acquired 1) <> Panicked -> sie (hc (harts boot_acquired 1)) = false) /\
   (at_ (harts boot_acquired 1) = Run ->
    noff (hc (harts boot_acquired 1)) =
    Z.of_nat (length (held (harts boot_acquired 1)) + pushes (harts boot_acquired 1)))).
Proof.
  split; [by left|].
  apply (mutual_exclusion boot_acquired 1 1 kmem_lock); [apply boot_acquired_reachable|by left..].
Defined.

(** C30. The run-to-completion [acquire] and [release] that the other components
    call are refined by the interleaving: whenever one returns, the same hart
    can take it as a sequence of atomic steps that ends in the same locks and
    the same [struct cpu], moves no other hart, and makes the lock the hart's
    (or no longer its own). *)
Theorem lock_ops_refine_steps h lk s s' :
  at_ (harts s h) = Run ->
  (acquire lk (view h s) = Ret (tt, s') ->
   exists t, rtc (step h) s t /\ view h t ≡ s' /\ at_ (harts t h) = Run /\
     held (harts t h) = lk :: held (harts s h) /\
     forall h', h' <> h -> harts t h' = harts s h') /\
  (release lk (view h s) = Ret (tt, s') ->
   exists t, rtc (step h) s t /\ view h t ≡ s' /\ at_ (harts t h) = Run /\
     held (harts t h) = remove_lock lk (held (harts s h)) /\
     forall h', h' <> h -> harts t h' = harts s h').
Proof. intros Ha. split; intros Hr; [by apply acquire_steps|by apply release_steps]. Qed.

Lemma lock_ops_refine_steps_witness :
  exists t, rtc (step 1) boot t /\ kmem_lock ∈ held (harts t 1).
Proof.
  destruct (lock_ops_refine_steps 1 kmem_lock boot
    (mkLockst 1 (mkCpu 1 true false)
       (set_lock kmem_lock (mkSpinlock 1 (Some 1))
          (set_lock kmem_lock (mkSpinlock 1 None) (fun _ => mkSpinlock 0 None)))) eq_refl) as [H _].
  destruct (H eq_refl) as (t & Ht & _ & _ & Hh & _).
  exists t. split; [exact Ht|]. rewrite Hh. by left.
Defined.

End Interleave.
