(* ===== verification/DList.v ===== *)
(** Doubly linked lists with two sentinel elements: src/kernel/list.c and
    src/include/list.h.

    The heap of [struct list_elem] objects is a finite map from addresses to
    pairs of pointers; reading or writing a link of an address outside the map
    is a [Fault]. [dlist s l xs] is the representation invariant of the list
    at [l] holding the elements [xs]; every operation is specified against the
    mathematical list. A loop takes its fuel as an argument and the theorems
    give the fuel that is enough (one more than the number of elements). *)
From S2P Require Import Prelude.

Abbreviation addr := Z (only parsing).
Definition NULL : addr := 0.

(** [struct list_elem]. *)
Record elem : Type := Elem { prev : addr; next : addr }.

Abbreviation store := (gmap addr elem).

Inductive field : Type := Prev | Next.
Definition get_field (f : field) (x : elem) : addr :=
  match f with Prev => prev x | Next => next x end.
Definition put_field (f : field) (v : addr) (x : elem) : elem :=
  match f with Prev => Elem v (next x) | Next => Elem (prev x) v end.

(** [e->f] as a value and as the target of an assignment. *)
Definition ld (f : field) (e : addr) : K store addr := fun s =>
  match s !! e with Some x => Ret (get_field f x, s) | None => Fault end.
Definition st (f : field) (e v : addr) : K store unit := fun s =>
  match s !! e with Some x => Ret (tt, <[e := put_field f v x]> s) | None => Fault end.

(** ** Operations *)

(** [&list->head] and [&list->tail] of a [struct list] at [l]. *)
Definition head_of (l : addr) : addr := l.
Definition tail_of (l : addr) : addr := l + 16.

Definition is_head (e : addr) : K store bool :=
  if e =? NULL then kret false else
  p <- ld Prev e ;;
  if negb (p =? NULL) then kret false else
  n <- ld Next e ;; kret (negb (n =? NULL)).

Definition is_interior (e : addr) : K store bool :=
  if e =? NULL then kret false else
  p <- ld Prev e ;;
  if p =? NULL then kret false else
  n <- ld Next e ;; kret (negb (n =? NULL)).

Definition is_tail (e : addr) : K store bool :=
  if e =? NULL then kret false else
  p <- ld Prev e ;;
  if p =? NULL then kret false else
  n <- ld Next e ;; kret (n =? NULL).

(** [a || b] of two tests that read the heap. *)
Definition kor {S} (a b : K S bool) : K S bool :=
  x <- a ;; if (x : bool) then kret true else b.
Definition kassertm {S} (m : K S bool) : K S unit := b <- m ;; kassert b.

Definition list_init (l : addr) : K store unit :=
  kassert (negb (l =? NULL)) ;;
  st Prev (head_of l) NULL ;;
  st Next (head_of l) (tail_of l) ;;
  st Prev (tail_of l) (head_of l) ;;
  st Next (tail_of l) NULL.

Definition list_begin (l : addr) : K store addr :=
  kassert (negb (l =? NULL)) ;; ld Next (head_of l).
Definition list_next (e : addr) : K store addr :=
  kassertm (kor (is_head e) (is_interior e)) ;; ld Next e.
Definition list_end (l : addr) : K store addr :=
  kassert (negb (l =? NULL)) ;; kret (tail_of l).
Definition list_rbegin (l : addr) : K store addr :=
  kassert (negb (l =? NULL)) ;; ld Prev (tail_of l).
Definition list_prev (e : addr) : K store addr :=
  kassertm (kor (is_interior e) (is_tail e)) ;; ld Prev e.
Definition list_rend (l : addr) : K store addr :=
  kassert (negb (l =? NULL)) ;; kret (head_of l).
Definition list_head (l : addr) : K store addr :=
  kassert (negb (l =? NULL)) ;; kret (head_of l).
Definition list_tail (l : addr) : K store addr :=
  kassert (negb (l =? NULL)) ;; kret (tail_of l).

Definition list_insert (before e : addr) : K store unit :=
  kassertm (kor (is_interior before) (is_tail before)) ;;
  kassert (negb (e =? NULL)) ;;
  p <- ld Prev before ;;
  st Prev e p ;;
  st Next e before ;;
  p' <- ld Prev before ;;
  st Next p' e ;;
  st Prev before e.

Definition list_splice (before first last : addr) : K store unit :=
  kassertm (kor (is_interior before) (is_tail before)) ;;
  if first =? last then kret tt else
  last' <- list_prev last ;;
  kassertm (is_interior first) ;;
  kassertm (is_interior last') ;;
  fp <- ld Prev first ;;
  ln <- ld Next last' ;;
  st Next fp ln ;;
  ln' <- ld Next last' ;;
  fp' <- ld Prev first ;;
  st Prev ln' fp' ;;
  bp <- ld Prev before ;;
  st Prev first bp ;;
  st Next last' before ;;
  bp' <- ld Prev before ;;
  st Next bp' first ;;
  st Prev before last'.

Definition list_push_front (l e : addr) : K store unit :=
  b <- list_begin l ;; list_insert b e.
Definition list_push_back (l e : addr) : K store unit :=
  b <- list_end l ;; list_insert b e.

Definition list_remove (e : addr) : K store addr :=
  kassertm (is_interior e) ;;
  p <- ld Prev e ;;
  n <- ld Next e ;;
  st Next p n ;;
  n' <- ld Next e ;;
  p' <- ld Prev e ;;
  st Prev n' p' ;;
  ld Next e.

Definition list_empty (l : addr) : K store bool :=
  b <- list_begin l ;; e <- list_end l ;; kret (b =? e).
Definition list_front (l : addr) : K store addr :=
  e <- list_empty l ;; kassert (negb e) ;; ld Next (head_of l).
Definition list_back (l : addr) : K store addr :=
  e <- list_empty l ;; kassert (negb e) ;; ld Prev (tail_of l).
Definition list_pop_front (l : addr) : K store addr :=
  f <- list_front l ;; list_remove f ;; kret f.
Definition list_pop_back (l : addr) : K store addr :=
  b <- list_back l ;; list_remove b ;; kret b.

(** The loop [for (e = list_begin(l); e != list_end(l); e = list_next(e))]. *)
Fixpoint size_loop (fuel : nat) (l e cnt : Z) : K store Z :=
  match fuel with
  | O => knofuel
  | S fuel =>
      t <- list_end l ;;
      if e =? t then kret cnt else
      e' <- list_next e ;; size_loop fuel l e' (u64 (cnt + 1))
  end.
Definition list_size (fuel : nat) (l : addr) : K store Z :=
  e <- list_begin l ;; size_loop fuel l e 0.

(** [swap(&a->fa, &b->fb)]. *)
Definition swap (a : addr) (fa : field) (b : addr) (fb : field) : K store unit :=
  t <- ld fa a ;;
  y <- ld fb b ;;
  st fa a y ;;
  st fb b t.

Fixpoint reverse_loop (fuel : nat) (l e : addr) : K store unit :=
  match fuel with
  | O => knofuel
  | S fuel =>
      t <- list_end l ;;
      if e =? t then kret tt else
      swap e Prev e Next ;;
      e' <- ld Prev e ;; reverse_loop fuel l e'
  end.
Definition list_reverse (fuel : nat) (l : addr) : K store unit :=
  b <- list_empty l ;;
  if (b : bool) then kret tt else
  e <- list_begin l ;;
  reverse_loop fuel l e ;;
  swap (head_of l) Next (tail_of l) Prev ;;
  h <- ld Next (head_of l) ;;
  t <- ld Prev (tail_of l) ;;
  swap h Prev t Next.

(** The macro [list_find]: the first element satisfying [test], NULL if none. *)
Fixpoint find_loop (test : addr -> bool) (fuel : nat) (l e : addr) : K store addr :=
  match fuel with
  | O => knofuel
  | S fuel =>
      t <- list_end l ;;
      if e =? t then kret NULL else
      if test e then kret e else
      e' <- list_next e ;; find_loop test fuel l e'
  end.
Definition list_find (test : addr -> bool) (fuel : nat) (l : addr) : K store addr :=
  e <- list_begin l ;; find_loop test fuel l e.

(** ** Operations on ordered lists

    [less] is the [list_less_func] with its [aux] argument; it reads fields of
    the enclosing structures, which no list operation writes. *)
Section Ordered.
Context (less : addr -> addr -> bool).

Fixpoint is_sorted_loop (fuel : nat) (a b : addr) : K store bool :=
  match fuel with
  | O => knofuel
  | S fuel =>
      a' <- list_next a ;;
      if a' =? b then kret true else
      p <- list_prev a' ;;
      if less a' p then kret false else is_sorted_loop fuel a' b
  end.
Definition is_sorted (fuel : nat) (a b : addr) : K store bool :=
  if a =? b then kret true else is_sorted_loop fuel a b.

Fixpoint run_loop (fuel : nat) (a b : addr) : K store addr :=
  match fuel with
  | O => knofuel
  | S fuel =>
      a' <- list_next a ;;
      if a' =? b then kret a' else
      p <- list_prev a' ;;
      if less a' p then kret a' else run_loop fuel a' b
  end.
Definition find_end_of_run (fuel : nat) (a b : addr) : K store addr :=
  kassert (negb (a =? NULL)) ;;
  kassert (negb (b =? NULL)) ;;
  kassert (negb (a =? b)) ;;
  run_loop fuel a b.

Fixpoint merge_loop (fuel : nat) (a0 a1b0 b1 : addr) : K store unit :=
  match fuel with
  | O => knofuel
  | S fuel =>
      if (a0 =? a1b0) || (a1b0 =? b1) then kret tt else
      if negb (less a1b0 a0) then
        a0' <- list_next a0 ;; merge_loop fuel a0' a1b0 b1
      else
        a1b0' <- list_next a1b0 ;;
        p <- list_prev a1b0' ;;
        list_splice a0 p a1b0' ;;
        merge_loop fuel a0 a1b0' b1
  end.
Definition inplace_merge (fuel : nat) (a0 a1b0 b1 : addr) : K store unit :=
  kassert (negb (a0 =? NULL)) ;;
  kassert (negb (a1b0 =? NULL)) ;;
  kassert (negb (b1 =? NULL)) ;;
  kassertm (is_sorted fuel a0 a1b0) ;;
  kassertm (is_sorted fuel a1b0 b1) ;;
  merge_loop fuel a0 a1b0 b1.

(** One pass over the list; returns [output_run_cnt]. *)
Fixpoint sort_pass (fuel : nat) (l a0 cnt : Z) : K store Z :=
  match fuel with
  | O => knofuel
  | S fuel' =>
      t <- list_end l ;;
      if a0 =? t then kret cnt else
      let cnt := u64 (cnt + 1) in
      t1 <- list_end l ;;
      a1b0 <- find_end_of_run fuel a0 t1 ;;
      t2 <- list_end l ;;
      if a1b0 =? t2 then kret cnt else
      t3 <- list_end l ;;
      b1 <- find_end_of_run fuel a1b0 t3 ;;
      inplace_merge fuel a0 a1b0 b1 ;;
      sort_pass fuel' l b1 cnt
  end.
Fixpoint sort_loop (passes fuel : nat) (l : addr) : K store unit :=
  match passes with
  | O => knofuel
  | S passes =>
      a0 <- list_begin l ;;
      cnt <- sort_pass fuel l a0 0 ;;
      if 1 <? cnt then sort_loop passes fuel l else kret tt
  end.
Definition list_sort (fuel : nat) (l : addr) : K store unit :=
  kassert (negb (l =? NULL)) ;;
  sort_loop fuel fuel l ;;
  b <- list_begin l ;;
  e <- list_end l ;;
  kassertm (is_sorted fuel b e).

Fixpoint ordered_loop (fuel : nat) (l e x : addr) : K store addr :=
  match fuel with
  | O => knofuel
  | S fuel =>
      t <- list_end l ;;
      if e =? t then kret e else
      if less x e then kret e else
      e' <- list_next e ;; ordered_loop fuel l e' x
  end.
Definition list_insert_ordered (fuel : nat) (l x : addr) : K store unit :=
  kassert (negb (l =? NULL)) ;;
  kassert (negb (x =? NULL)) ;;
  b <- list_begin l ;;
  e <- ordered_loop fuel l b x ;;
  list_insert e x.

Fixpoint unique_loop (fuel : nat) (l dup e : addr) : K store unit :=
  match fuel with
  | O => knofuel
  | S fuel =>
      n <- list_next e ;;
      t <- list_end l ;;
      if n =? t then kret tt else
      if negb (less e n) && negb (less n e) then
        list_remove n ;;
        (if negb (dup =? NULL) then list_push_back dup n else kret tt) ;;
        unique_loop fuel l dup e
      else unique_loop fuel l dup n
  end.
Definition list_unique (fuel : nat) (l dup : addr) : K store unit :=
  kassert (negb (l =? NULL)) ;;
  b <- list_empty l ;;
  if (b : bool) then kret tt else
  e <- list_begin l ;; unique_loop fuel l dup e.

(** The loops of [list_max] and [list_min]; [better] compares the candidate
    with the element visited. *)
Fixpoint extremum_loop (better : addr -> addr -> bool) (fuel : nat) (l e m : addr) : K store addr :=
  match fuel with
  | O => knofuel
  | S fuel =>
      t <- list_end l ;;
      if e =? t then kret m else
      let m := if better m e then e else m in
      e' <- list_next e ;; extremum_loop better fuel l e' m
  end.
Definition list_max (fuel : nat) (l : addr) : K store addr :=
  m <- list_begin l ;; t <- list_end l ;;
  if m =? t then kret m else
  e <- list_next m ;; extremum_loop (fun m e => less m e) fuel l e m.
Definition list_min (fuel : nat) (l : addr) : K store addr :=
  m <- list_begin l ;; t <- list_end l ;;
  if m =? t then kret m else
  e <- list_next m ;; extremum_loop (fun m e => less e m) fuel l e m.
End Ordered.

(** ** Links and chains *)

Definition nxt (s : store) (a : addr) : option addr := next <$> s !! a.
Definition prv (s : store) (a : addr) : option addr := prev <$> s !! a.
Definition live (s : store) (a : addr) : Prop := is_Some (s !! a).
Definition put (f : field) (a v : addr) (s : store) : store := alter (put_field f v) a s.

(** [a] and [b] are adjacent, in both directions. *)
Definition lk (s : store) (a b : addr) : Prop := nxt s a = Some b /\ prv s b = Some a.

Fixpoint chain (s : store) (ns : list addr) : Prop :=
  match ns with
  | [] => True
  | a :: r => match r with [] => True | b :: _ => lk s a b end /\ chain s r
  end.

Definition fr (xs : list addr) : addr := hd NULL xs.
Definition bk (xs : list addr) : addr := List.last xs NULL.
Definition nodes (l : addr) (xs : list addr) : list addr := head_of l :: xs ++ [tail_of l].

(** The list at [l] holds the elements [xs], front to back. *)
Record dlist (s : store) (l : addr) (xs : list addr) : Prop := {
  d_prev : prv s (head_of l) = Some NULL;
  d_next : nxt s (tail_of l) = Some NULL;
  d_chain : chain s (nodes l xs);
  d_nodup : NoDup (nodes l xs);
  d_null : NULL ∉ nodes l xs
}.

(** [s'] is [s] except for the links of the addresses in [X]. *)
Definition unchanged_but (X : list addr) (s s' : store) : Prop :=
  (forall a, live s a <-> live s' a) /\ (forall a, a ∉ X -> s' !! a = s !! a).

Lemma nxt_live s a v : nxt s a = Some v -> live s a.
Proof. unfold nxt, live. destruct (s !! a); [eauto|done]. Qed.
Lemma prv_live s a v : prv s a = Some v -> live s a.
Proof. unfold prv, live. destruct (s !! a); [eauto|done]. Qed.

Lemma live_put f a v s b : live (put f a v s) b <-> live s b.
Proof. unfold live, put. by rewrite lookup_alter_is_Some. Qed.

Lemma nxt_put_next a v s b : live s a -> nxt (put Next a v s) b = if decide (b = a) then Some v else nxt s b.
Proof.
  intros [x Hx]. unfold nxt, put. destruct (decide (b = a)) as [->|Hne].
  - by rewrite lookup_alter_eq, Hx.
  - by rewrite lookup_alter_ne.
Qed.
Lemma nxt_put_prev a v s b : nxt (put Prev a v s) b = nxt s b.
Proof.
  unfold nxt, put. destruct (decide (b = a)) as [->|Hne].
  - rewrite lookup_alter_eq. by destruct (s !! a).
  - by rewrite lookup_alter_ne.
Qed.
Lemma prv_put_prev a v s b : live s a -> prv (put Prev a v s) b = if decide (b = a) then Some v else prv s b.
Proof.
  intros [x Hx]. unfold prv, put. destruct (decide (b = a)) as [->|Hne].
  - by rewrite lookup_alter_eq, Hx.
  - by rewrite lookup_alter_ne.
Qed.
Lemma prv_put_next a v s b : prv (put Next a v s) b = prv s b.
Proof.
  unfold prv, put. destruct (decide (b = a)) as [->|Hne].
  - rewrite lookup_alter_eq. by destruct (s !! a).
  - by rewrite lookup_alter_ne.
Qed.

Lemma unchanged_refl X s : unchanged_but X s s.
Proof. by split. Qed.
Lemma unchanged_trans X s1 s2 s3 :
  unchanged_but X s1 s2 -> unchanged_but X s2 s3 -> unchanged_but X s1 s3.
Proof.
  intros [L1 E1] [L2 E2]. split; [intros a; by rewrite L1|].
  intros a Ha. by rewrite E2, E1.
Qed.
Lemma unchanged_put X f a v s s' :
  a ∈ X -> unchanged_but X s s' -> unchanged_but X s (put f a v s').
Proof.
  intros Ha [L E]. split.
  - intros b. by rewrite live_put.
  - intros b Hb. unfold put. rewrite lookup_alter_ne by set_solver. auto.
Qed.
Lemma unchanged_mono X Y s s' : X ⊆ Y -> unchanged_but X s s' -> unchanged_but Y s s'.
Proof. intros HXY [L E]. split; [done|]. intros a Ha. apply E. set_solver. Qed.

Lemma ld_next_ok s e v : nxt s e = Some v -> ld Next e s = Ret (v, s).
Proof. unfold nxt, ld. destruct (s !! e); naive_solver. Qed.
Lemma ld_prev_ok s e v : prv s e = Some v -> ld Prev e s = Ret (v, s).
Proof. unfold prv, ld. destruct (s !! e); naive_solver. Qed.
Lemma st_ok f s e v : live s e -> st f e v s = Ret (tt, put f e v s).
Proof.
  intros [x Hx]. unfold st, put. rewrite Hx. do 2 f_equal.
  apply map_eq. intros b. destruct (decide (b = e)) as [->|].
  - by rewrite lookup_insert_eq, lookup_alter_eq, Hx.
  - by rewrite lookup_insert_ne, lookup_alter_ne by done.
Qed.

Lemma fr_in xs : xs <> [] -> fr xs ∈ xs.
Proof. destruct xs; [done|]. intros _. left. Qed.
Lemma bk_in xs : xs <> [] -> bk xs ∈ xs.
Proof.
  intros H. destruct (exists_last H) as (ys & y & ->). unfold bk. rewrite List.last_last. set_solver.
Qed.
Lemma fr_app xs ys : xs <> [] -> fr (xs ++ ys) = fr xs.
Proof. by destruct xs. Qed.
Lemma bk_app xs ys : ys <> [] -> bk (xs ++ ys) = bk ys.
Proof.
  intros H. destruct (exists_last H) as (zs & z & ->). unfold bk. by rewrite app_assoc, !List.last_last.
Qed.

Lemma chain_cons s a b r : chain s (a :: b :: r) <-> lk s a b /\ chain s (b :: r).
Proof. done. Qed.

Lemma chain_app s X Y : X <> [] -> Y <> [] ->
  chain s (X ++ Y) <-> chain s X /\ lk s (bk X) (fr Y) /\ chain s Y.
Proof.
  intros HX HY. destruct Y as [|y Y]; [done|]. clear HY. unfold fr. simpl hd.
  induction X as [|a X IH]; [done|]. destruct X as [|b X].
  - unfold bk. simpl app. rewrite chain_cons. simpl. tauto.
  - simpl app. rewrite !chain_cons. simpl app in IH. rewrite IH by done. unfold bk. simpl. tauto.
Qed.

Lemma chain_frame s s' X :
  NoDup X -> chain s X ->
  (forall a, a ∈ X -> a <> bk X -> nxt s' a = nxt s a) ->
  (forall b, b ∈ X -> b <> fr X -> prv s' b = prv s b) -> chain s' X.
Proof.
  induction X as [|a X IH]; [done|]. intros Hnd Hc Hn Hp. destruct X as [|b X]; [done|].
  rewrite chain_cons in *. destruct Hc as [[Hab Hba] Hc].
  assert (Hab' : a <> b) by (intros ->; apply NoDup_cons in Hnd as [Hnd _]; set_solver).
  assert (Hbk : bk (a :: b :: X) = bk (b :: X)) by done.
  apply NoDup_cons in Hnd as [Hni Hnd]. split.
  - split; [rewrite Hn|rewrite Hp]; [done|set_solver| |done|set_solver|by unfold fr].
    rewrite Hbk. intros ->. apply Hni. apply bk_in. done.
  - apply IH; [done..| |].
    + intros x Hx Hxb. apply Hn; [set_solver|by rewrite Hbk].
    + intros x Hx Hxb. apply Hp; [set_solver|]. unfold fr. simpl. set_solver.
Qed.

(** ** Moving through a list

    A position of the list [A ++ B] is given by its two halves: [cur l B] is
    the first node of [B] (the tail sentinel when [B] is empty) and [pre l A]
    the last node of [A] (the head sentinel when [A] is empty). *)

Definition cur (l : addr) (B : list addr) : addr := fr (B ++ [tail_of l]).
Definition pre (l : addr) (A : list addr) : addr := bk (head_of l :: A).

Lemma nodes_cut l A B : nodes l (A ++ B) = (head_of l :: A) ++ (B ++ [tail_of l]).
Proof. unfold nodes. by rewrite <- app_assoc. Qed.

Lemma snoc_ne {A} (xs : list A) x : xs ++ [x] <> [].
Proof. by destruct xs. Qed.
#[local] Hint Resolve snoc_ne : core.

Lemma cur_cons l x B : cur l (x :: B) = x.
Proof. done. Qed.
Lemma cur_nil l : cur l [] = tail_of l.
Proof. done. Qed.
Lemma pre_snoc l A x : pre l (A ++ [x]) = x.
Proof. unfold pre. change (head_of l :: A ++ [x]) with ((head_of l :: A) ++ [x]). by rewrite bk_app. Qed.
Lemma pre_nil l : pre l [] = head_of l.
Proof. done. Qed.

Lemma cur_in l A B : cur l B ∈ nodes l (A ++ B).
Proof. rewrite nodes_cut, elem_of_app. right. by apply fr_in. Qed.
Lemma pre_in l A B : pre l A ∈ nodes l (A ++ B).
Proof. rewrite nodes_cut, elem_of_app. left. by apply bk_in. Qed.

Lemma dlist_link s l A B : dlist s l (A ++ B) -> lk s (pre l A) (cur l B).
Proof. intros [_ _ Hc _ _]. rewrite nodes_cut in Hc. by apply chain_app in Hc as (_ & H & _). Qed.

Lemma dlist_not_null s l xs a : dlist s l xs -> a ∈ nodes l xs -> a <> NULL.
Proof. intros [_ _ _ _ H] Ha ->. done. Qed.

Lemma dlist_l_ne s l xs : dlist s l xs -> (l =? NULL) = false.
Proof. intros H. apply Z.eqb_neq. apply (dlist_not_null s l xs); [done|]. unfold nodes, head_of. set_solver. Qed.

Lemma chain_live s X a : chain s X -> a ∈ X -> (length X >= 2)%nat -> live s a.
Proof.
  induction X as [|x X IH]; [set_solver|]. destruct X as [|y X]; [simpl; lia|].
  intros [[Hn Hp] Hc] Ha _. apply elem_of_cons in Ha as [->|Ha]; [by eapply nxt_live|].
  destruct X as [|z X].
  - apply list_elem_of_singleton in Ha as ->. by eapply prv_live.
  - apply IH; [done|done|simpl; lia].
Qed.

Lemma dlist_live s l xs a : dlist s l xs -> a ∈ nodes l xs -> live s a.
Proof. intros H Ha. eapply chain_live; [apply H|done|]. unfold nodes. simpl. rewrite length_app. simpl. lia. Qed.

Lemma live_links s a : live s a -> exists n p, nxt s a = Some n /\ prv s a = Some p.
Proof. intros [x Hx]. unfold nxt, prv. rewrite Hx. simpl. eauto. Qed.

Lemma is_interior_ok s e p n :
  e <> NULL -> prv s e = Some p -> p <> NULL -> nxt s e = Some n ->
  is_interior e s = Ret (negb (n =? NULL), s).
Proof.
  intros He Hp Hp0 Hn. unfold is_interior. rewrite (proj2 (Z.eqb_neq _ _) He).
  erewrite kbind_ret by by apply ld_prev_ok. rewrite (proj2 (Z.eqb_neq _ _) Hp0).
  by erewrite kbind_ret by by apply ld_next_ok.
Qed.
Lemma is_tail_ok s e p n :
  e <> NULL -> prv s e = Some p -> p <> NULL -> nxt s e = Some n ->
  is_tail e s = Ret (n =? NULL, s).
Proof.
  intros He Hp Hp0 Hn. unfold is_tail. rewrite (proj2 (Z.eqb_neq _ _) He).
  erewrite kbind_ret by by apply ld_prev_ok. rewrite (proj2 (Z.eqb_neq _ _) Hp0).
  by erewrite kbind_ret by by apply ld_next_ok.
Qed.

Lemma kassertm_true {S} (m : K S bool) s s' : m s = Ret (true, s') -> kassertm m s = Ret (tt, s').
Proof. intros H. unfold kassertm. by erewrite kbind_ret by exact H. Qed.

(** The assertion [is_interior(e) || is_tail(e)]. *)
Lemma interior_or_tail_ok s e p :
  e <> NULL -> prv s e = Some p -> p <> NULL ->
  kassertm (kor (is_interior e) (is_tail e)) s = Ret (tt, s).
Proof.
  intros He Hp Hp0. destruct (live_links s e) as (n & p' & Hn & _); [by eapply prv_live|].
  apply kassertm_true. unfold kor. erewrite kbind_ret by by eapply is_interior_ok.
  destruct (n =? NULL) eqn:E; [|done]. simpl. erewrite is_tail_ok by eauto. by rewrite E.
Qed.

(** The assertion [is_head(e) || is_interior(e)]. *)
Lemma head_or_interior_ok s e n :
  e <> NULL -> nxt s e = Some n -> n <> NULL ->
  kassertm (kor (is_head e) (is_interior e)) s = Ret (tt, s).
Proof.
  intros He Hn Hn0. destruct (live_links s e) as (n' & p & _ & Hp); [by eapply nxt_live|].
  apply kassertm_true. unfold kor, is_head.
  rewrite (proj2 (Z.eqb_neq _ _) He).
  destruct (Z.eqb_spec p NULL) as [->|Hp0].
  - erewrite kbind_ret.
    2:{ erewrite kbind_ret by by apply ld_prev_ok. simpl.
        erewrite kbind_ret by by apply ld_next_ok. by rewrite (proj2 (Z.eqb_neq _ _) Hn0). }
    done.
  - erewrite kbind_ret.
    2:{ erewrite kbind_ret by by apply ld_prev_ok. by rewrite (proj2 (Z.eqb_neq _ _) Hp0). }
    cbn [negb]. cbv iota. erewrite is_interior_ok by eauto. by rewrite (proj2 (Z.eqb_neq _ _) Hn0).
Qed.

Lemma list_next_ok s e n :
  e <> NULL -> nxt s e = Some n -> n <> NULL -> list_next e s = Ret (n, s).
Proof.
  intros. unfold list_next. erewrite kbind_ret by by eapply head_or_interior_ok. by apply ld_next_ok.
Qed.
Lemma list_prev_ok s e p :
  e <> NULL -> prv s e = Some p -> p <> NULL -> list_prev e s = Ret (p, s).
Proof.
  intros. unfold list_prev. erewrite kbind_ret by by eapply interior_or_tail_ok. by apply ld_prev_ok.
Qed.

Lemma next_at s l A B : dlist s l (A ++ B) -> list_next (pre l A) s = Ret (cur l B, s).
Proof.
  intros H. apply list_next_ok; [|apply (dlist_link _ _ _ _ H)|].
  - eapply dlist_not_null; [done|apply pre_in].
  - eapply dlist_not_null; [done|apply cur_in].
Qed.
Lemma prev_at s l A B : dlist s l (A ++ B) -> list_prev (cur l B) s = Ret (pre l A, s).
Proof.
  intros H. apply list_prev_ok; [|apply (dlist_link _ _ _ _ H)|].
  - eapply dlist_not_null; [done|apply cur_in].
  - eapply dlist_not_null; [done|apply pre_in].
Qed.

Lemma next_elem s l A x B : dlist s l (A ++ x :: B) -> list_next x s = Ret (cur l B, s).
Proof. intros H. rewrite <- (pre_snoc l A x). apply next_at. by rewrite <- app_assoc. Qed.

Lemma begin_ok s l xs : dlist s l xs -> list_begin l s = Ret (cur l xs, s).
Proof.
  intros H. unfold list_begin. rewrite (dlist_l_ne _ _ _ H). krun. apply ld_next_ok.
  apply (dlist_link s l [] xs). done.
Qed.
Lemma end_ok s l xs : dlist s l xs -> list_end l s = Ret (tail_of l, s).
Proof. intros H. unfold list_end. by rewrite (dlist_l_ne _ _ _ H). Qed.
Lemma rbegin_ok s l xs : dlist s l xs -> list_rbegin l s = Ret (pre l xs, s).
Proof.
  intros H. unfold list_rbegin. rewrite (dlist_l_ne _ _ _ H). krun. apply ld_prev_ok.
  apply (dlist_link s l xs []). by rewrite app_nil_r.
Qed.

Lemma tail_not_in s l xs : dlist s l xs -> tail_of l ∉ xs.
Proof.
  intros [_ _ _ H _]. unfold nodes in H. apply NoDup_cons in H as [_ H].
  apply NoDup_app in H as (_ & H & _). intros Hin. apply (H _ Hin). set_solver.
Qed.

Lemma cur_tail s l A B : dlist s l (A ++ B) -> (cur l B =? tail_of l) = bool_decide (B = []).
Proof.
  intros H. destruct B as [|b B]; [apply Z.eqb_refl|]. rewrite cur_cons. apply Z.eqb_neq.
  intros ->. apply (tail_not_in _ _ _ H). set_solver.
Qed.

Lemma list_empty_ok s l xs : dlist s l xs -> list_empty l s = Ret (bool_decide (xs = []), s).
Proof.
  intros H. unfold list_empty. erewrite kbind_ret by by eapply begin_ok.
  erewrite kbind_ret by by eapply end_ok. unfold kret. by rewrite (cur_tail s l [] xs).
Qed.

(** ** Insertion, removal, splicing *)

#[local] Hint Resolve nxt_live prv_live : core.

(** Decides which of the last writes a link comes from. *)
Ltac links :=
  repeat first
    [ rewrite nxt_put_prev | rewrite prv_put_next
    | rewrite nxt_put_next by (rewrite ?live_put; eauto)
    | rewrite prv_put_prev by (rewrite ?live_put; eauto) ];
  repeat case_decide; subst; try congruence; eauto.

(** Runs the next load or store. *)
Ltac kstep :=
  first [ erewrite kbind_ret by (apply ld_next_ok; links)
        | erewrite kbind_ret by (apply ld_prev_ok; links)
        | erewrite kbind_ret by (apply st_ok; rewrite ?live_put; eauto)
        | rewrite st_ok by (rewrite ?live_put; eauto) ].

Definition inserted (e p b : addr) (s : store) : store :=
  put Prev b e (put Next p e (put Next e b (put Prev e p s))).

Lemma list_insert_run s b e p :
  prv s b = Some p -> live s p -> live s e -> b <> NULL -> p <> NULL -> e <> NULL -> e <> b ->
  list_insert b e s = Ret (tt, inserted e p b s).
Proof.
  intros Hp Lp Le Hb Hp0 He Hne. assert (Lb : live s b) by by eapply prv_live.
  unfold list_insert. erewrite kbind_ret by by eapply interior_or_tail_ok.
  apply Z.eqb_neq in He. rewrite He. krun. by repeat kstep.
Qed.

(** Disjointness facts of a concatenation without duplicates. *)
Lemma nodup_disj (X Y : list addr) a : NoDup (X ++ Y) -> a ∈ X -> a ∈ Y -> False.
Proof. intros H. apply NoDup_app in H as (_ & H & _). intros H1 H2. by apply (H a). Qed.

Lemma NoDup_mid (X Y : list addr) e : NoDup (X ++ e :: Y) <-> NoDup (X ++ Y) /\ e ∉ X ++ Y.
Proof. rewrite <- Permutation_middle, NoDup_cons. tauto. Qed.

Lemma chain_insert s X Y e :
  NoDup (X ++ Y) -> X <> [] -> Y <> [] -> e ∉ X ++ Y -> chain s (X ++ Y) ->
  live s e -> live s (bk X) -> live s (fr Y) ->
  chain (inserted e (bk X) (fr Y) s) (X ++ e :: Y).
Proof.
  intros Hnd HX HY He Hc Le Lp Lb. pose proof (bk_in X HX) as Hbk. pose proof (fr_in Y HY) as Hfr.
  assert (Hd : forall a, a ∈ X -> a ∈ Y -> False) by (intros a; by apply nodup_disj).
  apply NoDup_app in Hnd as (HndX & _ & HndY). rewrite elem_of_app in He.
  apply chain_app in Hc as (HcX & _ & HcY); [|done..].
  apply chain_app; [done|done|]. split; [|split].
  - apply (chain_frame s); [done..| |]; intros a Ha Hne; unfold inserted; links; exfalso; eauto.
  - unfold fr at 2. simpl. split; unfold inserted; links; exfalso; eauto.
  - destruct Y as [|y Y]; [done|]. apply chain_cons. split.
    + unfold fr in *. simpl in *. split; unfold inserted; links; exfalso; eauto.
    + apply (chain_frame s); [done..| |]; intros a Ha Hne; unfold inserted; links; exfalso; eauto.
Qed.

(** [list_insert] puts [e] before the position, whether an element or the tail. *)
Lemma list_insert_ok s l A B e :
  dlist s l (A ++ B) -> live s e -> e <> NULL -> e ∉ nodes l (A ++ B) ->
  exists s', list_insert (cur l B) e s = Ret (tt, s') /\ dlist s' l (A ++ e :: B) /\
    unchanged_but [e; pre l A; cur l B] s s'.
Proof.
  intros H Le He Hni. assert (H' := H). destruct H' as [Dp Dn Dc Dnd D0].
  destruct (dlist_link _ _ _ _ H) as [Hpn Hnp].
  assert (Ncur : e <> cur l B) by (intros ->; apply Hni, cur_in).
  assert (Npre : e <> pre l A) by (intros ->; apply Hni, pre_in).
  assert (Lc : live s (cur l B)) by by eapply prv_live.
  assert (Lp : live s (pre l A)) by by eapply nxt_live.
  exists (inserted e (pre l A) (cur l B) s). split; [|split].
  - apply list_insert_run; try done; (eapply dlist_not_null; [done|]); [apply cur_in|apply pre_in].
  - assert (Hh : head_of l <> cur l B).
    { intros E. rewrite nodes_cut in Dnd. apply (nodup_disj _ _ (head_of l) Dnd).
      - left.
      - rewrite E. by apply fr_in. }
    assert (Ht : tail_of l <> pre l A).
    { intros E. rewrite nodes_cut in Dnd. apply (nodup_disj _ _ (tail_of l) Dnd).
      - rewrite E. by apply bk_in.
      - set_solver. }
    assert (Hhe : head_of l <> e) by (intros <-; apply Hni; left).
    assert (Hte : tail_of l <> e) by (intros <-; apply Hni; unfold nodes; set_solver).
    rewrite nodes_cut in *. split.
    + unfold inserted. links.
    + unfold inserted. links.
    + rewrite nodes_cut. apply chain_insert; try done.
    + rewrite nodes_cut. change (NoDup ((head_of l :: A) ++ e :: (B ++ [tail_of l]))).
      by apply NoDup_mid.
    + rewrite nodes_cut. set_solver.
  - unfold inserted. repeat (apply unchanged_put; [set_solver|]). apply unchanged_refl.
Qed.

Lemma push_front_ok s l xs e :
  dlist s l xs -> live s e -> e <> NULL -> e ∉ nodes l xs ->
  exists s', list_push_front l e s = Ret (tt, s') /\ dlist s' l (e :: xs) /\
    unchanged_but (e :: nodes l xs) s s'.
Proof.
  intros H Le He Hni. unfold list_push_front. erewrite kbind_ret by by eapply begin_ok.
  destruct (list_insert_ok s l [] xs e) as (s' & Hr & Hd & Hu); [done..|].
  exists s'. split; [done|]. split; [done|]. eapply unchanged_mono; [|done].
  pose proof (pre_in l [] xs). pose proof (cur_in l [] xs). set_solver.
Qed.
Lemma push_back_ok s l xs e :
  dlist s l xs -> live s e -> e <> NULL -> e ∉ nodes l xs ->
  exists s', list_push_back l e s = Ret (tt, s') /\ dlist s' l (xs ++ [e]) /\
    unchanged_but (e :: nodes l xs) s s'.
Proof.
  intros H Le He Hni. unfold list_push_back. erewrite kbind_ret by by eapply end_ok.
  pose proof (pre_in l xs []) as Hp. pose proof (cur_in l xs []) as Hc. rewrite app_nil_r in Hp, Hc.
  destruct (list_insert_ok s l xs [] e) as (s' & Hr & Hd & Hu); [rewrite ?app_nil_r; done..|].
  exists s'. split; [done|]. split; [done|]. eapply unchanged_mono; [|done]. set_solver.
Qed.

Definition removed (p n : addr) (s : store) : store := put Prev n p (put Next p n s).

Lemma list_remove_run s e p n :
  prv s e = Some p -> nxt s e = Some n -> e <> NULL -> p <> NULL -> n <> NULL ->
  live s p -> live s n -> p <> e -> n <> e -> list_remove e s = Ret (n, removed p n s).
Proof.
  intros Hp Hn He Hp0 Hn0 Lp Ln Hpe Hne. unfold list_remove.
  erewrite kbind_ret.
  2:{ apply kassertm_true. erewrite is_interior_ok by done. by apply Z.eqb_neq in Hn0 as ->. }
  repeat kstep. unfold removed. apply ld_next_ok. links.
Qed.

Lemma chain_removed s X Y :
  NoDup (X ++ Y) -> X <> [] -> Y <> [] -> chain s X -> chain s Y ->
  live s (bk X) -> live s (fr Y) -> chain (removed (bk X) (fr Y) s) (X ++ Y).
Proof.
  intros Hnd HX HY HcX HcY Lp Lb. pose proof (bk_in X HX) as Hbk. pose proof (fr_in Y HY) as Hfr.
  assert (Hd : forall a, a ∈ X -> a ∈ Y -> False) by (intros a; by apply nodup_disj).
  apply NoDup_app in Hnd as (HndX & _ & HndY). unfold removed.
  apply chain_app; [done|done|]. split; [|split].
  - apply (chain_frame s); [done..| |]; intros a Ha Hne; links; exfalso; eauto.
  - split; links; exfalso; eauto.
  - apply (chain_frame s); [done..| |]; intros a Ha Hne; links; exfalso; eauto.
Qed.

Lemma list_remove_ok s l A e B :
  dlist s l (A ++ e :: B) ->
  exists s', list_remove e s = Ret (cur l B, s') /\ dlist s' l (A ++ B) /\
    unchanged_but [pre l A; cur l B] s s' /\ live s' e /\ e <> NULL /\ e ∉ nodes l (A ++ B).
Proof.
  intros H. assert (H' := H). destruct H' as [Dp Dn Dc Dnd D0].
  destruct (dlist_link s l A (e :: B) H) as [Hpn Hnp].
  destruct (dlist_link s l (A ++ [e]) B) as [Hn Hn']; [by rewrite <- app_assoc|].
  rewrite pre_snoc in *. rewrite cur_cons in *.
  rewrite nodes_cut in *. rewrite <- app_comm_cons in *.
  assert (Hnd : NoDup ((head_of l :: A) ++ B ++ [tail_of l]) /\ e ∉ (head_of l :: A) ++ B ++ [tail_of l]).
  { apply (NoDup_mid (head_of l :: A)) in Dnd. tauto. }
  destruct Hnd as [Hnd Hni].
  pose proof (pre_in l A B) as Ip. pose proof (cur_in l A B) as Ic. rewrite nodes_cut in *.
  assert (Np : pre l A <> e) by (intros <-; done).
  assert (Nc : cur l B <> e) by (intros <-; done).
  assert (D0' : NULL ∉ (head_of l :: A) ++ B ++ [tail_of l]) by (clear -D0; set_solver).
  assert (He : e <> NULL) by (intros ->; clear -D0; set_solver).
  assert (Lp : live s (pre l A)) by by eapply nxt_live.
  assert (Lc : live s (cur l B)) by by eapply prv_live.
  assert (Hh : head_of l <> cur l B).
  { intros E. apply (nodup_disj _ _ (head_of l) Hnd); [left|rewrite E; by apply fr_in]. }
  assert (Ht : tail_of l <> pre l A).
  { intros E. apply (nodup_disj _ _ (tail_of l) Hnd); [rewrite E; by apply bk_in|set_solver]. }
  exists (removed (pre l A) (cur l B) s). split; [|split; [|split; [|split]]].
  - apply list_remove_run; try done; intros E; rewrite E in *; done.
  - split.
    + unfold removed. links.
    + unfold removed. links.
    + rewrite nodes_cut. apply (chain_app s (head_of l :: A)) in Dc as (Dc1 & _ & Dc2); [|done..].
      apply (chain_app s [e] (B ++ [tail_of l])) in Dc2 as (_ & _ & Dc2); [|done..].
      by apply chain_removed.
    + by rewrite nodes_cut.
    + by rewrite nodes_cut.
  - unfold removed. repeat (apply unchanged_put; [clear; set_solver|]). apply unchanged_refl.
  - unfold removed. rewrite !live_put. by eapply nxt_live.
  - done.
Qed.

Lemma list_front_ok s l x xs : dlist s l (x :: xs) -> list_front l s = Ret (x, s).
Proof.
  intros H. unfold list_front. erewrite kbind_ret by by eapply list_empty_ok. krun.
  apply ld_next_ok. by apply (dlist_link s l [] (x :: xs)).
Qed.
Lemma list_back_ok s l x xs : dlist s l (xs ++ [x]) -> list_back l s = Ret (x, s).
Proof.
  intros H. unfold list_back. erewrite kbind_ret by by eapply list_empty_ok.
  rewrite bool_decide_false by done. krun.
  apply ld_prev_ok. rewrite <- (pre_snoc l xs x).
  apply (dlist_link s l (xs ++ [x]) []). by rewrite app_nil_r.
Qed.
Lemma list_front_empty s l : dlist s l [] -> list_front l s = Panic "assertion fail".
Proof. intros H. unfold list_front. by erewrite kbind_ret by by eapply list_empty_ok. Qed.

Lemma pop_front_ok s l x xs :
  dlist s l (x :: xs) ->
  exists s', list_pop_front l s = Ret (x, s') /\ dlist s' l xs /\
    unchanged_but [head_of l; cur l xs] s s' /\ live s' x /\ x <> NULL /\ x ∉ nodes l xs.
Proof.
  intros H. destruct (list_remove_ok s l [] x xs H) as (s' & Hr & Hd & Hu & Hx).
  exists s'. split; [|done]. unfold list_pop_front.
  erewrite kbind_ret by by eapply list_front_ok. by erewrite kbind_ret by exact Hr.
Qed.
Lemma pop_back_ok s l x xs :
  dlist s l (xs ++ [x]) ->
  exists s', list_pop_back l s = Ret (x, s') /\ dlist s' l xs /\
    unchanged_but [pre l xs; tail_of l] s s' /\ live s' x /\ x <> NULL /\ x ∉ nodes l xs.
Proof.
  intros H. destruct (list_remove_ok s l xs x [] H) as (s' & Hr & Hd & Hu & Hx).
  rewrite app_nil_r in *. exists s'. split; [|done]. unfold list_pop_back.
  erewrite kbind_ret by by eapply list_back_ok. by erewrite kbind_ret by exact Hr.
Qed.

(** *** Splicing *)

Ltac inapp := rewrite ?elem_of_app in *; tauto.

Definition spliced (fp f lst q bp b : addr) (s : store) : store :=
  put Prev b lst (put Next bp f (put Next lst b (put Prev f bp (put Prev q fp (put Next fp q s))))).

Lemma list_splice_run s b f q fp lst bp :
  lk s fp f -> lk s lst q -> lk s bp b ->
  prv s f = Some fp -> f <> q -> b <> f -> b <> q -> bp <> lst -> bp <> fp ->
  live s lst -> prv s lst <> Some NULL ->
  f <> NULL -> fp <> NULL -> q <> NULL -> lst <> NULL -> b <> NULL -> bp <> NULL ->
  nxt s f <> Some NULL ->
  list_splice b f q s = Ret (tt, spliced fp f lst q bp b s).
Proof.
  intros [H1 H2] [H3 H4] [H5 H6] _ Hfq Hbf Hbq Hbl Hbfp Ll Hlp F1 F2 F3 F4 F5 F6 Hnf.
  assert (Lfp : live s fp) by by eapply nxt_live. assert (Lf : live s f) by by eapply prv_live.
  assert (Lq : live s q) by by eapply prv_live. assert (Lbp : live s bp) by by eapply nxt_live.
  assert (Lb : live s b) by by eapply prv_live.
  destruct (live_links s lst Ll) as (? & lp & _ & Hlp'). destruct (live_links s f Lf) as (fn & ? & Hfn & _).
  unfold list_splice. erewrite kbind_ret by by eapply interior_or_tail_ok.
  rewrite (proj2 (Z.eqb_neq _ _) Hfq). erewrite kbind_ret by by apply list_prev_ok.
  erewrite kbind_ret.
  2:{ apply kassertm_true. erewrite is_interior_ok by done. rewrite (proj2 (Z.eqb_neq fn NULL)) by congruence. done. }
  erewrite kbind_ret.
  2:{ apply kassertm_true. rewrite (is_interior_ok s lst lp q) by (try done; congruence). rewrite (proj2 (Z.eqb_neq q NULL)) by done. done. }
  by repeat kstep.
Qed.

Lemma nodup4 (X Y F Z : list addr) :
  NoDup (X ++ Y ++ F ++ Z) -> (NoDup X /\ NoDup Y /\ NoDup F /\ NoDup Z) /\
  (forall a, a ∈ X -> a ∈ Y -> False) /\ (forall a, a ∈ X -> a ∈ F -> False) /\
  (forall a, a ∈ X -> a ∈ Z -> False) /\ (forall a, a ∈ Y -> a ∈ F -> False) /\
  (forall a, a ∈ Y -> a ∈ Z -> False) /\ (forall a, a ∈ F -> a ∈ Z -> False).
Proof.
  intros H. apply NoDup_app in H as (nX & dX & H). apply NoDup_app in H as (nY & dY & H).
  apply NoDup_app in H as (nF & dF & nZ). split; [done|].
  split_and!; intros a H1 H2; [apply (dX a)|apply (dX a)|apply (dX a)|apply (dY a)|apply (dY a)|apply (dF a)];
    rewrite ?elem_of_app; auto.
Qed.

Lemma disj_ne (X Y : list addr) a b : (forall c, c ∈ X -> c ∈ Y -> False) -> a ∈ X -> b ∈ Y -> a <> b.
Proof. intros Hd Ha Hb ->. eauto. Qed.

Lemma chain_prv_in s X a : chain s X -> a ∈ X -> a <> fr X -> exists p, p ∈ X /\ prv s a = Some p.
Proof.
  induction X as [|x X IH]; [set_solver|]. intros Hc Ha Hne. destruct X as [|y X]; [set_solver|].
  apply chain_cons in Hc as [[_ Hp] Hc]. apply elem_of_cons in Ha as [->|Ha]; [done|].
  destruct (decide (a = y)) as [->|Hy]; [exists x; split; [left|done]|].
  destruct (IH Hc Ha Hy) as (p & Hp1 & Hp2). exists p. split; [by right|done].
Qed.
Lemma chain_nxt_in s X a : chain s X -> a ∈ X -> a <> bk X -> exists n, n ∈ X /\ nxt s a = Some n.
Proof.
  induction X as [|x X IH]; [set_solver|]. intros Hc Ha Hne. destruct X as [|y X]; [set_solver|].
  apply chain_cons in Hc as [[Hn _] Hc]. apply elem_of_cons in Ha as [->|Ha].
  - exists y. split; [right; left|done].
  - destruct (IH Hc Ha Hne) as (p & Hp1 & Hp2). exists p. split; [by right|done].
Qed.

Lemma lookup_links s s' a : s' !! a = s !! a -> nxt s' a = nxt s a /\ prv s' a = prv s a.
Proof. unfold nxt, prv. by intros ->. Qed.

(** A list none of whose nodes is written keeps its contents. *)
Lemma dlist_same s s' l xs : dlist s l xs -> (forall a, a ∈ nodes l xs -> s' !! a = s !! a) -> dlist s' l xs.
Proof.
  intros [Dp Dn Dc Dnd D0] HU.
  assert (He : forall a, a ∈ nodes l xs -> nxt s' a = nxt s a /\ prv s' a = prv s a) by (intros a Ha; by apply lookup_links, HU).
  split; try done.
  - rewrite <- Dp. apply He. left.
  - rewrite <- Dn. apply He. unfold nodes. clear. set_solver.
  - apply (chain_frame s); [done..| |]; intros a Ha _; by apply He.
Qed.
Lemma dlist_frame s s' l xs X :
  dlist s l xs -> unchanged_but X s s' -> nodes l xs ## X -> dlist s' l xs.
Proof. intros HL [_ HU] Hdj. eapply dlist_same; [exact HL|]. intros a Ha. apply HU. intros Hx. by apply (Hdj a). Qed.

(** A segment moved towards the front of its own chain. *)
Lemma chain_splice s X Y F Z :
  NoDup (X ++ Y ++ F ++ Z) -> X <> [] -> Y <> [] -> F <> [] -> Z <> [] ->
  chain s (X ++ Y ++ F ++ Z) ->
  chain (spliced (bk Y) (fr F) (bk F) (fr Z) (bk X) (fr Y) s) (X ++ F ++ Y ++ Z).
Proof.
  intros Hnd HX HY HF HZ Hc.
  apply chain_app in Hc as (cX & [X1 X2] & Hc); [|done|by destruct Y].
  apply chain_app in Hc as (cY & [Y1 Y2] & Hc); [|done|by destruct F].
  apply chain_app in Hc as (cF & [F1 F2] & cZ); [|done..].
  rewrite fr_app in X1, X2, Y1, Y2 by done.
  pose proof (bk_in X HX). pose proof (bk_in Y HY). pose proof (bk_in F HF).
  pose proof (fr_in Y HY). pose proof (fr_in F HF). pose proof (fr_in Z HZ).
  assert (LX : live s (bk X)) by by eapply nxt_live. assert (LY : live s (bk Y)) by by eapply nxt_live.
  assert (LF : live s (bk F)) by by eapply nxt_live. assert (LY' : live s (fr Y)) by by eapply prv_live.
  assert (LF' : live s (fr F)) by by eapply prv_live. assert (LZ : live s (fr Z)) by by eapply prv_live.
  destruct (nodup4 _ _ _ _ Hnd) as ((nX & nY & nF & nZ) & dXY & dXF & dXZ & dYF & dYZ & dFZ).
  assert (fr F <> fr Y /\ fr Z <> fr Y /\ fr Z <> fr F) as (? & ? & ?).
  { split_and!; intros E; first [rewrite E in *; eauto; fail | rewrite <- E in *; eauto]. }
  assert (bk X <> bk Y /\ bk X <> bk F /\ bk Y <> bk F) as (? & ? & ?).
  { split_and!; intros E; first [rewrite E in *; eauto; fail | rewrite <- E in *; eauto]. }
  unfold spliced.
  apply chain_app; [done|by destruct F|]. rewrite fr_app by done. split; [|split; [|apply chain_app; [done|by destruct Y|]]].
  - apply (chain_frame s); [done..| |]; intros a Ha Hne; links; exfalso; eauto.
  - split; links; exfalso; eauto.
  - rewrite fr_app by done. split; [|split; [|apply chain_app; [done..|]]].
    + apply (chain_frame s); [done..| |]; intros a Ha Hne; links; exfalso; eauto.
    + split; links; exfalso; eauto.
    + split; [|split].
      * apply (chain_frame s); [done..| |]; intros a Ha Hne; links; exfalso; eauto.
      * split; links; exfalso; eauto.
      * apply (chain_frame s); [done..| |]; intros a Ha Hne; links; exfalso; eauto.
Qed.

Lemma fr_snoc_in l C : fr (C ++ [tail_of l]) ∈ C ++ [tail_of l].
Proof. by apply fr_in. Qed.

(** [list_splice] moves the segment [F] of a list in front of the element
    that begins [B]. *)
(** The three links at the ends of the two runs. *)
Lemma splice_links s l A B F C : dlist s l (A ++ B ++ F ++ C) -> B <> [] -> F <> [] ->
  lk s (pre l A) (fr B) /\ lk s (bk B) (fr F) /\ lk s (bk F) (cur l C).
Proof.
  intros H HB HF. split; [|split].
  - pose proof (dlist_link s l A _ H) as L. unfold cur in L. rewrite <- app_assoc, fr_app in L; done.
  - rewrite app_assoc in H. pose proof (dlist_link s l (A ++ B) _ H) as L. unfold cur, pre in L.
    rewrite <- app_assoc, app_comm_cons, bk_app, fr_app in L; done.
  - rewrite 2!app_assoc in H. pose proof (dlist_link s l ((A ++ B) ++ F) _ H) as L. unfold pre in L.
    rewrite app_comm_cons, bk_app in L; done.
Qed.

Lemma list_splice_ok s l A B F C :
  dlist s l (A ++ B ++ F ++ C) -> B <> [] -> F <> [] ->
  exists s', list_splice (fr B) (fr F) (cur l C) s = Ret (tt, s') /\
    dlist s' l (A ++ F ++ B ++ C) /\ unchanged_but (nodes l (A ++ B ++ F ++ C)) s s'.
Proof.
  intros H HB HF.
  assert (E1 : nodes l (A ++ B ++ F ++ C) = (head_of l :: A) ++ B ++ F ++ (C ++ [tail_of l])).
  { unfold nodes. simpl. by rewrite <- !app_assoc. }
  assert (E2 : nodes l (A ++ F ++ B ++ C) = (head_of l :: A) ++ F ++ B ++ (C ++ [tail_of l])).
  { unfold nodes. simpl. by rewrite <- !app_assoc. }
  destruct (splice_links s l A B F C H HB HF) as (LK1 & LK2 & LK3).
  assert (Hc := chain_splice s (head_of l :: A) B F (C ++ [tail_of l])). rewrite <- E1, <- E2 in Hc.
  destruct H as [Dp Dn Dc Dnd D0]. specialize (Hc Dnd ltac:(done) HB HF ltac:(done) Dc).
  pose proof (bk_in B HB). pose proof (bk_in F HF). pose proof (fr_in B HB). pose proof (fr_in F HF).
  pose proof (fr_snoc_in l C). assert (pre l A ∈ head_of l :: A) by by apply bk_in.
  fold (pre l A) (cur l C) in *.
  rewrite E1 in *. rewrite E2 in *. set (s' := spliced _ _ _ _ _ _ _) in *.
  assert (HP : (head_of l :: A) ++ F ++ B ++ C ++ [tail_of l] ≡ₚ (head_of l :: A) ++ B ++ F ++ C ++ [tail_of l])
    by solve_Permutation.
  destruct (nodup4 _ _ _ _ Dnd) as (_ & dXY & dXF & dXZ & dYF & dYZ & dFZ).
  assert (Nn : forall a, a ∈ (head_of l :: A) ++ B ++ F ++ C ++ [tail_of l] -> a <> NULL) by (intros a Ha ->; done).
  assert (Hh : head_of l ∈ head_of l :: A) by left.
  assert (Ht : tail_of l ∈ C ++ [tail_of l]) by (clear; set_solver).
  exists s'. split; [|split; [split|]].
  - apply list_splice_run; try done.
    + apply LK2.
    + by eapply (disj_ne F).
    + by eapply (disj_ne B F).
    + by eapply (disj_ne B).
    + by eapply (disj_ne (_ :: A) F).
    + by eapply (disj_ne (_ :: A) B).
    + eapply nxt_live, LK3.
    + destruct (chain_prv_in s _ (bk F) Dc) as (p & Hp & ->).
      * inapp.
      * by eapply not_eq_sym, (disj_ne (_ :: A) F).
      * intros [= ->]. exact (Nn _ Hp eq_refl).
    + apply Nn; inapp.
    + apply Nn; inapp.
    + apply Nn; inapp.
    + apply Nn; inapp.
    + apply Nn; inapp.
    + apply Nn; inapp.
    + destruct (chain_nxt_in s _ (fr F) Dc) as (p & Hp & ->).
      * inapp.
      * rewrite !app_assoc, bk_app by done. by eapply (disj_ne F); [done..|exact Ht].
      * intros [= ->]. exact (Nn _ Hp eq_refl).
  - pose proof (disj_ne _ _ _ _ dXY Hh H1). pose proof (disj_ne _ _ _ _ dXF Hh H2).
    pose proof (disj_ne _ _ _ _ dXZ Hh H3). rewrite <- Dp. subst s'. unfold spliced.
    destruct LK1, LK2, LK3. links.
  - pose proof (disj_ne _ _ _ _ dXZ H4 Ht). pose proof (disj_ne _ _ _ _ dYZ H Ht).
    pose proof (disj_ne _ _ _ _ dFZ H0 Ht). rewrite <- Dn. subst s'. unfold spliced.
    destruct LK1, LK2, LK3. links.
  - by rewrite E2.
  - by rewrite E2, HP.
  - by rewrite E2, HP.
  - subst s'. unfold spliced. repeat (apply unchanged_put; [inapp|]). apply unchanged_refl.
Qed.

(** ** Traversals *)

Lemma nodes_perm_subset l X Y : X ≡ₚ Y -> nodes l X ⊆ nodes l Y.
Proof. intros HP a. unfold nodes. by rewrite HP. Qed.

Lemma cur_ne s l A x B C : dlist s l (A ++ x :: B ++ C) -> (x =? cur l C) = false.
Proof.
  intros [_ _ _ Hnd _]. rewrite nodes_cut in Hnd.
  change ((x :: B ++ C) ++ [tail_of l]) with ([x] ++ ((B ++ C) ++ [tail_of l])) in Hnd.
  rewrite <- app_assoc in Hnd.
  destruct (nodup4 _ _ _ _ Hnd) as (_ & _ & _ & _ & _ & Hd & _).
  apply Z.eqb_neq. apply (disj_ne [x] _ _ _ Hd); [left|]. by apply fr_in.
Qed.

Lemma size_loop_ok s l A B fuel c :
  dlist s l (A ++ B) -> (length B < fuel)%nat -> u64 c = c ->
  size_loop fuel l (cur l B) c s = Ret (u64 (c + Z.of_nat (length B)), s).
Proof.
  revert A fuel c. induction B as [|x B IH]; intros A [|fuel] c H Hf Hc; simpl in Hf; try lia; simpl size_loop.
  - erewrite kbind_ret by by eapply end_ok. rewrite (cur_tail s l A []) by done. by rewrite Z.add_0_r, Hc.
  - erewrite kbind_ret by by eapply end_ok. rewrite (cur_tail s l A (x :: B)) by done. simpl.
    erewrite kbind_ret by by eapply (next_elem _ _ A x B).
    rewrite (IH (A ++ [x])); [|by rewrite <- app_assoc|lia|apply u64_idem].
    do 2 f_equal. unfold u64, wrap. rewrite Zplus_mod_idemp_l. f_equal. lia.
Qed.

Lemma list_size_ok s l xs fuel :
  dlist s l xs -> (length xs < fuel)%nat ->
  list_size fuel l s = Ret (u64 (Z.of_nat (length xs)), s).
Proof.
  intros H Hf. unfold list_size. erewrite kbind_ret by by eapply begin_ok.
  by rewrite (size_loop_ok s l [] xs).
Qed.

Lemma find_loop_ok test s l A B fuel :
  dlist s l (A ++ B) -> (length B < fuel)%nat ->
  find_loop test fuel l (cur l B) s = Ret (default NULL (List.find test B), s).
Proof.
  revert A fuel. induction B as [|x B IH]; intros A [|fuel] H Hf; simpl in Hf; try lia; simpl find_loop;
    (erewrite kbind_ret by by eapply end_ok).
  - by rewrite (cur_tail s l A []).
  - rewrite (cur_tail s l A (x :: B)) by done. simpl. rewrite cur_cons. destruct (test x); [done|].
    erewrite kbind_ret by by eapply (next_elem _ _ A x B).
    apply (IH (A ++ [x])); [by rewrite <- app_assoc|lia].
Qed.

Lemma list_find_ok test s l xs fuel :
  dlist s l xs -> (length xs < fuel)%nat ->
  list_find test fuel l s = Ret (default NULL (List.find test xs), s).
Proof.
  intros H Hf. unfold list_find. erewrite kbind_ret by by eapply begin_ok.
  by apply (find_loop_ok test s l []).
Qed.

Section Order_facts.
Context (less : addr -> addr -> bool).

(** [a] may stand before [b]. *)
Definition ordered (a b : addr) : Prop := less b a = false.
#[global] Instance ordered_dec a b : Decision (ordered a b) := decide (less b a = false).

Fixpoint ordered_insert (x : addr) (xs : list addr) : list addr :=
  match xs with
  | [] => [x]
  | e :: r => if less x e then x :: xs else e :: ordered_insert x r
  end.

Lemma ordered_insert_perm x xs : ordered_insert x xs ≡ₚ x :: xs.
Proof. induction xs as [|e r IH]; simpl; [done|]. destruct (less x e); [done|]. rewrite IH. by constructor. Qed.

Lemma ordered_loop_ok s l A B x fuel :
  dlist s l (A ++ B) -> (length B < fuel)%nat ->
  exists A' B', ordered_loop less fuel l (cur l B) x s = Ret (cur l B', s) /\
    B = A' ++ B' /\ ordered_insert x B = A' ++ x :: B'.
Proof.
  revert A fuel. induction B as [|y B IH]; intros A [|fuel] H Hf; simpl in Hf; try lia; simpl ordered_loop;
    (erewrite kbind_ret by by eapply end_ok).
  - rewrite (cur_tail s l A []) by done. by exists [], [].
  - rewrite (cur_tail s l A (y :: B)) by done. simpl. rewrite cur_cons.
    destruct (less x y) eqn:E; [by exists [], (y :: B)|].
    erewrite kbind_ret by by eapply (next_elem _ _ A y B).
    destruct (IH (A ++ [y]) fuel) as (A' & B' & Hr & -> & E'); [by rewrite <- app_assoc|lia|].
    exists (y :: A'), B'. by rewrite E'.
Qed.

Lemma insert_ordered_ok s l xs x fuel :
  dlist s l xs -> live s x -> x <> NULL -> x ∉ nodes l xs -> (length xs < fuel)%nat ->
  exists s', list_insert_ordered less fuel l x s = Ret (tt, s') /\ dlist s' l (ordered_insert x xs) /\
    unchanged_but (x :: nodes l xs) s s'.
Proof.
  intros H Lx Hx Hni Hf. unfold list_insert_ordered. rewrite (dlist_l_ne _ _ _ H). krun.
  rewrite (proj2 (Z.eqb_neq x NULL) Hx). krun. erewrite kbind_ret by by eapply begin_ok.
  destruct (ordered_loop_ok s l [] xs x fuel H Hf) as (A & B & Hr & -> & ->).
  erewrite kbind_ret by exact Hr.
  destruct (list_insert_ok s l A B x H Lx Hx Hni) as (s' & Hi & Hd & Hu).
  exists s'. split; [done|]. split; [done|]. eapply unchanged_mono; [|done].
  pose proof (pre_in l A B). pose proof (cur_in l A B). clear -H0 H1. set_solver.
Qed.

Lemma is_sorted_loop_ok s l A x B C fuel :
  dlist s l (A ++ x :: B ++ C) -> (length B < fuel)%nat ->
  is_sorted_loop less fuel x (cur l C) s = Ret (bool_decide (Sorted ordered (x :: B)), s).
Proof.
  revert A x fuel. induction B as [|y B IH]; intros A x [|fuel] H Hf; simpl in Hf; try lia; simpl is_sorted_loop;
    (erewrite kbind_ret by by eapply (next_elem _ _ A x)).
  - simpl app. rewrite Z.eqb_refl. rewrite bool_decide_true; [done|]. by repeat constructor.
  - assert (H' : dlist s l ((A ++ [x]) ++ y :: B ++ C)) by by rewrite <- app_assoc.
    change ((y :: B) ++ C) with (y :: B ++ C) in *. rewrite cur_cons, (cur_ne s l (A ++ [x]) y B C) by done.
    erewrite kbind_ret; [|rewrite <- (cur_cons l y (B ++ C)); by eapply (prev_at s l (A ++ [x]))].
    rewrite pre_snoc. destruct (less y x) eqn:E.
    + rewrite bool_decide_false; [done|]. intros HS. apply Sorted_inv in HS as [_ HS].
      inversion HS. unfold ordered in *. congruence.
    + rewrite (IH (A ++ [x])) by (done || lia). do 2 f_equal. apply bool_decide_ext.
      split; [intros HS; constructor; [done|by constructor]|by inversion 1].
Qed.

Lemma is_sorted_ok s l A B C fuel :
  dlist s l (A ++ B ++ C) -> (length B < fuel)%nat ->
  is_sorted less fuel (cur l (B ++ C)) (cur l C) s = Ret (bool_decide (Sorted ordered B), s).
Proof.
  intros H Hf. unfold is_sorted. destruct B as [|x B].
  - simpl app. rewrite Z.eqb_refl. rewrite bool_decide_true; [done|constructor].
  - change ((x :: B) ++ C) with (x :: B ++ C) in *. rewrite cur_cons, (cur_ne s l A x B C) by done.
    apply (is_sorted_loop_ok s l A); [done|simpl in Hf; lia].
Qed.

(** *** Merge sort *)

(** The longest nondecreasing run that continues [x], and the rest. *)
Fixpoint run (x : addr) (xs : list addr) : list addr * list addr :=
  match xs with
  | [] => ([], [])
  | y :: r => if less y x then ([], xs) else let (p, q) := run y r in (y :: p, q)
  end.

(** The number of maximal nondecreasing runs. *)
Fixpoint runs (xs : list addr) : nat :=
  match xs with
  | [] => 0
  | x :: r => match r with [] => 1 | y :: _ => (if less y x then 1 else 0) + runs r end
  end.

Lemma run_app x xs : xs = fst (run x xs) ++ snd (run x xs).
Proof.
  revert x. induction xs as [|y r IH]; intros x; simpl; [done|]. destruct (less y x); [done|].
  specialize (IH y). destruct (run y r). simpl in *. congruence.
Qed.

Lemma run_sorted x xs : Sorted ordered (x :: fst (run x xs)).
Proof.
  revert x. induction xs as [|y r IH]; intros x; simpl; [by repeat constructor|].
  destruct (less y x) eqn:E; [by repeat constructor|].
  specialize (IH y). destruct (run y r). constructor; [done|by constructor].
Qed.

Lemma runs_run x xs : runs (x :: xs) = S (runs (snd (run x xs))).
Proof.
  revert x. induction xs as [|y r IH]; intros x; [done|]. simpl run.
  change (runs (x :: y :: r)) with ((if less y x then 1 else 0) + runs (y :: r))%nat.
  destruct (less y x); [done|]. rewrite IH. by destruct (run y r).
Qed.

Lemma runs_pos x xs : (1 <= runs (x :: xs))%nat.
Proof. rewrite runs_run. lia. Qed.

Lemma runs_app X Y : (runs (X ++ Y) <= runs X + runs Y)%nat.
Proof.
  induction X as [|x X IH]; [done|]. destruct X as [|y X].
  - destruct Y as [|y Y]; [simpl; lia|]. simpl app.
    change (runs (x :: y :: Y)) with ((if less y x then 1 else 0) + runs (y :: Y))%nat.
    change (runs [x]) with 1%nat. destruct (less y x); lia.
  - simpl app. change (runs (x :: y :: X)) with ((if less y x then 1 else 0) + runs (y :: X))%nat.
    change (runs (x :: y :: X ++ Y)) with ((if less y x then 1 else 0) + runs (y :: X ++ Y))%nat.
    simpl app in IH. lia.
Qed.

Lemma runs_sorted xs : Sorted ordered xs <-> (runs xs <= 1)%nat.
Proof.
  induction xs as [|x r IH]; [split; [simpl; lia|constructor]|].
  destruct r as [|y r]; [split; [simpl; lia|by repeat constructor]|].
  change (runs (x :: y :: r)) with ((if less y x then 1 else 0) + runs (y :: r))%nat.
  pose proof (runs_pos y r). split.
  - intros HS. apply Sorted_inv in HS as [HS Hx]. inversion Hx. unfold ordered in *.
    apply IH in HS. destruct (less y x); [done|lia].
  - destruct (less y x) eqn:E; [lia|]. intros HR. constructor; [apply IH; lia|by constructor].
Qed.

Lemma runs_length xs : (runs xs <= length xs)%nat.
Proof.
  induction xs as [|x r IH]; [done|]. destruct r as [|y r]; [done|].
  change (runs (x :: y :: r)) with ((if less y x then 1 else 0) + runs (y :: r))%nat.
  simpl length in *. destruct (less y x); lia.
Qed.

Lemma run_loop_ok s l A x B fuel :
  dlist s l (A ++ x :: B) -> (length B < fuel)%nat ->
  run_loop less fuel x (tail_of l) s = Ret (cur l (snd (run x B)), s).
Proof.
  revert A x fuel. induction B as [|y B IH]; intros A x [|fuel] H Hf; simpl in Hf; try lia; simpl run_loop;
    (erewrite kbind_ret by by eapply (next_elem _ _ A x)).
  - rewrite cur_nil, Z.eqb_refl. done.
  - assert (H' : dlist s l ((A ++ [x]) ++ y :: B)) by by rewrite <- app_assoc.
    rewrite (cur_tail s l (A ++ [x]) (y :: B)) by done. simpl. rewrite cur_cons.
    erewrite kbind_ret; [|rewrite <- (cur_cons l y B); by eapply (prev_at s l (A ++ [x]))].
    rewrite pre_snoc. destruct (less y x) eqn:E; [done|].
    rewrite (IH (A ++ [x])) by (done || lia). by destruct (run y B).
Qed.

Lemma find_end_of_run_ok s l A x B fuel :
  dlist s l (A ++ x :: B) -> (length B < fuel)%nat ->
  find_end_of_run less fuel x (tail_of l) s = Ret (cur l (snd (run x B)), s).
Proof.
  intros H Hf. unfold find_end_of_run.
  assert (Hx : x <> NULL) by (eapply dlist_not_null; [done|rewrite <- (cur_cons l x B); apply cur_in]).
  assert (Ht : tail_of l <> NULL) by (eapply dlist_not_null; [done|unfold nodes; clear; set_solver]).
  assert (Hxt := cur_tail s l A (x :: B) H). rewrite cur_cons in Hxt. simpl in Hxt.
  rewrite (proj2 (Z.eqb_neq x NULL) Hx), (proj2 (Z.eqb_neq _ NULL) Ht), Hxt. do 3 krun.
  by eapply run_loop_ok.
Qed.

Lemma merge_loop_ok A P Q C s l fuel :
  dlist s l (A ++ P ++ Q ++ C) -> (length P + length Q < fuel)%nat ->
  exists s', merge_loop less fuel (cur l (P ++ Q ++ C)) (cur l (Q ++ C)) (cur l C) s = Ret (tt, s') /\
    dlist s' l (A ++ list_merge ordered P Q ++ C) /\ unchanged_but (nodes l (A ++ P ++ Q ++ C)) s s'.
Proof.
  revert A P Q s. induction fuel as [|fuel IH]; intros A P Q s H Hf; [lia|]. simpl merge_loop.
  destruct P as [|p P]; [|destruct Q as [|q Q]].
  - simpl app in *. rewrite Z.eqb_refl. exists s. rewrite list_merge_nil_l. auto using unchanged_refl.
  - simpl app in *. rewrite Z.eqb_refl, orb_true_r. exists s. auto using unchanged_refl.
  - change ((q :: Q) ++ C) with (q :: Q ++ C) in *. change ((p :: P) ++ ?x) with (p :: P ++ x) in *.
    rewrite !cur_cons. assert (Hpq := cur_ne s l A p P (q :: Q ++ C) H). rewrite cur_cons in Hpq.
    assert (H' : dlist s l ((A ++ p :: P) ++ q :: Q ++ C)) by by rewrite <- app_assoc.
    rewrite Hpq, (cur_ne s l _ q Q C H'). rewrite list_merge_cons.
    destruct (less q p) eqn:E; cbn [orb negb].
    + rewrite decide_False by (unfold ordered; congruence).
      assert (H2 : dlist s l (((A ++ p :: P) ++ [q]) ++ Q ++ C)) by by rewrite <- app_assoc.
      destruct (list_splice_ok s l A (p :: P) [q] (Q ++ C)) as (s' & Hs & Hd & Hu); [done..|].
      destruct (IH (A ++ [q]) (p :: P) Q s') as (s'' & Hr & Hd' & Hu'); [by rewrite <- app_assoc|simpl in *; lia|].
      exists s''. split.
      { erewrite kbind_ret by by eapply next_elem.
        erewrite kbind_ret by by eapply prev_at. rewrite pre_snoc. by erewrite kbind_ret by exact Hs. } split; [by rewrite <- app_assoc in Hd'|].
      eapply unchanged_trans; [done|]. eapply unchanged_mono; [|done].
      rewrite <- app_assoc. apply nodes_perm_subset. solve_Permutation.
    + rewrite decide_True by done.
      destruct (IH (A ++ [p]) P (q :: Q) s) as (s' & Hr & Hd & Hu); [by rewrite <- app_assoc|simpl in *; lia|].
      exists s'. erewrite kbind_ret by by eapply next_elem. rewrite <- app_assoc in Hd, Hu. done.
Qed.

(** *** Maximum and minimum *)

Definition select (better : addr -> addr -> bool) (m e : addr) : addr := if better m e then e else m.

Lemma extremum_loop_ok better s l A B m fuel :
  dlist s l (A ++ B) -> (length B < fuel)%nat ->
  extremum_loop better fuel l (cur l B) m s = Ret (fold_left (select better) B m, s).
Proof.
  revert A m fuel. induction B as [|y B IH]; intros A m [|fuel] H Hf; simpl in Hf; try lia; simpl extremum_loop;
    (erewrite kbind_ret by by eapply end_ok).
  - by rewrite (cur_tail s l A []).
  - rewrite (cur_tail s l A (y :: B)) by done. simpl. rewrite cur_cons.
    erewrite kbind_ret by by eapply (next_elem _ _ A y B).
    rewrite (IH (A ++ [y])) by (rewrite <- ?app_assoc; done || lia). done.
Qed.

Lemma list_max_ok s l x xs fuel :
  dlist s l (x :: xs) -> (length xs < fuel)%nat ->
  list_max less fuel l s = Ret (fold_left (select less) xs x, s).
Proof.
  intros H Hf. unfold list_max. erewrite kbind_ret by by eapply begin_ok.
  erewrite kbind_ret by by eapply end_ok. rewrite (cur_tail s l [] (x :: xs)) by done. simpl. rewrite cur_cons.
  erewrite kbind_ret by by eapply (next_elem _ _ [] x xs).
  by rewrite (extremum_loop_ok _ s l [x] xs).
Qed.
Lemma list_min_ok s l x xs fuel :
  dlist s l (x :: xs) -> (length xs < fuel)%nat ->
  list_min less fuel l s = Ret (fold_left (select (fun m e => less e m)) xs x, s).
Proof.
  intros H Hf. unfold list_min. erewrite kbind_ret by by eapply begin_ok.
  erewrite kbind_ret by by eapply end_ok. rewrite (cur_tail s l [] (x :: xs)) by done. simpl. rewrite cur_cons.
  erewrite kbind_ret by by eapply (next_elem _ _ [] x xs).
  by rewrite (extremum_loop_ok _ s l [x] xs).
Qed.

(** When "not better than" is transitive the selected element is the first
    one that no element is better than. *)
Lemma select_best (better : addr -> addr -> bool) xs :
  (forall a b c, better a b = false -> better b c = false -> better a c = false) ->
  (forall a b, better a b = true -> better b a = false) ->
  forall m, let r := fold_left (select better) xs m in
  better r m = false /\ Forall (fun e => better r e = false) xs /\ r ∈ m :: xs.
Proof.
  intros Ht Ha. assert (Hi : forall a, better a a = false).
  { intros a. destruct (better a a) eqn:E; [|done]. by rewrite (Ha _ _ E) in E. }
  induction xs as [|y xs IH]; intros m r; [split; [apply Hi|split; [done|left]]|].
  destruct (IH (select better m y)) as (H1 & H2 & H3). subst r. simpl.
  set (r := fold_left _ _ _) in *. unfold select in *. destruct (better m y) eqn:E.
  - split; [by eapply Ht; [|apply Ha]|]. split; [by constructor|]. by right.
  - split; [done|]. split; [constructor; [by eapply Ht|done]|]. clear -H3. set_solver.
Qed.

(** *** Removing adjacent duplicates *)

Definition equivalent (a b : addr) : bool := negb (less a b) && negb (less b a).

(** The elements kept and the elements dropped after [e]. *)
Fixpoint unique_split (e : addr) (xs : list addr) : list addr * list addr :=
  match xs with
  | [] => ([], [])
  | n :: r => if equivalent e n then let (k, d) := unique_split e r in (k, n :: d)
              else let (k, d) := unique_split n r in (n :: k, d)
  end.

Lemma unique_loop_ok B : forall A e s l dup ds fuel,
  dlist s l (A ++ e :: B) -> (length B < fuel)%nat -> dup <> NULL ->
  dlist s dup ds -> nodes l (A ++ e :: B) ## nodes dup ds ->
  exists s', unique_loop less fuel l dup e s = Ret (tt, s') /\
    dlist s' l (A ++ e :: fst (unique_split e B)) /\ dlist s' dup (ds ++ snd (unique_split e B)).
Proof.
  induction B as [|n B IH]; intros A e s l dup ds [|fuel] H Hf Hdup HD Hdj; simpl in Hf; try lia.
  - exists s. rewrite app_nil_r. split; [|done]. simpl unique_loop.
    erewrite kbind_ret by by eapply (next_elem _ _ A e).
    erewrite kbind_ret by by eapply end_ok. by rewrite cur_nil, Z.eqb_refl.
  - assert (H' : dlist s l ((A ++ [e]) ++ n :: B)) by by rewrite <- app_assoc.
    assert (Hn := cur_tail s l _ _ H'). rewrite cur_cons in Hn. simpl in Hn.
    cbn [unique_split]. destruct (equivalent e n) eqn:E.
    + destruct (list_remove_ok _ _ _ _ _ H') as (s1 & R1 & D1 & U1 & L1 & N1 & O1).
      rewrite <- app_assoc in D1. simpl app in D1. rewrite <- app_assoc in O1. simpl app in O1.
      assert (Hin : n ∈ nodes l (A ++ e :: n :: B)) by (unfold nodes; clear; set_solver).
      assert (HD1 : dlist s1 dup ds).
      { eapply dlist_frame; [exact HD|exact U1|]. intros a Ha1 Ha2. apply (Hdj a); [|done].
        pose proof (pre_in l (A ++ [e]) (n :: B)) as I1. pose proof (cur_in l ((A ++ [e]) ++ [n]) B) as I2.
        replace ((A ++ [e]) ++ n :: B) with (A ++ e :: n :: B) in I1 by by rewrite <- app_assoc.
        replace (((A ++ [e]) ++ [n]) ++ B) with (A ++ e :: n :: B) in I2 by by rewrite <- !app_assoc.
        apply elem_of_cons in Ha2 as [->|Ha2]; [done|]. apply list_elem_of_singleton in Ha2 as ->. done. }
      destruct (push_back_ok s1 dup ds n HD1 L1 N1) as (s2 & R2 & D2 & U2); [intros Hx; by apply (Hdj n)|].
      assert (Hsub : nodes l (A ++ e :: B) ⊆ nodes l (A ++ e :: n :: B)) by (unfold nodes; clear; set_solver).
      destruct (IH A e s2 l dup (ds ++ [n]) fuel) as (s3 & R3 & D3 & D3'); [|lia|done|done| |].
      * eapply dlist_frame; [exact D1|exact U2|]. intros a Ha1 Ha2.
        apply elem_of_cons in Ha2 as [->|Ha2]; [done|]. apply (Hdj a); auto.
      * intros a Ha1 Ha2. assert (Hc : a = n \/ a ∈ nodes dup ds) by (clear -Ha2; unfold nodes in *; set_solver).
        destruct Hc as [->|Hc]; [done|]. apply (Hdj a); auto.
      * exists s3. destruct (unique_split e B) as [k d]. simpl fst in *. simpl snd in *.
        rewrite <- app_assoc in D3'. split; [|done].
        cbn [unique_loop]. erewrite kbind_ret by by eapply (next_elem _ _ A e (n :: B)).
        erewrite kbind_ret by by eapply end_ok. rewrite cur_cons, Hn.
        unfold equivalent in E. rewrite E. erewrite kbind_ret by exact R1.
        rewrite (proj2 (Z.eqb_neq dup NULL) Hdup). cbn [negb]. erewrite kbind_ret by exact R2. done.
    + destruct (IH (A ++ [e]) n s l dup ds fuel) as (s3 & R3 & D3 & D3');
        [done|lia|done|done|by rewrite <- app_assoc|].
      exists s3. destruct (unique_split n B) as [k d]. simpl fst in *. simpl snd in *.
      rewrite <- app_assoc in D3. split; [|done].
      cbn [unique_loop]. erewrite kbind_ret by by eapply (next_elem _ _ A e (n :: B)).
      erewrite kbind_ret by by eapply end_ok. rewrite cur_cons, Hn.
      unfold equivalent in E. by rewrite E.
Qed.

Context (less_asym : forall a b, less a b = true -> less b a = false).
#[local] Instance ordered_total : Total ordered.
Proof. intros a b. unfold ordered. destruct (less b a) eqn:E; auto. Qed.

Lemma inplace_merge_ok A P Q C s l fuel :
  dlist s l (A ++ P ++ Q ++ C) -> P <> [] -> Q <> [] -> (length P + length Q < fuel)%nat ->
  Sorted ordered P -> Sorted ordered Q ->
  exists s', inplace_merge less fuel (cur l (P ++ Q ++ C)) (cur l (Q ++ C)) (cur l C) s = Ret (tt, s') /\
    dlist s' l (A ++ list_merge ordered P Q ++ C) /\ unchanged_but (nodes l (A ++ P ++ Q ++ C)) s s'.
Proof.
  intros H HP HQ Hf SP SQ. unfold inplace_merge.
  assert (N : forall B D, A ++ P ++ Q ++ C = B ++ D -> (cur l D =? NULL) = false).
  { intros B D E. apply Z.eqb_neq. eapply dlist_not_null; [exact H|]. rewrite E. apply cur_in. }
  rewrite (N A _ eq_refl), (N (A ++ P) (Q ++ C)), (N (A ++ P ++ Q) C) by (by rewrite <- ?app_assoc).
  cbn [negb kassert]. do 3 (erewrite kbind_ret by reflexivity).
  erewrite kbind_ret.
  2:{ apply kassertm_true. rewrite (is_sorted_ok s l A P (Q ++ C)) by (done || lia).
      by rewrite bool_decide_true. }
  erewrite kbind_ret.
  2:{ apply kassertm_true. rewrite (is_sorted_ok s l (A ++ P) Q C); [|by rewrite <- app_assoc|lia].
      by rewrite bool_decide_true. }
  by apply merge_loop_ok.
Qed.

Lemma sort_pass_ok fuel : forall A B s l c,
  dlist s l (A ++ B) -> (length B < fuel)%nat -> 0 <= c -> c + Z.of_nat (length B) < 2 ^ 64 ->
  exists ys k s', sort_pass less fuel l (cur l B) c s = Ret (c + Z.of_nat k, s') /\
    dlist s' l (A ++ ys) /\ ys ≡ₚ B /\ (runs ys <= k)%nat /\ (2 * k <= runs B + 1)%nat /\
    unchanged_but (nodes l (A ++ B)) s s'.
Proof.
  induction fuel as [|fuel IH]; intros A B s l c H Hf Hc Hb; [lia|].
  destruct B as [|x B].
  - exists [], 0%nat, s. simpl sort_pass. erewrite kbind_ret by by eapply end_ok.
    rewrite cur_nil, Z.eqb_refl, Z.add_0_r.
    split_and!; [done|done|done|simpl; lia|simpl; lia|apply unchanged_refl].
  - assert (Hx := cur_tail s l A (x :: B) H). rewrite cur_cons in *. simpl in Hf, Hx.
    assert (R1 := find_end_of_run_ok s l A x B (S fuel) H ltac:(lia)).
    pose proof (run_app x B) as E. pose proof (run_sorted x B) as S1. pose proof (runs_run x B) as N1.
    assert (Hcnt : u64 (c + 1) = c + 1) by (apply u64_small; simpl length in Hb; lia).
    destruct (run x B) as [r1 [|y B2]]; simpl fst in *; simpl snd in *.
    + rewrite app_nil_r in E. subst r1. exists (x :: B), 1%nat, s. split.
      { cbn [sort_pass]. erewrite kbind_ret by by eapply end_ok. rewrite Hx, Hcnt.
        erewrite kbind_ret by by eapply end_ok. erewrite kbind_ret by exact R1.
        erewrite kbind_ret by by eapply end_ok. by rewrite cur_nil, Z.eqb_refl. }
      rewrite N1. split_and!; [done|done|simpl; lia|simpl; lia|apply unchanged_refl].
    + assert (H' : dlist s l ((A ++ x :: r1) ++ y :: B2)) by by rewrite <- app_assoc, <- app_comm_cons, <- E.
      assert (LE := f_equal length E). rewrite length_app in LE. simpl length in LE.
      assert (Hy := cur_tail s l _ (y :: B2) H'). rewrite cur_cons in Hy. simpl in Hy.
      assert (R2 := find_end_of_run_ok s l _ y B2 (S fuel) H' ltac:(lia)).
      pose proof (run_app y B2) as E2. pose proof (run_sorted y B2) as S2. pose proof (runs_run y B2) as N2.
      destruct (run y B2) as [r2 B3]; simpl fst in *; simpl snd in *.
      assert (LE2 := f_equal length E2). rewrite length_app in LE2.
      assert (EB : x :: B = (x :: r1) ++ (y :: r2) ++ B3) by (rewrite E, E2; done).
      destruct (inplace_merge_ok A (x :: r1) (y :: r2) B3 s l (S fuel)) as (s1 & R3 & D1 & U1);
        [by rewrite <- EB|done|done|simpl; lia|done|done|].
      rewrite app_assoc in D1. rewrite <- EB in U1.
      destruct (IH _ B3 s1 l (c + 1) D1 ltac:(lia) ltac:(lia)) as (ys & k & s2 & R4 & D2 & P2 & K1 & K2 & U2);
        [simpl length in Hb; lia|].
      exists (list_merge ordered (x :: r1) (y :: r2) ++ ys), (S k), s2.
      assert (SM : (runs (list_merge ordered (x :: r1) (y :: r2)) <= 1)%nat)
        by (apply runs_sorted, Sorted_list_merge; [apply ordered_total|exact S1|exact S2]).
      assert (PM : list_merge ordered (x :: r1) (y :: r2) ++ ys ≡ₚ x :: B).
      { rewrite EB, P2, merge_Permutation. solve_Permutation. }
      split; [|split; [|split; [|split; [|split]]]].
      * cbn [sort_pass]. erewrite kbind_ret by by eapply end_ok. rewrite Hx, Hcnt.
        erewrite kbind_ret by by eapply end_ok. erewrite kbind_ret by exact R1.
        erewrite kbind_ret by by eapply end_ok. rewrite cur_cons, Hy.
        erewrite kbind_ret by by eapply end_ok. erewrite kbind_ret by exact R2.
        change (cur l ((x :: r1) ++ (y :: r2) ++ B3)) with x in R3. change (cur l ((y :: r2) ++ B3)) with y in R3.
        erewrite kbind_ret by exact R3. rewrite R4. do 2 f_equal. lia.
      * by rewrite app_assoc.
      * done.
      * rewrite runs_app. lia.
      * rewrite N1, N2. lia.
      * eapply unchanged_trans; [exact U1|]. eapply unchanged_mono; [|exact U2].
        apply nodes_perm_subset. rewrite EB, merge_Permutation. solve_Permutation.
Qed.

Lemma sort_loop_ok passes fuel : forall xs s l,
  dlist s l xs -> (length xs < fuel)%nat -> (runs xs < passes)%nat -> Z.of_nat (length xs) < 2 ^ 64 ->
  exists ys s', sort_loop less passes fuel l s = Ret (tt, s') /\
    dlist s' l ys /\ ys ≡ₚ xs /\ Sorted ordered ys /\ unchanged_but (nodes l xs) s s'.
Proof.
  induction passes as [|passes IH]; intros xs s l H Hf Hp Hb; [lia|].
  destruct (sort_pass_ok fuel [] xs s l 0 H Hf ltac:(lia) ltac:(lia)) as (ys & k & s1 & R & D & P & K1 & K2 & U).
  simpl app in D. destruct (Z.ltb_spec 1 (0 + Z.of_nat k)).
  - assert (LP := Permutation_length P).
    destruct (IH ys s1 l D) as (zs & s2 & R2 & D2 & P2 & S2 & U2); [lia..|].
    exists zs, s2. split; [|split; [done|split; [by rewrite P2|split; [done|]]]].
    + simpl sort_loop. erewrite kbind_ret by by eapply begin_ok. erewrite kbind_ret by exact R.
      by rewrite (proj2 (Z.ltb_lt _ _)).
    + eapply unchanged_trans; [exact U|]. eapply unchanged_mono; [|exact U2]. by apply nodes_perm_subset.
  - exists ys, s1. split; [|split; [done|split; [done|split; [|done]]]].
    + simpl sort_loop. erewrite kbind_ret by by eapply begin_ok. erewrite kbind_ret by exact R.
      by rewrite (proj2 (Z.ltb_ge _ _)).
    + apply runs_sorted. lia.
Qed.

End Order_facts.

(** ** Reversal *)

(** The links of the elements of [X] are exchanged. *)
Definition exchanged (X : list addr) (s s' : store) : Prop :=
  forall a, nxt s' a = (if decide (a ∈ X) then prv s a else nxt s a) /\
            prv s' a = (if decide (a ∈ X) then nxt s a else prv s a).

Lemma chain_snoc s X a b : chain s (X ++ [a]) -> lk s a b -> chain s ((X ++ [a]) ++ [b]).
Proof. intros Hc Hl. apply chain_app; [done..|]. split; [done|]. by rewrite bk_app. Qed.

Lemma chain_rev s s' X : exchanged X s s' -> chain s X -> chain s' (rev X).
Proof.
  assert (H : forall Y, Y ⊆ X -> exchanged X s s' -> chain s Y -> chain s' (rev Y)); [|by auto].
  induction Y as [|a Y IH]; [done|]. intros HY He Hc. destruct Y as [|b Y]; [done|].
  apply chain_cons in Hc as [[Hn Hp] Hc]. specialize (IH ltac:(set_solver) He Hc).
  simpl rev in *. apply chain_snoc; [done|].
  destruct (He a) as [Ha1 Ha2], (He b) as [Hb1 Hb2].
  rewrite decide_True in Ha2 by set_solver. rewrite decide_True in Hb1 by set_solver. split; congruence.
Qed.

Lemma swap_run a fa b fb s va vb :
  ld fa a s = Ret (va, s) -> ld fb b s = Ret (vb, s) -> live s a -> live s b ->
  swap a fa b fb s = Ret (tt, put fb b va (put fa a vb s)).
Proof.
  intros Ha Hb La Lb. unfold swap. erewrite kbind_ret by exact Ha. erewrite kbind_ret by exact Hb.
  erewrite kbind_ret by by apply st_ok. apply st_ok. by rewrite live_put.
Qed.

Lemma reverse_loop_ok B : forall A s0 s l fuel,
  dlist s0 l (A ++ B) -> exchanged A s0 s -> (forall a, live s0 a <-> live s a) -> (length B < fuel)%nat ->
  exists s', reverse_loop fuel l (cur l B) s = Ret (tt, s') /\ exchanged (A ++ B) s0 s' /\
    (forall a, live s0 a <-> live s' a).
Proof.
  induction B as [|x B IH]; intros A s0 s l [|fuel] H He Hl Hf; simpl in Hf; try lia; simpl reverse_loop;
    assert (HE : list_end l s = Ret (tail_of l, s)) by (unfold list_end; by rewrite (dlist_l_ne _ _ _ H)).
  - exists s. erewrite kbind_ret by exact HE. rewrite cur_nil, Z.eqb_refl, app_nil_r. done.
  - assert (Hx := cur_tail s0 l _ _ H). simpl in Hx. rewrite cur_cons in *.
    destruct (dlist_link s0 l A (x :: B) H) as [_ Hp]. rewrite cur_cons in Hp.
    destruct (dlist_link s0 l (A ++ [x]) B) as [Hn _]; [by rewrite <- app_assoc|]. rewrite pre_snoc in Hn.
    assert (HxA : x ∉ A).
    { destruct H as [_ _ _ Hnd _]. unfold nodes in Hnd. apply NoDup_cons in Hnd as [_ Hnd].
      rewrite <- app_assoc in Hnd. intros Hx1. apply (nodup_disj A _ x Hnd Hx1). left. }
    assert (Lx : live s x) by (apply Hl; eauto).
    destruct (He x) as [Hxn Hxp]. rewrite decide_False in Hxn by done. rewrite decide_False in Hxp by done.
    set (s1 := put Next x (pre l A) (put Prev x (cur l B) s)).
    assert (He1 : exchanged (A ++ [x]) s0 s1).
    { intros a. unfold s1. destruct (He a) as [Han Hap]. destruct (decide (a = x)) as [->|Hax].
      - rewrite !decide_True by set_solver. split; links.
      - destruct (decide (a ∈ A)).
        + rewrite !(decide_True (P := a ∈ A ++ [x])) by set_solver. split; links.
        + rewrite !(decide_False (P := a ∈ A ++ [x])) by set_solver. split; links. }
    destruct (IH (A ++ [x]) s0 s1 l fuel) as (s' & R & E' & L'); [by rewrite <- app_assoc|done| |lia|].
    { intros a. unfold s1. by rewrite !live_put. }
    exists s'. rewrite <- app_assoc in E'. split; [|done].
    erewrite kbind_ret by exact HE. rewrite Hx.
    erewrite kbind_ret.
    2:{ apply swap_run; [apply ld_prev_ok|apply ld_next_ok| |]; [rewrite Hxp; exact Hp|rewrite Hxn; exact Hn|done|done]. }
    erewrite kbind_ret; [exact R|]. apply ld_prev_ok. unfold s1. links.
Qed.

Lemma fr_rev X : fr (rev X) = bk X.
Proof.
  destruct (decide (X = [])) as [->|HX]; [done|].
  destruct (exists_last HX) as (ys & y & ->). unfold fr, bk. by rewrite rev_app_distr, List.last_last.
Qed.
Lemma bk_rev X : bk (rev X) = fr X.
Proof. rewrite <- (rev_involutive X) at 2. by rewrite fr_rev. Qed.

Lemma list_init_ok s l :
  l <> NULL -> tail_of l <> NULL -> live s (head_of l) -> live s (tail_of l) ->
  exists s', list_init l s = Ret (tt, s') /\ dlist s' l [] /\ unchanged_but [head_of l; tail_of l] s s'.
Proof.
  intros Hl Ht L1 L2. assert (Hht : head_of l <> tail_of l) by (unfold head_of, tail_of; lia).
  exists (put Next (tail_of l) NULL (put Prev (tail_of l) (head_of l)
           (put Next (head_of l) (tail_of l) (put Prev (head_of l) NULL s)))).
  split; [|split; [split|]].
  - unfold list_init. rewrite (proj2 (Z.eqb_neq l NULL) Hl). krun. by repeat kstep.
  - links.
  - links.
  - split; [|done]. split; links.
  - repeat constructor; clear -Hht; set_solver.
  - assert (Hh : NULL <> head_of l) by (unfold head_of; congruence). clear -Hh Ht. set_solver.
  - repeat (apply unchanged_put; [clear; set_solver|]). apply unchanged_refl.
Qed.

Lemma list_unique_ok less s l dup e xs ds fuel :
  dlist s l (e :: xs) -> (length xs < fuel)%nat -> dlist s dup ds -> nodes l (e :: xs) ## nodes dup ds ->
  exists s', list_unique less fuel l dup s = Ret (tt, s') /\
    dlist s' l (e :: fst (unique_split less e xs)) /\ dlist s' dup (ds ++ snd (unique_split less e xs)).
Proof.
  intros H Hf HD Hdj. assert (Hdup := dlist_l_ne _ _ _ HD). apply Z.eqb_neq in Hdup.
  destruct (unique_loop_ok less xs [] e s l dup ds fuel H Hf Hdup HD Hdj) as (s' & R & D).
  exists s'. split; [|done]. unfold list_unique. rewrite (dlist_l_ne _ _ _ H). krun.
  erewrite kbind_ret by by eapply list_empty_ok. simpl.
  erewrite kbind_ret by by eapply begin_ok. exact R.
Qed.

(** ** The contract of the module: a deque *)

Inductive dop : Type := PushFront (e : addr) | PushBack (e : addr) | PopFront | PopBack | Remove (e : addr) | Size.

Fixpoint split_at (e : addr) (xs : list addr) : option (list addr * list addr) :=
  match xs with
  | [] => None
  | x :: r => if x =? e then Some ([], r) else
              match split_at e r with Some (A, B) => Some (x :: A, B) | None => None end
  end.

(** The deque: the result of an operation and the elements after it; [None]
    when the operation is not allowed. *)
Definition deque (l : addr) (o : dop) (xs : list addr) : option (addr * list addr) :=
  match o with
  | PushFront e => if decide (e ∈ nodes l xs) then None else Some (0, e :: xs)
  | PushBack e => if decide (e ∈ nodes l xs) then None else Some (0, xs ++ [e])
  | PopFront => match xs with [] => None | x :: r => Some (x, r) end
  | PopBack => match last xs with None => None | Some x => Some (x, removelast xs) end
  | Remove e => match split_at e xs with None => None | Some (A, B) => Some (cur l B, A ++ B) end
  | Size => Some (u64 (Z.of_nat (length xs)), xs)
  end.
Fixpoint deque_run (l : addr) (os : list dop) (xs : list addr) : option (list addr * list addr) :=
  match os with
  | [] => Some ([], xs)
  | o :: os => match deque l o xs with
               | None => None
               | Some (r, ys) => match deque_run l os ys with
                                 | None => None
                                 | Some (rs, zs) => Some (r :: rs, zs)
                                 end
               end
  end.

Definition exec (fuel : nat) (l : addr) (o : dop) : K store addr :=
  match o with
  | PushFront e => list_push_front l e ;; kret 0
  | PushBack e => list_push_back l e ;; kret 0
  | PopFront => list_pop_front l
  | PopBack => list_pop_back l
  | Remove e => list_remove e
  | Size => list_size fuel l
  end.
Fixpoint exec_all (fuel : nat) (l : addr) (os : list dop) : K store (list addr) :=
  match os with
  | [] => kret []
  | o :: os => r <- exec fuel l o ;; rs <- exec_all fuel l os ;; kret (r :: rs)
  end.

(** The elements the operations insert are objects of the heap. *)
Definition pool (s : store) (o : dop) : Prop :=
  match o with PushFront e | PushBack e => live s e /\ e <> NULL | _ => True end.

Lemma split_at_app e xs A B : split_at e xs = Some (A, B) -> xs = A ++ e :: B.
Proof.
  revert A B. induction xs as [|x r IH]; intros A B; simpl; [done|].
  destruct (Z.eqb_spec x e) as [->|Hne]; [by intros [= <- <-]|].
  destruct (split_at e r) as [[A' B']|]; [|done]. intros [= <- <-]. by rewrite (IH A' B').
Qed.

Lemma exec_ok fuel l o s xs r ys :
  dlist s l xs -> (length xs < fuel)%nat -> pool s o -> deque l o xs = Some (r, ys) ->
  exists s', exec fuel l o s = Ret (r, s') /\ dlist s' l ys /\ (forall a, live s a <-> live s' a) /\
    (length ys <= S (length xs))%nat.
Proof.
  intros H Hf Hp. destruct o as [e|e| | |e|]; simpl; simpl in Hp.
  - case_decide as Hd; [done|]. intros [= <- <-]. destruct Hp.
    destruct (push_front_ok s l xs e) as (s' & R & D & [L _]); [done..|].
    exists s'. erewrite kbind_ret by exact R. auto.
  - case_decide as Hd; [done|]. intros [= <- <-]. destruct Hp.
    destruct (push_back_ok s l xs e) as (s' & R & D & [L _]); [done..|].
    exists s'. erewrite kbind_ret by exact R. rewrite length_app. simpl. split_and!; auto. lia.
  - destruct xs as [|x xs]; [done|]. intros [= <- <-].
    destruct (pop_front_ok s l x xs H) as (s' & R & D & [L _] & _). exists s'. simpl. split_and!; auto.
  - destruct (last xs) as [x|] eqn:E; [|done]. intros [= <- <-].
    apply last_Some in E as [zs ->]. rewrite removelast_last.
    destruct (pop_back_ok s l x zs H) as (s' & R & D & [L _] & _). exists s'. rewrite length_app. split_and!; auto. lia.
  - destruct (split_at e xs) as [[A B]|] eqn:E; [|done]. intros [= <- <-]. apply split_at_app in E as ->.
    destruct (list_remove_ok s l A e B H) as (s' & R & D & [L _] & _). exists s'. split_and!; auto.
    rewrite !length_app. simpl. lia.
  - intros [= <- <-]. exists s. rewrite (list_size_ok s l xs) by done. auto.
Qed.

(** C11. The deque contract of list.c: on a well-formed list every sequence of
    pushes, pops, removals and size queries the deque allows (an element is
    inserted only when it is not in the list, a pop needs an element, a removal
    removes a member) returns what the deque returns and leaves the links of a
    well-formed list of the deque's elements; the fuel bounds the size. *)
Theorem deque_refinement fuel l os s xs rs ys :
  dlist s l xs -> (length xs + length os < fuel)%nat -> Forall (pool s) os ->
  deque_run l os xs = Some (rs, ys) ->
  exists s', exec_all fuel l os s = Ret (rs, s') /\ dlist s' l ys.
Proof.
  revert s xs rs. induction os as [|o os IH]; intros s xs rs H Hf HP; simpl.
  - intros [= <- <-]. by exists s.
  - destruct (deque l o xs) as [[r zs]|] eqn:E; [|done].
    destruct (deque_run l os zs) as [[rs' ys']|] eqn:E'; [|done]. intros [= <- <-].
    apply Forall_cons in HP as [Ho HP]. simpl in Hf.
    destruct (exec_ok fuel l o s xs r zs H ltac:(lia) Ho E) as (s1 & R1 & D1 & L1 & N1).
    destruct (IH s1 zs rs' D1 ltac:(lia)) as (s2 & R2 & D2); [|done|].
    { eapply Forall_impl; [exact HP|]. intros [| | | | |]; simpl; try done; intros [? ?]; by rewrite <- L1. }
    exists s2. split; [|done]. erewrite kbind_ret by exact R1. by erewrite kbind_ret by exact R2.
Qed.

(** A heap of four elements at 1 to 4 and the empty list with its sentinels at 100 and 116. *)
Definition demo : store :=
  {[ 1 := Elem 0 0; 2 := Elem 0 0; 3 := Elem 0 0; 4 := Elem 0 0; 100 := Elem 0 116; 116 := Elem 100 0 ]}.

Lemma demo_dlist : dlist demo 100 [].
Proof.
  split; [reflexivity|reflexivity|by split|..]; [apply (bool_decide_unpack _); reflexivity|].
  apply (bool_decide_unpack _). reflexivity.
Qed.

Lemma deque_refinement_witness :
  exists s', exec_all 10 100 [PushBack 2; PushFront 1; PushBack 3; Remove 2; PopBack; Size] demo =
    Ret ([0; 0; 0; 3; 3; 1], s') /\ dlist s' 100 [1].
Proof.
  apply (deque_refinement 10 100 _ demo []).
  - apply demo_dlist.
  - simpl. lia.
  - repeat constructor; try done; simpl; by eexists.
  - reflexivity.
Defined.

(** C29. [list_sort] (a natural merge sort by splicing, in place) sorts: it
    terminates within as many passes and steps as there are elements plus one,
    passes its own final assertion, and leaves a well-formed list of the same
    elements in nondecreasing order, touching no other object. The comparison
    only has to be asymmetric; the length bound keeps the run counter from
    wrapping around. *)
Theorem list_sort_sorts less xs s l fuel :
  (forall a b, less a b = true -> less b a = false) ->
  dlist s l xs -> (length xs < fuel)%nat -> Z.of_nat (length xs) < 2 ^ 64 ->
  exists ys s', list_sort less fuel l s = Ret (tt, s') /\
    dlist s' l ys /\ ys ≡ₚ xs /\ Sorted (ordered less) ys /\ unchanged_but (nodes l xs) s s'.
Proof.
  intros Ha H Hf Hb. pose proof (runs_length less xs).
  destruct (sort_loop_ok less Ha fuel fuel xs s l H Hf ltac:(lia) Hb) as (ys & s' & R & D & P & S & U).
  exists ys, s'. split; [|done]. unfold list_sort. rewrite (dlist_l_ne _ _ _ H). krun.
  erewrite kbind_ret by exact R. erewrite kbind_ret by by eapply begin_ok.
  erewrite kbind_ret by by eapply end_ok. apply kassertm_true.
  assert (LP := Permutation_length P). pose proof (is_sorted_ok less s' l [] ys [] fuel) as R'.
  simpl app in R'. rewrite app_nil_r, cur_nil in R'. rewrite R' by (done || lia). by rewrite bool_decide_true.
Qed.

(** The heap of [demo] with the elements 1 to 4 linked in the order 3 1 4 2. *)
Definition demo_linked : store :=
  {[ 100 := Elem 0 3; 3 := Elem 100 1; 1 := Elem 3 4; 4 := Elem 1 2; 2 := Elem 4 116; 116 := Elem 2 0 ]}.

Lemma demo_linked_dlist : dlist demo_linked 100 [3; 1; 4; 2].
Proof.
  split; [reflexivity|reflexivity|by repeat split|..]; [apply (bool_decide_unpack _); reflexivity|].
  apply (bool_decide_unpack _). reflexivity.
Qed.

Lemma list_sort_sorts_witness :
  exists ys s', list_sort Z.ltb 5 100 demo_linked = Ret (tt, s') /\
    dlist s' 100 ys /\ ys ≡ₚ [3; 1; 4; 2] /\ Sorted (ordered Z.ltb) ys /\
    unchanged_but (nodes 100 [3; 1; 4; 2]) demo_linked s'.
Proof.
  apply (list_sort_sorts Z.ltb).
  - intros a b H. apply Z.ltb_lt in H. apply Z.ltb_ge. lia.
  - apply demo_linked_dlist.
  - simpl. lia.
  - simpl. lia.
Defined.

(** [list_reverse] exchanges the links of every element and of the two
    sentinels and leaves the list of the elements in the opposite order. *)
Theorem list_reverse_reverses s l xs fuel :
  dlist s l xs -> (length xs < fuel)%nat ->
  exists s', list_reverse fuel l s = Ret (tt, s') /\ dlist s' l (rev xs).
Proof.
  intros H Hf. unfold list_reverse. erewrite kbind_ret by by eapply list_empty_ok.
  case_bool_decide as HX; [subst; by exists s|].
  destruct (reverse_loop_ok xs [] s s l fuel H) as (s1 & R1 & E1 & L1); [|done|done|].
  { intros a. by rewrite !decide_False by apply not_elem_of_nil. }
  simpl app in E1.
  destruct (dlist_link s l [] xs H) as [LH1 LH2].
  destruct (dlist_link s l xs []) as [LT1 LT2]; [by rewrite app_nil_r|].
  assert (Ep : pre l xs = bk xs) by (unfold pre; by apply (bk_app [head_of l])).
  assert (Ec : cur l xs = fr xs) by (unfold cur; by apply fr_app).
  rewrite cur_nil, Ep in LT1, LT2. rewrite pre_nil, Ec in LH1, LH2.
  assert (H' := H). destruct H' as [Dp Dn Dc Dnd D0].
  pose proof (fr_in xs HX) as If. pose proof (bk_in xs HX) as Ib.
  destruct (nodup4 [head_of l] xs [tail_of l] []) as (_ & N1 & N2 & _ & N3 & _); [by rewrite app_nil_r|].
  assert (Hh : head_of l ∉ xs) by (intros Hx; apply (N1 (head_of l)); [left|done]).
  assert (Ht : tail_of l ∉ xs) by (intros Hx; apply (N3 (tail_of l)); [done|left]).
  assert (Hht : head_of l <> tail_of l) by (intros Hx; apply (N2 (head_of l)); [left|rewrite Hx; left]).
  assert (Hf1 : fr xs <> head_of l /\ fr xs <> tail_of l) by (split; intros E; by rewrite E in *).
  assert (Hb1 : bk xs <> head_of l /\ bk xs <> tail_of l) by (split; intros E; by rewrite E in *).
  destruct (E1 (head_of l)) as [Eh1 Eh2], (E1 (tail_of l)) as [Et1 Et2], (E1 (fr xs)) as [Ef1 _], (E1 (bk xs)) as [_ Eb2].
  rewrite decide_False in Eh1 by done. rewrite decide_False in Eh2 by done.
  rewrite decide_False in Et1 by done. rewrite decide_False in Et2 by done.
  rewrite decide_True in Ef1 by done. rewrite decide_True in Eb2 by done.
  rewrite LH1 in Eh1. rewrite Dp in Eh2. rewrite Dn in Et1. rewrite LT2 in Et2. rewrite LH2 in Ef1. rewrite LT1 in Eb2.
  set (s2 := put Prev (tail_of l) (fr xs) (put Next (head_of l) (bk xs) s1)).
  exists (put Next (fr xs) (tail_of l) (put Prev (bk xs) (head_of l) s2)).
  destruct Hf1, Hb1. split.
  { unfold list_reverse. erewrite kbind_ret by by eapply begin_ok. erewrite kbind_ret by exact R1.
    erewrite kbind_ret by (apply swap_run; [by apply ld_next_ok|by apply ld_prev_ok|eauto|eauto]).
    fold s2. erewrite kbind_ret by (apply ld_next_ok; unfold s2; links).
    erewrite kbind_ret by (apply ld_prev_ok; unfold s2; links).
    apply swap_run; [apply ld_prev_ok|apply ld_next_ok| |]; unfold s2; rewrite ?live_put; eauto; links. }
  assert (HP : nodes l (rev xs) ≡ₚ nodes l xs) by (unfold nodes; by rewrite <- (Permutation_rev xs)).
  unfold s2. split.
  - links.
  - links.
  - pose proof (chain_rev s s1 xs E1) as Hc.
    apply (chain_app s [head_of l]) in Dc as (_ & _ & Dc); [|done..].
    apply chain_app in Dc as (Dc & _); [|done..]. specialize (Hc Dc).
    assert (HR : rev xs <> []) by (intros E; apply (f_equal (@rev _)) in E; by rewrite rev_involutive in E).
    apply (chain_app _ [head_of l]); [done..|]. rewrite fr_app, fr_rev by done.
    change (bk [head_of l]) with (head_of l). split; [done|]. split; [split; links|].
    apply chain_app; [done..|]. rewrite bk_rev. change (fr [tail_of l]) with (tail_of l).
    split; [|split; [split; links|done]].
    apply (chain_frame s1); [|done| |].
    + rewrite <- Permutation_rev. unfold nodes in Dnd. apply NoDup_cons in Dnd as [_ Dnd]. by apply NoDup_app in Dnd as [? _].
    + rewrite bk_rev. intros a Ha Hne. rewrite <- Permutation_rev in Ha. links; by rewrite e in Ha.
    + rewrite fr_rev. intros a Ha Hne. rewrite <- Permutation_rev in Ha. links; by rewrite e in Ha.
  - by rewrite HP.
  - by rewrite HP.
Qed.

Lemma list_reverse_reverses_witness :
  exists s', list_reverse 5 100 demo_linked = Ret (tt, s') /\ dlist s' 100 [2; 4; 1; 3].
Proof. apply (list_reverse_reverses _ _ [3; 1; 4; 2]); [apply demo_linked_dlist|simpl; lia]. Defined.
