(* ===== verification/Pm.v ===== *)
(** The physical page allocator: src/kernel/pm.c.

    The state is the physical memory, the state of the locks seen by the hart
    that runs, and the variable [kmem.freelist]. The free pages form a list
    threaded through their own first words; [free_list kend s xs] says which
    pages it holds. [kend] is the linker symbol [end]. *)
From S2P Require Import Prelude CString Spinlock.

Definition PGSIZE : Z := 4096.
Definition KERNBASE : Z := 0x80200000.
Definition PHYSTOP : Z := KERNBASE + 128 * 1024 * 1024 - 0x200000.

(** [PGROUNDUP] and [PGROUNDDOWN] at type [uint64_t]. *)
Definition PGROUNDUP (sz : Z) : Z := Z.land (u64 (sz + PGSIZE - 1)) (u64 (Z.lnot (PGSIZE - 1))).
Definition PGROUNDDOWN (a : Z) : Z := Z.land a (u64 (Z.lnot (PGSIZE - 1))).

Record pmst : Type := mkPm { pm_mem : mem; pm_lk : lockst; freelist : Z }.

Definition set_mem (m : mem) (s : pmst) : pmst := mkPm m (pm_lk s) (freelist s).
Definition set_lk (l : lockst) (s : pmst) : pmst := mkPm (pm_mem s) l (freelist s).
Definition set_freelist (f : Z) (s : pmst) : pmst := mkPm (pm_mem s) (pm_lk s) f.

(** The lock operations and the memory seen from this state. *)
Definition locked_op {A} (m : K lockst A) : K pmst A := zoom pm_lk set_lk m.
Definition load64 (a : Z) : K pmst Z := kget (fun s => ld64 (pm_mem s) a).
Definition store64 (a v : Z) : K pmst unit := kmod (fun s => set_mem (st64 (pm_mem s) a v) s).
Definition fill (a c n : Z) : K pmst unit := kmod (fun s => set_mem (memset (pm_mem s) a c n) s).

Section Pm.
Context (kend : Z).

Definition bad_page (pa : Z) : bool :=
  negb (pa mod PGSIZE =? 0) || (pa <? kend) || (PHYSTOP <=? pa).

Definition kpmfree (pa : Z) : K pmst unit :=
  if bad_page pa then kpanic "kpmfree"%string else
  fill pa 1 PGSIZE ;;
  locked_op (acquire kmem_lock) ;;
  f <- kget freelist ;;
  store64 pa f ;;
  kmod (set_freelist pa) ;;
  locked_op (release kmem_lock).

Definition kpmalloc : K pmst Z :=
  locked_op (acquire kmem_lock) ;;
  r <- kget freelist ;;
  (if negb (r =? 0) then n <- load64 r ;; kmod (set_freelist n) else kret tt) ;;
  locked_op (release kmem_lock) ;;
  (if negb (r =? 0) then fill r 5 PGSIZE else kret tt) ;;
  kret r.

(** The loop of [freerange]; [k] bounds the number of pages. *)
Fixpoint freerange_loop (k : nat) (p pa_end : Z) : K pmst unit :=
  match k with
  | O => knofuel
  | S k => if p + PGSIZE <=? pa_end
           then kpmfree p ;; freerange_loop k (p + PGSIZE) pa_end
           else kret tt
  end.
Definition freerange (fuel : nat) (pa_start pa_end : Z) : K pmst unit :=
  freerange_loop fuel (PGROUNDUP pa_start) pa_end.

Definition kpminit (fuel : nat) : K pmst unit :=
  locked_op (initlock kmem_lock) ;;
  freerange fuel kend PHYSTOP.

(** The loop of [kpm_multiple_alloc]; returns the final [r]. The test is on
    [r], which the loop does not advance; [kmem.freelist->next] with an empty
    list dereferences NULL. *)
Fixpoint multiple_alloc_loop (k : nat) (r : Z) : K pmst Z :=
  match k with
  | O => kret r
  | S k =>
      if negb (r =? 0) then
        f <- kget freelist ;;
        (if f =? 0 then kfault else n <- load64 f ;; kmod (set_freelist n)) ;;
        multiple_alloc_loop k r
      else kmod (set_freelist r) ;; kret 0
  end.
Definition kpm_multiple_alloc (page_num : Z) : K pmst Z :=
  locked_op (acquire kmem_lock) ;;
  f <- kget freelist ;;
  r <- multiple_alloc_loop (Z.to_nat page_num) f ;;
  locked_op (release kmem_lock) ;;
  (if negb (r =? 0) then fill r 5 (PGSIZE * page_num) else kret tt) ;;
  kret r.

Fixpoint follow_next (k : nat) (tmp : Z) : K pmst Z :=
  match k with
  | O => kret tmp
  | S k => n <- load64 tmp ;; follow_next k n
  end.
Definition kpm_multiple_free (pa page_num : Z) : K pmst unit :=
  if bad_page pa then kpanic "kpmfree"%string else
  fill pa 1 (PGSIZE * page_num) ;;
  locked_op (acquire kmem_lock) ;;
  tmp <- follow_next (Z.to_nat page_num) pa ;;
  f <- kget freelist ;;
  store64 tmp f ;;
  kmod (set_freelist pa) ;;
  locked_op (release kmem_lock).

(** ** The free list *)

Definition page (pa : Z) : Prop := pa mod PGSIZE = 0 /\ kend <= pa < PHYSTOP.

Fixpoint linked (m : mem) (h : Z) (xs : list Z) : Prop :=
  match xs with
  | [] => h = 0
  | x :: r => h = x /\ linked m (ld64 m x) r
  end.

(** The lock is free and the processor's nesting count is consistent. *)
Definition lk_ready (l : lockst) : Prop := lock_free kmem_lock l /\ cpu_ok (hcpu l).

Record free_list (s : pmst) (xs : list Z) : Prop := {
  fl_linked : linked (pm_mem s) (freelist s) xs;
  fl_pages : Forall page xs;
  fl_nodup : NoDup xs;
  fl_ready : lk_ready (pm_lk s)
}.

Context (kend_pos : 0 < kend).

Lemma page_disjoint x y : x mod PGSIZE = 0 -> y mod PGSIZE = 0 -> x <> y -> x + PGSIZE <= y \/ y + PGSIZE <= x.
Proof.
  unfold PGSIZE. intros Hx Hy Hne.
  pose proof (Z.div_mod x 4096). pose proof (Z.div_mod y 4096). lia.
Qed.

Lemma page_good pa : page pa -> bad_page pa = false.
Proof.
  intros [Ha Hr]. unfold bad_page. rewrite Ha. cbn [Z.eqb negb orb].
  rewrite (proj2 (Z.ltb_ge _ _)), (proj2 (Z.leb_gt _ _)) by lia. done.
Qed.
Lemma bad_page_not pa : bad_page pa = true <-> ~ page pa.
Proof.
  unfold bad_page, page. rewrite !orb_true_iff, negb_true_iff, Z.eqb_neq, Z.ltb_lt, Z.leb_le. lia.
Qed.
Lemma page_pos pa : page pa -> 0 < pa.
Proof. intros [_ ?]. lia. Qed.
Lemma page_u64 pa : page pa -> u64 pa = pa.
Proof. intros [_ ?]. apply u64_small. unfold PHYSTOP, KERNBASE in *. lia. Qed.

Lemma linked_ext m m' h xs :
  (forall x, x ∈ xs -> ld64 m' x = ld64 m x) -> linked m h xs -> linked m' h xs.
Proof.
  revert h. induction xs as [|x xs IH]; intros h He; simpl; [done|].
  intros [-> Hl]. split; [done|]. rewrite He by left. apply IH; [|done]. intros y Hy. apply He. by right.
Qed.

(** Writing inside a page that is not in the list keeps the list. *)
Lemma linked_other_page m m' h xs x :
  page x -> Forall page xs -> x ∉ xs -> (forall a, a < x \/ x + PGSIZE <= a -> ld8 m' a = ld8 m a) ->
  linked m h xs -> linked m' h xs.
Proof.
  intros [Hx _] HF Hni He. apply linked_ext. intros y Hy. apply ld64_ext.
  rewrite Forall_forall in HF. destruct (HF y Hy) as [Hy' _].
  intros a Ha. apply He. destruct (page_disjoint x y) as [?|?]; [done|done| | |]; unfold PGSIZE in *; try lia.
  intros ->. done.
Qed.

(** The lock discipline of one critical section. *)
Lemma locked_acquire s :
  lk_ready (pm_lk s) -> exists l', locked_op (acquire kmem_lock) s = Ret (tt, set_lk l' s) /\ l' ≡ acquired kmem_lock (pm_lk s).
Proof.
  intros [Hf Hc]. destruct (acquire_free kmem_lock _ Hf) as (l' & R & E). exists l'. split; [|done].
  by apply zoom_ret.
Qed.
Lemma locked_release s s1 l :
  lk_ready (pm_lk s) -> l ≡ acquired kmem_lock (pm_lk s) -> pm_lk s1 = l ->
  exists l', locked_op (release kmem_lock) s1 = Ret (tt, set_lk l' s1) /\ lk_restored (pm_lk s) l'.
Proof.
  intros [Hf Hc] He <-. destruct (acquired_released kmem_lock (pm_lk s) (pm_lk s1) Hf Hc He) as (l' & R & E).
  exists l'. split; [|done]. by apply zoom_ret.
Qed.

Lemma lk_ready_restored l l' : lk_ready l -> lk_restored l l' -> lk_ready l'.
Proof. intros [Hf Hc] H. split; [by eapply lk_restored_free|by eapply lk_restored_ok]. Qed.

(** [kpmalloc] takes the head of the list and fills it with junk. *)
Lemma kpmalloc_empty s :
  free_list s [] -> exists l', kpmalloc s = Ret (0, set_lk l' s) /\ lk_restored (pm_lk s) l' /\ free_list (set_lk l' s) [].
Proof.
  intros [Hl _ _ Hr]. simpl in Hl. destruct (locked_acquire s Hr) as (l1 & R1 & E1).
  destruct (locked_release s (set_lk l1 s) l1 Hr E1 eq_refl) as (l2 & R2 & E2).
  exists l2. split; [|split; [done|]].
  - unfold kpmalloc. erewrite kbind_ret by exact R1. krun. cbn [freelist set_lk]. rewrite Hl. cbn [Z.eqb negb].
    krun. erewrite kbind_ret by exact R2. by krun.
  - split; [done|constructor|constructor|]. by apply (lk_ready_restored (pm_lk s)).
Qed.

Lemma kpmalloc_cons s x xs :
  free_list s (x :: xs) ->
  exists l', kpmalloc s = Ret (x, mkPm (memset (pm_mem s) x 5 PGSIZE) l' (ld64 (pm_mem s) x)) /\
    lk_restored (pm_lk s) l' /\ free_list (mkPm (memset (pm_mem s) x 5 PGSIZE) l' (ld64 (pm_mem s) x)) xs.
Proof.
  intros [Hl Hp Hn Hr]. destruct Hl as [Hh Hl]. apply Forall_cons in Hp as [Hx Hp]. apply NoDup_cons in Hn as [Hni Hn].
  destruct (locked_acquire s Hr) as (l1 & R1 & E1).
  destruct (locked_release s (mkPm (pm_mem s) l1 (ld64 (pm_mem s) x)) l1 Hr E1 eq_refl) as (l2 & R2 & E2).
  exists l2. split; [|split; [done|]].
  - unfold kpmalloc. erewrite kbind_ret by exact R1. krun. cbn [freelist set_lk]. rewrite Hh.
    rewrite (proj2 (Z.eqb_neq x 0)) by (pose proof (page_pos x Hx); lia). cbn [negb].
    krun. erewrite kbind_ret by exact R2. by krun.
  - split; [|done|done|by apply (lk_ready_restored (pm_lk s))].
    apply (linked_other_page (pm_mem s) _ _ _ x); try done.
    intros a Ha. apply memset_out; [done|]. unfold PGSIZE in *. lia.
Qed.

Lemma kpmfree_page s x xs :
  free_list s xs -> page x -> x ∉ xs ->
  exists l', kpmfree x s = Ret (tt, mkPm (st64 (memset (pm_mem s) x 1 PGSIZE) x (freelist s)) l' x) /\
    lk_restored (pm_lk s) l' /\
    free_list (mkPm (st64 (memset (pm_mem s) x 1 PGSIZE) x (freelist s)) l' x) (x :: xs).
Proof.
  intros [Hl Hp Hn Hr] Hx Hni. set (s0 := set_mem (memset (pm_mem s) x 1 PGSIZE) s).
  assert (Hr0 : lk_ready (pm_lk s0)) by done.
  destruct (locked_acquire s0 Hr0) as (l1 & R1 & E1).
  destruct (locked_release s0 (mkPm (st64 (memset (pm_mem s) x 1 PGSIZE) x (freelist s)) l1 x) l1 Hr0 E1 eq_refl)
    as (l2 & R2 & E2).
  exists l2. split; [|split; [done|]].
  - unfold kpmfree. rewrite page_good by done. krun. fold s0.
    erewrite kbind_ret by exact R1. do 3 krun. exact R2.
  - split; [|by constructor|by constructor|by apply (lk_ready_restored (pm_lk s0))].
    cbn [pm_mem freelist]. split; [done|]. rewrite ld64_st64_eq.
    replace (u64 (freelist s)) with (freelist s).
    + apply (linked_other_page (pm_mem s) _ _ _ x); try done.
      intros a Ha. with_strategy transparent [st64] (unfold st64).
      rewrite ld8_stn_other by (unfold PGSIZE in *; lia). apply memset_out; [done|]. unfold PGSIZE in *. lia.
    + destruct xs as [|y ys]; simpl in Hl; [by rewrite Hl|]. destruct Hl as [-> _].
      apply Forall_cons in Hp as [Hy _]. by rewrite page_u64.
Qed.

Lemma kpmfree_bad x s : ~ page x -> kpmfree x s = Panic "kpmfree".
Proof. intros H. unfold kpmfree. apply bad_page_not in H as ->. done. Qed.

(** ** Initialisation *)

Fixpoint pages_from (p : Z) (n : nat) : list Z :=
  match n with O => [] | S n => p :: pages_from (p + PGSIZE) n end.

Lemma pages_from_elem p n x : p mod PGSIZE = 0 ->
  x ∈ pages_from p n <-> x mod PGSIZE = 0 /\ p <= x < p + PGSIZE * Z.of_nat n.
Proof.
  revert p. induction n as [|n IH]; intros p Hp; simpl pages_from.
  - split; [by intros ?%elem_of_nil|]. rewrite Z.mul_0_r. lia.
  - assert (Hp' : (p + PGSIZE) mod PGSIZE = 0) by (unfold PGSIZE in *; dlia).
    rewrite elem_of_cons, IH by done. unfold PGSIZE in *. split.
    + intros [->|[? ?]]; dlia.
    + intros [? ?]. destruct (Z.eq_dec x p); [by left|right]. dlia.
Qed.

Lemma freerange_loop_ok n : forall fuel p pa_end xs s,
  free_list s xs -> p mod PGSIZE = 0 -> kend <= p -> pa_end <= PHYSTOP ->
  p + PGSIZE * Z.of_nat n <= pa_end < p + PGSIZE * Z.of_nat n + PGSIZE ->
  (forall x, x ∈ xs -> x < p) -> (n < fuel)%nat ->
  exists s' ys, freerange_loop fuel p pa_end s = Ret (tt, s') /\ free_list s' ys /\
    lk_restored (pm_lk s) (pm_lk s') /\ ys ≡ₚ pages_from p n ++ xs.
Proof.
  induction n as [|n IH]; intros [|fuel] p pa_end xs s H Hp Hk He Hn Hx Hf; try lia; simpl freerange_loop.
  - rewrite (proj2 (Z.leb_gt _ _)) by (unfold PGSIZE in *; lia). exists s, xs. split_and!; try done.
  - rewrite (proj2 (Z.leb_le _ _)) by (unfold PGSIZE in *; lia).
    assert (Hpg : page p) by (split; unfold PGSIZE in *; dlia).
    destruct (kpmfree_page s p xs H Hpg) as (l & R & E & HF).
    { intros Hin. specialize (Hx p Hin). lia. }
    edestruct (IH fuel (p + PGSIZE) pa_end (p :: xs)) as (s' & ys & R' & F' & E' & P'); [exact HF|..].
    + unfold PGSIZE in *. dlia.
    + unfold PGSIZE in *. dlia.
    + done.
    + lia.
    + intros x [->|Hin]%elem_of_cons; [unfold PGSIZE; dlia|]. specialize (Hx x Hin). unfold PGSIZE. lia.
    + lia.
    + exists s', ys. split; [by erewrite kbind_ret by exact R|]. split; [done|]. split.
      * by eapply lk_restored_trans.
      * rewrite P'. simpl. solve_Permutation.
Qed.

Lemma land_page_mask x : 0 <= x < 2 ^ 64 -> Z.land x (u64 (Z.lnot (PGSIZE - 1))) = x / PGSIZE * PGSIZE.
Proof.
  intros Hx. change (u64 (Z.lnot (PGSIZE - 1))) with (Z.shiftl (Z.ones 52) 12).
  change PGSIZE with (2 ^ 12). rewrite <- Z.shiftl_mul_pow2, <- Z.shiftr_div_pow2 by lia.
  apply Z.bits_inj'. intros i Hi. rewrite Z.land_spec, !Z.shiftl_spec by lia.
  destruct (Z.ltb_spec i 12).
  - rewrite !(Z.testbit_neg_r _ (i - 12)) by lia. by rewrite andb_false_r.
  - rewrite Z.shiftr_spec by lia. replace (i - 12 + 12) with i by lia.
    destruct (Z.ltb_spec i 64).
    + rewrite Z.ones_spec_low by lia. by rewrite andb_true_r.
    + rewrite Z.ones_spec_high by lia. rewrite andb_false_r. symmetry.
      destruct (Z.eq_dec x 0) as [->|]; [apply Z.bits_0|].
      apply Z.bits_above_log2; [lia|]. apply Z.log2_lt_pow2; [lia|].
      eapply Z.lt_le_trans; [apply Hx|]. apply Z.pow_le_mono_r; lia.
Qed.
Lemma PGROUNDDOWN_spec a : 0 <= a < 2 ^ 64 -> PGROUNDDOWN a = a / PGSIZE * PGSIZE.
Proof. apply land_page_mask. Qed.
Lemma PGROUNDUP_spec a : 0 <= a < 2 ^ 64 - PGSIZE -> PGROUNDUP a = (a + PGSIZE - 1) / PGSIZE * PGSIZE.
Proof.
  intros Ha. unfold PGROUNDUP. rewrite land_page_mask, u64_small; unfold PGSIZE in *; try lia. apply u64_range.
Qed.

Lemma kpminit_ok fuel s :
  freelist s = 0 -> cpu_ok (hcpu (pm_lk s)) -> kend <= PHYSTOP ->
  (Z.to_nat ((PHYSTOP - kend) / PGSIZE) < fuel)%nat ->
  exists s' xs, kpminit fuel s = Ret (tt, s') /\ free_list s' xs /\ forall x, x ∈ xs <-> page x.
Proof.
  intros Hfl Hc Hk Hf. unfold kpminit.
  set (s0 := set_lk (on_lock kmem_lock (fun _ => mkSpinlock 0 None) (pm_lk s)) s).
  assert (E0 : locked_op (initlock kmem_lock) s = Ret (tt, s0)) by done.
  erewrite kbind_ret by exact E0.
  assert (H0 : free_list s0 []).
  { split; [done|constructor|constructor|]. split; [|done]. unfold lock_free. simpl. by rewrite set_lock_eq. }
  unfold freerange. set (p := PGROUNDUP kend).
  assert (Hp : p = (kend + PGSIZE - 1) / PGSIZE * PGSIZE).
  { apply PGROUNDUP_spec. unfold PHYSTOP, KERNBASE, PGSIZE in *. lia. }
  set (n := Z.to_nat ((PHYSTOP - p) / PGSIZE)).
  assert (Hkp : kend <= p < kend + PGSIZE) by (rewrite Hp; unfold PGSIZE; dlia).
  assert (Hps : PHYSTOP mod PGSIZE = 0) by done.
  assert (Hpm : p mod PGSIZE = 0) by (rewrite Hp; by apply Z.mod_mul).
  assert (HpP : p <= PHYSTOP) by (unfold PGSIZE in *; dlia).
  destruct (freerange_loop_ok n fuel p PHYSTOP [] s0 H0 Hpm) as (s' & ys & R & F & _ & P).
  - lia.
  - lia.
  - unfold n. rewrite Z2Nat.id by (unfold PGSIZE in *; dlia). unfold PGSIZE in *. dlia.
  - by intros x ?%elem_of_nil.
  - unfold n. unfold PGSIZE in *. dlia.
  - exists s', ys. split; [done|]. split; [done|]. intros x.
    rewrite P, app_nil_r, pages_from_elem by done. unfold page.
    unfold n. rewrite Z2Nat.id by (unfold PGSIZE in *; dlia). unfold PGSIZE in *. dlia.
Qed.

(** ** A client of the allocator

    A client allocates pages and gives back pages it owns: [CFree i] frees the
    [i]-th page of those it holds. *)
Inductive client_op : Type := CAlloc | CFree (i : nat).

Fixpoint client (os : list client_op) (owned : list Z) : K pmst (list Z) :=
  match os with
  | [] => kret owned
  | CAlloc :: os =>
      r <- kpmalloc ;;
      client os (if r =? 0 then owned else r :: owned)
  | CFree i :: os =>
      match owned !! i with
      | None => client os owned
      | Some pa => kpmfree pa ;; client os (delete i owned)
      end
  end.

(** The client's pages and the free pages are distinct pages. *)
Record partition (s : pmst) (owned free : list Z) : Prop := {
  pt_free : free_list s free;
  pt_owned : Forall page owned;
  pt_nodup : NoDup (owned ++ free)
}.

Lemma partition_alloc s owned free :
  partition s owned free ->
  (free = [] /\ exists s', kpmalloc s = Ret (0, s') /\ partition s' owned []) \/
  (exists x free' s', free = x :: free' /\ kpmalloc s = Ret (x, s') /\ partition s' (x :: owned) free').
Proof.
  intros [F O N]. destruct free as [|x free].
  - left. destruct (kpmalloc_empty s F) as (l & R & _ & F'). split; [done|]. by eexists.
  - right. destruct (kpmalloc_cons s x free F) as (l & R & _ & F').
    exists x, free. eexists. split; [done|]. split; [exact R|]. split; [done| |].
    + destruct F as [_ Hp _ _]. apply Forall_cons in Hp as [? _]. by constructor.
    + revert N. apply NoDup_Permutation_proper. simpl. by rewrite Permutation_middle.
Qed.

Lemma partition_free s owned free i pa :
  partition s owned free -> owned !! i = Some pa ->
  exists s', kpmfree pa s = Ret (tt, s') /\ partition s' (delete i owned) (pa :: free).
Proof.
  intros [F O N] Hi. assert (Hpg : page pa) by by eapply Forall_lookup_1.
  assert (HP : owned ++ free ≡ₚ delete i owned ++ pa :: free).
  { transitivity ((pa :: delete i owned) ++ free); [|solve_Permutation].
    by rewrite <- (delete_Permutation owned i pa). }
  destruct (kpmfree_page s pa free F Hpg) as (l & R & _ & F').
  { rewrite HP in N. apply NoDup_app in N as (_ & _ & N). by apply NoDup_cons in N as [N _]. }
  eexists. split; [exact R|]. split; [done| |by rewrite <- HP].
  by apply Forall_delete.
Qed.

(** C4. Page allocation is exclusive: whatever a client allocates and gives
    back, in any order, every call returns, the pages it owns and the free
    pages stay distinct valid pages, together always the same set (nothing is
    leaked or handed out twice), so an allocation fails only when no page is
    free. *)
Theorem client_exclusive os s owned free :
  partition s owned free ->
  exists owned' free' s', client os owned s = Ret (owned', s') /\
    partition s' owned' free' /\ owned' ++ free' ≡ₚ owned ++ free.
Proof.
  revert s owned free. induction os as [|[|i] os IH]; intros s owned free H; simpl.
  - by exists owned, free, s.
  - destruct (partition_alloc s owned free H) as [(-> & s1 & R & P)|(x & fr & s1 & -> & R & P)].
    + destruct (IH _ _ _ P) as (o & f & s2 & R2 & P2 & E2). exists o, f, s2. split; [|done].
      by erewrite kbind_ret by exact R.
    + destruct (IH _ _ _ P) as (o & f & s2 & R2 & P2 & E2). exists o, f, s2. split; [|split; [done|]].
      * erewrite kbind_ret by exact R. rewrite (proj2 (Z.eqb_neq x 0)); [done|].
        destruct P as [_ O _]. apply Forall_cons in O as [O _]. pose proof (page_pos x O). lia.
      * rewrite E2. simpl. by rewrite Permutation_middle.
  - destruct (owned !! i) as [pa|] eqn:Hi; [|by apply IH].
    destruct (partition_free s owned free i pa H Hi) as (s1 & R & P).
    destruct (IH _ _ _ P) as (o & f & s2 & R2 & P2 & E2). exists o, f, s2. split; [|split; [done|]].
    + by erewrite kbind_ret by exact R.
    + rewrite E2. transitivity ((pa :: delete i owned) ++ free); [solve_Permutation|].
      by rewrite <- (delete_Permutation owned i pa).
Qed.

(** ** Several pages at once *)

Lemma multiple_alloc_loop_ok n : forall s xs r,
  linked (pm_mem s) (freelist s) xs -> r <> 0 -> (n <= length xs)%nat -> Forall page xs ->
  multiple_alloc_loop n r s = Ret (r, set_freelist (hd 0 (drop n xs)) s).
Proof.
  induction n as [|n IH]; intros s xs r Hl Hr Hn HF; simpl.
  - destruct s as [m l f]. rewrite drop_0. destruct xs as [|x xs]; simpl in *; [by subst|]. by destruct Hl as [-> _].
  - destruct xs as [|x xs]; simpl in Hn; [lia|]. apply Forall_cons in HF as [Hx HF].
    destruct Hl as [Hf Hl]. rewrite (proj2 (Z.eqb_neq r 0)) by done. cbn [negb]. krun. rewrite Hf.
    rewrite (proj2 (Z.eqb_neq x 0)) by (pose proof (page_pos x Hx); lia).
    erewrite kbind_ret by reflexivity. simpl drop.
    rewrite (IH _ xs); [done|exact Hl|done|lia|done].
Qed.

Lemma multiple_alloc_loop_short n : forall s xs r,
  linked (pm_mem s) (freelist s) xs -> r <> 0 -> (length xs < n)%nat -> Forall page xs ->
  multiple_alloc_loop n r s = Fault.
Proof.
  induction n as [|n IH]; intros s xs r Hl Hr Hn HF; [lia|]. simpl.
  rewrite (proj2 (Z.eqb_neq r 0)) by done. cbn [negb]. krun.
  destruct xs as [|x xs].
  - simpl in Hl. by rewrite Hl.
  - destruct Hl as [Hf Hl]. apply Forall_cons in HF as [Hx HF]. rewrite Hf.
    rewrite (proj2 (Z.eqb_neq x 0)) by (pose proof (page_pos x Hx); lia).
    erewrite kbind_ret by reflexivity. apply (IH _ xs); simpl in *; [done|done|lia|done].
Qed.

(** [kpm_multiple_alloc] tests the first free page and not the list it
    walks: with at least one but fewer than [n] pages free it dereferences the
    NULL end of the list instead of returning NULL. *)
Theorem multiple_alloc_out_of_pages_faults s x xs n :
  free_list s (x :: xs) -> Z.of_nat (length (x :: xs)) < n -> kpm_multiple_alloc n s = Fault.
Proof.
  intros [Hl Hp _ Hr] Hn. destruct (locked_acquire s Hr) as (l1 & R1 & E1).
  unfold kpm_multiple_alloc. erewrite kbind_ret by exact R1. krun. unfold kbind at 1.
  erewrite multiple_alloc_loop_short; [done|exact Hl| |lia|done].
  destruct Hl as [E _]. cbn [freelist set_lk]. rewrite E.
  apply Forall_cons in Hp as [Hx _]. pose proof (page_pos x Hx). lia.
Qed.
End Pm.

(** The last two pages of memory, free, seen by hart 0 with interrupts on. *)
Definition demo_page1 : Z := PHYSTOP - 2 * PGSIZE.
Definition demo_page2 : Z := PHYSTOP - PGSIZE.
Definition demo_pm : pmst :=
  mkPm (st64 (fun _ => 0) demo_page1 demo_page2)
       (mkLockst 0 (mkCpu 0 false true) (fun _ => mkSpinlock 0 None)) demo_page1.

Lemma demo_free : free_list KERNBASE demo_pm [demo_page1; demo_page2].
Proof.
  split.
  - split; [done|]. unfold demo_pm. cbn [pm_mem]. rewrite ld64_st64_eq. split; [done|].
    rewrite ld64_st64_other by (unfold demo_page1, demo_page2, PGSIZE, PHYSTOP, KERNBASE; lia). done.
  - repeat constructor; done.
  - apply (bool_decide_unpack _). reflexivity.
  - split; [done|split; done].
Qed.

Lemma client_exclusive_witness :
  exists owned' free' s', client KERNBASE [CAlloc; CAlloc; CFree 0; CAlloc] [] demo_pm = Ret (owned', s') /\
    partition KERNBASE s' owned' free' /\ owned' ++ free' ≡ₚ [] ++ [demo_page1; demo_page2].
Proof.
  apply (client_exclusive KERNBASE); [done|].
  split; [apply demo_free|constructor|apply (bool_decide_unpack _); reflexivity].
Defined.

Lemma multiple_alloc_out_of_pages_faults_witness : kpm_multiple_alloc 3 demo_pm = Fault.
Proof. apply (multiple_alloc_out_of_pages_faults KERNBASE ltac:(done) _ demo_page1 [demo_page2]); [apply demo_free|done]. Defined.
