(* ===== verification/Vm.v ===== *)
(** Sv39 page tables: src/kernel/vm.c and the macros of src/include/riscv.h.

    A page table is a tree of pages of 512 words in physical memory; the state
    is the one of the page allocator, from which [walk] takes new tables. *)
From S2P Require Import Prelude CString Spinlock Pm.

Definition MAXVA : Z := Z.shiftl 1 (9 + 9 + 9 + 12 - 1).
Definition TRAMPOLINE : Z := MAXVA - PGSIZE.
Definition TRAPFRAME : Z := TRAMPOLINE - PGSIZE.
Definition USTACK : Z := TRAPFRAME - PGSIZE.
Definition KSTACK (p : Z) : Z := TRAMPOLINE - (p + 1) * 2 * PGSIZE.

Definition PTE_V : Z := Z.shiftl 1 0.
Definition PTE_R : Z := Z.shiftl 1 1.
Definition PTE_W : Z := Z.shiftl 1 2.
Definition PTE_X : Z := Z.shiftl 1 3.
Definition PTE_U : Z := Z.shiftl 1 4.
Definition SATP_SV39 : Z := Z.shiftl 8 60.
Definition MAKE_SATP (pagetable : Z) : Z := Z.lor SATP_SV39 (Z.shiftr pagetable 12).

Definition SHIFT (level : Z) : Z := 12 + level * 9.
Definition PA2PTE (pa : Z) : Z := u64 (Z.shiftl (Z.shiftr pa 12) 10).
Definition PTE2PA (pte : Z) : Z := u64 (Z.shiftl (Z.shiftr pte 10) 12).
Definition IDX (level va : Z) : Z := Z.land (Z.shiftr va (SHIFT level)) 0x1ff.
Definition PTE_FLAGS (pte : Z) : Z := Z.land pte 0x3ff.

(** [e & flag] as a truth value. *)
Definition has (flag e : Z) : bool := negb (Z.land e flag =? 0).

(** [&pgtble[i]]. *)
Definition slot (pgtble i : Z) : Z := pgtble + 8 * i.

Section Vm.
Context (kend : Z).

(** One level of [walk] at the entry [pte]: the next table, or [None] for its
    [return 0]. *)
Definition walk_step (pte : Z) (alloc : bool) : K pmst (option Z) :=
  e <- load64 pte ;;
  if has PTE_V e then kret (Some (PTE2PA e))
  else if negb alloc then kret None else
  p <- kpmalloc ;;
  if p =? 0 then kret None else
  fill p 0 PGSIZE ;;
  store64 pte (Z.lor (PA2PTE p) PTE_V) ;;
  kret (Some p).

(** The loop of [walk] for the levels [level] down to 1. *)
Fixpoint walk_loop (level : nat) (pgtble va : Z) (alloc : bool) : K pmst (option Z) :=
  match level with
  | O => kret (Some pgtble)
  | S level' =>
      n <- walk_step (slot pgtble (IDX (Z.of_nat level) va)) alloc ;;
      match n with
      | None => kret None
      | Some p => walk_loop level' p va alloc
      end
  end.

Definition walk (pgtble va : Z) (alloc : bool) : K pmst Z :=
  if MAXVA <=? va then kpanic "walk"%string else
  t <- walk_loop 2 pgtble va alloc ;;
  match t with
  | None => kret 0
  | Some t => kret (slot t (IDX 0 va))
  end.

Fixpoint mappages_loop (fuel : nat) (pgtble a end_ pa mode : Z) : K pmst Z :=
  match fuel with
  | O => knofuel
  | S fuel =>
      pte <- walk pgtble a true ;;
      if pte =? 0 then kret (-1) else
      e <- load64 pte ;;
      if has PTE_V e then kpanic "mappages: remap"%string else
      store64 pte (Z.lor (Z.lor (PA2PTE pa) mode) PTE_V) ;;
      if a =? end_ then kret 0 else
      mappages_loop fuel pgtble (u64 (a + PGSIZE)) end_ (u64 (pa + PGSIZE)) mode
  end.

Definition mappages (fuel : nat) (pgtble va pa sz mode : Z) : K pmst Z :=
  if negb (Z.land va (PGSIZE - 1) =? 0) then kpanic "va not aligned"%string else
  if negb (Z.land sz (PGSIZE - 1) =? 0) then kpanic "sz not aligned"%string else
  mappages_loop fuel pgtble va (u64 (va + sz - PGSIZE)) pa mode.

(** [sbi_shutdown] does not return. *)
Definition kvmmap (fuel : nat) (pgtble va pa sz mode : Z) : K pmst unit :=
  r <- mappages fuel pgtble va pa sz mode ;;
  if r <? 0 then kpanic "sbi_shutdown"%string else kret tt.

Definition UART0 : Z := 0x10000000.
Definition VIRTIO0 : Z := 0x10001000.
Definition PLIC : Z := 0x0c000000.

(** [etext] and [trampoline] are linker symbols. *)
Definition kvmmake (fuel : nat) (etext trampoline : Z) : K pmst Z :=
  kpgtbl <- kpmalloc ;;
  fill kpgtbl 0 PGSIZE ;;
  kvmmap fuel kpgtbl UART0 UART0 PGSIZE (Z.lor PTE_R PTE_W) ;;
  kvmmap fuel kpgtbl VIRTIO0 VIRTIO0 PGSIZE (Z.lor PTE_W PTE_R) ;;
  kvmmap fuel kpgtbl PLIC PLIC 0x4000000 (Z.lor PTE_R PTE_W) ;;
  kvmmap fuel kpgtbl KERNBASE KERNBASE (u64 (etext - KERNBASE)) (Z.lor PTE_R PTE_X) ;;
  kvmmap fuel kpgtbl etext etext (u64 (PHYSTOP - etext)) (Z.lor PTE_W PTE_R) ;;
  kvmmap fuel kpgtbl TRAMPOLINE trampoline PGSIZE (Z.lor PTE_R PTE_X) ;;
  kret kpgtbl.

(** [freewalk]; [level] bounds the depth of the recursion. *)
Fixpoint freewalk (level : nat) (pagetable : Z) : K pmst unit :=
  match level with
  | O => knofuel
  | S level =>
      (fix loop (n : nat) (i : Z) : K pmst unit :=
         match n with
         | O => kret tt
         | S n =>
             pte <- load64 (slot pagetable i) ;;
             (if has PTE_V pte && negb (has (Z.lor PTE_R (Z.lor PTE_W PTE_X)) pte) then
                freewalk level (PTE2PA pte) ;;
                store64 (slot pagetable i) 0
              else if has PTE_V pte then kpanic "freewalk: leaf"%string else kret tt) ;;
             loop n (i + 1)
         end) 512%nat 0 ;;
      kpmfree kend pagetable
  end.

Definition move (dst src n : Z) : K pmst unit := kmod (fun s => set_mem (memmove (pm_mem s) dst src n) s).

Fixpoint copyout (fuel : nat) (pagetable dst src len : Z) : K pmst Z :=
  match fuel with
  | O => knofuel
  | S fuel =>
      if len <=? 0 then kret 0 else
      let va0 := PGROUNDDOWN dst in
      if MAXVA <? va0 then kret (-1) else
      pte <- walk pagetable va0 false ;;
      if pte =? 0 then kret (-1) else
      e <- load64 pte ;;
      if negb (has PTE_V e) || negb (has PTE_U e) || negb (has PTE_W e) then kret (-1) else
      let pa0 := PTE2PA e in
      let n := PGSIZE - (dst - va0) in
      let n := if len <? n then len else n in
      move (pa0 + (dst - va0)) src n ;;
      copyout fuel pagetable (u64 (va0 + PGSIZE)) (src + n) (len - n)
  end.

Fixpoint copyin (fuel : nat) (pagetable dst src len : Z) : K pmst Z :=
  match fuel with
  | O => knofuel
  | S fuel =>
      if len <=? 0 then kret 0 else
      let va0 := PGROUNDDOWN src in
      if MAXVA <? va0 then kret (-1) else
      pte <- walk pagetable va0 false ;;
      if pte =? 0 then kret (-1) else
      e <- load64 pte ;;
      if negb (has PTE_V e) || negb (has PTE_U e) then kret (-1) else
      let pa0 := PTE2PA e in
      let n := PGSIZE - (src - va0) in
      let n := if len <? n then len else n in
      move dst (pa0 + (src - va0)) n ;;
      copyin fuel pagetable (dst + n) (u64 (va0 + PGSIZE)) (len - n)
  end.
End Vm.

(** ** Bits of page-table entries *)

Lemma land_low x f : 0 <= f < 1024 -> Z.land x f = Z.land (x mod 1024) f.
Proof.
  intros Hf. apply Z.bits_inj'. intros i Hi. rewrite !Z.land_spec. change 1024 with (2 ^ 10).
  destruct (Z.ltb_spec i 10).
  - by rewrite Z.mod_pow2_bits_low.
  - assert (Hz : Z.testbit f i = false).
    { destruct (Z.eq_dec f 0) as [->|]; [apply Z.bits_0|]. apply Z.bits_above_log2; [lia|].
      apply Z.log2_lt_pow2; [lia|]. eapply Z.lt_le_trans; [apply Hf|]. change 1024 with (2 ^ 10).
      apply Z.pow_le_mono_r; lia. }
    by rewrite Hz, !andb_false_r.
Qed.

Lemma lor_low a f : a mod 1024 = 0 -> 0 <= f < 1024 -> Z.lor a f = a + f.
Proof.
  intros Ha Hf. symmetry. apply Z.add_nocarry_lor. by rewrite land_low, Ha.
Qed.

Lemma PA2PTE_spec pa : 0 <= pa < 2 ^ 56 -> PA2PTE pa = pa / 4096 * 1024.
Proof.
  intros Hp. unfold PA2PTE. rewrite Z.shiftl_mul_pow2, Z.shiftr_div_pow2 by lia.
  change (2 ^ 12) with 4096. change (2 ^ 10) with 1024. apply u64_small. dlia.
Qed.

(** An entry made from a page address and flags. *)
Definition mkpte (pa f : Z) : Z := Z.lor (PA2PTE pa) f.

Lemma mkpte_spec pa f : 0 <= pa < 2 ^ 56 -> 0 <= f < 1024 -> mkpte pa f = pa / 4096 * 1024 + f.
Proof. intros Hp Hf. unfold mkpte. rewrite PA2PTE_spec by done. apply lor_low; [apply Z.mod_mul; lia|done]. Qed.

Lemma mkpte_range pa f : 0 <= pa < 2 ^ 56 -> 0 <= f < 1024 -> 0 <= mkpte pa f < 2 ^ 64.
Proof. intros Hp Hf. rewrite mkpte_spec by done. dlia. Qed.

Lemma mkpte_pa pa f : 0 <= pa < 2 ^ 56 -> pa mod 4096 = 0 -> 0 <= f < 1024 -> PTE2PA (mkpte pa f) = pa.
Proof.
  intros Hp Ha Hf. rewrite mkpte_spec by done. unfold PTE2PA.
  rewrite Z.shiftl_mul_pow2, Z.shiftr_div_pow2 by lia. change (2 ^ 12) with 4096. change (2 ^ 10) with 1024.
  rewrite Z.div_add_l, (Z.div_small f) by lia. rewrite u64_small by dlia. dlia.
Qed.

Lemma mkpte_has fl pa f : 0 <= pa < 2 ^ 56 -> 0 <= fl < 1024 -> 0 <= f < 1024 -> has fl (mkpte pa f) = has fl f.
Proof.
  intros Hp Hfl Hf. unfold has. rewrite mkpte_spec, land_low by done.
  rewrite Z.add_comm, Z.mod_add, Z.mod_small by lia. done.
Qed.

Lemma IDX_spec level va : 0 <= level -> IDX level va = va / 2 ^ (12 + level * 9) mod 512.
Proof.
  intros Hl. unfold IDX, SHIFT. rewrite Z.shiftr_div_pow2 by lia. change 0x1ff with (Z.ones 9).
  rewrite Z.land_ones by lia. done.
Qed.
Lemma IDX_range level va : 0 <= level -> 0 <= IDX level va < 512.
Proof. intros Hl. rewrite IDX_spec by done. apply Z.mod_pos_bound. lia. Qed.

(** The three indices determine the page of a virtual address. They tell twice
    as many addresses apart as [walk] accepts. *)
Lemma IDX_inj va va' : 0 <= va < 2 * MAXVA -> 0 <= va' < 2 * MAXVA ->
  IDX 2 va = IDX 2 va' -> IDX 1 va = IDX 1 va' -> IDX 0 va = IDX 0 va' -> va / PGSIZE = va' / PGSIZE.
Proof.
  change (2 * MAXVA) with (2 ^ 39). rewrite !IDX_spec by lia. unfold PGSIZE. cbn [Z.mul Z.add Z.pow].
  change (2 ^ (12 + 2 * 9)) with (4096 * 262144). change (2 ^ (12 + 1 * 9)) with (4096 * 512).
  change (2 ^ (12 + 0 * 9)) with 4096. change (2 ^ 39) with (4096 * 134217728). intros H H' H2 H1 H0.
  rewrite <- !Z.div_div in H2, H1 by lia.
  assert (0 <= va / 4096 < 134217728) by dlia. assert (0 <= va' / 4096 < 134217728) by dlia.
  set (x := va / 4096) in *. set (y := va' / 4096) in *. clearbody x y. dlia.
Qed.

(** ** The tree of tables *)

Definition idxs : list Z := seqZ 0 512.
Definition entry (m : mem) (t i : Z) : Z := ld64 m (slot t i).
(** The table an entry of [t] points to. *)
Definition ptr_at (m : mem) (t i : Z) : option Z :=
  if has PTE_V (entry m t i) then Some (PTE2PA (entry m t i)) else None.
(** The tables the entries of [t] point to, in order; sealed because no proof
    may unfold the 512 entries. *)
Definition children_aux : seal (fun (m : mem) (t : Z) => omap (ptr_at m t) idxs).
Proof. by eexists. Qed.
Definition children : mem -> Z -> list Z := unseal children_aux.
Lemma children_eq m t : children m t = omap (ptr_at m t) idxs.
Proof. unfold children. by rewrite seal_eq. Qed.
Definition level1 (m : mem) (root : Z) : list Z := children m root.
Definition level0 (m : mem) (root : Z) : list Z := level1 m root ≫= children m.
Definition tables (m : mem) (root : Z) : list Z := root :: level1 m root ++ level0 m root.

(** The last-level table of a virtual address, the address of its entry in it,
    and the entry (0 where there is no table). *)
Definition leaf_table (m : mem) (root va : Z) : option Z :=
  match ptr_at m root (IDX 2 va) with
  | None => None
  | Some t1 => ptr_at m t1 (IDX 1 va)
  end.
Definition leaf_slot (m : mem) (root va : Z) : option Z :=
  match leaf_table m root va with None => None | Some t0 => Some (slot t0 (IDX 0 va)) end.
Definition pte_of (m : mem) (root va : Z) : Z :=
  match leaf_slot m root va with None => 0 | Some a => ld64 m a end.

(** Agreement of two memories on a page. *)
Definition same_page_bytes (m m' : mem) (t : Z) : Prop := forall a, t <= a < t + PGSIZE -> ld8 m' a = ld8 m a.

Lemma elem_of_idxs i : i ∈ idxs <-> 0 <= i < 512.
Proof. unfold idxs. rewrite elem_of_seqZ. lia. Qed.
Lemma idxs_nodup : NoDup idxs.
Proof. apply NoDup_seqZ. Qed.
#[global] Opaque idxs.

Lemma entry_same m m' t i : same_page_bytes m m' t -> 0 <= i < 512 -> entry m' t i = entry m t i.
Proof. intros H Hi. unfold entry, slot. apply ld64_ext. intros x Hx. apply H. unfold PGSIZE. lia. Qed.
Lemma ptr_at_same m m' t i : same_page_bytes m m' t -> 0 <= i < 512 -> ptr_at m' t i = ptr_at m t i.
Proof. intros H Hi. unfold ptr_at. by rewrite (entry_same m m'). Qed.
Lemma children_same m m' t : same_page_bytes m m' t -> children m' t = children m t.
Proof.
  intros H. rewrite !children_eq. apply list_omap_ext, Forall_Forall2_diag, Forall_forall.
  intros i Hi%elem_of_idxs. by apply ptr_at_same.
Qed.

Lemma ptr_at_child m t i c : 0 <= i < 512 -> ptr_at m t i = Some c -> c ∈ children m t.
Proof. intros Hi Hc. rewrite children_eq. apply list_elem_of_omap. exists i. by rewrite elem_of_idxs. Qed.
Lemma child_ptr_at m t c : c ∈ children m t -> exists i, 0 <= i < 512 /\ ptr_at m t i = Some c.
Proof. intros H. rewrite children_eq in H. apply list_elem_of_omap in H as (i & Hi%elem_of_idxs & Hc). eauto. Qed.

Lemma bind_ext {A B} (f g : A -> list B) l : (forall x, x ∈ l -> f x = g x) -> l ≫= f = l ≫= g.
Proof.
  induction l as [|x l IH]; intros H; [done|]. rewrite !bind_cons, (H x) by left.
  f_equal. apply IH. intros y Hy. apply H. by right.
Qed.

Lemma tables_same m m' root :
  (forall t, t ∈ root :: level1 m root -> same_page_bytes m m' t) -> tables m' root = tables m root.
Proof.
  intros H. unfold tables, level0, level1. rewrite (children_same m m' root) by (apply H; left).
  do 2 f_equal. apply bind_ext. intros t Ht. apply children_same, H. by right.
Qed.

(** An index is determined by the child when the children are distinct. *)
Lemma omap_inj {A B} (f : A -> option B) l i j x :
  NoDup (omap f l) -> i ∈ l -> j ∈ l -> f i = Some x -> f j = Some x -> i = j.
Proof.
  induction l as [|y l IH]; intros Hnd Hi Hj Fi Fj; [set_solver|].
  simpl in Hnd. apply elem_of_cons in Hi as [->|Hi], Hj as [->|Hj]; [done| | |].
  - rewrite Fi in Hnd. apply NoDup_cons in Hnd as [Hni _]. destruct Hni. apply list_elem_of_omap. eauto.
  - rewrite Fj in Hnd. apply NoDup_cons in Hnd as [Hni _]. destruct Hni. apply list_elem_of_omap. eauto.
  - apply IH; try done. destruct (f y); [by apply NoDup_cons in Hnd as [_ ?]|done].
Qed.
Lemma bind_inj {A B} (g : A -> list B) l x y z :
  NoDup (l ≫= g) -> x ∈ l -> y ∈ l -> z ∈ g x -> z ∈ g y -> x = y.
Proof.
  induction l as [|w l IH]; intros Hnd Hx Hy Gx Gy; [set_solver|].
  rewrite bind_cons in Hnd. apply NoDup_app in Hnd as (_ & Hd & Hnd).
  apply elem_of_cons in Hx as [->|Hx], Hy as [->|Hy]; [done| | |by apply IH].
  - destruct (Hd z Gx). apply list_elem_of_bind. eauto.
  - destruct (Hd z Gy). apply list_elem_of_bind. eauto.
Qed.
Lemma bind_nodup_part {A B} (g : A -> list B) l x : NoDup (l ≫= g) -> x ∈ l -> NoDup (g x).
Proof.
  induction l as [|w l IH]; intros Hnd Hx; [set_solver|]. rewrite bind_cons in Hnd.
  apply NoDup_app in Hnd as (Hw & _ & Hnd). apply elem_of_cons in Hx as [->|Hx]; auto.
Qed.

(** One more index with an image adds its image. *)
Lemma omap_insert {A B} (f f' : A -> option B) l i x :
  NoDup l -> i ∈ l -> f i = None -> f' i = Some x -> (forall j, j ∈ l -> j <> i -> f' j = f j) ->
  omap f' l ≡ₚ x :: omap f l.
Proof.
  induction l as [|y l IH]; intros Hnd Hi Fi Fi' He; [set_solver|].
  apply NoDup_cons in Hnd as [Hy Hnd]. apply elem_of_cons in Hi as [->|Hi].
  - simpl. rewrite Fi, Fi'. f_equiv. apply reflexive_eq, list_omap_ext, Forall_Forall2_diag, Forall_forall.
    intros j Hj. apply He; [by right|]. by intros ->.
  - assert (IH' := IH Hnd Hi Fi Fi' ltac:(intros; apply He; [by right|done])). simpl.
    rewrite (He y) by (try left; by intros ->). destruct (f y); [|done]. rewrite IH'. apply Permutation_swap.
Qed.
Lemma bind_insert {A B} (g g' : A -> list B) l t x :
  NoDup l -> t ∈ l -> g' t ≡ₚ x :: g t -> (forall u, u ∈ l -> u <> t -> g' u = g u) ->
  l ≫= g' ≡ₚ x :: (l ≫= g).
Proof.
  induction l as [|y l IH]; intros Hnd Hi Ht He; [set_solver|].
  apply NoDup_cons in Hnd as [Hy Hnd]. rewrite !bind_cons. apply elem_of_cons in Hi as [->|Hi].
  - rewrite Ht. simpl. f_equiv. f_equiv. apply reflexive_eq, bind_ext. intros u Hu. apply He; [by right|].
    by intros ->.
  - rewrite (IH Hnd Hi Ht ltac:(intros; apply He; [by right|done])).
    rewrite (He y) by (try left; by intros ->). by rewrite Permutation_middle.
Qed.

Section Tree.
Context (kend : Z) (kend_pos : 0 < kend).
Abbreviation page := (page kend).

Definition PTE_RWX : Z := Z.lor PTE_R (Z.lor PTE_W PTE_X).

(** A well-formed page table: its tables are distinct pages, and an entry that
    points to a table has no permission bits. *)
Record pt_ok (m : mem) (root : Z) : Prop := {
  pt_nodup : NoDup (tables m root);
  pt_pages : Forall page (tables m root);
  pt_inner : forall t i, t ∈ root :: level1 m root -> 0 <= i < 512 ->
    has PTE_V (entry m t i) = true -> has PTE_RWX (entry m t i) = false
}.

Lemma page_bytes x y a : page x -> page y -> x <> y -> x <= a < x + PGSIZE -> y <= a < y + PGSIZE -> False.
Proof. intros [Hx _] [Hy _] Hne H1 H2. destruct (page_disjoint x y Hx Hy Hne); lia. Qed.

Lemma slot_in_page t i : 0 <= i < 512 -> t <= slot t i /\ slot t i + 8 <= t + PGSIZE.
Proof. unfold slot, PGSIZE. lia. Qed.
Lemma slot_eq t t' i i' : page t -> page t' -> 0 <= i < 512 -> 0 <= i' < 512 ->
  slot t i = slot t' i' -> t = t' /\ i = i'.
Proof.
  intros Ht Ht' Hi Hi' E. destruct (Z.eq_dec t t') as [->|Hne].
  - split; [done|]. unfold slot in E. lia.
  - exfalso. pose proof (slot_in_page t i Hi). pose proof (slot_in_page t' i' Hi').
    apply (page_bytes t t' (slot t i)); try done; lia.
Qed.

(** Writing in one page leaves the others alone. *)
Lemma st64_other_page m t t' i v :
  page t -> page t' -> t <> t' -> 0 <= i < 512 -> same_page_bytes m (st64 m (slot t i) v) t'.
Proof.
  intros Ht Ht' Hne Hi a Ha. with_strategy transparent [st64] (unfold st64).
  apply ld8_stn_other. pose proof (slot_in_page t i Hi) as Hs.
  destruct (page_disjoint t t' (proj1 Ht) (proj1 Ht') Hne); change (Z.of_nat 8) with 8; lia.
Qed.
Lemma st64_same_page m t i j v :
  0 <= i < 512 -> 0 <= j < 512 -> entry (st64 m (slot t i) v) t j = if decide (j = i) then u64 v else entry m t j.
Proof.
  intros Hi Hj. unfold entry. destruct (decide (j = i)) as [->|Hne]; [apply ld64_st64_eq|].
  apply ld64_st64_other. unfold slot. lia.
Qed.
Lemma memset_other_page m t t' c :
  page t -> page t' -> t <> t' -> same_page_bytes m (memset m t c PGSIZE) t'.
Proof.
  intros Ht Ht' Hne a Ha. apply memset_out; [done|].
  destruct (page_disjoint t t' (proj1 Ht) (proj1 Ht') Hne); lia.
Qed.
Lemma same_page_trans m1 m2 m3 t : same_page_bytes m1 m2 t -> same_page_bytes m2 m3 t -> same_page_bytes m1 m3 t.
Proof. intros H1 H2 a Ha. by rewrite H2, H1. Qed.

Lemma level1_table m root t : t ∈ level1 m root -> t ∈ tables m root.
Proof. intros H. unfold tables. right. apply elem_of_app. by left. Qed.
Lemma level0_table m root t : t ∈ level0 m root -> t ∈ tables m root.
Proof. intros H. unfold tables. right. apply elem_of_app. by right. Qed.
Lemma root_table m root : root ∈ tables m root.
Proof. left. Qed.
#[local] Hint Resolve level1_table level0_table root_table : core.

Lemma pt_page m root t : pt_ok m root -> t ∈ tables m root -> page t.
Proof. intros [_ H _] Ht. rewrite Forall_forall in H. auto. Qed.

Lemma pt_levels m root : pt_ok m root ->
  (root ∉ level1 m root) /\ (root ∉ level0 m root) /\ NoDup (level1 m root) /\ NoDup (level0 m root) /\
  (forall t, t ∈ level1 m root -> t ∈ level0 m root -> False).
Proof.
  intros [H _ _]. unfold tables in H. apply NoDup_cons in H as [Hr H]. rewrite elem_of_app in Hr.
  apply NoDup_app in H as (H1 & Hd & H0). split_and!; tauto.
Qed.

Lemma leaf_table_path m root va t0 :
  leaf_table m root va = Some t0 <->
  exists t1, ptr_at m root (IDX 2 va) = Some t1 /\ ptr_at m t1 (IDX 1 va) = Some t0.
Proof. unfold leaf_table. destruct (ptr_at m root (IDX 2 va)); naive_solver. Qed.

Lemma leaf_table_levels m root va t0 : leaf_table m root va = Some t0 ->
  exists t1, t1 ∈ level1 m root /\ ptr_at m root (IDX 2 va) = Some t1 /\
    t0 ∈ children m t1 /\ ptr_at m t1 (IDX 1 va) = Some t0 /\ t0 ∈ level0 m root.
Proof.
  intros (t1 & H2 & H1)%leaf_table_path. exists t1.
  assert (Ht1 : t1 ∈ level1 m root) by (eapply ptr_at_child, H2; by apply IDX_range).
  assert (Ht0 : t0 ∈ children m t1) by (eapply ptr_at_child, H1; by apply IDX_range).
  split; [exact Ht1|]. split; [exact H2|]. split; [exact Ht0|]. split; [exact H1|].
  apply list_elem_of_bind. by exists t1.
Qed.

Lemma leaf_slot_some m root va a : leaf_slot m root va = Some a ->
  exists t0, leaf_table m root va = Some t0 /\ a = slot t0 (IDX 0 va) /\ t0 ∈ level0 m root.
Proof.
  unfold leaf_slot. destruct (leaf_table m root va) as [t0|] eqn:E; [|done]. intros [= <-].
  apply leaf_table_levels in E as (? & _ & _ & _ & _ & ?). eauto.
Qed.

(** Different virtual pages have different entries. *)
Lemma leaf_slot_inj m root va va' a :
  pt_ok m root -> 0 <= va < 2 * MAXVA -> 0 <= va' < 2 * MAXVA ->
  leaf_slot m root va = Some a -> leaf_slot m root va' = Some a -> va / PGSIZE = va' / PGSIZE.
Proof.
  intros Hok Hva Hva' Ha Ha'. apply leaf_slot_some in Ha as (t & Et & -> & Ht).
  apply leaf_slot_some in Ha' as (t' & Et' & E & Ht').
  assert (R : forall l v, 0 <= l -> 0 <= IDX l v < 512) by (intros; by apply IDX_range).
  apply slot_eq in E as [<- E0]; [|apply (pt_page m root); auto|apply (pt_page m root); auto|by apply R|by apply R].
  apply leaf_table_levels in Et as (t1 & L1 & P2 & C1 & P1 & _).
  apply leaf_table_levels in Et' as (t1' & L1' & P2' & C1' & P1' & _).
  destruct (pt_levels m root Hok) as (_ & _ & N1 & N0 & _).
  assert (E1 : t1 = t1') by (by eapply (bind_inj (children m))). subst t1'.
  pose proof (bind_nodup_part _ _ _ N0 L1) as N0'. unfold level1 in N1. rewrite children_eq in N1, N0'.
  apply IDX_inj; try done.
  - eapply (omap_inj (ptr_at m root)); [exact N1|..|exact P2|exact P2']; apply elem_of_idxs; by apply R.
  - eapply (omap_inj (ptr_at m t1)); [exact N0'|..|exact P1|exact P1'];
      apply elem_of_idxs; by apply R.
Qed.

Lemma IDX_page va va' level : 0 <= level -> va / PGSIZE = va' / PGSIZE -> IDX level va = IDX level va'.
Proof.
  intros Hl E. rewrite !IDX_spec by done. rewrite Z.pow_add_r by lia. change (2 ^ 12) with PGSIZE.
  rewrite <- !Z.div_div by (unfold PGSIZE; try lia; apply Z.pow_pos_nonneg; lia). by rewrite E.
Qed.
Lemma leaf_slot_page m root va va' : va / PGSIZE = va' / PGSIZE -> leaf_slot m root va = leaf_slot m root va'.
Proof.
  intros E. unfold leaf_slot, leaf_table.
  by rewrite (IDX_page va va' 2), (IDX_page va va' 1), (IDX_page va va' 0) by (done || lia).
Qed.

(** Memories that agree on the tables above the leaves have the same paths. *)
Lemma leaf_slot_same m m' root va :
  (forall t, t ∈ root :: level1 m root -> same_page_bytes m m' t) -> leaf_slot m' root va = leaf_slot m root va.
Proof.
  intros H. unfold leaf_slot, leaf_table.
  rewrite (ptr_at_same m m' root) by (try (by apply IDX_range); apply H; left).
  destruct (ptr_at m root (IDX 2 va)) as [t1|] eqn:E; [|done].
  rewrite (ptr_at_same m m' t1); [done| |by apply IDX_range]. apply H. right.
  eapply ptr_at_child, E. by apply IDX_range.
Qed.
Lemma pte_of_same m m' root va :
  (forall t, t ∈ tables m root -> same_page_bytes m m' t) -> pte_of m' root va = pte_of m root va.
Proof.
  intros H. unfold pte_of. rewrite (leaf_slot_same m m').
  - destruct (leaf_slot m root va) as [a|] eqn:E; [|done].
    apply leaf_slot_some in E as (t0 & _ & -> & Ht). apply (entry_same m m'); [|by apply IDX_range]. auto.
  - intros t Ht. apply H. apply elem_of_cons in Ht as [->|Ht]; auto.
Qed.
Lemma pt_ok_same m m' root :
  (forall t, t ∈ root :: level1 m root -> same_page_bytes m m' t) -> pt_ok m root -> pt_ok m' root.
Proof.
  intros H [N P I]. assert (E := tables_same m m' root H). split; [by rewrite E|by rewrite E|].
  assert (EL : level1 m' root = level1 m root) by (apply children_same, H; left). rewrite EL.
  intros t i Ht Hi. rewrite (entry_same m m') by auto. by apply I.
Qed.

(** Setting the entry of a virtual address. *)
Lemma set_leaf m root va a v :
  pt_ok m root -> 0 <= va < 2 * MAXVA -> leaf_slot m root va = Some a ->
  let m' := st64 m a v in
  pt_ok m' root /\ tables m' root = tables m root /\
  (forall va', leaf_slot m' root va' = leaf_slot m root va') /\
  (forall va', 0 <= va' < 2 * MAXVA ->
     pte_of m' root va' = if decide (va' / PGSIZE = va / PGSIZE) then u64 v else pte_of m root va').
Proof.
  intros Hok Hva Ha m'. destruct (leaf_slot_some _ _ _ _ Ha) as (t0 & Et & Ea & Ht).
  destruct (pt_levels m root Hok) as (_ & R0 & _ & _ & D).
  assert (HS : forall t, t ∈ root :: level1 m root -> same_page_bytes m m' t).
  { intros t Hin. unfold m'. rewrite Ea. apply st64_other_page.
    - apply (pt_page m root); auto.
    - eapply pt_page; [done|]. apply elem_of_cons in Hin as [->|Hin]; auto.
    - intros <-. apply elem_of_cons in Hin as [->|Hin]; eauto.
    - by apply IDX_range. }
  split; [by eapply pt_ok_same|]. split; [by apply tables_same|].
  assert (HL : forall va', leaf_slot m' root va' = leaf_slot m root va') by (intros; by apply leaf_slot_same).
  split; [done|]. intros va' Hva'. unfold pte_of. rewrite HL. case_decide as Hd.
  - rewrite (leaf_slot_page m root va' va Hd), Ha. apply ld64_st64_eq.
  - destruct (leaf_slot m root va') as [b|] eqn:Eb; [|done].
    destruct (leaf_slot_some _ _ _ _ Eb) as (u0 & Eu & Eb' & Hu).
    assert (Hab : b <> a) by (intros ->; apply Hd; symmetry; by eapply leaf_slot_inj).
    apply ld64_st64_other. unfold slot in *.
    pose proof (slot_in_page t0 (IDX 0 va) ltac:(by apply IDX_range)).
    pose proof (slot_in_page u0 (IDX 0 va') ltac:(by apply IDX_range)). unfold slot in *.
    destruct (Z.eq_dec t0 u0) as [<-|Hne]; [lia|].
    destruct (page_disjoint t0 u0); [apply (pt_page m root); auto|apply (pt_page m root); auto|done|lia|lia].
Qed.

(** *** Adding a table

    What [walk] does with a page [x] fresh from [kpmalloc]: fill it, clear it
    and point the free entry [i] of [t] to it. *)
Definition link (m : mem) (x t i : Z) : mem :=
  st64 (memset (memset m x 5 PGSIZE) x 0 PGSIZE) (slot t i) (Z.lor (PA2PTE x) PTE_V).

Lemma page_56 x : page x -> 0 <= x < 2 ^ 56 /\ x mod 4096 = 0.
Proof. intros [Ha Hr]. unfold PGSIZE, PHYSTOP, KERNBASE in *. lia. Qed.

Section Link.
Context (m : mem) (x t i : Z) (Hx : page x) (Ht : page t) (Hne : x <> t) (Hi : 0 <= i < 512).
Let m' := link m x t i.

Lemma link_other p : page p -> p <> x -> p <> t -> same_page_bytes m m' p.
Proof.
  intros Hp H1 H2. eapply same_page_trans; [|apply st64_other_page; auto].
  eapply same_page_trans; apply memset_other_page; auto.
Qed.
Lemma link_bytes a : ~ (x <= a < x + PGSIZE) -> ~ (t <= a < t + PGSIZE) -> ld8 m' a = ld8 m a.
Proof.
  intros H1 H2. unfold m', link. with_strategy transparent [st64] (unfold st64).
  pose proof (slot_in_page t i Hi). rewrite ld8_stn_other by (change (Z.of_nat 8) with 8; lia).
  rewrite !memset_out by (done || lia). done.
Qed.
Lemma link_entry j : 0 <= j < 512 -> entry m' t j = if decide (j = i) then mkpte x PTE_V else entry m t j.
Proof.
  intros Hj. unfold m', link. rewrite st64_same_page by done. case_decide.
  - apply u64_small, mkpte_range; [apply (page_56 x Hx)|done].
  - apply entry_same; [|done]. eapply same_page_trans; apply memset_other_page; auto.
Qed.
Lemma link_fresh j : 0 <= j < 512 -> entry m' x j = 0.
Proof.
  intros Hj. unfold m', link. rewrite (entry_same (memset (memset m x 5 PGSIZE) x 0 PGSIZE));
    [|apply st64_other_page; auto|done].
  unfold entry. pose proof (slot_in_page x j Hj). apply memset_ld64_zero; [done|lia|lia].
Qed.
Lemma link_ptr j : 0 <= j < 512 -> ptr_at m' t j = if decide (j = i) then Some x else ptr_at m t j.
Proof.
  intros Hj. unfold ptr_at. rewrite link_entry by done. case_decide; [|done].
  destruct (page_56 x Hx) as [H56 Ha]. rewrite mkpte_has, mkpte_pa by done. done.
Qed.
Lemma link_fresh_ptr j : 0 <= j < 512 -> ptr_at m' x j = None.
Proof. intros Hj. unfold ptr_at. by rewrite link_fresh. Qed.
Lemma link_fresh_children : children m' x = [].
Proof.
  destruct (children m' x) as [|c cs] eqn:E; [done|].
  destruct (child_ptr_at m' x c) as (j & Hj & Hc); [rewrite E; left|]. by rewrite link_fresh_ptr in Hc.
Qed.
Lemma link_children : ptr_at m t i = None -> children m' t ≡ₚ x :: children m t.
Proof.
  intros Hn. rewrite !children_eq. apply (omap_insert (ptr_at m t) _ idxs i).
  - apply idxs_nodup.
  - by apply elem_of_idxs.
  - done.
  - rewrite link_ptr by done. by rewrite decide_True.
  - intros j Hj%elem_of_idxs Hji. rewrite link_ptr by done. by rewrite decide_False.
Qed.
End Link.

Section LinkTree.
Context (m : mem) (root x t i : Z) (Hok : pt_ok m root) (Hx : page x) (Hni : x ∉ tables m root)
  (Hin : t ∈ root :: level1 m root) (Hi : 0 <= i < 512) (Hn : ptr_at m t i = None).
Let m' := link m x t i.

Lemma link_apart : page root /\ t ∈ tables m root /\ page t /\ x <> t /\ x <> root.
Proof.
  assert (Htt : t ∈ tables m root) by (apply elem_of_cons in Hin as [->|Hin']; auto).
  split_and!; [by apply (pt_page m root)|done|by apply (pt_page m root)|by intros ->|intros ->; apply Hni; auto].
Qed.
Lemma link_tree_other p : p ∈ tables m root -> p <> t -> same_page_bytes m m' p.
Proof.
  destruct link_apart as (_ & _ & ? & ? & _). intros Hp Hpt. apply link_other; try done; [by apply (pt_page m root)|]. by intros ->.
Qed.
Lemma link_tree_children p : p ∈ tables m root -> p <> t -> children m' p = children m p.
Proof. intros Hp Hpt. by apply children_same, link_tree_other. Qed.
Lemma link_level1 : level1 m' root ≡ₚ (if decide (t = root) then x :: level1 m root else level1 m root).
Proof.
  destruct link_apart as (? & _ & _ & ? & ?). unfold level1. case_decide as E.
  - rewrite E in *. unfold m'. rewrite E. by apply link_children.
  - by rewrite link_tree_children by auto.
Qed.
Lemma link_level0 : level0 m' root ≡ₚ (if decide (t = root) then level0 m root else x :: level0 m root).
Proof.
  destruct link_apart as (? & _ & ? & ? & ?). destruct (pt_levels m root Hok) as (R1 & _ & N1 & _ & _).
  unfold level0. rewrite link_level1. case_decide as E.
  - rewrite bind_cons. unfold m'. rewrite link_fresh_children by done. simpl.
    apply reflexive_eq, bind_ext. intros u Hu. apply link_tree_children; [auto|]. intros ->. by rewrite E in Hu.
  - apply (bind_insert _ _ _ t); [done|set_solver|by apply link_children|]. intros u Hu Hut. apply link_tree_children; auto.
Qed.
Lemma link_tables : tables m' root ≡ₚ x :: tables m root.
Proof. unfold tables. rewrite link_level1, link_level0. case_decide; solve_Permutation. Qed.

Lemma link_tree_ok : pt_ok m' root.
Proof.
  destruct link_apart as (? & _ & ? & ? & ?). split; [rewrite link_tables; constructor; [done|apply Hok]|rewrite link_tables; constructor; [done|apply Hok]|].
  intros p j Hp Hj. assert (Hp' : p = x \/ p ∈ root :: level1 m root).
  { apply elem_of_cons in Hp as [->|Hp]; [right; left|]. rewrite link_level1 in Hp.
    case_decide; [apply elem_of_cons in Hp as [?|?]; [by left|right; by right]|right; by right]. }
  destruct Hp' as [->|Hp']; [unfold m'; by rewrite link_fresh|].
  destruct (decide (p = t)) as [->|Hpt].
  - unfold m'. rewrite link_entry by done. destruct (decide (j = i)); [|by apply (pt_inner m root Hok)].
    rewrite !mkpte_has; try done; apply (page_56 x Hx).
  - rewrite (entry_same m m') by first [done|apply link_tree_other; [apply elem_of_cons in Hp' as [->|Hp']; auto|done]].
    by apply (pt_inner m root Hok).
Qed.

(** The last step of a walk, from a table that is not [t]. *)
Lemma link_last t1 va : t1 ∈ level1 m root -> t1 <> t ->
  match ptr_at m' t1 (IDX 1 va) with None => 0 | Some t0 => ld64 m' (slot t0 (IDX 0 va)) end =
  match ptr_at m t1 (IDX 1 va) with None => 0 | Some t0 => ld64 m (slot t0 (IDX 0 va)) end.
Proof.
  intros L1 Hne. assert (I1 := IDX_range 1 va ltac:(done)). assert (I0 := IDX_range 0 va ltac:(done)).
  rewrite (ptr_at_same m m' t1) by first [done|apply link_tree_other; auto].
  destruct (ptr_at m t1 (IDX 1 va)) as [t0|] eqn:P1; [|done]. destruct (pt_levels m root Hok) as (_ & R0 & _ & _ & D).
  assert (L0 : t0 ∈ level0 m root) by (apply list_elem_of_bind; exists t1; split; [by apply (ptr_at_child m t1 (IDX 1 va))|done]).
  apply (entry_same m m'); [apply link_tree_other; [auto|]|done]. intros ->. apply elem_of_cons in Hin as [->|?]; [done|by apply (D t)].
Qed.
Lemma link_pte va : pte_of m' root va = pte_of m root va.
Proof.
  destruct link_apart as (? & _ & ? & ? & ?). destruct (pt_levels m root Hok) as (R1 & R0 & _ & _ & D).
  assert (I2 := IDX_range 2 va ltac:(done)). assert (I1 := IDX_range 1 va ltac:(done)). assert (I0 := IDX_range 0 va ltac:(done)).
  assert (Hcase : pte_of m' root va = match ptr_at m' root (IDX 2 va) with None => 0 | Some t1 =>
      match ptr_at m' t1 (IDX 1 va) with None => 0 | Some t0 => ld64 m' (slot t0 (IDX 0 va)) end end).
  { unfold pte_of, leaf_slot, leaf_table. destruct (ptr_at m' root _) as [t1|]; [|done]. by destruct (ptr_at m' t1 _). }
  rewrite Hcase. clear Hcase. unfold pte_of, leaf_slot, leaf_table.
  destruct (decide (t = root)) as [E|Htr].
  - unfold m' at 1. rewrite E, link_ptr by (done || by rewrite <- E). destruct (decide (IDX 2 va = i)) as [Ei|Ei].
    + rewrite <- E. unfold m'. rewrite link_fresh_ptr by done. by rewrite Ei, Hn.
    + destruct (ptr_at m root (IDX 2 va)) as [t1|] eqn:P2; [|done].
      assert (L1 : t1 ∈ level1 m root) by by apply (ptr_at_child m root (IDX 2 va)).
      rewrite link_last by (done || by intros ->; rewrite E in L1). by destruct (ptr_at m t1 _).
  - assert (Lt : t ∈ level1 m root) by (apply elem_of_cons in Hin as [->|?]; done).
    rewrite (ptr_at_same m m' root) by first [done|apply link_tree_other; [auto|by intros ->]].
    destruct (ptr_at m root (IDX 2 va)) as [t1|] eqn:P2; [|done].
    assert (L1 : t1 ∈ level1 m root) by by apply (ptr_at_child m root (IDX 2 va)).
    destruct (decide (t1 = t)) as [->|Hne]; [|rewrite link_last by done; by destruct (ptr_at m t1 _)].
    unfold m' at 1. rewrite link_ptr by done. destruct (decide (IDX 1 va = i)) as [Ei|Ei].
    + rewrite Ei, Hn. by apply (link_fresh m x t i).
    + destruct (ptr_at m t (IDX 1 va)) as [t0|] eqn:P1; [|done].
      assert (L0 : t0 ∈ level0 m root) by (apply list_elem_of_bind; exists t; split; [by apply (ptr_at_child m t (IDX 1 va))|done]).
      apply (entry_same m m'); [apply link_tree_other; [auto|by intros ->; eauto]|done].
Qed.
End LinkTree.

(** Linking a fresh table into a table above the leaves adds that table and
    changes no translation. *)
Lemma link_pt m root x t i :
  pt_ok m root -> page x -> x ∉ tables m root -> t ∈ root :: level1 m root -> 0 <= i < 512 ->
  ptr_at m t i = None ->
  pt_ok (link m x t i) root /\ tables (link m x t i) root ≡ₚ x :: tables m root /\
  level1 (link m x t i) root ≡ₚ (if decide (t = root) then x :: level1 m root else level1 m root) /\
  (forall va, pte_of (link m x t i) root va = pte_of m root va).
Proof.
  intros Hok Hx Hni Hin Hi Hn. split; [by apply link_tree_ok|]. split; [by apply link_tables|]. split; [by apply link_level1|].
  intros va. by apply link_pte.
Qed.

(** ** [walk] *)

(** The page table at [root] and the free list are well formed and share no page. *)
Record vm_ok (s : pmst) (root : Z) (free : list Z) : Prop := {
  vm_pt : pt_ok (pm_mem s) root;
  vm_free : free_list kend s free;
  vm_disj : NoDup (tables (pm_mem s) root ++ free)
}.

(** From [s] to [s'] the page table took the pages [free] has lost and no
    translation changed; memory outside the tables and the free pages is as
    it was. *)
Record grown (root : Z) (s : pmst) (free : list Z) (s' : pmst) (free' : list Z) : Prop := {
  g_ok : vm_ok s' root free';
  g_used : exists used, free = used ++ free' /\ tables (pm_mem s') root ≡ₚ used ++ tables (pm_mem s) root;
  g_pte : forall va, pte_of (pm_mem s') root va = pte_of (pm_mem s) root va;
  g_ptr : forall t i c, t ∈ root :: level1 (pm_mem s) root -> 0 <= i < 512 ->
    ptr_at (pm_mem s) t i = Some c -> ptr_at (pm_mem s') t i = Some c;
  g_bytes : forall a, (forall t, t ∈ tables (pm_mem s) root ++ free -> ~ (t <= a < t + PGSIZE)) ->
    ld8 (pm_mem s') a = ld8 (pm_mem s) a;
  g_lk : lk_restored (pm_lk s) (pm_lk s')
}.

Lemma grown_perm root s free s' free' :
  grown root s free s' free' -> tables (pm_mem s') root ++ free' ≡ₚ tables (pm_mem s) root ++ free.
Proof. intros [_ (used & -> & ->) _ _ _ _]. solve_Permutation. Qed.

Lemma grown_refl root s free : vm_ok s root free -> grown root s free s free.
Proof. intros H. split; try done. by exists []. Qed.

Lemma grown_trans root s1 f1 s2 f2 s3 f3 :
  grown root s1 f1 s2 f2 -> grown root s2 f2 s3 f3 -> grown root s1 f1 s3 f3.
Proof.
  intros G1 G2. pose proof (grown_perm _ _ _ _ _ G1) as P1.
  destruct G1 as [O1 (u1 & -> & E1) T1 R1 B1 L1], G2 as [O2 (u2 & -> & E2) T2 R2 B2 L2]. split.
  - done.
  - exists (u1 ++ u2). rewrite <- app_assoc. split; [done|]. rewrite E2, E1. solve_Permutation.
  - intros va. by rewrite T2.
  - intros t i c Ht Hi Hc. apply R2; [|done|by apply R1].
    apply elem_of_cons in Ht as [->|Ht]; [left|right].
    destruct (child_ptr_at _ _ _ Ht) as (j & Hj & Hp). apply (ptr_at_child _ _ j); [done|].
    apply R1; [left|done|done].
  - intros a Ha. rewrite B2, B1; [done|done|]. intros t Ht. apply Ha. by rewrite <- P1.
  - by eapply lk_restored_trans.
Qed.

Lemma grown_link root s x free t i l f :
  vm_ok s root (x :: free) -> t ∈ root :: level1 (pm_mem s) root -> 0 <= i < 512 ->
  ptr_at (pm_mem s) t i = None ->
  lk_restored (pm_lk s) l -> free_list kend (mkPm (memset (pm_mem s) x 5 PGSIZE) l f) free ->
  grown root s (x :: free) (mkPm (link (pm_mem s) x t i) l f) free.
Proof.
  intros [Hok Hfl Hd] Hin Hi Hn Hl Hf.
  assert (Hx : page x) by (destruct Hfl as [_ H _ _]; by apply Forall_cons in H as [? _]).
  assert (Hd' : NoDup (x :: tables (pm_mem s) root ++ free)) by (by rewrite Permutation_middle).
  apply NoDup_cons in Hd' as [Hni Hd']. apply not_elem_of_app in Hni as [Hni1 Hni2].
  assert (Htt : t ∈ tables (pm_mem s) root) by (apply elem_of_cons in Hin as [->|Hin]; auto).
  assert (Ht : page t) by (by apply (pt_page (pm_mem s) root)).
  assert (Hxt : x <> t) by (intros ->; exact (Hni1 Htt)).
  destruct (link_pt (pm_mem s) root x t i) as (O & T & _ & V); [exact Hok|exact Hx|exact Hni1|exact Hin|exact Hi|exact Hn|].
  split; cbn [pm_mem pm_lk]; [|exists [x]; split; [done|by rewrite T]|exact V| | |exact Hl].
  - split; cbn [pm_mem]; [exact O| |].
    + destruct Hf as [F1 F2 F3 F4]. cbn [pm_mem pm_lk freelist] in F1, F4.
      assert (F4' : lk_ready l) by exact F4. split; cbn [pm_mem pm_lk freelist]; [|exact F2|exact F3|exact F4'].
      eapply linked_ext; [|exact F1]. intros y Hy. rewrite Forall_forall in F2.
      assert (Hxy : y <> x) by (intros ->; exact (Hni2 Hy)).
      assert (Hty : y <> t) by (intros ->; apply NoDup_app in Hd' as (_ & Hd' & _); exact (Hd' t Htt Hy)).
      apply ld64_ext. intros a Ha. symmetry. rewrite memset_out.
      * symmetry. apply (link_other (pm_mem s) x t i Hx Ht Hi y); auto. unfold PGSIZE. lia.
      * done.
      * destruct (page_disjoint x y (proj1 Hx) (proj1 (F2 y Hy))); [done|unfold PGSIZE in *; lia..].
    + rewrite T, <- app_comm_cons. constructor; [by apply not_elem_of_app|exact Hd'].
  - intros t' j c Ht' Hj Hc. destruct (decide (t' = t)) as [->|Hne].
    + rewrite link_ptr by done. destruct (decide (j = i)) as [->|]; [by rewrite Hn in Hc|done].
    + rewrite (ptr_at_same (pm_mem s)); [done| |done].
      assert (Ht'' : t' ∈ tables (pm_mem s) root) by (apply elem_of_cons in Ht' as [->|Ht']; auto).
      apply link_other; [exact Hx|exact Ht|exact Hi|by apply (pt_page (pm_mem s) root)|intros ->; exact (Hni1 Ht'')|exact Hne].
  - intros a Ha. apply link_bytes; [exact Hxt|exact Hi| |]; apply Ha; apply elem_of_app; [right; left|by left].
Qed.

Lemma walk_step_ok root s free t i :
  vm_ok s root free -> t ∈ root :: level1 (pm_mem s) root -> 0 <= i < 512 ->
  exists s' free', grown root s free s' free' /\ (length free <= 1 + length free')%nat /\
    ((exists c, walk_step (slot t i) true s = Ret (Some c, s') /\ ptr_at (pm_mem s') t i = Some c) \/
     (walk_step (slot t i) true s = Ret (None, s') /\ ptr_at (pm_mem s') t i = None /\ free = [] /\ free' = [])).
Proof.
  intros Hok Hin Hi. unfold walk_step.
  assert (HL : load64 (slot t i) s = Ret (entry (pm_mem s) t i, s)) by done.
  destruct (has PTE_V (entry (pm_mem s) t i)) eqn:HV.
  - exists s, free. split; [by apply grown_refl|]. split; [lia|]. left. exists (PTE2PA (entry (pm_mem s) t i)).
    split; [|unfold ptr_at; by rewrite HV]. erewrite kbind_ret by exact HL. by rewrite HV.
  - assert (Hn : ptr_at (pm_mem s) t i = None) by (unfold ptr_at; by rewrite HV).
    destruct free as [|x free].
    + destruct (kpmalloc_empty kend s (vm_free _ _ _ Hok)) as (l & R & HR & HF).
      exists (set_lk l s), []. split.
      { destruct Hok as [O F D]. split; [by split|by exists []|done| |done|exact HR]. by intros. }
      split; [cbn; lia|]. right. split; [|by split]. erewrite kbind_ret by exact HL. rewrite HV. cbn [negb].
      by erewrite kbind_ret by exact R.
    + destruct (kpmalloc_cons kend kend_pos s x free (vm_free _ _ _ Hok)) as (l & R & HR & HF).
      assert (Hx : page x) by (destruct Hok as [_ [_ H _ _] _]; by apply Forall_cons in H as [? _]).
      eexists _, free. split; [by eapply grown_link|]. split; [cbn; lia|]. left. exists x. split.
      * erewrite kbind_ret by exact HL. rewrite HV. cbn [negb]. erewrite kbind_ret by exact R.
        rewrite (proj2 (Z.eqb_neq x 0)) by (pose proof (page_pos kend kend_pos x Hx); lia).
        do 2 krun. unfold link. reflexivity.
      * cbn [pm_mem]. rewrite link_ptr; [by rewrite decide_True|exact Hx| | |exact Hi|exact Hi].
        -- destruct Hok as [O _ _]. apply (pt_page (pm_mem s) root); [exact O|].
           apply elem_of_cons in Hin as [->|Hin]; auto.
        -- intros ->. destruct Hok as [_ _ D]. apply NoDup_app in D as (_ & D & _). apply (D t); [|left].
           apply elem_of_cons in Hin as [->|Hin]; auto.
Qed.

Lemma walk_alloc_ok root s free va :
  vm_ok s root free -> 0 <= va < MAXVA ->
  exists r s' free', walk root va true s = Ret (r, s') /\ grown root s free s' free' /\ (length free <= 2 + length free')%nat /\
    ((leaf_slot (pm_mem s') root va = Some r /\ r <> 0) \/
     (r = 0 /\ leaf_slot (pm_mem s') root va = None /\ (length free <= 1)%nat /\ free' = [])).
Proof.
  intros Hok Hva. unfold walk. rewrite (proj2 (Z.leb_gt _ _)) by lia. unfold walk_loop.
  change (Z.of_nat 2) with 2. change (Z.of_nat 1) with 1.
  destruct (walk_step_ok root s free root (IDX 2 va) Hok) as (s1 & f1 & G1 & N1 & [(t1 & R1 & P1)|(R1 & P1 & -> & ->)]);
    [left|by apply IDX_range| |].
  - assert (L1 : t1 ∈ level1 (pm_mem s1) root) by (apply (ptr_at_child _ _ (IDX 2 va)); [by apply IDX_range|done]).
    destruct (walk_step_ok root s1 f1 t1 (IDX 1 va) (g_ok _ _ _ _ _ G1)) as (s2 & f2 & G2 & N2 & [(t0 & R2 & P2)|(R2 & P2 & -> & ->)]);
      [by right|by apply IDX_range| |].
    + assert (P1' : ptr_at (pm_mem s2) root (IDX 2 va) = Some t1)
        by (apply (g_ptr _ _ _ _ _ G2); [left|by apply IDX_range|done]).
      assert (LS : leaf_table (pm_mem s2) root va = Some t0) by (apply leaf_table_path; eauto).
      exists (slot t0 (IDX 0 va)), s2, f2. split; [|split; [by eapply grown_trans|split; [lia|left]]].
      * erewrite kbind_ret.
        2:{ erewrite kbind_ret by exact R1. cbv iota. erewrite kbind_ret by exact R2. reflexivity. }
        done.
      * unfold leaf_slot. rewrite LS. split; [done|].
        apply leaf_table_levels in LS as (_ & _ & _ & _ & _ & L0).
        assert (Hp : page t0) by (apply (pt_page (pm_mem s2) root); [apply G2|auto]).
        pose proof (page_pos kend kend_pos t0 Hp). unfold slot. pose proof (IDX_range 0 va ltac:(done)). lia.
    + exists 0, s2, []. split; [|split; [by eapply grown_trans|split; [cbn in *; lia|right]]].
      * erewrite kbind_ret.
        2:{ erewrite kbind_ret by exact R1. cbv iota. erewrite kbind_ret by exact R2. reflexivity. }
        done.
      * split; [done|split; [|by split; [cbn in N1; lia|]]]. unfold leaf_slot, leaf_table.
        assert (P1' : ptr_at (pm_mem s2) root (IDX 2 va) = Some t1)
          by (apply (g_ptr _ _ _ _ _ G2); [left|by apply IDX_range|exact P1]).
        by rewrite P1', P2.
  - exists 0, s1, []. split; [|split; [done|split; [cbn; lia|right]]].
    + erewrite kbind_ret; [|erewrite kbind_ret by exact R1; reflexivity]. done.
    + split; [done|split; [|by split; [cbn; lia|]]]. unfold leaf_slot, leaf_table. by rewrite P1.
Qed.

(** Without allocation [walk] only reads. *)
Lemma walk_read_ok root s va :
  va < MAXVA -> walk root va false s = Ret (default 0 (leaf_slot (pm_mem s) root va), s).
Proof.
  intros Hva. unfold walk. rewrite (proj2 (Z.leb_gt _ _)) by lia. unfold walk_loop, walk_step.
  change (Z.of_nat 2) with 2. change (Z.of_nat 1) with 1. unfold leaf_slot, leaf_table, ptr_at.
  unfold kbind, load64, kget, kret. fold (entry (pm_mem s) root (IDX 2 va)).
  destruct (has PTE_V (entry (pm_mem s) root (IDX 2 va))); [|done]. cbn [negb].
  set (t1 := PTE2PA _). fold (entry (pm_mem s) t1 (IDX 1 va)).
  by destruct (has PTE_V (entry (pm_mem s) t1 (IDX 1 va))).
Qed.
Lemma walk_panic root s va alloc : MAXVA <= va -> walk root va alloc s = Panic "walk".
Proof. intros H. unfold walk. by rewrite (proj2 (Z.leb_le _ _)) by lia. Qed.

(** ** [mappages] *)

Lemma has_V e : has PTE_V e = Z.odd e.
Proof.
  unfold has. change PTE_V with (Z.ones 1). rewrite Z.land_ones by lia. change (2 ^ 1) with 2.
  rewrite Zmod_odd. by destruct (Z.odd e).
Qed.
Lemma odd_lor_V f : Z.odd (Z.lor f PTE_V) = true.
Proof. rewrite <- Z.bit0_odd, Z.lor_spec. apply orb_true_r. Qed.
Lemma lor_1024 a b : 0 <= a < 1024 -> 0 <= b < 1024 -> 0 <= Z.lor a b < 1024.
Proof.
  intros Ha Hb. assert (E : Z.lor a b = Z.lor a b mod 1024).
  { change 1024 with (2 ^ 10). rewrite <- Z.land_ones, Z.land_lor_distr_l, !Z.land_ones by lia.
    rewrite !Z.mod_small by (change (2 ^ 10) with 1024; lia). done. }
  rewrite E. apply Z.mod_pos_bound. lia.
Qed.

(** From [s] to [s'] the page table took the pages [free] has lost and the entry
    of each virtual address became what [f] says. *)
Record remapped (root : Z) (f : Z -> Z) (s : pmst) (free : list Z) (s' : pmst) (free' : list Z) : Prop := {
  r_ok : vm_ok s' root free';
  r_used : exists used, free = used ++ free' /\ tables (pm_mem s') root ≡ₚ used ++ tables (pm_mem s) root;
  r_pte : forall va, 0 <= va < 2 * MAXVA -> pte_of (pm_mem s') root va = f va;
  r_bytes : forall a, (forall t, t ∈ tables (pm_mem s) root ++ free -> ~ (t <= a < t + PGSIZE)) ->
    ld8 (pm_mem s') a = ld8 (pm_mem s) a;
  r_lk : lk_restored (pm_lk s) (pm_lk s')
}.

Lemma remapped_perm root f s free s' free' :
  remapped root f s free s' free' -> tables (pm_mem s') root ++ free' ≡ₚ tables (pm_mem s) root ++ free.
Proof. intros [_ (used & -> & ->) _ _ _]. solve_Permutation. Qed.

Lemma remapped_ext root f g s free s' free' :
  (forall va, 0 <= va < 2 * MAXVA -> f va = g va) -> remapped root f s free s' free' -> remapped root g s free s' free'.
Proof. intros H [O U P B L]. split; [exact O|exact U|intros va Hva; by rewrite P, H|exact B|exact L]. Qed.

Lemma remapped_trans root f g s1 f1 s2 f2 s3 f3 :
  remapped root f s1 f1 s2 f2 -> remapped root g s2 f2 s3 f3 -> remapped root g s1 f1 s3 f3.
Proof.
  intros R1 R2. pose proof (remapped_perm _ _ _ _ _ _ R1) as P1.
  destruct R1 as [O1 (u1 & -> & E1) T1 B1 L1], R2 as [O2 (u2 & -> & E2) T2 B2 L2]. split.
  - exact O2.
  - exists (u1 ++ u2). rewrite <- app_assoc. split; [done|]. rewrite E2, E1. solve_Permutation.
  - exact T2.
  - intros a Ha. rewrite B2, B1; [done|done|]. intros t Ht. apply Ha. by rewrite <- P1.
  - by eapply lk_restored_trans.
Qed.

Lemma grown_remapped root s free s' free' :
  grown root s free s' free' -> remapped root (pte_of (pm_mem s) root) s free s' free'.
Proof. intros [O U P _ B L]. split; [exact O|exact U|intros va _; apply P|exact B|exact L]. Qed.

(** The word an aligned leaf entry is written to does not belong to a free page. *)
Lemma vm_set_leaf root s free va a v :
  vm_ok s root free -> 0 <= va < 2 * MAXVA -> leaf_slot (pm_mem s) root va = Some a ->
  remapped root (fun x => if decide (x / PGSIZE = va / PGSIZE) then u64 v else pte_of (pm_mem s) root x)
    s free (set_mem (st64 (pm_mem s) a v) s) free.
Proof.
  intros [O F D] Hva Ha. destruct (set_leaf _ _ _ _ v O Hva Ha) as (O' & T' & _ & P').
  destruct (leaf_slot_some _ _ _ _ Ha) as (t0 & _ & -> & L0).
  assert (Hp : page t0) by (apply (pt_page (pm_mem s) root); auto).
  split; cbn [pm_mem pm_lk set_mem].
  - split; cbn [pm_mem set_mem]; [exact O'| |by rewrite T'].
    destruct F as [F1 F2 F3 F4]. split; cbn [pm_mem set_mem freelist pm_lk]; [|exact F2|exact F3|exact F4].
    eapply linked_ext; [|exact F1]. intros x Hx. rewrite Forall_forall in F2. apply ld64_ext. intros b Hb.
    apply (st64_other_page _ t0 x); [exact Hp|by apply F2| |by apply IDX_range|unfold PGSIZE; lia].
    intros <-. apply NoDup_app in D as (_ & D & _). apply (D t0); auto.
  - exists []. split; [done|by rewrite T'].
  - exact P'.
  - intros b Hb. with_strategy transparent [st64] (unfold st64).
    pose proof (slot_in_page t0 (IDX 0 va) ltac:(by apply IDX_range)).
    specialize (Hb t0 ltac:(apply elem_of_app; auto)).
    apply ld8_stn_other. change (Z.of_nat 8) with 8. lia.
  - apply lk_restored_refl.
Qed.

(** The entries of [n] pages from [a] set to the frames from [pa]. *)
Definition map_range (a pa n flags : Z) (f : Z -> Z) (va : Z) : Z :=
  if (a <=? va) && (va <? a + n * PGSIZE) then mkpte (pa + (va - a) / PGSIZE * PGSIZE) flags else f va.

Lemma map_range_step a pa n flags f va :
  a mod PGSIZE = 0 -> 0 <= n -> 
  map_range (a + PGSIZE) (pa + PGSIZE) n flags (map_range a pa 1 flags f) va = map_range a pa (n + 1) flags f va.
Proof.
  intros Ha Hn. unfold map_range. unfold PGSIZE in *.
  destruct (Z.leb_spec (a + 4096) va), (Z.ltb_spec va (a + 4096 + n * 4096)), (Z.leb_spec a va),
    (Z.ltb_spec va (a + 1 * 4096)), (Z.ltb_spec va (a + (n + 1) * 4096)); simpl; try lia; try done.
  f_equal. replace (va - a) with ((va - (a + 4096)) + 1 * 4096) by lia. rewrite Z.div_add by lia. lia.
Qed.

Lemma page_of_aligned a va : a mod PGSIZE = 0 -> va / PGSIZE = a / PGSIZE <-> a <= va < a + PGSIZE.
Proof. unfold PGSIZE. intros Ha. dlia. Qed.

Lemma map_range_one a pa flags f va :
  a mod PGSIZE = 0 -> pa mod PGSIZE = 0 ->
  (if decide (va / PGSIZE = a / PGSIZE) then mkpte pa flags else f va) = map_range a pa 1 flags f va.
Proof.
  intros Ha Hp. unfold map_range. case_decide as H; rewrite page_of_aligned in H by done.
  - rewrite (proj2 (Z.leb_le _ _)), (proj2 (Z.ltb_lt _ _)) by lia. cbn [andb].
    f_equal. unfold PGSIZE in *. dlia.
  - destruct (Z.leb_spec a va), (Z.ltb_spec va (a + 1 * PGSIZE)); simpl; try done. lia.
Qed.
Lemma map_range_zero a pa flags f va : map_range a pa 0 flags f va = f va.
Proof. unfold map_range. destruct (Z.leb_spec a va), (Z.ltb_spec va (a + 0 * PGSIZE)); simpl; try done. lia. Qed.

(** One page: a walk that finds or makes the entry, and the write. *)
Lemma map_one s free root a pa mode :
  vm_ok s root free -> a mod PGSIZE = 0 -> 0 <= a < MAXVA -> pa mod PGSIZE = 0 -> 0 <= pa < 2 ^ 56 ->
  0 <= mode < 1024 -> has PTE_V (pte_of (pm_mem s) root a) = false ->
  (exists slot s1 s2 f1, slot <> 0 /\ walk root a true s = Ret (slot, s1) /\
     has PTE_V (ld64 (pm_mem s1) slot) = false /\
     s2 = set_mem (st64 (pm_mem s1) slot (Z.lor (Z.lor (PA2PTE pa) mode) PTE_V)) s1 /\
     remapped root (map_range a pa 1 (Z.lor mode PTE_V) (pte_of (pm_mem s) root)) s free s2 f1 /\ (length free <= 2 + length f1)%nat) \/
  (exists s1, walk root a true s = Ret (0, s1) /\ (length free <= 1)%nat /\
     remapped root (map_range a pa 0 (Z.lor mode PTE_V) (pte_of (pm_mem s) root)) s free s1 []).
Proof.
  intros Hok Ha Hva Hp Hp56 Hm Hun.
  destruct (walk_alloc_ok root s free a Hok Hva) as (sl & s1 & f1 & R & G & N & [[HL H0]|(-> & _ & N' & ->)]).
  - left. exists sl, s1. eexists _, f1. split; [done|]. split; [exact R|]. split; [|split; [reflexivity|]].
    + rewrite <- (g_pte _ _ _ _ _ G) in Hun. unfold pte_of in Hun. by rewrite HL in Hun.
    + split; [|exact N]. eapply remapped_trans; [exact (grown_remapped _ _ _ _ _ G)|].
      eapply remapped_ext; [|apply (vm_set_leaf root s1 f1 a sl _ (g_ok _ _ _ _ _ G) ltac:(lia) HL)].
      intros va _. cbn beta. rewrite <- Z.lor_assoc. fold (mkpte pa (Z.lor mode PTE_V)).
      rewrite u64_small by (apply mkpte_range; [done|by apply lor_1024]).
      rewrite <- map_range_one by done. by rewrite (g_pte _ _ _ _ _ G).
  - right. exists s1. split; [exact R|]. split; [exact N'|]. eapply remapped_ext; [|exact (grown_remapped _ _ _ _ _ G)].
    intros va _. by rewrite map_range_zero.
Qed.

Lemma mappages_loop_ok fuel : forall n s free root a pa mode,
  vm_ok s root free -> a mod PGSIZE = 0 -> 0 <= a -> a + Z.of_nat (S n) * PGSIZE <= MAXVA ->
  pa mod PGSIZE = 0 -> 0 <= pa -> pa + Z.of_nat (S n) * PGSIZE <= 2 ^ 56 -> 0 <= mode < 1024 ->
  (forall va, a <= va < a + Z.of_nat (S n) * PGSIZE -> has PTE_V (pte_of (pm_mem s) root va) = false) ->
  (n < fuel)%nat ->
  exists k r s' free', mappages_loop fuel root a (a + Z.of_nat n * PGSIZE) pa mode s = Ret (r, s') /\
    remapped root (map_range a pa k (Z.lor mode PTE_V) (pte_of (pm_mem s) root)) s free s' free' /\
    ((r = 0 /\ k = Z.of_nat (S n)) \/ (r = -1 /\ 0 <= k < Z.of_nat (S n) /\ free' = [])).
Proof.
  induction fuel as [|fuel IH]; intros n s free root a pa mode Hok Ha Ha0 HaM Hp Hp0 HpM Hm Hun Hf; [lia|].
  cbn [mappages_loop].
  assert (HaV : 0 <= a < MAXVA) by (unfold PGSIZE in *; lia).
  assert (Hp56 : 0 <= pa < 2 ^ 56) by (unfold PGSIZE in *; lia).
  destruct (map_one s free root a pa mode Hok Ha HaV Hp Hp56 Hm) as
    [(sl & s1 & s2 & f1 & Hsl & R & HV & Es2 & RM & _)|(s1 & R & _ & RM)]; [apply Hun; unfold PGSIZE; lia| |].
  - assert (Run : forall k : K pmst Z, (e <- load64 sl ;; if has PTE_V e then kpanic "mappages: remap"%string else
        store64 sl (Z.lor (Z.lor (PA2PTE pa) mode) PTE_V) ;; k) s1 = k s2).
    { intros k. unfold load64 at 1. krun. rewrite HV. unfold store64 at 1. krun. by rewrite Es2. }
    destruct n as [|n].
    + exists 1, 0, s2, f1. split; [|split; [exact RM|by left]].
      erewrite kbind_ret by exact R. rewrite (proj2 (Z.eqb_neq sl 0)) by done. rewrite Run.
      by rewrite Z.mul_0_l, Z.add_0_r, Z.eqb_refl.
    + destruct (IH n s2 f1 root (a + PGSIZE) (pa + PGSIZE) mode (r_ok _ _ _ _ _ _ RM))
        as (k & r & s3 & f3 & R3 & RM3 & Hr); try (unfold PGSIZE in *; dlia).
      { intros va Hva. rewrite (r_pte _ _ _ _ _ _ RM) by (unfold PGSIZE in *; lia).
        unfold map_range. rewrite (proj2 (Z.ltb_ge va _)) by (unfold PGSIZE in *; lia). rewrite andb_false_r.
        apply Hun. unfold PGSIZE in *. lia. }
      exists (k + 1), r, s3, f3. split; [|split].
      * erewrite kbind_ret by exact R. rewrite (proj2 (Z.eqb_neq sl 0)) by done. rewrite Run.
        rewrite (proj2 (Z.eqb_neq a _)) by (unfold PGSIZE; lia).
        rewrite !u64_small by (change MAXVA with (2 ^ 38) in *; unfold PGSIZE in *; lia).
        replace (a + Z.of_nat (S n) * PGSIZE) with (a + PGSIZE + Z.of_nat n * PGSIZE) by lia. exact R3.
      * eapply remapped_trans; [exact RM|]. eapply remapped_ext; [|exact RM3]. intros va Hva. cbn beta.
        rewrite <- map_range_step by (done || lia). unfold map_range at 1 3.
        by rewrite (r_pte _ _ _ _ _ _ RM) by done.
      * destruct Hr as [[-> ->]|(-> & Hk & ->)]; [left|right]; split; try split; try done; lia.
  - exists 0, (-1), s1, []. split; [|split; [exact RM|right; split; [done|split; [lia|done]]]].
    erewrite kbind_ret by exact R. done.
Qed.

Lemma land_page_zero x : (Z.land x (PGSIZE - 1) =? 0) = (x mod PGSIZE =? 0).
Proof. change (PGSIZE - 1) with (Z.ones 12). rewrite Z.land_ones by lia. done. Qed.

(** [mappages] maps a page-aligned range onto consecutive frames: it ends
    within as many steps as there are pages; when it returns 0 every page of
    the range has the entry made of its frame, the mode and the valid bit; it
    returns -1 only when no page is left for a table, and then the pages before
    the one that failed are mapped. In both cases every other virtual address
    keeps its entry, the tree stays well formed, the tables it took are exactly
    the pages the free list lost, and no byte outside tables and free pages
    changes. *)
Theorem mappages_maps fuel s free root va pa sz mode :
  vm_ok s root free -> va mod PGSIZE = 0 -> 0 <= va -> sz mod PGSIZE = 0 -> 0 < sz -> va + sz <= MAXVA ->
  pa mod PGSIZE = 0 -> 0 <= pa -> pa + sz <= 2 ^ 56 -> 0 <= mode < 1024 ->
  (forall x, va <= x < va + sz -> has PTE_V (pte_of (pm_mem s) root x) = false) ->
  sz / PGSIZE <= Z.of_nat fuel ->
  exists k r s' free', mappages fuel root va pa sz mode s = Ret (r, s') /\
    remapped root (map_range va pa k (Z.lor mode PTE_V) (pte_of (pm_mem s) root)) s free s' free' /\
    ((r = 0 /\ k = sz / PGSIZE) \/ (r = -1 /\ 0 <= k < sz / PGSIZE /\ free' = [])).
Proof.
  intros Hok Hva Hva0 Hsz Hsz0 HM Hpa Hpa0 Hpa56 Hm Hun Hf.
  assert (Hn : sz = Z.of_nat (S (Z.to_nat (sz / PGSIZE - 1))) * PGSIZE) by (unfold PGSIZE in *; dlia).
  set (n := Z.to_nat (sz / PGSIZE - 1)) in *.
  assert (Hq : sz / PGSIZE = Z.of_nat (S n)) by (rewrite Hn; apply Z.div_mul; done).
  unfold mappages. rewrite !land_page_zero, Hva, Hsz. cbn [Z.eqb negb].
  replace (u64 (va + sz - PGSIZE)) with (va + Z.of_nat n * PGSIZE).
  2:{ rewrite u64_small; [lia|]. change MAXVA with (2 ^ 38) in HM. unfold PGSIZE in *. lia. }
  rewrite Hq in *. rewrite Hn in HM, Hpa56, Hun.
  apply mappages_loop_ok; try done. lia.
Qed.

Lemma mappages_misaligned_va fuel root va pa sz mode s :
  va mod PGSIZE <> 0 -> mappages fuel root va pa sz mode s = Panic "va not aligned".
Proof. intros H. unfold mappages. by rewrite land_page_zero, (proj2 (Z.eqb_neq _ 0)). Qed.

(** Mapping over a mapped page panics. *)
Lemma mappages_remap_panics fuel root va pa sz mode s free :
  vm_ok s root free -> va mod PGSIZE = 0 -> 0 <= va < MAXVA -> sz mod PGSIZE = 0 ->
  has PTE_V (pte_of (pm_mem s) root va) = true -> mappages (S fuel) root va pa sz mode s = Panic "mappages: remap".
Proof.
  intros Hok Hva HM Hsz HV. unfold mappages. rewrite !land_page_zero, Hva, Hsz. cbn [Z.eqb negb mappages_loop].
  destruct (walk_alloc_ok root s free va Hok HM) as (sl & s1 & f1 & R & G & _ & H).
  rewrite <- (g_pte _ _ _ _ _ G) in HV. unfold pte_of in HV.
  destruct H as [[HL H0]|(-> & HN & _)]; [|by rewrite HN in HV]. rewrite HL in HV.
  erewrite kbind_ret by exact R. rewrite (proj2 (Z.eqb_neq sl 0)) by done.
  unfold load64 at 1. krun. by rewrite HV.
Qed.

(** ** An empty page table *)

Lemma pt_empty m root :
  page root -> (forall i, 0 <= i < 512 -> entry m root i = 0) ->
  pt_ok m root /\ tables m root = [root] /\ forall va, pte_of m root va = 0.
Proof.
  intros Hp He. assert (HC : children m root = []).
  { destruct (children m root) as [|c cs] eqn:E; [done|].
    destruct (child_ptr_at m root c) as (j & Hj & Hc); [rewrite E; left|].
    unfold ptr_at in Hc. by rewrite He in Hc. }
  assert (HT : tables m root = [root]) by (unfold tables, level0, level1; by rewrite HC).
  split; [split|split; [done|]].
  - rewrite HT. apply NoDup_singleton.
  - rewrite HT. by constructor.
  - unfold level1. rewrite HC. intros t i ->%list_elem_of_singleton Hi. by rewrite He.
  - intros va. unfold pte_of, leaf_slot, leaf_table, ptr_at. rewrite He by by apply IDX_range. done.
Qed.
End Tree.

(** A cleared root table in front of the two free pages of [demo_pm]. *)
Definition demo_root : Z := PHYSTOP - 3 * PGSIZE.
Lemma demo_entries i : 0 <= i < 512 -> entry (pm_mem demo_pm) demo_root i = 0.
Proof.
  intros Hi. unfold entry, demo_pm, demo_root, slot. cbn [pm_mem].
  rewrite ld64_st64_other; [reflexivity|]. unfold demo_page1, PHYSTOP, KERNBASE, PGSIZE. lia.
Qed.
Lemma demo_vm_ok : vm_ok KERNBASE demo_pm demo_root [demo_page1; demo_page2].
Proof.
  destruct (pt_empty KERNBASE (pm_mem demo_pm) demo_root) as (O & T & _); [done|apply demo_entries|].
  split; [exact O|apply demo_free|rewrite T; apply (bool_decide_unpack _); reflexivity].
Qed.
Lemma demo_unmapped va : pte_of (pm_mem demo_pm) demo_root va = 0.
Proof. apply (pt_empty KERNBASE (pm_mem demo_pm) demo_root); [done|apply demo_entries]. Qed.

(** The two free pages are enough for the tables of one page at 0x1000. *)
Lemma mappages_maps_witness :
  exists k r s' free', mappages 1 demo_root 0x1000 0x80300000 PGSIZE (Z.lor PTE_R PTE_U) demo_pm = Ret (r, s') /\
    remapped KERNBASE demo_root
      (map_range 0x1000 0x80300000 k (Z.lor (Z.lor PTE_R PTE_U) PTE_V) (pte_of (pm_mem demo_pm) demo_root))
      demo_pm [demo_page1; demo_page2] s' free' /\
    ((r = 0 /\ k = PGSIZE / PGSIZE) \/ (r = -1 /\ 0 <= k < PGSIZE / PGSIZE /\ free' = [])).
Proof.
  apply (mappages_maps KERNBASE ltac:(done)); try done.
  - apply demo_vm_ok.
  - intros x _. by rewrite demo_unmapped.
Defined.

(** ** Copying between the kernel and user memory *)

Section Copy.
Context (kend : Z) (kend_pos : 0 < kend).

(** The physical address of a user address. *)
Definition uaddr (m : mem) (root va : Z) : Z := PTE2PA (pte_of m root va) + va mod PGSIZE.
Definition readable (m : mem) (root va : Z) : bool :=
  has PTE_V (pte_of m root va) && has PTE_U (pte_of m root va).
Definition writable (m : mem) (root va : Z) : bool := readable m root va && has PTE_W (pte_of m root va).

(** Addresses outside the tables of [root]. *)
Definition off_tables (m : mem) (root a : Z) : Prop := forall t, t ∈ tables m root -> ~ (t <= a < t + PGSIZE).

Lemma pte_of_page m root va va' : va / PGSIZE = va' / PGSIZE -> pte_of m root va = pte_of m root va'.
Proof. intros E. unfold pte_of. by rewrite (leaf_slot_page m root va va'). Qed.

(** Changing only bytes outside the tables keeps the page table. *)
Lemma off_tables_same m m' root :
  pt_ok kend m root -> (forall a, ~ off_tables m root a -> ld8 m' a = ld8 m a) ->
  pt_ok kend m' root /\ tables m' root = tables m root /\ forall va, pte_of m' root va = pte_of m root va.
Proof.
  intros Hok He.
  assert (HS : forall t, t ∈ tables m root -> same_page_bytes m m' t).
  { intros t Ht a Ha. apply He. intros Hoff. by apply (Hoff t Ht). }
  assert (HS1 : forall t, t ∈ root :: level1 m root -> same_page_bytes m m' t).
  { intros t Ht. apply HS. apply elem_of_cons in Ht as [->|Ht]; [left|by apply level1_table]. }
  split; [by eapply pt_ok_same|]. split; [by apply tables_same|]. intros va. by apply pte_of_same.
Qed.

(** The walk of one iteration finds the entry of the page of [va]. *)
Lemma walk_entry root s va :
  pt_ok kend (pm_mem s) root -> 0 <= va < MAXVA ->
  exists r, walk root (PGROUNDDOWN va) false s = Ret (r, s) /\
    ((r = 0 /\ pte_of (pm_mem s) root va = 0) \/ (r <> 0 /\ ld64 (pm_mem s) r = pte_of (pm_mem s) root va)).
Proof.
  intros Hok Hva. assert (Hd : PGROUNDDOWN va = va / PGSIZE * PGSIZE)
    by (apply PGROUNDDOWN_spec; change MAXVA with (2 ^ 38) in Hva; lia).
  assert (Hp : PGROUNDDOWN va / PGSIZE = va / PGSIZE) by (rewrite Hd; by apply Z.div_mul).
  assert (HM : PGROUNDDOWN va < MAXVA) by (rewrite Hd; unfold PGSIZE; dlia).
  eexists. split; [by apply walk_read_ok|]. rewrite (leaf_slot_page _ _ _ _ Hp). unfold pte_of.
  destruct (leaf_slot (pm_mem s) root va) as [a|] eqn:E; [right|by left]. split; [|done].
  change (a <> 0). apply leaf_slot_some in E as (t & _ & -> & Ht).
  assert (Hpg : page kend t) by (apply (pt_page kend (pm_mem s) root); [done|by apply level0_table]).
  pose proof (page_pos kend kend_pos t Hpg). pose proof (IDX_range 0 va ltac:(done)).
  unfold slot. lia.
Qed.

(** The bytes of one iteration: the part of [len] bytes that lies in the page of [va]. *)
Lemma page_part va len :
  0 <= va < MAXVA -> 0 < len ->
  let n := (let n := PGSIZE - (va - PGROUNDDOWN va) in if len <? n then len else n) in
  0 < n <= PGSIZE /\ n <= len /\ (forall i, 0 <= i < n -> (va + i) / PGSIZE = va / PGSIZE) /\
  (forall i, 0 <= i < n -> (va + i) mod PGSIZE = va - PGROUNDDOWN va + i) /\
  (n < len -> PGROUNDDOWN va + PGSIZE = va + n) /\ (va + len <= MAXVA -> u64 (PGROUNDDOWN va + PGSIZE) = PGROUNDDOWN va + PGSIZE).
Proof.
  intros Hva Hl n. unfold n. clear n. rewrite PGROUNDDOWN_spec by (change MAXVA with (2 ^ 38) in Hva; lia).
  assert (Hm : va - va / PGSIZE * PGSIZE = va mod PGSIZE) by (unfold PGSIZE; dlia). rewrite Hm.
  assert (Hr : 0 <= va mod PGSIZE < PGSIZE) by (apply Z.mod_pos_bound; done).
  destruct (Z.ltb_spec len (PGSIZE - va mod PGSIZE)); split_and!; try lia;
    try (intros i Hi; unfold PGSIZE in *; dlia);
    intros _; apply u64_small; change MAXVA with (2 ^ 38) in *; unfold PGSIZE in *; dlia.
Qed.

(** The number of bytes one iteration copies. *)
Definition part (va len : Z) : Z := let n := PGSIZE - (va - PGROUNDDOWN va) in if len <? n then len else n.

(** One iteration of [copyin]. *)
Lemma copyin_page fuel root dst src len s :
  pt_ok kend (pm_mem s) root -> 0 <= src < MAXVA -> 0 < len ->
  copyin (S fuel) root dst src len s =
  if readable (pm_mem s) root src
  then copyin fuel root (dst + part src len) (u64 (PGROUNDDOWN src + PGSIZE)) (len - part src len)
         (set_mem (memmove (pm_mem s) dst (uaddr (pm_mem s) root src) (part src len)) s)
  else Ret (-1, s).
Proof.
  intros Hok Hs Hl. destruct (page_part src len Hs Hl) as (Hn & _ & _ & Hmod & _). cbn zeta in Hn, Hmod.
  fold (part src len) in Hn, Hmod. specialize (Hmod 0 ltac:(lia)). rewrite !Z.add_0_r in Hmod.
  pose proof (Z.mod_pos_bound src PGSIZE ltac:(done)) as Hb.
  cbn [copyin]. rewrite (proj2 (Z.leb_gt len 0)), (proj2 (Z.ltb_ge MAXVA _)) by lia.
  destruct (walk_entry root s src Hok Hs) as (r & R & [[-> H0]|[Hr HE]]); erewrite kbind_ret by exact R.
  - unfold readable. by rewrite H0.
  - rewrite (proj2 (Z.eqb_neq r 0)) by done. unfold load64. krun. rewrite HE. unfold readable.
    rewrite <- negb_andb. destruct (has PTE_V _ && has PTE_U _); [|done]. cbn [negb].
    unfold move. krun. unfold uaddr. rewrite Hmod. done.
Qed.

(** One iteration of [copyout]. *)
Lemma copyout_page fuel root dst src len s :
  pt_ok kend (pm_mem s) root -> 0 <= dst < MAXVA -> 0 < len ->
  copyout (S fuel) root dst src len s =
  if writable (pm_mem s) root dst
  then copyout fuel root (u64 (PGROUNDDOWN dst + PGSIZE)) (src + part dst len) (len - part dst len)
         (set_mem (memmove (pm_mem s) (uaddr (pm_mem s) root dst) src (part dst len)) s)
  else Ret (-1, s).
Proof.
  intros Hok Hs Hl. destruct (page_part dst len Hs Hl) as (Hn & _ & _ & Hmod & _). cbn zeta in Hn, Hmod.
  fold (part dst len) in Hn, Hmod. specialize (Hmod 0 ltac:(lia)). rewrite !Z.add_0_r in Hmod.
  pose proof (Z.mod_pos_bound dst PGSIZE ltac:(done)) as Hb.
  cbn [copyout]. rewrite (proj2 (Z.leb_gt len 0)), (proj2 (Z.ltb_ge MAXVA _)) by lia.
  destruct (walk_entry root s dst Hok Hs) as (r & R & [[-> H0]|[Hr HE]]); erewrite kbind_ret by exact R.
  - unfold writable, readable. by rewrite H0.
  - rewrite (proj2 (Z.eqb_neq r 0)) by done. unfold load64. krun. rewrite HE. unfold writable, readable.
    rewrite <- !negb_andb. destruct (has PTE_V _ && has PTE_U _ && has PTE_W _); [|done]. cbn [negb].
    unfold move. krun. unfold uaddr. rewrite Hmod. done.
Qed.

Lemma part_spec va len :
  0 <= va < MAXVA -> 0 < len ->
  0 < part va len <= PGSIZE /\ part va len <= len /\
  (forall m root i, 0 <= i < part va len -> readable m root (va + i) = readable m root va /\
     writable m root (va + i) = writable m root va /\ uaddr m root (va + i) = uaddr m root va + i) /\
  (part va len < len -> va + len <= MAXVA -> u64 (PGROUNDDOWN va + PGSIZE) = va + part va len).
Proof.
  intros Hva Hl. destruct (page_part va len Hva Hl) as (Hn & Hnl & Hpg & Hmod & Hnext & Hu). cbn zeta in *.
  fold (part va len) in *. split; [done|]. split; [done|]. split.
  - intros m root i Hi. unfold writable, readable, uaddr.
    rewrite (pte_of_page m root (va + i) va) by by apply Hpg.
    rewrite Hmod by done. specialize (Hmod 0 ltac:(lia)). rewrite !Z.add_0_r in Hmod. rewrite Hmod.
    split_and!; [done|done|lia].
  - intros H1 H2. rewrite Hu by done. by apply Hnext.
Qed.

Lemma set_mem_id s : s = set_mem (pm_mem s) s.
Proof. by destruct s. Qed.

(** The first [k] of the [len] bytes at the user address [src] were copied from
    the memory [m] to [dst], and then came a page that is not the user's. *)
Record read_in (root : Z) (m : mem) (dst src len k : Z) (m' : mem) : Prop := {
  ri_k : 0 <= k <= len;
  ri_pre : forall i, 0 <= i < k -> readable m root (src + i) = true;
  ri_stop : k < len -> readable m root (src + k) = false;
  ri_bytes : forall a, ld8 m' a = if (dst <=? a) && (a <? dst + k) then ld8 m (uaddr m root (src + (a - dst))) else ld8 m a
}.
Lemma read_in_none root m dst src len : 0 <= len -> (0 < len -> readable m root src = false) -> read_in root m dst src len 0 m.
Proof.
  intros Hl Hr. split; [lia|intros i Hi; lia|by rewrite Z.add_0_r|].
  intros a. destruct (Z.leb_spec dst a), (Z.ltb_spec a (dst + 0)); simpl; done || lia.
Qed.
(** A part of [n] bytes and the rest; no source is a destination. *)
Lemma read_in_join root m dst src len n m1 k m' : 0 < n <= len ->
  (forall i j, 0 <= i < len -> 0 <= j < len -> readable m root (src + i) = true -> uaddr m root (src + i) <> dst + j) ->
  (forall va, pte_of m1 root va = pte_of m root va) ->
  read_in root m dst src n n m1 -> read_in root m1 (dst + n) (src + n) (len - n) k m' -> read_in root m dst src len (n + k) m'.
Proof.
  intros Hn Hsep HP [_ P1 _ B1] [Hk P2 S2 B2].
  assert (HR : forall va, readable m1 root va = readable m root va) by (intros; unfold readable; by rewrite HP).
  assert (HU : forall va, uaddr m1 root va = uaddr m root va) by (intros; unfold uaddr; by rewrite HP).
  split.
  - lia.
  - intros i Hi. destruct (Z.lt_ge_cases i n); [apply P1; lia|]. specialize (P2 (i - n) ltac:(lia)). rewrite HR in P2.
    by replace (src + n + (i - n)) with (src + i) in P2 by lia.
  - intros Hlt. specialize (S2 ltac:(lia)). rewrite HR in S2. by rewrite Z.add_assoc.
  - intros a. rewrite B2, HU. destruct (Z.leb_spec (dst + n) a) as [Ha|Ha].
    + destruct (Z.ltb_spec a (dst + n + k)), (Z.ltb_spec a (dst + (n + k))), (Z.leb_spec dst a); simpl; try lia.
      * specialize (P2 (a - (dst + n)) ltac:(lia)). rewrite HR in P2.
        replace (src + n + (a - (dst + n))) with (src + (a - dst)) in * by lia. rewrite B1.
        set (u := uaddr m root (src + (a - dst))) in *.
        destruct (Z.leb_spec dst u), (Z.ltb_spec u (dst + n)); simpl; try done.
        exfalso. refine (Hsep (a - dst) (u - dst) _ _ P2 _); [lia|lia|]. fold u. lia.
      * rewrite B1. by rewrite (proj2 (Z.ltb_ge a (dst + n))), andb_false_r by lia.
    + simpl. rewrite B1. destruct (Z.leb_spec dst a), (Z.ltb_spec a (dst + n)), (Z.ltb_spec a (dst + (n + k))); simpl; done || lia.
Qed.

Lemma copyin_ok fuel root dst src len s :
  pt_ok kend (pm_mem s) root -> 0 <= src -> 0 <= len -> src + len <= MAXVA -> len < Z.of_nat fuel ->
  (forall i, 0 <= i < len -> off_tables (pm_mem s) root (dst + i)) ->
  (forall i j, 0 <= i < len -> 0 <= j < len -> readable (pm_mem s) root (src + i) = true ->
     uaddr (pm_mem s) root (src + i) <> dst + j) ->
  exists k m', copyin fuel root dst src len s = Ret (if k =? len then 0 else -1, set_mem m' s) /\ read_in root (pm_mem s) dst src len k m'.
Proof.
  revert dst src len s. induction fuel as [|fuel IH]; intros dst src len s Hok Hs Hl HM Hf Hoff Hsep; [lia|].
  destruct (Z.leb_spec len 0) as [Hl0|Hl0].
  { exists 0, (pm_mem s). assert (len = 0) as -> by lia. cbn [copyin].
    split; [by rewrite <- set_mem_id|apply read_in_none; lia]. }
  assert (Hsrc : 0 <= src < MAXVA) by lia. rewrite copyin_page by done.
  destruct (part_spec src len Hsrc Hl0) as (Hn & Hnl & Hpt & Hu). set (n := part src len) in *.
  destruct (readable (pm_mem s) root src) eqn:HR.
  2:{ exists 0, (pm_mem s). rewrite (proj2 (Z.eqb_neq 0 len)) by lia. split; [by rewrite <- set_mem_id|by apply read_in_none]. }
  set (m1 := memmove (pm_mem s) dst (uaddr (pm_mem s) root src) n).
  assert (HI : read_in root (pm_mem s) dst src n n m1).
  { split; [lia|intros i Hi; by rewrite (proj1 (Hpt _ _ i Hi))|lia|].
    intros a. unfold m1. rewrite memmove_ld8 by (unfold PGSIZE in *; lia).
    destruct (Z.leb_spec dst a), (Z.ltb_spec a (dst + n)); simpl; try done.
    by rewrite (proj2 (proj2 (Hpt (pm_mem s) root (a - dst) ltac:(lia)))). }
  destruct (Z.eq_dec n len) as [Hnlen|Hnlen].
  { exists len, m1. rewrite Z.eqb_refl. split; [|by rewrite <- Hnlen].
    rewrite Hnlen. destruct fuel as [|fuel]; [lia|]. cbn [copyin]. by rewrite Z.sub_diag. }
  rewrite Hu by lia. destruct (off_tables_same (pm_mem s) m1 root Hok) as (Hok1 & HT1 & HP1).
  { intros a Ha. rewrite (ri_bytes _ _ _ _ _ _ _ HI). destruct (Z.leb_spec dst a), (Z.ltb_spec a (dst + n)); simpl; try done.
    destruct Ha. replace a with (dst + (a - dst)) by lia. apply Hoff. lia. }
  destruct (IH (dst + n) (src + n) (len - n) (set_mem m1 s)) as (k & m' & Run & HJ); cbn [pm_mem set_mem] in *; [done|lia..| | |].
  - intros i Hi. unfold off_tables. rewrite HT1. rewrite <- Z.add_assoc. apply Hoff. lia.
  - intros i j Hi Hj. unfold readable, uaddr. rewrite HP1, <- !Z.add_assoc. apply Hsep; lia.
  - exists (n + k), m'. split; [|apply (read_in_join root (pm_mem s) dst src len n m1); [lia|done|exact HP1|exact HI|exact HJ]].
    rewrite Run. replace (n + k =? len) with (k =? len - n); [done|].
    by destruct (Z.eqb_spec k (len - n)), (Z.eqb_spec (n + k) len); try lia.
Qed.

(** C27. [copyin] reads user memory through the page table: it copies the
    longest prefix of the range whose pages are valid user pages, returns 0
    exactly when that is the whole range and -1 otherwise, writes nothing but
    the bytes copied and never runs out of the fuel [len]. The destination must
    lie outside the tables and outside the user bytes it copies. *)
Theorem copyin_reads_user fuel root dst src len s :
  pt_ok kend (pm_mem s) root -> 0 <= src -> 0 <= len -> src + len <= MAXVA -> len < Z.of_nat fuel ->
  (forall i, 0 <= i < len -> off_tables (pm_mem s) root (dst + i)) ->
  (forall i j, 0 <= i < len -> 0 <= j < len -> readable (pm_mem s) root (src + i) = true ->
     uaddr (pm_mem s) root (src + i) <> dst + j) ->
  exists k m', copyin fuel root dst src len s = Ret (if k =? len then 0 else -1, set_mem m' s) /\ 0 <= k <= len /\
    (forall i, 0 <= i < k -> readable (pm_mem s) root (src + i) = true) /\
    (k < len -> readable (pm_mem s) root (src + k) = false) /\
    forall a, ld8 m' a = if (dst <=? a) && (a <? dst + k)
                         then ld8 (pm_mem s) (uaddr (pm_mem s) root (src + (a - dst))) else ld8 (pm_mem s) a.
Proof.
  intros H1 H2 H3 H4 H5 H6 H7. destruct (copyin_ok fuel root dst src len s H1 H2 H3 H4 H5 H6 H7) as (k & m' & R & []). by exists k, m'.
Qed.

(** The first [k] of the [len] bytes at [src] were written to the user address
    [dst] of the memory [m], and then came a page the user may not write. *)
Record written_out (root : Z) (m : mem) (dst src len k : Z) (m' : mem) : Prop := {
  wo_k : 0 <= k <= len;
  wo_pre : forall i, 0 <= i < k -> writable m root (dst + i) = true;
  wo_stop : k < len -> writable m root (dst + k) = false;
  wo_in : forall i, 0 <= i < k -> ld8 m' (uaddr m root (dst + i)) = ld8 m (src + i);
  wo_out : forall a, (forall i, 0 <= i < k -> a <> uaddr m root (dst + i)) -> ld8 m' a = ld8 m a;
  wo_pte : forall va, pte_of m' root va = pte_of m root va
}.
Lemma written_out_none root m dst src len : 0 <= len -> (0 < len -> writable m root dst = false) -> written_out root m dst src len 0 m.
Proof. intros Hl Hw. split; [lia|intros i Hi; lia|by rewrite Z.add_0_r|intros i Hi; lia|done|done]. Qed.
(** A part of [n] bytes and the rest; the pages written are distinct and hold no
    byte of the source. *)
Lemma written_out_join root m dst src len n m1 k m' : 0 < n <= len ->
  (forall i j, 0 <= i < len -> 0 <= j < len -> writable m root (dst + i) = true -> uaddr m root (dst + i) <> src + j) ->
  (forall i j, 0 <= i < j -> j < len -> writable m root (dst + i) = true -> writable m root (dst + j) = true ->
     uaddr m root (dst + i) <> uaddr m root (dst + j)) ->
  written_out root m dst src n n m1 -> written_out root m1 (dst + n) (src + n) (len - n) k m' -> written_out root m dst src len (n + k) m'.
Proof.
  intros Hn Hsep Hinj [_ P1 _ I1 O1 E1] [Hk P2 S2 I2 O2 E2].
  assert (HW : forall va, writable m1 root va = writable m root va) by (intros; unfold writable, readable; by rewrite E1).
  assert (HU : forall va, uaddr m1 root va = uaddr m root va) by (intros; unfold uaddr; by rewrite E1).
  split.
  - lia.
  - intros i Hi. destruct (Z.lt_ge_cases i n); [apply P1; lia|].
    specialize (P2 (i - n) ltac:(lia)). rewrite HW in P2. by replace (dst + n + (i - n)) with (dst + i) in P2 by lia.
  - intros Hlt. specialize (S2 ltac:(lia)). rewrite HW in S2. by rewrite Z.add_assoc.
  - intros i Hi. destruct (Z.lt_ge_cases i n).
    + rewrite O2; [apply I1; lia|]. intros j Hj. rewrite HU, <- Z.add_assoc. apply Hinj; [lia|lia|apply P1; lia|].
      specialize (P2 j Hj). rewrite HW in P2. by rewrite Z.add_assoc.
    + specialize (I2 (i - n) ltac:(lia)). rewrite HU in I2.
      replace (dst + n + (i - n)) with (dst + i) in I2 by lia. rewrite I2.
      replace (src + n + (i - n)) with (src + i) by lia. apply O1. intros j Hj E.
      refine (Hsep j i _ _ _ _); [lia|lia|by apply P1|by rewrite <- E].
  - intros a Ha. rewrite O2, O1; [done| |]; intros i Hi; [|rewrite HU, <- Z.add_assoc]; apply Ha; lia.
  - intros va. by rewrite E2, E1.
Qed.

(** The part of one page. *)
Lemma written_out_part root m dst src n : pt_ok kend m root -> 0 < n <= PGSIZE ->
  (forall i, 0 <= i < n -> writable m root (dst + i) = true /\ uaddr m root (dst + i) = uaddr m root dst + i) ->
  (forall i, 0 <= i < n -> off_tables m root (uaddr m root (dst + i))) ->
  let m1 := memmove m (uaddr m root dst) src n in
  written_out root m dst src n n m1 /\ pt_ok kend m1 root /\ tables m1 root = tables m root.
Proof.
  intros Hok Hn HWU Hoff m1. set (u := uaddr m root dst) in *.
  assert (Hm1 : forall a, ld8 m1 a = if (u <=? a) && (a <? u + n) then ld8 m (src + (a - u)) else ld8 m a).
  { intros a. unfold m1. by rewrite memmove_ld8 by (unfold PGSIZE in *; lia). }
  assert (Hm1o : forall a, (forall i, 0 <= i < n -> a <> uaddr m root (dst + i)) -> ld8 m1 a = ld8 m a).
  { intros a Ha. rewrite Hm1. destruct (Z.leb_spec u a), (Z.ltb_spec a (u + n)); simpl; try done.
    destruct (Ha (a - u)); [lia|]. rewrite (proj2 (HWU (a - u) ltac:(lia))). lia. }
  destruct (off_tables_same m m1 root Hok) as (Hok1 & HT1 & HP1); [|split; [|by split]].
  { intros a Ha. apply Hm1o. intros i Hi ->. by apply Ha, Hoff. }
  split; [lia|intros i Hi; apply (HWU i Hi)|lia| |exact Hm1o|exact HP1].
  intros i Hi. rewrite (proj2 (HWU i Hi)), Hm1. rewrite (proj2 (Z.leb_le _ _)), (proj2 (Z.ltb_lt _ _)) by lia.
  simpl. f_equal. lia.
Qed.

Lemma copyout_ok fuel root dst src len s :
  pt_ok kend (pm_mem s) root -> 0 <= dst -> 0 <= len -> dst + len <= MAXVA -> len < Z.of_nat fuel ->
  (forall i, 0 <= i < len -> writable (pm_mem s) root (dst + i) = true ->
     off_tables (pm_mem s) root (uaddr (pm_mem s) root (dst + i))) ->
  (forall i j, 0 <= i < len -> 0 <= j < len -> writable (pm_mem s) root (dst + i) = true ->
     uaddr (pm_mem s) root (dst + i) <> src + j) ->
  (forall i j, 0 <= i < j -> j < len -> writable (pm_mem s) root (dst + i) = true ->
     writable (pm_mem s) root (dst + j) = true ->
     uaddr (pm_mem s) root (dst + i) <> uaddr (pm_mem s) root (dst + j)) ->
  exists k m', copyout fuel root dst src len s = Ret (if k =? len then 0 else -1, set_mem m' s) /\ written_out root (pm_mem s) dst src len k m'.
Proof.
  revert dst src len s. induction fuel as [|fuel IH]; intros dst src len s Hok Hs Hl HM Hf Hoff Hsep Hinj; [lia|].
  destruct (Z.leb_spec len 0) as [Hl0|Hl0].
  { exists 0, (pm_mem s). assert (len = 0) as -> by lia. cbn [copyout]. split; [by rewrite <- set_mem_id|apply written_out_none; lia]. }
  assert (Hdst : 0 <= dst < MAXVA) by lia. rewrite copyout_page by done.
  destruct (part_spec dst len Hdst Hl0) as (Hn & Hnl & Hpt & Hu). set (n := part dst len) in *.
  destruct (writable (pm_mem s) root dst) eqn:HW.
  2:{ exists 0, (pm_mem s). rewrite (proj2 (Z.eqb_neq 0 len)) by lia. split; [by rewrite <- set_mem_id|by apply written_out_none]. }
  assert (HWU : forall i, 0 <= i < n -> writable (pm_mem s) root (dst + i) = true /\
      uaddr (pm_mem s) root (dst + i) = uaddr (pm_mem s) root dst + i).
  { intros i Hi. destruct (Hpt (pm_mem s) root i Hi) as (_ & -> & ->). by rewrite HW. }
  destruct (written_out_part root (pm_mem s) dst src n Hok ltac:(lia) HWU) as (HI & Hok1 & HT1).
  { intros i Hi. apply Hoff; [lia|by apply HWU]. }
  set (m1 := memmove (pm_mem s) (uaddr (pm_mem s) root dst) src n) in *. assert (HP1 := wo_pte _ _ _ _ _ _ _ HI).
  destruct (Z.eq_dec n len) as [Hnlen|Hnlen].
  { exists len, m1. rewrite Z.eqb_refl. split; [|by rewrite <- Hnlen].
    rewrite Hnlen. destruct fuel as [|fuel]; [lia|]. cbn [copyout]. by rewrite Z.sub_diag. }
  rewrite Hu by lia.
  destruct (IH (dst + n) (src + n) (len - n) (set_mem m1 s)) as (k & m' & Run & HJ); cbn [pm_mem set_mem] in *; [done|lia..| | | |].
  1-3: unfold off_tables, writable, readable, uaddr; intros *; rewrite !HP1, ?HT1, <- !Z.add_assoc; intros; first [apply Hoff|apply Hsep|apply Hinj]; done || lia.
  exists (n + k), m'. split; [|apply (written_out_join root (pm_mem s) dst src len n m1); [lia|exact Hsep|exact Hinj|exact HI|exact HJ]].
  rewrite Run. replace (n + k =? len) with (k =? len - n); [done|].
  by destruct (Z.eqb_spec k (len - n)), (Z.eqb_spec (n + k) len); try lia.
Qed.

(** C28. [copyout] writes user memory through the page table: it fills the
    longest prefix of the user range whose pages are valid, user and writable
    with the kernel bytes, returns 0 exactly when that is the whole range and
    -1 otherwise, changes no other byte and no translation, and never runs out
    of the fuel [len]. The frames behind the range must be distinct, outside
    the tables and apart from the source. *)
Theorem copyout_writes_user fuel root dst src len s :
  pt_ok kend (pm_mem s) root -> 0 <= dst -> 0 <= len -> dst + len <= MAXVA -> len < Z.of_nat fuel ->
  (forall i, 0 <= i < len -> writable (pm_mem s) root (dst + i) = true ->
     off_tables (pm_mem s) root (uaddr (pm_mem s) root (dst + i))) ->
  (forall i j, 0 <= i < len -> 0 <= j < len -> writable (pm_mem s) root (dst + i) = true ->
     uaddr (pm_mem s) root (dst + i) <> src + j) ->
  (forall i j, 0 <= i < j -> j < len -> writable (pm_mem s) root (dst + i) = true ->
     writable (pm_mem s) root (dst + j) = true ->
     uaddr (pm_mem s) root (dst + i) <> uaddr (pm_mem s) root (dst + j)) ->
  exists k m', copyout fuel root dst src len s = Ret (if k =? len then 0 else -1, set_mem m' s) /\ 0 <= k <= len /\
    (forall i, 0 <= i < k -> writable (pm_mem s) root (dst + i) = true) /\
    (k < len -> writable (pm_mem s) root (dst + k) = false) /\
    (forall i, 0 <= i < k -> ld8 m' (uaddr (pm_mem s) root (dst + i)) = ld8 (pm_mem s) (src + i)) /\
    (forall a, (forall i, 0 <= i < k -> a <> uaddr (pm_mem s) root (dst + i)) -> ld8 m' a = ld8 (pm_mem s) a) /\
    (forall va, pte_of m' root va = pte_of (pm_mem s) root va).
Proof.
  intros H1 H2 H3 H4 H5 H6 H7 H8. destruct (copyout_ok fuel root dst src len s H1 H2 H3 H4 H5 H6 H7 H8) as (k & m' & R & []). by exists k, m'.
Qed.

(** At the user address [MAXVA] itself [copyin] and [copyout] do not report
    an error: their bound check lets it through to [walk], which panics. *)
Theorem copy_at_MAXVA_panics fuel root kaddr len s :
  0 < len -> copyin (S fuel) root kaddr MAXVA len s = Panic "walk" /\
             copyout (S fuel) root MAXVA kaddr len s = Panic "walk".
Proof.
  intros Hl. cbn [copyin copyout]. rewrite (proj2 (Z.leb_gt len 0)) by done.
  replace (PGROUNDDOWN MAXVA) with MAXVA by reflexivity. rewrite Z.ltb_irrefl.
  unfold kbind at 1. rewrite walk_panic by lia. unfold kbind at 1. by rewrite walk_panic by lia.
Qed.
End Copy.

(** A page table with one user page: the virtual page 0x1000 is the frame
    [demo_frame], readable and writable by the user. *)
Definition demo_frame : Z := PHYSTOP - 4 * PGSIZE.
Definition demo_buffer : Z := PHYSTOP - 5 * PGSIZE.
Definition demo_flags : Z := Z.lor PTE_V (Z.lor PTE_R (Z.lor PTE_W PTE_U)).
Definition demo_tables : mem := link (link (fun _ => 0) demo_page1 demo_root 0) demo_page2 demo_page1 0.
Definition demo_mapped : mem := st64 demo_tables (slot demo_page2 1) (mkpte demo_frame demo_flags).
Definition demo_user : pmst := set_mem demo_mapped demo_pm.

(** Two tables linked below an empty root. *)
Lemma two_tables m root r1 r0 va :
  page KERNBASE root -> page KERNBASE r1 -> page KERNBASE r0 -> NoDup [r0; r1; root] ->
  (forall i, 0 <= i < 512 -> entry m root i = 0) ->
  let m2 := link (link m r1 root (IDX 2 va)) r0 r1 (IDX 1 va) in
  pt_ok KERNBASE m2 root /\ tables m2 root ≡ₚ [r0; r1; root] /\
  leaf_slot m2 root va = Some (slot r0 (IDX 0 va)) /\ forall x, pte_of m2 root x = 0.
Proof.
  intros Hr Hr1 Hr0 Hnd He. assert (HK : 0 < KERNBASE) by done.
  apply NoDup_cons in Hnd as [N0 Hnd]. apply NoDup_cons in Hnd as [N1 _].
  apply not_elem_of_cons in N0 as [N01 N0]. apply not_elem_of_cons in N0 as [N0r _].
  apply not_elem_of_cons in N1 as [N1r _].
  destruct (pt_empty KERNBASE m root Hr He) as (O & T & P).
  assert (I2 := IDX_range 2 va ltac:(done)). assert (I1 := IDX_range 1 va ltac:(done)).
  assert (E2 : ptr_at m root (IDX 2 va) = None) by (unfold ptr_at; by rewrite He).
  destruct (link_pt KERNBASE HK m root r1 root (IDX 2 va)) as (O1 & T1 & L1 & P1);
    [exact O|exact Hr1|rewrite T; by apply not_elem_of_cons; split; [|apply not_elem_of_nil]|left|exact I2|exact E2|].
  assert (R1 : ptr_at (link m r1 root (IDX 2 va)) root (IDX 2 va) = Some r1).
  { rewrite (link_ptr KERNBASE HK); [by rewrite decide_True|exact Hr1|exact Hr|exact N1r|exact I2|exact I2]. }
  assert (F1 : ptr_at (link m r1 root (IDX 2 va)) r1 (IDX 1 va) = None).
  { apply (link_fresh_ptr KERNBASE); [exact Hr1|exact Hr|exact N1r|exact I2|exact I1]. }
  intros m2. unfold m2. clear m2.
  destruct (ex_intro (fun x => x = link m r1 root (IDX 2 va)) _ eq_refl) as [m1 E1]. rewrite <- E1 in *. clear E1.
  assert (L : r1 ∈ level1 m1 root) by by apply (ptr_at_child m1 root (IDX 2 va)).
  rewrite T in T1.
  assert (T0 : r0 ∉ tables m1 root).
  { rewrite T1. apply not_elem_of_cons. split; [exact N01|]. apply not_elem_of_cons. split; [exact N0r|].
    apply not_elem_of_nil. }
  destruct (link_pt KERNBASE HK m1 root r0 r1 (IDX 1 va)) as (O2 & T2 & _ & P2);
    [exact O1|exact Hr0|exact T0|right; exact L|exact I1|exact F1|].
  assert (R2 : ptr_at (link m1 r0 r1 (IDX 1 va)) root (IDX 2 va) = Some r1).
  { rewrite (ptr_at_same m1); [exact R1| |exact I2].
    apply (link_other KERNBASE m1 r0 r1 (IDX 1 va)); [exact Hr0|exact Hr1|exact I1|exact Hr|auto|auto]. }
  assert (R3 : ptr_at (link m1 r0 r1 (IDX 1 va)) r1 (IDX 1 va) = Some r0).
  { rewrite (link_ptr KERNBASE HK); [by rewrite decide_True|exact Hr0|exact Hr1|exact N01|exact I1|exact I1]. }
  split; [exact O2|]. split; [etransitivity; [exact T2|by apply perm_skip]|].
  split; [|intros x; etransitivity; [apply P2|rewrite P1; apply P]].
  unfold leaf_slot, leaf_table. by rewrite R2, R3.
Qed.

Lemma demo_tables_ok :
  pt_ok KERNBASE demo_tables demo_root /\ tables demo_tables demo_root ≡ₚ [demo_page2; demo_page1; demo_root] /\
  leaf_slot demo_tables demo_root 0x1000 = Some (slot demo_page2 1) /\ forall va, pte_of demo_tables demo_root va = 0.
Proof.
  apply (two_tables (fun _ => 0) demo_root demo_page1 demo_page2 0x1000); try done.
  apply (bool_decide_unpack _). reflexivity.
Qed.

Lemma demo_mapped_ok :
  pt_ok KERNBASE demo_mapped demo_root /\ tables demo_mapped demo_root ≡ₚ [demo_page2; demo_page1; demo_root] /\
  forall va, 0 <= va < MAXVA ->
    pte_of demo_mapped demo_root va = if decide (va / PGSIZE = 1) then mkpte demo_frame demo_flags else 0.
Proof.
  assert (HM : 0 <= 0x1000 < MAXVA) by done. unfold demo_mapped.
  pose proof demo_tables_ok as H. generalize dependent demo_tables. intros m (O & T & L & P).
  destruct (set_leaf KERNBASE m demo_root 0x1000 _ (mkpte demo_frame demo_flags) O HM L) as (O' & T' & _ & P').
  split; [exact O'|]. split; [by rewrite T'|]. intros va Hva. rewrite P' by lia.
  change (0x1000 / PGSIZE) with 1. by rewrite P.
Qed.
#[global] Opaque demo_mapped.
Lemma demo_uaddr va : 0x1000 <= va < 0x2000 ->
  writable demo_mapped demo_root va = true /\ readable demo_mapped demo_root va = true /\
  uaddr demo_mapped demo_root va = demo_frame + (va - 0x1000).
Proof.
  intros Hva. assert (E : va / PGSIZE = 1) by (unfold PGSIZE; dlia).
  assert (HM : 0 <= va < MAXVA) by (change MAXVA with (2 ^ 38); lia).
  destruct demo_mapped_ok as (_ & _ & P). unfold writable, readable, uaddr. rewrite P, decide_True by done.
  split; [done|]. split; [done|]. rewrite mkpte_pa by done. unfold PGSIZE in *. dlia.
Qed.
Lemma demo_off_tables a : a < demo_root -> off_tables demo_mapped demo_root a.
Proof.
  intros Ha t Ht. destruct demo_mapped_ok as (_ & T & _). rewrite T in Ht.
  unfold demo_page1, demo_page2, demo_root, PGSIZE in *.
  apply elem_of_cons in Ht as [->|Ht]; [lia|]. apply elem_of_cons in Ht as [->|Ht]; [lia|].
  apply list_elem_of_singleton in Ht as ->. lia.
Qed.

Lemma copyin_reads_user_witness :
  exists k m', copyin 101 demo_root demo_buffer 0x1010 100 demo_user =
    Ret (if k =? 100 then 0 else -1, set_mem m' demo_user) /\ 0 <= k <= 100 /\
    (forall i, 0 <= i < k -> readable demo_mapped demo_root (0x1010 + i) = true) /\
    (k < 100 -> readable demo_mapped demo_root (0x1010 + k) = false) /\
    forall a, ld8 m' a = if (demo_buffer <=? a) && (a <? demo_buffer + k)
                         then ld8 demo_mapped (uaddr demo_mapped demo_root (0x1010 + (a - demo_buffer)))
                         else ld8 demo_mapped a.
Proof.
  apply (copyin_reads_user KERNBASE ltac:(done) 101 demo_root demo_buffer 0x1010 100 demo_user); try done.
  - apply demo_mapped_ok.
  - intros i Hi. apply demo_off_tables. unfold demo_buffer, demo_root, PGSIZE. lia.
  - intros i j Hi Hj _. cbn [pm_mem set_mem demo_user].
    rewrite (proj2 (proj2 (demo_uaddr (0x1010 + i) ltac:(lia)))). unfold demo_frame, demo_buffer, PGSIZE. lia.
Defined.

Lemma copyout_writes_user_witness :
  exists k m', copyout 101 demo_root 0x1010 demo_buffer 100 demo_user =
    Ret (if k =? 100 then 0 else -1, set_mem m' demo_user) /\ 0 <= k <= 100 /\
    (forall i, 0 <= i < k -> writable demo_mapped demo_root (0x1010 + i) = true) /\
    (k < 100 -> writable demo_mapped demo_root (0x1010 + k) = false) /\
    (forall i, 0 <= i < k -> ld8 m' (uaddr demo_mapped demo_root (0x1010 + i)) = ld8 demo_mapped (demo_buffer + i)) /\
    (forall a, (forall i, 0 <= i < k -> a <> uaddr demo_mapped demo_root (0x1010 + i)) -> ld8 m' a = ld8 demo_mapped a) /\
    (forall va, pte_of m' demo_root va = pte_of demo_mapped demo_root va).
Proof.
  apply (copyout_writes_user KERNBASE ltac:(done) 101 demo_root 0x1010 demo_buffer 100 demo_user); try done.
  - apply demo_mapped_ok.
  - intros i Hi _. cbn [pm_mem set_mem demo_user]. rewrite (proj2 (proj2 (demo_uaddr (0x1010 + i) ltac:(lia)))).
    apply demo_off_tables. unfold demo_frame, demo_root, PGSIZE. lia.
  - intros i j Hi Hj _. cbn [pm_mem set_mem demo_user]. rewrite (proj2 (proj2 (demo_uaddr (0x1010 + i) ltac:(lia)))).
    unfold demo_frame, demo_buffer, PGSIZE. lia.
  - intros i j Hi Hj _ _. cbn [pm_mem set_mem demo_user].
    rewrite (proj2 (proj2 (demo_uaddr (0x1010 + i) ltac:(lia)))), (proj2 (proj2 (demo_uaddr (0x1010 + j) ltac:(lia)))). lia.
Defined.

Lemma copy_at_MAXVA_panics_witness :
  copyin 1 demo_root demo_buffer MAXVA 8 demo_pm = Panic "walk" /\
  copyout 1 demo_root MAXVA demo_buffer 8 demo_pm = Panic "walk".
Proof. apply (copy_at_MAXVA_panics 0). done. Defined.
