(* ===== verification/Uvm.v ===== *)
(** User address spaces: src/kernel/uvm.c.

    The operations that grow, shrink, copy and free the user part of a page
    table, over the state of the page allocator. *)
From S2P Require Import Prelude CString Spinlock Pm Vm.

Section Uvm.
Context (kend : Z).

(** The loop of [uvmunmap] from [a] up to [last]. *)
Fixpoint uvmunmap_loop (fuel : nat) (pagetable a last : Z) (do_free : bool) : K pmst unit :=
  match fuel with
  | O => knofuel
  | S fuel =>
      if a <? last then
        pte <- walk pagetable a false ;;
        if pte =? 0 then kpanic "uvmunmap: walk"%string else
        e <- load64 pte ;;
        if negb (has PTE_V e) then kpanic "uvmunmap: not mapped"%string else
        if PTE_FLAGS e =? PTE_V then kpanic "uvmunmap: not a leaf"%string else
        (if do_free then kpmfree kend (PTE2PA e) else kret tt) ;;
        store64 pte 0 ;;
        uvmunmap_loop fuel pagetable (u64 (a + PGSIZE)) last do_free
      else kret tt
  end.
Definition uvmunmap (fuel : nat) (pagetable va npages : Z) (do_free : bool) : K pmst unit :=
  if negb (va mod PGSIZE =? 0) then kpanic "uvmunmap: not aligned"%string else
  uvmunmap_loop fuel pagetable va (u64 (va + npages * PGSIZE)) do_free.

Definition uvmdealloc (fuel : nat) (pagetable oldsz newsz : Z) : K pmst Z :=
  if oldsz <=? newsz then kret oldsz else
  (if PGROUNDUP newsz <? PGROUNDUP oldsz then
     let npages := s32 ((PGROUNDUP oldsz - PGROUNDUP newsz) / PGSIZE) in
     uvmunmap fuel pagetable (PGROUNDUP newsz) npages true
   else kret tt) ;;
  kret newsz.

(** The loop of [uvmalloc]; [oldsz] is the rounded old size. *)
Fixpoint uvmalloc_loop (fuel : nat) (pagetable a oldsz newsz xperm : Z) : K pmst Z :=
  match fuel with
  | O => knofuel
  | S fuel' =>
      if a <? newsz then
        m <- kpmalloc ;;
        if m =? 0 then uvmdealloc fuel pagetable a oldsz ;; kret 0 else
        fill m 0 PGSIZE ;;
        r <- mappages 1 pagetable a m PGSIZE (Z.lor (Z.lor PTE_R PTE_U) xperm) ;;
        if negb (r =? 0) then
          kpmfree kend m ;;
          uvmdealloc fuel pagetable a oldsz ;; kret 0
        else uvmalloc_loop fuel' pagetable (u64 (a + PGSIZE)) oldsz newsz xperm
      else kret newsz
  end.
Definition uvmalloc (fuel : nat) (pagetable oldsz newsz xperm : Z) : K pmst Z :=
  if newsz <? oldsz then kret oldsz else
  let oldsz := PGROUNDUP oldsz in
  uvmalloc_loop fuel pagetable oldsz oldsz newsz xperm.

(** The loop of [uvmfree_recursive] over the entries from [i]: a valid entry is
    cleared, then [visit] deals with what it points to. *)
Fixpoint free_entries (visit : Z -> K pmst unit) (pagetable : Z) (n : nat) (i : Z) : K pmst unit :=
  match n with
  | O => kret tt
  | S n =>
      pte <- load64 (slot pagetable i) ;;
      (if has PTE_V pte then store64 (slot pagetable i) 0 ;; visit pte else kret tt) ;;
      free_entries visit pagetable n (i + 1)
  end.

(** [uvmfree_recursive]; the recursion is on [level] as in the code. *)
Fixpoint uvmfree_recursive (level : nat) (pagetable : Z) : K pmst unit :=
  free_entries (fun pte =>
      match level with
      | S level' => if negb (has PTE_RWX pte) then uvmfree_recursive level' (PTE2PA pte)
                    else if has PTE_U pte then kpmfree kend (PTE2PA pte) else kret tt
      | O => if has PTE_U pte then kpmfree kend (PTE2PA pte) else kret tt
      end) pagetable 512 0 ;;
  kpmfree kend pagetable.
Definition uvmfree (pagetable sz : Z) : K pmst unit := uvmfree_recursive 2 pagetable.

Fixpoint uvmcopy_loop (fuel : nat) (old new i sz : Z) : K pmst Z :=
  match fuel with
  | O => knofuel
  | S fuel =>
      if i <? sz then
        pte <- walk old i false ;;
        e <- (if pte =? 0 then kret 0 else load64 pte) ;;
        if (pte =? 0) || negb (has PTE_V e) || negb (has PTE_U e)
        then uvmcopy_loop fuel old new (u64 (i + PGSIZE)) sz
        else
          let pa := PTE2PA e in
          let flags := u32 (PTE_FLAGS e) in
          m <- kpmalloc ;;
          if m =? 0 then kret (-1) else
          move m pa PGSIZE ;;
          r <- mappages 1 new i m PGSIZE (Z.land flags (Z.lor PTE_RWX PTE_U)) ;;
          if negb (r =? 0) then kpmfree kend m ;; kret (-1) else
          uvmcopy_loop fuel old new (u64 (i + PGSIZE)) sz
      else kret 0
  end.
Definition uvmcopy (fuel : nat) (old new sz : Z) : K pmst Z := uvmcopy_loop fuel old new 0 sz.

Definition uvmclear (pagetable va : Z) : K pmst unit :=
  pte <- walk pagetable va false ;;
  if pte =? 0 then kpanic "uvmclear"%string else
  e <- load64 pte ;;
  store64 pte (Z.land e (Z.lnot PTE_U)).

Definition walkaddr (pagetable va : Z) : K pmst Z :=
  if MAXVA <=? va then kret 0 else
  pte <- walk pagetable va false ;;
  if pte =? 0 then kret 0 else
  e <- load64 pte ;;
  if negb (has PTE_V e) then kret 0 else
  if negb (has PTE_U e) then kret 0 else
  kret (PTE2PA e).

Definition uvmcreate : K pmst Z :=
  pagetable <- kpmalloc ;;
  if pagetable =? 0 then kret 0 else
  fill pagetable 0 PGSIZE ;;
  kret pagetable.
End Uvm.

Section UvmFacts.
Context (kend : Z) (kend_pos : 0 < kend).
Abbreviation page := (page kend).

(** ** Pages next to a page table *)

(** What taking or returning the page [x] leaves of a state with the page table
    at [root]. *)
Record beside (root x : Z) (s s' : pmst) : Prop := {
  b_ok : pt_ok kend (pm_mem s') root;
  b_tables : tables (pm_mem s') root = tables (pm_mem s) root;
  b_pte : forall va, pte_of (pm_mem s') root va = pte_of (pm_mem s) root va;
  b_bytes : forall a, ~ (x <= a < x + PGSIZE) -> ld8 (pm_mem s') a = ld8 (pm_mem s) a;
  b_lk : lk_restored (pm_lk s) (pm_lk s')
}.

Lemma beside_intro root x s s' :
  pt_ok kend (pm_mem s) root -> page x -> x ∉ tables (pm_mem s) root ->
  (forall a, ~ (x <= a < x + PGSIZE) -> ld8 (pm_mem s') a = ld8 (pm_mem s) a) ->
  lk_restored (pm_lk s) (pm_lk s') -> beside root x s s'.
Proof.
  intros Hok Hx Hni Hb Hl.
  assert (HO : forall a, ~ off_tables (pm_mem s) root a -> ld8 (pm_mem s') a = ld8 (pm_mem s) a).
  { intros a Ha. apply Hb. intros Hin. apply Ha. intros t Ht Hta.
    apply (page_bytes kend x t a Hx); [by apply (pt_page kend (pm_mem s) root)|by intros ->|done|done]. }
  destruct (off_tables_same kend _ _ root Hok HO) as (O & T & P). by split.
Qed.

Lemma vm_alloc_page s root x free :
  vm_ok kend s root (x :: free) ->
  exists s', kpmalloc s = Ret (x, s') /\ vm_ok kend s' root free /\ beside root x s s' /\ page x /\
    x ∉ tables (pm_mem s') root ++ free.
Proof.
  intros [O F D]. destruct (kpmalloc_cons kend kend_pos s x free F) as (l & R & HR & HF).
  assert (Hx : page x) by (destruct F as [_ H _ _]; by apply Forall_cons in H as [? _]).
  rewrite <- Permutation_middle in D. apply NoDup_cons in D as [Hni D].
  assert (Hni' : x ∉ tables (pm_mem s) root) by (intros H; apply Hni, elem_of_app; by left).
  assert (B : beside root x s (mkPm (memset (pm_mem s) x 5 PGSIZE) l (ld64 (pm_mem s) x))).
  { apply beside_intro; [exact O|exact Hx|exact Hni'| |exact HR].
    intros a Ha. cbn [pm_mem]. apply memset_out; [done|lia]. }
  eexists. split; [exact R|]. split; [|split; [exact B|split; [exact Hx|]]].
  - split; [apply B|exact HF|]. by rewrite (b_tables _ _ _ _ B).
  - by rewrite (b_tables _ _ _ _ B).
Qed.

Lemma vm_alloc_none s root :
  vm_ok kend s root [] ->
  exists s', kpmalloc s = Ret (0, s') /\ vm_ok kend s' root [] /\ pm_mem s' = pm_mem s /\ lk_restored (pm_lk s) (pm_lk s').
Proof.
  intros [O F D]. destruct (kpmalloc_empty kend s F) as (l & R & HR & HF).
  exists (set_lk l s). split; [exact R|]. split; [by split|done].
Qed.

Lemma vm_free_page s root x free :
  vm_ok kend s root free -> page x -> x ∉ tables (pm_mem s) root ++ free ->
  exists s', kpmfree kend x s = Ret (tt, s') /\ vm_ok kend s' root (x :: free) /\ beside root x s s'.
Proof.
  intros [O F D] Hx Hni. apply not_elem_of_app in Hni as [N1 N2].
  destruct (kpmfree_page kend kend_pos s x free F Hx N2) as (l & R & HR & HF).
  assert (B : beside root x s (mkPm (st64 (memset (pm_mem s) x 1 PGSIZE) x (freelist s)) l x)).
  { apply beside_intro; [exact O|exact Hx|exact N1| |exact HR]. intros a Ha. cbn [pm_mem].
    with_strategy transparent [st64] (unfold st64).
    rewrite ld8_stn_other by (unfold PGSIZE in *; change (Z.of_nat 8) with 8; lia). apply memset_out; [done|lia]. }
  eexists. split; [exact R|]. split; [|exact B].
  split; [apply B|exact HF|]. rewrite (b_tables _ _ _ _ B), <- Permutation_middle.
  constructor; [by apply not_elem_of_app|exact D].
Qed.

(** Writing a page that belongs to nobody else. *)
Lemma vm_write_page s root x m free :
  vm_ok kend s root free -> page x -> x ∉ tables (pm_mem s) root ++ free ->
  (forall a, ~ (x <= a < x + PGSIZE) -> ld8 m a = ld8 (pm_mem s) a) ->
  let s' := set_mem m s in vm_ok kend s' root free /\ beside root x s s'.
Proof.
  intros [O F D] Hx Hni Hm s'. apply not_elem_of_app in Hni as [N1 N2].
  assert (B : beside root x s s') by (apply beside_intro; [exact O|exact Hx|exact N1|exact Hm|apply lk_restored_refl]).
  split; [|exact B]. split; [apply B| |by rewrite (b_tables _ _ _ _ B)].
  destruct F as [F1 F2 F3 F4]. split; [|exact F2|exact F3|exact F4].
  apply (linked_other_page kend (pm_mem s) (pm_mem s') (freelist s) free x); [exact Hx|exact F2|exact N2| |exact F1].
  intros a Ha. apply (b_bytes _ _ _ _ B). lia.
Qed.

(** ** [walkaddr] *)

(** [walkaddr] returns the frame of a virtual address exactly when its page
    is a valid user page, and 0 otherwise, addresses beyond the limit included;
    it changes nothing. *)
Theorem walkaddr_translates s root va :
  pt_ok kend (pm_mem s) root -> 0 <= va ->
  walkaddr root va s =
  Ret (if (va <? MAXVA) && readable (pm_mem s) root va then PTE2PA (pte_of (pm_mem s) root va) else 0, s).
Proof.
  intros Hok Hva. unfold walkaddr. destruct (Z.leb_spec MAXVA va), (Z.ltb_spec va MAXVA); try lia; [done|].
  erewrite kbind_ret by by apply walk_read_ok. unfold readable, pte_of.
  destruct (leaf_slot (pm_mem s) root va) as [a|] eqn:E; [|done]. change (default 0 (Some a)) with a.
  apply leaf_slot_some in E as (t & _ & -> & Ht). rewrite (proj2 (Z.eqb_neq _ 0)).
  2:{ assert (Hpg : page t) by (apply (pt_page kend (pm_mem s) root); [done|by apply level0_table]).
      pose proof (page_pos kend kend_pos t Hpg). pose proof (IDX_range 0 va ltac:(done)). unfold slot. lia. }
  unfold load64. krun. destruct (has PTE_V _); [|done]. by destruct (has PTE_U _).
Qed.

(** ** [uvmunmap] *)

(** The frame of the entry is a page of its own. *)
Definition frame_ok (s : pmst) (root : Z) (free : list Z) (x : Z) : Prop :=
  page x /\ x ∉ tables (pm_mem s) root ++ free.

Definition leaf_pte (e : Z) : bool := has PTE_V e && negb (PTE_FLAGS e =? PTE_V).

Lemma pte_some_slot s root va :
  pt_ok kend (pm_mem s) root -> has PTE_V (pte_of (pm_mem s) root va) = true ->
  exists a, leaf_slot (pm_mem s) root va = Some a /\ a <> 0 /\ ld64 (pm_mem s) a = pte_of (pm_mem s) root va.
Proof.
  intros Hok HV. unfold pte_of in *. destruct (leaf_slot (pm_mem s) root va) as [a|] eqn:E; [|done].
  exists a. split; [done|]. split; [|done]. apply leaf_slot_some in E as (t & _ & -> & Ht).
  assert (Hpg : page t) by (apply (pt_page kend (pm_mem s) root); [done|by apply level0_table]).
  pose proof (page_pos kend kend_pos t Hpg). pose proof (IDX_range 0 va ltac:(done)). unfold slot. lia.
Qed.

(** Entries of [n] pages from [a] cleared. *)
Definition clear_range (a n : Z) (f : Z -> Z) (va : Z) : Z :=
  if (a <=? va) && (va <? a + n * PGSIZE) then 0 else f va.

(** From [s] to [s'] the tables stay, the entries become what [f] says and only
    bytes of the pages [X] and of the tables change. *)
Record retuned (root : Z) (f : Z -> Z) (X : list Z) (s s' : pmst) : Prop := {
  t_tables : tables (pm_mem s') root = tables (pm_mem s) root;
  t_pte : forall va, 0 <= va < 2 * MAXVA -> pte_of (pm_mem s') root va = f va;
  t_bytes : forall a, (forall t, t ∈ tables (pm_mem s) root ++ X -> ~ (t <= a < t + PGSIZE)) ->
    ld8 (pm_mem s') a = ld8 (pm_mem s) a;
  t_lk : lk_restored (pm_lk s) (pm_lk s')
}.

Lemma retuned_trans root f g X Y s1 s2 s3 :
  retuned root f X s1 s2 -> retuned root g Y s2 s3 -> retuned root g (X ++ Y) s1 s3.
Proof.
  intros [T1 P1 B1 L1] [T2 P2 B2 L2]. split; [congruence|done| |by eapply lk_restored_trans].
  intros a Ha. rewrite B2, B1; [done| |].
  - intros t Ht. apply Ha. apply elem_of_app in Ht as [Ht|Ht]; rewrite !elem_of_app; auto.
  - intros t Ht. apply Ha. rewrite T1 in Ht. apply elem_of_app in Ht as [Ht|Ht]; rewrite !elem_of_app; auto.
Qed.
Lemma retuned_ext root f g X s s' :
  (forall va, 0 <= va < 2 * MAXVA -> f va = g va) -> retuned root f X s s' -> retuned root g X s s'.
Proof. intros H [T P B L]. split; [done| |done|done]. intros va Hva. by rewrite P, H. Qed.

(** Clearing the entry of one address. *)
Lemma clear_one s root free va a :
  vm_ok kend s root free -> 0 <= va < MAXVA -> va mod PGSIZE = 0 -> leaf_slot (pm_mem s) root va = Some a ->
  vm_ok kend (set_mem (st64 (pm_mem s) a 0) s) root free /\
  retuned root (clear_range va 1 (pte_of (pm_mem s) root)) [] s (set_mem (st64 (pm_mem s) a 0) s).
Proof.
  intros Hok Hva Hal Ha. assert (Hva2 : 0 <= va < 2 * MAXVA) by lia. destruct (vm_set_leaf kend root s free va a 0 Hok Hva2 Ha) as [O _ P B L].
  split; [exact O|]. destruct (set_leaf kend _ _ _ _ 0 (vm_pt _ _ _ _ Hok) Hva2 Ha) as (_ & T & _).
  split; [exact T| | |exact L].
  - intros x Hx. rewrite P by done. unfold clear_range. change (u64 0) with 0.
    case_decide as Hd; rewrite page_of_aligned in Hd by done.
    + by rewrite (proj2 (Z.leb_le _ _)), (proj2 (Z.ltb_lt _ _)) by lia.
    + destruct (Z.leb_spec va x), (Z.ltb_spec x (va + 1 * PGSIZE)); simpl; try done. lia.
  - intros b Hb. destruct (leaf_slot_some _ _ _ _ Ha) as (t0 & _ & -> & L0). cbn [pm_mem set_mem].
    with_strategy transparent [st64] (unfold st64).
    pose proof (slot_in_page t0 (IDX 0 va) ltac:(by apply IDX_range)).
    specialize (Hb t0 ltac:(apply elem_of_app; left; by apply level0_table)).
    apply ld8_stn_other. change (Z.of_nat 8) with 8. lia.
Qed.

(** One iteration of [uvmunmap]: the frame is freed on request, then the entry
    is cleared. *)
Lemma unmap_one s root free va (do_free : bool) :
  vm_ok kend s root free -> 0 <= va < MAXVA -> va mod PGSIZE = 0 ->
  leaf_pte (pte_of (pm_mem s) root va) = true ->
  let x := PTE2PA (pte_of (pm_mem s) root va) in
  (do_free = true -> frame_ok s root free x) ->
  exists a s1 s', walk root va false s = Ret (a, s) /\ a <> 0 /\ ld64 (pm_mem s) a = pte_of (pm_mem s) root va /\
    (if do_free then kpmfree kend x else kret tt) s = Ret (tt, s1) /\ s' = set_mem (st64 (pm_mem s1) a 0) s1 /\
    vm_ok kend s' root (if do_free then x :: free else free) /\
    retuned root (clear_range va 1 (pte_of (pm_mem s) root)) (if do_free then [x] else []) s s'.
Proof.
  intros Hok Hva Hal Hl x Hx. unfold leaf_pte in Hl. apply andb_true_iff in Hl as [HV _].
  destruct (pte_some_slot s root va (vm_pt _ _ _ _ Hok) HV) as (a & Ha & Ha0 & He).
  assert (R : walk root va false s = Ret (a, s)) by (rewrite walk_read_ok by lia; by rewrite Ha).
  exists a. destruct do_free.
  - destruct (Hx eq_refl) as [Hpx Hnx].
    destruct (vm_free_page s root x free Hok Hpx Hnx) as (s1 & R1 & O1 & B1).
    assert (Ha1 : leaf_slot (pm_mem s1) root va = Some a).
    { rewrite <- Ha. apply leaf_slot_same. intros t Ht b Hb. apply (b_bytes _ _ _ _ B1). intros Hxb.
      assert (Htt : t ∈ tables (pm_mem s) root)
        by (apply elem_of_cons in Ht as [->|Ht]; [left|by apply level1_table]).
      apply (page_bytes kend x t b Hpx); [apply (pt_page kend (pm_mem s) root); [apply Hok|done]| |done|done].
      intros ->. apply Hnx, elem_of_app. by left. }
    destruct (clear_one s1 root (x :: free) va a O1 Hva Hal Ha1) as [O2 [T2 P2 B2 L2]].
    exists s1. eexists. split; [exact R|]. split; [exact Ha0|]. split; [exact He|]. split; [exact R1|].
    split; [reflexivity|]. split; [exact O2|]. split.
    + rewrite T2. apply (b_tables _ _ _ _ B1).
    + intros y Hy. rewrite P2 by done. unfold clear_range. by rewrite (b_pte _ _ _ _ B1).
    + intros b Hb. rewrite B2, (b_bytes _ _ _ _ B1); [done| |].
      * apply Hb. apply elem_of_app. right. left.
      * intros t Ht. apply Hb. rewrite (b_tables _ _ _ _ B1), app_nil_r in Ht. apply elem_of_app. by left.
    + eapply lk_restored_trans; [apply B1|exact L2].
  - destruct (clear_one s root free va a Hok Hva Hal Ha) as [O2 T2].
    exists s. eexists. split; [exact R|]. split; [exact Ha0|]. split; [exact He|]. split; [done|].
    split; [reflexivity|]. by split.
Qed.

Lemma clear_range_step a n f va : 0 <= n -> clear_range (a + PGSIZE) n (clear_range a 1 f) va = clear_range a (n + 1) f va.
Proof.
  intros Hn. unfold clear_range, PGSIZE.
  destruct (Z.leb_spec (a + 4096) va), (Z.ltb_spec va (a + 4096 + n * 4096)), (Z.leb_spec a va),
    (Z.ltb_spec va (a + 1 * 4096)), (Z.ltb_spec va (a + (n + 1) * 4096)); simpl; done || lia.
Qed.

Lemma uvmunmap_loop_ok xs : forall fuel s root free a (do_free : bool),
  vm_ok kend s root free -> 0 <= a -> a mod PGSIZE = 0 -> a + Z.of_nat (length xs) * PGSIZE <= MAXVA ->
  (forall i x, xs !! i = Some x -> leaf_pte (pte_of (pm_mem s) root (a + Z.of_nat i * PGSIZE)) = true /\
     PTE2PA (pte_of (pm_mem s) root (a + Z.of_nat i * PGSIZE)) = x) ->
  (do_free = true -> NoDup xs /\ Forall (frame_ok s root free) xs) -> (length xs < fuel)%nat ->
  exists s', uvmunmap_loop kend fuel root a (a + Z.of_nat (length xs) * PGSIZE) do_free s = Ret (tt, s') /\
    vm_ok kend s' root (if do_free then rev xs ++ free else free) /\
    retuned root (clear_range a (Z.of_nat (length xs)) (pte_of (pm_mem s) root)) (if do_free then xs else []) s s'.
Proof.
  induction xs as [|x xs IH]; intros [|fuel] s root free a do_free Hok Ha0 Hal HM Hx Hfr Hf; simpl in Hf; try lia.
  - exists s. cbn [uvmunmap_loop length]. rewrite (proj2 (Z.ltb_ge _ _)) by lia. split; [done|].
    split; [by destruct do_free|]. split; [done| |done|apply lk_restored_refl].
    intros va Hva. unfold clear_range. destruct (Z.leb_spec a va), (Z.ltb_spec va (a + Z.of_nat 0 * PGSIZE)); simpl; done || lia.
  - assert (HL : Z.of_nat (length (x :: xs)) = Z.of_nat (length xs) + 1) by (simpl length; lia). rewrite HL in *.
    assert (HaM : 0 <= a < MAXVA) by (unfold PGSIZE in *; lia).
    destruct (Hx 0%nat x eq_refl) as [Hlf Hpa]. rewrite Z.mul_0_l, Z.add_0_r in Hlf, Hpa.
    destruct (unmap_one s root free a do_free Hok HaM Hal Hlf) as (sl & s1 & s2 & R & Hsl & He & R1 & Es & O2 & RT).
    { intros ->. rewrite Hpa. destruct (Hfr eq_refl) as [_ HF]. by apply Forall_cons in HF as [? _]. }
    rewrite Hpa in *.
    destruct (IH fuel s2 root (if do_free then x :: free else free) (a + PGSIZE) do_free) as (s3 & R3 & O3 & RT3);
      [exact O2|unfold PGSIZE; lia|unfold PGSIZE in *; dlia|lia| | |lia|].
    { intros i y Hy. destruct (Hx (S i) y Hy) as [H1 H2].
      replace (a + Z.of_nat (S i) * PGSIZE) with (a + PGSIZE + Z.of_nat i * PGSIZE) in H1, H2 by lia.
      assert (Hi : (i < length xs)%nat) by (by eapply lookup_lt_Some).
      rewrite (t_pte _ _ _ _ _ RT) by (unfold PGSIZE in *; lia). unfold clear_range.
      rewrite (proj2 (Z.ltb_ge _ (a + 1 * PGSIZE))), andb_false_r by (unfold PGSIZE in *; lia). done. }
    { intros ->. destruct (Hfr eq_refl) as [Hnd HF]. apply NoDup_cons in Hnd as [Hni Hnd].
      apply Forall_cons in HF as [_ HF]. split; [done|]. rewrite Forall_forall in HF |- *.
      intros y Hy. destruct (HF y Hy) as [Hp Hn]. split; [done|]. rewrite (t_tables _ _ _ _ _ RT).
      rewrite elem_of_app in *. intros [?|?]; [tauto|]. apply elem_of_cons in H as [->|?]; [done|tauto]. }
    exists s3. split; [|split].
    + cbn [uvmunmap_loop]. rewrite (proj2 (Z.ltb_lt _ _)) by (unfold PGSIZE; lia).
      erewrite kbind_ret by exact R. rewrite (proj2 (Z.eqb_neq sl 0)) by done.
      unfold load64 at 1. krun. rewrite He. unfold leaf_pte in Hlf. apply andb_true_iff in Hlf as [-> Hfl].
      cbn [negb]. apply negb_true_iff in Hfl as ->. rewrite Hpa. erewrite kbind_ret by exact R1.
      unfold store64 at 1. krun. rewrite <- Es, u64_small by (change MAXVA with (2 ^ 38) in *; unfold PGSIZE in *; lia).
      replace (a + (Z.of_nat (length xs) + 1) * PGSIZE) with (a + PGSIZE + Z.of_nat (length xs) * PGSIZE) by lia.
      exact R3.
    + destruct do_free; [|exact O3]. simpl rev. by rewrite <- app_assoc.
    + eapply retuned_ext; [|destruct do_free; exact (retuned_trans _ _ _ _ _ _ _ _ RT RT3)].
      intros va Hva. cbn beta. rewrite <- clear_range_step by lia. unfold clear_range at 1 3.
      by rewrite (t_pte _ _ _ _ _ RT) by done.
Qed.

(** One page, whose frame stays as it is. *)
Lemma unmap_page_ok s root free va : vm_ok kend s root free -> va mod PGSIZE = 0 -> 0 <= va -> va + PGSIZE <= MAXVA ->
  leaf_pte (pte_of (pm_mem s) root va) = true ->
  exists s', uvmunmap kend 2 root va 1 false s = Ret (tt, s') /\ vm_ok kend s' root free /\
    retuned root (clear_range va 1 (pte_of (pm_mem s) root)) [] s s'.
Proof.
  intros O Hal H0 HM Hl.
  destruct (uvmunmap_loop_ok [PTE2PA (pte_of (pm_mem s) root va)] 2 s root free va false O) as (s' & R & O' & T);
    [lia|done|cbn [length]; lia| |done|cbn; lia|].
  { intros [|i] y Hy; [|done]. injection Hy as <-. rewrite Z.mul_0_l, Z.add_0_r. by split. }
  exists s'. split; [|by split]. unfold uvmunmap. rewrite Hal. cbn [Z.eqb negb]. rewrite u64_small.
  - exact R.
  - change MAXVA with (2 ^ 38) in HM. unfold PGSIZE in *. lia.
Qed.

(** ** [uvmalloc] and [uvmdealloc] *)

Definition umode (xperm : Z) : Z := Z.lor (Z.lor PTE_R PTE_U) xperm.
Definition uflags (xperm : Z) : Z := Z.lor (umode xperm) PTE_V.

Lemma umode_range xperm : 0 <= xperm < 1024 -> 0 <= umode xperm < 1024.
Proof. intros H. by apply lor_1024; [apply lor_1024|]. Qed.
Lemma uflags_range xperm : 0 <= xperm < 1024 -> 0 <= uflags xperm < 1024.
Proof. intros H. by apply lor_1024; [apply umode_range|]. Qed.

Lemma mkpte_flags pa f : 0 <= pa < 2 ^ 56 -> 0 <= f < 1024 -> PTE_FLAGS (mkpte pa f) = f.
Proof.
  intros Hp Hf. unfold PTE_FLAGS. rewrite mkpte_spec, land_low by done.
  rewrite Z.add_comm, Z.mod_add, Z.mod_small by lia. change 0x3ff with (Z.ones 10).
  rewrite Z.land_ones by lia. by apply Z.mod_small.
Qed.

Lemma user_leaf x xperm : page x -> 0 <= xperm < 1024 ->
  leaf_pte (mkpte x (uflags xperm)) = true /\ PTE2PA (mkpte x (uflags xperm)) = x /\
  has PTE_U (mkpte x (uflags xperm)) = true.
Proof.
  intros Hx Hp. destruct (page_56 kend kend_pos x Hx) as [H56 Hal]. pose proof (uflags_range xperm Hp) as Hf.
  rewrite mkpte_pa by done. unfold leaf_pte. rewrite mkpte_flags, !mkpte_has by done.
  assert (HV : has PTE_V (uflags xperm) = true) by (rewrite has_V; apply odd_lor_V). rewrite HV.
  split; [|split; [done|]].
  2:{ unfold has. apply negb_true_iff, Z.eqb_neq. intros E. apply (f_equal (fun z => Z.testbit z 4)) in E.
      rewrite Z.land_spec in E. unfold uflags, umode in E. rewrite !Z.lor_spec in E. change (Z.testbit PTE_U 4) with true in E.
      by rewrite orb_true_r, andb_true_r in E. }
  cbn [andb]. apply negb_true_iff, Z.eqb_neq. intros E.
  apply (f_equal (fun z => Z.testbit z 1)) in E. unfold uflags, umode in E. rewrite !Z.lor_spec in E.
  change (Z.testbit PTE_R 1) with true in E. by destruct (Z.testbit xperm 1).
Qed.

(** The pages from [base] mapped to the frames [F]. *)
Definition alloc_range (base : Z) (F : list Z) (flags : Z) (f : Z -> Z) (va : Z) : Z :=
  if (base <=? va) && (va <? base + Z.of_nat (length F) * PGSIZE)
  then mkpte (nth (Z.to_nat ((va - base) / PGSIZE)) F 0) flags else f va.

(** From [s0] to [s] the pages from [base] got the distinct zeroed frames [F];
    tables, frames and free pages are together those from before. *)
Record extended (root base : Z) (F : list Z) (flags : Z) (s0 : pmst) (free0 : list Z) (s : pmst) (free : list Z) : Prop := {
  x_ok : vm_ok kend s root free;
  x_frames : NoDup (tables (pm_mem s) root ++ F ++ free) /\ Forall page F;
  x_pte : forall va, 0 <= va < 2 * MAXVA -> pte_of (pm_mem s) root va = alloc_range base F flags (pte_of (pm_mem s0) root) va;
  x_pages : tables (pm_mem s) root ++ F ++ free ≡ₚ tables (pm_mem s0) root ++ free0;
  x_zero : forall x a, x ∈ F -> x <= a < x + PGSIZE -> ld8 (pm_mem s) a = 0;
  x_lk : lk_restored (pm_lk s0) (pm_lk s)
}.

Lemma extended_nil root base flags s free : vm_ok kend s root free -> extended root base [] flags s free s free.
Proof.
  intros H. split; [done|split; [apply H|done]| |done|by intros x a ?%elem_of_nil|apply lk_restored_refl].
  intros va Hva. unfold alloc_range. cbn [length].
  destruct (Z.leb_spec base va), (Z.ltb_spec va (base + Z.of_nat 0 * PGSIZE)); simpl; done || lia.
Qed.

Lemma alloc_range_at base F flags f i x :
  F !! i = Some x -> alloc_range base F flags f (base + Z.of_nat i * PGSIZE) = mkpte x flags.
Proof.
  intros Hi. assert (Hlt := lookup_lt_Some _ _ _ Hi). unfold alloc_range.
  rewrite (proj2 (Z.leb_le _ _)), (proj2 (Z.ltb_lt _ _)) by (unfold PGSIZE; lia). cbn [andb].
  replace (base + Z.of_nat i * PGSIZE - base) with (Z.of_nat i * PGSIZE) by lia.
  rewrite Z.div_mul, Nat2Z.id by done. by erewrite nth_lookup_Some.
Qed.

Lemma alloc_range_snoc base F x flags f va :
  base mod PGSIZE = 0 -> page x ->
  alloc_range base (F ++ [x]) flags f va =
  map_range (base + Z.of_nat (length F) * PGSIZE) x 1 flags (alloc_range base F flags f) va.
Proof.
  intros Hb Hx. unfold alloc_range, map_range. rewrite length_app. cbn [length].
  set (n := length F). replace (Z.of_nat (n + 1)) with (Z.of_nat n + 1) by lia.
  destruct (Z.leb_spec (base + Z.of_nat n * PGSIZE) va) as [H1|H1];
    destruct (Z.ltb_spec va (base + (Z.of_nat n + 1) * PGSIZE)) as [H2|H2];
    destruct (Z.ltb_spec va (base + Z.of_nat n * PGSIZE + 1 * PGSIZE)) as [H3|H3];
    destruct (Z.leb_spec base va) as [H4|H4];
    destruct (Z.ltb_spec va (base + Z.of_nat n * PGSIZE)) as [H5|H5]; cbn [andb]; try done; try (unfold PGSIZE in *; lia).
  - f_equal. replace ((va - base) / PGSIZE) with (Z.of_nat n) by (unfold PGSIZE in *; dlia).
    rewrite Nat2Z.id. unfold n. rewrite app_nth2, Nat.sub_diag by lia. cbn [nth].
    replace ((va - (base + Z.of_nat (length F) * PGSIZE)) / PGSIZE) with 0 by (unfold PGSIZE, n in *; dlia). lia.
  - f_equal. apply app_nth1. fold n. unfold PGSIZE in *. dlia.
Qed.

Lemma frames_apart s root F free :
  NoDup (tables (pm_mem s) root ++ F ++ free) -> Forall page F -> NoDup F /\ Forall (frame_ok s root free) F.
Proof.
  intros H HP. apply NoDup_app in H as (_ & D1 & H). apply NoDup_app in H as (H & D2 & _). split; [done|].
  rewrite Forall_forall in HP |- *. intros x Hx. split; [by apply HP|]. rewrite elem_of_app. intros [Ht|Hf].
  - apply (D1 x Ht), elem_of_app. by left.
  - by apply (D2 x Hx).
Qed.

(** Undoing: the mapped frames are unmapped and freed. *)
Lemma extended_undo fuel root base F xperm s0 free0 s free :
  extended root base F (uflags xperm) s0 free0 s free -> base mod PGSIZE = 0 -> 0 <= base ->
  base + Z.of_nat (length F) * PGSIZE <= MAXVA -> 0 <= xperm < 1024 -> (length F < fuel)%nat ->
  exists r s', uvmdealloc kend fuel root (base + Z.of_nat (length F) * PGSIZE) base s = Ret (r, s') /\
    vm_ok kend s' root (rev F ++ free) /\ tables (pm_mem s') root = tables (pm_mem s) root /\
    (forall va, 0 <= va < 2 * MAXVA -> pte_of (pm_mem s') root va =
       clear_range base (Z.of_nat (length F)) (pte_of (pm_mem s0) root) va) /\ lk_restored (pm_lk s) (pm_lk s').
Proof.
  intros [O [ND HP] P PG Z0 L] Hb Hb0 HM Hxp Hf. unfold uvmdealloc.
  destruct (frames_apart s root F free ND HP) as [NF FF].
  assert (UP : forall x, x mod PGSIZE = 0 -> 0 <= x <= MAXVA -> PGROUNDUP x = x).
  { intros x Hx Hr. rewrite PGROUNDUP_spec by (change MAXVA with (2 ^ 38) in Hr; unfold PGSIZE in *; lia).
    unfold PGSIZE in *. dlia. }
  destruct (Z.leb_spec (base + Z.of_nat (length F) * PGSIZE) base) as [Hle|Hgt].
  - assert (F = []) as ->; [|].
    { destruct F; [done|]. cbn [length] in Hle. unfold PGSIZE in Hle. lia. }
    eexists _, s. split; [reflexivity|]. split; [done|]. split; [done|]. split; [|apply lk_restored_refl].
    intros va Hva. rewrite P by done. unfold clear_range, alloc_range. cbn [length].
    by destruct (Z.leb_spec base va), (Z.ltb_spec va (base + Z.of_nat 0 * PGSIZE)); simpl; try done; lia.
  - rewrite !UP by (unfold PGSIZE in *; try lia; dlia). rewrite (proj2 (Z.ltb_lt _ _)) by lia.
    replace ((base + Z.of_nat (length F) * PGSIZE - base) / PGSIZE) with (Z.of_nat (length F)).
    2:{ replace (base + Z.of_nat (length F) * PGSIZE - base) with (Z.of_nat (length F) * PGSIZE) by lia.
        by rewrite Z.div_mul. }
    destruct (uvmunmap_loop_ok F fuel s root free base true O Hb0 Hb HM) as (s' & R & O' & [T' P' B' L']); [|done|done|].
    { intros i x Hi. rewrite P.
      - rewrite (alloc_range_at _ _ _ _ _ _ Hi).
        assert (Hx : page x) by (rewrite Forall_lookup in HP; by apply (HP i x Hi)).
        destruct (user_leaf x xperm Hx Hxp) as (? & ? & _). done.
      - assert (Hlt := lookup_lt_Some _ _ _ Hi). unfold PGSIZE in *. lia. }
    exists base, s'. split; [|split; [exact O'|split; [exact T'|split; [|exact L']]]].
    + unfold uvmunmap. rewrite Hb. cbn [Z.eqb negb].
      assert (Hs : s32 (Z.of_nat (length F)) = Z.of_nat (length F)).
      { assert (Hlen : Z.of_nat (length F) < 2 ^ 31) by (change MAXVA with (2 ^ 38) in HM; unfold PGSIZE in *; lia).
        unfold s32. rewrite u32_small by lia. by rewrite (proj2 (Z.ltb_lt _ _)). }
      rewrite Hs, u64_small by (change MAXVA with (2 ^ 38) in HM; unfold PGSIZE in *; lia).
      by erewrite kbind_ret by exact R.
    + intros va Hva. rewrite P' by done. unfold clear_range.
      destruct (_ && _) eqn:E; [done|]. rewrite P by done. unfold alloc_range. by rewrite E.
Qed.

(** Fresh and mapped pages are apart from the tables and the free pages. *)
Lemma pages_apart s root x F free : NoDup (tables (pm_mem s) root ++ F ++ x :: free) -> Forall page F -> vm_ok kend s root (x :: free) ->
  forall y b, y ∈ x :: F -> y <= b < y + PGSIZE -> forall t, t ∈ tables (pm_mem s) root ++ free -> ~ (t <= b < t + PGSIZE).
Proof.
  intros ND HP [O [_ FP _ _] _] y b Hy Hyb t Ht Htb. apply Forall_cons in FP as [Hx FP].
  assert (Hpy : page y) by (apply elem_of_cons in Hy as [->|Hy]; [done|by apply (proj1 (Forall_forall _ _) HP)]).
  assert (Hpt : page t) by (apply elem_of_app in Ht as [Ht|Ht]; [by apply (pt_page kend (pm_mem s) root)|by apply (proj1 (Forall_forall _ _) FP)]).
  apply (page_bytes kend y t b Hpy Hpt); [|done|done]. intros ->.
  assert (ND' : NoDup ((x :: F) ++ tables (pm_mem s) root ++ free)) by (revert ND; apply NoDup_Permutation_proper; solve_Permutation).
  apply NoDup_app in ND' as (_ & D & _). by apply (D t).
Qed.

(** One page, whose frame is not taken from the free pages. *)
Lemma map_page_ok s root free a pa mode :
  vm_ok kend s root free -> a mod PGSIZE = 0 -> 0 <= a < MAXVA -> pa mod PGSIZE = 0 -> 0 <= pa -> pa + PGSIZE <= 2 ^ 56 ->
  0 <= mode < 1024 -> has PTE_V (pte_of (pm_mem s) root a) = false ->
  exists r s' free', mappages 1 root a pa PGSIZE mode s = Ret (r, s') /\
    (r = 0 /\ (length free <= 2 + length free')%nat /\
       remapped kend root (map_range a pa 1 (Z.lor mode PTE_V) (pte_of (pm_mem s) root)) s free s' free' \/
     r = -1 /\ (length free <= 1)%nat /\ free' = [] /\ remapped kend root (pte_of (pm_mem s) root) s free s' free').
Proof.
  intros O Hal Ha Hpal Hpa HpP Hmode Hun. assert (HaP : 0 <= pa < 2 ^ 56) by (unfold PGSIZE in *; lia).
  assert (Run : mappages 1 root a pa PGSIZE mode s = mappages_loop 1 root a a pa mode s).
  { unfold mappages. rewrite !land_page_zero, Hal. cbn [Z.eqb negb]. change (PGSIZE mod PGSIZE =? 0) with true. cbn [negb].
    by replace (u64 (a + PGSIZE - PGSIZE)) with a by (rewrite u64_small; [lia|change MAXVA with (2 ^ 38) in Ha; lia]). }
  rewrite Run. cbn [mappages_loop].
  destruct (map_one kend kend_pos s free root a pa mode O Hal Ha Hpal HaP Hmode Hun) as
    [(sl & s1 & s2 & f1 & Hsl & R & HV & -> & RM & N)|(s1 & R & N & RM)]; erewrite kbind_ret by exact R.
  - eexists 0, _, f1. split; [|left; split; [done|split; [exact N|exact RM]]]. rewrite (proj2 (Z.eqb_neq sl 0)) by done.
    unfold load64 at 1. krun. rewrite HV. unfold store64 at 1. krun. by rewrite Z.eqb_refl.
  - exists (-1), s1, []. split; [done|]. right. split; [done|]. split; [done|]. split; [done|].
    eapply remapped_ext; [|exact RM]. intros va _. by rewrite map_range_zero.
Qed.

(** A fresh page [x], written as [m] says and mapped at [a]: it is, or there is
    no page for a table and no translation has changed. *)
Lemma fresh_page s root x free a mode :
  vm_ok kend s root (x :: free) -> a mod PGSIZE = 0 -> 0 <= a < MAXVA -> 0 <= mode < 1024 ->
  has PTE_V (pte_of (pm_mem s) root a) = false ->
  page x /\ x <> 0 /\ exists s1, kpmalloc s = Ret (x, s1) /\ (forall b, ~ (x <= b < x + PGSIZE) -> ld8 (pm_mem s1) b = ld8 (pm_mem s) b) /\
    forall m, (forall b, ~ (x <= b < x + PGSIZE) -> ld8 m b = ld8 (pm_mem s1) b) ->
    exists r s2 free2, mappages 1 root a x PGSIZE mode (set_mem m s1) = Ret (r, s2) /\ vm_ok kend s2 root free2 /\
      ~ (x ∈ tables (pm_mem s2) root ++ free2) /\ tables (pm_mem s2) root ++ free2 ≡ₚ (tables (pm_mem s) root ++ free) /\
      (forall b, (forall t, t ∈ tables (pm_mem s) root ++ free -> ~ (t <= b < t + PGSIZE)) -> ld8 (pm_mem s2) b = ld8 m b) /\
      lk_restored (pm_lk s) (pm_lk s2) /\
      ((r = 0 /\ forall va, 0 <= va < 2 * MAXVA ->
          pte_of (pm_mem s2) root va = map_range a x 1 (Z.lor mode PTE_V) (pte_of (pm_mem s) root) va) \/
       (r = -1 /\ free2 = [] /\ forall va, 0 <= va < 2 * MAXVA -> pte_of (pm_mem s2) root va = pte_of (pm_mem s) root va)).
Proof.
  intros O Hal Ha Hmode Hun. destruct (vm_alloc_page s root x free O) as (s1 & R1 & O1 & B1 & Hx & N1).
  destruct (page_56 kend kend_pos x Hx) as [H56 Hxal]. split; [exact Hx|]. split; [pose proof (page_pos kend kend_pos x Hx); lia|].
  exists s1. split; [exact R1|]. split; [apply B1|]. intros m Hm. destruct (vm_write_page s1 root x m free O1 Hx N1 Hm) as [O2 B2].
  set (s1' := set_mem m s1) in *.
  assert (T2 : tables (pm_mem s1') root = tables (pm_mem s) root)
    by (rewrite (b_tables _ _ _ _ B2); apply (b_tables _ _ _ _ B1)).
  assert (P2 : forall va, pte_of (pm_mem s1') root va = pte_of (pm_mem s) root va)
    by (intros va; rewrite (b_pte _ _ _ _ B2); apply (b_pte _ _ _ _ B1)).
  assert (HxP : x + PGSIZE <= 2 ^ 56) by (destruct Hx as [_ Hx]; unfold PHYSTOP, KERNBASE, PGSIZE in *; lia).
  destruct (map_page_ok s1' root free a x mode O2 Hal Ha Hxal ltac:(lia) HxP Hmode) as (r & s2 & free2 & R & HR); [by rewrite P2|].
  assert (HRM : exists f, remapped kend root f s1' free s2 free2) by (destruct HR as [(_ & _ & ?)|(_ & _ & _ & ?)]; eauto).
  destruct HRM as [f RM]. pose proof (remapped_perm _ _ _ _ _ _ _ RM) as PM. rewrite T2 in PM.
  exists r, s2, free2. split; [exact R|split; [apply RM|split; [|split; [exact PM|split; [|split]]]]].
  - rewrite PM. by rewrite (b_tables _ _ _ _ B1) in N1.
  - intros b Hb. rewrite (r_bytes _ _ _ _ _ _ _ RM); [done|]. by rewrite T2.
  - eapply lk_restored_trans; [apply B1|apply RM].
  - destruct HR as [(-> & _ & RM')|(-> & _ & -> & RM')]; [left|right]; (split; [done|]); [|split; [done|]].
    all: intros va Hva; rewrite (r_pte _ _ _ _ _ _ _ RM') by done; unfold map_range; by rewrite ?P2.
Qed.

(** One more page: taken, cleared and mapped at the end of the range, or given
    back when the tables cannot be extended. *)
Lemma extended_page root base F xperm s0 free0 s x free :
  extended root base F (uflags xperm) s0 free0 s (x :: free) ->
  let a := base + Z.of_nat (length F) * PGSIZE in
  base mod PGSIZE = 0 -> 0 <= base -> a < MAXVA -> 0 <= xperm < 1024 ->
  has PTE_V (pte_of (pm_mem s0) root a) = false ->
  exists s1 s2 r free2, kpmalloc s = Ret (x, s1) /\ x <> 0 /\
    mappages 1 root a x PGSIZE (umode xperm) (set_mem (memset (pm_mem s1) x 0 PGSIZE) s1) = Ret (r, s2) /\
    ((r = 0 /\ extended root base (F ++ [x]) (uflags xperm) s0 free0 s2 free2) \/
     (r = -1 /\ exists s3, kpmfree kend x s2 = Ret (tt, s3) /\ extended root base F (uflags xperm) s0 free0 s3 [x])).
Proof.
  intros [O [ND HP] P PG Z0 L] a Hb Hb0 HaM Hxp Hun.
  assert (Hal : a mod PGSIZE = 0) by (unfold a, PGSIZE in *; dlia). assert (Ha0 : 0 <= a) by (unfold a, PGSIZE; lia).
  assert (Hold : pte_of (pm_mem s) root a = pte_of (pm_mem s0) root a).
  { rewrite P by lia. unfold alloc_range. fold a. by rewrite (proj2 (Z.ltb_ge a a)), andb_false_r by lia. }
  destruct (fresh_page s root x free a (umode xperm) O Hal ltac:(lia) (umode_range _ Hxp)) as (Hx & Hx0 & s1 & R1 & B1 & HM); [by rewrite Hold|].
  destruct (HM (memset (pm_mem s1) x 0 PGSIZE)) as (r & s2 & free2 & R2 & O2 & N2 & PM & B2 & L2 & HR); [intros b Hb'; apply memset_out; [done|lia]|].
  assert (PALL : x :: tables (pm_mem s2) root ++ F ++ free2 ≡ₚ tables (pm_mem s0) root ++ free0).
  { rewrite <- PG. transitivity (x :: F ++ (tables (pm_mem s2) root ++ free2)); [solve_Permutation|]. rewrite PM. solve_Permutation. }
  assert (NALL : NoDup (x :: tables (pm_mem s2) root ++ F ++ free2)) by (rewrite PALL, <- PG; exact ND).
  assert (Z2 : forall y b, y ∈ x :: F -> y <= b < y + PGSIZE -> ld8 (pm_mem s2) b = 0).
  { intros y b Hy Hyb. rewrite B2.
    - destruct (decide (x <= b < x + PGSIZE)) as [Hxb|Hxb]; [by rewrite memset_in|]. rewrite memset_out, B1 by (done || lia).
      apply elem_of_cons in Hy as [->|Hy]; [done|]. by apply (Z0 y).
    - apply (pages_apart s root x F free ND HP O y b Hy Hyb). }
  exists s1, s2, r, free2. split; [exact R1|]. split; [done|]. split; [exact R2|]. destruct HR as [[-> P2]|(-> & -> & P2)].
  - left. split; [done|]. split.
    + exact O2.
    + split; [|apply Forall_app; split; [done|by constructor]]. revert NALL. apply NoDup_Permutation_proper. solve_Permutation.
    + intros va Hva. rewrite P2, alloc_range_snoc by done. fold a. unfold uflags, map_range. destruct (_ && _); [done|]. by apply P.
    + rewrite <- PALL. solve_Permutation.
    + intros y b Hy. apply Z2. apply elem_of_app in Hy as [Hy|Hy]; [by right|]. apply list_elem_of_singleton in Hy as ->. left.
    + by eapply lk_restored_trans.
  - right. split; [done|]. destruct (vm_free_page s2 root x [] O2 Hx N2) as (s3 & R3 & O3 & B3).
    exists s3. split; [exact R3|]. split.
    + exact O3.
    + split; [|done]. rewrite (b_tables _ _ _ _ B3). revert NALL. apply NoDup_Permutation_proper. solve_Permutation.
    + intros va Hva. by rewrite (b_pte _ _ _ _ B3), P2, P.
    + rewrite (b_tables _ _ _ _ B3), <- PALL. solve_Permutation.
    + intros y b Hy Hyb. rewrite (b_bytes _ _ _ _ B3); [apply (Z2 y); [by right|done]|]. rewrite Forall_forall in HP.
      intros Hxb. apply (page_bytes kend y x b (HP y Hy) Hx); [|done|done]. intros ->.
      apply NoDup_cons in NALL as [Nx _]. apply Nx. rewrite !elem_of_app. tauto.
    + eapply lk_restored_trans; [exact L|]. eapply lk_restored_trans; [exact L2|apply B3].
Qed.

(** Without a free page nothing changes. *)
Lemma extended_no_page root base F flags s0 free0 s :
  extended root base F flags s0 free0 s [] ->
  exists s1, kpmalloc s = Ret (0, s1) /\ extended root base F flags s0 free0 s1 [].
Proof.
  intros [O N P PG Z0 L]. destruct (vm_alloc_none s root O) as (s1 & R & O1 & Em & L1).
  exists s1. split; [exact R|]. split; rewrite ?Em; try done. by eapply lk_restored_trans.
Qed.

Lemma uvmalloc_loop_ok k : forall fuel F root base newsz xperm s0 free0 s free,
  extended root base F (uflags xperm) s0 free0 s free -> base mod PGSIZE = 0 -> 0 <= base ->
  0 <= xperm < 1024 -> newsz <= MAXVA ->
  (forall va, base <= va -> va / PGSIZE * PGSIZE < newsz -> has PTE_V (pte_of (pm_mem s0) root va) = false) ->
  base + Z.of_nat (length F + k) * PGSIZE = Z.max base (PGROUNDUP newsz) -> 0 <= newsz -> (length F + 2 * k < fuel)%nat ->
  exists r s' free', uvmalloc_loop kend fuel root (base + Z.of_nat (length F) * PGSIZE) base newsz xperm s = Ret (r, s') /\
    ((r = newsz /\ exists F', extended root base F' (uflags xperm) s0 free0 s' free' /\
        base + Z.of_nat (length F') * PGSIZE = Z.max base (PGROUNDUP newsz)) \/
     (r = 0 /\ vm_ok kend s' root free' /\ tables (pm_mem s') root ++ free' ≡ₚ tables (pm_mem s0) root ++ free0 /\
        lk_restored (pm_lk s0) (pm_lk s') /\
        exists n, 0 <= n /\ base + n * PGSIZE < PGROUNDUP newsz /\
          forall va, 0 <= va < 2 * MAXVA -> pte_of (pm_mem s') root va = clear_range base n (pte_of (pm_mem s0) root) va)).
Proof.
  induction k as [|k IH]; intros fuel F root base newsz xperm s0 free0 s free X Hb Hb0 Hxp HM Hun Hlen Hn0 Hf;
    (destruct fuel as [|fuel]; [lia|]); cbn [uvmalloc_loop].
  - assert (HU : PGROUNDUP newsz = (newsz + PGSIZE - 1) / PGSIZE * PGSIZE)
      by (apply PGROUNDUP_spec; change MAXVA with (2 ^ 38) in HM; unfold PGSIZE; lia).
    rewrite Nat.add_0_r in Hlen.
    rewrite (proj2 (Z.ltb_ge _ _)) by (rewrite HU in Hlen; unfold PGSIZE in *; dlia).
    exists newsz, s, free. split; [done|]. left. split; [done|]. by exists F.
  - assert (HU : PGROUNDUP newsz = (newsz + PGSIZE - 1) / PGSIZE * PGSIZE)
      by (apply PGROUNDUP_spec; change MAXVA with (2 ^ 38) in HM; unfold PGSIZE; lia).
    set (a := base + Z.of_nat (length F) * PGSIZE).
    assert (HaU : a + PGSIZE <= PGROUNDUP newsz) by (unfold a, PGSIZE in *; lia).
    assert (Hal : a mod PGSIZE = 0) by (unfold a, PGSIZE in *; dlia).
    assert (Ha : a < newsz) by (rewrite HU in HaU; unfold PGSIZE in *; dlia).
    rewrite (proj2 (Z.ltb_lt a newsz)) by done.
    assert (HF : base + Z.of_nat (length F) * PGSIZE <= MAXVA) by (fold a; lia).
    assert (Fail : forall sx freex, extended root base F (uflags xperm) s0 free0 sx freex ->
      exists s' free', (uvmdealloc kend (S fuel) root a base ;; kret 0) sx = Ret (0, s') /\
        vm_ok kend s' root free' /\ tables (pm_mem s') root ++ free' ≡ₚ tables (pm_mem s0) root ++ free0 /\
        lk_restored (pm_lk s0) (pm_lk s') /\
        exists n, 0 <= n /\ base + n * PGSIZE < PGROUNDUP newsz /\
          forall va, 0 <= va < 2 * MAXVA -> pte_of (pm_mem s') root va = clear_range base n (pte_of (pm_mem s0) root) va).
    { intros sx fx X'. destruct (extended_undo (S fuel) root base F xperm s0 free0 sx fx X' Hb Hb0 HF Hxp ltac:(lia))
        as (r & s' & R & O' & T' & P' & L').
      exists s', (rev F ++ fx). split; [by erewrite kbind_ret by exact R|]. split; [exact O'|]. split; [|split].
      - rewrite T', <- (x_pages _ _ _ _ _ _ _ _ X'), <- Permutation_rev. done.
      - eapply lk_restored_trans; [apply X'|exact L'].
      - exists (Z.of_nat (length F)). split; [lia|]. split; [unfold a, PGSIZE in *; lia|exact P']. }
    destruct free as [|x free].
    + destruct (extended_no_page _ _ _ _ _ _ _ X) as (s1 & R1 & X1).
      destruct (Fail s1 [] X1) as (s' & free' & R & HR). exists 0, s', free'. split; [|by right].
      by erewrite kbind_ret by exact R1.
    + destruct (extended_page root base F xperm s0 free0 s x free X Hb Hb0) as
        (s1 & s2 & r & free2 & R1 & Hx0 & R2 & [[-> X2]|(-> & s3 & R3 & X3)]); [fold a; lia|done| | |].
      { fold a. apply Hun; [unfold a, PGSIZE; lia|]. unfold PGSIZE in *. dlia. }
      * destruct (IH fuel (F ++ [x]) root base newsz xperm s0 free0 s2 free2 X2 Hb Hb0 Hxp HM Hun)
          as (r & s' & free' & R & HR); [|done| |].
        { rewrite length_app. cbn [length]. rewrite <- Hlen. do 3 f_equal. lia. }
        { rewrite length_app. cbn [length]. lia. }
        exists r, s', free'. split; [|exact HR]. erewrite kbind_ret by exact R1.
        rewrite (proj2 (Z.eqb_neq x 0)) by done. unfold fill at 1. krun.
        erewrite kbind_ret by exact R2. cbn [Z.eqb negb].
        rewrite u64_small by (change MAXVA with (2 ^ 38) in *; unfold PGSIZE in *; lia).
        rewrite length_app in R. cbn [length] in R.
        replace (a + PGSIZE) with (base + Z.of_nat (length F + 1) * PGSIZE) by (unfold a; lia). exact R.
      * destruct (Fail s3 [x] X3) as (s' & free' & R & HR). exists 0, s', free'. split; [|by right].
        erewrite kbind_ret by exact R1. rewrite (proj2 (Z.eqb_neq x 0)) by done. unfold fill at 1. krun.
        erewrite kbind_ret by exact R2. change (negb (-1 =? 0)) with true. cbv iota.
        by erewrite kbind_ret by exact R3.
Qed.

Lemma uvmalloc_ok fuel root oldsz newsz xperm s free :
  vm_ok kend s root free -> 0 <= oldsz <= newsz -> newsz <= MAXVA -> 0 <= xperm < 1024 ->
  (forall va, PGROUNDUP oldsz <= va -> va / PGSIZE * PGSIZE < newsz -> has PTE_V (pte_of (pm_mem s) root va) = false) ->
  2 * (newsz / PGSIZE + 2) < Z.of_nat fuel ->
  exists r s' free', uvmalloc kend fuel root oldsz newsz xperm s = Ret (r, s') /\
    ((r = newsz /\ exists F, extended root (PGROUNDUP oldsz) F (uflags xperm) s free s' free' /\
        PGROUNDUP oldsz + Z.of_nat (length F) * PGSIZE = PGROUNDUP newsz) \/
     (r = 0 /\ vm_ok kend s' root free' /\ tables (pm_mem s') root ++ free' ≡ₚ tables (pm_mem s) root ++ free /\
        lk_restored (pm_lk s) (pm_lk s') /\
        exists n, 0 <= n /\ PGROUNDUP oldsz + n * PGSIZE < PGROUNDUP newsz /\
          forall va, 0 <= va < 2 * MAXVA ->
            pte_of (pm_mem s') root va = clear_range (PGROUNDUP oldsz) n (pte_of (pm_mem s) root) va)).
Proof.
  intros Hok Hsz HM Hxp Hun Hf. unfold uvmalloc. rewrite (proj2 (Z.ltb_ge _ _)) by lia.
  assert (HU : forall x, 0 <= x <= MAXVA -> PGROUNDUP x = (x + PGSIZE - 1) / PGSIZE * PGSIZE).
  { intros x Hx. apply PGROUNDUP_spec. change MAXVA with (2 ^ 38) in Hx. unfold PGSIZE. lia. }
  set (base := PGROUNDUP oldsz) in *. assert (Eb : base = (oldsz + PGSIZE - 1) / PGSIZE * PGSIZE) by (apply HU; lia).
  assert (EN : PGROUNDUP newsz = (newsz + PGSIZE - 1) / PGSIZE * PGSIZE) by (apply HU; lia).
  assert (Hal : base mod PGSIZE = 0) by (rewrite Eb; by apply Z.mod_mul).
  assert (HbN : base <= PGROUNDUP newsz) by (rewrite Eb, EN; unfold PGSIZE in *; dlia).
  assert (Hb0 : 0 <= base) by (rewrite Eb; unfold PGSIZE in *; dlia).
  set (k := Z.to_nat ((PGROUNDUP newsz - base) / PGSIZE)).
  assert (HNal : PGROUNDUP newsz mod PGSIZE = 0) by (rewrite EN; by apply Z.mod_mul).
  assert (Hk : base + Z.of_nat k * PGSIZE = PGROUNDUP newsz).
  { unfold k. rewrite Z2Nat.id by (unfold PGSIZE in *; dlia). unfold PGSIZE in *. dlia. }
  destruct (uvmalloc_loop_ok k fuel [] root base newsz xperm s free s free) as (r & s' & free' & R & HR);
    [by apply extended_nil|done|done|done|done|done| |lia| |].
  - cbn [length]. rewrite Nat.add_0_l. lia.
  - cbn [length]. unfold PGSIZE in *. dlia.
  - exists r, s', free'. cbn [length] in R. rewrite Z.mul_0_l, Z.add_0_r in R. split; [exact R|].
    rewrite Z.max_r in HR by done. exact HR.
Qed.

(** [uvmalloc] grows an address space or leaves it as it was. Growing from
    [oldsz] to [newsz], it either returns [newsz] and every page of the rounded
    range is mapped, with the user, read and requested bits, to a frame of its
    own full of zeroes; or it returns 0 and no translation is left of the
    pages it had mapped, whose frames are back in the free list. In both cases
    no other entry changes and no page is lost: tables, frames and free pages
    are together those from before. *)
Theorem uvmalloc_grows_or_undoes fuel root oldsz newsz xperm s free :
  vm_ok kend s root free -> 0 <= oldsz <= newsz -> newsz <= MAXVA -> 0 <= xperm < 1024 ->
  (forall va, PGROUNDUP oldsz <= va -> va / PGSIZE * PGSIZE < newsz -> has PTE_V (pte_of (pm_mem s) root va) = false) ->
  2 * (newsz / PGSIZE + 2) < Z.of_nat fuel ->
  exists r s' free', uvmalloc kend fuel root oldsz newsz xperm s = Ret (r, s') /\
    ((r = newsz /\ exists F, extended root (PGROUNDUP oldsz) F (uflags xperm) s free s' free' /\
        PGROUNDUP oldsz + Z.of_nat (length F) * PGSIZE = PGROUNDUP newsz) \/
     (r = 0 /\ vm_ok kend s' root free' /\ tables (pm_mem s') root ++ free' ≡ₚ tables (pm_mem s) root ++ free /\
        lk_restored (pm_lk s) (pm_lk s') /\
        exists n, 0 <= n /\ PGROUNDUP oldsz + n * PGSIZE < PGROUNDUP newsz /\
          forall va, 0 <= va < 2 * MAXVA ->
            pte_of (pm_mem s') root va = clear_range (PGROUNDUP oldsz) n (pte_of (pm_mem s) root) va)).
Proof. apply uvmalloc_ok. Qed.

(** ** [uvmfree] *)

(** The pages reached through an entry: the subtree of a table, or the frame of
    a user page. *)
Definition reached (sub : option (Z -> list Z)) (e : Z) : list Z :=
  if has PTE_V e then
    match sub with
    | Some sub => if negb (has PTE_RWX e) then sub (PTE2PA e) else if has PTE_U e then [PTE2PA e] else []
    | None => if has PTE_U e then [PTE2PA e] else []
    end
  else [].

(** The pages of the tree at the table [t] of a level: the tables and the
    frames of the user pages. *)
Fixpoint space_def (level : nat) (m : mem) (t : Z) : list Z :=
  t :: (idxs ≫= fun j =>
          reached (match level with O => None | S l => Some (space_def l m) end) (entry m t j)).
Definition space_aux : seal space_def. Proof. by eexists. Qed.
Definition space : nat -> mem -> Z -> list Z := unseal space_aux.
Definition below (level : nat) (m : mem) : option (Z -> list Z) :=
  match level with O => None | S l => Some (space l m) end.
Lemma space_eq level m t : space level m t = t :: (idxs ≫= fun j => reached (below level m) (entry m t j)).
Proof. unfold below, space. rewrite seal_eq. destruct level; reflexivity. Qed.

Lemma reached_same level m m' e :
  (forall l t, level = S l -> (forall p, p ∈ space l m t -> same_page_bytes m m' p) -> space l m' t = space l m t) ->
  (forall p, p ∈ reached (below level m) e -> same_page_bytes m m' p) ->
  reached (below level m') e = reached (below level m) e.
Proof.
  intros HI HS. unfold reached in *. destruct (has PTE_V e); [|done]. destruct level as [|l]; [done|].
  cbn [below] in *. destruct (negb (has PTE_RWX e)); [|done]. by apply (HI l).
Qed.

Lemma space_same level : forall m m' t,
  (forall p, p ∈ space level m t -> same_page_bytes m m' p) -> space level m' t = space level m t.
Proof.
  assert (Step : forall level m m' t,
    (forall l u, level = S l -> (forall p, p ∈ space l m u -> same_page_bytes m m' p) -> space l m' u = space l m u) ->
    (forall p, p ∈ space level m t -> same_page_bytes m m' p) -> space level m' t = space level m t).
  { clear. intros level m m' t HI H. rewrite !space_eq. f_equal. apply bind_ext. intros j Hj.
    rewrite (entry_same m m' t j); [|apply H; rewrite space_eq; left|by apply elem_of_idxs].
    apply reached_same; [exact HI|]. intros p Hp. apply H. rewrite space_eq. right.
    apply list_elem_of_bind. exists j. split; [exact Hp|exact Hj]. }
  induction level as [|level IH]; intros m m' t H; (apply Step; [|exact H]); intros l u E.
  - discriminate E.
  - injection E as <-. apply IH.
Qed.

(** From [s] to [s'] the pages [P] joined the free list and only bytes of [P]
    and of the pages [W] changed. *)
Record freed (P W : list Z) (s : pmst) (free : list Z) (s' : pmst) (free' : list Z) : Prop := {
  fr_list : free_list kend s' free';
  fr_perm : free' ≡ₚ P ++ free;
  fr_bytes : forall a, (forall p, p ∈ W ++ P -> ~ (p <= a < p + PGSIZE)) -> ld8 (pm_mem s') a = ld8 (pm_mem s) a;
  fr_lk : lk_restored (pm_lk s) (pm_lk s')
}.

Lemma freed_nil W s free : free_list kend s free -> freed [] W s free s free.
Proof. intros H. split; [exact H|done|done|apply lk_restored_refl]. Qed.

Lemma freed_trans P Q W s1 f1 s2 f2 s3 f3 :
  freed P W s1 f1 s2 f2 -> freed Q W s2 f2 s3 f3 -> freed (P ++ Q) W s1 f1 s3 f3.
Proof.
  intros [L1 P1 B1 K1] [L2 P2 B2 K2]. split; [exact L2| | |by eapply lk_restored_trans].
  - rewrite P2, P1. solve_Permutation.
  - intros a Ha. rewrite B2, B1; [done| |]; intros p Hp; apply Ha; revert Hp; rewrite !elem_of_app; tauto.
Qed.

Lemma freed_weaken P W W' s free s' free' : W ⊆ W' -> freed P W s free s' free' -> freed P W' s free s' free'.
Proof.
  intros HW [L1 P1 B1 K1]. split; [exact L1|exact P1| |exact K1]. intros a Ha. apply B1. intros p Hp. apply Ha.
  revert Hp. rewrite !elem_of_app. intros [?|?]; auto.
Qed.

Lemma free_one s free x W : free_list kend s free -> page x -> x ∉ free ->
  exists s', kpmfree kend x s = Ret (tt, s') /\ freed [x] W s free s' (x :: free).
Proof.
  intros F Hx Hni. destruct (kpmfree_page kend kend_pos s x free F Hx Hni) as (l & R & HR & HF).
  eexists. split; [exact R|]. split; [exact HF|done| |exact HR].
  intros a Ha. cbn [pm_mem]. assert (Hax : ~ (x <= a < x + PGSIZE)) by (apply Ha, elem_of_app; right; left).
  with_strategy transparent [st64] (unfold st64).
  rewrite ld8_stn_other by (unfold PGSIZE in *; change (Z.of_nat 8) with 8; lia). apply memset_out; [done|lia].
Qed.

(** A page of [P] keeps its bytes when the pages written are others. *)
Lemma freed_same_page P W s free s' free' q :
  freed P W s free s' free' -> Forall page (W ++ P) -> page q -> q ∉ W ++ P -> same_page_bytes (pm_mem s) (pm_mem s') q.
Proof.
  intros [_ _ B _] HP Hq Hni a Ha. apply B. intros p Hp Hpa. rewrite Forall_forall in HP.
  apply (page_bytes kend q p a Hq (HP p Hp)); [by intros ->|done|done].
Qed.

Section Entries.
Context (level : nat) (visit : Z -> K pmst unit).
Context (Hvisit : forall e s free, has PTE_V e = true -> free_list kend s free ->
  NoDup (reached (below level (pm_mem s)) e ++ free) -> Forall page (reached (below level (pm_mem s)) e) ->
  exists s' free', visit e s = Ret (tt, s') /\ freed (reached (below level (pm_mem s)) e) [] s free s' free').

(** The pages reached from the entries of [t] from [i]. *)
Definition rest (m : mem) (t i n : Z) : list Z := seqZ i n ≫= fun j => reached (below level m) (entry m t j).

Lemma rest_cons m t i n : 0 < n -> rest m t i n = reached (below level m) (entry m t i) ++ rest m t (i + 1) (n - 1).
Proof. intros Hn. unfold rest. rewrite seqZ_cons by lia. by rewrite bind_cons. Qed.

Lemma reached_frame m m' e :
  (forall p, p ∈ reached (below level m) e -> same_page_bytes m m' p) ->
  reached (below level m') e = reached (below level m) e.
Proof. intros H. apply reached_same; [|exact H]. intros l t _. apply space_same. Qed.

Lemma rest_frame m m' t i n :
  (forall j, i <= j < i + n -> entry m' t j = entry m t j) ->
  (forall p, p ∈ rest m t i n -> same_page_bytes m m' p) -> rest m' t i n = rest m t i n.
Proof.
  intros HE HS. apply bind_ext. intros j Hj. rewrite HE by (apply elem_of_seqZ in Hj; lia).
  apply reached_frame. intros p Hp. apply HS, list_elem_of_bind. exists j. split; [exact Hp|exact Hj].
Qed.

Lemma clear_entry s free t i :
  free_list kend s free -> page t -> t ∉ free -> 0 <= i < 512 ->
  freed [] [t] s free (set_mem (st64 (pm_mem s) (slot t i) 0) s) free.
Proof.
  intros [F1 F2 F3 F4] Ht Hni Hi. pose proof (slot_in_page t i Hi) as Hs.
  assert (B : forall a, ~ (t <= a < t + PGSIZE) -> ld8 (st64 (pm_mem s) (slot t i) 0) a = ld8 (pm_mem s) a).
  { intros a Ha. with_strategy transparent [st64] (unfold st64).
    apply ld8_stn_other. change (Z.of_nat 8) with 8. lia. }
  split; [|done| |apply lk_restored_refl].
  - split; [|exact F2|exact F3|exact F4]. cbn [pm_mem set_mem freelist].
    apply (linked_other_page kend (pm_mem s) _ _ _ t Ht F2 Hni); [|exact F1]. intros a Ha. apply B. lia.
  - intros a Ha. apply B, Ha. left.
Qed.

(** One entry. *)
Lemma free_entry s free t i :
  let R := reached (below level (pm_mem s)) (entry (pm_mem s) t i) in
  free_list kend s free -> page t -> 0 <= i < 512 -> NoDup (t :: R ++ free) -> Forall page R ->
  exists s' free', (pte <- load64 (slot t i) ;;
      if has PTE_V pte then store64 (slot t i) 0 ;; visit pte else kret tt) s = Ret (tt, s') /\
    freed R [t] s free s' free' /\ forall j, 0 <= j < 512 -> j <> i -> entry (pm_mem s') t j = entry (pm_mem s) t j.
Proof.
  intros R F Ht Hi Hnd HR. unfold load64 at 1.
  assert (Hl : ld64 (pm_mem s) (slot t i) = entry (pm_mem s) t i) by done.
  erewrite kbind_ret by reflexivity. cbn beta. rewrite Hl.
  destruct (has PTE_V (entry (pm_mem s) t i)) eqn:HV.
  - apply NoDup_cons in Hnd as [Hni Hnd]. apply not_elem_of_app in Hni as [HtR Htf].
    pose proof (clear_entry s free t i F Ht Htf Hi) as C.
    set (s1 := set_mem (st64 (pm_mem s) (slot t i) 0) s) in *.
    assert (HR1 : reached (below level (pm_mem s1)) (entry (pm_mem s) t i) = R).
    { apply reached_frame. intros p Hp. rewrite Forall_forall in HR.
      apply (freed_same_page _ _ _ _ _ _ p C); [by constructor|by apply HR|].
      rewrite app_nil_r. intros ->%list_elem_of_singleton. done. }
    destruct (Hvisit (entry (pm_mem s) t i) s1 free HV (fr_list _ _ _ _ _ _ C)) as (s2 & free2 & R2 & FR);
      [by rewrite HR1|by rewrite HR1|]. rewrite HR1 in FR.
    exists s2, free2. split; [|split].
    + unfold store64. krun. exact R2.
    + apply (freed_trans [] R [t] s free s1 free s2 free2); [exact C|]. eapply freed_weaken; [|exact FR]. set_solver.
    + intros j Hj Hji. rewrite (entry_same (pm_mem s1) (pm_mem s2)); [|apply (freed_same_page _ _ _ _ _ _ t FR); done|done].
      cbn [pm_mem set_mem s1]. unfold s1. cbn [pm_mem set_mem]. rewrite st64_same_page by done. by rewrite decide_False.
  - exists s, free. split; [done|]. split; [|done]. unfold R, reached. rewrite HV. by apply freed_nil.
Qed.

Lemma free_entries_ok n : forall i s free t,
  let R := rest (pm_mem s) t i (Z.of_nat n) in
  free_list kend s free -> page t -> 0 <= i -> i + Z.of_nat n <= 512 -> NoDup (t :: R ++ free) -> Forall page R ->
  exists s' free', free_entries visit t n i s = Ret (tt, s') /\ freed R [t] s free s' free'.
Proof.
  induction n as [|n IH]; intros i s free t R F Ht Hi Hn Hnd HR.
  - exists s, free. split; [done|]. by apply freed_nil.
  - assert (ER : R = reached (below level (pm_mem s)) (entry (pm_mem s) t i) ++ rest (pm_mem s) t (i + 1) (Z.of_nat n)).
    { unfold R. rewrite rest_cons by lia. do 2 f_equal. lia. }
    set (R1 := reached _ _) in ER. set (R2 := rest (pm_mem s) t (i + 1) (Z.of_nat n)) in ER.
    rewrite ER in *. clear ER R. apply Forall_app in HR as [HR1 HR2].
    destruct (free_entry s free t i F Ht ltac:(lia)) as (s1 & free1 & Run & FR & HE).
    { fold R1. revert Hnd. rewrite <- app_assoc. rewrite (Permutation_app_comm R2), app_assoc, app_comm_cons.
      intros H. by apply NoDup_app in H as [? _]. }
    { exact HR1. }
    fold R1 in FR.
    assert (HND : NoDup (t :: R1) /\ (forall p, p ∈ R2 -> p ∉ t :: R1)).
    { rewrite <- app_assoc, app_comm_cons in Hnd. apply NoDup_app in Hnd as (H1 & H2 & _). split; [done|].
      intros p Hp Hin. apply (H2 p Hin), elem_of_app. by left. }
    destruct HND as [ND1 ND2].
    assert (HPG : Forall page ([t] ++ R1)) by (by constructor).
    assert (E2 : rest (pm_mem s1) t (i + 1) (Z.of_nat n) = R2).
    { apply rest_frame.
      - intros j Hj. apply HE; lia.
      - intros p Hp. rewrite Forall_forall in HR2. apply (freed_same_page _ _ _ _ _ _ p FR HPG); [by apply HR2|]. by apply ND2. }
    destruct (IH (i + 1) s1 free1 t) as (s2 & free2 & Run2 & FR2); rewrite ?E2.
    + apply FR.
    + exact Ht.
    + lia.
    + lia.
    + revert Hnd. apply NoDup_Permutation_proper. rewrite (fr_perm _ _ _ _ _ _ FR). solve_Permutation.
    + exact HR2.
    + rewrite E2 in FR2. exists s2, free2. split; [|by eapply freed_trans].
      cbn [free_entries]. unfold kbind at 1 in Run. cbn [load64 kget] in Run.
      unfold load64 at 1. erewrite kbind_ret by reflexivity. cbn beta.
      unfold load64, kget in Run. erewrite kbind_ret by exact Run. exact Run2.
Qed.
End Entries.

Lemma uvmfree_recursive_ok level : forall s free t,
  free_list kend s free -> NoDup (space level (pm_mem s) t ++ free) -> Forall page (space level (pm_mem s) t) ->
  exists s' free', uvmfree_recursive kend level t s = Ret (tt, s') /\
    freed (space level (pm_mem s) t) [] s free s' free'.
Proof.
  assert (Step : forall level visit, (forall e s free, has PTE_V e = true -> free_list kend s free ->
      NoDup (reached (below level (pm_mem s)) e ++ free) -> Forall page (reached (below level (pm_mem s)) e) ->
      exists s' free', visit e s = Ret (tt, s') /\ freed (reached (below level (pm_mem s)) e) [] s free s' free') ->
    forall s free t, free_list kend s free -> NoDup (space level (pm_mem s) t ++ free) ->
    Forall page (space level (pm_mem s) t) ->
    exists s' free', (free_entries visit t 512 0 ;; kpmfree kend t) s = Ret (tt, s') /\
      freed (space level (pm_mem s) t) [] s free s' free').
  { clear level. intros level visit Hv s free t F Hnd HP. rewrite space_eq in *.
    with_strategy transparent [idxs] (unfold idxs in * ). change (seqZ 0 512 ≫= _) with (rest level (pm_mem s) t 0 512) in *.
    apply Forall_cons in HP as [Ht HP].
    destruct (free_entries_ok level visit Hv 512 0 s free t F Ht) as (s1 & free1 & R1 & FR1); [done|done|exact Hnd|exact HP|].
    rewrite <- app_comm_cons in Hnd. apply NoDup_cons in Hnd as [Hni Hnd].
    destruct (free_one s1 free1 t [] (fr_list _ _ _ _ _ _ FR1) Ht) as (s2 & R2 & FR2).
    { by rewrite (fr_perm _ _ _ _ _ _ FR1). }
    exists s2, (t :: free1). split; [by erewrite kbind_ret by exact R1|].
    destruct FR1 as [L1 P1 B1 K1], FR2 as [L2 P2 B2 K2]. split; [exact L2| | |by eapply lk_restored_trans].
    - rewrite P1. done.
    - intros a Ha. rewrite B2, B1; [done| |].
      + intros p Hp. apply Ha. exact Hp.
      + intros p Hp. apply Ha. apply elem_of_app in Hp as [Hp|Hp]; [by apply elem_of_nil in Hp|].
        apply list_elem_of_singleton in Hp as ->. left. }
  assert (Frame : forall e s free, has PTE_U e = true -> free_list kend s free -> NoDup ([PTE2PA e] ++ free) ->
    Forall page [PTE2PA e] -> exists s' free', kpmfree kend (PTE2PA e) s = Ret (tt, s') /\ freed [PTE2PA e] [] s free s' free').
  { intros e s free _ F Hnd HP. apply Forall_cons in HP as [HP _]. apply NoDup_cons in Hnd as [Hni _].
    destruct (free_one s free (PTE2PA e) [] F HP Hni) as (s' & R & FR). eauto. }
  induction level as [|level IH]; intros s free t F Hnd HP; (apply Step; [|exact F|exact Hnd|exact HP]);
    clear s free t F Hnd HP; intros e s free HV F; unfold reached; rewrite HV; cbn [below].
  - destruct (has PTE_U e) eqn:HU; intros Hnd HP; [by apply Frame|].
    exists s, free. split; [done|]. by apply freed_nil.
  - destruct (has PTE_RWX e); cbn [negb].
    + destruct (has PTE_U e) eqn:HU; intros Hnd HP; [by apply Frame|].
      exists s, free. split; [done|]. by apply freed_nil.
    + intros Hnd HP. by apply IH.
Qed.

(** The frames of the valid user pages. *)
Definition uframes (m : mem) (root : Z) : list Z :=
  level0 m root ≫= fun t => idxs ≫= fun j => reached None (entry m t j).

Lemma bind_cons_perm (g : Z -> list Z) l : (l ≫= fun x => x :: g x) ≡ₚ l ++ (l ≫= g).
Proof.
  induction l as [|x l IH]; [done|]. rewrite !bind_cons, IH. simpl. f_equiv. solve_Permutation.
Qed.
Lemma bind_assoc' (f g : Z -> list Z) l : (l ≫= fun x => f x ≫= g) = (l ≫= f) ≫= g.
Proof. induction l as [|x l IH]; [done|]. by rewrite !bind_cons, IH, bind_app. Qed.
Lemma bind_children m t sub :
  (forall i, 0 <= i < 512 -> has PTE_V (entry m t i) = true -> has PTE_RWX (entry m t i) = false) ->
  (idxs ≫= fun j => reached (Some sub) (entry m t j)) = children m t ≫= sub.
Proof.
  intros H. rewrite children_eq.
  assert (HI : forall j, j ∈ idxs -> reached (Some sub) (entry m t j) =
      match ptr_at m t j with Some c => sub c | None => [] end).
  { intros j Hj%elem_of_idxs. unfold reached, ptr_at. specialize (H j Hj).
    destruct (has PTE_V (entry m t j)); [by rewrite H|done]. }
  revert HI. generalize idxs. intros l HI. induction l as [|j l IH]; [done|].
  rewrite bind_cons, HI by left. simpl. rewrite IH by (intros; apply HI; by right).
  by destruct (ptr_at m t j).
Qed.

(** The pages of a well-formed address space are its tables and user frames. *)
Lemma space_tables m root : pt_ok kend m root -> space 2 m root ≡ₚ tables m root ++ uframes m root.
Proof.
  intros [_ _ Hin]. rewrite space_eq. cbn [below]. rewrite bind_children by (intros; apply Hin; [left|done|done]).
  fold (level1 m root).
  assert (E1 : level1 m root ≫= space 1 m = level1 m root ≫= fun t => t :: (children m t ≫= space 0 m)).
  { apply bind_ext. intros t Ht. rewrite space_eq. cbn [below]. f_equal. apply bind_children.
    intros i Hi. apply Hin; [by right|done]. }
  rewrite E1, bind_cons_perm, bind_assoc'. fold (level0 m root).
  assert (E0 : level0 m root ≫= space 0 m =
     level0 m root ≫= fun t => t :: (idxs ≫= fun j => reached None (entry m t j))).
  { apply bind_ext. intros t _. rewrite space_eq. done. }
  rewrite E0, bind_cons_perm. unfold tables, uframes. simpl. by rewrite <- app_assoc.
Qed.

(** [uvmfree] gives back everything: when the tables of a well-formed address
    space and the frames of its user pages are distinct pages outside the free
    list, freeing it returns, adds exactly those pages to the free list, each once,
    changes no byte of any other page, and leaves the locks as they were. *)
Theorem uvmfree_frees_all s free root sz :
  let owned := tables (pm_mem s) root ++ uframes (pm_mem s) root in
  pt_ok kend (pm_mem s) root -> free_list kend s free -> NoDup (owned ++ free) -> Forall page owned ->
  exists s' free', uvmfree kend root sz s = Ret (tt, s') /\ free_list kend s' free' /\
    free' ≡ₚ owned ++ free /\
    (forall a, (forall p, p ∈ owned -> ~ (p <= a < p + PGSIZE)) -> ld8 (pm_mem s') a = ld8 (pm_mem s) a) /\
    lk_restored (pm_lk s) (pm_lk s').
Proof.
  intros owned O F Hnd HP. pose proof (space_tables (pm_mem s) root O) as E. fold owned in E.
  destruct (uvmfree_recursive_ok 2 s free root F) as (s' & free' & R & [L P B K]); [by rewrite E|by rewrite E|].
  exists s', free'. split; [exact R|]. split; [exact L|]. split; [by rewrite P, E|].
  split; [|exact K]. intros a Ha. apply B. intros p Hp. apply Ha. by rewrite <- E.
Qed.
End UvmFacts.

Lemma walkaddr_translates_witness :
  walkaddr demo_root 0x1010 demo_user =
  Ret (if (0x1010 <? MAXVA) && readable (pm_mem demo_user) demo_root 0x1010
       then PTE2PA (pte_of (pm_mem demo_user) demo_root 0x1010) else 0, demo_user).
Proof. apply (walkaddr_translates KERNBASE ltac:(done)); [apply demo_mapped_ok|done]. Defined.

Lemma uvmalloc_grows_or_undoes_witness :
  exists r s' free', uvmalloc KERNBASE 7 demo_root 0 5000 PTE_W demo_pm = Ret (r, s') /\
    ((r = 5000 /\ exists F, extended KERNBASE demo_root (PGROUNDUP 0) F (uflags PTE_W) demo_pm [demo_page1; demo_page2] s' free' /\
        PGROUNDUP 0 + Z.of_nat (length F) * PGSIZE = PGROUNDUP 5000) \/
     (r = 0 /\ vm_ok KERNBASE s' demo_root free' /\
        tables (pm_mem s') demo_root ++ free' ≡ₚ tables (pm_mem demo_pm) demo_root ++ [demo_page1; demo_page2] /\
        lk_restored (pm_lk demo_pm) (pm_lk s') /\
        exists n, 0 <= n /\ PGROUNDUP 0 + n * PGSIZE < PGROUNDUP 5000 /\
          forall va, 0 <= va < 2 * MAXVA ->
            pte_of (pm_mem s') demo_root va = clear_range (PGROUNDUP 0) n (pte_of (pm_mem demo_pm) demo_root) va)).
Proof.
  apply (uvmalloc_grows_or_undoes KERNBASE ltac:(done)).
  - apply demo_vm_ok.
  - lia.
  - done.
  - done.
  - intros va _ _. by rewrite demo_unmapped.
  - reflexivity.
Defined.

Lemma demo_owned : tables (pm_mem demo_pm) demo_root ++ uframes (pm_mem demo_pm) demo_root = [demo_root].
Proof.
  destruct (pt_empty KERNBASE (pm_mem demo_pm) demo_root) as (_ & T & _); [done|apply demo_entries|].
  assert (L : level0 (pm_mem demo_pm) demo_root = []).
  { unfold tables in T. injection T as T. by apply app_nil in T as [_ ?]. }
  rewrite T. unfold uframes. by rewrite L.
Qed.
Lemma uvmfree_frees_all_witness :
  let owned := tables (pm_mem demo_pm) demo_root ++ uframes (pm_mem demo_pm) demo_root in
  exists s' free', uvmfree KERNBASE demo_root 0 demo_pm = Ret (tt, s') /\ free_list KERNBASE s' free' /\
    free' ≡ₚ owned ++ [demo_page1; demo_page2] /\
    (forall a, (forall p, p ∈ owned -> ~ (p <= a < p + PGSIZE)) -> ld8 (pm_mem s') a = ld8 (pm_mem demo_pm) a) /\
  lk_restored (pm_lk demo_pm) (pm_lk s').
Proof.
  apply (uvmfree_frees_all KERNBASE ltac:(done)).
  - apply demo_vm_ok.
  - apply demo_free.
  - rewrite demo_owned. apply (bool_decide_unpack _). reflexivity.
  - rewrite demo_owned. by constructor.
Defined.
