(* ===== verification/Space.v ===== *)
(** Whole address spaces: src/kernel/uvm.c.

    Uvm.v has the operations and what one of them does to a page table; here are
    the copy that [fork] makes of an address space, and the life of the heap of
    a process, from its creation through any sequence of growing and shrinking. *)
From S2P Require Import Prelude CString Bytes Spinlock Pm Vm Uvm.

(** ** [uvmcopy] *)

Section Copy.
Context (kend : Z) (kend_pos : 0 < kend).
#[local] Abbreviation page := (page kend).

(** The permissions of the copy of a page with the entry [e]. *)
Definition cmode (e : Z) : Z := Z.land (u32 (PTE_FLAGS e)) (Z.lor PTE_RWX PTE_U).
Definition cflags (e : Z) : Z := Z.lor (cmode e) PTE_V.

(** From [s0] to [s] the user pages of [old] at the addresses [D] were copied to
    [new]: [L] pairs the address of each with the frame of its copy. *)
Record copied (old new : Z) (D : Z -> Prop) (L : list (Z * Z)) (s0 : pmst) (free0 : list Z) (s : pmst) (free : list Z) : Prop := {
  c_ok : vm_ok kend s new free;
  c_frames : NoDup (tables (pm_mem s) new ++ L.*2 ++ free) /\ Forall page L.*2;
  c_sound : forall va x, (va, x) ∈ L -> va mod PGSIZE = 0 /\ 0 <= va < MAXVA /\ D va /\ readable (pm_mem s0) old va = true;
  c_all : forall va, D va -> 0 <= va < MAXVA -> va mod PGSIZE = 0 -> readable (pm_mem s0) old va = true -> exists x, (va, x) ∈ L;
  c_pte : forall va x w, (va, x) ∈ L -> va <= w < va + PGSIZE -> pte_of (pm_mem s) new w = mkpte x (cflags (pte_of (pm_mem s0) old va));
  c_rest : forall w, 0 <= w < 2 * MAXVA -> (forall va x, (va, x) ∈ L -> ~ (va <= w < va + PGSIZE)) -> pte_of (pm_mem s) new w = pte_of (pm_mem s0) new w;
  c_data : forall va x j, (va, x) ∈ L -> 0 <= j < PGSIZE -> ld8 (pm_mem s) (x + j) = ld8 (pm_mem s0) (PTE2PA (pte_of (pm_mem s0) old va) + j);
  c_pages : tables (pm_mem s) new ++ L.*2 ++ free ≡ₚ tables (pm_mem s0) new ++ free0;
  c_bytes : forall b, (forall t, t ∈ tables (pm_mem s0) new ++ free0 -> ~ (t <= b < t + PGSIZE)) -> ld8 (pm_mem s) b = ld8 (pm_mem s0) b;
  c_lk : lk_restored (pm_lk s0) (pm_lk s)
}.

Lemma land_1024 a b : 0 <= a < 1024 -> 0 <= b -> 0 <= Z.land a b < 1024.
Proof.
  intros Ha Hb. assert (E : Z.land a b = Z.land a b mod 1024).
  { change 1024 with (2 ^ 10). rewrite <- Z.land_ones, <- Z.land_assoc, (Z.land_comm b), Z.land_assoc, Z.land_ones by lia.
    by rewrite (Z.mod_small a) by (change (2 ^ 10) with 1024; lia). }
  rewrite E. apply Z.mod_pos_bound. lia.
Qed.
Lemma flags_range e : 0 <= PTE_FLAGS e < 1024.
Proof. unfold PTE_FLAGS. change 0x3ff with (Z.ones 10). rewrite Z.land_ones by lia. apply Z.mod_pos_bound. lia. Qed.
Lemma u32_flags e : u32 (PTE_FLAGS e) = PTE_FLAGS e.
Proof. assert (H := flags_range e). apply u32_small. lia. Qed.
Lemma cmode_range e : 0 <= cmode e < 1024.
Proof.
  unfold cmode. assert (H := flags_range e). rewrite u32_flags. by apply land_1024.
Qed.

(** Another way to say which addresses. *)
Lemma copied_at old new D E L s0 free0 s free : copied old new D L s0 free0 s free ->
  (forall va, 0 <= va < MAXVA -> va mod PGSIZE = 0 -> D va <-> E va) -> copied old new E L s0 free0 s free.
Proof.
  intros [C1 C2 C3 C4 C5 C6 C7 C8 C9 C10] HD. split; try done.
  - intros va x Hin. destruct (C3 va x Hin) as (? & ? & ? & ?). split; [done|]. split; [done|]. split; [by apply HD|done].
  - intros va Hva Hr Hal. apply C4; [by apply HD|done|done].
Qed.

(** The addresses below [i]. *)
Definition below (i va : Z) : Prop := 0 <= va < i.
Lemma copied_nil old new s free : vm_ok kend s new free -> copied old new (below 0) [] s free s free.
Proof.
  intros H. split; cbn [fmap list_fmap]; try (intros va x ?%elem_of_nil; done); try done.
  - split; [apply H|done].
  - intros va Hva. unfold below in Hva. lia.
  - by intros va x w ?%elem_of_nil.
  - by intros va x j ?%elem_of_nil.
Qed.

(** What the copy needs: the pages of [old] are not among those it may take. *)
Record copyable (old new : Z) (s0 : pmst) (free0 : list Z) : Prop := {
  cb_old : pt_ok kend (pm_mem s0) old;
  cb_tables : forall t, t ∈ tables (pm_mem s0) old -> t ∉ tables (pm_mem s0) new ++ free0;
  cb_frames : forall va, 0 <= va < MAXVA -> readable (pm_mem s0) old va = true ->
    page (PTE2PA (pte_of (pm_mem s0) old va)) /\ PTE2PA (pte_of (pm_mem s0) old va) ∉ tables (pm_mem s0) new ++ free0
}.

Section Step.
Context (old new : Z) (s0 : pmst) (free0 : list Z) (Hc : copyable old new s0 free0) (Hnew : Forall page (tables (pm_mem s0) new ++ free0)).

(** A page of the old space keeps its bytes. *)
Lemma old_page_kept D L s free p b : copied old new D L s0 free0 s free -> page p -> p ∉ tables (pm_mem s0) new ++ free0 ->
  p <= b < p + PGSIZE -> ld8 (pm_mem s) b = ld8 (pm_mem s0) b.
Proof.
  intros C Hp Hn Hb. apply (c_bytes _ _ _ _ _ _ _ _ C). intros t Ht Htb. rewrite Forall_forall in Hnew.
  apply (page_bytes kend p t b Hp (Hnew t Ht)); [by intros ->|done|done].
Qed.
Lemma old_kept D L s free : copied old new D L s0 free0 s free ->
  pt_ok kend (pm_mem s) old /\ forall va, pte_of (pm_mem s) old va = pte_of (pm_mem s0) old va.
Proof.
  intros C. destruct (off_tables_same kend (pm_mem s0) (pm_mem s) old (cb_old _ _ _ _ Hc)) as (O & _ & P); [|by split].
  intros a Ha. apply (c_bytes _ _ _ _ _ _ _ _ C). intros t Ht Hta. apply Ha. intros u Hu Hua. rewrite Forall_forall in Hnew.
  apply (page_bytes kend u t a); [by apply (pt_page kend (pm_mem s0) old); [apply Hc|]|by apply Hnew| |done|done].
  intros ->. by apply (cb_tables _ _ _ _ Hc t).
Qed.

(** A page that is not the user's. *)
Lemma copied_skip D L s free i : copied old new D L s0 free0 s free -> readable (pm_mem s0) old i = false ->
  copied old new (fun va => D va \/ va = i) L s0 free0 s free.
Proof.
  intros [C1 C2 C3 C4 C5 C6 C7 C8 C9 C10] Hr. split; try done.
  - intros va x Hin. destruct (C3 va x Hin) as (? & ? & ? & ?). auto.
  - intros va [Hva| ->] Hm Hal Hrd; [by apply C4|congruence].
Qed.

(** One more page, with its copy. *)
Lemma copied_page D i L s x free s1 m s2 free2 : copied old new D L s0 free0 s (x :: free) ->
  0 <= i < MAXVA -> i mod PGSIZE = 0 -> ~ D i -> readable (pm_mem s0) old i = true -> page x ->
  (forall b, ~ (x <= b < x + PGSIZE) -> ld8 (pm_mem s1) b = ld8 (pm_mem s) b) ->
  m = memmove (pm_mem s1) x (PTE2PA (pte_of (pm_mem s0) old i)) PGSIZE ->
  vm_ok kend s2 new free2 -> tables (pm_mem s2) new ++ free2 ≡ₚ tables (pm_mem s) new ++ free ->
  (forall b, (forall t, t ∈ tables (pm_mem s) new ++ free -> ~ (t <= b < t + PGSIZE)) -> ld8 (pm_mem s2) b = ld8 m b) ->
  lk_restored (pm_lk s) (pm_lk s2) ->
  (forall va, 0 <= va < 2 * MAXVA -> pte_of (pm_mem s2) new va = map_range i x 1 (cflags (pte_of (pm_mem s0) old i)) (pte_of (pm_mem s) new) va) ->
  copied old new (fun va => D va \/ va = i) (L ++ [(i, x)]) s0 free0 s2 free2.
Proof.
  intros C Hi Hal HDi Hr Hx B1 -> O2 PM B2 L2 P2. assert (C' := C). destruct C as [C1 [C2 CP] C3 C4 C5 C6 C7 C8 C9 C10].
  destruct (cb_frames _ _ _ _ Hc i ltac:(lia) Hr) as [Hpg Hpn]. set (pa := PTE2PA (pte_of (pm_mem s0) old i)) in *.
  assert (HxIn : x ∈ tables (pm_mem s0) new ++ free0) by (rewrite <- C8, !elem_of_app; right; right; left).
  assert (Hpx : pa <> x) by by intros ->.
  assert (Hin : forall b, x <= b < x + PGSIZE -> ld8 (pm_mem s2) b = ld8 (pm_mem s0) (pa + (b - x))).
  { intros b Hb. rewrite B2 by (apply (pages_apart kend s new x L.*2 free C2 CP C1 x b); [left|done]).
    rewrite memmove_ld8 by done. rewrite (proj2 (Z.leb_le _ _)), (proj2 (Z.ltb_lt _ _)) by lia. cbn [andb].
    rewrite B1 by (intros Hb2; apply (page_bytes kend pa x (pa + (b - x)) Hpg Hx); [done|lia|done]).
    apply (old_page_kept D L s (x :: free) pa); [done|done|done|lia]. }
  assert (Hout : forall b, ~ (x <= b < x + PGSIZE) -> (forall t, t ∈ tables (pm_mem s) new ++ free -> ~ (t <= b < t + PGSIZE)) ->
    ld8 (pm_mem s2) b = ld8 (pm_mem s) b).
  { intros b Hb Ht. rewrite B2 by done. rewrite memmove_ld8 by done. destruct (Z.leb_spec x b), (Z.ltb_spec b (x + PGSIZE)); cbn; try (by rewrite B1); lia. }
  assert (PA : tables (pm_mem s2) new ++ (L ++ [(i, x)]).*2 ++ free2 ≡ₚ tables (pm_mem s0) new ++ free0).
  { rewrite <- C8, fmap_app. cbn [fmap list_fmap snd]. transitivity (L.*2 ++ [x] ++ (tables (pm_mem s2) new ++ free2)); [solve_Permutation|].
    rewrite PM. solve_Permutation. }
  split.
  - exact O2.
  - split; [|rewrite fmap_app; apply Forall_app; split; [done|by constructor]]. rewrite PA, <- C8. exact C2.
  - intros va y [Hy|Hy]%elem_of_app; [destruct (C3 va y Hy) as (? & ? & ? & ?); auto|].
    apply list_elem_of_singleton in Hy as [= -> ->]. auto.
  - intros va [Hva| ->] Hm Hvl Hrd; [|exists x; apply elem_of_app; right; left].
    destruct (C4 va Hva Hm Hvl Hrd) as [y Hy]. exists y. apply elem_of_app. by left.
  - intros va y w [Hy|Hy]%elem_of_app Hw.
    + destruct (C3 va y Hy) as (Hva & Hlt & HD & _). rewrite P2 by (change MAXVA with (67108864 * 4096) in *; unfold PGSIZE in *; dlia).
      assert (Hne : va <> i) by by intros ->. unfold map_range.
      destruct (Z.leb_spec i w), (Z.ltb_spec w (i + 1 * PGSIZE)); cbn [andb]; [unfold PGSIZE in *; dlia|by apply (C5 va y w)..].
    + apply list_elem_of_singleton in Hy as [= -> ->]. rewrite P2 by (change MAXVA with (67108864 * 4096) in *; unfold PGSIZE in *; dlia).
      unfold map_range. rewrite (proj2 (Z.leb_le _ _)), (proj2 (Z.ltb_lt _ _)) by lia. cbn [andb].
      f_equal. replace ((w - i) / PGSIZE) with 0 by (unfold PGSIZE in *; dlia). lia.
  - intros w Hw Hno. rewrite P2 by done. unfold map_range.
    assert (Hi2 := Hno i x ltac:(apply elem_of_app; right; left)).
    destruct (Z.leb_spec i w), (Z.ltb_spec w (i + 1 * PGSIZE)); cbn [andb]; [lia|..]; (apply C6; [done|]; intros va y Hy; apply (Hno va y), elem_of_app; by left).
  - intros va y j [Hy|Hy]%elem_of_app Hj.
    + rewrite Hout; [by apply C7| |].
      * intros Hb. assert (Hyp : y ∈ L.*2) by (apply list_elem_of_fmap; by exists (va, y)).
        apply (page_bytes kend x y (y + j) Hx); [by apply (proj1 (Forall_forall _ _) CP)| |done|lia].
        intros <-. apply NoDup_app in C2 as (_ & _ & ND). apply NoDup_app in ND as (_ & ND & _). apply (ND x Hyp). left.
      * apply (pages_apart kend s new x L.*2 free C2 CP C1 y); [right; apply list_elem_of_fmap; by exists (va, y)|lia].
    + apply list_elem_of_singleton in Hy as [= -> ->]. rewrite Hin by lia. f_equal. fold pa. lia.
  - exact PA.
  - intros b Hb. rewrite Hout, C9; [done|done|by apply Hb|]. intros t Ht. apply Hb. rewrite <- C8.
    apply elem_of_app in Ht as [Ht|Ht]; rewrite !elem_of_app; [by left|right; right; by right].
  - by eapply lk_restored_trans.
Qed.

(** The pages of [new] changed hands, but no translation and no copy. *)
Lemma copied_same D L s free s2 free2 : copied old new D L s0 free0 s free -> vm_ok kend s2 new free2 ->
  tables (pm_mem s2) new ++ free2 ≡ₚ tables (pm_mem s) new ++ free ->
  (forall va, 0 <= va < 2 * MAXVA -> pte_of (pm_mem s2) new va = pte_of (pm_mem s) new va) ->
  (forall b, (forall t, t ∈ tables (pm_mem s) new ++ free -> ~ (t <= b < t + PGSIZE)) -> ld8 (pm_mem s2) b = ld8 (pm_mem s) b) ->
  lk_restored (pm_lk s) (pm_lk s2) -> copied old new D L s0 free0 s2 free2.
Proof.
  intros [C1 [C2 CP] C3 C4 C5 C6 C7 C8 C9 C10] O2 PM P2 B2 L2.
  assert (PA : tables (pm_mem s2) new ++ L.*2 ++ free2 ≡ₚ tables (pm_mem s) new ++ L.*2 ++ free).
  { transitivity (L.*2 ++ (tables (pm_mem s2) new ++ free2)); [solve_Permutation|]. rewrite PM. solve_Permutation. }
  assert (Hap : forall y b, y ∈ L.*2 -> y <= b < y + PGSIZE -> forall t, t ∈ tables (pm_mem s) new ++ free -> ~ (t <= b < t + PGSIZE)).
  { intros y b Hy Hyb t Ht Htb. rewrite Forall_forall in CP, Hnew.
    apply (page_bytes kend y t b (CP y Hy)); [|intros ->|done|done].
    - apply Hnew. rewrite <- C8. apply elem_of_app in Ht as [Ht|Ht]; rewrite !elem_of_app; auto.
    - assert (ND : NoDup (L.*2 ++ tables (pm_mem s) new ++ free)) by (revert C2; apply NoDup_Permutation_proper; solve_Permutation).
      apply NoDup_app in ND as (_ & ND & _). by apply (ND t). }
  split; try done.
  - split; [|done]. by rewrite PA.
  - intros va y w Hy Hw. destruct (C3 va y Hy) as (Hva & Hlt & _). rewrite P2; [by apply (C5 va y w)|].
    change MAXVA with (67108864 * 4096) in *. unfold PGSIZE in *. dlia.
  - intros w Hw Hno. rewrite P2 by done. by apply C6.
  - intros va y j Hy Hj. rewrite B2; [by apply C7|]. apply (Hap y); [|lia]. apply list_elem_of_fmap. by exists (va, y).
  - by rewrite PA.
  - intros b Hb. rewrite B2, C9; [done|done|]. intros t Ht. apply Hb. rewrite <- C8.
    apply elem_of_app in Ht as [Ht|Ht]; rewrite !elem_of_app; auto.
  - by eapply lk_restored_trans.
Qed.

Context (Hfresh : forall va, 0 <= va < MAXVA -> readable (pm_mem s0) old va = true -> has PTE_V (pte_of (pm_mem s0) new va) = false).

(** Copying one page, as [uvmcopy] and [fork] both do. *)
Lemma copy_page_ok D L s free i : let e := pte_of (pm_mem s0) old i in
  copied old new D L s0 free0 s free -> 0 <= i < MAXVA -> i mod PGSIZE = 0 -> ~ D i -> readable (pm_mem s0) old i = true ->
  (exists s1, kpmalloc s = Ret (0, s1) /\ copied old new D L s0 free0 s1 []) \/
  (exists x s1 r s2, kpmalloc s = Ret (x, s1) /\ x <> 0 /\
    mappages 1 new i x PGSIZE (cmode e) (set_mem (memmove (pm_mem s1) x (PTE2PA e) PGSIZE) s1) = Ret (r, s2) /\
    (r = 0 /\ (exists free2, copied old new (fun va => D va \/ va = i) (L ++ [(i, x)]) s0 free0 s2 free2) \/
     r = -1 /\ exists s3, kpmfree kend x s2 = Ret (tt, s3) /\ copied old new D L s0 free0 s3 [x])).
Proof.
  intros e C Hi Hal HDi Hr. destruct free as [|x free].
  { left. destruct (vm_alloc_none kend s new (c_ok _ _ _ _ _ _ _ _ C)) as (s1 & R1 & O1 & Em & L1).
    exists s1. split; [exact R1|]. apply (copied_same _ L s [] s1 []); rewrite ?Em; done. }
  right. assert (Hun : has PTE_V (pte_of (pm_mem s) new i) = false).
  { rewrite (c_rest _ _ _ _ _ _ _ _ C); [by apply Hfresh|lia|]. intros va y Hy Hva. destruct (c_sound _ _ _ _ _ _ _ _ C va y Hy) as (Hm & _ & HD & _).
    apply HDi. replace i with va; [done|]. unfold PGSIZE in *. dlia. }
  destruct (fresh_page kend kend_pos s new x free i (cmode e) (c_ok _ _ _ _ _ _ _ _ C) Hal Hi (cmode_range _) Hun)
    as (Hx & Hx0 & s1 & R1 & B1 & HM1).
  destruct (HM1 (memmove (pm_mem s1) x (PTE2PA e) PGSIZE)) as (r & s2 & free2 & R2 & O2 & N2 & PM & B2 & L2 & HR).
  { intros b Hb. rewrite memmove_ld8 by done. destruct (Z.leb_spec x b), (Z.ltb_spec b (x + PGSIZE)); cbn; done || lia. }
  exists x, s1, r, s2. split; [exact R1|]. split; [exact Hx0|]. split; [exact R2|].
  destruct HR as [[-> P2]|(-> & -> & P2)]; [left|right]; (split; [done|]).
  { exists free2. exact (copied_page D i L s x free s1 _ s2 free2 C Hi Hal HDi Hr Hx B1 eq_refl O2 PM B2 L2 P2). }
  destruct (vm_free_page kend kend_pos s2 new x [] O2 Hx N2) as (s3 & R3 & O3 & B3). exists s3. split; [exact R3|].
  apply (copied_same _ L s (x :: free) s3 [x] C O3).
  - rewrite (b_tables _ _ _ _ _ B3). rewrite app_nil_r in PM. rewrite PM. solve_Permutation.
  - intros va Hva. by rewrite (b_pte _ _ _ _ _ B3), P2.
  - intros b Hb. assert (Hbx : ~ (x <= b < x + PGSIZE)) by (apply Hb; rewrite elem_of_app; right; left).
    rewrite (b_bytes _ _ _ _ _ B3), B2, memmove_ld8 by (done || (intros t Ht; apply Hb; revert Ht; rewrite !elem_of_app, elem_of_cons; tauto)).
    destruct (Z.leb_spec x b), (Z.ltb_spec b (x + PGSIZE)); cbn; try lia; by apply B1.
  - eapply lk_restored_trans; [exact L2|apply B3].
Qed.

Lemma uvmcopy_loop_ok sz k : forall fuel i L s free, copied old new (below i) L s0 free0 s free ->
  0 <= i < sz + PGSIZE -> i mod PGSIZE = 0 -> sz <= MAXVA -> i <= MAXVA -> sz <= i + Z.of_nat k * PGSIZE -> (k < fuel)%nat ->
  exists r s' free' i' L', uvmcopy_loop kend fuel old new i sz s = Ret (r, s') /\ copied old new (below i') L' s0 free0 s' free' /\
    (r = 0 /\ i' = sz \/ r = -1 /\ i' < sz).
Proof.
  induction k as [|k IH]; intros [|fuel] i L s free C Hi Hal HM HiM Hk Hf; try lia; cbn [uvmcopy_loop].
  all: assert (Hend : sz <= i -> exists r s' free' i' L', kret 0 s = Ret (r, s') /\ copied old new (below i') L' s0 free0 s' free' /\
      (r = 0 /\ i' = sz \/ r = -1 /\ i' < sz)).
  1, 3: intros Hge; exists 0, s, free, sz, L; split; [done|]; split; [|by left]; apply (copied_at _ _ _ _ _ _ _ _ _ C);
    intros va Hv Hva; unfold below, PGSIZE in *; dlia.
  { rewrite (proj2 (Z.ltb_ge i sz)) by lia. apply Hend. lia. }
  destruct (Z.ltb_spec i sz) as [Hlt|Hge]; [|by apply Hend]. clear Hend.
  destruct (old_kept _ L s free C) as [HO HP].
  assert (Hnext : u64 (i + PGSIZE) = i + PGSIZE) by (apply u64_small; change MAXVA with (2 ^ 38) in *; unfold PGSIZE; lia).
  assert (HnM : i + PGSIZE <= MAXVA) by (change MAXVA with (67108864 * 4096) in *; unfold PGSIZE in *; dlia).
  assert (Hstep : forall M s2 free2, copied old new (fun va => below i va \/ va = i) M s0 free0 s2 free2 -> copied old new (below (i + PGSIZE)) M s0 free0 s2 free2).
  { intros M s2 free2 C2. apply (copied_at _ _ _ _ _ _ _ _ _ C2). intros va Hv Hva. unfold below, PGSIZE in *. dlia. }
  assert (Hnb : ~ below i i) by (unfold below; lia).
  destruct (walk_entry kend kend_pos old s i HO ltac:(lia)) as (p & R & Hp).
  assert (Hd : PGROUNDDOWN i = i) by (rewrite PGROUNDDOWN_spec by (change MAXVA with (2 ^ 38) in *; lia); unfold PGSIZE in *; dlia).
  rewrite Hd in R. erewrite kbind_ret by exact R.
  assert (He : exists e, (if p =? 0 then kret 0 else load64 p) s = Ret (e, s) /\ e = pte_of (pm_mem s0) old i /\
    ((p =? 0) || negb (has PTE_V e) || negb (has PTE_U e)) = negb (readable (pm_mem s0) old i)).
  { unfold readable. rewrite HP in Hp. destruct Hp as [[-> E]|[Hp E]]; [exists 0; by rewrite E|].
    exists (pte_of (pm_mem s0) old i). rewrite (proj2 (Z.eqb_neq p 0) Hp). split; [by rewrite <- E|]. split; [done|].
    cbn [orb]. by rewrite negb_andb. }
  destruct He as (e & Re & -> & Eb). erewrite kbind_ret by exact Re. rewrite Eb.
  destruct (readable (pm_mem s0) old i) eqn:Hr; cbn [negb].
  2:{ rewrite Hnext. apply (IH fuel (i + PGSIZE) L s free); [by apply Hstep, copied_skip|unfold PGSIZE in *; lia|unfold PGSIZE in *; dlia|done|done|lia|lia]. }
  destruct (copy_page_ok (below i) L s free i C ltac:(lia) Hal Hnb Hr) as [(s1 & R1 & C1)|(x & s1 & r & s2 & R1 & Hx0 & R2 & HR)]; erewrite kbind_ret by exact R1.
  { cbn [Z.eqb]. exists (-1), s1, [], i, L. split; [done|]. split; [done|by right]. }
  rewrite (proj2 (Z.eqb_neq x 0) Hx0). unfold move at 1. krun.
  fold (cmode (pte_of (pm_mem s0) old i)). erewrite kbind_ret by exact R2. destruct HR as [(-> & free2 & C2)|(-> & s3 & R3 & C3)]; cbn [Z.eqb negb].
  - rewrite Hnext. apply (IH fuel (i + PGSIZE) (L ++ [(i, x)]) s2 free2); [by apply Hstep|unfold PGSIZE in *; lia|unfold PGSIZE in *; dlia|done|done|lia|lia].
  - change (negb (-1 =? 0)) with true. cbv iota. erewrite kbind_ret by exact R3. exists (-1), s3, [x], i, L. split; [done|]. split; [done|by right].
Qed.
End Step.

Lemma new_pages s new free : vm_ok kend s new free -> Forall page (tables (pm_mem s) new ++ free).
Proof. intros O. apply Forall_app. split; [apply O|]. destruct O as [_ [_ F _ _] _]. exact F. Qed.

(** [uvmcopy] comes to an end: 0 when every user page below [sz] has a copy, -1
    for want of a page, with the pages below [i] copied. *)
Lemma uvmcopy_ok fuel old new sz s free :
  vm_ok kend s new free -> copyable old new s free ->
  (forall va, 0 <= va < MAXVA -> readable (pm_mem s) old va = true -> has PTE_V (pte_of (pm_mem s) new va) = false) ->
  0 <= sz <= MAXVA -> sz / PGSIZE + 1 < Z.of_nat fuel ->
  exists r s' free' i L, uvmcopy kend fuel old new sz s = Ret (r, s') /\ copied old new (below i) L s free s' free' /\
    (r = 0 /\ i = sz \/ r = -1 /\ i < sz).
Proof.
  intros O Hc Hun Hsz Hf.
  apply (uvmcopy_loop_ok old new s free Hc (new_pages s new free O) Hun sz (Z.to_nat (sz / PGSIZE + 1)) fuel 0 [] s free);
    [by apply copied_nil|unfold PGSIZE; lia|done|lia|done| |]; unfold PGSIZE in *; dlia.
Qed.
End Copy.

(** The address space of Vm.v beside an empty one and two free pages. *)
Definition copy_root : Z := PHYSTOP - 6 * PGSIZE.
Definition copy_page1 : Z := PHYSTOP - 7 * PGSIZE.
Definition copy_page2 : Z := PHYSTOP - 8 * PGSIZE.
Definition copy_mem : mem := st64 (memset demo_mapped copy_page2 0 (3 * PGSIZE)) copy_page1 copy_page2.
Definition demo_copy : pmst := mkPm copy_mem (pm_lk demo_pm) copy_page1.

Lemma copy_mem_out a : ~ (copy_page2 <= a < copy_page2 + 3 * PGSIZE) -> ld8 copy_mem a = ld8 demo_mapped a.
Proof.
  intros Ha. unfold copy_mem. with_strategy transparent [st64] (unfold st64).
  rewrite ld8_stn_other by (unfold copy_page1, copy_page2, PGSIZE in *; change (Z.of_nat 8) with 8; lia). apply memset_out; [done|lia].
Qed.
Lemma copy_mem_zero a : copy_page2 <= a < copy_page2 + 3 * PGSIZE -> ~ (copy_page1 <= a < copy_page1 + 8) -> ld8 copy_mem a = 0.
Proof.
  intros Ha Hn. unfold copy_mem. with_strategy transparent [st64] (unfold st64).
  rewrite ld8_stn_other by (change (Z.of_nat 8) with 8; lia). by apply memset_in.
Qed.
Lemma copy_zero_word a : copy_page2 <= a -> a + 8 <= copy_page2 + 3 * PGSIZE -> ~ (copy_page1 - 8 < a < copy_page1 + 8) -> ld64 copy_mem a = 0.
Proof.
  intros H1 H2 H3. rewrite (ld64_ext copy_mem (fun _ => 0) a); [reflexivity|]. intros x Hx. rewrite copy_mem_zero by lia. reflexivity.
Qed.
Lemma demo_copy_old : pt_ok KERNBASE copy_mem demo_root /\ tables copy_mem demo_root = tables demo_mapped demo_root /\
  forall va, pte_of copy_mem demo_root va = pte_of demo_mapped demo_root va.
Proof.
  apply off_tables_same; [apply demo_mapped_ok|]. intros a Ha. apply copy_mem_out. intros Hin. apply Ha, demo_off_tables.
  unfold copy_page2, demo_root, PGSIZE in *. lia.
Qed.
Lemma demo_copy_new : vm_ok KERNBASE demo_copy copy_root [copy_page1; copy_page2] /\ tables copy_mem copy_root = [copy_root] /\
  forall va, pte_of copy_mem copy_root va = 0.
Proof.
  destruct (pt_empty KERNBASE copy_mem copy_root) as (O & T & P); [done| |].
  { intros i Hi. unfold entry. apply copy_zero_word; unfold slot, copy_page1, copy_page2, copy_root, PGSIZE; lia. }
  split; [|by split]. split; [exact O| |cbn [pm_mem demo_copy]; rewrite T; apply (bool_decide_unpack _); reflexivity].
  split.
  - split; [done|]. cbn [pm_mem demo_copy]. split; [unfold copy_mem; by rewrite ld64_st64_eq|].
    apply copy_zero_word; unfold copy_page1, copy_page2, PGSIZE; lia.
  - by repeat constructor.
  - apply (bool_decide_unpack _). reflexivity.
  - apply demo_free.
Qed.
#[local] Opaque copy_mem.
Lemma demo_pages_apart : Forall (fun t => t ∉ [copy_root; copy_page1; copy_page2]) [demo_page2; demo_page1; demo_root] /\
  Pm.page KERNBASE demo_frame /\ demo_frame ∉ [copy_root; copy_page1; copy_page2].
Proof. split; [|split; [done|]]; [repeat constructor|]; apply (bool_decide_unpack _); reflexivity. Qed.

Lemma demo_readable va : 0 <= va < MAXVA -> readable demo_mapped demo_root va = true -> PTE2PA (pte_of demo_mapped demo_root va) = demo_frame.
Proof.
  intros Hva. destruct demo_mapped_ok as (_ & _ & P). unfold readable. rewrite P by done. case_decide; [|done].
  intros _. by apply mkpte_pa.
Qed.
(** What a copy from the one to the other asks for. *)
Lemma demo_copyable : vm_ok KERNBASE demo_copy copy_root [copy_page1; copy_page2] /\
  copyable KERNBASE demo_root copy_root demo_copy [copy_page1; copy_page2] /\
  forall va, 0 <= va < MAXVA -> readable (pm_mem demo_copy) demo_root va = true -> has PTE_V (pte_of (pm_mem demo_copy) copy_root va) = false.
Proof.
  destruct demo_copy_old as (O & T & P). destruct demo_copy_new as (On & Tn & Pn). destruct demo_mapped_ok as (_ & TP & _). destruct demo_pages_apart as (HT & HF).
  split; [exact On|split].
  - split; cbn [pm_mem demo_copy].
    + exact O.
    + intros t Ht. rewrite T, TP in Ht. rewrite Tn. revert t Ht. apply Forall_forall. exact HT.
    + intros va Hva Hr. rewrite P. unfold readable in Hr. rewrite P in Hr. rewrite (demo_readable va Hva Hr), Tn. exact HF.
  - intros va _ _. cbn [pm_mem demo_copy]. by rewrite Pn.
Qed.

(** ** The life of a heap *)

Section Heap.
Context (kend : Z) (kend_pos : 0 < kend).
#[local] Abbreviation page := (page kend).
(** Above [lim] lie the stack and the trampoline. *)
Context (lim : Z) (Hlim : 0 <= lim <= MAXVA) (Hlim_al : lim mod PGSIZE = 0).

(** The entry of a page of the user in the frame [x]. *)
Definition user_page (e x : Z) : Prop := leaf_pte e = true /\ PTE2PA e = x /\ has PTE_U e = true.

(** A well-formed heap of [sz] bytes: its pages are mapped, in order, to the
    distinct frames [F], which belong to nobody else; from its end to [lim]
    nothing is mapped. *)
Record heap_ok (root sz : Z) (F : list Z) (s : pmst) (free : list Z) : Prop := {
  h_vm : vm_ok kend s root free;
  h_frames : NoDup (tables (pm_mem s) root ++ F ++ free) /\ Forall page F;
  h_size : 0 <= sz <= lim;
  h_len : Z.of_nat (length F) * PGSIZE = PGROUNDUP sz;
  h_leaf : forall i x, F !! i = Some x -> user_page (pte_of (pm_mem s) root (Z.of_nat i * PGSIZE)) x;
  h_above : forall va, PGROUNDUP sz <= va < lim -> has PTE_V (pte_of (pm_mem s) root va) = false
}.

Inductive heap_op : Type := Grow (newsz xperm : Z) | Shrink (newsz : Z).
Definition heap_op_ok (o : heap_op) : Prop :=
  match o with Grow n x => 0 <= n <= lim /\ 0 <= x < 1024 | Shrink n => 0 <= n <= lim end.
(** The operation and the size of the heap after it, as the callers keep it. *)
Definition heap_step (fuel : nat) (root sz : Z) (o : heap_op) : K pmst Z :=
  match o with
  | Grow n x => r <- uvmalloc kend fuel root sz n x ;; kret (if r =? 0 then sz else r)
  | Shrink n => uvmdealloc kend fuel root sz n
  end.
Fixpoint heap_life (fuel : nat) (root sz : Z) (os : list heap_op) : K pmst Z :=
  match os with [] => kret sz | o :: os => sz <- heap_step fuel root sz o ;; heap_life fuel root sz os end.

Lemma roundup_spec x : 0 <= x <= lim -> PGROUNDUP x = (x + PGSIZE - 1) / PGSIZE * PGSIZE.
Proof. intros Hx. apply PGROUNDUP_spec. change MAXVA with (2 ^ 38) in Hlim. unfold PGSIZE. lia. Qed.
Lemma roundup_lim x : 0 <= x <= lim -> x <= PGROUNDUP x <= lim.
Proof. intros Hx. rewrite roundup_spec by done. unfold PGSIZE in *. dlia. Qed.
Lemma roundup_mono x y : 0 <= x <= y -> y <= lim -> PGROUNDUP x <= PGROUNDUP y.
Proof. intros Hx Hy. rewrite !roundup_spec by lia. unfold PGSIZE in *. dlia. Qed.

(** The conservation of pages: tables, frames and free pages together; and above
    the heap every address keeps its entry. *)
Record conserved (root : Z) (F : list Z) (s : pmst) (free : list Z) (F' : list Z) (s' : pmst) (free' : list Z) : Prop := {
  co_perm : tables (pm_mem s') root ++ F' ++ free' ≡ₚ tables (pm_mem s) root ++ F ++ free;
  co_above : forall va, lim <= va < 2 * MAXVA -> pte_of (pm_mem s') root va = pte_of (pm_mem s) root va
}.
Lemma conserved_refl root F s free : conserved root F s free F s free.
Proof. by split. Qed.
Lemma conserved_trans root F1 s1 f1 F2 s2 f2 F3 s3 f3 :
  conserved root F1 s1 f1 F2 s2 f2 -> conserved root F2 s2 f2 F3 s3 f3 -> conserved root F1 s1 f1 F3 s3 f3.
Proof. intros [P1 A1] [P2 A2]. split; [by rewrite P2|]. intros va Hva. by rewrite A2, A1. Qed.

Lemma heap_grow fuel root sz F s free n x : heap_ok root sz F s free -> sz <= n <= lim -> 0 <= x < 1024 -> 2 * (lim / PGSIZE + 2) < Z.of_nat fuel ->
  exists r s' F' free', uvmalloc kend fuel root sz n x s = Ret (r, s') /\ heap_ok root (if r =? 0 then sz else r) F' s' free' /\
    conserved root F s free F' s' free'.
Proof.
  intros [H1 [H2 HP] H3 H4 H5 H6] Hn Hx Hf. assert (HM := roundup_lim sz H3). assert (HMn := roundup_lim n ltac:(lia)).
  destruct (uvmalloc_ok kend kend_pos fuel root sz n x s free) as (r & s' & free' & R & HR); [done|lia|lia|done| | |].
  { intros va Hva Hpg. apply H6. split; [done|]. unfold PGSIZE in *. dlia. }
  { unfold PGSIZE in *. dlia. }
  destruct HR as [(-> & F' & [X1 [X2 XP] X3 X4 X5 X6] & Hl)|(-> & V & P & L & k & Hk & Hkb & HC)].
  - exists n, s', (F ++ F'), free'. split; [done|]. assert (Hperm : tables (pm_mem s') root ++ (F ++ F') ++ free' ≡ₚ tables (pm_mem s) root ++ F ++ free).
    { transitivity (F ++ (tables (pm_mem s') root ++ F' ++ free')); [solve_Permutation|]. rewrite X4. solve_Permutation. }
    split; [|split; [exact Hperm|]; intros va Hva; rewrite X3 by lia; unfold alloc_range; rewrite (proj2 (Z.ltb_ge _ _)), andb_false_r by lia; done]. assert (Hif : (if n =? 0 then sz else n) = n) by (destruct (Z.eqb_spec n 0); lia). rewrite Hif. split.
    + done.
    + split; [by rewrite Hperm|by apply Forall_app].
    + lia.
    + rewrite length_app. lia.
    + intros i y Hi. assert (Hlt := lookup_lt_Some _ _ _ Hi). rewrite length_app in Hlt.
      rewrite X3 by (unfold PGSIZE in *; lia). apply lookup_app_Some in Hi as [Hi|[Hge Hi]].
      * assert (Hi' := lookup_lt_Some _ _ _ Hi). unfold alloc_range. rewrite (proj2 (Z.leb_gt _ _)) by (unfold PGSIZE in *; lia). cbn [andb]. by apply H5.
      * replace (Z.of_nat i * PGSIZE) with (PGROUNDUP sz + Z.of_nat (i - length F) * PGSIZE) by (rewrite <- H4; unfold PGSIZE; lia).
        rewrite (alloc_range_at _ _ _ _ _ _ Hi). assert (Hpy : page y) by (apply (proj1 (Forall_forall _ _) XP); by eapply list_elem_of_lookup_2).
        destruct (user_leaf kend kend_pos y x Hpy Hx) as (? & ? & ?). by split.
    + intros va Hva. rewrite X3 by lia. unfold alloc_range. rewrite (proj2 (Z.ltb_ge _ _)), andb_false_r by lia. apply H6.
      assert (PGROUNDUP sz <= PGROUNDUP n) by (apply roundup_mono; lia). lia.
  - exists 0, s', F, free'. split; [done|]. assert (Hperm : tables (pm_mem s') root ++ F ++ free' ≡ₚ tables (pm_mem s) root ++ F ++ free).
    { transitivity (F ++ (tables (pm_mem s') root ++ free')); [solve_Permutation|]. rewrite P. solve_Permutation. }
    split; [|split; [exact Hperm|]; intros va Hva; rewrite HC by lia; unfold clear_range; rewrite (proj2 (Z.ltb_ge va _)), andb_false_r by lia; done]. cbn [Z.eqb]. split; [done|split; [by rewrite Hperm|done]|done|done|..].
    + intros i y Hi. assert (Hlt := lookup_lt_Some _ _ _ Hi). rewrite HC by (unfold PGSIZE in *; lia).
      unfold clear_range. rewrite (proj2 (Z.leb_gt _ _)) by (unfold PGSIZE in *; lia). cbn [andb]. by apply H5.
    + intros va Hva. rewrite HC by lia. unfold clear_range. destruct (_ && _); [done|]. by apply H6.
Qed.

Lemma heap_shrink fuel root sz F s free n : heap_ok root sz F s free -> 0 <= n <= sz -> lim / PGSIZE < Z.of_nat fuel ->
  exists s' F' free', uvmdealloc kend fuel root sz n s = Ret (n, s') /\ heap_ok root n F' s' free' /\ conserved root F s free F' s' free'.
Proof.
  intros HO Hn Hf. assert (HO' := HO). destruct HO as [H1 [H2 HP] H3 H4 H5 H6]. assert (HM := roundup_lim sz H3). assert (HMn := roundup_lim n ltac:(lia)).
  assert (Hmono := roundup_mono n sz ltac:(lia) ltac:(lia)). unfold uvmdealloc.
  destruct (Z.leb_spec sz n) as [Hle|Hlt].
  { assert (n = sz) as -> by lia. exists s, F, free. split; [done|]. split; [exact HO'|by apply conserved_refl]. }
  set (k := Z.to_nat (PGROUNDUP n / PGSIZE)).
  assert (Hk : Z.of_nat k * PGSIZE = PGROUNDUP n) by (unfold k; rewrite roundup_spec by lia; rewrite Z.div_mul by done; unfold PGSIZE; rewrite Z2Nat.id; [done|dlia]).
  assert (Hkl : (k <= length F)%nat) by (unfold PGSIZE in *; lia).
  destruct (Z.ltb_spec (PGROUNDUP n) (PGROUNDUP sz)) as [Hr|Hr].
  2:{ exists s, F, free. split; [done|]. assert (E : PGROUNDUP n = PGROUNDUP sz) by lia. split; [|by apply conserved_refl].
      split; [done|done|lia|lia|done|by rewrite E]. }
  assert (HD : F = take k F ++ drop k F) by by rewrite take_drop. set (xs := drop k F) in *.
  assert (Hxs : Z.of_nat (length xs) = (PGROUNDUP sz - PGROUNDUP n) / PGSIZE).
  { unfold xs. rewrite length_drop. rewrite <- H4, <- Hk, <- Z.mul_sub_distr_r, Z.div_mul by done. lia. }
  destruct (frames_apart kend s root F free H2 HP) as [NF FF]. rewrite HD in NF, FF. apply NoDup_app in NF as (_ & _ & NF). apply Forall_app in FF as [_ FF].
  destruct (uvmunmap_loop_ok kend kend_pos xs fuel s root free (PGROUNDUP n) true H1) as (s' & R & O' & [T' P' B' L']);
    [lia|by rewrite <- Hk, Z.mod_mul|rewrite Hxs; unfold PGSIZE in *; dlia| |done|unfold PGSIZE in *; dlia|].
  { intros i y Hi. rewrite <- Hk, <- Z.mul_add_distr_r, <- Nat2Z.inj_add. destruct (H5 (k + i)%nat y) as (? & ? & _); [by rewrite <- lookup_drop|done]. }
  exists s', (take k F), (rev xs ++ free). split; [|split].
  - unfold uvmunmap. rewrite <- Hk, Z.mod_mul, Hk by done. cbn [Z.eqb negb]. rewrite <- Hxs.
    assert (Hs : s32 (Z.of_nat (length xs)) = Z.of_nat (length xs)) by (apply s32_small; rewrite Hxs; change MAXVA with (67108864 * 4096) in *; unfold PGSIZE in *; dlia).
    rewrite Hs, u64_small by (rewrite Hxs; change MAXVA with (2 ^ 38) in *; unfold PGSIZE in *; dlia). by erewrite kbind_ret by exact R.
  - assert (Hperm : tables (pm_mem s') root ++ take k F ++ rev xs ++ free ≡ₚ tables (pm_mem s) root ++ F ++ free).
    { rewrite T'. rewrite HD at 2. rewrite <- Permutation_rev. solve_Permutation. }
    split; [done|split; [by rewrite Hperm|by apply Forall_take]|lia|by rewrite length_take, Nat.min_l by lia|..].
    + intros i y Hi. apply lookup_take_Some in Hi as [Hi Hik]. rewrite P' by (unfold PGSIZE in *; lia). unfold clear_range.
      rewrite (proj2 (Z.leb_gt _ _)) by (unfold PGSIZE in *; lia). cbn [andb]. by apply H5.
    + intros va Hva. rewrite P' by lia. unfold clear_range. rewrite Hxs. destruct (_ && _) eqn:E; [done|]. apply H6.
      destruct (Z.leb_spec (PGROUNDUP n) va), (Z.ltb_spec va (PGROUNDUP n + (PGROUNDUP sz - PGROUNDUP n) / PGSIZE * PGSIZE)); try done; try lia.
      rewrite <- H4, <- Hk, <- Z.mul_sub_distr_r, Z.div_mul in * by done. lia.
  - split; [rewrite T'; rewrite HD at 2; rewrite <- Permutation_rev; solve_Permutation|].
    intros va Hva. rewrite P' by lia. unfold clear_range. rewrite (proj2 (Z.ltb_ge va _)), andb_false_r; [done|].
    rewrite <- Hk in *. rewrite <- H4 in *. rewrite Hxs, <- Z.mul_sub_distr_r, Z.div_mul by done. lia.
Qed.

Lemma heap_step_ok fuel root sz F s free o : heap_ok root sz F s free -> heap_op_ok o -> 2 * (lim / PGSIZE + 2) < Z.of_nat fuel ->
  exists sz' s' F' free', heap_step fuel root sz o s = Ret (sz', s') /\ heap_ok root sz' F' s' free' /\ conserved root F s free F' s' free'.
Proof.
  intros HO Ho Hf. assert (Hlp : 0 <= lim / PGSIZE) by (apply Z.div_pos; [lia|done]). assert (Hsz := h_size _ _ _ _ _ HO).
  destruct o as [n x|n]; cbn [heap_step heap_op_ok] in *.
  - destruct (Z.lt_ge_cases n sz) as [Hlt|Hge].
    + exists sz, s, F, free. split; [|split; [exact HO|by apply conserved_refl]]. unfold uvmalloc. rewrite (proj2 (Z.ltb_lt n sz)) by done.
      krun. unfold kret. by destruct (Z.eqb_spec sz 0).
    + destruct (heap_grow fuel root sz F s free n x HO) as (r & s' & F' & free' & R & HO' & HC); [lia|lia|done|].
      exists (if r =? 0 then sz else r), s', F', free'. split; [by erewrite kbind_ret by exact R|]. by split.
  - destruct (Z.le_gt_cases sz n) as [Hge|Hlt].
    + exists sz, s, F, free. split; [|split; [exact HO|by apply conserved_refl]]. unfold uvmdealloc. by rewrite (proj2 (Z.leb_le sz n)) by done.
    + destruct (heap_shrink fuel root sz F s free n HO) as (s' & F' & free' & R & HO' & HC); [lia|lia|]. by exists n, s', F', free'.
Qed.
Lemma heap_life_ok fuel root os : Forall heap_op_ok os -> 2 * (lim / PGSIZE + 2) < Z.of_nat fuel -> forall sz F s free, heap_ok root sz F s free ->
  exists sz' s' F' free', heap_life fuel root sz os s = Ret (sz', s') /\ heap_ok root sz' F' s' free' /\ conserved root F s free F' s' free'.
Proof.
  intros Hos Hf. induction Hos as [|o os Ho Hos IH]; intros sz F s free HO; cbn [heap_life].
  - exists sz, s, F, free. split; [done|]. split; [done|by apply conserved_refl].
  - destruct (heap_step_ok fuel root sz F s free o HO Ho Hf) as (sz1 & s1 & F1 & f1 & R1 & HO1 & C1).
    destruct (IH sz1 F1 s1 f1 HO1) as (sz2 & s2 & F2 & f2 & R2 & HO2 & C2). exists sz2, s2, F2, f2.
    split; [by erewrite kbind_ret by exact R1|]. split; [done|]. by eapply conserved_trans.
Qed.

(** A page table of [uvmcreate] is an empty heap. *)
Lemma uvmcreate_ok s x free : free_list kend s (x :: free) -> exists s', uvmcreate s = Ret (x, s') /\ x <> 0 /\ heap_ok x 0 [] s' free /\
  tables (pm_mem s') x = [x] /\ (forall va, pte_of (pm_mem s') x va = 0) /\ (forall a, ~ (x <= a < x + PGSIZE) -> ld8 (pm_mem s') a = ld8 (pm_mem s) a) /\
  lk_restored (pm_lk s) (pm_lk s').
Proof.
  intros HF. assert (Hx : page x) by (destruct HF as [_ H _ _]; by apply Forall_cons in H as [? _]).
  assert (Hni : ~ (x ∈ free)) by (destruct HF as [_ _ H _]; by apply NoDup_cons in H as [? _]).
  assert (Hnd : NoDup free) by (destruct HF as [_ _ H _]; by apply NoDup_cons in H as [_ ?]).
  destruct (kpmalloc_cons kend kend_pos s x free HF) as (l & R & HK & HF1).
  assert (Hx0 : x <> 0) by (pose proof (page_pos kend kend_pos x Hx); lia).
  set (s1 := mkPm (memset (pm_mem s) x 5 PGSIZE) l (ld64 (pm_mem s) x)) in *.
  exists (set_mem (memset (pm_mem s1) x 0 PGSIZE) s1). split; [|split; [done|]].
  - unfold uvmcreate. erewrite kbind_ret by exact R. rewrite (proj2 (Z.eqb_neq x 0) Hx0). unfold fill at 1. by krun.
  - cbn [pm_mem set_mem]. set (m := memset (pm_mem s1) x 0 PGSIZE).
    destruct (pt_empty kend m x Hx) as (O & T & P).
    { intros i Hi. unfold entry. rewrite (ld64_ext m (fun _ => 0)); [reflexivity|]. intros a Ha. pose proof (slot_in_page x i Hi).
      unfold m. rewrite memset_in by (done || lia). reflexivity. }
    split; [|split; [exact T|split; [exact P|split; [|exact HK]]]].
    2:{ intros a Ha. unfold m. rewrite memset_out by (done || lia). cbn [pm_mem s1]. apply memset_out; [done|lia]. }
    split; cbn [pm_mem set_mem].
    + split; cbn [pm_mem set_mem]; [exact O| |rewrite T; by constructor].
      destruct HF1 as [F1 F2 F3 F4]. split; [|exact F2|exact F3|exact F4].
      apply (linked_other_page kend (pm_mem s1) m _ free x Hx F2 Hni); [|exact F1]. intros a Ha. apply memset_out; [done|lia].
    + split; [|done]. rewrite T. cbn [app]. by constructor.
    + lia.
    + done.
    + intros i y Hi. by rewrite lookup_nil in Hi.
    + intros va _. by rewrite P.
Qed.

(** [uvmcreate] and what is done with the space after it. *)
Definition new_heap (fuel : nat) (os : list heap_op) : K pmst (Z * Z) :=
  root <- uvmcreate ;; if root =? 0 then kret (0, 0) else sz <- heap_life fuel root 0 os ;; kret (root, sz).

(** C18. A user address space is well formed through its whole life. Made by
    [uvmcreate], after any sequence of [uvmalloc] and [uvmdealloc] with sizes up
    to the limit of the heap, whether or not there was memory for each, it is a
    page table whose heap has the size the calls returned: its pages are mapped
    one by one to distinct frames that are no table and not free, above its end
    nothing is mapped; and no page of the machine is lost or used twice: the
    tables, the frames and the free pages are together the free pages from the
    start. Only when there was no page at all is there no address space. *)
Theorem heap_life_well_formed fuel os s free :
  free_list kend s free -> Forall heap_op_ok os -> 2 * (lim / PGSIZE + 2) < Z.of_nat fuel ->
  exists root sz s', new_heap fuel os s = Ret ((root, sz), s') /\
    (root = 0 /\ free = [] \/
     exists F free', heap_ok root sz F s' free' /\ tables (pm_mem s') root ++ F ++ free' ≡ₚ free).
Proof.
  intros HF Hos Hf. unfold new_heap. destruct free as [|x free].
  - destruct (kpmalloc_empty kend s HF) as (l & R & _ & _). exists 0, 0, (set_lk l s). split; [|by left].
    erewrite kbind_ret by (unfold uvmcreate; erewrite kbind_ret by exact R; reflexivity). done.
  - destruct (uvmcreate_ok s x free HF) as (s1 & R1 & Hx0 & HO & T & _). erewrite kbind_ret by exact R1. rewrite (proj2 (Z.eqb_neq x 0) Hx0).
    destruct (heap_life_ok fuel x os Hos Hf 0 [] s1 free HO) as (sz & s2 & F & free' & R2 & HO2 & HC). exists x, sz, s2.
    split; [by erewrite kbind_ret by exact R2|]. right. exists F, free'. split; [done|]. by rewrite (co_perm _ _ _ _ _ _ _ HC), T.
Qed.
End Heap.

Lemma heap_life_well_formed_witness :
  exists root sz s', new_heap KERNBASE 9 [Grow 100 PTE_W; Grow 5000 PTE_W; Shrink 0; Grow 20 0] demo_pm = Ret ((root, sz), s') /\
    (root = 0 /\ [demo_page1; demo_page2] = [] \/
     exists F free', heap_ok KERNBASE 8192 root sz F s' free' /\ tables (pm_mem s') root ++ F ++ free' ≡ₚ [demo_page1; demo_page2]).
Proof.
  apply (heap_life_well_formed KERNBASE ltac:(done) 8192 ltac:(split; discriminate) eq_refl 9); [apply demo_free| |reflexivity].
  repeat constructor; discriminate.
Defined.
