(* ===== verification/Ids.v ===== *)
(** The bitmap allocators of process identifiers (src/kernel/proc.c) and of
    file descriptors (src/kernel/fs/file.c).

    Both are the same code with a different lock, bitmap and size; it is
    written once with these as parameters. The abstract specification is a set
    of identifiers in use. *)
From S2P Require Import Prelude Spinlock.

(** The bitmap and the locks of the hart. *)
Record bmst : Type := mkBm { bm_lk : lockst; bits : list Z }.
Definition set_bits (b : list Z) (s : bmst) : bmst := mkBm (bm_lk s) b.
Definition bm_op {A} (m : K lockst A) : K bmst A := zoom bm_lk (fun l s => mkBm l (bits s)) m.

Definition MAX_PID : Z := 32768.
Definition MAX_DIRENT : Z := 1024.

(** [bitmap[i / 8] & (1 << (i % 8))], and the two updates of that byte. The
    operations are at type int and the result is stored in an unsigned char. *)
Definition bit_mask (i : Z) : Z := Z.shiftl 1 (i mod 8).
Definition byte_at (i : Z) (b : list Z) : option Z := b !! Z.to_nat (i / 8).
Definition bit_get (i : Z) : K bmst Z := fun s =>
  match byte_at i (bits s) with Some v => Ret (Z.land v (bit_mask i), s) | None => Fault end.
Definition byte_update (f : Z -> Z) (i : Z) : K bmst unit := fun s =>
  match byte_at i (bits s) with
  | Some v => Ret (tt, set_bits (<[Z.to_nat (i / 8) := u8 (f v)]> (bits s)) s)
  | None => Fault
  end.
Definition bit_set (i : Z) : K bmst unit := byte_update (fun v => Z.lor v (bit_mask i)) i.
Definition bit_clear (i : Z) : K bmst unit :=
  byte_update (fun v => Z.land v (Z.lnot (bit_mask i))) i.

Section Ids.
Context (lock : lockid) (max : Z).

Definition id_free (i : Z) : K bmst unit :=
  bm_op (acquire lock) ;;
  kwhen ((0 <=? i) && (i <? max)) (bit_clear i) ;;
  bm_op (release lock).

(** [n] is the number of identifiers from [i] to [max]. *)
Fixpoint id_scan (n : nat) (i : Z) : K bmst Z :=
  match n with
  | O => bm_op (release lock) ;; kret (-1)
  | S n =>
      b <- bit_get i ;;
      if b =? 0 then bit_set i ;; bm_op (release lock) ;; kret i
      else id_scan n (i + 1)
  end.
Definition id_alloc : K bmst Z :=
  bm_op (acquire lock) ;; id_scan (Z.to_nat max) 0.
End Ids.

Definition pid_alloc : K bmst Z := id_alloc pid_lock MAX_PID.
Definition pid_free : Z -> K bmst unit := id_free pid_lock MAX_PID.
Definition alloc_fd : K bmst Z := id_alloc fd_lock MAX_DIRENT.
Definition free_fd : Z -> K bmst unit := id_free fd_lock MAX_DIRENT.

(** ** The specification: a set of identifiers in use *)

Inductive idop : Type := Alloc | Free (i : Z).

(** The least identifier from [i] on, among [n], that is not in use. *)
Fixpoint least_free (n : nat) (i : Z) (X : gset Z) : option Z :=
  match n with
  | O => None
  | S n => if decide (i ∈ X) then least_free n (i + 1) X else Some i
  end.

Definition spec_step (max : Z) (o : idop) (X : gset Z) : Z * gset Z :=
  match o with
  | Alloc => match least_free (Z.to_nat max) 0 X with
             | Some i => (i, {[i]} ∪ X)
             | None => (-1, X)
             end
  | Free i => (0, X ∖ {[i]})
  end.
Fixpoint spec_run (max : Z) (os : list idop) (X : gset Z) : list Z * gset Z :=
  match os with
  | [] => ([], X)
  | o :: os => let '(r, X1) := spec_step max o X in
               let '(rs, X2) := spec_run max os X1 in (r :: rs, X2)
  end.

Definition exec_id (lock : lockid) (max : Z) (o : idop) : K bmst Z :=
  match o with
  | Alloc => id_alloc lock max
  | Free i => id_free lock max i ;; kret 0
  end.
Fixpoint exec_ids (lock : lockid) (max : Z) (os : list idop) : K bmst (list Z) :=
  match os with
  | [] => kret []
  | o :: os => r <- exec_id lock max o ;; rs <- exec_ids lock max os ;; kret (r :: rs)
  end.

(** The bitmap [b] of [max] identifiers stands for the set [X]. *)
Record bitmap (max : Z) (b : list Z) (X : gset Z) : Prop := {
  bm_len : 8 * Z.of_nat (length b) = max;
  bm_byte v : v ∈ b -> 0 <= v < 256;
  bm_in i v : 0 <= i < max -> byte_at i b = Some v -> i ∈ X <-> Z.testbit v (i mod 8) = true;
  bm_range i : i ∈ X -> 0 <= i < max
}.

Definition ids_ready (lock : lockid) (s : bmst) : Prop := lock_free lock (bm_lk s) /\ cpu_ok (hcpu (bm_lk s)).

Lemma byte_at_ok max b X i :
  bitmap max b X -> 0 <= i < max -> exists v, byte_at i b = Some v /\ 0 <= v < 256.
Proof.
  intros H Hi. pose proof (bm_len _ _ _ H). unfold byte_at.
  destruct (lookup_lt_is_Some_2 b (Z.to_nat (i / 8))) as [v Hv]; [dlia|].
  exists v. split; [done|]. eapply bm_byte; [done|]. by eapply list_elem_of_lookup_2.
Qed.

Lemma mask_test v i : 0 <= i -> (Z.land v (bit_mask i) =? 0) = negb (Z.testbit v (i mod 8)).
Proof.
  intros Hi. assert (Hm : 0 <= i mod 8) by dlia. unfold bit_mask.
  destruct (Z.testbit v (i mod 8)) eqn:Ht; simpl.
  - apply Z.eqb_neq. intros H0.
    assert (Hf : Z.testbit (Z.land v (Z.shiftl 1 (i mod 8))) (i mod 8) = false) by by rewrite H0, Z.bits_0.
    rewrite Z.land_spec, Ht, Z.shiftl_spec, Z.sub_diag in Hf by done. done.
  - apply Z.eqb_eq. apply Z.bits_inj'. intros k Hk. rewrite Z.bits_0, Z.land_spec, Z.shiftl_spec by done.
    destruct (decide (k = i mod 8)) as [->|Hne]; [by rewrite Ht|].
    destruct (Z.ltb_spec k (i mod 8)); [by rewrite (Z.testbit_neg_r 1), andb_false_r by lia|].
    rewrite (Z.bits_above_log2 1), andb_false_r; [done|lia|]. change (Z.log2 1) with 0. lia.
Qed.

Lemma u8_bit v k : 0 <= k < 8 -> Z.testbit (u8 v) k = Z.testbit v k.
Proof. intros H. unfold u8, wrap. apply Z.mod_pow2_bits_low. lia. Qed.

Lemma mask_bit i k : 0 <= i -> 0 <= k -> Z.testbit (bit_mask i) k = bool_decide (k = i mod 8).
Proof.
  intros Hi Hk. unfold bit_mask. rewrite Z.shiftl_spec by done. assert (0 <= i mod 8) by dlia.
  destruct (decide (k = i mod 8)) as [->|Hne]; [by rewrite Z.sub_diag, bool_decide_eq_true_2|].
  rewrite bool_decide_eq_false_2 by done.
  destruct (Z.ltb_spec k (i mod 8)); [by rewrite Z.testbit_neg_r by lia|].
  apply Z.bits_above_log2; [lia|]. change (Z.log2 1) with 0. lia.
Qed.

(** Writing one bit of the bitmap. *)
Lemma byte_update_ok max f i (on : bool) s X :
  bitmap max (bits s) X -> 0 <= i < max ->
  (forall v k, 0 <= k < 8 ->
     Z.testbit (f v) k = if decide (k = i mod 8) then on else Z.testbit v k) ->
  exists b, byte_update f i s = Ret (tt, set_bits b s) /\
    bitmap max b (if on then {[i]} ∪ X else X ∖ {[i]}).
Proof.
  intros H Hi Hf. destruct (byte_at_ok _ _ _ _ H Hi) as (v & Hv & Hr).
  unfold byte_update. rewrite Hv. eexists. split; [done|].
  assert (Hlt : (Z.to_nat (i / 8) < length (bits s))%nat) by (apply lookup_lt_is_Some; by exists v).
  split.
  - rewrite length_insert. by eapply bm_len.
  - intros w [j Hw]%list_elem_of_lookup_1. apply list_lookup_insert_Some in Hw as [(_ & <- & _)|[_ Hw]].
    + apply u8_range.
    + eapply bm_byte; [done|]. by eapply list_elem_of_lookup_2.
  - intros j w Hj. unfold byte_at. destruct (decide (j / 8 = i / 8)) as [E|E].
    + rewrite E, list_lookup_insert_eq by done. intros [= <-].
      rewrite u8_bit, Hf by dlia. pose proof (bm_in _ _ _ H j v Hj) as Hb.
      unfold byte_at in *. rewrite E in Hb. specialize (Hb Hv).
      case_decide as Hd.
      * assert (j = i) as -> by dlia. destruct on; set_solver.
      * assert (j <> i) by congruence. rewrite <- Hb. destruct on; set_solver.
    + rewrite list_lookup_insert_ne by dlia. intros Hw.
      rewrite <- (bm_in _ _ _ H j w) by done. assert (j <> i) by congruence. destruct on; set_solver.
  - intros j. pose proof (bm_range _ _ _ H j). destruct on; set_solver.
Qed.

Lemma bit_set_ok max i s X :
  bitmap max (bits s) X -> 0 <= i < max ->
  exists b, bit_set i s = Ret (tt, set_bits b s) /\ bitmap max b ({[i]} ∪ X).
Proof.
  intros H Hi. apply (byte_update_ok max (fun v => Z.lor v (bit_mask i)) i true); [done..|]. intros v k Hk.
  rewrite Z.lor_spec, mask_bit by lia. case_decide as Hd; [by rewrite bool_decide_eq_true_2, orb_true_r|].
  by rewrite bool_decide_eq_false_2, orb_false_r.
Qed.

Lemma bit_clear_ok max i s X :
  bitmap max (bits s) X -> 0 <= i < max ->
  exists b, bit_clear i s = Ret (tt, set_bits b s) /\ bitmap max b (X ∖ {[i]}).
Proof.
  intros H Hi. apply (byte_update_ok max (fun v => Z.land v (Z.lnot (bit_mask i))) i false); [done..|]. intros v k Hk.
  rewrite Z.land_spec, Z.lnot_spec, mask_bit by lia.
  case_decide as Hd; [by rewrite bool_decide_eq_true_2, andb_false_r|].
  by rewrite bool_decide_eq_false_2, andb_true_r.
Qed.

Lemma bit_get_ok max i s X :
  bitmap max (bits s) X -> 0 <= i < max ->
  exists v, bit_get i s = Ret (v, s) /\ (v =? 0) = bool_decide (i ∉ X).
Proof.
  intros H Hi. destruct (byte_at_ok _ _ _ _ H Hi) as (v & Hv & Hr).
  eexists. unfold bit_get. rewrite Hv. split; [done|]. rewrite mask_test by lia.
  pose proof (bm_in _ _ _ H i v Hi Hv) as Hb. destruct (Z.testbit v (i mod 8)); simpl.
  - symmetry. apply bool_decide_eq_false_2. naive_solver.
  - symmetry. apply bool_decide_eq_true_2. naive_solver.
Qed.

Section Spec.
Context (lock : lockid) (max : Z).

Lemma acquire_bm s X :
  ids_ready lock s -> bitmap max (bits s) X ->
  exists l, bm_op (acquire lock) s = Ret (tt, mkBm l (bits s)) /\ l ≡ acquired lock (bm_lk s).
Proof.
  intros [Hf _] _. destruct (acquire_free lock (bm_lk s) Hf) as (l & Hl & E).
  exists l. split; [|done]. unfold bm_op. by erewrite zoom_ret by exact Hl.
Qed.

(** The end of the critical section entered from [s]. *)
Lemma release_bm s l b :
  ids_ready lock s -> l ≡ acquired lock (bm_lk s) ->
  exists l', bm_op (release lock) (mkBm l b) = Ret (tt, mkBm l' b) /\ lk_restored (bm_lk s) l'.
Proof.
  intros [Hf Hc] E. destruct (acquired_released lock (bm_lk s) l Hf Hc E) as (l' & Hl & R).
  exists l'. split; [|done]. unfold bm_op. by erewrite zoom_ret by exact Hl.
Qed.

Lemma ids_ready_restored s l b : ids_ready lock s -> lk_restored (bm_lk s) l -> ids_ready lock (mkBm l b).
Proof. intros [Hf Hc] R. split; [by eapply lk_restored_free|by eapply lk_restored_ok]. Qed.

Lemma id_free_ok i s X :
  ids_ready lock s -> bitmap max (bits s) X ->
  exists s', id_free lock max i s = Ret (tt, s') /\ bitmap max (bits s') (X ∖ {[i]}) /\
    lk_restored (bm_lk s) (bm_lk s').
Proof.
  intros Hr Hb. unfold id_free. destruct (acquire_bm s X Hr Hb) as (l & Hl & E).
  erewrite kbind_ret by exact Hl.
  destruct ((0 <=? i) && (i <? max)) eqn:Hi; cbn [kwhen].
  - bool_to_prop. destruct (bit_clear_ok max i (mkBm l (bits s)) X) as (b & Hc & Hb'); [done|lia|].
    erewrite kbind_ret by exact Hc. destruct (release_bm s l b Hr E) as (l' & Hl' & R).
    exists (mkBm l' b). split; [exact Hl'|done].
  - krun. destruct (release_bm s l (bits s) Hr E) as (l' & Hl' & R).
    exists (mkBm l' (bits s)). split; [exact Hl'|]. split; [|done]. cbn [bits].
    replace (X ∖ {[i]}) with X; [done|]. assert (i ∉ X) as Hn.
    { intros HX. apply (bm_range _ _ _ Hb) in HX. apply andb_false_iff in Hi as [Hi|Hi]; bool_to_prop; lia. }
    set_solver.
Qed.

Lemma id_scan_ok s l X n : forall i,
  ids_ready lock s -> bitmap max (bits s) X -> l ≡ acquired lock (bm_lk s) ->
  0 <= i -> i + Z.of_nat n = max ->
  exists s', id_scan lock n i (mkBm l (bits s)) =
      Ret (default (-1) (least_free n i X), s') /\
    bitmap max (bits s') (match least_free n i X with Some j => {[j]} ∪ X | None => X end) /\
    lk_restored (bm_lk s) (bm_lk s').
Proof.
  induction n as [|n IH]; intros i Hr Hb E Hi Hm; cbn [id_scan least_free].
  - destruct (release_bm s l (bits s) Hr E) as (l' & Hl' & R).
    erewrite kbind_ret by exact Hl'. by eexists.
  - destruct (bit_get_ok max i (mkBm l (bits s)) X) as (v & Hv & Hz); [done|lia|].
    erewrite kbind_ret by exact Hv. rewrite Hz. case_decide as HX.
    + rewrite bool_decide_eq_false_2 by naive_solver. apply IH; [done..|lia|lia].
    + rewrite bool_decide_eq_true_2 by done.
      destruct (bit_set_ok max i (mkBm l (bits s)) X) as (b & Hc & Hb'); [done|lia|].
      erewrite kbind_ret by exact Hc. destruct (release_bm s l b Hr E) as (l' & Hl' & R).
      unfold set_bits. cbn [bm_lk]. erewrite kbind_ret by exact Hl'. by eexists.
Qed.

Lemma exec_id_ok o s X :
  0 <= max -> ids_ready lock s -> bitmap max (bits s) X ->
  exists s', exec_id lock max o s = Ret ((spec_step max o X).1, s') /\
    bitmap max (bits s') (spec_step max o X).2 /\ lk_restored (bm_lk s) (bm_lk s').
Proof.
  intros H0 Hr Hb. destruct o as [|i]; cbn [exec_id spec_step].
  - unfold id_alloc. destruct (acquire_bm s X Hr Hb) as (l & Hl & E).
    erewrite kbind_ret by exact Hl.
    destruct (id_scan_ok s l X (Z.to_nat max) 0 Hr Hb E) as (s' & Hs & Hb' & R); [lia..|].
    rewrite Hs. exists s'. by destruct (least_free _ _ _).
  - destruct (id_free_ok i s X Hr Hb) as (s' & Hs & Hb' & R).
    erewrite kbind_ret by exact Hs. by exists s'.
Qed.

(** C39. The identifier allocators are a set: whatever sequence of allocations
    and frees is run, [pid_alloc] (or [alloc_fd]) returns the least identifier
    not in use and -1 exactly when all of them are, [pid_free] (or [free_fd])
    gives back one identifier and ignores those out of range, the bitmap stays
    the characteristic function of the set, and the lock and the interrupt
    state are left as they were. *)
Theorem ids_refine_set os s X :
  0 <= max -> ids_ready lock s -> bitmap max (bits s) X ->
  exists s', exec_ids lock max os s = Ret ((spec_run max os X).1, s') /\
    bitmap max (bits s') (spec_run max os X).2 /\ lk_restored (bm_lk s) (bm_lk s').
Proof.
  intros H0. revert s X. induction os as [|o os IH]; intros s X Hr Hb; cbn [exec_ids spec_run].
  { by exists s. }
  destruct (exec_id_ok o s X H0 Hr Hb) as (s1 & H1 & Hb1 & R1). erewrite kbind_ret by exact H1.
  destruct (spec_step max o X) as [r X1]. cbn [fst snd] in *.
  destruct (IH s1 X1) as (s2 & H2 & Hb2 & R2); [|done|].
  { destruct s1. by eapply ids_ready_restored. }
  erewrite kbind_ret by exact H2. destruct (spec_run max os X1) as [rs X2]. cbn [fst snd] in *.
  exists s2. split_and!; [done..|]. by eapply lk_restored_trans.
Qed.
End Spec.

(** The identifiers right after boot: the bitmaps are zero. *)
Definition boot_ids (max : Z) : bmst :=
  mkBm (mkLockst 0 (mkCpu 0 false true) (fun _ => mkSpinlock 0 None)) (replicate (Z.to_nat (max / 8)) 0).

Lemma boot_bitmap max : 0 <= max -> max mod 8 = 0 -> bitmap max (bits (boot_ids max)) ∅.
Proof.
  intros H0 H8. split; cbn [bits boot_ids].
  - rewrite length_replicate. dlia.
  - intros v Hv. apply elem_of_replicate in Hv. lia.
  - intros i v Hi Hv. unfold byte_at in Hv. apply lookup_replicate in Hv as [-> _].
    rewrite Z.bits_0. set_solver.
  - set_solver.
Qed.

Lemma ids_refine_set_witness :
  (exists s', exec_ids pid_lock MAX_PID [Alloc; Alloc; Free 0; Alloc; Alloc] (boot_ids MAX_PID) =
    Ret ([0; 1; 0; 0; 2], s')) /\
  (exists s', exec_ids fd_lock MAX_DIRENT [Alloc; Free 1024; Free 0; Alloc] (boot_ids MAX_DIRENT) =
    Ret ([0; 0; 0; 0], s')).
Proof.
  split.
  - destruct (ids_refine_set pid_lock MAX_PID [Alloc; Alloc; Free 0; Alloc; Alloc] (boot_ids MAX_PID) ∅)
      as (s' & H & _ & _); [done|done|by apply boot_bitmap|].
    exists s'. rewrite H. by vm_compute.
  - destruct (ids_refine_set fd_lock MAX_DIRENT [Alloc; Free 1024; Free 0; Alloc] (boot_ids MAX_DIRENT) ∅)
      as (s' & H & _ & _); [done|done|by apply boot_bitmap|].
    exists s'. rewrite H. by vm_compute.
Defined.
