(* ===== verification/Kalloc.v ===== *)
(** The kernel heap: the buddy allocator of src/kernel/buddy.c and the slab
    allocator of src/kernel/kalloc.c on top of it.

    The state is that of the page allocator with the twelve buddy lists, which
    are threaded through the free blocks, and the current page of each slab.
    An access to the first page of memory, which nothing maps, is a [Fault].
    [ASSERT_INFO] only prints, so it is left out. *)
From S2P Require Import Prelude CString Spinlock Pm Ids.

Definition MAX_LEVEL : Z := 12.
Definition ALIGN : Z := 8.

Record kast : Type := mkKa { ka_pm : pmst; buddy_list : list Z; proc_heap_list : Z; rb_heap_list : Z; file_heap_list : Z }.
Definition put_ka_pm (x : pmst) (s : kast) : kast :=
  mkKa x (buddy_list s) (proc_heap_list s) (rb_heap_list s) (file_heap_list s).
Definition put_buddy (x : list Z) (s : kast) : kast :=
  mkKa (ka_pm s) x (proc_heap_list s) (rb_heap_list s) (file_heap_list s).
#[global] Instance kast_pm : Lens kast pmst.
Proof. by refine {| lget := ka_pm; lput := put_ka_pm |}; intros; destruct s. Defined.

Definition ka_mem (s : kast) : mem := pm_mem (ka_pm s).
Definition put_ka_mem (m : mem) (s : kast) : kast := put_ka_pm (set_mem m (ka_pm s)) s.

(** Loads and stores through a pointer. *)
Definition guard (a : Z) (m : K kast unit) : K kast unit := if a <? PGSIZE then kfault else m.
Definition peek {A} (f : mem -> Z -> A) (a : Z) : K kast A := fun s =>
  if a <? PGSIZE then Fault else Ret (f (ka_mem s) a, s).
Definition poke (f : mem -> Z -> Z -> mem) (a v : Z) : K kast unit := fun s =>
  if a <? PGSIZE then Fault else Ret (tt, put_ka_mem (f (ka_mem s) a v) s).
Definition kfill (a c n : Z) : K kast unit := fun s =>
  if a <? PGSIZE then Fault else Ret (tt, put_ka_mem (memset (ka_mem s) a c n) s).

(** ** Buddy allocator *)

Definition is_pow_of_2 (x : Z) : bool := Z.land x (u64 (x - 1)) =? 0.
Definition next_pow_of_2 (n : Z) : Z :=
  if is_pow_of_2 n then n else
  let n := Z.lor n (Z.shiftr n 1) in
  let n := Z.lor n (Z.shiftr n 2) in
  let n := Z.lor n (Z.shiftr n 4) in
  let n := Z.lor n (Z.shiftr n 8) in
  let n := Z.lor n (Z.shiftr n 16) in
  let n := Z.lor n (Z.shiftr n 32) in
  u64 (n + 1).

(** The [while] loop of [level_of_bytes]; a size_t has 64 bits. *)
Fixpoint level_loop (fuel : nat) (n level : Z) : Z :=
  match fuel with
  | O => level
  | S fuel => if 1 <? n then level_loop fuel (Z.shiftr n 1) (u8 (level + 1)) else level
  end.
Definition level_of_bytes (n : Z) : Z := level_loop 64 n 0.

Definition get_buddy (block level : Z) : Z := Z.lxor block (Z.shiftl 1 level).

Definition list_get (i : Z) : K kast Z := fun s =>
  match buddy_list s !! Z.to_nat i with Some b => Ret (b, s) | None => Fault end.
Definition list_set (i v : Z) : K kast unit := fun s =>
  if decide (Z.to_nat i < length (buddy_list s))%nat
  then Ret (tt, put_buddy (<[Z.to_nat i := v]> (buddy_list s)) s) else Fault.

Definition buddy_init : K kast unit := kmod (put_buddy (replicate 12 0)).

Section Kalloc.
Context (kend : Z).

(** [n] levels from [i] on are left to look at; the block found or 0. *)
Fixpoint take_block (n : nat) (i : Z) : K kast Z :=
  match n with
  | O => kret 0
  | S n =>
      b <- list_get i ;;
      if negb (b =? 0) then x <- peek ld64 b ;; list_set i x ;; kret b
      else take_block n (i + 1)
  end.

(** Puts the upper halves on the lists, from level [i] down to above [level]. *)
Fixpoint split_loop (n : nat) (block level i : Z) : K kast unit :=
  match n with
  | O => kret tt
  | S n =>
      if level <? i then
        let buddy := get_buddy block i in
        x <- list_get i ;;
        poke st64 buddy x ;;
        list_set i buddy ;;
        split_loop n block level (i - 1)
      else kret tt
  end.

Definition buddy_alloc (sz : Z) : K kast Z :=
  let level := level_of_bytes sz in
  if level =? MAX_LEVEL then via kpmalloc else
  b <- take_block (Z.to_nat (MAX_LEVEL - level)) level ;;
  block <- (if b =? 0 then via kpmalloc else kret b) ;;
  split_loop 12 block level (MAX_LEVEL - 1) ;;
  poke st8 block level ;;
  kret block.

(** Where the pointer [list] of [buddy_free] points: the head of level [i] or
    the [next] field of a block. *)
Inductive link : Type := Head (i : Z) | NextOf (a : Z).
Definition link_get (l : link) : K kast Z := match l with Head i => list_get i | NextOf a => peek ld64 a end.
Definition link_set (l : link) (v : Z) : K kast unit :=
  match l with Head i => list_set i v | NextOf a => poke st64 a v end.
Fixpoint find_link (fuel : nat) (l : link) (buddy : Z) : K kast link :=
  match fuel with
  | O => knofuel
  | S fuel =>
      b <- link_get l ;;
      if negb (b =? 0) && negb (b =? buddy) then find_link fuel (NextOf b) buddy else kret l
  end.

(** The [for] loop of [buddy_free], at most [n] levels. *)
Fixpoint free_loop (n fuel : nat) (addr block i : Z) : K kast unit :=
  match n with
  | O => knofuel
  | S n =>
      if i =? MAX_LEVEL then via (kpmfree kend addr) else
      let buddy := get_buddy block i in
      l <- find_link fuel (Head i) buddy ;;
      b <- link_get l ;;
      if negb (b =? buddy) then
        h <- list_get i ;;
        poke st64 block h ;;
        list_set i block
      else
        x <- peek ld64 b ;;
        link_set l x ;;
        free_loop n fuel addr (Z.min block buddy) (i + 1)
  end.
Definition buddy_free (fuel : nat) (addr : Z) : K kast unit :=
  i <- peek ld8 addr ;;
  if i =? MAX_LEVEL then via (kpmfree kend addr) else free_loop 256 fuel addr addr i.

(** ** Slabs *)

Definition ROUNDUP (a x : Z) : Z := Z.land (a + x - 1) (Z.lnot (x - 1)).
Definition WSIZE : Z := 4.
Definition PAGE_ALLOC_SIZE : Z := PGSIZE - 4 * ALIGN.
(** [sizeof (struct proc)], [struct rbNode] and [struct file] on riscv64. *)
Definition PROC_SIZE : Z := ROUNDUP 392 WSIZE.
Definition RBNODE_SIZE : Z := ROUNDUP 40 WSIZE.
Definition FILE_SIZE : Z := ROUNDUP 56 WSIZE.
Definition PROC_BLOCK_NUM : Z := PAGE_ALLOC_SIZE / PROC_SIZE.
Definition RB_BLOCK_SIZE : Z := PAGE_ALLOC_SIZE / RBNODE_SIZE.
Definition FILE_BLOCK_SIZE : Z := PAGE_ALLOC_SIZE / FILE_SIZE.

Definition PACK (ptr lev : Z) : Z := Z.lor ptr lev.
Definition low_mask : Z := u64 (Z.lnot 0xff).
(** [UNPACK] dereferences its argument. *)
Definition UNPACK (a : Z) : K kast Z := v <- peek ld64 a ;; kret (Z.land v low_mask).
Definition HDRP (bp : Z) : Z := bp - ALIGN.
Definition FTRP (bp : Z) : Z := bp + ALIGN.
Definition all_ones : Z := 2 ^ 64 - 1.

(** The first clear bit from [pos] on among [n], or -1. *)
Fixpoint zero_bit_loop (n : nat) (num pos : Z) : Z :=
  match n with
  | O => -1
  | S n => if Z.land num (Z.shiftl 1 pos) =? 0 then pos else zero_bit_loop n num (pos + 1)
  end.
Definition find_lowest_zero_bit (num width : Z) : Z := zero_bit_loop (Z.to_nat width) num 0.

Fixpoint fill_bytes (n : nat) (ptr i v : Z) : K kast unit :=
  match n with
  | O => kret tt
  | S n => poke st8 (ptr + i) v ;; fill_bytes n ptr (i + 1) v
  end.
Definition init_bitmap_helper (ptr block_num : Z) : K kast unit :=
  let i := Z.min (Z.shiftr block_num 3) 8 in
  fill_bytes (Z.to_nat i) ptr 0 0 ;;
  let mask := u8 (Z.shiftl 1 (Z.land block_num 7) - 1) in
  let val := u8 (Z.land 0xff (Z.lnot mask)) in
  poke st8 (ptr + i) val ;;
  fill_bytes (Z.to_nat (16 - (i + 1))) ptr (i + 1) 0xff.

(** The page a block belongs to and its index there. *)
Fixpoint get_block_index_helper (fuel : nat) (bp list block_size : Z) : K kast (Z * Z) :=
  match fuel with
  | O => knofuel
  | S fuel =>
      if (list <=? bp) && (bp <? list + PAGE_ALLOC_SIZE)
      then kret (list, u32 (bp - list) / block_size)
      else
        val <- peek ld64 (list + PAGE_ALLOC_SIZE) ;;
        list' <- UNPACK val ;;
        get_block_index_helper fuel bp list' block_size
  end.

Definition find_match_space (list size : Z) : K kast Z :=
  free_bitmap <- peek ld64 (HDRP (HDRP list)) ;;
  free_bitmap_extend <- peek ld64 (HDRP list) ;;
  if free_bitmap =? all_ones then
    if free_bitmap_extend =? all_ones then kret 0 else
    let off := u32 (find_lowest_zero_bit free_bitmap_extend 64) in
    poke st64 (HDRP list) (Z.lor free_bitmap_extend (u64 (Z.shiftl 1 off))) ;;
    poke st64 (HDRP (HDRP list)) free_bitmap ;;
    kret (list + u32 (off + 64) * size)
  else
    let off := u32 (find_lowest_zero_bit free_bitmap 64) in
    poke st64 (HDRP list) free_bitmap_extend ;;
    poke st64 (HDRP (HDRP list)) (Z.lor free_bitmap (u64 (Z.shiftl 1 off))) ;;
    kret (list + off * size).

(** The new list head. *)
Definition heap_list_init (prev num : Z) : K kast Z :=
  ptr <- buddy_alloc PGSIZE ;;
  level <- peek ld8 ptr ;;
  poke st64 ptr (PACK prev level) ;;
  kwhen (negb (prev =? 0)) (poke st64 (prev + PAGE_ALLOC_SIZE) (PACK ptr level)) ;;
  init_bitmap_helper (FTRP ptr) num ;;
  kret (FTRP (FTRP (FTRP ptr))).

(** The slabs, with the current page, the block size and the block number. *)
Inductive slab : Type := Proc | Rb | File.
Definition slab_list (k : slab) (s : kast) : Z :=
  match k with Proc => proc_heap_list s | Rb => rb_heap_list s | File => file_heap_list s end.
Definition set_slab_list (k : slab) (v : Z) (s : kast) : kast :=
  match k with
  | Proc => mkKa (ka_pm s) (buddy_list s) v (rb_heap_list s) (file_heap_list s)
  | Rb => mkKa (ka_pm s) (buddy_list s) (proc_heap_list s) v (file_heap_list s)
  | File => mkKa (ka_pm s) (buddy_list s) (proc_heap_list s) (rb_heap_list s) v
  end.
Definition slab_size (k : slab) : Z := match k with Proc => PROC_SIZE | Rb => RBNODE_SIZE | File => FILE_SIZE end.
Definition slab_num (k : slab) : Z :=
  match k with Proc => PROC_BLOCK_NUM | Rb => RB_BLOCK_SIZE | File => FILE_BLOCK_SIZE end.

Definition slab_init : K kast unit :=
  p <- heap_list_init 0 PROC_BLOCK_NUM ;; kmod (set_slab_list Proc p) ;;
  r <- heap_list_init 0 RB_BLOCK_SIZE ;; kmod (set_slab_list Rb r) ;;
  f <- heap_list_init 0 FILE_BLOCK_SIZE ;; kmod (set_slab_list File f).

Definition PROC_MODE : Z := Z.shiftl 1 1.
Definition RB_MODE : Z := Z.shiftl 1 3.
Definition FILE_MODE : Z := Z.shiftl 1 4.
Definition DEFAULT : Z := Z.shiftl 1 5.
Definition slab_of_mode (mode : Z) : option slab :=
  if mode =? PROC_MODE then Some Proc else if mode =? RB_MODE then Some Rb
  else if mode =? FILE_MODE then Some File else None.

Definition slab_alloc (k : slab) : K kast Z :=
  l <- kget (slab_list k) ;;
  bp <- find_match_space l (slab_size k) ;;
  if bp =? 0 then
    ptr <- heap_list_init l (slab_num k) ;;
    kmod (set_slab_list k ptr) ;;
    find_match_space ptr (slab_size k)
  else kret bp.

Definition kalloc (size mode : Z) : K kast Z :=
  match slab_of_mode mode with
  | Some k => slab_alloc k
  | None =>
      if size =? 0 then kret 0 else
      let need := u64 (size + ALIGN) in
      if need <? size then kret 0 else
      ptr <- buddy_alloc (next_pow_of_2 need) ;;
      if ptr =? 0 then kret 0 else kret (FTRP ptr)
  end.

(** The part of [kfree] after [do_free]. *)
Definition slab_free (fuel : nat) (k : slab) (addr : Z) : K kast unit :=
  list <- kget (slab_list k) ;;
  let size := slab_size k in
  kfill addr 0xc size ;;
  ret <- get_block_index_helper fuel addr list size ;;
  let '(page, off) := ret in
  (if 64 <=? off then
     val <- peek ld64 (HDRP page) ;;
     poke st64 (HDRP page) (Z.land val (u64 (Z.lnot (u64 (Z.shiftl 1 (off - 64))))))
   else
     val <- peek ld64 (HDRP (HDRP page)) ;;
     poke st64 (HDRP (HDRP page)) (Z.land val (u64 (Z.lnot (u64 (Z.shiftl 1 off)))))) ;;
  val1 <- peek ld64 (HDRP (HDRP page)) ;;
  val2 <- peek ld64 (HDRP page) ;;
  prev_val <- peek ld64 (HDRP (HDRP (HDRP page))) ;;
  next_val <- peek ld64 (page + PAGE_ALLOC_SIZE) ;;
  kwhen ((val1 =? all_ones) && (val2 =? all_ones))
    (prev <- UNPACK prev_val ;;
     next <- UNPACK next_val ;;
     poke st64 (prev + PAGE_ALLOC_SIZE) next_val ;;
     poke st64 (HDRP (HDRP (HDRP next))) prev_val ;;
     buddy_free fuel (HDRP (HDRP (HDRP page)))).

Definition kfree (fuel : nat) (addr mode : Z) : K kast unit :=
  if addr =? 0 then kret tt else
  match slab_of_mode mode with
  | Some k => slab_free fuel k addr
  | None =>
      level <- peek ld8 (HDRP addr) ;;
      kwhen (MAX_LEVEL <? level) (kpanic "kfree: invalid buddy level") ;;
      let size := Z.shiftl 1 level in
      kwhen (ALIGN <? size) (kfill addr 0xc (size - ALIGN)) ;;
      buddy_free fuel (HDRP addr)
  end.
End Kalloc.

(** ** Lemmas *)

Lemma peek_ok {A} (f : mem -> Z -> A) a s : PGSIZE <= a -> peek f a s = Ret (f (ka_mem s) a, s).
Proof. intros H. unfold peek. by rewrite (proj2 (Z.ltb_ge a PGSIZE)). Qed.
Lemma poke_ok f a v s : PGSIZE <= a -> poke f a v s = Ret (tt, put_ka_mem (f (ka_mem s) a v) s).
Proof. intros H. unfold poke. by rewrite (proj2 (Z.ltb_ge a PGSIZE)). Qed.
Lemma list_get_ok i b s : buddy_list s !! Z.to_nat i = Some b -> list_get i s = Ret (b, s).
Proof. intros H. unfold list_get. by rewrite H. Qed.
Lemma list_set_ok i v s : (Z.to_nat i < length (buddy_list s))%nat ->
  list_set i v s = Ret (tt, put_buddy (<[Z.to_nat i := v]> (buddy_list s)) s).
Proof. intros H. unfold list_set. by rewrite decide_True. Qed.

(** *** The lists after a split *)

Fixpoint split_lists (n : nat) (block level i : Z) (ls : list Z) : list Z :=
  match n with
  | O => ls
  | S n => if level <? i then split_lists n block level (i - 1) (<[Z.to_nat i := get_buddy block i]> ls) else ls
  end.

Lemma split_loop_ok n : forall block level i s,
  length (buddy_list s) = 12%nat -> 0 <= level -> i < 12 ->
  (forall j, level < j <= i -> PGSIZE <= get_buddy block j) ->
  exists m, split_loop n block level i s = Ret (tt, put_buddy (split_lists n block level i (buddy_list s)) (put_ka_mem m s)).
Proof.
  induction n as [|n IH]; intros block level i s Hl Hlev Hi Hb; cbn [split_loop split_lists].
  { exists (ka_mem s). destruct s as [[] ?]. done. }
  destruct (Z.ltb_spec level i) as [Hlt|Hge]; [|by exists (ka_mem s); destruct s as [[] ?]].
  destruct (lookup_lt_is_Some_2 (buddy_list s) (Z.to_nat i)) as [x Hx]; [lia|].
  erewrite kbind_ret by (apply list_get_ok; exact Hx).
  erewrite kbind_ret by (apply poke_ok, Hb; lia).
  erewrite kbind_ret by (apply list_set_ok; cbn; lia). cbn [buddy_list put_ka_mem put_ka_pm].
  set (s1 := put_buddy _ _). destruct (IH block level (i - 1) s1) as [m Hm].
  - unfold s1. cbn. by rewrite length_insert.
  - done.
  - lia.
  - intros j Hj. apply Hb. lia.
  - exists m. by rewrite Hm.
Qed.

(** Block addresses inside a page. *)
Lemma bits_high c i : 0 <= c < 2 ^ 12 -> 12 <= i -> Z.testbit c i = false.
Proof. intros Hc Hi. rewrite <- (Z.mod_small c (2 ^ 12)) by done. apply Z.mod_pow2_bits_high. lia. Qed.
Lemma bits_low x i : x mod 2 ^ 12 = 0 -> i < 12 -> Z.testbit x i = false.
Proof.
  intros Hx Hi. destruct (Z.ltb_spec i 0); [by apply Z.testbit_neg_r|].
  rewrite <- (Z.mod_pow2_bits_low x 12 i), Hx by lia. apply Z.bits_0.
Qed.
Lemma page_lxor_add x c : x mod 2 ^ 12 = 0 -> 0 <= c < 2 ^ 12 -> Z.lxor x c = x + c.
Proof.
  intros Hx Hc. symmetry. apply Z.add_nocarry_lxor. apply Z.bits_inj'. intros i Hi.
  rewrite Z.land_spec, Z.bits_0. destruct (Z.ltb_spec i 12).
  - by rewrite bits_low.
  - by rewrite (bits_high c), andb_false_r.
Qed.
Lemma page_lxor x a b :
  x mod PGSIZE = 0 -> 0 <= a < PGSIZE -> 0 <= b < PGSIZE -> Z.lxor (x + a) b = x + Z.lxor a b.
Proof.
  unfold PGSIZE. change 4096 with (2 ^ 12). intros Hx Ha Hb.
  rewrite <- (page_lxor_add x a), <- (page_lxor_add x (Z.lxor a b)); [apply Z.lxor_assoc|done| |done|done].
  assert (0 <= Z.lxor a b) by (apply Z.lxor_nonneg; lia). split; [done|].
  destruct (Z.ltb_spec (Z.lxor a b) (2 ^ 12)); [done|]. exfalso.
  set (i := Z.log2 (Z.lxor a b)). assert (12 <= i) by (apply Z.log2_le_pow2; lia).
  assert (Hb1 : Z.testbit (Z.lxor a b) i = true) by (apply Z.bit_log2; lia).
  by rewrite Z.lxor_spec, !bits_high in Hb1.
Qed.

(** ** The buddy allocator hands out a block twice *)

Section DoubleAllocation.
Context (kend : Z) (kend_pos : 0 < kend).

Lemma page_high x : page kend x -> PGSIZE <= x.
Proof. intros [H1 H2]. unfold PGSIZE in *. dlia. Qed.

Lemma get_buddy_page x a i :
  page kend x -> 0 <= a < PGSIZE -> 0 <= i < 12 -> get_buddy (x + a) i = x + Z.lxor a (2 ^ i).
Proof.
  intros [Hx _] Ha Hi. unfold get_buddy. rewrite Z.shiftl_1_l. apply page_lxor; [done|done|].
  split; [by apply Z.pow_nonneg|]. unfold PGSIZE. change 4096 with (2 ^ 12). apply Z.pow_lt_mono_r; lia.
Qed.

Lemma get_buddy_high x a i : page kend x -> 0 <= a < PGSIZE -> 0 <= i < 12 -> PGSIZE <= get_buddy (x + a) i.
Proof.
  intros Hx Ha Hi. rewrite get_buddy_page by done. pose proof (page_high x Hx).
  assert (0 <= Z.lxor a (2 ^ i)); [|lia]. apply Z.lxor_nonneg. split; intros _; [by apply Z.pow_nonneg|lia].
Qed.

(** One allocation of 64 bytes: a fresh page when the lists from level 6 up are
    empty, else the head of the first list that is not. *)
Lemma alloc64_fresh s x xs :
  free_list kend (ka_pm s) (x :: xs) -> length (buddy_list s) = 12%nat ->
  (forall i, 6 <= i < 12 -> buddy_list s !! Z.to_nat i = Some 0) ->
  exists s', buddy_alloc 64 s = Ret (x, s') /\ buddy_list s' = split_lists 12 x 6 11 (buddy_list s).
Proof.
  intros Hf Hl He. unfold buddy_alloc. change (level_of_bytes 64) with 6. change (6 =? MAX_LEVEL) with false.
  change (Z.to_nat (MAX_LEVEL - 6)) with 6%nat. cbv iota.
  assert (Hx : page kend x) by (destruct Hf as [_ Hp _ _]; by apply Forall_cons in Hp as [? _]).
  assert (Ht : take_block 6 6 s = Ret (0, s)).
  { cbn [take_block]. do 6 (erewrite kbind_ret by (apply list_get_ok, He; lia); cbn [Z.eqb negb]). done. }
  erewrite kbind_ret by exact Ht. cbn [Z.eqb].
  destruct (kpmalloc_cons kend kend_pos (ka_pm s) x xs Hf) as (l & Hk & _ & _).
  erewrite kbind_ret by (apply via_ret; exact Hk). set (s1 := lput _ s).
  destruct (split_loop_ok 12 x 6 11 s1) as [m Hm]; [done|lia|lia| |].
  { intros j Hj. rewrite <- (Z.add_0_r x). apply get_buddy_high; [done|unfold PGSIZE; lia|lia]. }
  change (MAX_LEVEL - 1) with 11. erewrite kbind_ret by exact Hm.
  erewrite kbind_ret by (apply poke_ok, page_high, Hx). eexists. split; [reflexivity|]. done.
Qed.

Lemma alloc64_reuse s x a :
  page kend x -> 0 <= a < PGSIZE -> length (buddy_list s) = 12%nat ->
  buddy_list s !! 6%nat = Some 0 -> buddy_list s !! 7%nat = Some (x + a) ->
  exists s' v, buddy_alloc 64 s = Ret (x + a, s') /\
    buddy_list s' = split_lists 12 (x + a) 6 11 (<[7%nat := v]> (buddy_list s)).
Proof.
  intros Hx Ha Hl H6 H7. unfold buddy_alloc. change (level_of_bytes 64) with 6. change (6 =? MAX_LEVEL) with false.
  change (Z.to_nat (MAX_LEVEL - 6)) with 6%nat. cbv iota. pose proof (page_high x Hx) as Hhi.
  assert (Hne : x + a <> 0) by (unfold PGSIZE in *; lia).
  set (v := ld64 (ka_mem s) (x + a)). set (s1 := put_buddy (<[7%nat := v]> (buddy_list s)) s).
  assert (Ht : take_block 6 6 s = Ret (x + a, s1)).
  { cbn [take_block]. erewrite kbind_ret by (apply list_get_ok; exact H6). cbn [Z.eqb negb].
    erewrite kbind_ret by (apply list_get_ok; exact H7). rewrite (proj2 (Z.eqb_neq _ 0) Hne). cbn [negb].
    erewrite kbind_ret by (apply peek_ok; lia).
    erewrite kbind_ret by (apply (list_set_ok (6 + 1)); change (Z.to_nat (6 + 1)) with 7%nat; lia). done. }
  erewrite kbind_ret by exact Ht. rewrite (proj2 (Z.eqb_neq _ 0) Hne). krun.
  destruct (split_loop_ok 12 (x + a) 6 11 s1) as [m Hm].
  - unfold s1. cbn. by rewrite length_insert.
  - lia.
  - lia.
  - intros j Hj. apply get_buddy_high; [done|done|lia].
  - change (MAX_LEVEL - 1) with 11. erewrite kbind_ret by exact Hm.
    erewrite kbind_ret by (apply poke_ok; lia). eexists _, v. split; [reflexivity|]. done.
Qed.

Lemma split_levels b ls :
  length ls = 12%nat ->
  split_lists 12 b 6 11 ls !! 7%nat = Some (get_buddy b 7) /\ split_lists 12 b 6 11 ls !! 6%nat = ls !! 6%nat /\
  length (split_lists 12 b 6 11 ls) = 12%nat.
Proof. intros H. do 12 (destruct ls as [|? ls]; [done|]). destruct ls; [|done]. by cbv -[get_buddy]. Qed.

(** C40. The buddy allocator hands out a block twice. Three requests for 64
    bytes on an empty heap give a page, the block at offset 128 and then the
    page's first block again, which was never freed: when a block comes from a
    list, the loop that splits it still puts its buddies of every level up to
    the page on the lists, whether they are free or not. *)
Theorem buddy_double_allocation s x xs :
  free_list kend (ka_pm s) (x :: xs) -> buddy_list s = replicate 12 0 ->
  exists s', (a <- buddy_alloc 64 ;; b <- buddy_alloc 64 ;; c <- buddy_alloc 64 ;; kret [a; b; c]) s =
    Ret ([x; x + 128; x], s').
Proof.
  intros Hf Hb. assert (Hx : page kend x) by (destruct Hf as [_ Hp _ _]; by apply Forall_cons in Hp as [? _]).
  destruct (alloc64_fresh s x xs Hf) as (s1 & H1 & B1).
  { by rewrite Hb. }
  { intros i Hi. rewrite Hb. apply lookup_replicate. split; [done|lia]. }
  erewrite kbind_ret by exact H1. rewrite Hb in B1.
  destruct (split_levels x (replicate 12 0)) as (S7 & S6 & Sl); [done|]. rewrite <- B1 in S7, S6, Sl.
  rewrite <- (Z.add_0_r x), get_buddy_page in S7 by (done || lia || (unfold PGSIZE; lia)).
  change (Z.lxor 0 (2 ^ 7)) with 128 in S7.
  destruct (alloc64_reuse s1 x 128 Hx) as (s2 & v & H2 & B2); [unfold PGSIZE; lia|done|by rewrite S6|done|].
  erewrite kbind_ret by exact H2.
  destruct (split_levels (x + 128) (<[7%nat := v]> (buddy_list s1))) as (T7 & T6 & Tl); [by rewrite length_insert|].
  rewrite <- B2 in T7, T6, Tl. rewrite list_lookup_insert_ne, S6 in T6 by done.
  rewrite get_buddy_page in T7 by (done || lia || (unfold PGSIZE; lia)). change (Z.lxor 128 (2 ^ 7)) with 0 in T7.
  destruct (alloc64_reuse s2 x 0 Hx) as (s3 & v3 & H3 & _); [unfold PGSIZE; lia|done|by rewrite T6|by rewrite T7|].
  rewrite Z.add_0_r in H3. erewrite kbind_ret by exact H3. by eexists.
Qed.
End DoubleAllocation.

Definition demo_heap : kast := mkKa demo_pm (replicate 12 0) 0 0 0.

Lemma buddy_double_allocation_witness :
  exists s', (a <- buddy_alloc 64 ;; b <- buddy_alloc 64 ;; c <- buddy_alloc 64 ;; kret [a; b; c]) demo_heap =
    Ret ([demo_page1; demo_page1 + 128; demo_page1], s').
Proof.
  apply (buddy_double_allocation KERNBASE ltac:(done) demo_heap demo_page1 [demo_page2]); [apply demo_free|reflexivity].
Defined.

(** ** Slab pages

    A page of a slab holds blocks [list + j * size]; the 128 bits below [list]
    say which are taken. *)

Section SlabPage.
Context (kend : Z).

Definition slot (m : mem) (l j : Z) : bool :=
  if j <? 64 then Z.testbit (ld64 m (l - 16)) j else Z.testbit (ld64 m (l - 8)) (j - 64).

(** What the page's owner relies on: the slots past the blocks are never
    handed out, and the page is not the first one. *)
Record slab_page (num l : Z) (m : mem) : Prop := {
  sp_high : PGSIZE + 24 <= l;
  sp_num : 0 < num <= 128;
  sp_pad j : num <= j < 128 -> slot m l j = true
}.

Definition least_slot (m : mem) (l num j : Z) : Prop :=
  0 <= j < num /\ slot m l j = false /\ forall i, 0 <= i < j -> slot m l i = true.

Lemma shift_test num pos : 0 <= pos -> (Z.land num (Z.shiftl 1 pos) =? 0) = negb (Z.testbit num pos).
Proof.
  intros Hp. rewrite Z.shiftl_1_l. destruct (Z.testbit num pos) eqn:Ht; cbn [negb].
  - apply Z.eqb_neq. intros H0. assert (Hf : Z.testbit (Z.land num (2 ^ pos)) pos = false) by by rewrite H0, Z.bits_0.
    by rewrite Z.land_spec, Ht, Z.pow2_bits_true in Hf.
  - apply Z.eqb_eq, Z.bits_inj'. intros i Hi. rewrite Z.land_spec, Z.bits_0.
    destruct (decide (i = pos)) as [->|Hne]; [by rewrite Ht|]. by rewrite Z.pow2_bits_false, andb_false_r.
Qed.

Lemma zero_bit_loop_spec n : forall num pos, 0 <= pos ->
  (zero_bit_loop n num pos = -1 /\ forall i, pos <= i < pos + Z.of_nat n -> Z.testbit num i = true) \/
  (pos <= zero_bit_loop n num pos < pos + Z.of_nat n /\ Z.testbit num (zero_bit_loop n num pos) = false /\
   forall i, pos <= i < zero_bit_loop n num pos -> Z.testbit num i = true).
Proof.
  induction n as [|n IH]; intros num pos Hp; cbn [zero_bit_loop]; [left; split; [done|lia]|].
  rewrite shift_test by done. destruct (Z.testbit num pos) eqn:Ht; cbn [negb].
  - destruct (IH num (pos + 1)) as [[E H]|(E & H1 & H2)]; [lia| |].
    + left. split; [done|]. intros i Hi. destruct (decide (i = pos)) as [->|]; [done|apply H; lia].
    + right. split; [lia|]. split; [done|]. intros i Hi. destruct (decide (i = pos)) as [->|]; [done|apply H2; lia].
  - right. split; [lia|]. split; [done|lia].
Qed.

Lemma all_ones_bits v : 0 <= v < 2 ^ 64 -> (forall i, 0 <= i < 64 -> Z.testbit v i = true) -> v = all_ones.
Proof.
  intros Hv H. change all_ones with (Z.ones 64). apply Z.bits_inj'. intros i Hi. rewrite Z.testbit_ones_nonneg by lia.
  destruct (Z.ltb_spec i 64); [by apply H|]. rewrite <- (Z.mod_small v (2 ^ 64)) by done. by apply Z.mod_pow2_bits_high.
Qed.
Lemma ones_bit i : 0 <= i < 64 -> Z.testbit all_ones i = true.
Proof. intros Hi. change all_ones with (Z.ones 64). rewrite Z.testbit_ones_nonneg by lia. apply Z.ltb_lt. lia. Qed.

Lemma lowest_zero v : 0 <= v < 2 ^ 64 -> v <> all_ones ->
  exists j, u32 (find_lowest_zero_bit v 64) = j /\ 0 <= j < 64 /\ Z.testbit v j = false /\
    forall i, 0 <= i < j -> Z.testbit v i = true.
Proof.
  intros Hv Hne. unfold find_lowest_zero_bit. change (Z.to_nat 64) with 64%nat.
  destruct (zero_bit_loop_spec 64 v 0) as [[E H]|(E & H1 & H2)]; [done| |].
  - exfalso. by apply Hne, all_ones_bits.
  - eexists. split; [reflexivity|]. rewrite u32_small by lia. auto with lia.
Qed.

Lemma bit_set v j i : 0 <= j < 64 -> 0 <= i < 64 -> 0 <= v < 2 ^ 64 ->
  Z.testbit (u64 (Z.lor v (u64 (Z.shiftl 1 j)))) i = (i =? j) || Z.testbit v i.
Proof.
  intros Hj Hi Hv. unfold u64, wrap. rewrite Z.mod_pow2_bits_low, Z.lor_spec, Z.mod_pow2_bits_low by lia.
  rewrite Z.shiftl_1_l, orb_comm. f_equal. destruct (Z.eqb_spec i j) as [->|]; [by apply Z.pow2_bits_true; lia|].
  apply Z.pow2_bits_false. lia.
Qed.
Lemma bit_clear v j i : 0 <= j < 64 -> 0 <= i < 64 ->
  Z.testbit (u64 (Z.land v (u64 (Z.lnot (u64 (Z.shiftl 1 j)))))) i = negb (i =? j) && Z.testbit v i.
Proof.
  intros Hj Hi. unfold u64, wrap. rewrite Z.mod_pow2_bits_low, Z.land_spec, Z.mod_pow2_bits_low, Z.lnot_spec, Z.mod_pow2_bits_low by lia.
  rewrite Z.shiftl_1_l, andb_comm. f_equal. f_equal. destruct (Z.eqb_spec i j) as [->|]; [by apply Z.pow2_bits_true; lia|].
  apply Z.pow2_bits_false. lia.
Qed.

Definition outside (a n : Z) (m m' : mem) : Prop := forall x, x < a \/ a + n <= x -> ld8 m' x = ld8 m x.

Lemma outside_st64 a m v : outside a 8 m (st64 m a v).
Proof. intros x Hx. Transparent st64. apply ld8_stn_other. cbn. lia. Qed.
#[global] Opaque st64.

(** [find_match_space] takes the first free slot. *)
Lemma find_match_space_ok num l size s :
  slab_page num l (ka_mem s) ->
  (find_match_space l size s = Ret (0, s) /\ (forall j, 0 <= j < num -> slot (ka_mem s) l j = true)) \/
  (exists j m', find_match_space l size s = Ret (l + j * size, put_ka_mem m' s) /\ least_slot (ka_mem s) l num j /\
     (forall i, 0 <= i < 128 -> slot m' l i = (i =? j) || slot (ka_mem s) l i) /\ outside (l - 16) 16 (ka_mem s) m').
Proof.
  intros [Hh Hn Hp]. unfold find_match_space, HDRP, ALIGN, PGSIZE in *.
  replace (l - 8 - 8) with (l - 16) by lia. set (m := ka_mem s) in *.
  erewrite kbind_ret by (apply peek_ok; unfold PGSIZE; lia). erewrite kbind_ret by (apply peek_ok; unfold PGSIZE; lia).
  fold m. pose proof (ld64_range m (l - 16)) as Hv. pose proof (ld64_range m (l - 8)) as Hw.
  destruct (Z.eqb_spec (ld64 m (l - 16)) all_ones) as [E1|E1].
  - destruct (Z.eqb_spec (ld64 m (l - 8)) all_ones) as [E2|E2].
    + left. split; [done|]. intros j Hj. unfold slot. rewrite E1, E2.
      destruct (Z.ltb_spec j 64); apply ones_bit; lia.
    + right. destruct (lowest_zero _ Hw E2) as (j & Ej & Hj & Hf & Hl). rewrite Ej.
      erewrite kbind_ret by (apply poke_ok; unfold PGSIZE; lia).
      erewrite kbind_ret by (apply poke_ok; unfold PGSIZE; lia). rewrite (u32_small (j + 64)) by lia.
      exists (j + 64). eexists. split; [reflexivity|].
      assert (Hs : slot m l (j + 64) = false).
      { unfold slot. rewrite (proj2 (Z.ltb_ge _ _)) by lia. by replace (j + 64 - 64) with j by lia. }
      split; [split; [|split; [done|]]|split].
      * destruct (Z.ltb_spec (j + 64) num); [lia|]. by rewrite Hp in Hs by lia.
      * intros i Hi. unfold slot. destruct (Z.ltb_spec i 64); [rewrite E1; apply ones_bit; lia|apply Hl; lia].
      * intros i Hi. unfold slot. change (ka_mem (put_ka_mem ?x _)) with x. fold m.
        rewrite ld64_st64_eq, ld64_st64_other, ld64_st64_eq by lia. destruct (Z.ltb_spec i 64).
        -- unfold u64, wrap. rewrite Z.mod_small by done. rewrite E1, ones_bit by lia. by rewrite orb_true_r.
        -- rewrite bit_set by lia. f_equal. destruct (Z.eqb_spec (i - 64) j), (Z.eqb_spec i (j + 64)); auto; lia.
      * intros x Hx. change (ka_mem (put_ka_mem ?y _)) with y. rewrite !outside_st64 by lia. done.
  - right. destruct (lowest_zero _ Hv E1) as (j & Ej & Hj & Hf & Hl). rewrite Ej.
    erewrite kbind_ret by (apply poke_ok; unfold PGSIZE; lia).
    erewrite kbind_ret by (apply poke_ok; unfold PGSIZE; lia).
    exists j. eexists. split; [reflexivity|].
    assert (Hs : slot m l j = false) by (unfold slot; by rewrite (proj2 (Z.ltb_lt _ _)) by lia).
    split; [split; [|split; [done|]]|split].
    * destruct (Z.ltb_spec j num); [lia|]. by rewrite Hp in Hs by lia.
    * intros i Hi. unfold slot. rewrite (proj2 (Z.ltb_lt _ _)) by lia. apply Hl. lia.
    * intros i Hi. unfold slot. change (ka_mem (put_ka_mem ?x _)) with x. fold m.
      rewrite ld64_st64_eq, ld64_st64_other, ld64_st64_eq by lia. destruct (Z.ltb_spec i 64).
      -- by rewrite bit_set by lia.
      -- unfold u64, wrap. rewrite Z.mod_small by done. by rewrite (proj2 (Z.eqb_neq i j)) by lia.
    * intros x Hx. change (ka_mem (put_ka_mem ?y _)) with y. rewrite !outside_st64 by lia. done.
Qed.

Lemma slab_num_bounds k : 0 < slab_size k /\ 0 < slab_num k <= 128 /\ slab_num k * slab_size k <= PAGE_ALLOC_SIZE.
Proof. by destruct k. Qed.

Lemma slot_mem m m' l i : (forall x, l - 16 <= x < l -> ld8 m' x = ld8 m x) -> slot m' l i = slot m l i.
Proof. intros H. unfold slot. rewrite !(ld64_ext m' m) by (intros x Hx; apply H; lia). done. Qed.

(** Clearing one bit of the bitmap. *)
Definition clear_slot (m : mem) (l j : Z) : mem :=
  if 64 <=? j then st64 m (l - 8) (Z.land (ld64 m (l - 8)) (u64 (Z.lnot (u64 (Z.shiftl 1 (j - 64))))))
  else st64 m (l - 16) (Z.land (ld64 m (l - 16)) (u64 (Z.lnot (u64 (Z.shiftl 1 j))))).

Lemma clear_slot_ok m l j : 0 <= j < 128 ->
  (forall i, 0 <= i < 128 -> slot (clear_slot m l j) l i = negb (i =? j) && slot m l i) /\
  outside (l - 16) 16 m (clear_slot m l j).
Proof.
  intros Hj. unfold clear_slot, slot. destruct (Z.leb_spec 64 j); split.
  - intros i Hi. rewrite ld64_st64_eq, ld64_st64_other by lia. destruct (Z.ltb_spec i 64).
    + by rewrite (proj2 (Z.eqb_neq i j)) by lia.
    + rewrite bit_clear by lia. do 2 f_equal. destruct (Z.eqb_spec (i - 64) (j - 64)), (Z.eqb_spec i j); auto; lia.
  - intros x Hx. by rewrite outside_st64 by lia.
  - intros i Hi. rewrite ld64_st64_eq, ld64_st64_other by lia. destruct (Z.ltb_spec i 64).
    + by rewrite bit_clear by lia.
    + by rewrite (proj2 (Z.eqb_neq i j)) by lia.
  - intros x Hx. by rewrite outside_st64 by lia.
Qed.

Lemma slab_free_ok fuel k s j :
  let l := slab_list k s in let bp := l + j * slab_size k in
  slab_page (slab_num k) l (ka_mem s) -> 0 <= j < slab_num k ->
  slab_free kend (S fuel) k bp s = Ret (tt, put_ka_mem (clear_slot (memset (ka_mem s) bp 0xc (slab_size k)) l j) s).
Proof.
  intros l bp [Hh Hn Hp] Hj. destruct (slab_num_bounds k) as (Hs & _ & Hk).
  change PAGE_ALLOC_SIZE with 4064 in Hk. unfold PGSIZE in Hh.
  assert (Hjs : 0 <= j * slab_size k /\ j * slab_size k + slab_size k <= 4064) by nia.
  unfold slab_free, HDRP, ALIGN. krun. fold l.
  erewrite kbind_ret by (unfold kfill; rewrite (proj2 (Z.ltb_ge bp PGSIZE)) by (unfold PGSIZE; lia); reflexivity).
  set (s1 := put_ka_mem _ s). set (m1 := memset (ka_mem s) bp 12 (slab_size k)).
  assert (Hg : get_block_index_helper (S fuel) bp l (slab_size k) s1 = Ret ((l, j), s1)).
  { cbn [get_block_index_helper]. rewrite (proj2 (Z.leb_le l bp)), (proj2 (Z.ltb_lt bp _)) by (change PAGE_ALLOC_SIZE with 4064; lia).
    cbn [andb]. unfold kret. do 3 f_equal. unfold bp. rewrite u32_small by lia.
    replace (l + j * slab_size k - l) with (j * slab_size k) by lia. apply Z.div_mul. lia. }
  erewrite kbind_ret by exact Hg. cbv beta iota. replace (l - 8 - 8) with (l - 16) by lia.
  replace (l - 16 - 8) with (l - 24) by lia.
  set (s2 := put_ka_mem (clear_slot m1 l j) s).
  assert (Hc : (if 64 <=? j then
     val <- peek ld64 (l - 8) ;; poke st64 (l - 8) (Z.land val (u64 (Z.lnot (u64 (Z.shiftl 1 (j - 64))))))
   else val <- peek ld64 (l - 16) ;; poke st64 (l - 16) (Z.land val (u64 (Z.lnot (u64 (Z.shiftl 1 j)))))) s1 = Ret (tt, s2)).
  { unfold s2, clear_slot. destruct (64 <=? j).
    - erewrite kbind_ret by (apply peek_ok; unfold PGSIZE; lia). rewrite poke_ok by (unfold PGSIZE; lia). done.
    - erewrite kbind_ret by (apply peek_ok; unfold PGSIZE; lia). rewrite poke_ok by (unfold PGSIZE; lia). done. }
  erewrite kbind_ret by exact Hc.
  do 4 (erewrite kbind_ret by (apply peek_ok; unfold PGSIZE; change PAGE_ALLOC_SIZE with 4064; lia)).
  destruct (clear_slot_ok m1 l j) as [Hclr _]; [lia|].
  replace ((ld64 (ka_mem s2) (l - 16) =? all_ones) && (ld64 (ka_mem s2) (l - 8) =? all_ones)) with false; [done|].
  specialize (Hclr j). rewrite Z.eqb_refl in Hclr. change (ka_mem s2) with (clear_slot m1 l j).
  symmetry. apply andb_false_iff. unfold slot in Hclr.
  destruct (Z.ltb_spec j 64); [left|right]; apply Z.eqb_neq; intros E; rewrite E in Hclr;
    rewrite ones_bit in Hclr by lia; by specialize (Hclr ltac:(lia)).
Qed.

(** C33. The slab allocator keeps a set. [kalloc] in a slab's mode takes the
    least free slot of the current page, gives the address of that slot's
    block, which lies inside the page and below its link, marks the slot and
    nothing else, and leaves the page well formed; [kfree] of that block, from
    any later state in which the page is still the current one and well formed,
    whatever was allocated and freed in between, marks the slot free and no
    other, writes only the block and the bitmap, leaves the page well formed,
    and never gives it back. *)
Theorem slab_keeps_set mode k size s :
  slab_of_mode mode = Some k -> slab_page (slab_num k) (slab_list k s) (ka_mem s) ->
  (exists j, 0 <= j < slab_num k /\ slot (ka_mem s) (slab_list k s) j = false) ->
  let l := slab_list k s in
  exists j bp m', kalloc size mode s = Ret (bp, put_ka_mem m' s) /\ least_slot (ka_mem s) l (slab_num k) j /\
    bp = l + j * slab_size k /\ bp + slab_size k <= l + PAGE_ALLOC_SIZE /\ outside (l - 16) 16 (ka_mem s) m' /\
    (forall i, 0 <= i < 128 -> slot m' l i = (i =? j) || slot (ka_mem s) l i) /\ slab_page (slab_num k) l m' /\
    forall fuel s1, slab_list k s1 = l -> slab_page (slab_num k) l (ka_mem s1) ->
      exists m2, kfree kend (S fuel) bp mode s1 = Ret (tt, put_ka_mem m2 s1) /\
        (forall i, 0 <= i < 128 -> slot m2 l i = negb (i =? j) && slot (ka_mem s1) l i) /\ slab_page (slab_num k) l m2 /\
        (forall x, ~ (l - 16 <= x < l) -> ~ (bp <= x < bp + slab_size k) -> ld8 m2 x = ld8 (ka_mem s1) x).
Proof.
  intros Hm Hsp (j0 & Hj0 & Hf0) l. pose proof (slab_num_bounds k) as (Hsz & Hnum & Hfit).
  destruct (find_match_space_ok (slab_num k) l (slab_size k) s Hsp) as [[_ H]|(j & m' & Hr & Hl & Hb & Ho)].
  { specialize (H j0 Hj0). fold l in Hf0. congruence. }
  destruct Hsp as [Hh Hn Hp]. pose proof Hl as (Hj & Hjf & _). change PAGE_ALLOC_SIZE with 4064 in *. unfold PGSIZE in *.
  assert (Hjs : 0 <= j * slab_size k /\ j * slab_size k + slab_size k <= 4064) by nia.
  exists j, (l + j * slab_size k), m'. split; [|split; [exact Hl|split; [done|split; [lia|split; [exact Ho|split; [exact Hb|split]]]]]].
  - unfold kalloc. rewrite Hm. unfold slab_alloc. krun. fold l. erewrite kbind_ret by exact Hr.
    by rewrite (proj2 (Z.eqb_neq _ 0)) by lia.
  - split; [exact Hh|exact Hn|]. intros i Hi. rewrite Hb, Hp by lia. apply orb_true_r.
  - intros fuel s1 Hls Hsp1. set (bp := l + j * slab_size k).
    assert (Hfr : kfree kend (S fuel) bp mode s1 =
      Ret (tt, put_ka_mem (clear_slot (memset (ka_mem s1) bp 0xc (slab_size k)) l j) s1)).
    { unfold kfree. rewrite (proj2 (Z.eqb_neq bp 0)) by lia. rewrite Hm. unfold bp. rewrite <- Hls.
      apply slab_free_ok; [by rewrite Hls|done]. }
    destruct (clear_slot_ok (memset (ka_mem s1) bp 0xc (slab_size k)) l j) as [Hc Hco]; [lia|].
    assert (Hslot : forall i, 0 <= i < 128 -> slot (clear_slot (memset (ka_mem s1) bp 0xc (slab_size k)) l j) l i = negb (i =? j) && slot (ka_mem s1) l i).
    { intros i Hi. rewrite Hc, (slot_mem (ka_mem s1)) by (done || intros; apply memset_out; lia). by destruct (i =? j). }
    eexists. split; [exact Hfr|split; [exact Hslot|split]].
    + destruct Hsp1 as [Hh1 Hn1 Hp1]. split; [exact Hh1|exact Hn1|]. intros i Hi. rewrite Hslot, Hp1, (proj2 (Z.eqb_neq _ _)) by lia. done.
    + intros x H1 H2. rewrite Hco, memset_out by lia. done.
Qed.
End SlabPage.

(** A fresh page of open files: the bitmap says all slots are free but those
    past the blocks. *)
Definition demo_slab : kast :=
  let m := st64 (st64 (ka_mem demo_heap) (demo_page1 + 8) 0) (demo_page1 + 16) all_ones in
  set_slab_list File (demo_page1 + 24) (put_ka_mem m demo_heap).

Lemma slab_keeps_set_witness :
  exists j bp m' m2, kalloc 56 FILE_MODE demo_slab = Ret (bp, put_ka_mem m' demo_slab) /\
    least_slot (ka_mem demo_slab) (demo_page1 + 24) FILE_BLOCK_SIZE j /\
    kfree KERNBASE 2 bp FILE_MODE (put_ka_mem m' demo_slab) = Ret (tt, put_ka_mem m2 (put_ka_mem m' demo_slab)).
Proof.
  destruct (slab_keeps_set KERNBASE FILE_MODE File 56 demo_slab) as (j & bp & m' & H1 & H2 & _ & _ & _ & _ & H3 & H4).
  - reflexivity.
  - split; [done|done|]. intros j Hj. unfold slot. change (slab_num File) with 72 in Hj. rewrite (proj2 (Z.ltb_ge _ _)) by lia.
    change (ka_mem demo_slab) with (st64 (st64 (ka_mem demo_heap) (demo_page1 + 8) 0) (demo_page1 + 16) all_ones).
    change (slab_list File demo_slab - 8) with (demo_page1 + 16). rewrite ld64_st64_eq. apply ones_bit. lia.
  - exists 0. split; [done|]. unfold slot. change (0 <? 64) with true. cbv iota.
    change (ka_mem demo_slab) with (st64 (st64 (ka_mem demo_heap) (demo_page1 + 8) 0) (demo_page1 + 16) all_ones).
    change (slab_list File demo_slab - 16) with (demo_page1 + 8). by rewrite ld64_st64_other, ld64_st64_eq by lia.
  - destruct (H4 1%nat (put_ka_mem m' demo_slab) eq_refl H3) as (m2 & H5 & _). exists j, bp, m', m2. exact (conj H1 (conj H2 H5)).
Defined.
