(* ===== verification/Proc.v ===== *)
(** Processes: the data of src/include/proc.h, the state of the process
    subsystem, and [sched] of src/kernel/proc.c.

    A [struct proc] is a record, found by its address; the two list elements
    and the two lists inside it live in the heap of list elements at their
    offsets, its spin lock among the locks. The addresses of the static
    variables [process_list] and [run_queue] are parameters. *)
From S2P Require Import Prelude Spinlock DList Pm Ids.

(** ** Data *)

Inductive process_state : Type := ZIMBIE | INITIAL | RUNNABLE | BLOCK | RUNNING | SLEEPING.
#[global] Instance process_state_eq_dec : EqDecision process_state.
Proof. solve_decision. Defined.

Inductive process_priority : Type := FIRST | SECOND | THIRD.

(** The callee-saved registers kept across [swtch]. *)
Record context : Type := mkContext {
  c_ra : Z; c_sp : Z;
  c_s0 : Z; c_s1 : Z; c_s2 : Z; c_s3 : Z; c_s4 : Z; c_s5 : Z;
  c_s6 : Z; c_s7 : Z; c_s8 : Z; c_s9 : Z; c_s10 : Z; c_s11 : Z
}.
Definition zero_context (ra sp : Z) : context := mkContext ra sp 0 0 0 0 0 0 0 0 0 0 0 0.

(** The fields of [struct trapframe], in order; each is eight bytes of the
    page the process's [trapframe] points to. *)
Inductive tf_reg : Type :=
| kernel_satp | kernel_sp | kernel_trap | epc | kernel_hartid
| tf_ra | tf_sp | tf_gp | tf_tp | tf_t0 | tf_t1 | tf_t2 | tf_s0 | tf_s1
| tf_a0 | tf_a1 | tf_a2 | tf_a3 | tf_a4 | tf_a5 | tf_a6 | tf_a7
| tf_s2 | tf_s3 | tf_s4 | tf_s5 | tf_s6 | tf_s7 | tf_s8 | tf_s9 | tf_s10 | tf_s11
| tf_t3 | tf_t4 | tf_t5 | tf_t6.

Definition tf_all : list tf_reg :=
  [kernel_satp; kernel_sp; kernel_trap; epc; kernel_hartid;
   tf_ra; tf_sp; tf_gp; tf_tp; tf_t0; tf_t1; tf_t2; tf_s0; tf_s1;
   tf_a0; tf_a1; tf_a2; tf_a3; tf_a4; tf_a5; tf_a6; tf_a7;
   tf_s2; tf_s3; tf_s4; tf_s5; tf_s6; tf_s7; tf_s8; tf_s9; tf_s10; tf_s11;
   tf_t3; tf_t4; tf_t5; tf_t6].

Definition tf_off (r : tf_reg) : Z :=
  match r with
  | kernel_satp => 0 | kernel_sp => 8 | kernel_trap => 16 | epc => 24 | kernel_hartid => 32
  | tf_ra => 40 | tf_sp => 48 | tf_gp => 56 | tf_tp => 64 | tf_t0 => 72 | tf_t1 => 80
  | tf_t2 => 88 | tf_s0 => 96 | tf_s1 => 104 | tf_a0 => 112 | tf_a1 => 120 | tf_a2 => 128
  | tf_a3 => 136 | tf_a4 => 144 | tf_a5 => 152 | tf_a6 => 160 | tf_a7 => 168 | tf_s2 => 176
  | tf_s3 => 184 | tf_s4 => 192 | tf_s5 => 200 | tf_s6 => 208 | tf_s7 => 216 | tf_s8 => 224
  | tf_s9 => 232 | tf_s10 => 240 | tf_s11 => 248 | tf_t3 => 256 | tf_t4 => 264 | tf_t5 => 272
  | tf_t6 => 280
  end.
Definition TRAPFRAME_SIZE : Z := 288.

Record proc : Type := mkProc {
  status : process_state;
  pid : Z;
  kstack : Z;
  trapframe : addr;
  in_run_queue : bool;
  priority : process_priority;
  parent : addr;
  vruntime : Z;
  pagetable : addr;
  ctx : context;
  chan : addr;
  cwd : addr;
  heap_start : Z;
  heap_end : Z;
  exit_state : Z;
  name : list Z
}.

(** Offsets of the embedded lists and list elements, and the inverse that
    [list_entry] computes. *)
Definition child_list_of (p : addr) : addr := p + 48.
Definition file_list_of (p : addr) : addr := p + 80.
Definition elem_at (p : addr) : addr := p + 112.
Definition sched_elem_at (p : addr) : addr := p + 128.
Definition proc_of_elem (e : addr) : addr := e - 112.
Definition proc_of_sched_elem (e : addr) : addr := e - 128.
Definition SIZEOF_PROC : Z := 392.

Definition set_status (x : process_state) (p : proc) : proc :=
  let 'mkProc _ a b c d e f g h i j k l m n o := p in mkProc x a b c d e f g h i j k l m n o.
Definition set_pid (x : Z) (p : proc) : proc :=
  let 'mkProc a _ b c d e f g h i j k l m n o := p in mkProc a x b c d e f g h i j k l m n o.
Definition set_kstack (x : Z) (p : proc) : proc :=
  let 'mkProc a b _ c d e f g h i j k l m n o := p in mkProc a b x c d e f g h i j k l m n o.
Definition set_trapframe (x : addr) (p : proc) : proc :=
  let 'mkProc a b c _ d e f g h i j k l m n o := p in mkProc a b c x d e f g h i j k l m n o.
Definition set_in_run_queue (x : bool) (p : proc) : proc :=
  let 'mkProc a b c d _ e f g h i j k l m n o := p in mkProc a b c d x e f g h i j k l m n o.
Definition set_priority (x : process_priority) (p : proc) : proc :=
  let 'mkProc a b c d e _ f g h i j k l m n o := p in mkProc a b c d e x f g h i j k l m n o.
Definition set_parent (x : addr) (p : proc) : proc :=
  let 'mkProc a b c d e f _ g h i j k l m n o := p in mkProc a b c d e f x g h i j k l m n o.
Definition set_vruntime (x : Z) (p : proc) : proc :=
  let 'mkProc a b c d e f g _ h i j k l m n o := p in mkProc a b c d e f g x h i j k l m n o.
Definition set_pagetable (x : addr) (p : proc) : proc :=
  let 'mkProc a b c d e f g h _ i j k l m n o := p in mkProc a b c d e f g h x i j k l m n o.
Definition set_ctx (x : context) (p : proc) : proc :=
  let 'mkProc a b c d e f g h i _ j k l m n o := p in mkProc a b c d e f g h i x j k l m n o.
Definition set_chan (x : addr) (p : proc) : proc :=
  let 'mkProc a b c d e f g h i j _ k l m n o := p in mkProc a b c d e f g h i j x k l m n o.
Definition set_cwd (x : addr) (p : proc) : proc :=
  let 'mkProc a b c d e f g h i j k _ l m n o := p in mkProc a b c d e f g h i j k x l m n o.
Definition set_heap_start (x : Z) (p : proc) : proc :=
  let 'mkProc a b c d e f g h i j k l _ m n o := p in mkProc a b c d e f g h i j k l x m n o.
Definition set_heap_end (x : Z) (p : proc) : proc :=
  let 'mkProc a b c d e f g h i j k l m _ n o := p in mkProc a b c d e f g h i j k l m x n o.
Definition set_exit_state (x : Z) (p : proc) : proc :=
  let 'mkProc a b c d e f g h i j k l m n _ o := p in mkProc a b c d e f g h i j k l m n x o.
Definition set_name (x : list Z) (p : proc) : proc :=
  let 'mkProc a b c d e f g h i j k l m n o _ := p in mkProc a b c d e f g h i j k l m n o x.

(** ** State

    [ps_cur] is the [proc] field of the hart's [struct cpu]; its lock fields
    are in the lock state. *)
Record psys : Type := mkPs {
  ps_pm : pmst;
  ps_pids : list Z;
  ps_links : store;
  ps_procs : gmap addr proc;
  ps_cur : addr;
  min_vruntime : Z
}.

Definition ps_lk (s : psys) : lockst := pm_lk (ps_pm s).

Definition put_pm (x : pmst) (s : psys) : psys :=
  mkPs x (ps_pids s) (ps_links s) (ps_procs s) (ps_cur s) (min_vruntime s).
Definition put_lk (x : lockst) (s : psys) : psys := put_pm (set_lk x (ps_pm s)) s.
Definition put_pids (x : bmst) (s : psys) : psys :=
  mkPs (set_lk (bm_lk x) (ps_pm s)) (bits x) (ps_links s) (ps_procs s) (ps_cur s) (min_vruntime s).
Definition put_links (x : store) (s : psys) : psys :=
  mkPs (ps_pm s) (ps_pids s) x (ps_procs s) (ps_cur s) (min_vruntime s).
Definition put_procs (x : gmap addr proc) (s : psys) : psys :=
  mkPs (ps_pm s) (ps_pids s) (ps_links s) x (ps_cur s) (min_vruntime s).
Definition put_cur (x : addr) (s : psys) : psys :=
  mkPs (ps_pm s) (ps_pids s) (ps_links s) (ps_procs s) x (min_vruntime s).
Definition put_min (x : Z) (s : psys) : psys :=
  mkPs (ps_pm s) (ps_pids s) (ps_links s) (ps_procs s) (ps_cur s) x.

(** The operations of the components below, in this state. *)
Definition lock_op {A} (m : K lockst A) : K psys A := zoom ps_lk put_lk m.
Definition pm_op {A} (m : K pmst A) : K psys A := zoom ps_pm put_pm m.
Definition pid_op {A} (m : K bmst A) : K psys A :=
  zoom (fun s => mkBm (ps_lk s) (ps_pids s)) put_pids m.
Definition list_op {A} (m : K store A) : K psys A := zoom ps_links put_links m.

(** [p->f] and [p->f = v]; no process at that address is a [Fault]. *)
Definition getp {A} (f : proc -> A) (p : addr) : K psys A := fun s =>
  match ps_procs s !! p with Some x => Ret (f x, s) | None => Fault end.
Definition setp (f : proc -> proc) (p : addr) : K psys unit := fun s =>
  match ps_procs s !! p with
  | Some x => Ret (tt, put_procs (<[p := f x]> (ps_procs s)) s)
  | None => Fault
  end.

Definition cur_proc : K psys addr := kget ps_cur.
Definition getpid : K psys Z := p <- cur_proc ;; getp pid p.

(** ** Handing the hart over

    [swtch] is assembly that stores the callee-saved registers and loads those
    of the other thread of control. To the code that calls it, it is whatever
    the rest of the system does until this thread is resumed: a parameter. *)
Definition sched_enter : K psys bool :=
  p <- cur_proc ;;
  h <- lock_op (holding (proc_lock p)) ;;
  kwhen (negb h) (kpanic "sched p->lock") ;;
  n <- lock_op (kget (fun l => noff (hcpu l))) ;;
  kwhen (negb (n =? 1)) (kpanic "sched locks") ;;
  st <- getp status p ;;
  kwhen (bool_decide (st = RUNNING)) (kpanic "sched running") ;;
  i <- lock_op intr_get ;;
  kwhen i (kpanic "sched interruptible") ;;
  lock_op (kget (fun l => intena (hcpu l))).
Definition sched_leave (ie : bool) : K psys unit := lock_op (kmod (on_cpu (set_intena ie))).

(** [S] is the state of everything the other threads can change. *)
Definition sched {S} `{Lens S psys} (swtch : K S unit) : K S unit :=
  ie <- via sched_enter ;; swtch ;; via (sched_leave ie).


(** ** Lemmas *)

Lemma tf_off_index r i : tf_all !! i = Some r -> tf_off r = 8 * Z.of_nat i.
Proof.
  unfold tf_all. do 36 (destruct i as [|i]; [intros [= <-]; reflexivity|]). done.
Qed.

Lemma tf_off_bounds r : 0 <= tf_off r /\ tf_off r + 8 <= TRAPFRAME_SIZE.
Proof. by destruct r. Qed.

Lemma tf_off_disjoint r1 r2 : r1 <> r2 -> tf_off r1 + 8 <= tf_off r2 \/ tf_off r2 + 8 <= tf_off r1.
Proof. intros H. destruct r1, r2; try done; simpl; lia. Qed.

Lemma proc_of_elem_at p : proc_of_elem (elem_at p) = p.
Proof. unfold proc_of_elem, elem_at. lia. Qed.
Lemma proc_of_sched_elem_at p : proc_of_sched_elem (sched_elem_at p) = p.
Proof. unfold proc_of_sched_elem, sched_elem_at. lia. Qed.

Lemma getp_ok {A} (f : proc -> A) p s x : ps_procs s !! p = Some x -> getp f p s = Ret (f x, s).
Proof. intros H. unfold getp. by rewrite H. Qed.
Lemma setp_ok f p s x :
  ps_procs s !! p = Some x -> setp f p s = Ret (tt, put_procs (<[p := f x]> (ps_procs s)) s).
Proof. intros H. unfold setp. by rewrite H. Qed.

Lemma lock_op_ok {A} (m : K lockst A) s a l : m (ps_lk s) = Ret (a, l) -> lock_op m s = Ret (a, put_lk l s).
Proof. apply zoom_ret. Qed.
Lemma list_op_ok {A} (m : K store A) s a l : m (ps_links s) = Ret (a, l) -> list_op m s = Ret (a, put_links l s).
Proof. apply zoom_ret. Qed.
Lemma list_read_ok {A} (m : K store A) s a : m (ps_links s) = Ret (a, ps_links s) -> list_op m s = Ret (a, s).
Proof. intros H. erewrite list_op_ok by exact H. by destruct s. Qed.

(** Entering and leaving a critical section. *)
Lemma lock_enter lk s :
  lock_free lk (ps_lk s) ->
  exists l, lock_op (acquire lk) s = Ret (tt, put_lk l s) /\ l ≡ acquired lk (ps_lk s).
Proof.
  intros Hf. destruct (acquire_free lk _ Hf) as (l & Hl & E). exists l. split; [|done].
  by apply lock_op_ok.
Qed.

Lemma lock_leave lk l0 s :
  lock_free lk l0 -> cpu_ok (hcpu l0) -> ps_lk s ≡ acquired lk l0 ->
  exists l, lock_op (release lk) s = Ret (tt, put_lk l s) /\ lk_restored l0 l.
Proof.
  intros Hf Hc E. destruct (acquired_released lk l0 _ Hf Hc E) as (l & Hl & R).
  exists l. split; [|done]. by apply lock_op_ok.
Qed.

(** The same when the section left the locks as it found them. *)
Lemma lock_leave_restored lk l0 l s :
  lock_free lk l0 -> cpu_ok (hcpu l0) -> l ≡ acquired lk l0 -> lk_restored l (ps_lk s) ->
  exists l', lock_op (release lk) s = Ret (tt, put_lk l' s) /\ lk_restored l0 l'.
Proof.
  intros Hf Hc (E1 & E2 & E3) (R1 & R2 & R3 & R4 & R5). apply lock_leave; [exact Hf|exact Hc|].
  assert (Hn : 0 < noff (hcpu l)) by (rewrite E2; cbn; destruct Hc; lia).
  split; [congruence|]. split; [|intros x; by rewrite R5].
  rewrite <- E2. destruct (hcpu (ps_lk s)), (hcpu l). cbn in *. f_equal; [done|by apply R4|done].
Qed.
(** What holds inside a critical section of [lk]. *)
Lemma acquired_ready lk l0 l : cpu_ok (hcpu l0) -> l ≡ acquired lk l0 ->
  cpu_ok (hcpu l) /\ forall k, k <> lk -> lock_free k l0 -> lock_free k l.
Proof.
  intros Hc (E1 & E2 & E3). split.
  - unfold cpu_ok. rewrite E2. cbn. destruct Hc. split; [lia|done].
  - intros k Hk Hf. unfold lock_free. rewrite E3. cbn. by rewrite set_lock_ne.
Qed.

(** [s'] differs from [s] at most in the processes, the heap of list elements
    and [min_vruntime]; locks and interrupts are as before. *)
Definition calm (s s' : psys) : Prop :=
  ps_cur s' = ps_cur s /\ ps_pids s' = ps_pids s /\
  pm_mem (ps_pm s') = pm_mem (ps_pm s) /\ freelist (ps_pm s') = freelist (ps_pm s) /\
  lk_restored (ps_lk s) (ps_lk s').

Lemma calm_trans s1 s2 s3 : calm s1 s2 -> calm s2 s3 -> calm s1 s3.
Proof.
  intros (A1 & A2 & A3 & A4 & A5) (B1 & B2 & B3 & B4 & B5).
  unfold calm. rewrite B1, B2, B3, B4. split_and!; [done..|by eapply lk_restored_trans].
Qed.
