(* ===== verification/Schedule.v ===== *)
(** The scheduler: src/kernel/schedule.c.

    The run queue is a list ordered by virtual run time and then process
    identifier. [schedule] is an endless loop; it is cut into its iterations
    ([schedule_once]) and an iteration into the choice of the next process
    ([schedule_pick]) and its run. What a process does between the two
    switches is a parameter with the contract of [Class Process]. *)
From S2P Require Import Prelude Spinlock DList Pm Ids Proc.

Section Schedule.
Context (run_queue : addr).

(** The lookups never fail on elements of the run queue. *)
Definition cfs_less (ps : gmap addr proc) (a b : addr) : bool :=
  match ps !! proc_of_sched_elem a, ps !! proc_of_sched_elem b with
  | Some pa, Some pb =>
      if negb (vruntime pa =? vruntime pb) then vruntime pa <? vruntime pb else pid pa <? pid pb
  | _, _ => false
  end.

Definition refresh_min_vruntime_locked : K psys unit :=
  b <- list_op (list_empty run_queue) ;;
  kwhen (negb b)
    (e <- list_op (list_front run_queue) ;;
     v <- getp vruntime (proc_of_sched_elem e) ;;
     m <- kget min_vruntime ;;
     kwhen (m <? v) (kmod (put_min v))).

Definition rb_push_back (fuel : nat) (p : addr) : K psys unit :=
  lock_op (acquire rq_lock) ;;
  q <- getp in_run_queue p ;;
  kwhen (negb q)
    (v <- getp vruntime p ;;
     m <- kget min_vruntime ;;
     kwhen (v <? m) (setp (set_vruntime m) p) ;;
     ps <- kget ps_procs ;;
     list_op (list_insert_ordered (cfs_less ps) fuel run_queue (sched_elem_at p)) ;;
     setp (set_in_run_queue true) p ;;
     refresh_min_vruntime_locked) ;;
  lock_op (release rq_lock).

Definition rb_pop_front (p : addr) : K psys unit :=
  lock_op (acquire rq_lock) ;;
  q <- getp in_run_queue p ;;
  kwhen q
    (list_op (list_remove (sched_elem_at p)) ;;
     setp (set_in_run_queue false) p ;;
     refresh_min_vruntime_locked) ;;
  lock_op (release rq_lock).

Definition rb_init : K psys unit :=
  list_op (list_init run_queue) ;;
  lock_op (initlock rq_lock) ;;
  kmod (put_min 0).

(** [yield] up to and including the checks of [sched], and as a whole. *)
Definition yield_enter (fuel : nat) (p : addr) : K psys unit :=
  lock_op (acquire (proc_lock p)) ;;
  setp (set_status RUNNABLE) p ;;
  rb_push_back fuel p.
Definition yield {S} `{Lens S psys} (swtch : K S unit) (fuel : nat) : K S unit :=
  p <- via cur_proc ;;
  via (yield_enter fuel p) ;;
  sched swtch ;;
  via (lock_op (release (proc_lock p))).

(** The [for] loop of [schedule]: the address of the next process or 0. *)
Fixpoint pick_loop (fuel : nat) (e : addr) : K psys addr :=
  match fuel with
  | O => knofuel
  | S fuel =>
      t <- list_op (list_end run_queue) ;;
      if e =? t then kret 0 else
      n <- list_op (list_next e) ;;
      let p := proc_of_sched_elem e in
      st <- getp status p ;;
      list_op (list_remove e) ;;
      setp (set_in_run_queue false) p ;;
      if bool_decide (st = RUNNABLE) then kret p else pick_loop fuel n
  end.

Definition schedule_pick (fuel : nat) : K psys addr :=
  lock_op (acquire rq_lock) ;;
  e <- list_op (list_begin run_queue) ;;
  next <- pick_loop fuel e ;;
  refresh_min_vruntime_locked ;;
  lock_op (release rq_lock) ;;
  kret next.

(** One iteration; [run p] is what [swtch(&c->context, &next->context)] does
    until the process [p] switches back. The idle branch waits for an
    interrupt. *)
Definition schedule_once (run : addr -> K psys unit) (fuel : nat) : K psys addr :=
  next <- schedule_pick fuel ;;
  (if negb (next =? 0) then
     lock_op (acquire (proc_lock next)) ;;
     setp (set_status RUNNING) next ;;
     kmod (put_cur next) ;;
     run next ;;
     kmod (put_cur 0) ;;
     lock_op (release (proc_lock next))
   else lock_op intr_on) ;;
  kret next.

(** [n] iterations of the endless loop: the processes that were run. *)
Fixpoint schedule_loop (run : addr -> K psys unit) (fuel n : nat) : K psys (list addr) :=
  match n with
  | O => kret []
  | S n => p <- schedule_once run fuel ;; ps <- schedule_loop run fuel n ;; kret (p :: ps)
  end.
Definition schedule (run : addr -> K psys unit) (fuel n : nat) : K psys (list addr) :=
  lock_op intr_on ;; schedule_loop run fuel n.
End Schedule.

(** ** The run queue *)

Section Queue.
Context (run_queue : addr).

(** The order of the queue, on processes. *)
Definition key_le (P : gmap addr proc) (a b : addr) : Prop :=
  exists ra rb, P !! a = Some ra /\ P !! b = Some rb /\
    (vruntime ra < vruntime rb \/ vruntime ra = vruntime rb /\ pid ra <= pid rb).

(** [q] lists the queued processes in the order of the queue; [m] is
    [min_vruntime]. *)
Record queue (L : store) (P : gmap addr proc) (m : Z) (q : list addr) : Prop := {
  q_list : dlist L run_queue (map sched_elem_at q);
  q_elem p r : P !! p = Some r ->
    live L (sched_elem_at p) /\ sched_elem_at p <> NULL /\
    sched_elem_at p <> head_of run_queue /\ sched_elem_at p <> tail_of run_queue;
  q_null : P !! 0 = None;
  q_flag p r : P !! p = Some r -> (p ∈ q <-> in_run_queue r = true);
  q_proc p : p ∈ q -> is_Some (P !! p);
  q_sorted : StronglySorted (key_le P) q;
  q_min p r : p ∈ q -> P !! p = Some r -> m <= vruntime r
}.

(** What the queue depends on in a process. *)
Definition sched_view (r : proc) : Z * Z * bool := (vruntime r, pid r, in_run_queue r).

#[global] Instance sched_elem_inj : Inj (=) (=) sched_elem_at.
Proof. intros a b. unfold sched_elem_at. lia. Qed.

Lemma in_sched_elems p q : sched_elem_at p ∈ map sched_elem_at q <-> p ∈ q.
Proof.
  split; [|intros H; by apply list_elem_of_fmap_2].
  intros (p' & E & H)%list_elem_of_fmap. by apply (inj sched_elem_at) in E as ->.
Qed.

Lemma key_le_ext P P' a b :
  (forall p, sched_view <$> P' !! p = sched_view <$> P !! p) -> key_le P a b -> key_le P' a b.
Proof.
  intros HE (ra & rb & Ha & Hb & H). pose proof (HE a) as Ea. pose proof (HE b) as Eb.
  rewrite Ha in Ea. rewrite Hb in Eb.
  apply fmap_Some in Ea as (ra' & Ha' & Ea). apply fmap_Some in Eb as (rb' & Hb' & Eb).
  unfold sched_view in *. simplify_eq. exists ra', rb'. split_and!; [done..|]. congruence || lia.
Qed.

Lemma key_le_head P a b : key_le P a b -> forall ra rb, P !! a = Some ra -> P !! b = Some rb -> vruntime ra <= vruntime rb.
Proof. intros (ra & rb & Ha & Hb & H) ra' rb' Ha' Hb'. simplify_eq. lia. Qed.

Lemma StronglySorted_impl_in {A} (R R' : A -> A -> Prop) l :
  (forall x y, x ∈ l -> y ∈ l -> R x y -> R' x y) -> StronglySorted R l -> StronglySorted R' l.
Proof.
  induction l as [|a l IH]; intros H Hs; [constructor|]. inversion Hs as [|?? Hs' Hf]; subst.
  constructor.
  - apply IH; [|done]. intros x y Hx Hy. apply H; by right.
  - rewrite Forall_forall in Hf |- *. intros x Hx. apply H; [by left|by right|by apply Hf].
Qed.

Lemma StronglySorted_app_r {A} (R : A -> A -> Prop) l1 l2 : StronglySorted R (l1 ++ l2) -> StronglySorted R l2.
Proof. induction l1 as [|a l1 IH]; simpl; [done|]. intros H. inversion H; subst. by apply IH. Qed.

Lemma StronglySorted_delete {A} (R : A -> A -> Prop) l1 a l2 :
  StronglySorted R (l1 ++ a :: l2) -> StronglySorted R (l1 ++ l2).
Proof.
  induction l1 as [|b l1 IH]; simpl; intros H; inversion H as [|?? Hs Hf]; subst; [done|].
  constructor; [by apply IH|]. rewrite Forall_forall in Hf |- *. intros x Hx. apply Hf. set_solver.
Qed.

(** The queue only reads [sched_view] of a process. *)
Lemma queue_ext L P P' m q :
  (forall p, sched_view <$> P' !! p = sched_view <$> P !! p) ->
  queue L P m q -> queue L P' m q.
Proof.
  intros HE H.
  assert (Hback : forall p r', P' !! p = Some r' -> exists r, P !! p = Some r /\ sched_view r = sched_view r').
  { intros p r' Hp. pose proof (HE p) as E. rewrite Hp in E. symmetry in E.
    apply fmap_Some in E as (r & ? & ?). eauto. }
  destruct H as [H1 H2 H3 H4 H5 H6 H7]. split.
  - done.
  - intros p r (r0 & ? & _)%Hback. eauto.
  - destruct (P' !! 0) as [r'|] eqn:E; [|done]. apply Hback in E as (r & Hr & _). congruence.
  - intros p r (r0 & Hr & E)%Hback. rewrite (H4 p r0) by done. unfold sched_view in E. injection E as _ _ ->. done.
  - intros p Hp. destruct (H5 p Hp) as [r Hr]. specialize (HE p). rewrite Hr in HE.
    apply fmap_Some in HE as (r' & ? & _). eauto.
  - eapply StronglySorted_impl_in; [|done]. intros x y _ _. by apply key_le_ext.
  - intros p r Hq (r0 & Hr & E)%Hback. unfold sched_view in E. injection E as E1 _ _. rewrite <- E1. eauto.
Qed.

Lemma queue_nodup L P m q : queue L P m q -> NoDup q.
Proof.
  intros H. apply (NoDup_fmap_1 sched_elem_at). pose proof (q_list _ _ _ _ H) as [_ _ _ Hnd _].
  unfold nodes in Hnd. apply NoDup_cons in Hnd as [_ Hnd]. by apply NoDup_app in Hnd as [Hnd _].
Qed.

Lemma not_in_nodes L P m q p r :
  queue L P m q -> P !! p = Some r -> p ∉ q -> sched_elem_at p ∉ nodes run_queue (map sched_elem_at q).
Proof.
  intros H Hr Hn. destruct (q_elem _ _ _ _ H p r Hr) as (_ & _ & H1 & H2).
  unfold nodes. rewrite not_elem_of_cons, not_elem_of_app, not_elem_of_cons, in_sched_elems.
  split_and!; try done. apply not_elem_of_nil.
Qed.

(** *** Refreshing [min_vruntime] *)

Definition refreshed (P : gmap addr proc) (q : list addr) (m : Z) : Z :=
  match q with
  | [] => m
  | p :: _ => match P !! p with Some r => Z.max m (vruntime r) | None => m end
  end.

Lemma refresh_ok s q :
  queue (ps_links s) (ps_procs s) (min_vruntime s) q ->
  refresh_min_vruntime_locked run_queue s =
    Ret (tt, put_min (refreshed (ps_procs s) q (min_vruntime s)) s).
Proof.
  intros H. unfold refresh_min_vruntime_locked. pose proof (q_list _ _ _ _ H) as Hd.
  erewrite kbind_ret by (eapply list_read_ok, list_empty_ok, Hd).
  destruct q as [|p q]; cbn [map].
  { rewrite bool_decide_eq_true_2 by done. cbn. unfold put_min. by destruct s. }
  rewrite bool_decide_eq_false_2 by done. cbn [negb kwhen].
  erewrite kbind_ret by (eapply list_read_ok, list_front_ok, Hd).
  rewrite proc_of_sched_elem_at. destruct (q_proc _ _ _ _ H p) as [r Hr]; [by left|].
  erewrite kbind_ret by (by eapply getp_ok). krun. cbn [refreshed]. rewrite Hr.
  destruct (Z.ltb_spec (min_vruntime s) (vruntime r)); cbn [kwhen].
  - unfold kmod. by rewrite Z.max_r by lia.
  - rewrite Z.max_l by lia. unfold kret, put_min. by destruct s.
Qed.

Lemma queue_refreshed L P m q : queue L P m q -> queue L P (refreshed P q m) q.
Proof.
  intros H. destruct H as [H1 H2 H3 H4 H5 H6 H7]. split; try done.
  intros p r Hp Hr. destruct q as [|p0 q]; [by apply not_elem_of_nil in Hp|]. cbn [refreshed].
  destruct (H5 p0) as [r0 Hr0]; [by left|]. rewrite Hr0. apply Z.max_lub; [by eapply H7|].
  inversion H6 as [|?? _ Hf]; subst. apply elem_of_cons in Hp as [->|Hp]; [by simplify_eq|].
  rewrite Forall_forall in Hf. eapply key_le_head; [by apply Hf|done..].
Qed.

Lemma refreshed_mono P q m : m <= refreshed P q m.
Proof. destruct q as [|p q]; simpl; [lia|]. destruct (P !! p); lia. Qed.

(** *** Removing and inserting *)

Lemma key_le_insert_ne P p r a b : a <> p -> b <> p -> key_le (<[p := r]> P) a b <-> key_le P a b.
Proof. intros Ha Hb. unfold key_le. by rewrite !lookup_insert_ne by done. Qed.

(** The process [p] leaves the queue; its record becomes [r']. *)
Lemma queue_removed L L' P m q1 p q2 r r' :
  queue L P m (q1 ++ p :: q2) -> P !! p = Some r -> in_run_queue r' = false ->
  dlist L' run_queue (map sched_elem_at (q1 ++ q2)) -> (forall a, live L a <-> live L' a) ->
  queue L' (<[p := r']> P) m (q1 ++ q2).
Proof.
  intros H Hr Hf Hd Hl. pose proof (queue_nodup _ _ _ _ H) as Hnd. destruct H as [H1 H2 H3 H4 H5 H6 H7].
  assert (Hp : p ∉ q1 ++ q2).
  { apply NoDup_app in Hnd as (_ & Hx & Hn2). apply NoDup_cons in Hn2 as [Hn2 _].
    apply not_elem_of_app. split; [|done]. intros Hp. apply (Hx p Hp). by left. }
  assert (Hsub : forall a, a ∈ q1 ++ q2 -> a ∈ q1 ++ p :: q2 /\ a <> p).
  { intros a Ha. split; [|by intros ->]. rewrite elem_of_app in Ha |- *. rewrite elem_of_cons. tauto. }
  split; try done.
  - intros a ra Ha. destruct (decide (a = p)) as [->|Hne].
    + destruct (H2 p r Hr) as (? & ?). by rewrite <- Hl.
    + rewrite lookup_insert_ne in Ha by done. rewrite <- Hl. by eapply H2.
  - rewrite lookup_insert_ne; [done|]. intros ->. by rewrite H3 in Hr.
  - intros a ra Ha. destruct (decide (a = p)) as [->|Hne].
    + rewrite lookup_insert_eq in Ha. simplify_eq. rewrite Hf. by split.
    + rewrite lookup_insert_ne in Ha by done. rewrite <- (H4 a ra Ha).
      rewrite !elem_of_app, elem_of_cons. naive_solver.
  - intros a Ha. destruct (Hsub a Ha) as [? ?]. rewrite lookup_insert_ne by done. by apply H5.
  - eapply StronglySorted_impl_in; [|by eapply StronglySorted_delete].
    intros x y Hx Hy Hxy. destruct (Hsub x Hx), (Hsub y Hy). by apply key_le_insert_ne.
  - intros a ra Ha Hra. destruct (Hsub a Ha) as [? ?]. rewrite lookup_insert_ne in Hra by done. by eapply H7.
Qed.

Lemma cfs_less_le P a b ra rb :
  P !! a = Some ra -> P !! b = Some rb ->
  (cfs_less P (sched_elem_at a) (sched_elem_at b) = true -> key_le P a b) /\
  (cfs_less P (sched_elem_at a) (sched_elem_at b) = false -> key_le P b a).
Proof.
  intros Ha Hb. unfold cfs_less. rewrite !proc_of_sched_elem_at, Ha, Hb.
  destruct (Z.eqb_spec (vruntime ra) (vruntime rb)); cbn [negb].
  - destruct (Z.ltb_spec (pid ra) (pid rb)); split; try done; intros _; repeat eexists; [done..|lia|done|done|lia].
  - destruct (Z.ltb_spec (vruntime ra) (vruntime rb)); split; try done; intros _; repeat eexists; [done..|lia|done|done|lia].
Qed.

(** Where [list_insert_ordered] puts a process. *)
Fixpoint cfs_insert (P : gmap addr proc) (p : addr) (q : list addr) : list addr :=
  match q with
  | [] => [p]
  | a :: r => if cfs_less P (sched_elem_at p) (sched_elem_at a) then p :: q else a :: cfs_insert P p r
  end.

Lemma cfs_insert_map P p q :
  ordered_insert (cfs_less P) (sched_elem_at p) (map sched_elem_at q) = map sched_elem_at (cfs_insert P p q).
Proof. induction q as [|a q IH]; simpl; [done|]. case_match; simpl; [done|]. by rewrite IH. Qed.

Lemma cfs_insert_perm P p q : cfs_insert P p q ≡ₚ p :: q.
Proof. induction q as [|a q IH]; simpl; [done|]. case_match; [done|]. rewrite IH. apply Permutation_swap. Qed.

Lemma key_le_trans P a b c : key_le P a b -> key_le P b c -> key_le P a c.
Proof.
  intros (ra & rb & Ha & Hb & H1) (rb' & rc & Hb' & Hc & H2). simplify_eq.
  exists ra, rc. split_and!; [done..|]. lia.
Qed.

Lemma cfs_insert_sorted P p q :
  is_Some (P !! p) -> (forall a, a ∈ q -> is_Some (P !! a)) ->
  StronglySorted (key_le P) q -> StronglySorted (key_le P) (cfs_insert P p q).
Proof.
  intros [rp Hp] Hq Hs. induction Hs as [|a q Hs IH Hf]; simpl; [by repeat constructor|].
  destruct (Hq a) as [ra Ha]; [by left|]. destruct (cfs_less_le P p a rp ra Hp Ha) as [Hlt Hge].
  case_match.
  - constructor; [by constructor|]. constructor; [by apply Hlt|].
    eapply Forall_impl; [done|]. intros b Hb. eapply key_le_trans; [by apply Hlt|done].
  - constructor; [apply IH; set_solver|]. rewrite cfs_insert_perm. constructor; [by apply Hge|done].
Qed.

Lemma queue_inserted L L' P m q p r r' :
  queue L P m q -> P !! p = Some r -> p ∉ q -> in_run_queue r' = true -> m <= vruntime r' ->
  let P' := <[p := r']> P in
  dlist L' run_queue (map sched_elem_at (cfs_insert P' p q)) -> (forall a, live L a <-> live L' a) ->
  queue L' P' m (cfs_insert P' p q).
Proof.
  intros H Hr Hn Hf Hm P' Hd Hl. destruct H as [H1 H2 H3 H4 H5 H6 H7].
  assert (Hne : forall a, a ∈ q -> a <> p) by (intros a Ha ->; done).
  assert (Hin : forall a, a ∈ cfs_insert P' p q <-> a = p \/ a ∈ q).
  { intros a. rewrite cfs_insert_perm. apply elem_of_cons. }
  split; try done.
  - intros a ra Ha. unfold P' in Ha. destruct (decide (a = p)) as [->|Hap].
    + destruct (H2 p r Hr) as (? & ?). by rewrite <- Hl.
    + rewrite lookup_insert_ne in Ha by done. rewrite <- Hl. by eapply H2.
  - unfold P'. rewrite lookup_insert_ne; [done|]. intros ->. by rewrite H3 in Hr.
  - intros a ra Ha. unfold P' in Ha. rewrite Hin. destruct (decide (a = p)) as [->|Hap].
    + rewrite lookup_insert_eq in Ha. simplify_eq. rewrite Hf. split; [done|by left].
    + rewrite lookup_insert_ne in Ha by done. rewrite <- (H4 a ra Ha). naive_solver.
  - intros a [->|Ha]%Hin; unfold P'; [by rewrite lookup_insert_eq|].
    rewrite lookup_insert_ne by (symmetry; by apply Hne). by apply H5.
  - apply cfs_insert_sorted.
    + unfold P'. by rewrite lookup_insert_eq.
    + intros a Ha. unfold P'. rewrite lookup_insert_ne by (symmetry; by apply Hne). by apply H5.
    + eapply StronglySorted_impl_in; [|done]. intros x y Hx Hy Hxy.
      apply key_le_insert_ne; [by apply Hne..|done].
  - intros a ra [->|Ha]%Hin Hra; unfold P' in Hra.
    + rewrite lookup_insert_eq in Hra. by simplify_eq.
    + rewrite lookup_insert_ne in Hra by (symmetry; by apply Hne). by eapply H7.
Qed.
End Queue.

(** ** The operations on the queue *)

Section Operations.
Context (run_queue : addr).
#[local] Abbreviation queued := (queue run_queue).

(** The queue of a state, with its lock free. *)
Record rq_ready (s : psys) (q : list addr) : Prop := {
  rq_queue : queued (ps_links s) (ps_procs s) (min_vruntime s) q;
  rq_free : lock_free rq_lock (ps_lk s);
  rq_cpu : cpu_ok (hcpu (ps_lk s))
}.

Definition enqueued (m : Z) (r : proc) : proc :=
  if in_run_queue r then r else set_in_run_queue true (set_vruntime (Z.max m (vruntime r)) r).

Lemma enqueued_view m r :
  pid (enqueued m r) = pid r /\ status (enqueued m r) = status r /\
  in_run_queue (enqueued m r) = true.
Proof. unfold enqueued. destruct r; cbn. by case_match. Qed.

Lemma cfs_less_ext P P' a b :
  (forall p, (fun r => (vruntime r, pid r)) <$> P' !! p = (fun r => (vruntime r, pid r)) <$> P !! p) ->
  cfs_less P' a b = cfs_less P a b.
Proof.
  intros HE. unfold cfs_less. pose proof (HE (proc_of_sched_elem a)) as Ea.
  pose proof (HE (proc_of_sched_elem b)) as Eb.
  destruct (P' !! proc_of_sched_elem a), (P !! proc_of_sched_elem a); try done;
    destruct (P' !! proc_of_sched_elem b), (P !! proc_of_sched_elem b); try done.
  cbn in Ea, Eb. by simplify_eq; rewrite H, H0, H1, H2.
Qed.

Lemma cfs_insert_ext P P' p q :
  (forall a b, cfs_less P' a b = cfs_less P a b) -> cfs_insert P' p q = cfs_insert P p q.
Proof. intros HE. induction q as [|a q IH]; simpl; [done|]. by rewrite HE, IH. Qed.

Lemma rb_push_back_ok s q p r fuel :
  rq_ready s q -> ps_procs s !! p = Some r -> (length q < fuel)%nat ->
  exists s', rb_push_back run_queue fuel p s = Ret (tt, s') /\ calm s s' /\
    ps_procs s' = <[p := enqueued (min_vruntime s) r]> (ps_procs s) /\
    rq_ready s' (if in_run_queue r then q else cfs_insert (ps_procs s') p q) /\
    min_vruntime s <= min_vruntime s' /\
    unchanged_but (sched_elem_at p :: nodes run_queue (map sched_elem_at q)) (ps_links s) (ps_links s').
Proof.
  intros [Hq Hfree Hcpu] Hr Hf. unfold rb_push_back.
  destruct (lock_enter rq_lock s Hfree) as (l & Hl & E). erewrite kbind_ret by exact Hl.
  erewrite kbind_ret by (by eapply getp_ok).
  assert (Hfin : forall s1, ps_lk s1 = l -> exists s', lock_op (release rq_lock) s1 = Ret (tt, s') /\
            s' = put_lk (ps_lk s') s1 /\ lk_restored (ps_lk s) (ps_lk s')).
  { intros s1 Hs1. destruct (lock_leave rq_lock (ps_lk s) s1 Hfree Hcpu) as (l' & Hl' & R).
    { by rewrite Hs1. } by exists (put_lk l' s1). }
  assert (Hlk : forall s', lk_restored (ps_lk s) (ps_lk s') -> lock_free rq_lock (ps_lk s') /\ cpu_ok (hcpu (ps_lk s'))).
  { intros s' R. split; [by eapply lk_restored_free|by eapply lk_restored_ok]. }
  destruct (in_run_queue r) eqn:Hin; cbn [negb kwhen].
  { krun. destruct (Hfin (put_lk l s)) as (s' & Hs' & Es & R); [done|]. exists s'.
    destruct (Hlk _ R). rewrite Hs', Es. split_and!; try done.
    unfold enqueued. rewrite Hin. by rewrite insert_id. }
  assert (Hnq : p ∉ q) by (rewrite (q_flag _ _ _ _ _ Hq p r Hr); by rewrite Hin).
  rewrite kbind_assoc. erewrite kbind_ret by (by eapply getp_ok). rewrite kbind_assoc. krun.
  set (r1 := set_vruntime (Z.max (min_vruntime s) (vruntime r)) r).
  set (s1 := put_procs (<[p := r1]> (ps_procs s)) (put_lk l s)).
  rewrite kbind_assoc. erewrite kbind_ret with (a := tt) (s' := s1); last first.
  { cbn [min_vruntime put_lk put_pm]. destruct (Z.ltb_spec (vruntime r) (min_vruntime s)); cbn [kwhen].
    - erewrite setp_ok by exact Hr. unfold s1, r1. by rewrite Z.max_l by lia.
    - unfold s1, r1. rewrite Z.max_r by lia.
      assert (set_vruntime (vruntime r) r = r) as -> by (by destruct r).
      cbn. rewrite insert_id by exact Hr. by destruct s. }
  rewrite kbind_assoc. krun.
  destruct (q_elem _ _ _ _ _ Hq p r Hr) as (Hlive & Hnn & _).
  destruct (insert_ordered_ok (cfs_less (<[p := r1]> (ps_procs s))) (ps_links s) run_queue
    (map sched_elem_at q) (sched_elem_at p) fuel) as (L' & HL & Hd & Hu); [apply Hq|done|done| | |].
  { by eapply not_in_nodes. }
  { by rewrite length_map. }
  rewrite kbind_assoc. erewrite kbind_ret by (apply list_op_ok; exact HL).
  set (r2 := set_in_run_queue true r1). rewrite kbind_assoc.
  erewrite kbind_ret by (eapply setp_ok; cbn; apply lookup_insert_eq). cbn [ps_procs put_links put_procs s1].
  rewrite insert_insert_eq. set (P2 := <[p := _]> (ps_procs s)).
  assert (Hext : forall a b, cfs_less P2 a b = cfs_less (<[p := r1]> (ps_procs s)) a b).
  { intros a b. apply cfs_less_ext. intros x. unfold P2. destruct (decide (x = p)) as [->|Hne].
    - rewrite !lookup_insert_eq. by destruct r.
    - by rewrite !lookup_insert_ne. }
  rewrite cfs_insert_map, <- (cfs_insert_ext _ P2) in Hd by exact Hext.
  assert (Hq2 : queued L' P2 (min_vruntime s) (cfs_insert P2 p q)).
  { eapply queue_inserted; [exact Hq|exact Hr|exact Hnq|by destruct r|destruct r; cbn; lia|exact Hd|apply Hu]. }
  set (s2 := put_procs P2 (put_links L' s1)).
  rewrite (kbind_ret _ _ s2 _ _ (refresh_ok run_queue s2 _ Hq2)).
  destruct (Hfin (put_min (refreshed (ps_procs s2) (cfs_insert P2 p q) (min_vruntime s2)) s2)) as (s' & Hs' & Es & R); [done|].
  exists s'. destruct (Hlk _ R). rewrite Hs', Es. split_and!; try done.
  - cbn. unfold P2, enqueued. by rewrite Hin.
  - split; [|done..]. cbn. by apply queue_refreshed.
  - cbn. apply refreshed_mono.
Qed.

(** The processes of [ds] have left the queue. *)
Definition dequeued (ds : list addr) (P P' : gmap addr proc) : Prop :=
  forall a, P' !! a = (if decide (a ∈ ds) then set_in_run_queue false else id) <$> P !! a.

Lemma dequeued_nil P : dequeued [] P P.
Proof. intros a. rewrite decide_False by apply not_elem_of_nil. by rewrite option_fmap_id. Qed.

Lemma dequeued_cons p r ds P P' :
  P !! p = Some r -> p ∉ ds -> dequeued ds (<[p := set_in_run_queue false r]> P) P' ->
  dequeued (p :: ds) P P'.
Proof.
  intros Hp Hn H a. rewrite H. destruct (decide (a = p)) as [->|Hne].
  - rewrite lookup_insert_eq, Hp. rewrite decide_False by done. rewrite decide_True by by left. done.
  - rewrite lookup_insert_ne by done.
    destruct (decide (a ∈ ds)) as [Ha|Ha].
    + by rewrite decide_True by by right.
    + by rewrite decide_False by by rewrite not_elem_of_cons.
Qed.

(** A process the loop of [schedule] passes over or takes. *)
Lemma take_ok s p q :
  queued (ps_links s) (ps_procs s) (min_vruntime s) (p :: q) ->
  exists r L, ps_procs s !! p = Some r /\
    list_op (list_remove (sched_elem_at p)) s = Ret (cur run_queue (map sched_elem_at q), put_links L s) /\
    let P := <[p := set_in_run_queue false r]> (ps_procs s) in
    setp (set_in_run_queue false) p (put_links L s) = Ret (tt, put_procs P (put_links L s)) /\
    queued L P (min_vruntime s) q /\
    unchanged_but (nodes run_queue (map sched_elem_at (p :: q))) (ps_links s) L.
Proof.
  intros Hq. destruct (q_proc _ _ _ _ _ Hq p) as [r Hr]; [by left|].
  destruct (list_remove_ok (ps_links s) run_queue [] (sched_elem_at p) (map sched_elem_at q) (q_list _ _ _ _ _ Hq))
    as (L & HL & Hd & Hu & _). exists r, L. split; [done|].
  split; [exact (list_op_ok _ _ _ _ HL)|]. split; [exact (setp_ok _ _ (put_links L s) r Hr)|]. split.
  - apply (queue_removed run_queue (ps_links s) L (ps_procs s) (min_vruntime s) [] p q r); try done.
    + by destruct r.
    + apply Hu.
  - eapply unchanged_mono; [|exact Hu]. cbn [map].
    pose proof (cur_in run_queue [] (map sched_elem_at q)) as Hc. unfold nodes in *. set_solver.
Qed.

Definition runnable (P : gmap addr proc) (p : addr) : Prop := status <$> P !! p = Some RUNNABLE.

(** The outcome of the choice: [next] heads what is left after the processes
    that cannot run, or nothing in the queue can run. *)
Definition chosen (P : gmap addr proc) (q : list addr) (next : addr) (ds q' : list addr) : Prop :=
  (next = 0 /\ q = ds /\ q' = [] /\ Forall (fun p => ~ runnable P p) ds) \/
  (exists sk, ds = sk ++ [next] /\ q = sk ++ next :: q' /\ runnable P next /\ Forall (fun p => ~ runnable P p) sk).

Lemma pick_loop_ok q : forall s fuel,
  queued (ps_links s) (ps_procs s) (min_vruntime s) q -> (length q < fuel)%nat ->
  exists next ds q' L P,
    pick_loop run_queue fuel (cur run_queue (map sched_elem_at q)) s = Ret (next, put_procs P (put_links L s)) /\
    chosen (ps_procs s) q next ds q' /\ dequeued ds (ps_procs s) P /\
    queued L P (min_vruntime s) q' /\
    unchanged_but (nodes run_queue (map sched_elem_at q)) (ps_links s) L.
Proof.
  induction q as [|p q IH]; intros s fuel Hq Hf; (destruct fuel as [|fuel]; [simpl in Hf; lia|]); cbn [pick_loop].
  - erewrite kbind_ret by (eapply list_read_ok, end_ok, Hq). cbn [map]. rewrite cur_nil, Z.eqb_refl.
    exists 0, [], [], (ps_links s), (ps_procs s). split; [by destruct s|]. split; [left; done|].
    split; [apply dequeued_nil|]. split; [done|]. apply unchanged_refl.
  - pose proof (q_list _ _ _ _ _ Hq) as Hd.
    erewrite kbind_ret by (eapply list_read_ok, end_ok, Hd).
    rewrite (cur_tail (ps_links s) run_queue [] (map sched_elem_at (p :: q))), bool_decide_eq_false_2 by done.
    cbn [map]. rewrite cur_cons.
    erewrite kbind_ret by (eapply list_read_ok, (next_elem (ps_links s) run_queue [] (sched_elem_at p)), Hd).
    rewrite proc_of_sched_elem_at. destruct (take_ok s p q Hq) as (r & L & Hr & HL & Hs & Hq1 & Hu).
    erewrite kbind_ret by (eapply getp_ok, Hr). erewrite kbind_ret by exact HL.
    erewrite kbind_ret by exact Hs. case_bool_decide as Hst.
    + exists p, [p], q, L, (<[p := set_in_run_queue false r]> (ps_procs s)). split; [done|].
      split; [right; exists []; split_and!; [done..| |constructor]; unfold runnable; by rewrite Hr; cbn; rewrite Hst|].
      split; [eapply dequeued_cons; [exact Hr|apply not_elem_of_nil|apply dequeued_nil]|]. done.
    + set (s1 := put_procs _ _) in *.
      destruct (IH s1 fuel Hq1) as (next & ds & q' & L2 & P2 & Hrun & Hch & Hdq & Hq2 & Hu2);
        [simpl in Hf; lia|].
      assert (Hnp : p ∉ q) by (apply queue_nodup, NoDup_cons in Hq as [? _]; done).
      assert (Hsame : forall a, a <> p -> runnable (ps_procs s1) a <-> runnable (ps_procs s) a).
      { intros a Ha. unfold runnable. cbn. by rewrite lookup_insert_ne by done. }
      assert (Hnr : ~ runnable (ps_procs s) p) by (unfold runnable; rewrite Hr; cbn; congruence).
      assert (Hsk : forall sk, (forall a, a ∈ sk -> a ∈ q) -> Forall (fun a => ~ runnable (ps_procs s1) a) sk ->
                Forall (fun a => ~ runnable (ps_procs s) a) (p :: sk)).
      { intros sk Hsub HF. constructor; [done|]. rewrite Forall_forall in HF |- *. intros a Ha.
        rewrite <- Hsame by (intros ->; by apply Hnp, Hsub). by apply HF. }
      exists next, (p :: ds), q', L2, P2. split; [exact Hrun|]. split_and!; try done.
      * destruct Hch as [(-> & -> & -> & HF)|(sk & -> & -> & Hn & HF)].
        -- left. split_and!; try done. by apply Hsk.
        -- right. exists (p :: sk). split_and!; try done.
           ++ apply Hsame; [|done]. intros ->. apply Hnp. set_solver.
           ++ apply Hsk; [set_solver|done].
      * eapply dequeued_cons; [exact Hr| |exact Hdq].
        destruct Hch as [(_ & <- & _)|(sk & -> & -> & _)]; [done|]. set_solver.
      * eapply unchanged_trans; [exact Hu|]. eapply unchanged_mono; [|exact Hu2].
        unfold nodes. cbn. set_solver.
Qed.

Lemma schedule_pick_ok s q fuel :
  rq_ready s q -> (length q < fuel)%nat ->
  exists next ds q' s', schedule_pick run_queue fuel s = Ret (next, s') /\
    chosen (ps_procs s) q next ds q' /\ dequeued ds (ps_procs s) (ps_procs s') /\
    rq_ready s' q' /\ calm s s' /\ min_vruntime s <= min_vruntime s' /\
    unchanged_but (nodes run_queue (map sched_elem_at q)) (ps_links s) (ps_links s').
Proof.
  intros [Hq Hfree Hcpu] Hf. unfold schedule_pick.
  destruct (lock_enter rq_lock s Hfree) as (l & Hl & E). erewrite kbind_ret by exact Hl.
  erewrite kbind_ret by (eapply list_read_ok, begin_ok, Hq).
  destruct (pick_loop_ok q (put_lk l s) fuel Hq Hf) as (next & ds & q' & L & P & Hrun & Hch & Hdq & Hq' & Hu).
  erewrite kbind_ret by exact Hrun. set (s1 := put_procs P (put_links L (put_lk l s))).
  rewrite (kbind_ret _ _ s1 _ _ (refresh_ok run_queue s1 _ Hq')).
  destruct (lock_leave rq_lock (ps_lk s) (put_min (refreshed (ps_procs s1) q' (min_vruntime s1)) s1))
    as (l' & Hl' & R); [done..|]. erewrite kbind_ret by exact Hl'.
  eexists next, ds, q', _. split; [reflexivity|]. split; [done|]. split; [done|]. split; [split|].
  - cbn. by apply queue_refreshed.
  - by eapply lk_restored_free.
  - by eapply lk_restored_ok.
  - split_and!; try done. cbn. apply refreshed_mono.
Qed.

Lemma rb_pop_front_ok s q p r :
  rq_ready s q -> ps_procs s !! p = Some r ->
  exists s' q1 q2, rb_pop_front run_queue p s = Ret (tt, s') /\
    rq_ready s' (q1 ++ q2) /\ (q = q1 ++ p :: q2 \/ (p ∉ q) /\ q = q1 ++ q2) /\
    ps_procs s' = <[p := set_in_run_queue false r]> (ps_procs s) /\ calm s s' /\
    min_vruntime s <= min_vruntime s'.
Proof.
  intros [Hq Hfree Hcpu] Hr. unfold rb_pop_front.
  destruct (lock_enter rq_lock s Hfree) as (l & Hl & E). erewrite kbind_ret by exact Hl.
  erewrite kbind_ret by (by eapply getp_ok). destruct (in_run_queue r) eqn:Hin; cbn [kwhen].
  - assert (p ∈ q) as (q1 & q2 & ->)%list_elem_of_split by by apply (q_flag _ _ _ _ _ Hq p r Hr).
    pose proof (q_list _ _ _ _ _ Hq) as Hd. rewrite map_app in Hd. cbn [map] in Hd.
    destruct (list_remove_ok (ps_links s) run_queue _ _ _ Hd) as (L & HL & Hd' & Hu & _).
    rewrite kbind_assoc. erewrite kbind_ret by (apply list_op_ok; exact HL).
    rewrite kbind_assoc. erewrite kbind_ret by (by eapply setp_ok).
    set (P := <[p := _]> _). set (s1 := put_procs P (put_links L (put_lk l s))).
    assert (Hq' : queued L P (min_vruntime s) (q1 ++ q2)).
    { eapply queue_removed; [exact Hq|exact Hr|by destruct r|by rewrite map_app|apply Hu]. }
    rewrite (kbind_ret _ _ s1 _ _ (refresh_ok run_queue s1 _ Hq')).
    destruct (lock_leave rq_lock (ps_lk s) (put_min (refreshed (ps_procs s1) (q1 ++ q2) (min_vruntime s1)) s1))
      as (l' & Hl' & R); [done..|]. rewrite Hl'.
    eexists _, q1, q2. split; [reflexivity|]. split; [split|split_and!; try done].
    + cbn. by apply queue_refreshed.
    + by eapply lk_restored_free.
    + by eapply lk_restored_ok.
    + by left.
    + cbn. apply refreshed_mono.
  - krun. destruct (lock_leave rq_lock (ps_lk s) (put_lk l s)) as (l' & Hl' & R); [done..|]. rewrite Hl'.
    assert (p ∉ q) by (rewrite (q_flag _ _ _ _ _ Hq p r Hr); by rewrite Hin).
    assert (set_in_run_queue false r = r) as -> by (destruct r; cbn in *; by subst).
    eexists _, q, []. rewrite app_nil_r. split; [reflexivity|]. split; [split|split_and!; try done].
    + done.
    + by eapply lk_restored_free.
    + by eapply lk_restored_ok.
    + by right.
    + cbn. by rewrite insert_id.
Qed.
End Operations.

(** ** The contract between the scheduler and the processes *)

Section World.
Context (run_queue : addr) (fuel : nat).
#[local] Abbreviation queued := (queue run_queue).
#[local] Abbreviation ready := (rq_ready run_queue).

(** The hart executes on behalf of [p], which holds its own lock and no
    other, as the comment above [sched] asks. *)
Record on_hart (p : addr) (s : psys) : Prop := {
  oh_queue : exists q, queued (ps_links s) (ps_procs s) (min_vruntime s) q;
  oh_rq : lock_free rq_lock (ps_lk s);
  oh_cur : ps_cur s = p;
  oh_held : lock_held (proc_lock p) (ps_lk s);
  oh_noff : noff (hcpu (ps_lk s)) = 1;
  oh_sie : sie (hcpu (ps_lk s)) = false;
  oh_locks p' : is_Some (ps_procs s !! p') -> p' <> p -> lock_free (proc_lock p') (ps_lk s);
  oh_size : (size (ps_procs s) < fuel)%nat
}.

(** The state in which [schedule] switches to [p], and the one in which [p]
    has to switch back. *)
Definition handed (p : addr) (s : psys) : Prop :=
  on_hart p s /\ exists r, ps_procs s !! p = Some r /\ status r = RUNNING /\ in_run_queue r = false.
Definition given_back (p : addr) (s : psys) : Prop :=
  on_hart p s /\ exists r, ps_procs s !! p = Some r /\ status r <> RUNNING.

(** What the processes promise to the scheduler. *)
Class Process (run : addr -> K psys unit) : Prop :=
  run_gives_back : forall p s, handed p s -> exists s', run p s = Ret (tt, s') /\ given_back p s'.

(** The state of the scheduler's own thread between two iterations. *)
Record idle (s : psys) : Prop := {
  id_queue : exists q, ready s q;
  id_cur : ps_cur s = 0;
  id_noff : noff (hcpu (ps_lk s)) = 0;
  id_locks p : is_Some (ps_procs s !! p) -> lock_free (proc_lock p) (ps_lk s);
  id_size : (size (ps_procs s) < fuel)%nat
}.

Lemma queue_length L P m q : queued L P m q -> (length q <= size P)%nat.
Proof.
  intros H. rewrite <- (size_dom (D := gset addr)), <- (size_list_to_set (C := gset addr) q) by by eapply queue_nodup.
  apply subseteq_size. intros p Hp%elem_of_list_to_set. by apply elem_of_dom, (q_proc _ _ _ _ _ H).
Qed.

Lemma size_dequeued ds P P' : dequeued ds P P' -> size P' = size P.
Proof.
  intros H. rewrite <- !(size_dom (D := gset addr)). f_equal. apply set_eq. intros a.
  rewrite !elem_of_dom, H. destruct (P !! a); simpl; [by split; eauto|done].
Qed.

Lemma dequeued_is_some ds P P' a : dequeued ds P P' -> is_Some (P' !! a) <-> is_Some (P !! a).
Proof. intros H. rewrite H. apply fmap_is_Some. Qed.

(** Changing the status of a process changes no queue. *)
Lemma queue_set_status L P m q p r st :
  queued L P m q -> P !! p = Some r -> queued L (<[p := set_status st r]> P) m q.
Proof.
  intros H Hr. eapply queue_ext; [|exact H]. intros a. destruct (decide (a = p)) as [->|Hne].
  - rewrite lookup_insert_eq, Hr. by destruct r.
  - by rewrite lookup_insert_ne.
Qed.

Lemma size_set_proc (P : gmap addr proc) p r r' : P !! p = Some r -> size (<[p := r']> P) = size P.
Proof. intros H. rewrite map_size_insert, H. done. Qed.

Lemma is_some_set_proc (P : gmap addr proc) p r r' a :
  P !! p = Some r -> is_Some (<[p := r']> P !! a) <-> is_Some (P !! a).
Proof.
  intros H. destruct (decide (a = p)) as [->|Hne].
  - rewrite lookup_insert_eq, H. by split; eauto.
  - by rewrite lookup_insert_ne.
Qed.

(** The part of an iteration before the switch. *)
Lemma dispatch_ok s next r :
  (exists q, ready s q) -> noff (hcpu (ps_lk s)) = 0 ->
  (forall p, is_Some (ps_procs s !! p) -> lock_free (proc_lock p) (ps_lk s)) ->
  (size (ps_procs s) < fuel)%nat ->
  ps_procs s !! next = Some r -> in_run_queue r = false ->
  exists s', (forall k : K psys unit, (lock_op (acquire (proc_lock next)) ;;
     setp (set_status RUNNING) next ;; kmod (put_cur next) ;; k) s = k s') /\ handed next s' /\
    ps_procs s' = <[next := set_status RUNNING r]> (ps_procs s) /\ ps_links s' = ps_links s /\
    min_vruntime s' = min_vruntime s.
Proof.
  intros (q & [Hq Hrq Hcpu]) Hn Hlk Hsz Hr Hin.
  destruct (lock_enter (proc_lock next) s) as (l & Hl & El); [by apply Hlk; rewrite Hr|].
  destruct El as (Eh & Ec & Elk).
  eexists. split; [|split; [split; [split|]|]].
  - intros k. erewrite kbind_ret by exact Hl.
    erewrite kbind_ret by exact (setp_ok _ _ (put_lk l s) r Hr). krun. reflexivity.
  - exists q. by apply queue_set_status.
  - unfold lock_free. cbn. rewrite Elk. cbn. by rewrite set_lock_ne.
  - done.
  - unfold lock_held. cbn. rewrite Elk. cbn. by rewrite set_lock_eq, Eh.
  - cbn. rewrite Ec. cbn. lia.
  - cbn. by rewrite Ec.
  - cbn. intros p' Hp' Hne. unfold lock_free. rewrite Elk. cbn. rewrite set_lock_ne by congruence.
    apply Hlk. by apply (is_some_set_proc _ next r (set_status RUNNING r)).
  - cbn. by rewrite (size_set_proc _ _ r).
  - cbn. exists (set_status RUNNING r). rewrite lookup_insert_eq. split; [done|]. by destruct r.
  - done.
Qed.

(** The part after it. *)
Lemma resume_scheduler_ok p s :
  on_hart p s ->
  exists s', (kmod (put_cur 0) ;; lock_op (release (proc_lock p))) s = Ret (tt, s') /\ idle s' /\
    ps_procs s' = ps_procs s /\ ps_links s' = ps_links s /\ min_vruntime s' = min_vruntime s.
Proof.
  intros [(q & Hq) Hrq Hcur Hheld Hn Hs Hlk Hsz]. krun.
  destruct (release_held (proc_lock p) (ps_lk s) Hheld) as (l & Hl & Eh & Ec & Elk); [lia|done|].
  eexists. split; [exact (lock_op_ok _ (put_cur 0 s) _ _ Hl)|]. split; [|done]. split.
  - exists q. split; [done| |].
    + unfold lock_free. cbn. rewrite Elk. cbn. by rewrite set_lock_ne.
    + unfold cpu_ok. cbn. rewrite Ec. cbn. rewrite Hn. split; [lia|intros; lia].
  - done.
  - cbn. rewrite Ec. cbn. lia.
  - cbn. intros p' Hp'. unfold lock_free. rewrite Elk. cbn.
    destruct (decide (p' = p)) as [->|Hne]; [by rewrite set_lock_eq|].
    rewrite set_lock_ne by congruence. by apply Hlk.
  - done.
Qed.

Lemma chosen_in P q next ds q' : chosen P q next ds q' -> next = 0 \/ next ∈ ds /\ next ∈ q.
Proof. intros [(-> & _)|(sk & -> & -> & _)]; [by left|]. right. set_solver. Qed.

(** An iteration up to the point where the chosen process runs. *)
Lemma once_step s q :
  idle s -> ready s q ->
  exists next ds q' P1, chosen (ps_procs s) q next ds q' /\ dequeued ds (ps_procs s) P1 /\
    ((next = 0 /\ exists s', (forall run, schedule_once run_queue run fuel s = Ret (0, s')) /\ idle s') \/
     (next <> 0 /\ exists r s2, handed next s2 /\ P1 !! next = Some r /\ in_run_queue r = false /\
        ps_procs s2 = <[next := set_status RUNNING r]> P1 /\
        queued (ps_links s2) (ps_procs s2) (min_vruntime s2) q' /\
        forall run, schedule_once run_queue run fuel s =
          ((run next ;; kmod (put_cur 0) ;; lock_op (release (proc_lock next))) ;; kret next) s2)).
Proof.
  intros [_ Hcur Hn Hlk Hsz] Hq. unfold schedule_once.
  pose proof (queue_length _ _ _ _ (rq_queue _ _ _ Hq)) as Hlen.
  destruct (schedule_pick_ok run_queue s q fuel Hq) as (next & ds & q' & s1 & Hp & Hch & Hdq & Hq1 & Hc & _); [lia|].
  exists next, ds, q', (ps_procs s1). split; [exact Hch|]. split; [exact Hdq|].
  destruct Hc as (Hc1 & _ & _ & _ & Hc5).
  assert (Hn1 : noff (hcpu (ps_lk s1)) = 0) by (destruct Hc5 as (_ & -> & _); done).
  assert (Hlk1 : forall p, is_Some (ps_procs s1 !! p) -> lock_free (proc_lock p) (ps_lk s1)).
  { intros p Hp1. eapply lk_restored_free; [exact Hc5|]. apply Hlk. by apply (dequeued_is_some _ _ _ p Hdq). }
  assert (Hsz1 : (size (ps_procs s1) < fuel)%nat) by by rewrite (size_dequeued _ _ _ Hdq).
  destruct (Z.eqb_spec next 0) as [->|Hne]; [left|right]; (split; [done|]).
  - eexists. split; [intros run; erewrite kbind_ret by exact Hp; reflexivity|].
    split; try done; [|cbn; by rewrite Hc1].
    exists q'. split; [apply Hq1|exact (rq_free _ _ _ Hq1)|].
    unfold cpu_ok. change (0 <= noff (hcpu (ps_lk s1)) /\ (0 < noff (hcpu (ps_lk s1)) -> true = false)).
    rewrite Hn1. split; [lia|intros; lia].
  - destruct (chosen_in _ _ _ _ _ Hch) as [|[Hin Hinq]]; [done|].
    destruct (q_proc _ _ _ _ _ (rq_queue _ _ _ Hq) next Hinq) as [r0 Hr0].
    assert (Hr : ps_procs s1 !! next = Some (set_in_run_queue false r0)).
    { rewrite Hdq, Hr0. rewrite decide_True by done. done. }
    destruct (dispatch_ok s1 next _ (ex_intro _ q' Hq1) Hn1 Hlk1 Hsz1 Hr) as (s2 & Hd & Hh & HP & HL & Hm);
      [by destruct r0|].
    exists (set_in_run_queue false r0), s2. split; [done|]. split; [done|]. split; [by destruct r0|].
    split; [done|]. split; [rewrite HP, HL, Hm; apply queue_set_status; [apply Hq1|done]|].
    intros run. erewrite kbind_ret by exact Hp. apply kbind_same. rewrite (proj2 (Z.eqb_neq next 0) Hne). cbn [negb]. apply Hd.
Qed.

Context (run : addr -> K psys unit) `{!Process run}.

Lemma once_ok s q :
  idle s -> ready s q ->
  exists next ds q' s', schedule_once run_queue run fuel s = Ret (next, s') /\ idle s' /\
    chosen (ps_procs s) q next ds q'.
Proof.
  intros Hid Hq. destruct (once_step s q Hid Hq) as (next & ds & q' & P1 & Hch & _ & [(-> & s' & Hs & Hi)|(_ & r & s2 & Hh & _ & _ & _ & _ & Hs)]).
  - exists 0, ds, q', s'. by rewrite Hs.
  - destruct (run_gives_back next s2 Hh) as (s3 & Hrun & Hg & _).
    destruct (resume_scheduler_ok next s3 Hg) as (s4 & Hs4 & Hid4 & _).
    exists next, ds, q', s4. split; [|done]. rewrite Hs, (kbind_ret _ _ s2 tt s4); [done|].
    by erewrite kbind_ret by exact Hrun.
Qed.

Lemma loop_ok n : forall s, idle s ->
  exists ps s', schedule_loop run_queue run fuel n s = Ret (ps, s') /\ idle s' /\ length ps = n.
Proof.
  induction n as [|n IH]; intros s Hs; cbn [schedule_loop]; [by exists [], s|].
  destruct (id_queue _ Hs) as [q Hq].
  destruct (once_ok s q Hs Hq) as (next & ds & q' & s1 & H1 & Hi & _).
  erewrite kbind_ret by exact H1. destruct (IH s1 Hi) as (ps & s2 & H2 & Hi2 & Hl).
  erewrite kbind_ret by exact H2. exists (next :: ps), s2. split_and!; [done..|]. simpl. lia.
Qed.
End World.

(** ** Yielding *)

Section Yield.
Context (run_queue : addr) (fuel : nat).
#[local] Abbreviation queued := (queue run_queue).
#[local] Abbreviation ready := (rq_ready run_queue).
#[local] Abbreviation on_hart := (on_hart run_queue fuel).
#[local] Abbreviation handed := (handed run_queue fuel).
#[local] Abbreviation given_back := (given_back run_queue fuel).

(** The process [p] runs and holds no lock; [q] is the run queue. *)
Record active (p : addr) (q : list addr) (s : psys) : Prop := {
  ac_ready : ready s q;
  ac_cur : ps_cur s = p;
  ac_noff : noff (hcpu (ps_lk s)) = 0;
  ac_locks p' : is_Some (ps_procs s !! p') -> lock_free (proc_lock p') (ps_lk s);
  ac_size : (size (ps_procs s) < fuel)%nat
}.

(** The record of a process that gives the hart up while it can run. *)
Definition yielded (m : Z) (r : proc) : proc := enqueued m (set_status RUNNABLE r).
Definition yielded_queue (P : gmap addr proc) (p : addr) (r : proc) (q : list addr) : list addr :=
  if in_run_queue r then q else cfs_insert P p q.

Lemma sched_enter_ok p s r :
  on_hart p s -> ps_procs s !! p = Some r -> status r <> RUNNING ->
  sched_enter s = Ret (intena (hcpu (ps_lk s)), s).
Proof.
  intros [_ _ Hc Hh Hn Hs _ _] Hr Hst. unfold sched_enter. krun. rewrite Hc.
  erewrite kbind_ret by (apply (zoom_ret ps_lk put_lk (holding (proc_lock p))); reflexivity).
  unfold holding_in. rewrite Hh. cbn [lcpu locked]. rewrite bool_decide_eq_true_2 by done. cbn [Z.eqb negb andb kwhen].
  assert (Hput : put_lk (ps_lk s) s = s) by (by destruct s as [[]]). rewrite Hput.
  krun. krun. cbn [hcpu]. rewrite Hput, Hn. cbn [Z.eqb Pos.eqb negb kwhen]. krun.
  erewrite kbind_ret by (by eapply getp_ok). rewrite bool_decide_eq_false_2 by done. cbn [kwhen]. krun.
  krun. rewrite Hput. rewrite Hs. cbn [kwhen]. krun.
  unfold lock_op, zoom, kget. by rewrite Hput.
Qed.

Lemma yield_enter_ok p q s r :
  active p q s -> ps_procs s !! p = Some r ->
  exists s', yield_enter run_queue fuel p s = Ret (tt, s') /\ given_back p s' /\
    ps_procs s' = <[p := yielded (min_vruntime s) r]> (ps_procs s) /\
    queued (ps_links s') (ps_procs s') (min_vruntime s') (yielded_queue (ps_procs s') p r q) /\
    intena (hcpu (ps_lk s')) = sie (hcpu (ps_lk s)).
Proof.
  intros [Hrq Hc Hn Hlk Hsz] Hr. unfold yield_enter.
  destruct (lock_enter (proc_lock p) s) as (l & Hl & Eh & Ec & Elk); [by apply Hlk; rewrite Hr|].
  erewrite kbind_ret by exact Hl. erewrite kbind_ret by exact (setp_ok _ _ (put_lk l s) r Hr).
  set (s1 := put_procs _ _). set (r1 := set_status RUNNABLE r).
  assert (Hr1 : ps_procs s1 !! p = Some r1) by apply lookup_insert_eq.
  destruct Hrq as [Hq Hf Hcpu].
  assert (Hrq1 : ready s1 q).
  { split; [by apply queue_set_status| |].
    - unfold lock_free. cbn. rewrite Elk. cbn. by rewrite set_lock_ne.
    - unfold cpu_ok. cbn. rewrite Ec. cbn. split; [lia|done]. }
  pose proof (queue_length _ _ _ _ _ Hq) as Hlen.
  destruct (rb_push_back_ok run_queue s1 q p r1 fuel Hrq1 Hr1) as (s2 & H2 & Hcalm & HP & Hrq2 & _ & _); [lia|].
  destruct Hcalm as (C1 & _ & _ & _ & (R1 & R2 & R3 & R4 & R5)).
  assert (HP' : ps_procs s2 = <[p := yielded (min_vruntime s) r]> (ps_procs s)).
  { rewrite HP. cbn. by rewrite insert_insert_eq. }
  assert (Hq2 : queued (ps_links s2) (ps_procs s2) (min_vruntime s2) (yielded_queue (ps_procs s2) p r q)).
  { replace (in_run_queue r1) with (in_run_queue r) in Hrq2 by by destruct r. apply Hrq2. }
  assert (Hnoff : noff (hcpu (ps_lk s1)) = 1) by (cbn; rewrite Ec; cbn; lia).
  exists s2. split; [done|]. split; [|split_and!; [done|done|]].
  - split.
    + split.
      * eauto.
      * exact (rq_free _ _ _ Hrq2).
      * by rewrite C1.
      * unfold lock_held. rewrite R1, R5. cbn. rewrite Elk. cbn. by rewrite set_lock_eq, Eh.
      * by rewrite R2.
      * rewrite R3. cbn. by rewrite Ec.
      * intros p' Hp' Hne. rewrite HP' in Hp'. unfold lock_free. rewrite R5. cbn. rewrite Elk. cbn.
        rewrite set_lock_ne by congruence. apply Hlk. by eapply is_some_set_proc.
      * rewrite HP'. by rewrite (size_set_proc _ _ r).
    + exists (yielded (min_vruntime s) r). rewrite HP', lookup_insert_eq. split; [done|].
      unfold yielded. destruct (enqueued_view (min_vruntime s) (set_status RUNNABLE r)) as (_ & -> & _).
      by destruct r.
  - rewrite R4 by (rewrite Hnoff; lia). cbn. rewrite Ec. unfold cpu_pushed. cbn. change (noff (hcpu (pm_lk (ps_pm s)))) with (noff (hcpu (ps_lk s))). by rewrite Hn.
Qed.

(** Returning from [sched] in a process that was switched back to. *)
Lemma leave_ok p s ie :
  handed p s -> exists s', (sched_leave ie ;; lock_op (release (proc_lock p))) s = Ret (tt, s') /\
    ps_procs s' = ps_procs s /\ ps_links s' = ps_links s /\ min_vruntime s' = min_vruntime s /\
    sie (hcpu (ps_lk s')) = ie /\
    forall q, queued (ps_links s) (ps_procs s) (min_vruntime s) q -> active p q s'.
Proof.
  intros [[_ Hrq Hcur Hheld Hn Hs Hlk Hsz] _]. unfold sched_leave.
  erewrite kbind_ret by (apply (lock_op_ok _ s tt); reflexivity).
  set (l1 := on_cpu _ _).
  destruct (release_held (proc_lock p) l1) as (l & Hl & Eh & Ec & Elk); [done|cbn; lia|done|].
  eexists. split; [exact (lock_op_ok _ (put_lk l1 s) _ _ Hl)|].
  split; [done|]. split; [done|]. split; [done|]. split.
  { cbn. rewrite Ec. cbn. by rewrite Hn. }
  intros q Hq. split.
  - split; [done| |].
    + unfold lock_free. cbn. rewrite Elk. cbn. by rewrite set_lock_ne.
    + unfold cpu_ok. cbn. rewrite Ec. cbn. rewrite Hn. split; [lia|intros; lia].
  - done.
  - cbn. rewrite Ec. cbn. lia.
  - cbn. intros p' Hp'. unfold lock_free. rewrite Elk. cbn.
    destruct (decide (p' = p)) as [->|Hne]; [by rewrite set_lock_eq|].
    rewrite set_lock_ne by congruence. by apply Hlk.
  - done.
Qed.
End Yield.

(** ** Time slices *)

Section Ticks.
Context (run_queue : addr) (fuel : nat).
#[local] Abbreviation queued := (queue run_queue).
#[local] Abbreviation ready := (rq_ready run_queue).
#[local] Abbreviation handed := (handed run_queue fuel).
#[local] Abbreviation given_back := (given_back run_queue fuel).

(** What a process that only computes does between two switches: it returns
    from [sched] and [yield] to user space, and the next timer interrupt makes
    [usertrap] charge it for the slice and yield again. [ie p] is the value
    of [intena] saved in the frame of its [sched]. *)
Definition charge (p : addr) : K psys unit := setp (fun r => set_vruntime (u64 (vruntime r + 100)) r) p.
Definition time_slice (ie : addr -> bool) (p : addr) : K psys unit :=
  (sched_leave (ie p) ;; lock_op (release (proc_lock p))) ;;
  lock_op intr_off ;;
  c <- cur_proc ;;
  charge c ;;
  c' <- cur_proc ;;
  yield_enter run_queue fuel c' ;;
  sched_enter ;;
  kret tt.

Definition charged (r : proc) : proc := set_vruntime (u64 (vruntime r + 100)) r.

Lemma not_queued L P m q p r : queued L P m q -> P !! p = Some r -> in_run_queue r = false -> p ∉ q.
Proof. intros H Hr Hin. rewrite (q_flag _ _ _ _ _ H p r Hr), Hin. done. Qed.

(** The record of a process outside the queue is free to change. *)
Lemma queue_set_unqueued L P m q p r r' :
  queued L P m q -> P !! p = Some r -> p ∉ q -> in_run_queue r' = false -> queued L (<[p := r']> P) m q.
Proof.
  intros H Hr Hn Hf. destruct H as [H1 H2 H3 H4 H5 H6 H7].
  assert (Hne : forall a, a ∈ q -> a <> p) by (intros a Ha ->; done).
  split; try done.
  - intros a ra Ha. destruct (decide (a = p)) as [->|Hap]; [by eapply H2|].
    rewrite lookup_insert_ne in Ha by done. by eapply H2.
  - rewrite lookup_insert_ne; [done|]. intros ->. by rewrite H3 in Hr.
  - intros a ra Ha. destruct (decide (a = p)) as [->|Hap].
    + rewrite lookup_insert_eq in Ha. simplify_eq. rewrite Hf. by split.
    + rewrite lookup_insert_ne in Ha by done. by apply H4.
  - intros a Ha. rewrite lookup_insert_ne by (symmetry; by apply Hne). by apply H5.
  - eapply StronglySorted_impl_in; [|done]. intros x y Hx Hy Hxy. by apply key_le_insert_ne; auto.
  - intros a ra Ha Hra. rewrite lookup_insert_ne in Hra by (symmetry; by apply Hne). by eapply H7.
Qed.

Lemma time_slice_ok ie p q s r :
  handed p s -> ps_procs s !! p = Some r -> in_run_queue r = false ->
  queued (ps_links s) (ps_procs s) (min_vruntime s) q ->
  exists s', time_slice ie p s = Ret (tt, s') /\ given_back p s' /\
    ps_procs s' = <[p := yielded (min_vruntime s) (charged r)]> (ps_procs s) /\
    queued (ps_links s') (ps_procs s') (min_vruntime s') (cfs_insert (ps_procs s') p q).
Proof.
  intros Hh Hr Hin Hq. unfold time_slice.
  destruct (leave_ok run_queue fuel p s (ie p) Hh) as (s1 & H1 & HP1 & HL1 & Hm1 & _ & Hac).
  erewrite kbind_ret by exact H1. specialize (Hac q Hq). destruct Hac as [Hrd Hcur Hn Hlk Hsz].
  erewrite kbind_ret by (apply (lock_op_ok _ s1 tt); reflexivity).
  set (s2 := put_lk _ s1). unfold charge. krun. change (ps_cur s2) with (ps_cur s1). rewrite Hcur.
  assert (Hr1 : ps_procs s1 !! p = Some r) by by rewrite HP1.
  erewrite kbind_ret by exact (setp_ok _ p s2 r Hr1). fold (charged r).
  set (s3 := put_procs _ s2). krun. change (ps_cur s3) with (ps_cur s1). rewrite Hcur.
  assert (Hr3 : ps_procs s3 !! p = Some (charged r)) by apply lookup_insert_eq.
  assert (Hc : in_run_queue (charged r) = false) by by destruct r.
  assert (Ha : active run_queue fuel p q s3).
  { split; cbn.
    - split; [|apply Hrd|].
      + eapply queue_set_unqueued; [apply Hrd|exact Hr1| |done]. eapply not_queued; [exact Hq|exact Hr|done].
      + unfold cpu_ok. cbn. destruct (rq_cpu _ _ _ Hrd) as [Hc0 _]. split; [exact Hc0|done].
    - done.
    - exact Hn.
    - intros p' Hp'. apply Hlk. by apply (is_some_set_proc _ p r (charged r)).
    - by rewrite (size_set_proc _ _ r). }
  destruct (yield_enter_ok run_queue fuel p q s3 (charged r) Ha Hr3) as (s4 & H4 & Hg & HP4 & Hq4 & _).
  erewrite kbind_ret by exact H4. destruct Hg as [Hon (r4 & Hr4 & Hst4)].
  erewrite kbind_ret by (eapply sched_enter_ok; [exact Hon|exact Hr4|done]).
  exists s4. split; [done|]. split; [by split; eauto|].
  unfold yielded_queue in Hq4. rewrite Hc in Hq4. split; [|done].
  rewrite HP4. cbn. rewrite insert_insert_eq, HP1. by rewrite Hm1.
Qed.

#[global] Instance time_slice_process ie : Process run_queue fuel (time_slice ie).
Proof.
  intros p s Hh. assert (Hh' := Hh). destruct Hh' as ([(q & Hq) _ _ _ _ _ _ _] & r & Hr & _ & Hin).
  destruct (time_slice_ok ie p q s r Hh Hr Hin Hq) as (s' & H & Hg & _). eauto.
Qed.

(** *** No starvation *)

(** The slices the process [a] can still get before [p] does, counting one for
    [p] itself. *)
Definition slices (P : gmap addr proc) (p a : addr) : nat :=
  match P !! a, P !! p with
  | Some ra, Some rp => if vruntime ra <=? vruntime rp then Z.to_nat ((vruntime rp - vruntime ra) / 100 + 1) else O
  | _, _ => O
  end.
Definition wait_bound (P : gmap addr proc) (p : addr) (q : list addr) : nat := sum_list_with (slices P p) q.

Lemma sum_list_with_perm {A} (f : A -> nat) l1 l2 : l1 ≡ₚ l2 -> sum_list_with f l1 = sum_list_with f l2.
Proof. induction 1; simpl; lia. Qed.

Lemma sum_list_with_ext {A} (f g : A -> nat) l : (forall a, a ∈ l -> f a = g a) -> sum_list_with f l = sum_list_with g l.
Proof. induction l as [|a l IH]; intros H; simpl; [done|]. rewrite (H a) by by left. rewrite IH; [done|]. intros b Hb. apply H. by right. Qed.

Lemma key_le_head_slices P p h rh rp :
  P !! h = Some rh -> P !! p = Some rp -> vruntime rh <= vruntime rp ->
  slices P p h = Z.to_nat ((vruntime rp - vruntime rh) / 100 + 1).
Proof. intros Hh Hp Hle. unfold slices. rewrite Hh, Hp. by rewrite (proj2 (Z.leb_le _ _) Hle). Qed.

(** One iteration with a queue of runnable processes that compute. *)
Lemma round_ok ie s h q :
  idle run_queue fuel s -> ready s (h :: q) -> Forall (runnable (ps_procs s)) (h :: q) ->
  exists s' r m, schedule_once run_queue (time_slice ie) fuel s = Ret (h, s') /\ idle run_queue fuel s' /\
    ps_procs s !! h = Some r /\
    ps_procs s' = <[h := yielded m (charged (set_status RUNNING (set_in_run_queue false r)))]> (ps_procs s) /\
    ready s' (cfs_insert (ps_procs s') h q).
Proof.
  intros Hid Hq Hrun.
  destruct (once_step run_queue fuel s _ Hid Hq) as (next & ds & q' & P1 & Hch & Hdq & Hcase).
  assert (next = h /\ ds = [h] /\ q' = q) as (-> & -> & ->).
  { rewrite Forall_forall in Hrun.
    destruct Hch as [(-> & <- & -> & HF)|(sk & -> & E & _ & HF)]; rewrite Forall_forall in HF.
    - destruct (HF h); [by left|]. apply Hrun. by left.
    - destruct sk as [|a sk]; [by simplify_eq/=|]. destruct (HF a); [by left|]. apply Hrun. rewrite E. by left. }
  destruct (q_proc _ _ _ _ _ (rq_queue _ _ _ Hq) h) as [r Hr]; [by left|].
  assert (Hne : h <> 0) by (intros ->; by rewrite (q_null _ _ _ _ _ (rq_queue _ _ _ Hq)) in Hr).
  destruct Hcase as [(? & _)|(_ & r' & s2 & Hh & Hr' & Hin & HP2 & Hq2 & Hs)]; [done|].
  assert (HP1 : P1 = <[h := set_in_run_queue false r]> (ps_procs s)).
  { apply map_eq. intros a. rewrite Hdq. destruct (decide (a = h)) as [->|Ha].
    - rewrite lookup_insert_eq, Hr. rewrite decide_True by by left. done.
    - rewrite lookup_insert_ne by done. rewrite decide_False by by rewrite list_elem_of_singleton.
      by rewrite option_fmap_id. }
  rewrite HP1, lookup_insert_eq in Hr'. injection Hr' as <-.
  assert (Hr2 : ps_procs s2 !! h = Some (set_status RUNNING (set_in_run_queue false r))) by by rewrite HP2, lookup_insert_eq.
  destruct (time_slice_ok ie h q s2 _ Hh Hr2) as (s3 & H3 & [Hg _] & HP3 & Hq3); [by destruct r|done|].
  destruct (resume_scheduler_ok run_queue fuel h s3 Hg) as (s4 & H4 & Hid4 & HP4 & HL4 & Hm4).
  exists s4, r, (min_vruntime s2). split.
  { rewrite Hs, (kbind_ret _ _ s2 tt s4); [done|]. by erewrite kbind_ret by exact H3. }
  split; [done|]. split; [done|]. rewrite HP4.
  split; [by rewrite HP3, HP2, HP1, !insert_insert_eq|].
  destruct (id_queue _ _ _ Hid4) as [q4 [_ Hf4 Hc4]]. split; [|done..]. by rewrite HL4, HP4, Hm4.
Qed.

Lemma slice_record m r :
  let r' := yielded m (charged (set_status RUNNING (set_in_run_queue false r))) in
  status r' = RUNNABLE /\ pid r' = pid r /\ vruntime r' = Z.max m (u64 (vruntime r + 100)).
Proof. by destruct r. Qed.

Lemma slices_decrease P p h rh rp r' :
  P !! h = Some rh -> P !! p = Some rp -> h <> p -> vruntime rh <= vruntime rp ->
  vruntime rh + 100 <= vruntime r' ->
  (S (slices (<[h := r']> P) p h) <= slices P p h)%nat.
Proof.
  intros Hh Hp Hne Hle Hv. rewrite (key_le_head_slices P p h rh rp) by done.
  unfold slices. rewrite lookup_insert_eq, lookup_insert_ne, Hp by done.
  destruct (Z.leb_spec (vruntime r') (vruntime rp)); dlia.
Qed.

Lemma wait_bound_step P p h q rh rp r' :
  P !! h = Some rh -> P !! p = Some rp -> h <> p -> h ∉ q -> vruntime rh <= vruntime rp ->
  vruntime rh + 100 <= vruntime r' ->
  let P' := <[h := r']> P in
  (S (wait_bound P' p (cfs_insert P' h q)) <= wait_bound P p (h :: q))%nat.
Proof.
  intros Hh Hp Hne Hn Hle Hv P'. unfold wait_bound.
  rewrite (sum_list_with_perm _ _ (h :: q) (cfs_insert_perm P' h q)). cbn [sum_list_with].
  pose proof (slices_decrease P p h rh rp r' Hh Hp Hne Hle Hv) as Hs. fold P' in Hs.
  rewrite (sum_list_with_ext (slices P' p) (slices P p) q); [lia|].
  intros a Ha. unfold slices, P'. by rewrite !lookup_insert_ne by (congruence || by intros ->).
Qed.

(** C5. No starvation among processes that only compute: on one hart, while
    every queued process is RUNNABLE, computes and is preempted by the clock
    ([time_slice]), and none sleeps, is woken, forked or ends, every queued
    process [p] is run within [sum ((v_p - v_a) / 100 + 1)] iterations of
    [schedule], the sum over the processes [a] whose virtual run time [v_a] is at
    most its own (itself included), provided its virtual run time is not about to
    wrap around. A process that sleeps before the tick is not charged (trap.c:97,
    155): about those nothing is said. *)
Theorem no_starvation ie n : forall s q p rp,
  idle run_queue fuel s -> ready s q -> Forall (runnable (ps_procs s)) q ->
  p ∈ q -> ps_procs s !! p = Some rp -> vruntime rp + 100 < 2 ^ 64 ->
  (forall a ra, a ∈ q -> ps_procs s !! a = Some ra -> 0 <= vruntime ra) ->
  (wait_bound (ps_procs s) p q <= n)%nat ->
  exists ps s', schedule_loop run_queue (time_slice ie) fuel n s = Ret (ps, s') /\ p ∈ ps.
Proof.
  induction n as [|n IH]; intros s q p rp Hid Hq Hrun Hpq Hp Hmax Hpos Hw.
  { exfalso. assert (slices (ps_procs s) p p <= wait_bound (ps_procs s) p q)%nat as H
      by (by apply sum_list_with_in). unfold slices in H. rewrite Hp, Z.leb_refl, Z.sub_diag in H. change (Z.to_nat (0 / 100 + 1)) with 1%nat in H. lia. }
  destruct q as [|h q]; [by apply not_elem_of_nil in Hpq|].
  destruct (round_ok ie s h q Hid Hq Hrun) as (s1 & r & m & H1 & Hid1 & Hr & HP1 & Hq1).
  cbn [schedule_loop]. erewrite kbind_ret by exact H1.
  destruct (decide (h = p)) as [->|Hne].
  { destruct (loop_ok run_queue fuel (time_slice ie) n s1 Hid1) as (ps & s2 & H2 & _).
    erewrite kbind_ret by exact H2. exists (p :: ps), s2. split; [done|by left]. }
  pose proof (slice_record m r) as (Hst & _ & Hvr). set (r' := yielded m _) in *.
  apply elem_of_cons in Hpq as [->|Hpq]; [done|].
  pose proof (rq_queue _ _ _ Hq) as Hqq.
  assert (Hle : vruntime r <= vruntime rp).
  { pose proof (q_sorted _ _ _ _ _ Hqq) as Hs. inversion Hs as [|?? _ HF]; subst.
    rewrite Forall_forall in HF. by eapply key_le_head; [apply HF|..]. }
  assert (Hr0 : 0 <= vruntime r) by (eapply Hpos; [by left|done]).
  assert (Hv : vruntime r + 100 <= vruntime r') by (rewrite Hvr, u64_small by lia; lia).
  assert (Hnd : h ∉ q) by (pose proof (queue_nodup _ _ _ _ _ Hqq) as Hnd; by apply NoDup_cons in Hnd as [? _]).
  pose proof (wait_bound_step _ _ _ _ _ _ _ Hr Hp Hne Hnd Hle Hv) as Hw1. cbn zeta in Hw1. rewrite <- HP1 in Hw1.
  assert (Hin : forall a, a ∈ cfs_insert (ps_procs s1) h q <-> a = h \/ a ∈ q).
  { intros a. rewrite cfs_insert_perm. apply elem_of_cons. }
  rewrite Forall_cons in Hrun. destruct Hrun as [_ Hrun]. rewrite Forall_forall in Hrun.
  destruct (IH s1 _ p rp Hid1 Hq1) as (ps & s2 & H2 & Hps); [..|lia|].
  - rewrite Forall_forall. intros a [->|Ha]%Hin; unfold runnable; rewrite HP1.
    + rewrite lookup_insert_eq. cbn. by rewrite Hst.
    + rewrite lookup_insert_ne by (by intros ->). by apply Hrun.
  - apply Hin. by right.
  - by rewrite HP1, lookup_insert_ne.
  - done.
  - intros a ra Ha Hra. rewrite HP1 in Hra. destruct (decide (a = h)) as [->|Hah].
    + rewrite lookup_insert_eq in Hra. simplify_eq. lia.
    + rewrite lookup_insert_ne in Hra by done. apply Hin in Ha as [->|Ha]; [done|].
      eapply Hpos; [by right|done].
  - erewrite kbind_ret by exact H2. exists (h :: ps), s2. split; [done|by right].
Qed.
End Ticks.

(** ** Properties *)

Section Properties.
Context (run_queue : addr) (fuel : nat).
#[local] Abbreviation queued := (queue run_queue).
#[local] Abbreviation ready := (rq_ready run_queue).

Lemma key_le_refl P p r : P !! p = Some r -> key_le P p p.
Proof. intros H. exists r, r. split_and!; [done..|]. right. lia. Qed.

Lemma sorted_head P sk a q b : StronglySorted (key_le P) (sk ++ a :: q) -> b ∈ q -> key_le P a b.
Proof.
  intros H Hb. apply StronglySorted_app_r in H. inversion H as [|?? _ HF]; subst.
  rewrite Forall_forall in HF. by apply HF.
Qed.

(** C13. The choice of [schedule]: of the queued processes that are RUNNABLE
    it takes the one with the least (virtual run time, pid) out of the queue,
    loses no other of them, drops those that cannot run, and finds none only
    if none can run; [min_vruntime] never decreases, the queue stays ordered
    and the locks are left as they were. *)
Theorem schedule_picks_least s q :
  ready s q -> (length q < fuel)%nat ->
  exists next q' s', schedule_pick run_queue fuel s = Ret (next, s') /\
    (next = 0 -> forall p, p ∈ q -> ~ runnable (ps_procs s) p) /\
    (next <> 0 -> next ∈ q /\ runnable (ps_procs s) next /\
       (forall p, p ∈ q -> runnable (ps_procs s) p -> key_le (ps_procs s) next p) /\
       (forall p, p ∈ q -> runnable (ps_procs s) p -> p <> next -> p ∈ q') /\ next ∉ q') /\
    (forall p, p ∈ q' -> p ∈ q) /\
    ready s' q' /\ calm s s' /\ min_vruntime s <= min_vruntime s'.
Proof.
  intros Hq Hf. destruct (schedule_pick_ok run_queue s q fuel Hq Hf) as (next & ds & q' & s' & H & Hch & _ & Hq' & Hc & Hm & _).
  exists next, q', s'. split; [done|]. pose proof (rq_queue _ _ _ Hq) as Hqq.
  destruct Hch as [(-> & -> & -> & HF)|(sk & -> & -> & Hn & HF)]; rewrite Forall_forall in HF.
  - split_and!; try done. intros p Hp. by apply not_elem_of_nil in Hp.
  - pose proof (queue_nodup _ _ _ _ _ Hqq) as Hnd. apply NoDup_app in Hnd as (_ & _ & Hnd).
    apply NoDup_cons in Hnd as [Hnn _].
    assert (Hskip : forall p, p ∈ sk ++ next :: q' -> runnable (ps_procs s) p -> p = next \/ p ∈ q').
    { intros p [Hp|Hp]%elem_of_app Hr; [by destruct (HF p)|]. by apply elem_of_cons in Hp. }
    split_and!; try done.
    + intros ->. destruct (q_proc _ _ _ _ _ Hqq 0) as [r Hr]; [set_solver|].
      by rewrite (q_null _ _ _ _ _ Hqq) in Hr.
    + intros _. split_and!; try done; [set_solver| |].
      * intros p Hp Hr. destruct (Hskip p Hp Hr) as [->|Hp'].
        -- destruct (q_proc _ _ _ _ _ Hqq next) as [r Hr']; [set_solver|]. by eapply key_le_refl.
        -- eapply sorted_head; [apply Hqq|done].
      * intros p Hp Hr Hne. by destruct (Hskip p Hp Hr).
    + set_solver.
Qed.

(** C12. The scheduler loop: whatever the processes do, as long as each keeps
    the contract of [Class Process] (when it gets the hart with its lock held
    it gives it back so), every iteration of [schedule] returns without a panic
    and re-establishes the state of the scheduler's thread: queue in order,
    nesting depth 0, no current process, every process lock free. *)
Theorem schedule_never_panics run n s :
  Process run_queue fuel run -> idle run_queue fuel s ->
  exists ps s', schedule run_queue run fuel n s = Ret (ps, s') /\ length ps = n /\ idle run_queue fuel s'.
Proof.
  intros Hrun [(q & Hq) Hc Hn Hl Hsz]. unfold schedule.
  erewrite kbind_ret by (apply (lock_op_ok _ s tt); reflexivity).
  destruct (loop_ok run_queue fuel run n (put_lk (on_cpu (set_sie true) (ps_lk s)) s)) as (ps & s' & H & Hi & Hlen).
  - split; try done. exists q. split; [apply Hq|exact (rq_free _ _ _ Hq)|].
    unfold cpu_ok. change (0 <= noff (hcpu (ps_lk s)) /\ (0 < noff (hcpu (ps_lk s)) -> true = false)).
    rewrite Hn. split; [lia|intros; lia].
  - eauto.
Qed.

(** [yield] keeps both sides of that contract: called by a running process
    that holds no lock, it reaches the switch with the process RUNNABLE, in the
    queue at its place and holding exactly its own lock, so that none of the
    checks of [sched] panics; and when the process is switched back to, [yield]
    returns with all process locks free and interrupts as they were at the
    call. *)
Theorem yield_hands_over {S} `{Lens S psys} p q (s : S) r :
  active run_queue fuel p q (lget s) -> ps_procs (lget s) !! p = Some r ->
  exists s1, given_back run_queue fuel p s1 /\
    ps_procs s1 = <[p := yielded (min_vruntime (lget s)) r]> (ps_procs (lget s)) /\
    queued (ps_links s1) (ps_procs s1) (min_vruntime s1) (yielded_queue (ps_procs s1) p r q) /\
    forall (swtch : K S unit) s2, swtch (lput s1 s) = Ret (tt, s2) -> handed run_queue fuel p (lget s2) ->
      exists s3, yield run_queue swtch fuel s = Ret (tt, lput s3 s2) /\ ps_procs s3 = ps_procs (lget s2) /\
        sie (hcpu (ps_lk s3)) = sie (hcpu (ps_lk (lget s))) /\
        forall q2, queued (ps_links (lget s2)) (ps_procs (lget s2)) (min_vruntime (lget s2)) q2 ->
          active run_queue fuel p q2 s3.
Proof.
  intros Ha Hr. destruct (yield_enter_ok run_queue fuel p q (lget s) r Ha Hr) as (s1 & H1 & Hg & HP & Hq & Hie).
  exists s1. split; [done|]. split; [done|]. split; [done|]. intros swtch s2 Hsw Hh.
  unfold yield. erewrite kbind_ret by (by apply via_ret). rewrite (ac_cur _ _ _ _ _ Ha), lput_lget.
  erewrite kbind_ret by (apply via_ret; exact H1).
  unfold sched. destruct Hg as [Hon (r1 & Hr1 & Hst)]. rewrite kbind_assoc.
  erewrite kbind_ret by (apply via_ret; rewrite lget_lput; eapply sched_enter_ok; [exact Hon|exact Hr1|done]).
  rewrite lput_lput, kbind_assoc. erewrite kbind_ret by exact Hsw.
  destruct (leave_ok run_queue fuel p (lget s2) (intena (hcpu (ps_lk s1))) Hh) as (s3 & H3 & HP3 & _ & _ & Hs3 & Hac).
  apply kbind_inv in H3 as ([] & s2' & H3 & H4).
  exists s3. split; [|split; [done|split; [by rewrite Hs3|done]]].
  erewrite kbind_ret by (apply via_ret; exact H3).
  erewrite via_ret by (rewrite lget_lput; exact H4). by rewrite lput_lput.
Qed.
End Properties.

(** Three processes: 2 and 3 ahead of 1 in the queue, the status of the third
    a parameter. *)
Definition demo_proc (st : process_state) (id v : Z) : proc :=
  mkProc st id 0 0 true FIRST 0 v 0 (zero_context 0 0) 0 0 0 0 0 [].
Definition demo_links : store :=
  {[ 100 := Elem 0 2128; 2128 := Elem 100 3128; 3128 := Elem 2128 1128; 1128 := Elem 3128 116; 116 := Elem 1128 0 ]}.
Definition demo_procs (st : process_state) : gmap addr proc :=
  {[ 1000 := demo_proc RUNNABLE 1 50; 2000 := demo_proc st 2 0; 3000 := demo_proc RUNNABLE 3 0 ]}.
Definition free_locks : lockst := mkLockst 0 (mkCpu 0 false true) (fun _ => mkSpinlock 0 None).
Definition demo_sched (st : process_state) : psys :=
  mkPs (mkPm (fun _ => 0) free_locks 0) [] demo_links (demo_procs st) 0 0.

Lemma demo_procs_cases st p r : demo_procs st !! p = Some r ->
  (p = 1000 /\ r = demo_proc RUNNABLE 1 50) \/ (p = 2000 /\ r = demo_proc st 2 0) \/
  (p = 3000 /\ r = demo_proc RUNNABLE 3 0).
Proof.
  unfold demo_procs. rewrite !lookup_insert_Some, lookup_singleton_Some.
  intros [[<- <-]|[_ [[<- <-]|[_ [<- <-]]]]]; auto.
Qed.

Lemma demo_sched_ready st : rq_ready 100 (demo_sched st) [2000; 3000; 1000].
Proof.
  split; [|done|done]. split.
  - split; [reflexivity|reflexivity|by repeat split|..]; apply (bool_decide_unpack _); reflexivity.
  - intros p r [[-> ->]|[[-> ->]|[-> ->]]]%demo_procs_cases; (split; [by eexists|done]).
  - done.
  - intros p r [[-> ->]|[[-> ->]|[-> ->]]]%demo_procs_cases; (split; [done|intros _; apply (bool_decide_unpack _); reflexivity]).
  - intros p Hp. repeat apply elem_of_cons in Hp as [->|Hp]; [by eexists..|by apply not_elem_of_nil in Hp].
  - repeat constructor; repeat eexists; cbn; lia.
  - intros p r _ [[-> ->]|[[-> ->]|[-> ->]]]%demo_procs_cases; cbn; lia.
Qed.

Lemma demo_sched_idle st : idle 100 4 (demo_sched st).
Proof. split; [exists [2000; 3000; 1000]; apply demo_sched_ready|done..|]. cbn. vm_compute. lia. Qed.

Lemma schedule_picks_least_witness :
  exists q' s', schedule_pick 100 4 (demo_sched SLEEPING) = Ret (3000, s') /\ rq_ready 100 s' q' /\ 1000 ∈ q'.
Proof.
  destruct (schedule_picks_least 100 4 (demo_sched SLEEPING) [2000; 3000; 1000]) as (next & q' & s' & H & _ & Hn & _ & Hq & _).
  - apply demo_sched_ready.
  - simpl. lia.
  - assert (next = 3000) as ->.
    { destruct (schedule_pick 100 4 (demo_sched SLEEPING)) as [[a b]| | | |] eqn:E; try done.
      assert (a = 3000) as Ha by (apply (f_equal (fun r => match r with Ret (x, _) => x | _ => 0 end)) in E; rewrite <- E; vm_compute; reflexivity).
      congruence. }
    exists q', s'. split; [exact H|]. split; [exact Hq|]. apply Hn; [done|apply (bool_decide_unpack _); reflexivity|reflexivity|done].
Defined.

Lemma schedule_never_panics_witness :
  exists ps s', schedule 100 (time_slice 100 4 (fun _ => true)) 4 5 (demo_sched RUNNABLE) = Ret (ps, s') /\
    length ps = 5%nat /\ idle 100 4 s'.
Proof. apply (schedule_never_panics 100 4); [apply time_slice_process|apply demo_sched_idle]. Defined.

(** Process 1000, taken off the queue, runs. *)
Definition demo_running : psys :=
  mkPs (mkPm (fun _ => 0) free_locks 0) []
    {[ 100 := Elem 0 116; 1128 := Elem 0 0; 116 := Elem 100 0 ]}
    {[ 1000 := set_in_run_queue false (demo_proc RUNNING 1 50) ]} 1000 0.

Lemma demo_running_cases p r : ps_procs demo_running !! p = Some r ->
  p = 1000 /\ r = set_in_run_queue false (demo_proc RUNNING 1 50).
Proof. unfold demo_running. cbn [ps_procs]. by intros [<- <-]%lookup_singleton_Some. Qed.

Lemma demo_running_active : active 100 4 1000 [] demo_running.
Proof.
  split; [|done|done|done|vm_compute; lia]. split; [|done|done]. split.
  - split; [reflexivity|reflexivity|by repeat split|..]; apply (bool_decide_unpack _); reflexivity.
  - intros p r [-> ->]%demo_running_cases. split; [by eexists|done].
  - done.
  - intros p r [-> ->]%demo_running_cases. split; [intros H; by apply not_elem_of_nil in H|done].
  - intros p Hp. by apply not_elem_of_nil in Hp.
  - constructor.
  - intros p r Hp. by apply not_elem_of_nil in Hp.
Qed.

Lemma yield_hands_over_witness :
  exists s1, given_back 100 4 1000 s1 /\ queue 100 (ps_links s1) (ps_procs s1) (min_vruntime s1) [1000].
Proof.
  destruct (@yield_hands_over 100 4 psys (lens_id psys) 1000 [] demo_running _ demo_running_active (lookup_singleton_eq _ _)) as (s1 & Hg & _ & Hq & _).
  exists s1. split; [exact Hg|exact Hq].
Defined.

Lemma no_starvation_witness :
  exists ps s', schedule_loop 100 (time_slice 100 4 (fun _ => true)) 4 3 (demo_sched RUNNABLE) = Ret (ps, s') /\ 1000 ∈ ps.
Proof.
  apply (no_starvation 100 4 (fun _ => true) 3 (demo_sched RUNNABLE) [2000; 3000; 1000] 1000 (demo_proc RUNNABLE 1 50)).
  - apply demo_sched_idle.
  - apply demo_sched_ready.
  - repeat constructor.
  - apply (bool_decide_unpack _). reflexivity.
  - reflexivity.
  - reflexivity.
  - intros a ra _ [[-> ->]|[[-> ->]|[-> ->]]]%demo_procs_cases; cbn; lia.
  - vm_compute. lia.
Defined.
