(* ===== verification/Sleep.v ===== *)
(** Sleeping and waking: [sleep] and [wakeup] of src/kernel/proc.c, the sleep
    locks of src/kernel/sleeplock.c and the semaphores of
    src/kernel/semaphore.c.

    A call that sleeps runs in a state [S] that the other processes change
    while it is switched out; [Class Sync] says where the process subsystem and
    the sleep locks are in it. *)
From S2P Require Import Prelude Spinlock DList Pm Ids Proc Schedule.

(** ** Data *)

Record sleeplock : Type := mkSleeplock { sl_locked : bool; sl_pid : Z }.

(** The sleep locks and the [value] field of the semaphores, by address; the
    spin lock inside the sleep lock at [a] is [sleep_lk a]. *)
Record syncst : Type := mkSync { sy_locks : gmap addr sleeplock; sy_semas : gmap addr Z }.

Definition put_sl (a : addr) (x : sleeplock) (s : syncst) : syncst :=
  mkSync (<[a := x]> (sy_locks s)) (sy_semas s).
Definition put_sema (a : addr) (v : Z) (s : syncst) : syncst :=
  mkSync (sy_locks s) (<[a := v]> (sy_semas s)).

Class Sync (S : Type) : Type := {
  sync_ps :: Lens S psys;
  sync_st :: Lens S syncst;
  sync_ps_st (x : psys) (s : S) : lget (T := syncst) (lput x s) = lget (T := syncst) s;
  sync_st_ps (x : syncst) (s : S) : lget (T := psys) (lput x s) = lget (T := psys) s
}.

Definition sl_get (a : addr) : K syncst sleeplock := fun s =>
  match sy_locks s !! a with Some x => Ret (x, s) | None => Fault end.
Definition sl_set (a : addr) (f : sleeplock -> sleeplock) : K syncst unit := fun s =>
  match sy_locks s !! a with Some x => Ret (tt, put_sl a (f x) s) | None => Fault end.
Definition sema_get (a : addr) : K syncst Z := fun s =>
  match sy_semas s !! a with Some x => Ret (x, s) | None => Fault end.
Definition sema_set (a : addr) (v : Z) : K syncst unit := kmod (put_sema a v).

(** [&sema->waiters]. *)
Definition waiters_of (sema : addr) : addr := sema + 8.

(** ** Operations *)

Section Wakeup.
Context (run_queue process_list : addr).

(** The loop of [wakeup]; [q] is the fuel of the run queue. *)
Fixpoint wakeup_loop (fuel qfuel : nat) (ch cur e : addr) : K psys unit :=
  match fuel with
  | O => knofuel
  | S fuel =>
      t <- list_op (list_end process_list) ;;
      if e =? t then kret tt else
      let p := proc_of_elem e in
      (if p =? cur then kret tt else
         lock_op (acquire (proc_lock p)) ;;
         st <- getp status p ;;
         c <- getp chan p ;;
         kwhen (bool_decide (st = SLEEPING) && (c =? ch))
           (setp (set_status RUNNABLE) p ;; rb_push_back run_queue qfuel p) ;;
         lock_op (release (proc_lock p))) ;;
      n <- list_op (list_next e) ;;
      wakeup_loop fuel qfuel ch cur n
  end.
Definition wakeup (fuel qfuel : nat) (ch : addr) : K psys unit :=
  cur <- cur_proc ;;
  e <- list_op (list_begin process_list) ;;
  wakeup_loop fuel qfuel ch cur e.

Section Blocking.
Context {S : Type} `{Sync S} (swtch : K S unit).
Context (fuel qfuel : nat).

(** [sleep] up to the switch, and as a whole. *)
Definition sleep_enter (p ch : addr) (lk : lockid) : K psys unit :=
  lock_op (acquire (proc_lock p)) ;;
  lock_op (release lk) ;;
  setp (set_chan ch) p ;;
  setp (set_status SLEEPING) p.
Definition sleep (ch : addr) (lk : lockid) : K S unit :=
  p <- via cur_proc ;;
  via (sleep_enter p ch lk) ;;
  sched swtch ;;
  via (setp (set_chan 0) p) ;;
  via (lock_op (acquire lk)) ;;
  via (lock_op (release (proc_lock p))).

Definition initsleeplock (lk : addr) : K S unit :=
  via (lock_op (initlock (sleep_lk lk))) ;;
  via (kmod (put_sl lk (mkSleeplock false (-1)))).

(** The [while] loop of [acquiresleeplock]. *)
Fixpoint await_unlocked (n : nat) (lk : addr) : K S unit :=
  match n with
  | O => knofuel
  | Datatypes.S n =>
      l <- via (sl_get lk) ;;
      if sl_locked l then sleep lk (sleep_lk lk) ;; await_unlocked n lk else kret tt
  end.
Definition acquiresleeplock (n : nat) (lk : addr) : K S unit :=
  via (lock_op (acquire (sleep_lk lk))) ;;
  await_unlocked n lk ;;
  via (sl_set lk (fun l => mkSleeplock true (sl_pid l))) ;;
  i <- via getpid ;;
  via (sl_set lk (fun l => mkSleeplock (sl_locked l) i)) ;;
  via (lock_op (release (sleep_lk lk))).

Definition releasesleeplock (lk : addr) : K S unit :=
  via (lock_op (acquire (sleep_lk lk))) ;;
  via (sl_set lk (fun l => mkSleeplock false (sl_pid l))) ;;
  via (sl_set lk (fun l => mkSleeplock (sl_locked l) (-1))) ;;
  via (wakeup fuel qfuel lk) ;;
  via (lock_op (release (sleep_lk lk))).

(** [lk->pid == getpid()] is evaluated only when the lock is held. *)
Definition holdingsleeplock (lk : addr) : K S bool :=
  via (lock_op (acquire (sleep_lk lk))) ;;
  l <- via (sl_get lk) ;;
  r <- (if sl_locked l then i <- via getpid ;; kret (sl_pid l =? i) else kret false) ;;
  via (lock_op (release (sleep_lk lk))) ;;
  kret r.

Definition sema_init (sema : addr) (value : Z) : K S unit :=
  via (sema_set sema value) ;;
  via (list_op (list_init (waiters_of sema))).

(** The [while] loop of [sema_down]. *)
Fixpoint await_positive (n : nat) (sema : addr) : K S unit :=
  match n with
  | O => knofuel
  | Datatypes.S n =>
      v <- via (sema_get sema) ;;
      if v =? 0 then
        p <- via cur_proc ;;
        via (list_op (list_push_back (waiters_of sema) (elem_at p))) ;;
        yield run_queue swtch qfuel ;;
        await_positive n sema
      else kret tt
  end.
Definition sema_down (n : nat) (sema : addr) : K S unit :=
  via (lock_op push_off) ;;
  via (lock_op (kassert (negb (sema =? 0)))) ;;
  await_positive n sema ;;
  v <- via (sema_get sema) ;;
  via (sema_set sema (u32 (v - 1))) ;;
  via (lock_op pop_off).

Definition sema_up (sema : addr) : K S unit :=
  via (lock_op push_off) ;;
  via (lock_op (kassert (negb (sema =? 0)))) ;;
  b <- via (list_op (list_empty (waiters_of sema))) ;;
  kwhen (negb b)
    (e <- via (list_op (list_pop_front (waiters_of sema))) ;;
     via (wakeup fuel qfuel (proc_of_elem e))) ;;
  v <- via (sema_get sema) ;;
  via (sema_set sema (u32 (v + 1))) ;;
  via (lock_op pop_off).
End Blocking.
End Wakeup.

(** ** [wakeup] *)

Section WakeupProofs.
Context (run_queue process_list : addr) (qfuel : nat).
#[local] Abbreviation queued := (queue run_queue).
#[local] Abbreviation ready := (rq_ready run_queue).

(** The list of all processes: its nodes are not those of the run queue. *)
Record plist (L : store) (P : gmap addr proc) (xs : list addr) : Prop := {
  pl_list : dlist L process_list (map elem_at xs);
  pl_proc p : p ∈ xs -> is_Some (P !! p);
  pl_sep p : is_Some (P !! p) -> sched_elem_at p ∉ nodes process_list (map elem_at xs);
  pl_head : head_of run_queue ∉ nodes process_list (map elem_at xs);
  pl_tail : tail_of run_queue ∉ nodes process_list (map elem_at xs)
}.

(** [p] is asleep on [ch]. *)
Definition asleep_on (ch : addr) (r : proc) : bool := bool_decide (status r = SLEEPING) && (chan r =? ch).

(** A process after it was woken: in the run queue, its virtual run time
    possibly raised. *)
Definition woken (r r' : proc) : Prop :=
  exists v, vruntime r <= v /\ r' = set_in_run_queue true (set_vruntime v (set_status RUNNABLE r)).

(** Among the processes of [xs], those asleep on [ch] other than [c] are woken;
    nothing else changes. *)
Record woke (c ch : addr) (xs : list addr) (P P' : gmap addr proc) : Prop := {
  wk_dom p : P !! p = None -> P' !! p = None;
  wk_yes p r : P !! p = Some r -> p ∈ xs -> p <> c -> asleep_on ch r = true ->
    exists r', P' !! p = Some r' /\ woken r r';
  wk_no p r : P !! p = Some r -> p ∉ xs \/ p = c \/ asleep_on ch r = false -> P' !! p = Some r
}.

#[global] Instance elem_at_inj : Inj (=) (=) elem_at.
Proof. intros a b. unfold elem_at. lia. Qed.

Lemma enqueued_woken m r : woken r (enqueued m (set_status RUNNABLE r)).
Proof.
  unfold woken, enqueued. destruct r as [s i k t q pr pa v]; cbn. destruct q; cbn.
  - exists v. split; [lia|done].
  - exists (Z.max m v). split; [lia|done].
Qed.

Lemma plist_frame L L' P P' xs q p :
  plist L P xs -> (forall a, is_Some (P' !! a) <-> is_Some (P !! a)) ->
  (forall a, a ∈ p :: q -> is_Some (P !! a)) ->
  unchanged_but (sched_elem_at p :: nodes run_queue (map sched_elem_at q)) L L' -> plist L' P' xs.
Proof.
  intros [H1 H2 H3 H4 H5] Hdom Hq Hu. split; try done.
  - eapply dlist_frame; [exact H1|exact Hu|]. intros a Ha Hin.
    apply elem_of_cons in Hin as [->|Hin].
    { apply (H3 p); [|done]. apply Hq. by left. }
    unfold nodes in Hin. apply elem_of_cons in Hin as [->|Hin]; [done|].
    apply elem_of_app in Hin as [(a' & -> & Ha')%list_elem_of_fmap|Hin%list_elem_of_singleton]; [|by subst].
    apply (H3 a'); [|done]. apply Hq. by right.
  - intros p' Hp'. apply Hdom. by apply H2.
  - intros p' Hp'. apply H3. by apply Hdom.
Qed.

(** What the loop needs of a state. *)
Record wake_ready (c : addr) (xs : list addr) (q : list addr) (s : psys) : Prop := {
  wr_rq : ready s q;
  wr_plist : plist (ps_links s) (ps_procs s) xs;
  wr_free p : p ∈ xs -> p <> c -> lock_free (proc_lock p) (ps_lk s);
  wr_size : (size (ps_procs s) < qfuel)%nat
}.

Definition wake_one (ch p : addr) : K psys unit :=
  lock_op (acquire (proc_lock p)) ;;
  st <- getp status p ;;
  c <- getp chan p ;;
  kwhen (bool_decide (st = SLEEPING) && (c =? ch))
    (setp (set_status RUNNABLE) p ;; rb_push_back run_queue qfuel p) ;;
  lock_op (release (proc_lock p)).

Lemma wake_one_ok c ch xs q p r s :
  wake_ready c xs q s -> p ∈ xs -> p <> c -> ps_procs s !! p = Some r ->
  exists s' q' r', wake_one ch p s = Ret (tt, s') /\ calm s s' /\ wake_ready c xs q' s' /\
    ps_procs s' = <[p := r']> (ps_procs s) /\ min_vruntime s <= min_vruntime s' /\
    (if asleep_on ch r then woken r r' else r' = r).
Proof.
  intros [[Hq Hf Hc] Hpl Hfree Hsz] Hp Hpc Hr. unfold wake_one.
  pose proof (Hfree p Hp Hpc) as Hlp.
  destruct (lock_enter (proc_lock p) s Hlp) as (l & Hl & El).
  erewrite kbind_ret by exact Hl. erewrite kbind_ret by exact (getp_ok _ _ (put_lk l s) r Hr).
  erewrite kbind_ret by exact (getp_ok _ _ (put_lk l s) r Hr).
  change (bool_decide (status r = SLEEPING) && (chan r =? ch)) with (asleep_on ch r).
  assert (Hfin : forall s2, lk_restored l (ps_lk s2) ->
     exists l', lock_op (release (proc_lock p)) s2 = Ret (tt, put_lk l' s2) /\ lk_restored (ps_lk s) l').
  { intros s2 R. by eapply lock_leave_restored. }
  destruct (asleep_on ch r) eqn:Has; cbn [kwhen].
  - rewrite kbind_assoc. erewrite kbind_ret by exact (setp_ok _ p (put_lk l s) r Hr).
    set (s1 := put_procs _ _). set (r1 := set_status RUNNABLE r).
    assert (Hr1 : ps_procs s1 !! p = Some r1) by apply lookup_insert_eq.
    destruct El as (E1 & E2 & E3).
    assert (Hrd1 : ready s1 q).
    { split; [by apply queue_set_status| |].
      - unfold lock_free. cbn. rewrite E3. cbn. by rewrite set_lock_ne.
      - unfold cpu_ok. cbn. rewrite E2. cbn. destruct Hc. split; [lia|done]. }
    pose proof (queue_length _ _ _ _ _ Hq) as Hlen.
    destruct (rb_push_back_ok run_queue s1 q p r1 qfuel Hrd1 Hr1) as (s2 & H2 & (C1 & C2 & C3 & C4 & C5) & HP2 & Hrd2 & Hm2 & Hu2); [lia|].
    erewrite kbind_ret by exact H2. destruct (Hfin s2 C5) as (l' & Hl' & R).
    exists (put_lk l' s2), (if in_run_queue r1 then q else cfs_insert (ps_procs s2) p q), (enqueued (min_vruntime s1) r1).
    assert (HP : ps_procs s2 = <[p := enqueued (min_vruntime s1) r1]> (ps_procs s)).
    { rewrite HP2. unfold s1. cbn. by rewrite insert_insert_eq. }
    assert (Hdom : forall a, is_Some (ps_procs s2 !! a) <-> is_Some (ps_procs s !! a)).
    { intros a. rewrite HP. by eapply is_some_set_proc. }
    split; [exact Hl'|]. split; [by split_and!|]. split; [|split; [exact HP|split; [exact Hm2|apply enqueued_woken]]].
    split.
    + split; [apply Hrd2| |]; [by eapply lk_restored_free|by eapply lk_restored_ok].
    + eapply (plist_frame (ps_links s)); [exact Hpl|exact Hdom| |exact Hu2].
      intros a [->|Ha]%elem_of_cons; [by rewrite Hr|]. by apply (q_proc _ _ _ _ _ Hq).
    + intros a Ha Hac. eapply lk_restored_free; [exact R|]. by apply Hfree.
    + change (size (ps_procs s2) < qfuel)%nat. rewrite HP. by rewrite (size_set_proc _ _ r).
  - krun. destruct (Hfin (put_lk l s) (lk_restored_refl l)) as (l' & Hl' & R).
    exists (put_lk l' s), q, r. split; [exact Hl'|]. split; [by split_and!|].
    split; [|split; [by rewrite insert_id|done]]. split; try done.
    + split; [done| |]; [by eapply lk_restored_free|by eapply lk_restored_ok].
    + intros a Ha Hac. eapply lk_restored_free; [exact R|]. by apply Hfree.
Qed.

Lemma woke_refl c ch P : woke c ch [] P P.
Proof. split; try done. intros p r _ Hp. by apply not_elem_of_nil in Hp. Qed.

Lemma woke_cons c ch p xs P P1 P' r r1 :
  P !! p = Some r -> p ∉ xs -> P1 = <[p := r1]> P ->
  (if decide (p = c) then r1 = r else if asleep_on ch r then woken r r1 else r1 = r) ->
  woke c ch xs P1 P' -> woke c ch (p :: xs) P P'.
Proof.
  intros Hr Hn -> Hp [W1 W2 W3]. split.
  - intros a Ha. apply W1. rewrite lookup_insert_ne; [done|]. intros ->. congruence.
  - intros a ra Ha Hin Hac Has. destruct (decide (a = p)) as [->|Hap].
    + assert (ra = r) as -> by congruence. rewrite decide_False, Has in Hp by done.
      exists r1. split; [|done]. eapply W3; [apply lookup_insert_eq|by left].
    + eapply W2; [by rewrite lookup_insert_ne| |done|done]. by apply elem_of_cons in Hin as [->|].
  - intros a ra Ha Hor. destruct (decide (a = p)) as [->|Hap].
    + assert (ra = r) as -> by congruence.
      assert (r1 = r) as <-.
      { case_decide; [done|]. destruct Hor as [Hn'|[->|Hf]]; [|done|by rewrite Hf in Hp].
        destruct Hn'. by left. }
      eapply W3; [apply lookup_insert_eq|by left].
    + eapply W3; [by rewrite lookup_insert_ne|]. destruct Hor as [Hn'|[->|Hf]]; [left|right; by left|right; by right].
      intros Hin. apply Hn'. by right.
Qed.

Lemma wakeup_loop_ok c ch B : forall A q s fuel,
  wake_ready c (A ++ B) q s -> (length B < fuel)%nat ->
  exists s' q', wakeup_loop run_queue process_list fuel qfuel ch c (cur process_list (map elem_at B)) s = Ret (tt, s') /\
    calm s s' /\ wake_ready c (A ++ B) q' s' /\ woke c ch B (ps_procs s) (ps_procs s') /\
    min_vruntime s <= min_vruntime s'.
Proof.
  induction B as [|p B IH]; intros A q s fuel Hw Hf; (destruct fuel as [|fuel]; [simpl in Hf; lia|]);
    cbn [wakeup_loop]; pose proof (pl_list _ _ _ (wr_plist _ _ _ _ Hw)) as Hd.
  - erewrite kbind_ret by (eapply list_read_ok, end_ok, Hd). cbn [map]. rewrite cur_nil, Z.eqb_refl.
    exists s, q. split_and!; try done. apply woke_refl.
  - erewrite kbind_ret by (eapply list_read_ok, end_ok, Hd).
    rewrite map_app in Hd. cbn [map] in Hd.
    rewrite (cur_tail (ps_links s) process_list (map elem_at A) (map elem_at (p :: B))), bool_decide_eq_false_2 by done.
    cbn [map]. rewrite cur_cons, proc_of_elem_at.
    assert (HpB : p ∉ B).
    { pose proof (d_nodup _ _ _ Hd) as Hnd. unfold nodes in Hnd. apply NoDup_cons in Hnd as [_ Hnd].
      apply NoDup_app in Hnd as [Hnd _]. apply NoDup_app in Hnd as (_ & _ & Hnd). apply NoDup_cons in Hnd as [Hnd _].
      intros Hin. apply Hnd. by apply list_elem_of_fmap_2. }
    assert (Hpin : p ∈ A ++ p :: B) by set_solver.
    destruct (pl_proc _ _ _ (wr_plist _ _ _ _ Hw) p Hpin) as [r Hr].
    assert (exists s1 q1 r1, (if p =? c then kret tt else wake_one ch p) s = Ret (tt, s1) /\ calm s s1 /\
      wake_ready c (A ++ p :: B) q1 s1 /\ ps_procs s1 = <[p := r1]> (ps_procs s) /\ min_vruntime s <= min_vruntime s1 /\
      (if decide (p = c) then r1 = r else if asleep_on ch r then woken r r1 else r1 = r))
      as (s1 & q1 & r1 & H1 & Hc1 & Hw1 & HP1 & Hm1 & Hr1).
    { destruct (Z.eqb_spec p c) as [->|Hne].
      - exists s, q, r. split; [done|]. split; [done|]. split; [done|]. rewrite insert_id by done.
        rewrite decide_True by done. done.
      - destruct (wake_one_ok c ch _ q p r s Hw Hpin Hne Hr) as (s1 & q1 & r1 & ? & ? & ? & ? & ? & ?).
        exists s1, q1, r1. rewrite decide_False by done. done. }
    unfold wake_one in H1. erewrite kbind_ret by exact H1.
    pose proof (pl_list _ _ _ (wr_plist _ _ _ _ Hw1)) as Hd1. rewrite map_app in Hd1. cbn [map] in Hd1.
    erewrite kbind_ret by (eapply list_read_ok, next_elem, Hd1).
    replace (A ++ p :: B) with ((A ++ [p]) ++ B) in Hw1 by by rewrite <- app_assoc.
    destruct (IH (A ++ [p]) q1 s1 fuel Hw1) as (s2 & q2 & H2 & Hc2 & Hw2 & Hk2 & Hm2); [simpl in Hf; lia|].
    rewrite <- app_assoc in Hw2. cbn [app] in Hw2.
    exists s2, q2. split; [exact H2|]. split; [by eapply calm_trans|]. split; [done|].
    split; [|lia]. eapply woke_cons; [exact Hr|exact HpB|exact HP1|exact Hr1|exact Hk2].
Qed.
End WakeupProofs.

(** ** [sleep] *)

Section SleepProofs.
Context (run_queue : addr) (fuel : nat).
#[local] Abbreviation queued := (queue run_queue).
#[local] Abbreviation active := (active run_queue fuel).
#[local] Abbreviation on_hart := (on_hart run_queue fuel).
#[local] Abbreviation handed := (handed run_queue fuel).

(** The process [p] runs and holds the spin lock [lk] and no other. *)
Record holds (p : addr) (lk : lockid) (q : list addr) (s : psys) : Prop := {
  ho_queue : queued (ps_links s) (ps_procs s) (min_vruntime s) q;
  ho_rq : lock_free rq_lock (ps_lk s);
  ho_cur : ps_cur s = p;
  ho_held : lock_held lk (ps_lk s);
  ho_noff : noff (hcpu (ps_lk s)) = 1;
  ho_sie : sie (hcpu (ps_lk s)) = false;
  ho_locks p' : is_Some (ps_procs s !! p') -> lock_free (proc_lock p') (ps_lk s);
  ho_size : (size (ps_procs s) < fuel)%nat
}.

(** A lock that is neither the run queue's nor a process's. *)
Definition plain (lk : lockid) : Prop := lk <> rq_lock /\ forall p, lk <> proc_lock p.

Lemma sleep_lk_plain a : plain (sleep_lk a).
Proof. by split. Qed.

Lemma acquire_plain p q lk s :
  active p q s -> plain lk -> lock_free lk (ps_lk s) ->
  exists l, lock_op (acquire lk) s = Ret (tt, put_lk l s) /\ holds p lk q (put_lk l s) /\
    intena (hcpu l) = sie (hcpu (ps_lk s)).
Proof.
  intros [[Hq Hf Hc] Hcur Hn Hlk Hsz] [Hp1 Hp2] Hfree.
  destruct (lock_enter lk s Hfree) as (l & Hl & E1 & E2 & E3).
  exists l. split; [done|]. split; [split|].
  - done.
  - unfold lock_free. cbn. rewrite E3. cbn. by rewrite set_lock_ne.
  - done.
  - unfold lock_held. cbn. rewrite E3. cbn. by rewrite set_lock_eq, E1.
  - cbn. rewrite E2. cbn. lia.
  - cbn. by rewrite E2.
  - cbn. intros p' Hp'. unfold lock_free. rewrite E3. cbn.
    rewrite set_lock_ne by (symmetry; apply Hp2). by apply Hlk.
  - done.
  - rewrite E2. unfold cpu_pushed. cbn. by rewrite Hn.
Qed.

Lemma ret_lk_inj l l' s : Ret (tt, put_lk l s) = Ret (tt, put_lk l' s) -> l' = l.
Proof. intros E. injection E. congruence. Qed.

Lemma acquire_frame lk s l :
  lock_op (acquire lk) s = Ret (tt, put_lk l s) -> lock_free lk (ps_lk s) ->
  (forall lk', lk' <> lk -> locks l lk' = locks (ps_lk s) lk') /\ hartid l = hartid (ps_lk s).
Proof.
  intros H Hf. destruct (lock_enter lk s Hf) as (l' & Hl & E1 & E2 & E3). rewrite Hl in H. apply ret_lk_inj in H as ->.
  split; [|done]. intros lk' Hne. rewrite E3. cbn. by rewrite set_lock_ne.
Qed.

Lemma release_plain p q lk s :
  holds p lk q s -> plain lk ->
  exists l, lock_op (release lk) s = Ret (tt, put_lk l s) /\ active p q (put_lk l s) /\
    lock_free lk l /\ sie (hcpu l) = intena (hcpu (ps_lk s)) /\
    (forall lk', lock_free lk' (ps_lk s) -> lock_free lk' l).
Proof.
  intros [Hq Hf Hcur Hh Hn Hs Hlk Hsz] [Hp1 Hp2].
  destruct (release_held lk (ps_lk s) Hh) as (l & Hl & E1 & E2 & E3); [lia|done|].
  assert (Hfree : forall lk', lock_free lk' (ps_lk s) -> lock_free lk' l).
  { intros lk' H'. unfold lock_free. rewrite E3. cbn. unfold set_lock. by case_decide. }
  exists l. split; [by apply lock_op_ok|]. split; [split|split_and!].
  - split; [done|by apply Hfree|]. unfold cpu_ok. cbn. rewrite E2. cbn.
    change (noff (hcpu (pm_lk (ps_pm s)))) with (noff (hcpu (ps_lk s))). rewrite Hn. split; [lia|intros; lia].
  - done.
  - cbn. rewrite E2. cbn. change (noff (hcpu (pm_lk (ps_pm s)))) with (noff (hcpu (ps_lk s))). lia.
  - cbn. intros p' Hp'. by apply Hfree, Hlk.
  - done.
  - unfold lock_free. rewrite E3. cbn. by rewrite set_lock_eq.
  - rewrite E2. cbn. change (noff (hcpu (pm_lk (ps_pm s)))) with (noff (hcpu (ps_lk s))). by rewrite Hn.
  - done.
Qed.

(** The record of a process asleep on [ch]. *)
Definition asleep (ch : addr) (r : proc) : proc := set_status SLEEPING (set_chan ch r).

Lemma sleep_enter_ok p q ch lk s r :
  holds p lk q s -> plain lk -> ps_procs s !! p = Some r ->
  exists s1, sleep_enter p ch lk s = Ret (tt, s1) /\ on_hart p s1 /\ lock_free lk (ps_lk s1) /\
    ps_procs s1 = <[p := asleep ch r]> (ps_procs s) /\ intena (hcpu (ps_lk s1)) = intena (hcpu (ps_lk s)) /\
    queued (ps_links s1) (ps_procs s1) (min_vruntime s1) q.
Proof.
  intros [Hq Hf Hcur Hh Hn Hs Hlk Hsz] [Hp1 Hp2] Hr. unfold sleep_enter.
  destruct (lock_enter (proc_lock p) s) as (l & Hl & E1 & E2 & E3); [by apply Hlk; rewrite Hr|].
  erewrite kbind_ret by exact Hl.
  destruct (release_held lk l) as (l2 & Hl2 & F1 & F2 & F3).
  { unfold lock_held. rewrite E3, E1. cbn. by rewrite set_lock_ne. }
  { rewrite E2. cbn. lia. }
  { by rewrite E2. }
  erewrite kbind_ret by exact (lock_op_ok _ (put_lk l s) _ _ Hl2).
  erewrite kbind_ret by exact (setp_ok _ p (put_lk l2 (put_lk l s)) r Hr).
  set (s2 := put_procs _ _). erewrite setp_ok by (unfold s2; cbn; apply lookup_insert_eq).
  assert (Hn2 : hcpu l2 = mkCpu 1 (intena (hcpu (ps_lk s))) false).
  { rewrite F2. cbn. rewrite E2. unfold cpu_pushed. cbn.
    change (noff (hcpu (pm_lk (ps_pm s)))) with (noff (hcpu (ps_lk s))). by rewrite Hn. }
  assert (Hlocks : forall x, x <> lk -> x <> proc_lock p -> locks l2 x = locks (ps_lk s) x).
  { intros x H1 H2. rewrite F3. cbn. rewrite set_lock_ne by done. rewrite E3. cbn. by rewrite set_lock_ne. }
  assert (HP : <[p := set_status SLEEPING (set_chan ch r)]> (<[p := set_chan ch r]> (ps_procs s)) = <[p := asleep ch r]> (ps_procs s)).
  { by rewrite insert_insert_eq. }
  eexists. split; [reflexivity|]. unfold s2. cbn [ps_procs put_procs put_lk put_pm]. rewrite HP.
  assert (Hq1 : queued (ps_links s) (<[p := asleep ch r]> (ps_procs s)) (min_vruntime s) q).
  { eapply queue_ext; [|exact Hq]. intros a. destruct (decide (a = p)) as [->|Hne].
    - rewrite lookup_insert_eq, Hr. by destruct r.
    - by rewrite lookup_insert_ne. }
  split; [split|split_and!].
  - by exists q.
  - unfold lock_free. cbn. by rewrite Hlocks.
  - done.
  - unfold lock_held. cbn. rewrite F1, F3. cbn. rewrite set_lock_ne by (symmetry; apply Hp2).
    rewrite E3, E1. cbn. by rewrite set_lock_eq.
  - cbn. by rewrite Hn2.
  - cbn. by rewrite Hn2.
  - cbn. intros p' Hp' Hne. unfold lock_free. rewrite Hlocks; [|by intros <-; eapply Hp2|congruence].
    apply Hlk. by apply (is_some_set_proc _ p r (asleep ch r)).
  - cbn. by rewrite (size_set_proc _ _ r).
  - unfold lock_free. cbn. rewrite F3. cbn. by rewrite set_lock_eq.
  - done.
  - cbn. by rewrite Hn2.
  - exact Hq1.
Qed.

Lemma sleep_leave_ok p q ie lk s :
  handed p s -> queued (ps_links s) (ps_procs s) (min_vruntime s) q -> plain lk -> lock_free lk (ps_lk s) ->
  exists s', (sched_leave ie ;; setp (set_chan 0) p ;; lock_op (acquire lk) ;; lock_op (release (proc_lock p))) s = Ret (tt, s') /\
    holds p lk q s' /\ intena (hcpu (ps_lk s')) = ie /\ exists r, ps_procs s !! p = Some r /\ ps_procs s' = <[p := set_chan 0 r]> (ps_procs s).
Proof.
  intros [[_ Hrq Hcur Hheld Hn Hs Hlk Hsz] (r & Hr & _ & Hin)] Hq [Hp1 Hp2] Hfree. unfold sched_leave.
  erewrite kbind_ret by (apply (lock_op_ok _ s tt); reflexivity). set (l0 := on_cpu _ _).
  erewrite kbind_ret by exact (setp_ok _ p (put_lk l0 s) r Hr). set (s1 := put_procs _ _).
  destruct (lock_enter lk s1 Hfree) as (l & Hl & E1 & E2 & E3). erewrite kbind_ret by exact Hl.
  destruct (release_held (proc_lock p) l) as (l2 & Hl2 & F1 & F2 & F3).
  { unfold lock_held. rewrite E3, E1. cbn. rewrite set_lock_ne by (intros <-; by eapply Hp2). exact Hheld. }
  { rewrite E2. cbn. lia. }
  { by rewrite E2. }
  rewrite (lock_op_ok _ (put_lk l s1) _ _ Hl2).
  assert (Hn2 : hcpu l2 = mkCpu 1 ie false).
  { rewrite F2. cbn. rewrite E2. unfold cpu_pushed. cbn. change (noff (hcpu (pm_lk (ps_pm s)))) with (noff (hcpu (ps_lk s))).
    by rewrite Hn. }
  assert (Hlocks : forall x, x <> lk -> x <> proc_lock p -> locks l2 x = locks (ps_lk s) x).
  { intros x H1 H2. rewrite F3. cbn. rewrite set_lock_ne by done. rewrite E3. cbn. by rewrite set_lock_ne. }
  eexists. split; [reflexivity|]. split; [split|split].
  - cbn. eapply queue_ext; [|exact Hq]. intros a. destruct (decide (a = p)) as [->|Hne].
    + rewrite lookup_insert_eq, Hr. by destruct r.
    + by rewrite lookup_insert_ne.
  - unfold lock_free. cbn. by rewrite Hlocks.
  - done.
  - unfold lock_held. cbn. rewrite F1, F3. cbn. rewrite set_lock_ne by apply Hp2.
    rewrite E3, E1. cbn. by rewrite set_lock_eq.
  - cbn. by rewrite Hn2.
  - cbn. by rewrite Hn2.
  - cbn. intros p' Hp'. unfold lock_free. destruct (decide (p' = p)) as [->|Hne].
    + rewrite F3. cbn. by rewrite set_lock_eq.
    + rewrite Hlocks; [|by intros <-; eapply Hp2|congruence]. apply Hlk; [|done].
      by apply (is_some_set_proc _ p r (set_chan 0 r)).
  - cbn. by rewrite (size_set_proc _ _ r).
  - cbn. by rewrite Hn2.
  - by exists r.
Qed.

(** [sleep] releases [lk], switches in the state the contract of the scheduler
    asks for, and takes [lk] again. *)
Lemma sleep_ok {S} `{Sync S} (swtch : K S unit) p q ch lk (s : S) r :
  holds p lk q (lget (T := psys) s) -> plain lk -> ps_procs (lget (T := psys) s) !! p = Some r ->
  exists s1, on_hart p s1 /\ lock_free lk (ps_lk s1) /\
    ps_procs s1 = <[p := asleep ch r]> (ps_procs (lget (T := psys) s)) /\
    queued (ps_links s1) (ps_procs s1) (min_vruntime s1) q /\
    forall s2, swtch (lput (T := psys) s1 s) = Ret (tt, s2) -> handed p (lget (T := psys) s2) -> lock_free lk (ps_lk (lget (T := psys) s2)) ->
    forall q2, queued (ps_links (lget (T := psys) s2)) (ps_procs (lget (T := psys) s2)) (min_vruntime (lget (T := psys) s2)) q2 ->
      exists s3, sleep swtch ch lk s = Ret (tt, lput (T := psys) s3 s2) /\ holds p lk q2 s3 /\
        intena (hcpu (ps_lk s3)) = intena (hcpu (ps_lk (lget (T := psys) s))) /\
        exists r2, ps_procs (lget (T := psys) s2) !! p = Some r2 /\ ps_procs s3 = <[p := set_chan 0 r2]> (ps_procs (lget (T := psys) s2)).
Proof.
  intros Hh Hp Hr. destruct (sleep_enter_ok p q ch lk (lget (T := psys) s) r Hh Hp Hr) as (s1 & H1 & Hon & Hf1 & HP1 & Hie & Hq1).
  exists s1. do 4 (split; [done|]). intros s2 Hsw Hhd Hf2 q2 Hq2.
  destruct (sleep_leave_ok p q2 (intena (hcpu (ps_lk s1))) lk (lget (T := psys) s2) Hhd Hq2 Hp Hf2) as (s3 & H3 & Hh3 & Hie3 & Hr3).
  exists s3. split; [|split; [done|split; [congruence|done]]].
  unfold sleep. erewrite kbind_ret by (by apply via_ret). rewrite (ho_cur _ _ _ _ Hh), lput_lget.
  erewrite kbind_ret by (apply via_ret; exact H1).
  unfold sched. rewrite kbind_assoc.
  erewrite kbind_ret by (apply via_ret; rewrite lget_lput; eapply sched_enter_ok;
    [exact Hon|rewrite HP1; apply lookup_insert_eq|by destruct r]).
  rewrite lput_lput, kbind_assoc. erewrite kbind_ret by exact Hsw.
  apply kbind_inv in H3 as ([] & t1 & T1 & H3). apply kbind_inv in H3 as ([] & t2 & T2 & H3).
  apply kbind_inv in H3 as ([] & t3 & T3 & H3).
  erewrite kbind_ret by (apply via_ret; exact T1).
  erewrite kbind_ret by (apply via_ret; rewrite lget_lput; exact T2).
  erewrite kbind_ret by (apply via_ret; rewrite lget_lput; exact T3).
  erewrite via_ret by (rewrite lget_lput; exact H3). by rewrite !lput_lput.
Qed.
End SleepProofs.

(** ** Sleep locks *)

Section SleeplockProofs.
Context (run_queue : addr) (fuel : nat) {S : Type} `{Sync S} (swtch : K S unit).
Context (p a : addr).
#[local] Abbreviation active := (active run_queue fuel).
#[local] Abbreviation psof := (lget (T := psys)).
#[local] Abbreviation syof := (lget (T := syncst)).
#[local] Abbreviation holds := (holds run_queue fuel p (sleep_lk a)).

(** [p] is switched out in [acquiresleeplock], and switched back to. *)
Definition waiting (s : S) : Prop :=
  on_hart run_queue fuel p (psof s) /\ lock_free (sleep_lk a) (ps_lk (psof s)) /\
  (exists r, ps_procs (psof s) !! p = Some r /\ status r = SLEEPING /\ chan r = a /\ in_run_queue r = false) /\
  exists l, sy_locks (syof s) !! a = Some l /\ sl_locked l = true.
Definition resumed (s : S) : Prop :=
  handed run_queue fuel p (psof s) /\ lock_free (sleep_lk a) (ps_lk (psof s)) /\
  is_Some (sy_locks (syof s) !! a).

(** The rest of the system while [p] waits: it switches back to [p], and the
    number of times it does so with the lock still held is bounded by a rank. *)
Class Releases (rank : S -> nat) : Prop := {
  rank_ps (x : psys) s : rank (lput x s) = rank s;
  releases s : waiting s -> exists s', swtch s = Ret (tt, s') /\ resumed s' /\
    (forall l, sy_locks (syof s') !! a = Some l -> sl_locked l = true -> (rank s' < rank s)%nat)
}.

Lemma sl_get_ok (s : S) l : sy_locks (syof s) !! a = Some l -> via (sl_get a) s = Ret (l, s).
Proof. intros Hl. rewrite (via_ret _ _ l (syof s)); [by rewrite lput_lget|]. unfold sl_get. by rewrite Hl. Qed.

(** [p] is a process outside the run queue. *)
Definition off_queue (s : psys) : Prop := exists r, ps_procs s !! p = Some r /\ in_run_queue r = false.

(** From [s] to [t] the process sleeps [k] times: each time the lock is held and
    the hart goes to the others, with the process asleep on the lock and its
    spin lock free; in [t], where they left it the last time, the lock is free.
    Between two hand-overs only the state of the processes and of the spin locks
    changes. *)
Inductive waits : nat -> S -> S -> Prop :=
| waits_free s l : sy_locks (syof s) !! a = Some l -> sl_locked l = false -> waits 0 s s
| waits_turn k s l x u t : sy_locks (syof s) !! a = Some l -> sl_locked l = true ->
    waiting (lput (x : psys) s) -> swtch (lput x s) = Ret (tt, u) -> waits k u t -> waits (Datatypes.S k) s t.
Lemma waits_from k (y : psys) s t : waits k (lput y s) t -> exists t', waits k s t' /\ forall z : psys, lput z t = lput z t'.
Proof.
  intros Hws. inversion Hws as [s0 l Hl Hf|k0 s0 l x u t0 Hl Hf Hw Hsw Hk]; subst; rewrite sync_ps_st in Hl.
  - exists s. split; [by eapply waits_free|]. intros z. by rewrite lput_lput.
  - rewrite lput_lput in Hw, Hsw. exists t. split; [by eapply waits_turn|done].
Qed.

Lemma await_ok rank `{!Releases rank} n : forall s q l,
  holds q (psof s) -> off_queue (psof s) -> sy_locks (syof s) !! a = Some l -> (rank s < n)%nat ->
  exists s' q' l' k t x, await_unlocked swtch (Datatypes.S n) a s = Ret (tt, s') /\ holds q' (psof s') /\
    off_queue (psof s') /\ sy_locks (syof s') !! a = Some l' /\ sl_locked l' = false /\
    intena (hcpu (ps_lk (psof s'))) = intena (hcpu (ps_lk (psof s))) /\
    waits k s t /\ (k <= rank s + 1)%nat /\ s' = lput (x : psys) t.
Proof.
  induction n as [|n IH]; intros s q l Hh (r & Hr & Hin) Hl Hn; [lia|]. cbn [await_unlocked].
  erewrite kbind_ret by by apply sl_get_ok. destruct (sl_locked l) eqn:Hlk; last first.
  { exists s, q, l, 0%nat, s, (psof s). do 2 (split; [done|]). split; [by exists r|]. do 3 (split; [done|]).
    split; [by eapply waits_free|]. split; [lia|]. by rewrite lput_lget. }
  destruct (sleep_ok run_queue fuel swtch p q a (sleep_lk a) s r Hh (sleep_lk_plain a) Hr)
    as (s1 & Hon & Hf1 & HP1 & Hq1 & Hrest).
  assert (Hwait : waiting (lput s1 s)).
  { split; [by rewrite lget_lput|]. split; [by rewrite lget_lput|]. split.
    - exists (asleep a r). rewrite lget_lput, HP1, lookup_insert_eq. destruct r. done.
    - exists l. by rewrite sync_ps_st. }
  destruct (releases (lput s1 s) Hwait) as (s2 & Hsw & (Hhd & Hf2 & (l2 & Hl2)) & Hrk).
  assert (exists q2, queue run_queue (ps_links (psof s2)) (ps_procs (psof s2)) (min_vruntime (psof s2)) q2) as [q2 Hq2]
    by apply Hhd.
  destruct (Hrest s2 Hsw Hhd Hf2 q2 Hq2) as (s3 & H3 & Hh3 & Hie3 & r2 & Hr2 & HP3).
  assert (Hp3 : off_queue s3).
  { exists (set_chan 0 r2). rewrite HP3, lookup_insert_eq. split; [done|].
    destruct Hhd as [_ (r2' & Hr2' & _ & Hin2)]. assert (r2' = r2) as -> by congruence. by destruct r2. }
  erewrite kbind_ret by exact H3.
  destruct (sl_locked l2) eqn:Hlk2.
  - assert (Hr3 : (rank (lput s3 s2) < n)%nat).
    { rewrite rank_ps. specialize (Hrk l2 Hl2 Hlk2). rewrite rank_ps in Hrk. lia. }
    destruct (IH (lput s3 s2) q2 l2) as (s4 & q4 & l4 & k & t & x & H4 & Hh4 & Hp4 & Hl4 & Hu4 & Hie4 & Hw & Hk & E4);
      [by rewrite lget_lput|by rewrite lget_lput|by rewrite sync_ps_st|done|].
    destruct (waits_from _ _ _ _ Hw) as (t' & Hw' & Et). rewrite Et in E4. specialize (Hrk l2 Hl2 Hlk2). rewrite rank_ps in Hrk, Hk.
    exists s4, q4, l4, (Datatypes.S k), t', x. split; [exact H4|]. do 4 (split; [done|]). rewrite lget_lput in Hie4. split; [congruence|].
    split; [by eapply (waits_turn k s l s1)|]. split; [lia|done].
  - cbn [await_unlocked]. erewrite kbind_ret by (apply sl_get_ok; by rewrite sync_ps_st). rewrite Hlk2.
    exists (lput s3 s2), q2, l2, 1%nat, s2, s3. rewrite !lget_lput, sync_ps_st. do 6 (split; [done|]).
    split; [|split; [lia|done]]. eapply waits_turn; [done|done| |exact Hsw|by eapply waits_free]. exact Hwait.
Qed.

Lemma sl_set_ok f (s : S) l : sy_locks (syof s) !! a = Some l ->
  via (sl_set a f) s = Ret (tt, lput (put_sl a (f l) (syof s)) s).
Proof. intros Hl. apply via_ret. unfold sl_set. by rewrite Hl. Qed.

(** C26. [acquiresleeplock] terminates and acquires: called by a running
    process that holds no spin lock, it sleeps as long as another process
    holds the lock ([waits]: its spin lock is free meanwhile, so that the holder
    can release it), and if the others let it run with the lock still held at
    most [rank s] times, it returns. The lock it then holds in its name is taken
    from the state [t] in which it saw the lock free, and in no state before: at
    the call if it is free there, else after the last of the [k] hand-overs; the
    other sleep locks are as in [t]. Every spin lock is released and interrupts
    are as they were at the call. *)
Theorem acquiresleeplock_acquires rank `{!Releases rank} n s q l :
  active p q (psof s) -> off_queue (psof s) -> lock_free (sleep_lk a) (ps_lk (psof s)) ->
  sy_locks (syof s) !! a = Some l -> (rank s < n)%nat ->
  exists s' q' r', acquiresleeplock swtch (Datatypes.S n) a s = Ret (tt, s') /\
    ps_procs (psof s') !! p = Some r' /\
    (exists k t (x y : psys), waits k s t /\ (k <= rank s + 1)%nat /\
      s' = lput y (lput (put_sl a (mkSleeplock true (pid r')) (syof t)) (lput x t))) /\
    active p q' (psof s') /\ lock_free (sleep_lk a) (ps_lk (psof s')) /\
    sie (hcpu (ps_lk (psof s'))) = sie (hcpu (ps_lk (psof s))).
Proof.
  intros Ha Hp Hf Hl Hn. unfold acquiresleeplock.
  destruct (acquire_plain run_queue fuel p q (sleep_lk a) (psof s) Ha (sleep_lk_plain a) Hf) as (k & Hk & Hh & Hie).
  erewrite kbind_ret by (apply via_ret; exact Hk).
  destruct (await_ok rank n (lput (put_lk k (psof s)) s) q l) as (s2 & q2 & l2 & k2 & t & x2 & H2 & Hh2 & (r2 & Hr2 & _) & Hl2 & Hu2 & Hie2 & Hw & Hk2 & E2);
    [by rewrite lget_lput|by rewrite lget_lput|by rewrite sync_ps_st|by rewrite rank_ps|].
  erewrite kbind_ret by exact H2. erewrite kbind_ret by by apply sl_set_ok.
  set (s3 := lput _ s2).
  assert (Hgp : via getpid s3 = Ret (pid r2, s3)).
  { rewrite (via_ret _ _ (pid r2) (psof s3)); [by rewrite lput_lget|]. unfold getpid. krun. unfold s3.
    rewrite sync_st_ps, (ho_cur _ _ _ _ _ _ Hh2). by apply getp_ok. }
  erewrite kbind_ret by exact Hgp.
  assert (Hl3 : sy_locks (syof s3) !! a = Some (mkSleeplock true (sl_pid l2))).
  { unfold s3. rewrite lget_lput. cbn. by rewrite lookup_insert_eq. }
  erewrite kbind_ret by (apply sl_set_ok; exact Hl3). cbn [sl_locked]. set (s4 := lput _ s3).
  assert (Hps : psof s4 = psof s2) by (unfold s4, s3; by rewrite !sync_st_ps).
  rewrite <- Hps in Hh2, Hr2.
  destruct (release_plain run_queue fuel p q2 (sleep_lk a) (psof s4) Hh2 (sleep_lk_plain a)) as (k5 & H5 & Ha5 & Hf5 & Hs5 & _).
  exists (lput (put_lk k5 (psof s4)) s4), q2, r2. split; [by apply via_ret|].
  rewrite !lget_lput. split; [done|]. split; [|split; [done|split; [done|]]].
  - destruct (waits_from _ _ _ _ Hw) as (t' & Hw' & Et). rewrite Et in E2. rewrite rank_ps in Hk2. exists k2, t', x2, (put_lk k5 (psof s4)). split; [done|]. split; [done|]. f_equal.
    unfold s4, s3. rewrite lput_lput, lget_lput, E2, sync_ps_st. unfold put_sl. cbn. by rewrite insert_insert_eq.
  - cbn. rewrite Hs5, Hps, Hie2, lget_lput. cbn. exact Hie.
Qed.
End SleeplockProofs.

(** ** Releasing *)

Section Release.
Context (run_queue process_list : addr) (fuel qfuel : nat).
#[local] Abbreviation psof := (lget (T := psys)).
#[local] Abbreviation syof := (lget (T := syncst)).
#[local] Abbreviation wake_ready := (wake_ready run_queue process_list qfuel).

Lemma wakeup_ok c ch xs q s :
  wake_ready c xs q s -> ps_cur s = c -> (length xs < fuel)%nat ->
  exists s' q', wakeup run_queue process_list fuel qfuel ch s = Ret (tt, s') /\ calm s s' /\
    wake_ready c xs q' s' /\ woke c ch xs (ps_procs s) (ps_procs s') /\ min_vruntime s <= min_vruntime s'.
Proof.
  intros Hw Hc Hf. unfold wakeup. krun. rewrite Hc.
  erewrite kbind_ret by (eapply list_read_ok, begin_ok, (pl_list _ _ _ _ _ (wr_plist _ _ _ _ _ _ _ Hw))).
  by apply (wakeup_loop_ok run_queue process_list qfuel c ch xs [] q s fuel Hw).
Qed.

(** C35. [wakeup] makes every process asleep on the channel, except the
    caller, RUNNABLE and queues it where its virtual run time belongs; it
    changes no other process, keeps the run queue and the process list well
    formed, and leaves the locks and interrupts as they were. *)
Theorem wakeup_wakes ch xs q s :
  wake_ready (ps_cur s) xs q s -> (length xs < fuel)%nat ->
  exists s' q', wakeup run_queue process_list fuel qfuel ch s = Ret (tt, s') /\
    woke (ps_cur s) ch xs (ps_procs s) (ps_procs s') /\
    (forall p r, p ∈ xs -> p <> ps_cur s -> ps_procs s !! p = Some r -> asleep_on ch r = true -> p ∈ q') /\
    wake_ready (ps_cur s) xs q' s' /\ calm s s'.
Proof.
  intros Hw Hf. destruct (wakeup_ok (ps_cur s) ch xs q s Hw eq_refl Hf) as (s' & q' & H & Hc & Hw' & Hk & _).
  exists s', q'. split; [done|]. split; [done|]. split; [|done].
  intros p r Hp Hne Hr Has. destruct (wk_yes _ _ _ _ _ Hk p r Hr Hp Hne Has) as (r' & Hr' & v & _ & ->).
  apply (q_flag _ _ _ _ _ (rq_queue _ _ _ (wr_rq _ _ _ _ _ _ _ Hw')) p _ Hr'). by destruct r.
Qed.

Context {S : Type} `{Sync S}.

Lemma releasesleeplock_ok p a xs q (s : S) l :
  active run_queue qfuel p q (psof s) -> wake_ready p xs q (psof s) ->
  lock_free (sleep_lk a) (ps_lk (psof s)) -> sy_locks (syof s) !! a = Some l -> (length xs < fuel)%nat ->
  exists s' q', releasesleeplock run_queue process_list fuel qfuel a s = Ret (tt, s') /\
    syof s' = put_sl a (mkSleeplock false (-1)) (syof s) /\
    woke p a xs (ps_procs (psof s)) (ps_procs (psof s')) /\
    active run_queue qfuel p q' (psof s') /\ lock_free (sleep_lk a) (ps_lk (psof s')) /\
    sie (hcpu (ps_lk (psof s'))) = sie (hcpu (ps_lk (psof s))) /\
    plist run_queue process_list (ps_links (psof s')) (ps_procs (psof s')) xs /\
    (forall lk, lock_free lk (ps_lk (psof s)) -> lock_free lk (ps_lk (psof s'))) /\
    pm_mem (ps_pm (psof s')) = pm_mem (ps_pm (psof s)) /\
    (forall A (f : S -> A), (forall (x : psys) s, f (lput x s) = f s) -> (forall (x : syncst) s, f (lput x s) = f s) -> f s' = f s).
Proof.
  intros Ha [Hrq Hpl Hfr Hsz] Hf Hl Hx. unfold releasesleeplock.
  destruct (acquire_plain run_queue qfuel p q (sleep_lk a) (psof s) Ha (sleep_lk_plain a) Hf) as (k & Hk & Hh & Hie).
  erewrite kbind_ret by (apply via_ret; exact Hk). set (s1 := lput (put_lk k (psof s)) s).
  assert (Hl1 : sy_locks (syof s1) !! a = Some l) by (unfold s1; by rewrite sync_ps_st).
  erewrite kbind_ret by (apply sl_set_ok; exact Hl1). set (s2 := lput (put_sl a _ (syof s1)) s1).
  assert (Hl2 : sy_locks (syof s2) !! a = Some (mkSleeplock false (sl_pid l))).
  { unfold s2. rewrite lget_lput. cbn. by rewrite lookup_insert_eq. }
  erewrite kbind_ret by (apply sl_set_ok; exact Hl2). cbn [sl_locked]. set (s3 := lput (put_sl a _ (syof s2)) s2).
  assert (Hps : psof s3 = put_lk k (psof s)) by (unfold s3, s2, s1; by rewrite !sync_st_ps, lget_lput).
  assert (Hw : wake_ready p xs q (psof s3)).
  { rewrite Hps. destruct Hh as [Hq1 Hf1 _ _ Hn1 Hs1 Hlk1 _]. split; [|exact Hpl| |exact Hsz].
    - split; [exact Hq1|exact Hf1|]. unfold cpu_ok. rewrite Hn1, Hs1. split; [lia|done].
    - intros p' Hp' _. apply Hlk1. by apply (pl_proc _ _ _ _ _ Hpl). }
  assert (Hcur : ps_cur (psof s3) = p) by (rewrite Hps; apply Hh).
  destruct (wakeup_ok p a xs q (psof s3) Hw Hcur Hx) as (t & q' & Ht & Hc & Hw' & Hk' & _).
  erewrite kbind_ret by (apply via_ret; exact Ht).
  destruct Hc as (C1 & _ & Cm & _ & (R1 & R2 & R3 & R4 & R5)).
  assert (Hht : holds run_queue qfuel p (sleep_lk a) q' t).
  { rewrite Hps in R1, R2, R3, R5. destruct Hh as [_ _ _ Hheld Hn1 Hs1 Hlk1 _]. destruct Hw' as [[Hq' Hf' _] Hpl' _ Hsz'].
    split; [exact Hq'|exact Hf'|congruence| | | | |exact Hsz'].
    - unfold lock_held. by rewrite R1, R5.
    - congruence.
    - congruence.
    - intros p' Hp'. unfold lock_free. rewrite R5. apply Hlk1. cbn.
      destruct (ps_procs (psof s) !! p') eqn:E; [by eexists|]. exfalso.
      rewrite Hps in Hk'. rewrite (wk_dom _ _ _ _ _ Hk' p' E) in Hp'. by destruct Hp'. }
  destruct (release_plain run_queue qfuel p q' (sleep_lk a) t Hht (sleep_lk_plain a)) as (k5 & H5 & Ha5 & Hf5 & Hs5 & Hfree5).
  exists (lput (put_lk k5 t) (lput t s3)), q'.
  split; [erewrite via_ret by (rewrite lget_lput; exact H5); done|].
  rewrite lget_lput, !sync_ps_st. split.
  { unfold s3, s2, s1. rewrite !lget_lput, !sync_ps_st. unfold put_sl. cbn. by rewrite insert_insert_eq. }
  rewrite Hps in Hk'. split; [exact Hk'|]. split; [exact Ha5|]. split; [exact Hf5|].
  split; [cbn; rewrite Hs5, R4, Hps; [exact Hie|]; rewrite Hps; pose proof (ho_noff _ _ _ _ _ _ Hh); lia|].
  split; [apply Hw'|]. split.
  - intros lk' Hlk'. destruct (decide (lk' = sleep_lk a)) as [->|Hne]; [done|]. apply Hfree5.
    unfold lock_free. rewrite R5, Hps. destruct (acquire_frame _ _ _ Hk Hf) as [Hfr' _]. cbn. by rewrite Hfr'.
  - split; [cbn; by rewrite Cm, Hps|]. intros A f F1 F2. unfold s3, s2, s1. by rewrite !F1, !F2, F1.
Qed.

(** [releasesleeplock] frees the sleep lock, clears its owner and wakes
    every process asleep on it, all under its spin lock; on return no spin
    lock is held and interrupts are as they were. *)
Theorem releasesleeplock_releases p a xs q (s : S) l :
  active run_queue qfuel p q (psof s) -> wake_ready p xs q (psof s) ->
  lock_free (sleep_lk a) (ps_lk (psof s)) -> sy_locks (syof s) !! a = Some l -> (length xs < fuel)%nat ->
  exists s' q', releasesleeplock run_queue process_list fuel qfuel a s = Ret (tt, s') /\
    syof s' = put_sl a (mkSleeplock false (-1)) (syof s) /\
    woke p a xs (ps_procs (psof s)) (ps_procs (psof s')) /\
    active run_queue qfuel p q' (psof s') /\ lock_free (sleep_lk a) (ps_lk (psof s')) /\
    sie (hcpu (ps_lk (psof s'))) = sie (hcpu (ps_lk (psof s))).
Proof.
  intros Ha Hw Hf Hl Hx. destruct (releasesleeplock_ok p a xs q s l Ha Hw Hf Hl Hx) as (s' & q' & H1 & H2 & H3 & H4 & H5 & H6 & _).
  by exists s', q'.
Qed.
End Release.

(** ** Semaphores *)

Section Semaphore.
Context (run_queue process_list : addr) (qfuel : nat) {S : Type} `{Sync S} (swtch : K S unit).
#[local] Abbreviation psof := (lget (T := psys)).
#[local] Abbreviation syof := (lget (T := syncst)).

Lemma sema_get_ok (s : S) a v : sy_semas (syof s) !! a = Some v -> via (sema_get a) s = Ret (v, s).
Proof. intros Hl. rewrite (via_ret _ _ v (syof s)); [by rewrite lput_lget|]. unfold sema_get. by rewrite Hl. Qed.

Definition lk_pushed (l : lockst) : lockst := mkLockst (hartid l) (cpu_pushed (hcpu l)) (locks l).

Lemma push_off_ok (s : S) : via (lock_op push_off) s = Ret (tt, lput (put_lk (lk_pushed (ps_lk (psof s))) (psof s)) s).
Proof. apply via_ret. apply lock_op_ok. apply push_off_spec. Qed.

Lemma pop_off_ok (s : S) l :
  ps_lk (psof s) = lk_pushed l -> cpu_ok (hcpu l) ->
  exists l', via (lock_op pop_off) s = Ret (tt, lput (put_lk l' (psof s)) s) /\ lk_restored l l'.
Proof.
  intros Hl [Hn Hs]. eexists. split.
  - apply via_ret, lock_op_ok. rewrite Hl. apply pop_off_spec; cbn; [lia|done].
  - split_and!; cbn; try done; try lia.
    + destruct (Z.eqb_spec (noff (hcpu l) + 1 - 1) 0); cbn; [by rewrite (proj2 (Z.eqb_eq _ _)) by lia|].
      symmetry. apply Hs. lia.
    + intros Hp. by rewrite (proj2 (Z.eqb_neq _ 0)) by lia.
Qed.

(** The assertion of a semaphore operation. *)
Lemma sema_assert_ok (s : S) sema :
  sema <> 0 -> via (lock_op (kassert (negb (sema =? 0)))) s = Ret (tt, s).
Proof.
  intros Hs. rewrite (via_ret _ _ tt (psof s)); [by rewrite lput_lget|].
  rewrite (proj2 (Z.eqb_neq _ 0) Hs). unfold lock_op, zoom. cbn. unfold put_lk, put_pm. by destruct (psof s) as [[]].
Qed.

(** The end of both operations, entered from [s0] by [push_off]. *)
Lemma sema_store_ok (s s0 : S) sema w :
  ps_lk (psof s) = lk_pushed (ps_lk (psof s0)) -> cpu_ok (hcpu (ps_lk (psof s0))) ->
  exists s', (via (sema_set sema w) ;; via (lock_op pop_off)) s = Ret (tt, s') /\
    syof s' = put_sema sema w (syof s) /\ exists l, psof s' = put_lk l (psof s) /\ lk_restored (ps_lk (psof s0)) l.
Proof.
  intros Hl Hc. erewrite kbind_ret by (by apply via_ret). set (s2 := lput _ s).
  assert (Hp : psof s2 = psof s) by apply sync_st_ps.
  destruct (pop_off_ok s2 (ps_lk (psof s0))) as (l' & Hl' & R); [by rewrite Hp|done|].
  eexists. split; [exact Hl'|]. rewrite sync_ps_st, lget_lput, Hp. split; [unfold s2; by rewrite lget_lput|].
  by exists l'.
Qed.

(** A semaphore counts: with a positive value [sema_down] takes one from
    it at once and never sleeps, whatever the other processes would do; with
    no waiter [sema_up] adds one, modulo the width of unsigned; both change
    nothing else and leave locks and interrupts as they were. *)
Theorem semaphore_counts n fuel sema v (s : S) :
  sema <> 0 -> sy_semas (syof s) !! sema = Some v -> 0 <= v < 2 ^ 32 -> cpu_ok (hcpu (ps_lk (psof s))) ->
  (0 < v -> exists s', sema_down run_queue swtch qfuel (Datatypes.S n) sema s = Ret (tt, s') /\
     syof s' = put_sema sema (v - 1) (syof s) /\
     exists l, psof s' = put_lk l (psof s) /\ lk_restored (ps_lk (psof s)) l) /\
  (dlist (ps_links (psof s)) (waiters_of sema) [] ->
   exists s', sema_up run_queue process_list fuel qfuel sema s = Ret (tt, s') /\
     syof s' = put_sema sema ((v + 1) mod 2 ^ 32) (syof s) /\
     exists l, psof s' = put_lk l (psof s) /\ lk_restored (ps_lk (psof s)) l).
Proof.
  intros Hs Hv Hr Hc. set (s1 := lput (put_lk (lk_pushed (ps_lk (psof s))) (psof s)) s).
  assert (Hp1 : psof s1 = put_lk (lk_pushed (ps_lk (psof s))) (psof s)) by apply lget_lput.
  assert (Hy1 : syof s1 = syof s) by apply sync_ps_st.
  assert (Hv1 : sy_semas (syof s1) !! sema = Some v) by by rewrite Hy1.
  assert (Hend : forall w, exists s', (via (sema_set sema w) ;; via (lock_op pop_off)) s1 = Ret (tt, s') /\
     syof s' = put_sema sema w (syof s) /\ exists l, psof s' = put_lk l (psof s) /\ lk_restored (ps_lk (psof s)) l).
  { intros w. destruct (sema_store_ok s1 s sema w) as (s' & H' & Hy' & l & Hl & R); [by rewrite Hp1|done|].
    exists s'. rewrite Hy1 in Hy'. rewrite Hp1 in Hl. eauto. }
  split.
  - intros Hpos. destruct (Hend (u32 (v - 1))) as (s' & H' & Hy' & Hl'). rewrite u32_small in Hy' by lia.
    exists s'. split; [|done]. unfold sema_down. erewrite kbind_ret by exact (push_off_ok s). fold s1.
    erewrite kbind_ret by by apply sema_assert_ok. cbn [await_positive].
    rewrite kbind_assoc. erewrite kbind_ret by by apply sema_get_ok.
    rewrite (proj2 (Z.eqb_neq v 0)) by lia. krun. erewrite kbind_ret by by apply sema_get_ok. exact H'.
  - intros Hd. destruct (Hend (u32 (v + 1))) as (s' & H' & Hy' & Hl').
    exists s'. split; [|done]. unfold sema_up. erewrite kbind_ret by exact (push_off_ok s). fold s1.
    erewrite kbind_ret by by apply sema_assert_ok.
    assert (He : via (list_op (list_empty (waiters_of sema))) s1 = Ret (true, s1)).
    { rewrite (via_ret _ _ true (psof s1)); [by rewrite lput_lget|]. apply list_read_ok. rewrite Hp1. cbn.
      rewrite (list_empty_ok _ _ [] Hd). by rewrite bool_decide_eq_true_2. }
    erewrite kbind_ret by exact He. cbn [negb kwhen]. krun.
    erewrite kbind_ret by by apply sema_get_ok. exact H'.
Qed.

(** [yield] called with interrupts already pushed off. *)
Lemma yield_nested p q t r :
  rq_ready run_queue t q -> ps_cur t = p -> ps_procs t !! p = Some r -> lock_free (proc_lock p) (ps_lk t) ->
  0 < noff (hcpu (ps_lk t)) -> (size (ps_procs t) < qfuel)%nat ->
  exists t', yield_enter run_queue qfuel p t = Ret (tt, t') /\ sched_enter t' = Panic "sched locks".
Proof.
  intros [Hq Hf Hc] Hcur Hr Hfree Hn Hsz. unfold yield_enter.
  destruct (lock_enter (proc_lock p) t Hfree) as (l & Hl & E1 & E2 & E3).
  erewrite kbind_ret by exact Hl. erewrite kbind_ret by exact (setp_ok _ _ (put_lk l t) r Hr).
  set (s1 := put_procs _ _). set (r1 := set_status RUNNABLE r).
  assert (Hr1 : ps_procs s1 !! p = Some r1) by apply lookup_insert_eq.
  assert (Hrq1 : rq_ready run_queue s1 q).
  { split; [by apply queue_set_status| |].
    - unfold lock_free. cbn. rewrite E3. cbn. by rewrite set_lock_ne.
    - unfold cpu_ok. cbn. rewrite E2. cbn. destruct Hc. split; [lia|done]. }
  pose proof (queue_length _ _ _ _ _ Hq) as Hlen.
  destruct (rb_push_back_ok run_queue s1 q p r1 qfuel Hrq1 Hr1) as (s2 & H2 & Hcalm & _); [lia|].
  destruct Hcalm as (C1 & _ & _ & _ & (R1 & R2 & R3 & R4 & R5)).
  exists s2. split; [done|]. unfold sched_enter. krun. rewrite C1. change (ps_cur s1) with (ps_cur t). rewrite Hcur.
  erewrite kbind_ret by (apply (zoom_ret ps_lk put_lk (holding (proc_lock p))); reflexivity).
  assert (Hput : put_lk (ps_lk s2) s2 = s2) by (by destruct s2 as [[]]). rewrite Hput.
  assert (Hh : holding_in (hartid (ps_lk s2)) (locks (ps_lk s2) (proc_lock p)) = true).
  { rewrite R1, R5. cbn. rewrite E3, E1. cbn. rewrite set_lock_eq. unfold holding_in. cbn.
    by rewrite bool_decide_eq_true_2. }
  rewrite Hh. cbn [negb kwhen]. krun.
  erewrite kbind_ret by (apply (zoom_ret ps_lk put_lk (kget (fun l => noff (hcpu l)))); reflexivity).
  rewrite R2. cbn. rewrite E2. cbn. rewrite (proj2 (Z.eqb_neq _ 1)); [done|].
  change (noff (hcpu (pm_lk (ps_pm t)))) with (noff (hcpu (ps_lk t))). lia.
Qed.

(** [sema_down] on an empty semaphore never sleeps: it panics. It calls
    [yield] inside its [push_off] section, so [sched] finds a nesting depth of
    two and panics "sched locks", whatever the other processes would do. *)
Theorem sema_down_empty_panics n p q r ws sema (s : S) :
  active run_queue qfuel p q (psof s) -> ps_procs (psof s) !! p = Some r ->
  sema <> 0 -> sy_semas (syof s) !! sema = Some 0 ->
  dlist (ps_links (psof s)) (waiters_of sema) ws ->
  live (ps_links (psof s)) (elem_at p) -> elem_at p <> NULL -> elem_at p ∉ nodes (waiters_of sema) ws ->
  nodes run_queue (map sched_elem_at q) ## elem_at p :: nodes (waiters_of sema) ws ->
  sema_down run_queue swtch qfuel (Datatypes.S n) sema s = Panic "sched locks".
Proof.
  intros [[Hq Hf Hc] Hcur Hn Hlk Hsz] Hr Hs Hv Hw Hlive Hnn Hni Hdj.
  unfold sema_down. erewrite kbind_ret by exact (push_off_ok s).
  set (s1 := lput (put_lk (lk_pushed (ps_lk (psof s))) (psof s)) s).
  assert (Hp1 : psof s1 = put_lk (lk_pushed (ps_lk (psof s))) (psof s)) by apply lget_lput.
  assert (Hv1 : sy_semas (syof s1) !! sema = Some 0) by (unfold s1; by rewrite sync_ps_st).
  erewrite kbind_ret by by apply sema_assert_ok. cbn [await_positive].
  rewrite kbind_assoc. erewrite kbind_ret by by apply sema_get_ok. rewrite Z.eqb_refl.
  rewrite kbind_assoc. erewrite kbind_ret by (by apply via_ret). rewrite lput_lget, Hp1. cbn [ps_cur put_lk put_pm]. rewrite Hcur.
  destruct (push_back_ok (ps_links (psof s)) _ ws (elem_at p) Hw Hlive Hnn Hni) as (L & HL & _ & Hu).
  rewrite kbind_assoc. erewrite kbind_ret by (apply via_ret; rewrite Hp1; apply list_op_ok; exact HL).
  set (t2 := put_links L _). rewrite kbind_assoc. unfold yield.
  rewrite kbind_assoc. erewrite kbind_ret by (by apply via_ret). rewrite lget_lput, lput_lput.
  change (ps_cur t2) with (ps_cur (psof s)). rewrite Hcur.
  assert (Hdom : forall a, is_Some (ps_procs t2 !! a) -> is_Some (ps_procs (psof s) !! a)) by done.
  destruct (yield_nested p q t2 r) as (t3 & H3 & H4); [|exact Hcur|exact Hr| | |exact Hsz|].
  { split; [|done|].
    - destruct Hq as [Q1 Q2 Q3 Q4 Q5 Q6 Q7]. split; try done.
      + eapply dlist_frame; [exact Q1|exact Hu|exact Hdj].
      + intros a ra Ha. destruct (Q2 a ra Ha) as (Q & ?). split; [|done]. by apply Hu.
    - unfold cpu_ok. cbn. change (noff (hcpu (pm_lk (ps_pm (psof s))))) with (noff (hcpu (ps_lk (psof s)))).
      destruct Hc. split; [lia|done]. }
  { apply Hlk. by rewrite Hr. }
  { cbn. change (noff (hcpu (pm_lk (ps_pm (psof s))))) with (noff (hcpu (ps_lk (psof s)))). lia. }
  rewrite kbind_assoc. erewrite kbind_ret by (apply via_ret; rewrite lget_lput; exact H3).
  unfold sched, via, zoom, kbind. by rewrite !lget_lput, H4.
Qed.
End Semaphore.

(** ** Instances *)

(** The smallest state with both parts. *)
#[global] Instance pair_sync : Sync (psys * syncst).
Proof.
  unshelve refine {|
    sync_ps := {| lget := fst; lput := fun x s => (x, snd s) |};
    sync_st := {| lget := snd; lput := fun x s => (fst s, x) |} |}; try done; by intros [].
Defined.

(** Process 1000 runs, 2000 and 3000 sleep on different channels; no process is
    queued. The sleep lock at 7000 is held by process 2, whose release process
    2000 waits for. *)
Definition demo_sleeper (st : process_state) (id ch : Z) : proc :=
  mkProc st id 0 0 false FIRST 0 0 0 (zero_context 0 0) ch 0 0 0 0 [].
Definition demo_sleep_links : store :=
  {[ 100 := Elem 0 116; 116 := Elem 100 0; 1128 := Elem 0 0; 2128 := Elem 0 0; 3128 := Elem 0 0;
     500 := Elem 0 1112; 1112 := Elem 500 2112; 2112 := Elem 1112 3112; 3112 := Elem 2112 516; 516 := Elem 3112 0 ]}.
Definition demo_sleep_procs : gmap addr proc :=
  {[ 1000 := demo_sleeper RUNNING 1 0; 2000 := demo_sleeper SLEEPING 2 7000; 3000 := demo_sleeper SLEEPING 3 8000 ]}.
Definition demo_sleep : psys :=
  mkPs (mkPm (fun _ => 0) free_locks 0) [] demo_sleep_links demo_sleep_procs 1000 0.
Definition demo_sync (held : bool) (v : Z) : syncst := mkSync {[ 7000 := mkSleeplock held 2 ]} {[ 6000 := v ]}.

Lemma demo_sleep_cases p r : demo_sleep_procs !! p = Some r ->
  (p = 1000 /\ r = demo_sleeper RUNNING 1 0) \/ (p = 2000 /\ r = demo_sleeper SLEEPING 2 7000) \/
  (p = 3000 /\ r = demo_sleeper SLEEPING 3 8000).
Proof.
  unfold demo_sleep_procs. rewrite !lookup_insert_Some, lookup_singleton_Some.
  intros [[<- <-]|[_ [[<- <-]|[_ [<- <-]]]]]; auto.
Qed.

Lemma demo_sleep_queue : queue 100 demo_sleep_links demo_sleep_procs 0 [].
Proof.
  split.
  - split; [reflexivity|reflexivity|by repeat split|..]; apply (bool_decide_unpack _); reflexivity.
  - intros p r [[-> ->]|[[-> ->]|[-> ->]]]%demo_sleep_cases; (split; [by eexists|done]).
  - done.
  - intros p r [[-> ->]|[[-> ->]|[-> ->]]]%demo_sleep_cases; (split; [intros H; by apply not_elem_of_nil in H|done]).
  - intros p Hp. by apply not_elem_of_nil in Hp.
  - constructor.
  - intros p r Hp. by apply not_elem_of_nil in Hp.
Qed.

Lemma demo_sleep_active : active 100 4 1000 [] demo_sleep.
Proof.
  split; [split; [apply demo_sleep_queue|done|done]|done|done|done|].
  vm_compute. lia.
Qed.

Lemma demo_sleep_plist : plist 100 500 demo_sleep_links demo_sleep_procs [1000; 2000; 3000].
Proof.
  split.
  - split; [reflexivity|reflexivity|by repeat split|..]; apply (bool_decide_unpack _); reflexivity.
  - intros p Hp. repeat apply elem_of_cons in Hp as [->|Hp]; [by eexists..|by apply not_elem_of_nil in Hp].
  - intros p [r [[-> ->]|[[-> ->]|[-> ->]]]%demo_sleep_cases]; apply (bool_decide_unpack _); reflexivity.
  - apply (bool_decide_unpack _); reflexivity.
  - apply (bool_decide_unpack _); reflexivity.
Qed.

Lemma demo_wake_ready : wake_ready 100 500 4 1000 [1000; 2000; 3000] [] demo_sleep.
Proof. split; [apply demo_sleep_active|apply demo_sleep_plist|done|apply demo_sleep_active]. Qed.

Lemma wakeup_wakes_witness :
  exists s' (q' : list Z), wakeup 100 500 4 4 7000 demo_sleep = Ret (tt, s') /\ 2000 ∈ q' /\
    ps_procs s' !! 3000 = Some (demo_sleeper SLEEPING 3 8000).
Proof.
  destruct (wakeup_wakes 100 500 4 4 7000 [1000; 2000; 3000] [] demo_sleep) as (s' & q' & H & Hk & Hq & _).
  - apply demo_wake_ready.
  - simpl. lia.
  - exists s', q'. split; [exact H|]. split.
    + apply (Hq 2000 (demo_sleeper SLEEPING 2 7000)); [apply (bool_decide_unpack _); reflexivity|done|reflexivity|reflexivity].
    + apply (wk_no _ _ _ _ _ Hk); [reflexivity|]. right. right. reflexivity.
Defined.

Lemma releasesleeplock_releases_witness :
  exists s', releasesleeplock 100 500 4 4 7000 (demo_sleep, demo_sync true 0) = Ret (tt, s') /\
    sy_locks s'.2 !! 7000 = Some (mkSleeplock false (-1)).
Proof.
  destruct (releasesleeplock_releases 100 500 4 4 1000 7000 [1000; 2000; 3000] [] (demo_sleep, demo_sync true 0)
    (mkSleeplock true 2)) as (s' & q' & H & Hy & _).
  - apply demo_sleep_active.
  - apply demo_wake_ready.
  - reflexivity.
  - reflexivity.
  - simpl. lia.
  - exists s'. split; [exact H|]. cbn in Hy. rewrite Hy. reflexivity.
Defined.

(** The other processes release the lock and let process 1000 run. *)
Definition demo_swtch : K (psys * syncst) unit := fun s =>
  Ret (tt, (put_procs (alter (set_status RUNNING) 1000 (ps_procs s.1)) s.1, put_sl 7000 (mkSleeplock false (-1)) s.2)).

Lemma demo_releases : Releases 100 4 demo_swtch 1000 7000 (fun _ => O).
Proof.
  split; [done|]. intros [ps sy] ([(q & Hq) H2 H3 H4 H5 H6 H7 H8] & Hf & (r & Hr & _ & _ & Hin) & l & Hl & _).
  cbn [lget sync_ps sync_st pair_sync fst snd] in *. eexists. split; [reflexivity|].
  assert (HP : alter (set_status RUNNING) 1000 (ps_procs ps) = <[1000 := set_status RUNNING r]> (ps_procs ps)).
  { apply map_eq. intros a. destruct (decide (a = 1000)) as [->|Hne].
    - by rewrite lookup_alter_eq, lookup_insert_eq, Hr.
    - by rewrite lookup_alter_ne, lookup_insert_ne. }
  cbn [lget sync_ps sync_st pair_sync fst snd]. rewrite HP. split; [split; [split; [split|]|]|].
  - exists q. by apply queue_set_status.
  - done.
  - done.
  - done.
  - done.
  - done.
  - cbn. intros p' Hp'. apply H7. by apply (is_some_set_proc _ 1000 r (set_status RUNNING r)).
  - cbn. by rewrite (size_set_proc _ _ r).
  - exists (set_status RUNNING r). cbn. rewrite lookup_insert_eq. split; [done|]. by destruct r.
  - split; [done|]. cbn. rewrite lookup_insert_eq. by eexists.
  - intros l' Hl' Hk. cbn in Hl'. rewrite lookup_insert_eq in Hl'. by simplify_eq.
Qed.

Lemma acquiresleeplock_acquires_witness :
  exists s', acquiresleeplock demo_swtch 2 7000 (demo_sleep, demo_sync true 0) = Ret (tt, s') /\
    sl_locked <$> sy_locks s'.2 !! 7000 = Some true.
Proof.
  destruct (@acquiresleeplock_acquires 100 4 _ pair_sync demo_swtch 1000 7000 (fun _ => O) demo_releases 1
    (demo_sleep, demo_sync true 0) [] (mkSleeplock true 2)) as (s' & q' & r' & H & _ & (k & t & x & y & _ & _ & Hl) & _).
  - apply demo_sleep_active.
  - by eexists.
  - reflexivity.
  - reflexivity.
  - lia.
  - exists s'. split; [exact H|]. rewrite Hl. cbn. rewrite lookup_insert_eq. reflexivity.
Defined.

Lemma semaphore_counts_witness :
  exists s', sema_down 100 demo_swtch 4 1 6000 (demo_sleep, demo_sync true 3) = Ret (tt, s') /\
    sy_semas s'.2 !! 6000 = Some 2.
Proof.
  destruct (semaphore_counts 100 500 4 demo_swtch 0 4 6000 3 (demo_sleep, demo_sync true 3)) as [Hd _];
    [done|done|lia|done|].
  destruct Hd as (s' & H & Hy & _); [lia|]. exists s'. split; [exact H|]. cbn in Hy. rewrite Hy. reflexivity.
Defined.

(** The same with the semaphore's list of waiters at 6008. *)
Definition demo_waiting : psys := put_links (<[ 6008 := Elem 0 6024 ]> (<[ 6024 := Elem 6008 0 ]> demo_sleep_links)) demo_sleep.

Lemma sema_down_empty_panics_witness :
  sema_down 100 demo_swtch 4 1 6000 (demo_waiting, demo_sync true 0) = Panic "sched locks".
Proof.
  apply (sema_down_empty_panics 100 4 demo_swtch 0 1000 [] (demo_sleeper RUNNING 1 0) [] 6000 (demo_waiting, demo_sync true 0)).
  - destruct demo_sleep_active as [[[Q1 Q2 Q3 Q4 Q5 Q6 Q7] Hf Hc] Hcur Hn Hl Hsz]. split; try done. split; try done.
    split; try done.
    + split; [reflexivity|reflexivity|by repeat split|..]; apply (bool_decide_unpack _); reflexivity.
    + intros p r [[-> ->]|[[-> ->]|[-> ->]]]%demo_sleep_cases; (split; [by eexists|done]).
  - reflexivity.
  - done.
  - reflexivity.
  - split; [reflexivity|reflexivity|by repeat split|..]; apply (bool_decide_unpack _); reflexivity.
  - by eexists.
  - done.
  - apply (bool_decide_unpack _). reflexivity.
  - intros a Ha Hb. cbn in Ha, Hb. set_solver by lia.
Defined.
