(* ===== verification/Printf.v ===== *)
(** Formatted output of the kernel: src/kernel/printf.c.

    The console (an SBI call) is the list of the characters sent to it. A
    variable argument list is the list of the values left in it; taking one
    from the empty list, or writing outside the static buffer [NumToChar], is a
    [Fault]. *)
From S2P Require Import Prelude CString Spinlock.

Record prst : Type := mkPr { pr_mem : mem; pr_buf : list Z; pr_out : list Z; pr_lk : lockst }.
Definition put_buf (b : list Z) (s : prst) : prst := mkPr (pr_mem s) b (pr_out s) (pr_lk s).
Definition put_out (o : list Z) (s : prst) : prst := mkPr (pr_mem s) (pr_buf s) o (pr_lk s).
Definition pr_op {A} (m : K lockst A) : K prst A :=
  zoom pr_lk (fun l s => mkPr (pr_mem s) (pr_buf s) (pr_out s) l) m.

Definition MAXLEN : Z := 64.

(** Characters. *)
Fixpoint chars (s : string) : list Z :=
  match s with EmptyString => [] | String a r => Z.of_N (Ascii.N_of_ascii a) :: chars r end.
Definition chr (s : string) : Z := hd 0 (chars s).
(** The text with a newline at its end. *)
Definition nl (s : string) : string := (s ++ String (Ascii.ascii_of_nat 10) "")%string.

Definition putchar (c : Z) : K prst unit := kmod (fun s => put_out (pr_out s ++ [u8 c]) s).
Definition load8 (a : Z) : K prst Z := kget (fun s => ld8 (pr_mem s) a).

Definition digital : list Z := chars "0123456789abcdef".
Definition digit (table : list Z) (d : Z) : Z := nth (Z.to_nat d) table 0.

(** [NumToChar[i] = c] and [NumToChar[i]]. *)
Definition buf_set (i c : Z) : K prst unit := fun s =>
  if (0 <=? i) && (i <? Z.of_nat (length (pr_buf s)))
  then Ret (tt, put_buf (<[Z.to_nat i := u8 c]> (pr_buf s)) s) else Fault.
Definition buf_get (i : Z) : K prst Z := fun s =>
  match pr_buf s !! Z.to_nat i with Some c => Ret (c, s) | None => Fault end.

(** ** Operations *)

Definition putc (ch : Z) : K prst unit := putchar ch.

(** The loop of [puts] and of [printstr]; the index reached. *)
Fixpoint putstr_loop (fuel : nat) (str i : Z) : K prst Z :=
  match fuel with
  | O => knofuel
  | S fuel => c <- load8 (str + i) ;;
              if c =? 0 then kret i else putchar c ;; putstr_loop fuel str (i + 1)
  end.
Definition puts (fuel : nat) (str : Z) : K prst Z := putstr_loop fuel str 0.
Definition printstr (fuel : nat) (str : Z) : K prst unit := putstr_loop fuel str 0 ;; kret tt.

(** The [do] loop of [printint]: the number of digits. A 32-bit number has at
    most 32 digits in any base. *)
Fixpoint digits_loop (fuel : nat) (num base i : Z) : K prst Z :=
  match fuel with
  | O => knofuel
  | S fuel =>
      buf_set i (digit digital (num mod base)) ;;
      let num' := num / base in
      if num' =? 0 then kret (i + 1) else digits_loop fuel num' base (i + 1)
  end.
Fixpoint pad_loop (n : nat) (i width : Z) : K prst Z :=
  match n with
  | O => kret i
  | S n => if i <? width - 1 then buf_set i (chr "0") ;; pad_loop n (i + 1) width else kret i
  end.
(** [while (--i >= 0)]; [n] is [i]. *)
Fixpoint emit_loop (n : nat) : K prst unit :=
  match n with
  | O => kret tt
  | S n => c <- buf_get (Z.of_nat n) ;; putchar c ;; emit_loop n
  end.

Definition printint (xx base : Z) (sign : bool) (width : Z) : K prst unit :=
  let neg := sign && (s32 xx <? 0) in
  let num := if neg then u32 (- s32 xx) else u32 xx in
  i <- digits_loop 33 num base 0 ;;
  i <- (if 0 <? width then pad_loop (Z.to_nat width) i width else kret i) ;;
  i <- (if neg then buf_set i (chr "-") ;; kret (i + 1)
        else if 0 <? width then buf_set i (chr "0") ;; kret (i + 1) else kret i) ;;
  emit_loop (Z.to_nat i).

(** Sixteen hexadecimal digits; [k] of them are left. *)
Fixpoint ptr_loop (k : nat) (x : Z) : K prst unit :=
  match k with
  | O => kret tt
  | S k => putchar (digit digital (Z.shiftr x 60)) ;; ptr_loop k (u64 (Z.shiftl x 4))
  end.
Definition printptr (x : Z) : K prst unit :=
  putchar (chr "0") ;; putchar (chr "x") ;; ptr_loop 16 x.

Definition va_arg (ap : list Z) : K prst (Z * list Z) :=
  match ap with [] => kfault | a :: ap => kret (a, ap) end.

Definition is_digit (c : Z) : bool := (chr "0" <=? c) && (c <=? chr "9").

(** What follows a [%]: the width digits are added up, then one conversion. The
    index of the last character read and the remaining arguments. *)
Fixpoint conversion (fuel sfuel : nat) (fmt i width : Z) (ap : list Z) : K prst (Z * list Z) :=
  match fuel with
  | O => knofuel
  | S fuel =>
      c <- load8 (fmt + i + 1) ;;
      if is_digit c then conversion fuel sfuel fmt (i + 1) (width + (c - chr "0")) ap else
      if c =? chr "c" then x <- va_arg ap ;; putchar (fst x) ;; kret (i + 1, snd x) else
      if c =? chr "s" then x <- va_arg ap ;; printstr sfuel (fst x) ;; kret (i + 1, snd x) else
      if c =? chr "d" then x <- va_arg ap ;; printint (fst x) 10 true width ;; kret (i + 1, snd x) else
      if c =? chr "x" then x <- va_arg ap ;; printint (fst x) 16 false width ;; kret (i + 1, snd x) else
      if c =? chr "p" then x <- va_arg ap ;; printptr (fst x) ;; kret (i + 1, snd x) else
      putchar c ;; kpanic "no matched"
  end.

Fixpoint vsprintf_loop (fuel sfuel : nat) (fmt i : Z) (ap : list Z) : K prst unit :=
  match fuel with
  | O => knofuel
  | S fuel =>
      c <- load8 (fmt + i) ;;
      if c =? 0 then kret tt else
      if negb (c =? chr "%") then putchar c ;; vsprintf_loop fuel sfuel fmt (i + 1) ap else
      x <- conversion fuel sfuel fmt i 0 ap ;;
      vsprintf_loop fuel sfuel fmt (fst x + 1) (snd x)
  end.
Definition vsprintf (fuel sfuel : nat) (ap : list Z) (fmt : Z) : K prst unit :=
  vsprintf_loop fuel sfuel fmt 0 ap.

Definition printf (fuel sfuel : nat) (fmt : Z) (ap : list Z) : K prst unit :=
  pr_op (acquire pr_lock) ;;
  vsprintf fuel sfuel ap fmt ;;
  pr_op (release pr_lock).

Definition printfinit : K prst unit := pr_op (initlock pr_lock).

(** [location] is the address of the string "[%s:%d][%s] ". *)
Definition _log (fuel sfuel : nat) (location file line func fmt : Z) (ap : list Z) : K prst unit :=
  pr_op (acquire pr_lock) ;;
  vsprintf fuel sfuel [file; line; func] location ;;
  vsprintf fuel sfuel ap fmt ;;
  pr_op (release pr_lock).

(** ** Numerals *)

(** The digits of [x] in base [b], most significant first, and their value. *)
Fixpoint numeral_rev (fuel : nat) (b x : Z) : list Z :=
  match fuel with
  | O => []
  | S fuel => x mod b :: if x / b =? 0 then [] else numeral_rev fuel b (x / b)
  end.
Definition numeral (b x : Z) : list Z := rev (numeral_rev 33 b x).
Definition value (b : Z) (ds : list Z) : Z := fold_left (fun v d => b * v + d) ds 0.

Fixpoint value_rev (b : Z) (ds : list Z) : Z :=
  match ds with [] => 0 | d :: r => d + b * value_rev b r end.

Lemma value_snoc b ds d : value b (ds ++ [d]) = b * value b ds + d.
Proof. unfold value. by rewrite fold_left_app. Qed.

Lemma value_rev_ok b ds : value b (rev ds) = value_rev b ds.
Proof. induction ds as [|d r IH]; simpl; [done|]. rewrite value_snoc, IH. lia. Qed.

Lemma div_pow b x fuel : 2 <= b -> 0 <= x < 2 ^ Z.of_nat (S fuel) -> 0 <= x / b < 2 ^ Z.of_nat fuel.
Proof.
  intros Hb Hx. rewrite Nat2Z.inj_succ, Z.pow_succ_r in Hx by lia.
  assert (0 < 2 ^ Z.of_nat fuel) by (by apply Z.pow_pos_nonneg; lia).
  split; [apply Z.div_pos; lia|]. apply Z.div_lt_upper_bound; [lia|]. nia.
Qed.

Lemma numeral_rev_value b fuel x :
  2 <= b -> 0 <= x < 2 ^ Z.of_nat fuel -> value_rev b (numeral_rev fuel b x) = x.
Proof.
  intros Hb. revert x. induction fuel as [|fuel IH]; intros x Hx; [simpl in *; lia|].
  cbn [numeral_rev]. pose proof (div_pow b x fuel Hb Hx).
  pose proof (Z.div_mod x b). pose proof (Z.mod_pos_bound x b).
  destruct (Z.eqb_spec (x / b) 0); cbn [value_rev]; [lia|]. rewrite IH by lia. lia.
Qed.

Lemma numeral_value b x : 2 <= b -> 0 <= x < 2 ^ 32 -> value b (numeral b x) = x.
Proof.
  intros Hb Hx. unfold numeral. rewrite value_rev_ok. apply numeral_rev_value; [done|].
  change (Z.of_nat 33) with 33. lia.
Qed.

Lemma numeral_rev_length b fuel x : (length (numeral_rev fuel b x) <= fuel)%nat.
Proof.
  revert x. induction fuel as [|fuel IH]; intros x; cbn [numeral_rev length]; [lia|].
  destruct (x / b =? 0); cbn [length]; [lia|]. specialize (IH (x / b)). lia.
Qed.

(** ** The output of [printint] *)

Lemma buf_push s pre x rest c :
  pr_buf s = pre ++ x :: rest ->
  buf_set (Z.of_nat (length pre)) c s = Ret (tt, put_buf (pre ++ u8 c :: rest) s).
Proof.
  intros H. unfold buf_set. rewrite H, length_app. simpl length.
  rewrite (proj2 (Z.leb_le _ _)), (proj2 (Z.ltb_lt _ _)) by lia. cbn [andb].
  by rewrite Nat2Z.id, insert_app_r_alt, Nat.sub_diag by lia.
Qed.

Definition digit_char (d : Z) : Z := u8 (digit digital d).

Lemma digits_loop_ok b fuel : forall x s pre rest,
  2 <= b -> 0 <= x < 2 ^ Z.of_nat fuel -> (0 < fuel)%nat -> (fuel <= length rest)%nat -> pr_buf s = pre ++ rest ->
  exists rest', digits_loop fuel x b (Z.of_nat (length pre)) s =
    Ret (Z.of_nat (length pre + length (numeral_rev fuel b x)),
         put_buf ((pre ++ map digit_char (numeral_rev fuel b x)) ++ rest') s) /\
    (length rest = length (numeral_rev fuel b x) + length rest')%nat.
Proof.
  induction fuel as [|fuel IH]; intros x s pre rest Hb Hx Hf Hlen Hbuf; [lia|].
  destruct rest as [|y rest]; [simpl in Hlen; lia|]. cbn [digits_loop numeral_rev].
  erewrite kbind_ret by (eapply buf_push; exact Hbuf). fold (digit_char (x mod b)).
  destruct (Z.eqb_spec (x / b) 0) as [H0|H0].
  - exists rest. cbn [map length]. rewrite <- app_assoc. split; [|simpl; lia]. unfold kret. do 2 f_equal. lia.
  - pose proof (div_pow b x fuel Hb Hx).
    assert ((0 < fuel)%nat) by (destruct fuel; [simpl in *; lia|lia]).
    set (s1 := put_buf _ s).
    destruct (IH (x / b) s1 (pre ++ [digit_char (x mod b)]) rest) as (rest' & Hr & Hl);
      [done|lia|done|simpl in Hlen; lia|unfold s1; cbn; by rewrite <- app_assoc|].
    exists rest'. rewrite length_app in Hr. cbn [length] in Hr.
    replace (Z.of_nat (length pre) + 1) with (Z.of_nat (length pre + 1)) by lia. rewrite Hr.
    cbn [map length]. split; [|simpl; lia]. rewrite <- !app_assoc. cbn [app]. unfold s1, put_buf. cbn. do 2 f_equal. lia.
Qed.

Lemma pad_loop_ok width n : forall s pre rest,
  (Z.to_nat (width - 1 - Z.of_nat (length pre)) <= n)%nat ->
  (Z.to_nat (width - 1 - Z.of_nat (length pre)) <= length rest)%nat -> pr_buf s = pre ++ rest ->
  let k := Z.to_nat (width - 1 - Z.of_nat (length pre)) in
  pad_loop n (Z.of_nat (length pre)) width s =
    Ret (Z.of_nat (length pre + k), put_buf ((pre ++ replicate k 48) ++ drop k rest) s).
Proof.
  induction n as [|n IH]; intros s pre rest Hn Hlen Hbuf k; cbn [pad_loop].
  - assert (k = O) as -> by (unfold k; lia). cbn [replicate]. rewrite drop_0, app_nil_r, Nat.add_0_r, <- Hbuf. by destruct s.
  - destruct (Z.ltb_spec (Z.of_nat (length pre)) (width - 1)).
    + destruct rest as [|y rest]; [simpl in Hlen; lia|].
      erewrite kbind_ret by (eapply buf_push; exact Hbuf). set (s1 := put_buf _ s).
      specialize (IH s1 (pre ++ [48]) rest). rewrite length_app in IH. cbn [length] in IH.
      replace (Z.of_nat (length pre) + 1) with (Z.of_nat (length pre + 1)) by lia.
      rewrite IH; [|lia|simpl in Hlen; lia|unfold s1; cbn; by rewrite <- app_assoc].
      assert (k = S (Z.to_nat (width - 1 - Z.of_nat (length pre + 1)))) as -> by (unfold k; lia).
      cbn [replicate drop]. rewrite <- !app_assoc. cbn [app]. unfold s1, put_buf. cbn. do 2 f_equal. lia.
    + assert (k = O) as -> by (unfold k; lia). cbn [replicate]. rewrite drop_0, app_nil_r, Nat.add_0_r, <- Hbuf. by destruct s.
Qed.

Lemma emit_loop_ok P : forall s rest,
  pr_buf s = P ++ rest -> Forall (fun c => 0 <= c < 256) P ->
  emit_loop (length P) s = Ret (tt, put_out (pr_out s ++ rev P) s).
Proof.
  induction P as [|c P IH] using rev_ind; intros s rest Hbuf HF.
  { simpl. rewrite app_nil_r. by destruct s. }
  rewrite length_app, Nat.add_comm. cbn [length Nat.add emit_loop].
  assert (Hg : buf_get (Z.of_nat (length P)) s = Ret (c, s)).
  { unfold buf_get. rewrite Nat2Z.id, Hbuf, <- app_assoc, lookup_app_r, Nat.sub_diag by lia. done. }
  erewrite kbind_ret by exact Hg. krun. apply Forall_app in HF as [HF Hc]. inversion Hc as [|?? Hc' _]; subst.
  rewrite (IH _ (c :: rest)); [|cbn; by rewrite Hbuf, <- app_assoc|done].
  unfold put_out. cbn. rewrite u8_small by lia. by rewrite rev_app_distr, <- app_assoc.
Qed.

(** What [printint] prints: a sign or, when a width is given, always one more
    zero; zeros up to one less than the width; the digits. *)
Definition int_text (xx base : Z) (sign : bool) (width : Z) : list Z :=
  let neg := sign && (s32 xx <? 0) in
  let ds := numeral base (if neg then u32 (- s32 xx) else u32 xx) in
  (if neg then [45] else if 0 <? width then [48] else []) ++
  replicate (Z.to_nat (if 0 <? width then width - 1 - Z.of_nat (length ds) else 0)) 48 ++ map digit_char ds.

Lemma rev_repeat_48 k : rev (replicate k 48) = replicate k 48.
Proof.
  induction k as [|k IH]; [done|]. cbn [replicate rev]. rewrite IH. by rewrite <- replicate_cons_app.
Qed.

Lemma digit_char_range d : 0 <= digit_char d < 256.
Proof. apply u8_range. Qed.

Lemma printint_ok xx base sign width s :
  2 <= base -> length (pr_buf s) = 64%nat -> width <= 64 ->
  exists b, printint xx base sign width s =
    Ret (tt, put_out (pr_out s ++ int_text xx base sign width) (put_buf b s)) /\ length b = 64%nat.
Proof.
  intros Hb Hlen Hw. unfold printint, int_text. set (neg := sign && (s32 xx <? 0)).
  set (num := if neg then u32 (- s32 xx) else u32 xx).
  assert (Hnum : 0 <= num < 2 ^ 32) by (unfold num; destruct neg; by apply wrap_range).
  assert (H33 : 0 <= num < 2 ^ Z.of_nat 33) by (change (Z.of_nat 33) with 33; lia).
  unfold numeral. set (D := numeral_rev 33 base num).
  assert (HDl : (length D <= 33)%nat) by apply numeral_rev_length.
  destruct (digits_loop_ok base 33 num s [] (pr_buf s)) as (r1 & H1 & Hl1); [done|done|lia|lia|done|]. fold D in H1, Hl1.
  cbn [app length Nat.add] in H1. change (Z.of_nat 0) with 0 in H1. erewrite kbind_ret by exact H1.
  set (k := Z.to_nat (if 0 <? width then width - 1 - Z.of_nat (length D) else 0)).
  set (s1 := put_buf _ s).
  assert (H2 : (if 0 <? width then pad_loop (Z.to_nat width) (Z.of_nat (length D)) width else kret (Z.of_nat (length D))) s1 =
    Ret (Z.of_nat (length D + k), put_buf ((map digit_char D ++ replicate k 48) ++ drop k r1) s1)).
  { unfold k. destruct (Z.ltb_spec 0 width).
    - pose proof (pad_loop_ok width (Z.to_nat width) s1 (map digit_char D) r1) as HP. rewrite length_map in HP.
      apply HP; [lia|lia|done].
    - cbn [replicate drop]. change (Z.to_nat 0) with O. rewrite app_nil_r, Nat.add_0_r. done. }
  erewrite kbind_ret by exact H2. set (P := map digit_char D ++ replicate k 48). set (s2 := put_buf _ s1).
  assert (HPl : Z.of_nat (length D + k) = Z.of_nat (length P)).
  { unfold P. by rewrite length_app, length_map, length_replicate. }
  rewrite HPl. set (L := if neg then [45] else if 0 <? width then [48] else []).
  assert (Hk : (k + length D <= 63)%nat) by (unfold k; destruct (0 <? width); lia).
  destruct (drop k r1) as [|y r2] eqn:Hdr.
  { apply (f_equal length) in Hdr. rewrite length_drop in Hdr. simpl in Hdr. lia. }
  assert (exists r3, (if neg then buf_set (Z.of_nat (length P)) (chr "-") ;; kret (Z.of_nat (length P) + 1)
        else if 0 <? width then buf_set (Z.of_nat (length P)) (chr "0") ;; kret (Z.of_nat (length P) + 1)
        else kret (Z.of_nat (length P))) s2 = Ret (Z.of_nat (length (P ++ L)), put_buf ((P ++ L) ++ r3) s2) /\
        length ((P ++ L) ++ r3) = 64%nat) as (r3 & H3 & Hl3).
  { assert (Hl2 : (length P + S (length r2) = 64)%nat).
    { apply (f_equal length) in Hdr. rewrite length_drop in Hdr. unfold P. rewrite length_app, length_map, length_replicate.
      simpl in Hdr. lia. }
    assert (Hbuf2 : pr_buf s2 = P ++ y :: r2) by done. unfold L. rewrite length_app.
    destruct neg; [|destruct (0 <? width)].
    - exists r2. erewrite kbind_ret by (eapply buf_push; exact Hbuf2). rewrite <- app_assoc, length_app. cbn [app length].
      split; [|lia]. unfold kret, put_buf. cbn. do 2 f_equal. lia.
    - exists r2. erewrite kbind_ret by (eapply buf_push; exact Hbuf2). rewrite <- app_assoc, length_app. cbn [app length].
      split; [|lia]. unfold kret, put_buf. cbn. do 2 f_equal. lia.
    - exists (y :: r2). rewrite app_nil_r, length_app. cbn [length]. rewrite Nat.add_0_r. split; [|lia].
      unfold kret. do 2 f_equal. }
  erewrite kbind_ret by exact H3. rewrite Nat2Z.id. exists ((P ++ L) ++ r3). split; [|done].
  rewrite (emit_loop_ok (P ++ L) _ r3); [|done|].
  - rewrite length_rev. fold k. assert (rev L = L) as HL by (unfold L; destruct neg; [done|by destruct (0 <? width)]).
    unfold P. rewrite !rev_app_distr, rev_repeat_48, <- map_rev, HL. reflexivity.
  - unfold P, L. repeat apply Forall_app_2.
    + rewrite Forall_map. apply Forall_true. intros d. apply digit_char_range.
    + apply Forall_replicate. lia.
    + destruct neg; [|destruct (0 <? width)]; repeat constructor; lia.
Qed.

(** ** Reading a number back *)

Definition digit_val (c : Z) : Z := if c <=? 57 then c - 48 else c - 87.
Definition read_int (base : Z) (cs : list Z) : Z :=
  match cs with
  | c :: r => if c =? 45 then - value base (map digit_val r) else value base (map digit_val cs)
  | [] => 0
  end.

Lemma digit_val_char d : 0 <= d < 16 -> digit_val (digit_char d) = d.
Proof.
  intros H. assert (d ∈ seqZ 0 16) as Hd by (apply elem_of_seqZ; lia).
  revert d Hd H. cut (Forall (fun d => digit_val (digit_char d) = d) (seqZ 0 16)).
  - intros HF d Hd _. rewrite Forall_forall in HF. by apply HF.
  - repeat (constructor; [reflexivity|]). constructor.
Qed.

Lemma value_zeros b k ds : value b (replicate k 0 ++ ds) = value b ds.
Proof.
  unfold value. rewrite fold_left_app. f_equal. induction k as [|k IH]; cbn [replicate fold_left]; [done|].
  by rewrite Z.mul_0_r.
Qed.

Lemma numeral_digits b x fuel d : 2 <= b -> d ∈ numeral_rev fuel b x -> 0 <= d < b.
Proof.
  intros Hb. revert x. induction fuel as [|fuel IH]; intros x; cbn [numeral_rev].
  - intros H. by apply not_elem_of_nil in H.
  - intros [->|H]%elem_of_cons; [apply Z.mod_pos_bound; lia|].
    destruct (x / b =? 0); [by apply not_elem_of_nil in H|by eapply IH].
Qed.

Lemma digits_val_chars b x : 2 <= b <= 16 -> map digit_val (map digit_char (numeral b x)) = numeral b x.
Proof.
  intros Hb. rewrite map_map. rewrite <- (map_id (numeral b x)) at 2. apply map_ext_in. intros d Hd.
  apply digit_val_char. unfold numeral in Hd. rewrite <- in_rev, <- list_elem_of_In in Hd.
  apply numeral_digits in Hd; lia.
Qed.

Lemma s32_neg x : s32 x < 0 -> 0 < u32 (- s32 x) < 2 ^ 32 /\ s32 x = - u32 (- s32 x).
Proof.
  unfold s32. pose proof (wrap_range 32 x). fold (u32 x) in *. destruct (Z.ltb_spec (u32 x) (2 ^ 31)); [lia|].
  intros _. rewrite u32_small; lia.
Qed.

(** [printint] prints the number: the text is the same integer when read
    back, for every value (the least int included), in every base up to 16
    and for every width the static buffer can hold; it never writes outside
    that buffer. A width [w] gives at least [w] characters, and one more zero
    than asked for when the number itself has [w] digits. *)
Theorem printint_roundtrip xx base (sign : bool) width s :
  2 <= base <= 16 -> length (pr_buf s) = 64%nat -> width <= 64 ->
  exists b text, printint xx base sign width s = Ret (tt, put_out (pr_out s ++ text) (put_buf b s)) /\
    length b = 64%nat /\
    read_int base text = (if sign then s32 xx else u32 xx) /\
    (0 < width -> Z.of_nat (length text) =
       Z.max width (1 + Z.of_nat (length (numeral base (if sign && (s32 xx <? 0) then u32 (- s32 xx) else u32 xx))))).
Proof.
  intros Hb Hlen Hw. destruct (printint_ok xx base sign width s) as (b & Hrun & Hbl); [lia|done|done|].
  exists b, (int_text xx base sign width). split; [done|]. split; [done|]. unfold int_text.
  set (neg := sign && (s32 xx <? 0)). set (num := if neg then u32 (- s32 xx) else u32 xx).
  assert (Hnum : 0 <= num < 2 ^ 32) by (unfold num; destruct neg; by apply wrap_range).
  pose proof (numeral_value base num ltac:(lia) Hnum) as Hv.
  assert (Hz : forall k, value base (map digit_val (replicate k 48 ++ map digit_char (numeral base num))) = num).
  { intros k. by rewrite map_app, fmap_replicate, digits_val_chars, value_zeros by done. }
  split.
  - assert (Hpos : neg = false -> forall k, read_int base (replicate k 48 ++ map digit_char (numeral base num)) = num).
    { intros _ k. specialize (Hz k). destruct (replicate k 48 ++ map digit_char (numeral base num)) as [|c r] eqn:E; [done|].
      cbn [read_int]. destruct (Z.eqb_spec c 45) as [->|]; [|done]. exfalso.
      destruct k; cbn [replicate app] in E; [|by simplify_eq]. unfold numeral in E.
      assert (Hin : 45 ∈ map digit_char (rev (numeral_rev 33 base num))) by (rewrite E; by left).
      apply list_elem_of_fmap in Hin as (d & Hd & Hin). rewrite list_elem_of_In, <- in_rev, <- list_elem_of_In in Hin.
      apply numeral_digits in Hin; [|lia]. pose proof (digit_val_char d ltac:(lia)) as Hdv. rewrite <- Hd in Hdv.
      vm_compute in Hdv. lia. }
    destruct neg eqn:Hn.
    + apply andb_true_iff in Hn as [-> Hlt]. apply Z.ltb_lt in Hlt. cbn [app read_int].
      rewrite Z.eqb_refl, Hz. unfold num. destruct (s32_neg xx Hlt). lia.
    + assert ((if sign then s32 xx else u32 xx) = num) as ->.
      { unfold num. destruct sign; [|done]. cbn in Hn. apply Z.ltb_ge in Hn. revert Hn. unfold s32.
        pose proof (wrap_range 32 xx). fold (u32 xx) in *. destruct (Z.ltb_spec (u32 xx) (2 ^ 31)); lia. }
      destruct (0 <? width); [|by apply Hpos].
      cbn [app]. by apply (Hpos eq_refl (S _)).
  - intros Hpw. rewrite (proj2 (Z.ltb_lt 0 width) Hpw), !length_app, length_replicate, length_map.
    destruct neg; cbn [length]; lia.
Qed.

Definition demo_pr : prst := mkPr (fun _ => 0) (replicate 64 0) [] (mkLockst 0 (mkCpu 0 false true) (fun _ => mkSpinlock 0 None)).

Lemma printint_roundtrip_witness :
  (exists s, printint (2 ^ 31) 10 true 0 demo_pr = Ret (tt, s) /\ pr_out s = chars "-2147483648") /\
  (exists s, printint 171 16 false 2 demo_pr = Ret (tt, s) /\ pr_out s = chars "0ab").
Proof.
  split.
  - destruct (printint_roundtrip (2 ^ 31) 10 true 0 demo_pr) as (b & text & H & _ & _ & _); [lia|reflexivity|lia|].
    eexists. split; [exact H|]. revert H. vm_compute. intros [= _ <-]. reflexivity.
  - destruct (printint_roundtrip 171 16 false 2 demo_pr) as (b & text & H & _ & _ & _); [lia|reflexivity|lia|].
    eexists. split; [exact H|]. revert H. vm_compute. intros [= _ <-]. reflexivity.
Defined.

(** ** Formats *)

(** The string at [a], of less than [n] characters. *)
Fixpoint read_cstr (n : nat) (m : mem) (a : Z) : option (list Z) :=
  match n with
  | O => None
  | S n => let c := ld8 m a in if c =? 0 then Some [] else cons c <$> read_cstr n m (a + 1)
  end.
(** The [k] most significant hexadecimal digits of a 64-bit number. *)
Definition hex_digits (k : nat) (x : Z) : list Z := map (fun i => digit_char (x / 16 ^ (15 - Z.of_nat i) mod 16)) (seq 0 k).
Definition conv_text (n : nat) (m : mem) (c width x : Z) : option (list Z) :=
  if c =? chr "c" then Some [u8 x]
  else if c =? chr "s" then read_cstr n m x
  else if c =? chr "d" then (if width <=? MAXLEN then Some (int_text x 10 true width) else None)
  else if c =? chr "x" then (if width <=? MAXLEN then Some (int_text x 16 false width) else None)
  else if c =? chr "p" then (if (0 <=? x) && (x <? 2 ^ 64) then Some (chars "0x" ++ hex_digits 16 x) else None)
  else None.
(** The text of the format [f] for the arguments [ap]: inside a conversion the
    width read so far is [Some w]. *)
Fixpoint render (n : nat) (m : mem) (f : list Z) (w : option Z) (ap : list Z) : option (list Z) :=
  match f, w with
  | [], None => Some []
  | [], Some _ => None
  | c :: f, None => if c =? chr "%" then render n m f (Some 0) ap else cons (u8 c) <$> render n m f None ap
  | c :: f, Some w =>
      if is_digit c then render n m f (Some (w + (c - chr "0"))) ap else
      match ap with
      | [] => None
      | x :: ap => match conv_text n m c w x with Some t => app t <$> render n m f None ap | None => None end
      end
  end.

Lemma read_cstr_ok n m a l : cstr m a l -> (length l < n)%nat -> read_cstr n m a = Some l.
Proof.
  revert a l. induction n as [|n IH]; intros a l Hc Hn; [lia|]. cbn [read_cstr]. destruct l as [|c l]; cbn in Hc, Hn.
  - by rewrite Hc.
  - destruct Hc as (-> & H0 & Hc). by rewrite (proj2 (Z.eqb_neq _ _) H0), (IH _ l Hc) by lia.
Qed.
Lemma read_cstr_cstr n m : forall a l, read_cstr n m a = Some l -> cstr m a l.
Proof.
  induction n as [|n IH]; intros a l; cbn [read_cstr]; [done|]. destruct (Z.eqb_spec (ld8 m a) 0) as [E|E]; [by intros [= <-]|].
  destruct (read_cstr n m (a + 1)) as [l'|] eqn:Hl; [|done]. intros [= <-]. cbn. split; [done|]. split; [done|]. by apply IH.
Qed.

Lemma put_out_nil s : put_out (pr_out s ++ []) s = s.
Proof. rewrite app_nil_r. by destruct s. Qed.

Lemma putstr_loop_ok n : forall a l i s, read_cstr n (pr_mem s) (a + i) = Some l ->
  putstr_loop n a i s = Ret (i + Z.of_nat (length l), put_out (pr_out s ++ l) s).
Proof.
  induction n as [|n IH]; intros a l i s; cbn [read_cstr putstr_loop]; [done|]. intros Hl. krun. destruct (ld8 (pr_mem s) (a + i) =? 0) eqn:E.
  - injection Hl as <-. rewrite put_out_nil. unfold kret. cbn [length]. by rewrite Z.add_0_r.
  - destruct (read_cstr n (pr_mem s) (a + i + 1)) as [l'|] eqn:Hl'; [|done]. injection Hl as <-. krun.
    rewrite (IH a l'); [|by rewrite Z.add_assoc]. unfold put_out. cbn. rewrite u8_small by apply ld8_range. rewrite <- app_assoc. cbn [app]. do 2 f_equal. lia.
Qed.

Lemma hex_digits_S k x : 0 <= x < 2 ^ 64 -> (S k <= 16)%nat ->
  hex_digits (S k) x = digit_char (Z.shiftr x 60) :: hex_digits k (u64 (Z.shiftl x 4)).
Proof.
  intros Hx Hk. unfold hex_digits. cbn [seq map]. rewrite <- seq_shift, map_map. f_equal.
  - f_equal. rewrite Z.shiftr_div_pow2 by lia. change (16 ^ (15 - Z.of_nat 0)) with (2 ^ 60). apply Z.mod_small. dlia.
  - apply map_ext_in. intros i Hi%in_seq. f_equal. rewrite Z.shiftl_mul_pow2 by lia. change (2 ^ 4) with 16.
    replace (15 - Z.of_nat (S i)) with (14 - Z.of_nat i) by lia. set (j := 14 - Z.of_nat i).
    replace (15 - Z.of_nat i) with (Z.succ j) by lia. rewrite Z.pow_succ_r by lia. assert (0 < 16 ^ j) by (apply Z.pow_pos_nonneg; lia).
    assert (E : 2 ^ 64 = 16 * 16 ^ j * (16 ^ (14 - j) * 16)).
    { replace (16 * 16 ^ j * (16 ^ (14 - j) * 16)) with (16 * 16 * (16 ^ j * 16 ^ (14 - j))) by lia. rewrite <- Z.pow_add_r by lia. by replace (j + (14 - j)) with 14 by lia. }
    unfold u64, wrap. rewrite E. assert (0 < 16 ^ (14 - j)) by (apply Z.pow_pos_nonneg; lia).
    rewrite Z.rem_mul_r by lia. rewrite (Z.mul_comm (16 * 16 ^ j)), Z.div_add by lia. rewrite (Z.div_small ((x * 16) mod _)) by (apply Z.mod_pos_bound; lia).
    rewrite Z.add_0_l, (Z.mul_comm x), Z.div_mul_cancel_l by lia. rewrite (Z.mul_comm (16 ^ (14 - j))), Z.rem_mul_r by lia.
    by rewrite (Z.mul_comm 16), Z.mod_add, Z.mod_mod by lia.
Qed.
Lemma ptr_loop_ok k : forall x s, 0 <= x < 2 ^ 64 -> (k <= 16)%nat -> ptr_loop k x s = Ret (tt, put_out (pr_out s ++ hex_digits k x) s).
Proof.
  induction k as [|k IH]; intros x s Hx Hk; cbn [ptr_loop]; [by rewrite put_out_nil|]. krun. rewrite IH by (first [apply u64_range|lia]).
  rewrite hex_digits_S by done. unfold put_out. cbn [pr_out pr_mem pr_buf pr_lk]. by rewrite <- app_assoc.
Qed.

(** What printing leaves behind: more output and some contents of the buffer. *)
Definition printed (text b : list Z) (s : prst) : prst := put_out (pr_out s ++ text) (put_buf b s).
Lemma printed_app s t1 b1 t2 b2 : printed t2 b2 (printed t1 b1 s) = printed (t1 ++ t2) b2 s.
Proof. unfold printed, put_out, put_buf. cbn. by rewrite app_assoc. Qed.
Lemma printed_out text s : put_out (pr_out s ++ text) s = printed text (pr_buf s) s.
Proof. by destruct s. Qed.

Definition is_conv (c : Z) : bool := existsb (Z.eqb c) (chars "csdxp").
(** One conversion after its width: [k] is what the format continues with. *)
Lemma conversion_text sfuel c w x text fmt i ap s fuel : ld8 (pr_mem s) (fmt + i + 1) = c -> is_digit c = false ->
  conv_text sfuel (pr_mem s) c w x = Some text -> length (pr_buf s) = 64%nat ->
  exists b, conversion (S fuel) sfuel fmt i w (x :: ap) s = Ret ((i + 1, ap), printed text b s) /\ length b = 64%nat.
Proof.
  intros Hc Hd Ht Hb. cbn [conversion]. krun. rewrite Hc, Hd. unfold conv_text in Ht. unfold MAXLEN in Ht.
  destruct (c =? chr "c"); [|destruct (c =? chr "s"); [|destruct (c =? chr "d"); [|destruct (c =? chr "x"); [|destruct (c =? chr "p"); [|done]]]]].
  - injection Ht as <-. exists (pr_buf s). split; [|done]. krun. cbn [fst snd]. erewrite kbind_ret; [reflexivity|]. by rewrite <- printed_out.
  - exists (pr_buf s). split; [|done]. krun. cbn [fst snd]. erewrite kbind_ret; [reflexivity|]. unfold printstr.
    erewrite kbind_ret by (apply putstr_loop_ok; by rewrite Z.add_0_r). by rewrite printed_out.
  - destruct (Z.leb_spec w 64); [|done]. injection Ht as <-. destruct (printint_ok x 10 true w s) as (b & R & Hl); [lia|done|done|].
    exists b. split; [|done]. krun. cbn [fst snd]. by erewrite kbind_ret by exact R.
  - destruct (Z.leb_spec w 64); [|done]. injection Ht as <-. destruct (printint_ok x 16 false w s) as (b & R & Hl); [lia|done|done|].
    exists b. split; [|done]. krun. cbn [fst snd]. by erewrite kbind_ret by exact R.
  - destruct (Z.leb_spec 0 x); [|done]. destruct (Z.ltb_spec x (2 ^ 64)); [|done]. cbn [andb] in Ht. injection Ht as <-.
    exists (pr_buf s). split; [|done]. krun. cbn [fst snd]. erewrite kbind_ret; [reflexivity|]. unfold printptr. krun. krun.
    rewrite ptr_loop_ok by (done || lia). rewrite <- printed_out. unfold put_out. cbn [pr_out pr_mem pr_buf pr_lk]. by rewrite <- !app_assoc.
Qed.

Lemma conversion_ok f : forall fuel sfuel fmt i w ap text s,
  cstr (pr_mem s) (fmt + i + 1) f -> render sfuel (pr_mem s) f (Some w) ap = Some text -> length (pr_buf s) = 64%nat -> (length f < fuel)%nat ->
  exists j ap' t1 t2 b, conversion fuel sfuel fmt i w ap s = Ret ((j, ap'), printed t1 b s) /\ length b = 64%nat /\ text = t1 ++ t2 /\
    exists f', cstr (pr_mem s) (fmt + j + 1) f' /\ render sfuel (pr_mem s) f' None ap' = Some t2 /\ (length f' < length f)%nat.
Proof.
  induction f as [|c f IH]; intros [|fuel] sfuel fmt i w ap text s Hc Ht Hb Hf; cbn [length] in Hf; try lia; [done|].
  cbn [cstr render] in *. destruct Hc as (Hx & H0 & Hc). destruct (is_digit c) eqn:Hd.
  - cbn [conversion]. krun. rewrite Hx, Hd. destruct (IH fuel sfuel fmt (i + 1) (w + (c - chr "0")) ap text s) as (j & ap' & t1 & t2 & b & R & Hl & Htx & f' & H1 & H2 & H3);
      [by replace (fmt + (i + 1) + 1) with (fmt + i + 1 + 1) by lia|done|done|lia|].
    exists j, ap', t1, t2, b. split; [done|]. split; [done|]. split; [done|]. exists f'. split; [done|]. split; [done|cbn [length]; lia].
  - destruct ap as [|x ap]; [done|]. destruct (conv_text sfuel (pr_mem s) c w x) as [t1|] eqn:E; [|done].
    destruct (render sfuel (pr_mem s) f None ap) as [t2|] eqn:E2; [|done]. injection Ht as <-.
    destruct (conversion_text sfuel c w x t1 fmt i ap s fuel Hx Hd E Hb) as (b & R & Hl).
    exists (i + 1), ap, t1, t2, b. split; [done|]. split; [done|]. split; [done|]. exists f.
    split; [by replace (fmt + (i + 1) + 1) with (fmt + i + 1 + 1) by lia|]. split; [done|cbn [length]; lia].
Qed.

Lemma vsprintf_loop_ok fuel : forall f sfuel fmt i ap text s,
  cstr (pr_mem s) (fmt + i) f -> render sfuel (pr_mem s) f None ap = Some text -> length (pr_buf s) = 64%nat -> (length f < fuel)%nat ->
  exists b, vsprintf_loop fuel sfuel fmt i ap s = Ret (tt, printed text b s) /\ length b = 64%nat.
Proof.
  induction fuel as [|fuel IH]; intros f sfuel fmt i ap text s Hc Ht Hb Hf; [lia|]. cbn [vsprintf_loop]. krun.
  destruct f as [|c f]; cbn [cstr render length] in *.
  - rewrite Hc. cbn. injection Ht as <-. exists (pr_buf s). split; [|done]. rewrite <- printed_out. by rewrite put_out_nil.
  - destruct Hc as (-> & H0 & Hc). rewrite (proj2 (Z.eqb_neq _ _) H0). destruct (c =? chr "%") eqn:E; cbn [negb].
    + destruct (conversion_ok f fuel sfuel fmt i 0 ap text s) as (j & ap' & t1 & t2 & b & R & Hl & -> & f' & H1 & H2 & H3);
        [by replace (fmt + i + 1) with (fmt + i + 1) by lia|done|done|lia|].
      erewrite kbind_ret by exact R. cbn [fst snd].
      destruct (IH f' sfuel fmt (j + 1) ap' t2 (printed t1 b s)) as (b' & R' & Hl'); [by rewrite Z.add_assoc|done|done|lia|].
      exists b'. rewrite R', printed_app. done.
    + destruct (render sfuel (pr_mem s) f None ap) as [t2|] eqn:E2; [|done]. injection Ht as <-. krun.
      rewrite printed_out. destruct (IH f sfuel fmt (i + 1) ap t2 (printed [u8 c] (pr_buf s) s)) as (b' & R' & Hl'); [by rewrite Z.add_assoc|done|done|lia|].
      exists b'. rewrite R', printed_app. done.
Qed.

(** The text comes out, the memory stays, the locks are as before. *)
Record prints (text : list Z) (s s' : prst) : Prop := {
  pn_out : pr_out s' = pr_out s ++ text;
  pn_mem : pr_mem s' = pr_mem s;
  pn_buf : length (pr_buf s') = 64%nat;
  pn_lk : lk_restored (pr_lk s) (pr_lk s')
}.
(** Printing can start. *)
Record printable (s : prst) : Prop := {
  pt_free : lock_free pr_lock (pr_lk s);
  pt_cpu : cpu_ok (hcpu (pr_lk s));
  pt_buf : length (pr_buf s) = 64%nat
}.
Lemma prints_printable text s s' : printable s -> prints text s s' -> printable s'.
Proof.
  intros [H1 H2 H3] [G1 G2 G3 G4]. split; [by eapply lk_restored_free|by eapply lk_restored_ok|done].
Qed.
Lemma prints_trans t1 t2 s1 s2 s3 : prints t1 s1 s2 -> prints t2 s2 s3 -> prints (t1 ++ t2) s1 s3.
Proof.
  intros [G1 G2 G3 G4] [H1 H2 H3 H4]. split; [by rewrite H1, G1, app_assoc|congruence|done|by eapply lk_restored_trans].
Qed.

(** Between [acquire] and [release]. *)
Lemma locked_ok (c : K prst unit) s text : printable s ->
  (forall l, let s1 := mkPr (pr_mem s) (pr_buf s) (pr_out s) l in exists b, c s1 = Ret (tt, printed text b s1) /\ length b = 64%nat) ->
  exists s', (pr_op (acquire pr_lock) ;; c ;; pr_op (release pr_lock)) s = Ret (tt, s') /\ prints text s s'.
Proof.
  intros [Hf Hc Hl] Hr. destruct (acquire_free pr_lock (pr_lk s) Hf) as (l1 & R1 & E1).
  destruct (acquired_released pr_lock (pr_lk s) l1 Hf Hc E1) as (l2 & R2 & E2). destruct (Hr l1) as (b & R & Hb).
  exists (mkPr (pr_mem s) b (pr_out s ++ text) l2). split; [|by split].
  erewrite kbind_ret by (unfold pr_op; apply zoom_ret; exact R1). erewrite kbind_ret by exact R. unfold pr_op. by erewrite zoom_ret by exact R2.
Qed.
Lemma vsprintf_ok fuel sfuel fmt ap f text s : cstr (pr_mem s) fmt f -> render sfuel (pr_mem s) f None ap = Some text ->
  length (pr_buf s) = 64%nat -> (length f < fuel)%nat -> exists b, vsprintf fuel sfuel ap fmt s = Ret (tt, printed text b s) /\ length b = 64%nat.
Proof. intros Hc Ht Hb Hf. apply (vsprintf_loop_ok fuel f sfuel fmt 0); [by rewrite Z.add_0_r|done..]. Qed.

Lemma printf_ok fuel sfuel fmt ap f text s : printable s -> cstr (pr_mem s) fmt f -> render sfuel (pr_mem s) f None ap = Some text ->
  (length f < fuel)%nat -> exists s', printf fuel sfuel fmt ap s = Ret (tt, s') /\ prints text s s'.
Proof. intros Hp Hc Ht Hf. apply locked_ok; [done|]. intros l. apply (vsprintf_ok _ _ _ _ f); [done|done|apply (pt_buf _ Hp)|done]. Qed.

Lemma log_ok fuel sfuel location file line func fmt ap f0 f t0 text s : printable s ->
  cstr (pr_mem s) location f0 -> render sfuel (pr_mem s) f0 None [file; line; func] = Some t0 ->
  cstr (pr_mem s) fmt f -> render sfuel (pr_mem s) f None ap = Some text -> (length f0 < fuel)%nat -> (length f < fuel)%nat ->
  exists s', _log fuel sfuel location file line func fmt ap s = Ret (tt, s') /\ prints (t0 ++ text) s s'.
Proof.
  intros Hp Hc0 Ht0 Hc Ht Hf0 Hf.
  destruct (locked_ok (vsprintf fuel sfuel [file; line; func] location ;; vsprintf fuel sfuel ap fmt) s (t0 ++ text) Hp) as (s' & R & HP).
  { intros l s1. destruct (vsprintf_ok fuel sfuel location [file; line; func] f0 t0 s1) as (b & R & Hb); [done|done|apply (pt_buf _ Hp)|done|].
    destruct (vsprintf_ok fuel sfuel fmt ap f text (printed t0 b s1)) as (b' & R' & Hb'); [done|done|done|done|].
    exists b'. erewrite kbind_ret by exact R. by rewrite R', printed_app. }
  exists s'. split; [|done]. rewrite <- R. unfold _log. unfold kbind. destruct (pr_op (acquire pr_lock) s) as [[[] s1]| | | |]; try done.
  by destruct (vsprintf fuel sfuel [file; line; func] location s1) as [[[] s2]| | | |].
Qed.

(** The conversions of a format with their widths, and the arguments they take. *)
Fixpoint convs (f : list Z) (w : option Z) : option (list (Z * Z)) :=
  match f, w with
  | [], None => Some []
  | [], Some _ => None
  | c :: f, None => if c =? chr "%" then convs f (Some 0) else convs f None
  | c :: f, Some w => if is_digit c then convs f (Some (w + (c - chr "0"))) else cons (c, w) <$> convs f None
  end.
Definition arg_ok (n : nat) (m : mem) (k : Z * Z) (x : Z) : Prop :=
  if fst k =? chr "c" then True
  else if fst k =? chr "s" then exists l, cstr m x l /\ (length l < n)%nat
  else if (fst k =? chr "d") || (fst k =? chr "x") then snd k <= MAXLEN
  else fst k = chr "p" /\ 0 <= x < 2 ^ 64.
Lemma arg_text n m c w x : arg_ok n m (c, w) x -> exists t, conv_text n m c w x = Some t.
Proof.
  unfold arg_ok, conv_text. cbn [fst snd]. destruct (c =? chr "c"); [by eexists|]. destruct (c =? chr "s").
  { intros (l & Hc & Hl). exists l. by apply read_cstr_ok. }
  destruct (c =? chr "d"); [|destruct (c =? chr "x")]; cbn [orb].
  - intros Hw. rewrite (proj2 (Z.leb_le _ _) Hw). by eexists.
  - intros Hw. rewrite (proj2 (Z.leb_le _ _) Hw). by eexists.
  - intros [-> Hx]. rewrite (proj2 (Z.leb_le _ _)), (proj2 (Z.ltb_lt _ _)) by lia. by eexists.
Qed.
Lemma render_ok n m f : forall w ks ap, convs f w = Some ks -> Forall2 (arg_ok n m) ks ap -> exists text, render n m f w ap = Some text.
Proof.
  induction f as [|c f IH]; intros [w|] ks ap; cbn [convs render]; [done|by eexists| |].
  - destruct (is_digit c); [apply IH|]. destruct (convs f None) as [ks'|] eqn:E; [|done]. intros [= <-] HF. inversion HF as [|? x ? ap' Hx HF']; subst.
    destruct (arg_text n m c w x Hx) as (t & ->). destruct (IH None ks' ap' E HF') as (t2 & ->). by eexists.
  - destruct (c =? chr "%"); [apply IH|]. intros Hk HF. destruct (IH None ks ap Hk HF) as (t2 & ->). by eexists.
Qed.

(** C32. [printf] prints what the format says: for every format, the
    conversions %c, %s, %d, %x and %p with or without a width, and arguments
    that fit it, the output is the text the reference formatter [render] gives.
    Nothing else changes: the memory and every lock are as before. *)
Theorem printf_formats fuel sfuel fmt ap f text s : printable s -> cstr (pr_mem s) fmt f -> render sfuel (pr_mem s) f None ap = Some text ->
  (length f < fuel)%nat -> exists s', printf fuel sfuel fmt ap s = Ret (tt, s') /\ prints text s s'.
Proof. apply printf_ok. Qed.

Definition demo_format : string := "%s=%04x at %p, %c%d".
Definition demo_fmt_mem : mem := fun a =>
  if (200 <=? a) && (a <? 219) then nth (Z.to_nat (a - 200)) (chars demo_format) 0 else if (300 <=? a) && (a <? 303) then nth (Z.to_nat (a - 300)) (chars "pte") 0 else 0.
Definition demo_fmt : prst := mkPr demo_fmt_mem (replicate 64 0) [] (pr_lk demo_pr).

Lemma printf_formats_witness :
  exists s', printf 30 10 200 [300; 171; 0x80200000; 35; -7] demo_fmt = Ret (tt, s') /\ prints (chars "pte=00ab at 0x0000000080200000, #-7") demo_fmt s'.
Proof.
  apply (printf_formats 30 10 200 [300; 171; 0x80200000; 35; -7] (chars demo_format)).
  - split; [reflexivity|split; [cbn; lia|done]|reflexivity].
  - vm_compute. repeat split; discriminate.
  - vm_compute. reflexivity.
  - vm_compute. lia.
Defined.
