(* ===== verification/Ustdio.v ===== *)
(** Formatted output of user programs: src/user/stdio.c.

    Characters go through one line buffer; a [write] system call is recorded
    with its descriptor and bytes. *)
From S2P Require Import Prelude CString Spinlock Printf.

Definition MAX_LEN : Z := 64.
Definition fflush : Z := 10.
Definition STDOUT : Z := 1.

Record ust : Type := mkUst { u_mem : mem; u_buf : list Z; u_idx : Z; u_writes : list (Z * list Z) }.

Definition digits : list Z := chars "0123456789ABCDEF".

Definition uload8 (a : Z) : K ust Z := kget (fun s => ld8 (u_mem s) a).

(** [buf[idx++] = c; if (idx == MAX_LEN || c == fflush) write(fd, buf, idx)]. *)
Definition putc (fd c : Z) : K ust unit := fun s =>
  if (0 <=? u_idx s) && (u_idx s <? Z.of_nat (length (u_buf s))) then
    let b := <[Z.to_nat (u_idx s) := u8 c]> (u_buf s) in
    let i := u_idx s + 1 in
    if (i =? MAX_LEN) || (u8 c =? fflush)
    then Ret (tt, mkUst (u_mem s) b 0 (u_writes s ++ [(fd, take (Z.to_nat i) b)]))
    else Ret (tt, mkUst (u_mem s) b i (u_writes s))
  else Fault.

Fixpoint put_all (fd : Z) (cs : list Z) : K ust unit :=
  match cs with [] => kret tt | c :: cs => putc fd c ;; put_all fd cs end.

(** The local buffer of sixteen characters, filled from the last digit on; the
    loop gives its contents. *)
Fixpoint digits_loop (fuel : nat) (x base : Z) (acc : list Z) : K ust (list Z) :=
  match fuel with
  | O => knofuel
  | S fuel =>
      if 16 <=? Z.of_nat (length acc) then kfault else
      let acc := acc ++ [digit digits (x mod base)] in
      let x := x / base in
      if negb (x =? 0) then digits_loop fuel x base acc else kret acc
  end.
Definition printint (fd xx base : Z) (sgn : bool) : K ust unit :=
  let neg := sgn && (s32 xx <? 0) in
  let x := if neg then u32 (- s32 xx) else u32 xx in
  ds <- digits_loop 33 x base [] ;;
  ds <- (if neg then if 16 <=? Z.of_nat (length ds) then kfault else kret (ds ++ [chr "-"]) else kret ds) ;;
  put_all fd (rev ds).

Fixpoint ptr_loop (k : nat) (fd x : Z) : K ust unit :=
  match k with
  | O => kret tt
  | S k => putc fd (digit digits (Z.shiftr x 60)) ;; ptr_loop k fd (u64 (Z.shiftl x 4))
  end.
Definition printptr (fd x : Z) : K ust unit :=
  putc fd (chr "0") ;; putc fd (chr "x") ;; ptr_loop 16 fd x.

Definition va_arg (ap : list Z) : K ust (Z * list Z) :=
  match ap with [] => kfault | a :: ap => kret (a, ap) end.

Fixpoint put_string (fuel : nat) (fd str : Z) : K ust unit :=
  match fuel with
  | O => knofuel
  | S fuel => c <- uload8 str ;; if c =? 0 then kret tt else putc fd c ;; put_string fuel fd (str + 1)
  end.

(** What follows a percent sign: the characters skipped in addition, and the
    remaining arguments. A null string prints as "(null)". *)
Definition conversion (sfuel : nat) (fd c0 c1 c2 : Z) (ap : list Z) : K ust (Z * list Z) :=
  let int base sgn skip := x <- va_arg ap ;; printint fd (fst x) base sgn ;; kret (skip, snd x) in
  if c0 =? chr "d" then int 10 true 0 else
  if (c0 =? chr "l") && (c1 =? chr "d") then int 10 true 1 else
  if (c0 =? chr "l") && (c1 =? chr "l") && (c2 =? chr "d") then int 10 true 2 else
  if c0 =? chr "u" then int 10 false 0 else
  if (c0 =? chr "l") && (c1 =? chr "u") then int 10 false 1 else
  if (c0 =? chr "l") && (c1 =? chr "l") && (c2 =? chr "u") then int 10 false 2 else
  if c0 =? chr "x" then int 16 false 0 else
  if (c0 =? chr "l") && (c1 =? chr "x") then int 16 false 1 else
  if (c0 =? chr "l") && (c1 =? chr "l") && (c2 =? chr "x") then int 16 false 2 else
  if c0 =? chr "p" then x <- va_arg ap ;; printptr fd (fst x) ;; kret (0, snd x) else
  if c0 =? chr "s" then
    x <- va_arg ap ;;
    (if fst x =? 0 then put_all fd (chars "(null)") else put_string sfuel fd (fst x)) ;; kret (0, snd x) else
  if c0 =? chr "%" then putc fd (chr "%") ;; kret (0, ap) else
  putc fd (chr "%") ;; putc fd c0 ;; kret (0, ap).

Fixpoint vprintf_loop (fuel sfuel : nat) (fd fmt i : Z) (percent : bool) (ap : list Z) : K ust unit :=
  match fuel with
  | O => knofuel
  | S fuel =>
      c0 <- uload8 (fmt + i) ;;
      if c0 =? 0 then kret tt else
      if negb percent then
        if c0 =? chr "%" then vprintf_loop fuel sfuel fd fmt (i + 1) true ap
        else putc fd c0 ;; vprintf_loop fuel sfuel fd fmt (i + 1) false ap
      else
        c1 <- uload8 (fmt + i + 1) ;;
        c2 <- (if negb (c1 =? 0) then uload8 (fmt + i + 2) else kret 0) ;;
        x <- conversion sfuel fd c0 c1 c2 ap ;;
        vprintf_loop fuel sfuel fd fmt (i + fst x + 1) false (snd x)
  end.
Definition vprintf (fuel sfuel : nat) (fd fmt : Z) (ap : list Z) : K ust unit :=
  vprintf_loop fuel sfuel fd fmt 0 false ap.
Definition fprintf (fuel sfuel : nat) (fd fmt : Z) (ap : list Z) : K ust unit := vprintf fuel sfuel fd fmt ap.
Definition printf (fuel sfuel : nat) (fmt : Z) (ap : list Z) : K ust unit := vprintf fuel sfuel STDOUT fmt ap.

(** ** The line buffer *)

(** Everything handed to [putc] so far: what was written and what waits. *)
Definition pending (s : ust) : list Z := take (Z.to_nat (u_idx s)) (u_buf s).
Definition stream (s : ust) : list Z := concat (map snd (u_writes s)) ++ pending s.

Record buf_ok (s : ust) : Prop := {
  bo_len : length (u_buf s) = 64%nat;
  bo_idx : 0 <= u_idx s < MAX_LEN;
  bo_line : Forall (fun c => c <> fflush) (pending s)
}.

Lemma putc_ok fd c s :
  buf_ok s -> exists s', putc fd c s = Ret (tt, s') /\ buf_ok s' /\ stream s' = stream s ++ [u8 c] /\
    u_mem s' = u_mem s /\ (u8 c = fflush -> u_idx s' = 0) /\
    exists ws, u_writes s' = u_writes s ++ ws /\ Forall (fun w => w.1 = fd /\ (length w.2 <= 64)%nat) ws.
Proof.
  intros [Hl Hi Hn]. unfold MAX_LEN in *. unfold putc. rewrite Hl.
  rewrite (proj2 (Z.leb_le _ _)), (proj2 (Z.ltb_lt _ _)) by lia. cbn [andb].
  set (b := <[_ := _]> _).
  assert (Hb : take (Z.to_nat (u_idx s + 1)) b = pending s ++ [u8 c]).
  { unfold pending, b. replace (Z.to_nat (u_idx s + 1)) with (S (Z.to_nat (u_idx s))) by lia.
    rewrite (take_S_r _ _ (u8 c)) by (apply list_lookup_insert_eq; lia).
    by rewrite take_insert_ge by lia. }
  assert (Hbl : length b = 64%nat) by (unfold b; by rewrite length_insert).
  assert (Hst : concat (map snd (u_writes s)) ++ pending s ++ [u8 c] = stream s ++ [u8 c]) by (unfold stream; by rewrite app_assoc).
  destruct ((u_idx s + 1 =? MAX_LEN) || (u8 c =? fflush)) eqn:Hc.
  - eexists. split; [reflexivity|]. split; [split; cbn; [done|unfold MAX_LEN; lia|constructor]|].
    split; [|split; [done|split; [done|]]].
    + unfold stream at 1. cbn. rewrite map_app, concat_app, Hb. cbn. by rewrite !app_nil_r, <- Hst.
    + eexists. split; [reflexivity|]. constructor; [|done]. cbn. split; [done|]. rewrite length_take. lia.
  - apply orb_false_iff in Hc as [Hc1 Hc2]. bool_to_prop. unfold MAX_LEN in *.
    eexists. split; [reflexivity|]. split; [split; cbn; [done|unfold MAX_LEN; lia|]|].
    + unfold pending. cbn. rewrite Hb. apply Forall_app. split; [done|]. by constructor.
    + split; [unfold stream, pending; cbn; by rewrite Hb, Hst|]. split; [done|]. split; [done|].
      exists []. by rewrite app_nil_r.
Qed.

(** C34. The line buffer loses and reorders nothing: whatever characters a
    program prints, the bytes of its [write] calls followed by those still in
    the buffer are exactly the characters in the order they were printed; the
    buffer never overflows, each call writes at most 64 bytes, and no complete
    line is left waiting. *)
Theorem line_buffer_stream fd cs s :
  buf_ok s ->
  exists s', put_all fd cs s = Ret (tt, s') /\ buf_ok s' /\ stream s' = stream s ++ map u8 cs /\
    exists ws, u_writes s' = u_writes s ++ ws /\ Forall (fun w => w.1 = fd /\ (length w.2 <= 64)%nat) ws.
Proof.
  revert s. induction cs as [|c cs IH]; intros s Hs; cbn [put_all map].
  - exists s. split; [done|]. split; [done|]. rewrite app_nil_r. split; [done|]. exists []. by rewrite app_nil_r.
  - destruct (putc_ok fd c s Hs) as (s1 & H1 & Hs1 & Hst1 & _ & _ & ws1 & Hw1 & HF1). erewrite kbind_ret by exact H1.
    destruct (IH s1 Hs1) as (s2 & H2 & Hs2 & Hst2 & ws2 & Hw2 & HF2). exists s2. split; [done|]. split; [done|].
    split; [rewrite Hst2, Hst1, <- app_assoc; done|].
    exists (ws1 ++ ws2). rewrite Hw2, Hw1, app_assoc. split; [done|]. by apply Forall_app.
Qed.

Definition demo_ust : ust := mkUst (fun _ => 0) (replicate 64 0) 0 [].

Lemma line_buffer_stream_witness :
  exists s', put_all 1 [104; 105; 10; 104] demo_ust = Ret (tt, s') /\ stream s' = [104; 105; 10; 104] /\ u_writes s' = [(1, [104; 105; 10])].
Proof.
  destruct (line_buffer_stream 1 [104; 105; 10; 104] demo_ust) as (s' & H & _ & Hst & _).
  - split; [reflexivity|cbn; unfold MAX_LEN; lia|constructor].
  - exists s'. split; [exact H|]. split; [exact Hst|]. revert H. vm_compute. intros [= <-]. reflexivity.
Defined.

(** ** Formats of strings *)

(** A format whose conversions are all %s, and its arguments. *)
Fixpoint fmt_ok (n : nat) (m : mem) (f ap : list Z) : Prop :=
  match f with
  | [] => True
  | c :: f =>
      if c =? chr "%" then
        match f, ap with
        | c0 :: f, a :: ap => c0 = chr "s" /\ a <> 0 /\ (exists l, cstr m a l /\ (length l < n)%nat) /\ fmt_ok n m f ap
        | _, _ => False
        end
      else fmt_ok n m f ap
  end.

(** What such a format prints: its characters, and the strings for the
    conversions. *)
Fixpoint fmt_prints (m : mem) (f ap text : list Z) : Prop :=
  match f with
  | [] => text = []
  | c :: f =>
      if c =? chr "%" then
        match f, ap with
        | _ :: f, a :: ap => exists l t, cstr m a l /\ text = l ++ t /\ fmt_prints m f ap t
        | _, _ => False
        end
      else exists t, text = c :: t /\ fmt_prints m f ap t
  end.

(** [s'] comes after [s]: [text] has been printed to [fd]. *)
Record printed (fd : Z) (text : list Z) (s s' : ust) : Prop := {
  pr_ok : buf_ok s';
  pr_mem : u_mem s' = u_mem s;
  pr_stream : stream s' = stream s ++ text;
  pr_writes : exists ws, u_writes s' = u_writes s ++ ws /\ Forall (fun w => w.1 = fd) ws
}.
Lemma printed_refl fd s : buf_ok s -> printed fd [] s s.
Proof. intros Hs. split; [done|done|by rewrite app_nil_r|]. exists []. by rewrite app_nil_r. Qed.
Lemma printed_trans fd t1 t2 s1 s2 s3 : printed fd t1 s1 s2 -> printed fd t2 s2 s3 -> printed fd (t1 ++ t2) s1 s3.
Proof.
  intros [_ M1 S1 (ws1 & W1 & F1)] [Hok M2 S2 (ws2 & W2 & F2)]. split; [done|congruence|by rewrite S2, S1, app_assoc|].
  exists (ws1 ++ ws2). rewrite W2, W1, app_assoc. split; [done|]. by apply Forall_app.
Qed.
(** A character of a string in memory. *)
Lemma putc_prints fd a s : buf_ok s -> exists s', putc fd (ld8 (u_mem s) a) s = Ret (tt, s') /\ printed fd [ld8 (u_mem s) a] s s'.
Proof.
  intros Hs. destruct (putc_ok fd (ld8 (u_mem s) a) s Hs) as (s1 & R1 & Hs1 & St1 & Hm1 & _ & ws & W1 & F1). exists s1. split; [done|].
  rewrite u8_small in St1 by apply ld8_range. split; [done|done|done|]. exists ws. split; [done|]. eapply Forall_impl; [exact F1|]. by intros w [Hw _].
Qed.

Lemma put_string_ok n : forall fd a l s, cstr (u_mem s) a l -> (length l < n)%nat -> buf_ok s ->
  exists s', put_string n fd a s = Ret (tt, s') /\ printed fd l s s'.
Proof.
  induction n as [|n IH]; intros fd a l s Hc Hl Hs; [lia|]. cbn [put_string]. krun. destruct l as [|c l]; cbn [cstr length] in *.
  - rewrite Hc. cbn. exists s. split; [done|by apply printed_refl].
  - destruct Hc as (E & H0 & Hc). destruct (putc_prints fd a s Hs) as (s1 & R1 & P1). rewrite E in *. rewrite (proj2 (Z.eqb_neq _ _) H0).
    erewrite kbind_ret by exact R1. destruct P1 as [Hs1 Hm1 St1 W1].
    destruct (IH fd (a + 1) l s1) as (s2 & R2 & P2); [by rewrite Hm1|lia|done|].
    exists s2. split; [done|]. by apply (printed_trans fd [c] l s s1 s2).
Qed.

(** The characters of [f] are printed as they are, its conversions as the
    strings of [ap]. *)
Lemma vprintf_loop_ok fuel : forall f sfuel fd fmt i ap s, cstr (u_mem s) (fmt + i) f -> fmt_ok sfuel (u_mem s) f ap -> buf_ok s -> (length f < fuel)%nat ->
  exists s' text, vprintf_loop fuel sfuel fd fmt i false ap s = Ret (tt, s') /\ printed fd text s s' /\ fmt_prints (u_mem s) f ap text.
Proof.
  induction fuel as [fuel IH] using lt_wf_ind. intros f sfuel fd fmt i ap s Hc Hf Hs Hn. destruct fuel as [|fuel]; [lia|]. cbn [vprintf_loop]. krun.
  destruct f as [|c f]; cbn [cstr length fmt_ok fmt_prints] in *.
  { rewrite Hc. cbn. exists s, []. split; [done|]. split; [by apply printed_refl|done]. }
  destruct Hc as (Ec & H0 & Hc). destruct (c =? chr "%") eqn:E; cbn [negb].
  - rewrite Ec, (proj2 (Z.eqb_neq _ _) H0), E. cbn [negb].
    destruct f as [|c0 f]; [done|]. destruct ap as [|a ap]; [done|]. destruct Hf as (-> & Ha & (l & Hl & Hln) & Hf). destruct Hc as (Hc0 & _ & Hc). cbn [length] in Hn.
    destruct fuel as [|fuel]; [lia|]. cbn [vprintf_loop]. krun. rewrite Z.add_assoc, Hc0. change (chr "s" =? 0) with false. cbv iota. cbn [negb].
    destruct (put_string_ok sfuel fd a l s Hl Hln Hs) as (s1 & R1 & P1). pose proof P1 as [Hs1 Hm1 _ _].
    assert (Hcv : forall c1 c2, conversion sfuel fd (chr "s") c1 c2 (a :: ap) s = Ret ((0, ap), s1)).
    { intros c1 c2. transitivity (((if a =? 0 then put_all fd (chars "(null)") else put_string sfuel fd a) ;; kret (0, ap)) s); [reflexivity|].
      rewrite (proj2 (Z.eqb_neq _ _) Ha). by erewrite kbind_ret by exact R1. }
    assert (Hgo : forall c2, (x <- conversion sfuel fd (chr "s") (ld8 (u_mem s) (fmt + i + 1 + 1)) c2 (a :: ap) ;; vprintf_loop fuel sfuel fd fmt (i + 1 + fst x + 1) false (snd x)) s =
      vprintf_loop fuel sfuel fd fmt (i + 1 + 0 + 1) false ap s1) by (intros c2; by erewrite kbind_ret by apply Hcv).
    destruct (IH fuel ltac:(lia) f sfuel fd fmt (i + 1 + 0 + 1) ap s1) as (s2 & t & R2 & P2 & Ht);
      [rewrite Hm1; by replace (fmt + (i + 1 + 0 + 1)) with (fmt + i + 1 + 1) by lia|by rewrite Hm1|done|lia|].
    exists s2, (l ++ t). split; [rewrite <- R2; krun; destruct (negb _); krun; apply Hgo|]. split; [by eapply printed_trans|].
    exists l, t. rewrite Hm1 in Ht. done.
  - destruct (putc_prints fd (fmt + i) s Hs) as (s1 & R1 & P1). rewrite Ec in *. rewrite (proj2 (Z.eqb_neq _ _) H0), E. cbn [negb].
    erewrite kbind_ret by exact R1. pose proof P1 as [Hs1 Hm1 _ _].
    destruct (IH fuel ltac:(lia) f sfuel fd fmt (i + 1) ap s1) as (s2 & t & R2 & P2 & Ht); [by rewrite Hm1, Z.add_assoc|by rewrite Hm1|done|lia|].
    exists s2, (c :: t). split; [done|]. split; [by apply (printed_trans fd [c] t s s1 s2)|]. exists t. by rewrite Hm1 in Ht.
Qed.

(** A text that ends a line leaves nothing in the buffer: all of it, and what
    waited before, has been written. *)
Lemma printed_line fd t s s' : printed fd (t ++ [fflush]) s s' -> pending s' = [] /\
  exists ws, u_writes s' = u_writes s ++ ws /\ Forall (fun w => w.1 = fd) ws /\ concat (map snd ws) = pending s ++ t ++ [fflush].
Proof.
  intros [[_ _ Hl] _ St (ws & W & F)]. unfold stream in St. rewrite W, map_app, concat_app, <- !app_assoc in St. apply app_inv_head in St.
  assert (Hp : pending s' = []).
  { destruct (pending s') as [|c l] eqn:E using rev_ind; [done|]. rewrite !app_assoc in St. apply app_inj_tail in St as [_ ->].
    apply Forall_app in Hl as [_ Hl]. inversion Hl. done. }
  split; [done|]. exists ws. split; [done|]. split; [done|]. rewrite Hp, app_nil_r in St. exact St.
Qed.
