(* ===== verification/Virt.v ===== *)
(** The virtio disk driver: src/kernel/virt.c and src/include/virt.h.

    The structures the driver shares with the device (descriptor table,
    available and used rings, request headers) are records in the state; their
    addresses are those of the C structures, so that a descriptor says what it
    says in the code. The device itself is a parameter: its registers, and what
    it does to the shared structures between two looks of the driver
    ([Class Device]); [Class DeviceLaws] is what the virtio specification
    promises about it. [__sync_synchronize] orders accesses that are already in
    order here. *)
From S2P Require Import Prelude CString Spinlock DList Pm Ids Proc Schedule Sleep.

(** ** Data *)

Definition BSIZE : Z := 512.
Definition NUM : Z := 8.
Definition VIRTQ_DESC_F_NEXT : Z := 1.
Definition VIRTQ_DESC_F_WRITE : Z := 2.
Definition VIRTIO_BLK_T_IN : Z := 0.
Definition VIRTIO_BLK_T_OUT : Z := 1.
Definition WRITE : Z := 1.
Definition READ : Z := 0.

Record virtq_desc : Type := mkDesc { d_addr : Z; d_len : Z; d_flags : Z; d_next : Z }.
Record virtio_blk_req : Type := mkReq { r_type : Z; r_reserved : Z; r_sector : Z }.
Record info : Type := mkInfo { i_b : addr; i_status : Z }.

(** [struct disk], with the [idx] and [ring] fields of the rings its pointers
    [avail] and [used] lead to. *)
Record disk : Type := mkDisk {
  dk_desc : addr; dk_avail : addr; dk_used : addr;
  desc : list virtq_desc;
  avail_idx : Z; avail_ring : list Z;
  dev_used_idx : Z; used_ring : list Z;
  dk_free : list Z;
  used_idx : Z;
  infos : list info;
  ops : list virtio_blk_req
}.

(** [struct buf] without its sleep lock and its list element. *)
Record buf : Type := mkBuf { valid : Z; bdisk : Z; bdev : Z; blockno : Z; refcnt : Z; data : list Z }.
Definition lock_of (b : addr) : addr := b + 16.
Definition belem (b : addr) : addr := b + 72.
Definition buf_of_belem (e : addr) : addr := e - 72.
Definition data_of (b : addr) : addr := b + 88.
Definition SIZEOF_BUF : Z := 600.

#[global] Instance lock_of_inj : Inj (=) (=) lock_of.
Proof. intros a b. unfold lock_of. lia. Qed.
#[global] Instance belem_inj : Inj (=) (=) belem.
Proof. intros a b. unfold belem. lia. Qed.

Definition set_valid (x : Z) (b : buf) : buf := mkBuf x (bdisk b) (bdev b) (blockno b) (refcnt b) (data b).
Definition set_bdisk (x : Z) (b : buf) : buf := mkBuf (valid b) x (bdev b) (blockno b) (refcnt b) (data b).
Definition set_bdev (x : Z) (b : buf) : buf := mkBuf (valid b) (bdisk b) x (blockno b) (refcnt b) (data b).
Definition set_blockno (x : Z) (b : buf) : buf := mkBuf (valid b) (bdisk b) (bdev b) x (refcnt b) (data b).
Definition set_refcnt (x : Z) (b : buf) : buf := mkBuf (valid b) (bdisk b) (bdev b) (blockno b) x (data b).
Definition set_data (x : list Z) (b : buf) : buf := mkBuf (valid b) (bdisk b) (bdev b) (blockno b) (refcnt b) x.

(** The block layer: the driver, the buffers, the list elements inside them,
    and the device's own state. *)
Record blk (V : Type) : Type := mkBlk { bk_disk : disk; bk_bufs : gmap addr buf; bk_links : store; bk_dev : V }.
Arguments mkBlk {V}.
Arguments bk_disk {V}.
Arguments bk_bufs {V}.
Arguments bk_links {V}.
Arguments bk_dev {V}.

(** The kernel up to the block layer. *)
Record kst (V : Type) : Type := mkKst { k_ps : psys; k_sy : syncst; k_blk : blk V }.
Arguments mkKst {V}.
Arguments k_ps {V}.
Arguments k_sy {V}.
Arguments k_blk {V}.

#[global] Instance kst_sync V : Sync (kst V).
Proof.
  unshelve refine {|
    sync_ps := {| lget := k_ps; lput := fun x s => mkKst x (k_sy s) (k_blk s) |};
    sync_st := {| lget := k_sy; lput := fun x s => mkKst (k_ps s) x (k_blk s) |} |}; try done; by intros [].
Defined.

(** The device: its registers, the sectors it stores, and a step of it, which
    says whether it raised its interrupt. *)
Class Device (V : Type) : Type := {
  mmio_read : Z -> V -> Z;
  mmio_write : Z -> Z -> V -> V;
  media : V -> Z -> list Z;
  device_step : blk V -> bool * blk V
}.

Section Virt.
Context {V : Type} `{Device V}.
Context (run_queue process_list : addr) (fuel qfuel : nat).
(** The address of the driver's [struct disk]. *)
Context (disk_base : addr).

Definition free_chan : addr := disk_base + 24.
Definition status_addr (i : Z) : addr := disk_base + 40 + 16 * i + 8.
Definition ops_addr (i : Z) : addr := disk_base + 168 + 16 * i.

Definition put_disk (x : disk) (s : blk V) : blk V := mkBlk x (bk_bufs s) (bk_links s) (bk_dev s).
Definition put_bufs (x : gmap addr buf) (s : blk V) : blk V := mkBlk (bk_disk s) x (bk_links s) (bk_dev s).
Definition put_blinks (x : store) (s : blk V) : blk V := mkBlk (bk_disk s) (bk_bufs s) x (bk_dev s).
Definition put_dev (x : V) (s : blk V) : blk V := mkBlk (bk_disk s) (bk_bufs s) (bk_links s) x.
Definition put_blk (x : blk V) (s : kst V) : kst V := mkKst (k_ps s) (k_sy s) x.

Definition blk_op {A} (m : K (blk V) A) : K (kst V) A := zoom k_blk put_blk m.
Definition disk_op {A} (m : K disk A) : K (blk V) A := zoom bk_disk put_disk m.

(** [b->f] and [b->f = v]. *)
Definition getb {A} (f : buf -> A) (b : addr) : K (blk V) A := fun s =>
  match bk_bufs s !! b with Some x => Ret (f x, s) | None => Fault end.
Definition setb (f : buf -> buf) (b : addr) : K (blk V) unit := fun s =>
  match bk_bufs s !! b with Some x => Ret (tt, put_bufs (<[b := f x]> (bk_bufs s)) s) | None => Fault end.

Definition reg_read (r : Z) : K (blk V) Z := kget (fun s => mmio_read r (bk_dev s)).
Definition reg_write (r v : Z) : K (blk V) unit := kmod (fun s => put_dev (mmio_write r v (bk_dev s)) s).

(** [a[i]] and [a[i] = v]: an index outside the array is a [Fault]. *)
Definition arr_get {A} (f : disk -> list A) (i : Z) : K disk A := fun s =>
  if i <? 0 then Fault else match f s !! Z.to_nat i with Some x => Ret (x, s) | None => Fault end.
Definition arr_upd {A} (f : disk -> list A) (put : list A -> disk -> disk) (i : Z) (g : A -> A) : K disk unit := fun s =>
  if i <? 0 then Fault else
  match f s !! Z.to_nat i with Some x => Ret (tt, put (<[Z.to_nat i := g x]> (f s)) s) | None => Fault end.

Definition put_desc (x : list virtq_desc) (d : disk) : disk :=
  mkDisk (dk_desc d) (dk_avail d) (dk_used d) x (avail_idx d) (avail_ring d) (dev_used_idx d) (used_ring d) (dk_free d) (used_idx d) (infos d) (ops d).
Definition put_avail (i : Z) (x : list Z) (d : disk) : disk :=
  mkDisk (dk_desc d) (dk_avail d) (dk_used d) (desc d) i x (dev_used_idx d) (used_ring d) (dk_free d) (used_idx d) (infos d) (ops d).
Definition put_free (x : list Z) (d : disk) : disk :=
  mkDisk (dk_desc d) (dk_avail d) (dk_used d) (desc d) (avail_idx d) (avail_ring d) (dev_used_idx d) (used_ring d) x (used_idx d) (infos d) (ops d).
Definition put_used_idx (i : Z) (d : disk) : disk :=
  mkDisk (dk_desc d) (dk_avail d) (dk_used d) (desc d) (avail_idx d) (avail_ring d) (dev_used_idx d) (used_ring d) (dk_free d) i (infos d) (ops d).
Definition put_infos (x : list info) (d : disk) : disk :=
  mkDisk (dk_desc d) (dk_avail d) (dk_used d) (desc d) (avail_idx d) (avail_ring d) (dev_used_idx d) (used_ring d) (dk_free d) (used_idx d) x (ops d).
Definition put_ops (x : list virtio_blk_req) (d : disk) : disk :=
  mkDisk (dk_desc d) (dk_avail d) (dk_used d) (desc d) (avail_idx d) (avail_ring d) (dev_used_idx d) (used_ring d) (dk_free d) (used_idx d) (infos d) x.

Definition set_desc (i : Z) (g : virtq_desc -> virtq_desc) : K disk unit := arr_upd desc put_desc i g.
Definition set_free (i v : Z) : K disk unit := arr_upd dk_free put_free i (fun _ => v).
Definition set_info (i : Z) (g : info -> info) : K disk unit := arr_upd infos put_infos i g.

(** ** Descriptors *)

Fixpoint alloc_scan (n : nat) (i : Z) : K disk Z :=
  match n with
  | O => kret (-1)
  | S n =>
      f <- arr_get dk_free i ;;
      if negb (f =? 0) then set_free i 0 ;; kret i else alloc_scan n (i + 1)
  end.
Definition alloc_desc : K disk Z := alloc_scan (Z.to_nat NUM) 0.

Definition free_desc (i : Z) : K (kst V) unit :=
  if NUM <=? i then kpanic "free_desc 1" else
  f <- blk_op (disk_op (arr_get dk_free i)) ;;
  kwhen (negb (f =? 0)) (kpanic "free_desc 2") ;;
  blk_op (disk_op (set_desc i (fun _ => mkDesc 0 0 0 0))) ;;
  blk_op (disk_op (set_free i 1)) ;;
  via (wakeup run_queue process_list fuel qfuel free_chan).

Fixpoint free_chain (n : nat) (i : Z) : K (kst V) unit :=
  match n with
  | O => knofuel
  | S n =>
      d <- blk_op (disk_op (arr_get desc i)) ;;
      free_desc i ;;
      if negb (Z.land (d_flags d) VIRTQ_DESC_F_NEXT =? 0) then free_chain n (d_next d) else kret tt
  end.

(** The descriptors found so far are [done]; [None] is the return value -1. *)
Fixpoint free_all (js : list Z) : K (kst V) unit :=
  match js with [] => kret tt | j :: js => free_desc j ;; free_all js end.
Fixpoint alloc3_loop (n : nat) (done : list Z) : K (kst V) (option (list Z)) :=
  match n with
  | O => kret (Some done)
  | S n =>
      i <- blk_op (disk_op alloc_desc) ;;
      if i <? 0 then free_all done ;; kret None else alloc3_loop n (done ++ [i])
  end.
Definition alloc3_desc : K (kst V) (option (list Z)) := alloc3_loop 3 [].

(** ** Requests *)

(** From [buf0] to the notification of the device, for the descriptors [i0],
    [i1] and [i2]. *)
Definition format_request (b write i0 i1 i2 : Z) : K (blk V) unit :=
  bn <- getb blockno b ;;
  let sector := u32 (bn * (BSIZE / 512)) in
  disk_op (arr_upd ops put_ops i0 (fun _ => mkReq (if negb (write =? 0) then VIRTIO_BLK_T_OUT else VIRTIO_BLK_T_IN) 0 sector)) ;;
  disk_op (set_desc i0 (fun _ => mkDesc (ops_addr i0) 16 VIRTQ_DESC_F_NEXT i1)) ;;
  disk_op (set_desc i1 (fun _ => mkDesc (data_of b) BSIZE
    (Z.lor (if negb (write =? 0) then 0 else VIRTQ_DESC_F_WRITE) VIRTQ_DESC_F_NEXT) i2)) ;;
  disk_op (set_info i0 (fun x => mkInfo (i_b x) 0xff)) ;;
  disk_op (set_desc i2 (fun _ => mkDesc (status_addr i0) 1 VIRTQ_DESC_F_WRITE 0)) ;;
  setb (set_bdisk 1) b ;;
  disk_op (set_info i0 (fun x => mkInfo b (i_status x))).

Definition VIRTIO_MMIO_MAGIC_VALUE : Z := 0x000.
Definition VIRTIO_MMIO_VERSION : Z := 0x004.
Definition VIRTIO_MMIO_DEVICE_ID : Z := 0x008.
Definition VIRTIO_MMIO_VENDOR_ID : Z := 0x00c.
Definition VIRTIO_MMIO_DEVICE_FEATURES : Z := 0x010.
Definition VIRTIO_MMIO_DRIVER_FEATURES : Z := 0x020.
Definition VIRTIO_MMIO_QUEUE_SEL : Z := 0x030.
Definition VIRTIO_MMIO_QUEUE_NUM_MAX : Z := 0x034.
Definition VIRTIO_MMIO_QUEUE_NUM : Z := 0x038.
Definition VIRTIO_MMIO_QUEUE_READY : Z := 0x044.
Definition VIRTIO_MMIO_QUEUE_NOTIFY : Z := 0x050.
Definition VIRTIO_MMIO_INTERRUPT_STATUS : Z := 0x060.
Definition VIRTIO_MMIO_INTERRUPT_ACK : Z := 0x064.
Definition VIRTIO_MMIO_STATUS : Z := 0x070.
Definition VIRTIO_MMIO_QUEUE_DESC_LOW : Z := 0x080.
Definition VIRTIO_MMIO_QUEUE_DESC_HIGH : Z := 0x084.
Definition VIRTIO_MMIO_QUEUE_AVAIL_LOW : Z := 0x090.
Definition VIRTIO_MMIO_QUEUE_AVAIL_HIGH : Z := 0x094.
Definition VIRTIO_MMIO_QUEUE_USED_LOW : Z := 0x0a0.
Definition VIRTIO_MMIO_QUEUE_USED_HIGH : Z := 0x0a4.

Definition submit (i0 : Z) : K (blk V) unit :=
  disk_op (fun d =>
    match avail_ring d !! Z.to_nat (avail_idx d mod NUM) with
    | Some _ => Ret (tt, put_avail (avail_idx d) (<[Z.to_nat (avail_idx d mod NUM) := u16 i0]> (avail_ring d)) d)
    | None => Fault
    end) ;;
  disk_op (kmod (fun d => put_avail (u16 (avail_idx d + 1)) (avail_ring d) d)) ;;
  reg_write VIRTIO_MMIO_QUEUE_NOTIFY 0.

(** The interrupt handler. *)
Fixpoint intr_loop (n : nat) : K (blk V) unit :=
  match n with
  | O => knofuel
  | S n =>
      d <- kget bk_disk ;;
      if used_idx d =? dev_used_idx d then kret tt else
      match used_ring d !! Z.to_nat (used_idx d mod NUM) with
      | None => kfault
      | Some id =>
          x <- disk_op (arr_get infos id) ;;
          kwhen (negb (i_status x =? 0)) (kpanic "virtio_disk_intr status") ;;
          setb (set_bdisk 0) (i_b x) ;;
          disk_op (kmod (fun d => put_used_idx (u16 (used_idx d + 1)) d)) ;;
          intr_loop n
      end
  end.
(** [used_idx] has 16 bits, so the loop ends within 2^16 turns. *)
Definition virtio_disk_intr : K (blk V) unit :=
  st <- reg_read VIRTIO_MMIO_INTERRUPT_STATUS ;;
  reg_write VIRTIO_MMIO_INTERRUPT_ACK (Z.land st 3) ;;
  intr_loop (Z.to_nat (2 ^ 16)).

(** The device takes a step and, when it raises its interrupt, the handler runs:
    on this hart or another, it is not said which, so the interrupt enable of
    this hart is not looked at. That some hart takes the interrupt is assumed. *)
Definition poll : K (blk V) unit :=
  r <- (fun s => Ret (device_step s)) ;;
  if (r : bool) then virtio_disk_intr else kret tt.

(** [while(b->disk == 1)]. *)
Fixpoint wait_disk (n : nat) (b : addr) : K (blk V) unit :=
  match n with
  | O => knofuel
  | S n => d <- getb bdisk b ;; if d =? 1 then poll ;; wait_disk n b else kret tt
  end.

Definition virtio_disk_rw (n : nat) (b write : Z) : K (kst V) unit :=
  idx <- alloc3_desc ;;
  match idx with
  | Some [i0; i1; i2] =>
      blk_op (format_request b write i0 i1 i2) ;;
      blk_op (submit i0) ;;
      blk_op (wait_disk n b) ;;
      blk_op (disk_op (set_info i0 (fun x => mkInfo 0 (i_status x)))) ;;
      free_chain (Z.to_nat NUM) i0
  | _ => kpanic "no free desc"
  end.

(** ** Initialisation *)

Definition VIRTIO_CONFIG_S_ACKNOWLEDGES : Z := 1.
Definition VIRTIO_CONFIG_S_DRIVER : Z := 2.
Definition VIRTIO_CONFIG_S_DRIVER_OK : Z := 4.
Definition VIRTIO_CONFIG_S_FEATURES_OK : Z := 8.
(** RO, SCSI, CONFIG_WCE, MQ, ANY_LAYOUT, EVENT_IDX and INDIRECT_DESC. *)
Definition features_off : list Z := [5; 7; 11; 12; 27; 29; 28].
Definition drop_feature (features bit : Z) : Z := Z.land features (u64 (Z.lnot (Z.shiftl 1 bit))).

Definition reg (r : Z) : K (kst V) Z := blk_op (reg_read r).
Definition set_reg (r v : Z) : K (kst V) unit := blk_op (reg_write r (u32 v)).
Definition zero_page (a : Z) : K (kst V) unit := via (pm_op (fill a 0 PGSIZE)).

Definition virtio_disk_init : K (kst V) unit :=
  magic <- reg VIRTIO_MMIO_MAGIC_VALUE ;;
  ok <- (if negb (magic =? 0x74726976) then kret false else
         version <- reg VIRTIO_MMIO_VERSION ;;
         if negb (version =? 2) then kret false else
         id <- reg VIRTIO_MMIO_DEVICE_ID ;;
         if negb (id =? 2) then kret false else
         vendor <- reg VIRTIO_MMIO_VENDOR_ID ;;
         kret (vendor =? 0x554d4551)) ;;
  kwhen (negb ok) (kpanic "could not find virtio disk") ;;
  let status := 0 in
  set_reg VIRTIO_MMIO_STATUS status ;;
  let status := Z.lor status VIRTIO_CONFIG_S_ACKNOWLEDGES in
  set_reg VIRTIO_MMIO_STATUS status ;;
  let status := Z.lor status VIRTIO_CONFIG_S_DRIVER in
  set_reg VIRTIO_MMIO_STATUS status ;;
  features <- reg VIRTIO_MMIO_DEVICE_FEATURES ;;
  set_reg VIRTIO_MMIO_DRIVER_FEATURES (foldl drop_feature features features_off) ;;
  set_reg VIRTIO_MMIO_STATUS (Z.lor status VIRTIO_CONFIG_S_FEATURES_OK) ;;
  status <- reg VIRTIO_MMIO_STATUS ;;
  kwhen (Z.land status VIRTIO_CONFIG_S_FEATURES_OK =? 0) (kpanic "virtio disk FEATURES_OK unset") ;;
  set_reg VIRTIO_MMIO_QUEUE_SEL 0 ;;
  ready <- reg VIRTIO_MMIO_QUEUE_READY ;;
  kwhen (negb (ready =? 0)) (kpanic "virtio disk should not be ready") ;;
  max <- reg VIRTIO_MMIO_QUEUE_NUM_MAX ;;
  kwhen (max =? 0) (kpanic "virtio disk has no queue 0") ;;
  kwhen (max <? NUM) (kpanic "virtio disk max queue too short") ;;
  d <- via (pm_op kpmalloc) ;;
  a <- via (pm_op kpmalloc) ;;
  u <- via (pm_op kpmalloc) ;;
  kwhen ((d =? 0) || (a =? 0) || (u =? 0)) (kpanic "virtio disk kalloc") ;;
  zero_page d ;; zero_page a ;; zero_page u ;;
  blk_op (disk_op (kmod (fun k => mkDisk d a u (replicate 8 (mkDesc 0 0 0 0)) 0 (replicate 8 0) 0 (replicate 8 0)
    (dk_free k) (used_idx k) (infos k) (ops k)))) ;;
  set_reg VIRTIO_MMIO_QUEUE_NUM NUM ;;
  set_reg VIRTIO_MMIO_QUEUE_DESC_LOW d ;; set_reg VIRTIO_MMIO_QUEUE_DESC_HIGH (Z.shiftr d 32) ;;
  set_reg VIRTIO_MMIO_QUEUE_AVAIL_LOW a ;; set_reg VIRTIO_MMIO_QUEUE_AVAIL_HIGH (Z.shiftr a 32) ;;
  set_reg VIRTIO_MMIO_QUEUE_USED_LOW u ;; set_reg VIRTIO_MMIO_QUEUE_USED_HIGH (Z.shiftr u 32) ;;
  set_reg VIRTIO_MMIO_QUEUE_READY 1 ;;
  blk_op (disk_op (kmod (put_free (replicate 8 1)))) ;;
  set_reg VIRTIO_MMIO_STATUS (Z.lor status VIRTIO_CONFIG_S_DRIVER_OK).
End Virt.

(** ** A process that runs with no lock held

    What the operations of the block layer start from and end in, as far as
    the processes are concerned. *)

Section Quiet.
Context (run_queue process_list : addr) (fuel qfuel : nat).
Context (p : addr) (xs : list addr) (r : proc).

Record quiet (s : psys) : Prop := {
  qt_active : exists q, active run_queue qfuel p q s;
  qt_plist : plist run_queue process_list (ps_links s) (ps_procs s) xs;
  qt_rec : ps_procs s !! p = Some r;
  qt_locks lk : plain lk -> lock_free lk (ps_lk s)
}.

Lemma wakeup_quiet ch s :
  quiet s -> (length xs < fuel)%nat ->
  exists s', wakeup run_queue process_list fuel qfuel ch s = Ret (tt, s') /\ quiet s' /\ calm s s'.
Proof.
  intros [[q [Hrq Hcur Hn Hlk Hsz]] Hpl Hr Hfr] Hx.
  destruct (wakeup_ok run_queue process_list fuel qfuel p ch xs q s) as (s' & q' & H1 & Hc & Hw & Hk & _); [|done|done|].
  { split; [done|done| |done]. intros a Ha _. apply Hlk. by apply (pl_proc _ _ _ _ _ Hpl). }
  exists s'. split; [done|]. split; [|done]. pose proof Hc as (C1 & _ & _ & _ & R). pose proof R as (_ & R2 & _).
  destruct Hw as [Hrq' Hpl' _ Hsz']. split.
  - exists q'. split; [done|congruence|congruence| |done]. intros a Ha. eapply lk_restored_free; [exact R|].
    apply Hlk. destruct (ps_procs s !! a) eqn:E; [by eexists|]. rewrite (wk_dom _ _ _ _ _ Hk a E) in Ha. by destruct Ha.
  - done.
  - eapply wk_no; [exact Hk|done|]. right. by left.
  - intros lk Hl. eapply lk_restored_free; [exact R|]. by apply Hfr.
Qed.

(** A critical section: what runs between sees the lock held. *)
Lemma quiet_enter lk s :
  quiet s -> plain lk -> exists l, lock_op (acquire lk) s = Ret (tt, put_lk l s) /\
    (exists q, holds run_queue qfuel p lk q (put_lk l s)) /\ intena (hcpu l) = sie (hcpu (ps_lk s)) /\
    (forall lk', lk' <> lk -> locks l lk' = locks (ps_lk s) lk') /\ hartid l = hartid (ps_lk s).
Proof.
  intros [[q Ha] Hpl Hr Hfr] Hp.
  destruct (acquire_plain run_queue qfuel p q lk s Ha Hp (Hfr lk Hp)) as (l & Hl & Hh & Hi).
  exists l. split; [done|]. split; [by exists q|]. split; [done|]. by apply acquire_frame, Hfr.
Qed.

Lemma quiet_leave lk s0 l :
  quiet s0 -> plain lk -> (exists q, holds run_queue qfuel p lk q (put_lk l s0)) ->
  intena (hcpu l) = sie (hcpu (ps_lk s0)) -> (forall lk', lk' <> lk -> locks l lk' = locks (ps_lk s0) lk') ->
  hartid l = hartid (ps_lk s0) ->
  exists l', lock_op (release lk) (put_lk l s0) = Ret (tt, put_lk l' s0) /\ quiet (put_lk l' s0) /\
    lk_restored (ps_lk s0) l'.
Proof.
  intros [[q0 Ha0] Hpl Hr Hfr] Hp [q Hh] Hi Hlk Hhart.
  destruct (release_plain run_queue qfuel p q lk (put_lk l s0) Hh Hp) as (l' & H1 & Ha & Hf & Hs & Hfree).
  exists l'. split; [exact H1|].
  assert (Hlocks : forall lk', locks l' lk' = locks (ps_lk s0) lk').
  { intros lk'. destruct (release_held lk l) as (l2 & Hl2 & F1 & F2 & F3).
    - exact (ho_held _ _ _ _ _ _ Hh).
    - pose proof (ho_noff _ _ _ _ _ _ Hh) as Hn. cbn in Hn. lia.
    - exact (ho_sie _ _ _ _ _ _ Hh).
    - pose proof (lock_op_ok _ (put_lk l s0) _ _ Hl2) as H2. rewrite H1 in H2. apply ret_lk_inj in H2 as ->.
      rewrite F3. cbn. destruct (decide (lk' = lk)) as [->|Hne].
      + rewrite set_lock_eq. symmetry. apply (Hfr lk Hp).
      + rewrite set_lock_ne by done. by apply Hlk. }
  assert (Hcpu : noff (hcpu l') = 0) by exact (ac_noff _ _ _ _ _ Ha).
  assert (Hid : hartid l' = hartid (ps_lk s0)).
  { destruct (release_held lk l) as (l2 & Hl2 & F1 & F2 & F3).
    - exact (ho_held _ _ _ _ _ _ Hh).
    - pose proof (ho_noff _ _ _ _ _ _ Hh) as Hn. cbn in Hn. lia.
    - exact (ho_sie _ _ _ _ _ _ Hh).
    - pose proof (lock_op_ok _ (put_lk l s0) _ _ Hl2) as H2. rewrite H1 in H2. apply ret_lk_inj in H2 as ->. cbn in F1. congruence. }
  split.
  - split; [by exists q|done|done|]. intros lk' Hlk'. unfold lock_free. cbn. rewrite Hlocks. by apply Hfr.
  - split; [done|]. split; [rewrite Hcpu; symmetry; exact (ac_noff _ _ _ _ _ Ha0)|].
    split; [by rewrite Hs|]. split; [|done].
    intros Hn. pose proof (ac_noff _ _ _ _ _ Ha0). lia.
Qed.

Lemma calm_put_lk s l : lk_restored (ps_lk s) l -> calm s (put_lk l s).
Proof. intros H. unfold calm. by split_and!. Qed.
End Quiet.

(** ** The device *)

Section Laws.
Context {V : Type} `{Device V}.
Context (disk_base : addr).

(** The one request the device has not answered: its chain of descriptors, as
    the driver wrote it for the buffer [b]. *)
Record pending (s : blk V) (i0 i1 i2 b write : Z) (bf : buf) : Prop := {
  pd_idx : avail_idx (bk_disk s) = u16 (dev_used_idx (bk_disk s) + 1);
  pd_range : 0 <= dev_used_idx (bk_disk s) < 2 ^ 16;
  pd_ring : avail_ring (bk_disk s) !! Z.to_nat (dev_used_idx (bk_disk s) mod NUM) = Some i0;
  pd_used : length (used_ring (bk_disk s)) = 8%nat;
  pd_op : ops (bk_disk s) !! Z.to_nat i0 =
    Some (mkReq (if write =? 0 then VIRTIO_BLK_T_IN else VIRTIO_BLK_T_OUT) 0 (u32 (blockno bf)));
  pd_d0 : desc (bk_disk s) !! Z.to_nat i0 = Some (mkDesc (ops_addr disk_base i0) 16 VIRTQ_DESC_F_NEXT i1);
  pd_d1 : desc (bk_disk s) !! Z.to_nat i1 =
    Some (mkDesc (data_of b) BSIZE (Z.lor (if write =? 0 then VIRTQ_DESC_F_WRITE else 0) VIRTQ_DESC_F_NEXT) i2);
  pd_d2 : desc (bk_disk s) !! Z.to_nat i2 = Some (mkDesc (status_addr disk_base i0) 1 VIRTQ_DESC_F_WRITE 0);
  pd_info : exists st, infos (bk_disk s) !! Z.to_nat i0 = Some (mkInfo b st);
  pd_buf : bk_bufs s !! b = Some bf;
  pd_len : length (data bf) = 512%nat;
  pd_pos : 0 <= i0 < NUM
}.

(** The state when the device has answered it: the sector or the buffer
    written, the status byte 0, and the head of the chain in the used ring. *)
Definition answered (i0 b write : Z) (bf : buf) (v : V) (s : blk V) : blk V :=
  let d := bk_disk s in
  mkBlk (mkDisk (dk_desc d) (dk_avail d) (dk_used d) (desc d) (avail_idx d) (avail_ring d)
           (u16 (dev_used_idx d + 1)) (<[Z.to_nat (dev_used_idx d mod NUM) := i0]> (used_ring d))
           (dk_free d) (used_idx d) (<[Z.to_nat i0 := mkInfo b 0]> (infos d)) (ops d))
        (if write =? 0 then <[b := set_data (media (bk_dev s) (u32 (blockno bf))) bf]> (bk_bufs s) else bk_bufs s)
        (bk_links s) v.
Definition stored (write : Z) (bf : buf) (m m' : Z -> list Z) : Prop :=
  forall n, m' n = if negb (write =? 0) && (n =? u32 (blockno bf)) then data bf else m n.

(** What the virtio specification promises: a step of the device either only
    changes what is inside it, which it does a bounded number of times, or
    answers the request; register writes do not change what is stored. *)
Class DeviceLaws : Type := {
  patience : nat;
  rank : V -> nat;
  rank_le v : (rank v <= patience)%nat;
  media_length v n : length (media v n) = 512%nat;
  media_write x y v : media (mmio_write x y v) = media v;
  serves s i0 i1 i2 b write bf : pending s i0 i1 i2 b write bf ->
    (exists v, device_step s = (false, put_dev v s) /\ media v = media (bk_dev s) /\ (rank v < rank (bk_dev s))%nat) \/
    (exists v, device_step s = (true, answered i0 b write bf v s) /\ stored write bf (media (bk_dev s)) (media v))
}.
End Laws.

Section Driver.
Context {V : Type} `{Device V} (disk_base : addr) `{!DeviceLaws disk_base}.
Context (run_queue process_list : addr) (fuel qfuel : nat).

(** The driver between two requests. *)
Record idle (d : disk) : Prop := {
  id_free : dk_free d = replicate 8 1;
  id_idx : avail_idx d = dev_used_idx d /\ used_idx d = dev_used_idx d;
  id_range : 0 <= dev_used_idx d < 2 ^ 16;
  id_desc : length (desc d) = 8%nat;
  id_ring : length (avail_ring d) = 8%nat /\ length (used_ring d) = 8%nat;
  id_infos : length (infos d) = 8%nat;
  id_ops : length (ops d) = 8%nat
}.

Lemma disk_op_ok {A} (m : K disk A) (s : blk V) a d : m (bk_disk s) = Ret (a, d) -> disk_op m s = Ret (a, put_disk d s).
Proof. apply zoom_ret. Qed.
Lemma blk_op_ok {A} (m : K (blk V) A) (s : kst V) a x : m (k_blk s) = Ret (a, x) -> blk_op m s = Ret (a, put_blk x s).
Proof. apply zoom_ret. Qed.
Lemma getb_ok {A} (f : buf -> A) b (s : blk V) x : bk_bufs s !! b = Some x -> getb f b s = Ret (f x, s).
Proof. intros Hb. unfold getb. by rewrite Hb. Qed.
Lemma setb_ok f b (s : blk V) x : bk_bufs s !! b = Some x -> setb f b s = Ret (tt, put_bufs (<[b := f x]> (bk_bufs s)) s).
Proof. intros Hb. unfold setb. by rewrite Hb. Qed.
Lemma arr_upd_ok {A} (f : disk -> list A) put i g d : 0 <= i -> (Z.to_nat i < length (f d))%nat ->
  exists x, f d !! Z.to_nat i = Some x /\ arr_upd f put i g d = Ret (tt, put (<[Z.to_nat i := g x]> (f d)) d).
Proof.
  intros Hi Hl. destruct (lookup_lt_is_Some_2 (f d) (Z.to_nat i) Hl) as [x Hx]. exists x. split; [done|].
  unfold arr_upd. rewrite (proj2 (Z.ltb_ge i 0)) by done. by rewrite Hx.
Qed.
Lemma arr_upd_const {A} (f : disk -> list A) put i v d : 0 <= i -> (Z.to_nat i < length (f d))%nat ->
  arr_upd f put i (fun _ => v) d = Ret (tt, put (<[Z.to_nat i := v]> (f d)) d).
Proof. intros Hi Hl. by destruct (arr_upd_ok f put i (fun _ => v) d Hi Hl) as (x & _ & ->). Qed.
Lemma arr_get_ok {A} (f : disk -> list A) i x d : 0 <= i -> f d !! Z.to_nat i = Some x -> arr_get f i d = Ret (x, d).
Proof. intros Hi Hx. unfold arr_get. by rewrite (proj2 (Z.ltb_ge i 0)), Hx by done. Qed.

Lemma read_ok {A} (f : disk -> list A) i x (s : kst V) : 0 <= i -> f (bk_disk (k_blk s)) !! Z.to_nat i = Some x ->
  blk_op (disk_op (arr_get f i)) s = Ret (x, s).
Proof.
  intros Hi Hx. erewrite blk_op_ok by (apply disk_op_ok, arr_get_ok; [done|exact Hx]). by destruct s as [? ? []].
Qed.

(** *** Taking the descriptors *)

Lemma alloc3_ok (s : kst V) : dk_free (bk_disk (k_blk s)) = replicate 8 1 ->
  alloc3_desc run_queue process_list fuel qfuel disk_base s =
  Ret (Some [0; 1; 2], put_blk (put_disk (put_free [0; 0; 0; 1; 1; 1; 1; 1] (bk_disk (k_blk s))) (k_blk s)) s).
Proof.
  intros Hf. destruct s as [ps sy [d bf li v]]. destruct d as [? ? ? ? ? ? ? ? fr ? ? ?]. cbn in Hf. subst fr. reflexivity.
Qed.

Definition after_format (b write : Z) (bf : buf) (d : disk) : disk :=
  mkDisk (dk_desc d) (dk_avail d) (dk_used d)
    (<[2%nat := mkDesc (status_addr disk_base 0) 1 VIRTQ_DESC_F_WRITE 0]>
     (<[1%nat := mkDesc (data_of b) BSIZE (Z.lor (if write =? 0 then VIRTQ_DESC_F_WRITE else 0) VIRTQ_DESC_F_NEXT) 2]>
      (<[0%nat := mkDesc (ops_addr disk_base 0) 16 VIRTQ_DESC_F_NEXT 1]> (desc d))))
    (avail_idx d) (avail_ring d) (dev_used_idx d) (used_ring d) (dk_free d) (used_idx d)
    (<[0%nat := mkInfo b 0xff]> (infos d))
    (<[0%nat := mkReq (if write =? 0 then VIRTIO_BLK_T_IN else VIRTIO_BLK_T_OUT) 0 (u32 (blockno bf))]> (ops d)).

Lemma format_ok b write bf (s : blk V) :
  length (desc (bk_disk s)) = 8%nat -> length (infos (bk_disk s)) = 8%nat -> length (ops (bk_disk s)) = 8%nat ->
  bk_bufs s !! b = Some bf ->
  format_request disk_base b write 0 1 2 s =
  Ret (tt, put_bufs (<[b := set_bdisk 1 bf]> (bk_bufs s)) (put_disk (after_format b write bf (bk_disk s)) s)).
Proof.
  intros Hd Hi Ho Hb. destruct s as [d bs li v]. cbn in Hd, Hi, Ho, Hb.
  destruct d as [? ? ? ds ? ? ? ? fr ? ins os]. cbn in Hd, Hi, Ho.
  do 3 (destruct ds as [|? ds]; [done|]). destruct ins as [|[ib ist] ins]; [done|]. destruct os as [|o os]; [done|].
  unfold format_request. erewrite kbind_ret by (apply getb_ok; exact Hb).
  do 5 krun. erewrite kbind_ret by (apply setb_ok; exact Hb).
  change (BSIZE / 512) with 1. rewrite Z.mul_1_r. unfold after_format. destruct (write =? 0); reflexivity.
Qed.

Lemma mod_num x : 0 <= x -> (Z.to_nat (x mod NUM) < 8)%nat.
Proof. intros Hx. unfold NUM. pose proof (Z.mod_pos_bound x 8 ltac:(lia)). lia. Qed.

Lemma submit_ok (s : blk V) : 0 <= avail_idx (bk_disk s) -> length (avail_ring (bk_disk s)) = 8%nat ->
  submit 0 s = Ret (tt, put_dev (mmio_write VIRTIO_MMIO_QUEUE_NOTIFY 0 (bk_dev s))
    (put_disk (put_avail (u16 (avail_idx (bk_disk s) + 1))
       (<[Z.to_nat (avail_idx (bk_disk s) mod NUM) := 0]> (avail_ring (bk_disk s))) (bk_disk s)) s)).
Proof.
  intros Hj Hl. destruct (lookup_lt_is_Some_2 (avail_ring (bk_disk s)) (Z.to_nat (avail_idx (bk_disk s) mod NUM))) as [x Hx].
  { rewrite Hl. by apply mod_num. }
  unfold submit. erewrite kbind_ret by (apply disk_op_ok; rewrite Hx; reflexivity). krun. done.
Qed.

(** *** Waiting *)

Lemma intr_loop_one n b bf st (s : blk V) (d : disk) i0 :
  bk_disk s = d -> 0 <= used_idx d < 2 ^ 16 -> dev_used_idx d = u16 (used_idx d + 1) -> used_idx d <> dev_used_idx d ->
  used_ring d !! Z.to_nat (used_idx d mod NUM) = Some i0 -> 0 <= i0 ->
  infos d !! Z.to_nat i0 = Some (mkInfo b 0) -> bk_bufs s !! b = Some bf ->
  intr_loop (S (S n)) (put_dev st s) =
  Ret (tt, put_dev st (put_bufs (<[b := set_bdisk 0 bf]> (bk_bufs s)) (put_disk (put_used_idx (dev_used_idx d) d) s))).
Proof.
  intros <- Hu Hi Hne Hr Hi0 Hinf Hb. cbn [intr_loop]. krun.
  change (bk_disk (put_dev st s)) with (bk_disk s). rewrite (proj2 (Z.eqb_neq _ _) Hne), Hr.
  erewrite kbind_ret by (apply disk_op_ok, (arr_get_ok infos i0 _ _ Hi0), Hinf). cbn [i_status Z.eqb negb kwhen i_b]. krun.
  erewrite kbind_ret by (apply (setb_ok _ b); exact Hb). krun.
  krun. cbn [bk_disk put_disk put_dev put_bufs used_idx put_used_idx dev_used_idx]. rewrite Hi, Z.eqb_refl. reflexivity.
Qed.

Lemma u16_range x : 0 <= u16 x < 2 ^ 16.
Proof. by apply wrap_range. Qed.
Lemma u16_next_ne x : 0 <= x < 2 ^ 16 -> u16 (x + 1) <> x.
Proof. intros Hx. unfold u16, wrap. dlia. Qed.
Lemma fuel16 : exists n, Z.to_nat (2 ^ 16) = S (S n).
Proof. exists (Z.to_nat (2 ^ 16 - 2)). lia. Qed.

Lemma intr_ok b bf (s : blk V) i0 :
  0 <= used_idx (bk_disk s) < 2 ^ 16 -> dev_used_idx (bk_disk s) = u16 (used_idx (bk_disk s) + 1) ->
  used_ring (bk_disk s) !! Z.to_nat (used_idx (bk_disk s) mod NUM) = Some i0 -> 0 <= i0 ->
  infos (bk_disk s) !! Z.to_nat i0 = Some (mkInfo b 0) -> bk_bufs s !! b = Some bf ->
  exists v, virtio_disk_intr s = Ret (tt, put_dev v (put_bufs (<[b := set_bdisk 0 bf]> (bk_bufs s))
      (put_disk (put_used_idx (dev_used_idx (bk_disk s)) (bk_disk s)) s))) /\ media v = media (bk_dev s).
Proof.
  intros Hu Hi Hr Hi0 Hinf Hb. eexists. split; [|apply (media_write disk_base)].
  unfold virtio_disk_intr. krun. krun. destruct fuel16 as [n ->].
  apply (intr_loop_one n b bf _ s (bk_disk s) i0); try done. rewrite Hi. intros E. by apply (u16_next_ne (used_idx (bk_disk s))).
Qed.

(** The state when the wait is over. *)
Definition finished (b write : Z) (bf : buf) (v : V) (s : blk V) : blk V :=
  let d := bk_disk s in
  mkBlk (mkDisk (dk_desc d) (dk_avail d) (dk_used d) (desc d) (avail_idx d) (avail_ring d)
           (u16 (dev_used_idx d + 1)) (<[Z.to_nat (dev_used_idx d mod NUM) := 0]> (used_ring d))
           (dk_free d) (u16 (dev_used_idx d + 1)) (<[0%nat := mkInfo b 0]> (infos d)) (ops d))
        (<[b := set_bdisk 0 (if write =? 0 then set_data (media (bk_dev s) (u32 (blockno bf))) bf else bf)]> (bk_bufs s))
        (bk_links s) v.

Lemma wait_ok b write bf : bdisk bf = 1 -> forall n (s : blk V),
  (rank disk_base (bk_dev s) < n)%nat -> used_idx (bk_disk s) = dev_used_idx (bk_disk s) ->
  pending disk_base s 0 1 2 b write bf ->
  exists v, wait_disk (S n) b s = Ret (tt, finished b write bf v s) /\ stored write bf (media (bk_dev s)) (media v).
Proof.
  intros Hdk. induction n as [|n IH]; intros s Hn Hu Hp; [lia|]. cbn [wait_disk].
  pose proof Hp as [P1 P2 P3 P4 P5 P6 P7 P8 [st P9] P10 P11 _].
  erewrite kbind_ret by (apply getb_ok; exact P10). rewrite Hdk, Z.eqb_refl.
  destruct (serves disk_base s 0 1 2 b write bf Hp) as [(v & Hs & Hm & Hr)|(v & Hs & Hm)].
  - assert (Hpoll : poll s = Ret (tt, put_dev v s)) by (unfold poll, kbind; by rewrite Hs).
    erewrite kbind_ret by exact Hpoll.
    destruct (IH (put_dev v s)) as (v' & H' & Hm'); [cbn; lia|done|by split; [..|exists st| | |]|].
    exists v'. split.
    + etransitivity; [exact H'|]. unfold finished. cbn. by rewrite Hm.
    + cbn in Hm'. by rewrite Hm in Hm'.
  - set (s1 := answered 0 b write bf v s) in *.
    set (bf1 := if write =? 0 then set_data (media (bk_dev s) (u32 (blockno bf))) bf else bf).
    assert (Hb1 : bk_bufs s1 !! b = Some bf1).
    { unfold s1, answered, bf1. cbn. destruct (write =? 0); [apply lookup_insert_eq|done]. }
    destruct (intr_ok b bf1 s1 0) as (v2 & Hi & Hm2); [| | |done| |exact Hb1|].
    + cbn. by rewrite Hu.
    + cbn. by rewrite Hu.
    + cbn. rewrite Hu. apply list_lookup_insert_eq. rewrite P4. apply mod_num. lia.
    + cbn. apply list_lookup_insert_eq. apply lookup_lt_is_Some_1. by eexists.
    + assert (Hpoll : poll s = virtio_disk_intr s1) by (unfold poll, kbind; by rewrite Hs).
      rewrite <- Hpoll in Hi. erewrite kbind_ret by exact Hi. exists v2. split.
      * cbn [wait_disk]. erewrite kbind_ret by (apply getb_ok; apply lookup_insert_eq). cbn [bdisk set_bdisk Z.eqb].
        unfold kret. do 2 f_equal. unfold put_dev, finished, s1, answered. cbn. f_equal.
        unfold bf1. destruct (write =? 0); [by rewrite insert_insert_eq|done].
      * intros k. rewrite Hm2. apply Hm.
Qed.

(** *** Giving the descriptors back *)

Section Free.
Context (p : addr) (xs : list addr) (r : proc) (Hxs : (length xs < fuel)%nat).
#[local] Abbreviation quiet := (quiet run_queue process_list qfuel p xs r).

Definition desc_freed (i : nat) (d : disk) : disk :=
  put_free (<[i := 1]> (dk_free d)) (put_desc (<[i := mkDesc 0 0 0 0]> (desc d)) d).

Lemma free_desc_ok i (s : kst V) :
  0 <= i < NUM -> dk_free (bk_disk (k_blk s)) !! Z.to_nat i = Some 0 -> length (desc (bk_disk (k_blk s))) = 8%nat ->
  quiet (k_ps s) ->
  exists ps, free_desc run_queue process_list fuel qfuel disk_base i s =
      Ret (tt, mkKst ps (k_sy s) (put_disk (desc_freed (Z.to_nat i) (bk_disk (k_blk s))) (k_blk s))) /\
    quiet ps /\ calm (k_ps s) ps.
Proof.
  intros [Hi Hi8] Hf Hd Hq. unfold free_desc. rewrite (proj2 (Z.leb_gt NUM i)) by done.
  erewrite kbind_ret by (apply read_ok; [done|exact Hf]). cbn [Z.eqb negb kwhen]. krun.
  erewrite kbind_ret by (apply blk_op_ok, disk_op_ok, arr_upd_const; [done|cbn; rewrite Hd; unfold NUM in *; lia]).
  erewrite kbind_ret by (apply blk_op_ok, disk_op_ok, arr_upd_const; [done|cbn; by apply lookup_lt_is_Some_1; eexists]).
  destruct (wakeup_quiet run_queue process_list fuel qfuel p xs r (free_chan disk_base) (k_ps s) Hq Hxs) as (ps & Hw & Hq' & Hc).
  exists ps. split; [|done]. erewrite via_ret by exact Hw. by destruct s as [? ? []].
Qed.

Lemma free_chain_ok (s : kst V) ds fr :
  desc (bk_disk (k_blk s)) = ds -> dk_free (bk_disk (k_blk s)) = fr -> length ds = 8%nat ->
  (exists a l f, ds !! 0%nat = Some (mkDesc a l f 1) /\ Z.land f VIRTQ_DESC_F_NEXT <> 0) ->
  (exists a l f, ds !! 1%nat = Some (mkDesc a l f 2) /\ Z.land f VIRTQ_DESC_F_NEXT <> 0) ->
  (exists a l f x, ds !! 2%nat = Some (mkDesc a l f x) /\ Z.land f VIRTQ_DESC_F_NEXT = 0) ->
  fr = [0; 0; 0; 1; 1; 1; 1; 1] -> quiet (k_ps s) ->
  exists ps, free_chain run_queue process_list fuel qfuel disk_base (Z.to_nat NUM) 0 s =
      Ret (tt, mkKst ps (k_sy s) (put_disk (desc_freed 2 (desc_freed 1 (desc_freed 0 (bk_disk (k_blk s))))) (k_blk s))) /\
    quiet ps /\ calm (k_ps s) ps.
Proof.
  intros Ed Ef Hl (a0 & l0 & f0 & H0 & N0) (a1 & l1 & f1 & H1 & N1) (a2 & l2 & f2 & x2 & H2 & N2) Hfr Hq.
  change (Z.to_nat NUM) with 8%nat. unfold free_chain.
  erewrite kbind_ret by (apply (read_ok desc 0); [done|rewrite Ed; exact H0]).
  destruct (free_desc_ok 0 s) as (p1 & R1 & Q1 & C1); [done|by rewrite Ef, Hfr|by rewrite Ed|done|].
  erewrite kbind_ret by exact R1. cbn [d_flags d_next]. rewrite (proj2 (Z.eqb_neq _ 0) N0). cbn [negb].
  set (s1 := mkKst p1 _ _).
  erewrite kbind_ret by (apply (read_ok desc 1 (mkDesc a1 l1 f1 2)); [done|cbn; rewrite Ed; by rewrite list_lookup_insert_ne]).
  destruct (free_desc_ok 1 s1) as (p2 & R2 & Q2 & C2); [done|cbn; by rewrite Ef, Hfr|cbn; by rewrite length_insert, Ed|done|].
  erewrite kbind_ret by exact R2. cbn [d_flags d_next]. rewrite (proj2 (Z.eqb_neq _ 0) N1). cbn [negb].
  set (s2 := mkKst p2 _ _).
  erewrite kbind_ret by (apply (read_ok desc 2 (mkDesc a2 l2 f2 x2)); [done|cbn; rewrite Ed; by rewrite !list_lookup_insert_ne]).
  destruct (free_desc_ok 2 s2) as (p3 & R3 & Q3 & C3); [done|cbn; by rewrite Ef, Hfr|cbn; by rewrite !length_insert, Ed|done|].
  erewrite kbind_ret by exact R3. cbn [d_flags d_next]. rewrite N2. cbn [Z.eqb negb].
  exists p3. split; [|split; [done|]].
  - unfold kret. do 3 f_equal.
  - eapply calm_trans; [exact C1|]. eapply calm_trans; [exact C2|exact C3].
Qed.

Lemma virtio_disk_rw_ok n b write bf (s : kst V) :
  idle (bk_disk (k_blk s)) -> bk_bufs (k_blk s) !! b = Some bf -> length (data bf) = 512%nat ->
  quiet (k_ps s) -> (patience disk_base < n)%nat ->
  exists s', virtio_disk_rw run_queue process_list fuel qfuel disk_base (S n) b write s = Ret (tt, s') /\
    bk_bufs (k_blk s') = <[b := set_bdisk 0 (if write =? 0 then set_data (media (bk_dev (k_blk s)) (u32 (blockno bf))) bf else bf)]> (bk_bufs (k_blk s)) /\
    stored write bf (media (bk_dev (k_blk s))) (media (bk_dev (k_blk s'))) /\
    idle (bk_disk (k_blk s')) /\ bk_links (k_blk s') = bk_links (k_blk s) /\ k_sy s' = k_sy s /\
    quiet (k_ps s') /\ calm (k_ps s) (k_ps s').
Proof.
  intros [If [Ia Iu] Ir Ide [Ira Iru] Iin Io] Hb Hlen Hq Hn.
  set (d := bk_disk (k_blk s)) in *. set (j := dev_used_idx d) in *.
  set (d1 := after_format b write bf (put_free [0; 0; 0; 1; 1; 1; 1; 1] d)).
  set (bf1 := set_bdisk 1 bf).
  set (k1 := put_bufs (<[b := bf1]> (bk_bufs (k_blk s))) (put_disk d1 (k_blk s))).
  set (d2 := put_avail (u16 (j + 1)) (<[Z.to_nat (j mod NUM) := 0]> (avail_ring d)) d1).
  set (k2 := put_dev (mmio_write VIRTIO_MMIO_QUEUE_NOTIFY 0 (bk_dev (k_blk s))) (put_disk d2 k1)).
  unfold virtio_disk_rw. erewrite kbind_ret by by apply alloc3_ok. cbv beta iota.
  erewrite kbind_ret by (apply blk_op_ok, (format_ok b write bf); done). fold d d1.
  erewrite kbind_ret by (apply blk_op_ok, submit_ok; [cbn; rewrite Ia; lia|done]).
  match goal with |- context [put_blk ?k _] => replace k with k2 by (unfold k2, d2, k1; cbn; by rewrite Ia) end.
  destruct (wait_ok b write bf1 eq_refl n k2) as (v & Hw & Hst).
  { cbn. pose proof (rank_le disk_base (mmio_write VIRTIO_MMIO_QUEUE_NOTIFY 0 (bk_dev (k_blk s)))). lia. }
  { exact Iu. }
  { split; try done.
    - cbn. rewrite list_lookup_insert_eq; [done|]. rewrite Ira. apply mod_num. fold j. lia.
    - cbn. rewrite list_lookup_insert_eq by (rewrite Io; lia). done.
    - cbn. rewrite !list_lookup_insert_ne, list_lookup_insert_eq by (done || rewrite Ide; lia). done.
    - cbn. rewrite list_lookup_insert_ne, list_lookup_insert_eq by (done || rewrite length_insert, Ide; lia). done.
    - cbn. rewrite list_lookup_insert_eq by (rewrite !length_insert, Ide; lia). done.
    - exists 255. cbn. rewrite list_lookup_insert_eq by (rewrite Iin; lia). done.
    - apply lookup_insert_eq. }
  erewrite kbind_ret by (apply blk_op_ok; exact Hw).
  set (k3 := finished b write bf1 v k2) in *.
  destruct (arr_upd_ok infos put_infos 0 (fun x => mkInfo 0 (i_status x)) (bk_disk k3)) as (y & _ & Hy); [done|cbn; rewrite !length_insert, Iin; lia|].
  erewrite kbind_ret by (apply blk_op_ok, disk_op_ok; exact Hy). set (s4 := put_blk _ _).
  destruct (free_chain_ok s4 (desc d1) [0; 0; 0; 1; 1; 1; 1; 1]) as (ps & Hf & Hq' & Hc); [done|done| | | | |done|exact Hq|].
  { cbn. rewrite !length_insert. exact Ide. }
  { eexists _, _, _. cbn. rewrite !list_lookup_insert_ne, list_lookup_insert_eq by (done || rewrite Ide; lia). split; [reflexivity|done]. }
  { eexists _, _, _. cbn. rewrite list_lookup_insert_ne, list_lookup_insert_eq by (done || rewrite length_insert, Ide; lia).
    split; [reflexivity|]. by destruct (write =? 0). }
  { eexists _, _, _, _. cbn. rewrite list_lookup_insert_eq by (rewrite !length_insert, Ide; lia). split; [reflexivity|done]. }
  eexists. split; [exact Hf|]. cbn [k_blk k_sy k_ps]. split; [|split; [|split; [|split; [done|split; [done|done]]]]].
  - change (bk_bufs (put_disk _ ?k)) with (bk_bufs k). change (bk_bufs (k_blk s4)) with (bk_bufs k3).
    unfold k3, finished. cbn [bk_bufs]. change (bk_bufs k2) with (<[b := bf1]> (bk_bufs (k_blk s))). rewrite insert_insert_eq. f_equal.
    change (bk_dev k2) with (mmio_write VIRTIO_MMIO_QUEUE_NOTIFY 0 (bk_dev (k_blk s))). rewrite (media_write disk_base).
    by destruct (write =? 0).
  - intros k. specialize (Hst k). change (bk_dev k2) with (mmio_write VIRTIO_MMIO_QUEUE_NOTIFY 0 (bk_dev (k_blk s))) in Hst.
    rewrite (media_write disk_base) in Hst. exact Hst.
  - split.
    + done.
    + done.
    + cbn. apply u16_range.
    + cbn. rewrite !length_insert. exact Ide.
    + cbn. rewrite !length_insert. done.
    + cbn. rewrite !length_insert. exact Iin.
    + cbn. rewrite !length_insert. exact Io.
Qed.

(** C9. [virtio_disk_rw] moves one sector. Called by a process that holds no
    lock while no other request is out, with a device that keeps the virtio
    contract, it terminates: a read replaces the data of the buffer by the
    sector of its block number, a write replaces that sector by the data; no
    other buffer and no other sector changes, the buffer's [disk] flag is
    clear, the descriptors are all free again and the rings are level, ready
    for the next request. *)
Theorem virtio_disk_rw_transfers n b write bf (s : kst V) :
  idle (bk_disk (k_blk s)) -> bk_bufs (k_blk s) !! b = Some bf -> length (data bf) = 512%nat ->
  quiet (k_ps s) -> (patience disk_base < n)%nat ->
  exists s', virtio_disk_rw run_queue process_list fuel qfuel disk_base (S n) b write s = Ret (tt, s') /\
    bk_bufs (k_blk s') = <[b := set_bdisk 0 (if write =? 0 then set_data (media (bk_dev (k_blk s)) (u32 (blockno bf))) bf else bf)]> (bk_bufs (k_blk s)) /\
    stored write bf (media (bk_dev (k_blk s))) (media (bk_dev (k_blk s'))) /\
    idle (bk_disk (k_blk s')) /\ bk_links (k_blk s') = bk_links (k_blk s) /\ k_sy s' = k_sy s /\
    quiet (k_ps s') /\ calm (k_ps s) (k_ps s').
Proof. apply virtio_disk_rw_ok. Qed.
End Free.
End Driver.

(** ** A device that answers at once *)

Definition sectors : Type := Z -> list Z.
Definition sector_at (v : sectors) (n : Z) : list Z := take 512 (v n ++ replicate 512 0).
Definition demo_base : addr := 20000.

Definition prompt_step (s : blk sectors) : bool * blk sectors :=
  let d := bk_disk s in
  match avail_ring d !! Z.to_nat (dev_used_idx d mod NUM) with
  | Some i0 =>
      match desc d !! Z.to_nat i0, ops d !! Z.to_nat i0 with
      | Some d0, Some op =>
          match desc d !! Z.to_nat (d_next d0) with
          | Some d1 =>
              let b := d_addr d1 - 88 in
              match bk_bufs s !! b with
              | Some bf =>
                  let write := r_type op in
                  let sd := d in
                  let v := if write =? 0 then bk_dev s
                           else fun n => if n =? r_sector op then data bf else bk_dev s n in
                  (true, mkBlk (mkDisk (dk_desc sd) (dk_avail sd) (dk_used sd) (desc sd) (avail_idx sd) (avail_ring sd)
                      (u16 (dev_used_idx sd + 1)) (<[Z.to_nat (dev_used_idx sd mod NUM) := i0]> (used_ring sd))
                      (dk_free sd) (used_idx sd) (<[Z.to_nat i0 := mkInfo b 0]> (infos sd)) (ops sd))
                    (if write =? 0 then <[b := set_data (sector_at (bk_dev s) (r_sector op)) bf]> (bk_bufs s) else bk_bufs s)
                    (bk_links s) v)
              | None => (false, s)
              end
          | None => (false, s)
          end
      | _, _ => (false, s)
      end
  | None => (false, s)
  end.

#[global] Instance prompt_device : Device sectors :=
  {| mmio_read := fun _ _ => 0; mmio_write := fun _ _ v => v; media := sector_at; device_step := prompt_step |}.

#[global] Instance prompt_laws : DeviceLaws demo_base.
Proof.
  refine {| patience := 0%nat; rank := fun _ => O |}.
  - done.
  - intros v n. cbn. unfold sector_at. rewrite length_take, length_app, length_replicate. lia.
  - done.
  - intros s i0 i1 i2 b write bf [P1 P2 P3 P4 P5 P6 P7 P8 [st P9] P10 P11 _]. right.
    cbn [device_step prompt_device]. unfold prompt_step. rewrite P3, P6, P5. cbn [d_next]. rewrite P7. cbn [d_addr r_type r_sector].
    unfold data_of. replace (b + 88 - 88) with b by lia. rewrite P10. unfold answered, stored.
    destruct (write =? 0); [by eexists|]. eexists. split; [reflexivity|].
    change (VIRTIO_BLK_T_OUT =? 0) with false. cbv iota. cbn [negb andb media prompt_device].
    intros n. unfold sector_at. destruct (Z.eqb_spec n (u32 (blockno bf))) as [->|Hn].
    + rewrite <- P11. by rewrite take_app_length.
    + done.
Defined.

Definition demo_disk : disk :=
  mkDisk 0 0 0 (replicate 8 (mkDesc 0 0 0 0)) 0 (replicate 8 0) 0 (replicate 8 0) (replicate 8 1) 0
    (replicate 8 (mkInfo 0 0)) (replicate 8 (mkReq 0 0 0)).
Definition demo_blk : blk sectors :=
  mkBlk demo_disk {[ 9000 := mkBuf 0 0 0 3 1 (replicate 512 7) ]} ∅ (fun _ => []).
Definition demo_kst : kst sectors := mkKst demo_sleep (demo_sync true 0) demo_blk.

Lemma demo_quiet : quiet 100 500 4 1000 [1000; 2000; 3000] (demo_sleeper RUNNING 1 0) demo_sleep.
Proof. split; [exists []; apply demo_sleep_active|apply demo_sleep_plist|reflexivity|done]. Qed.
Lemma demo_idle : idle demo_disk.
Proof. by split. Qed.

Lemma virtio_disk_rw_transfers_witness :
  exists s', virtio_disk_rw 100 500 4 4 demo_base 2 9000 WRITE demo_kst = Ret (tt, s') /\
    media (bk_dev (k_blk s')) 3 = replicate 512 7.
Proof.
  destruct (virtio_disk_rw_transfers demo_base 100 500 4 4 1000 [1000; 2000; 3000] (demo_sleeper RUNNING 1 0)
    ltac:(simpl; lia) 1 9000 WRITE (mkBuf 0 0 0 3 1 (replicate 512 7)) demo_kst) as (s' & H & _ & Hm & _).
  - apply demo_idle.
  - reflexivity.
  - reflexivity.
  - apply demo_quiet.
  - cbn. lia.
  - exists s'. split; [exact H|]. by rewrite Hm.
Defined.
