(* ===== verification/VirtTest.v ===== *)
(** The self-test of the disk driver: [virtioTest] of src/kernel/virt.c.

    It writes a pattern to each of the first two sectors and reads it back. Here
    the buffers [bufR] and [bufW] on its stack are two objects of the block
    layer; what they hold at the start is arbitrary. *)
From S2P Require Import Prelude CString Bytes Spinlock DList Pm Ids Proc Schedule Sleep Printf Virt.

Section VirtTest.
Context {V : Type} `{Device V}.
Context (run_queue process_list : addr) (fuel qfuel : nat).
Context (disk_base : addr).
Context (bufR bufW : addr).
(** The memory around the buffers. *)
Context (stack : mem).

(** [for (int i = ...; i < BSIZE; i++) b.data[i] = f(i);] with [n] turns left. *)
Fixpoint fill_data (n : nat) (b i : Z) (f : Z -> Z) : K (kst V) unit :=
  match n with
  | O => kret tt
  | S n => blk_op (setb (fun x => set_data (<[Z.to_nat i := u8 (f i)]> (data x)) x) b) ;; fill_data n b (i + 1) f
  end.
(** [strncmp((const char * )bufR.data, (const char * )bufW.data, BSIZE)]. *)
Definition compare_data : K (kst V) Z :=
  r <- blk_op (getb data bufR) ;;
  w <- blk_op (getb data bufW) ;;
  kret (strncmp (mput (mput stack (data_of bufR) r) (data_of bufW) w) (data_of bufR) (data_of bufW) BSIZE).

#[local] Abbreviation rw := (virtio_disk_rw run_queue process_list fuel qfuel disk_base).
(** [n] is fuel for the waits of the four requests. *)
Definition virtioTest (n : nat) : K (kst V) unit :=
  blk_op (setb (set_blockno 0) bufW) ;;
  fill_data (Z.to_nat BSIZE) bufW 0 (fun i => chr "0" + i mod 10) ;;
  blk_op (setb (fun x => set_data (<[Z.to_nat (BSIZE - 1) := 0]> (data x)) x) bufW) ;;
  rw n bufW 1 ;;
  blk_op (setb (set_blockno 0) bufR) ;;
  rw n bufR 0 ;;
  c <- compare_data ;;
  kassert (c =? 0) ;;
  blk_op (setb (set_blockno 1) bufW) ;;
  fill_data (Z.to_nat BSIZE) bufW 0 (fun i => chr "2" + i mod 6) ;;
  rw n bufW 1 ;;
  blk_op (setb (set_blockno 1) bufR) ;;
  rw n bufR 0 ;;
  c <- compare_data ;;
  kassert (c =? 0).
End VirtTest.

(** ** The test passes *)

(** The patterns. *)
Definition pattern (f : Z -> Z) : list Z := map (fun i => u8 (f (Z.of_nat i))) (seq 0 512).
Definition pattern0 : list Z := <[511%nat := 0]> (pattern (fun i => chr "0" + i mod 10)).
Definition pattern1 : list Z := pattern (fun i => chr "2" + i mod 6).

(** Equal arrays compare equal, also when a NUL ends the comparison early. *)
Lemma strncmp_loop_same k m s1 s2 : forall idx, (forall i, idx <= i < idx + Z.of_nat k -> ld8 m (s1 + i) = ld8 m (s2 + i)) ->
  exists j, strncmp_loop k m s1 s2 idx = inl j /\ idx <= j <= idx + Z.of_nat k /\
    (j < idx + Z.of_nat k -> ld8 m (s1 + j) = 0 /\ ld8 m (s2 + j) = 0).
Proof.
  induction k as [|k IH]; intros idx Heq; cbn [strncmp_loop].
  - exists idx. split; [by destruct (_ || _)|lia].
  - rewrite (Heq idx) by lia. destruct (ld8 m (s2 + idx) =? 0) eqn:E; cbn [orb].
    + apply Z.eqb_eq in E. exists idx. split; [done|]. split; [lia|]. intros _. by rewrite (Heq idx) by lia.
    + rewrite Z.eqb_refl. cbn [negb]. destruct (IH (idx + 1)) as (j & R & Hj & Hz); [intros i Hi; apply Heq; lia|].
      exists j. split; [done|]. split; [lia|]. intros Hlt. apply Hz. lia.
Qed.
Lemma strncmp_same m s1 s2 n : 0 <= n -> (forall i, 0 <= i < n -> ld8 m (s1 + i) = ld8 m (s2 + i)) -> strncmp m s1 s2 n = 0.
Proof.
  intros Hn Heq. unfold strncmp. destruct (strncmp_loop_same (Z.to_nat n) m s1 s2 0) as (j & -> & Hj & Hz); [intros i Hi; apply Heq; lia|].
  destruct (Z.leb_spec n j) as [?|Hlt]; [done|]. destruct Hz as [-> ->]; [lia|]. by destruct (negb _).
Qed.

Section Passes.
Context {V : Type} `{Device V} (disk_base : addr) `{!DeviceLaws disk_base}.
Context (run_queue process_list : addr) (fuel qfuel : nat).
Context (p : addr) (xs : list addr) (r : proc) (Hxs : (length xs < fuel)%nat).
Context (bufR bufW : addr) (stack : mem).
Context (Happart : bufR + SIZEOF_BUF <= bufW \/ bufW + SIZEOF_BUF <= bufR).
#[local] Abbreviation quiet := (quiet run_queue process_list qfuel p xs r).
#[local] Abbreviation rw := (virtio_disk_rw run_queue process_list fuel qfuel disk_base).
#[local] Abbreviation bufs s := (bk_bufs (k_blk s)).
#[local] Abbreviation stored_at s := (media (bk_dev (k_blk s))).

(** Between the steps of the test: no request is out, and the buffers are [w]
    and [d]. *)
Record testing (s : kst V) (w d : buf) : Prop := {
  tg_idle : idle (bk_disk (k_blk s));
  tg_quiet : quiet (k_ps s);
  tg_w : bufs s !! bufW = Some w;
  tg_r : bufs s !! bufR = Some d;
  tg_lw : length (data w) = 512%nat;
  tg_lr : length (data d) = 512%nat
}.
Lemma buffers_differ : bufR <> bufW.
Proof. unfold SIZEOF_BUF in Happart. lia. Qed.

(** Setting a field of one of the buffers. *)
Lemma set_w f s w d : testing s w d -> length (data (f w)) = 512%nat ->
  exists s', blk_op (setb f bufW) s = Ret (tt, s') /\ testing s' (f w) d /\ stored_at s' = stored_at s.
Proof.
  intros [T1 T2 T3 T4 T5 T6] Hl. eexists. split; [by apply blk_op_ok, setb_ok|]. split; [|done]. split; try done; cbn.
  - apply lookup_insert_eq.
  - rewrite lookup_insert_ne; [done|]. intros E. by apply buffers_differ.
Qed.
Lemma set_r f s w d : testing s w d -> length (data (f d)) = 512%nat ->
  exists s', blk_op (setb f bufR) s = Ret (tt, s') /\ testing s' w (f d) /\ stored_at s' = stored_at s.
Proof.
  intros [T1 T2 T3 T4 T5 T6] Hl. eexists. split; [by apply blk_op_ok, setb_ok|]. split; [|done]. split; try done; cbn.
  - rewrite lookup_insert_ne; [done|]. apply buffers_differ.
  - apply lookup_insert_eq.
Qed.
Lemma fill_w f n : forall i s w d, testing s w d -> (i + n = 512)%nat ->
  exists s', fill_data n bufW (Z.of_nat i) f s = Ret (tt, s') /\ stored_at s' = stored_at s /\
    testing s' (set_data (take i (data w) ++ map (fun j => u8 (f (Z.of_nat j))) (seq i n)) w) d.
Proof.
  induction n as [|n IH]; intros i s w d Ht Hi; cbn [fill_data seq map].
  - exists s. split; [done|]. split; [done|]. rewrite app_nil_r, take_ge by (rewrite (tg_lw s w d Ht); lia). by destruct w.
  - destruct (set_w (fun x => set_data (<[Z.to_nat (Z.of_nat i) := u8 (f (Z.of_nat i))]> (data x)) x) s w d Ht) as (s1 & R1 & T1 & M1);
      [cbn; rewrite length_insert; apply Ht|].
    destruct (IH (S i) s1 _ d T1 ltac:(lia)) as (s2 & R2 & M2 & T2). exists s2.
    split; [erewrite kbind_ret by exact R1; by replace (Z.of_nat i + 1) with (Z.of_nat (S i)) by lia|]. split; [by rewrite M2|].
    cbn [data set_data] in T2. rewrite Nat2Z.id in T2. rewrite (take_S_r _ i (u8 (f (Z.of_nat i)))), take_insert_ge, <- app_assoc in T2; [exact T2|lia|].
    apply list_lookup_insert_eq. rewrite (tg_lw s w d Ht). lia.
Qed.

Lemma write_w n s w d : testing s w d -> (patience disk_base < n)%nat ->
  exists s', rw (S n) bufW 1 s = Ret (tt, s') /\ testing s' (set_bdisk 0 w) d /\
    stored 1 w (stored_at s) (stored_at s').
Proof.
  intros [T1 T2 T3 T4 T5 T6] Hn.
  destruct (virtio_disk_rw_ok disk_base run_queue process_list fuel qfuel p xs r Hxs n bufW 1 w s T1 T3 T5 T2 Hn) as (s' & R & B & M & I & _ & _ & Q & _).
  exists s'. split; [done|]. split; [|done]. change (1 =? 0) with false in B. cbv iota in B. split; try done; rewrite B.
  - apply lookup_insert_eq.
  - rewrite lookup_insert_ne; [done|]. intros E. by apply buffers_differ.
Qed.
Lemma read_r n s w d : testing s w d -> (patience disk_base < n)%nat ->
  exists s', rw (S n) bufR 0 s = Ret (tt, s') /\ testing s' w (set_bdisk 0 (set_data (stored_at s (u32 (blockno d))) d)) /\
    forall k, stored_at s' k = stored_at s k.
Proof.
  intros [T1 T2 T3 T4 T5 T6] Hn.
  destruct (virtio_disk_rw_ok disk_base run_queue process_list fuel qfuel p xs r Hxs n bufR 0 d s T1 T4 T6 T2 Hn) as (s' & R & B & M & I & _ & _ & Q & _).
  exists s'. split; [done|]. split; [|exact M]. change (0 =? 0) with true in B. cbv iota in B. split; try done; rewrite ?B.
  - rewrite lookup_insert_ne; [done|]. apply buffers_differ.
  - apply lookup_insert_eq.
  - cbn. by apply (media_length disk_base).
Qed.
Lemma compare_ok s w d : testing s w d -> data d = data w -> compare_data bufR bufW stack s = Ret (0, s).
Proof.
  intros [T1 T2 T3 T4 T5 T6] He. unfold compare_data.
  erewrite kbind_ret by (apply blk_op_ok, getb_ok; exact T4). erewrite kbind_ret by (apply blk_op_ok, getb_ok; exact T3).
  rewrite He, strncmp_same; [by destruct s as [? ? []]|done|]. intros i Hi. unfold BSIZE in Hi.
  destruct (lookup_lt_is_Some_2 (data w) (Z.to_nat i)) as [c Hc]; [lia|]. replace i with (Z.of_nat (Z.to_nat i)) by lia.
  rewrite (ld8_mput_in _ _ _ _ _ Hc), (ld8_mput_out _ (data_of bufW)) by (rewrite T5; unfold data_of, SIZEOF_BUF in *; lia).
  by rewrite (ld8_mput_in _ _ _ _ _ Hc).
Qed.

(** One round: the pattern in [bufW] goes to sector [k] and comes back. *)
Lemma test_round n k s w d : testing s w d -> blockno w = k -> 0 <= k < 2 ^ 32 -> (patience disk_base < n)%nat ->
  exists s1 s2 s3 w' d', rw (S n) bufW 1 s = Ret (tt, s1) /\ blk_op (setb (set_blockno k) bufR) s1 = Ret (tt, s2) /\
    rw (S n) bufR 0 s2 = Ret (tt, s3) /\ compare_data bufR bufW stack s3 = Ret (0, s3) /\ testing s3 w' d' /\
    forall j, stored_at s3 j = if j =? k then data w else stored_at s j.
Proof.
  intros Ht Hk Hr Hn. destruct (write_w n s w d Ht Hn) as (s1 & R1 & T1 & M1).
  destruct (set_r (set_blockno k) s1 _ d T1) as (s2 & R2 & T2 & M2); [apply Ht|].
  destruct (read_r n s2 _ _ T2 Hn) as (s3 & R3 & T3 & M3).
  assert (Hm : forall j, stored_at s2 j = if j =? k then data w else stored_at s j).
  { intros j. by rewrite M2, M1, Hk, u32_small by done. }
  exists s1, s2, s3. eexists _, _. split; [done|]. split; [done|]. split; [done|]. split; [|split; [exact T3|]].
  - apply (compare_ok _ _ _ T3). cbn. by rewrite u32_small, Hm, Z.eqb_refl by done.
  - intros j. by rewrite M3.
Qed.

(** The self-test of the disk passes. With a device that keeps the virtio
    contract, called by a process that holds no lock while no request is out,
    [virtioTest] returns and none of its assertions fails: each pattern comes
    back as it was written. It leaves the patterns in the first two sectors and
    changes no other. *)
Theorem virtioTest_passes n s w d : testing s w d -> (patience disk_base < n)%nat ->
  exists s' w' d', virtioTest run_queue process_list fuel qfuel disk_base bufR bufW stack (S n) s = Ret (tt, s') /\
    testing s' w' d' /\
    forall j, stored_at s' j = if j =? 1 then pattern1 else if j =? 0 then pattern0 else stored_at s j.
Proof.
  intros Ht Hn. destruct (set_w (set_blockno 0) s w d Ht (tg_lw _ _ _ Ht)) as (s1 & R1 & T1 & M1).
  destruct (fill_w (fun i => chr "0" + i mod 10) 512 0 s1 _ d T1 eq_refl) as (s2 & R2 & M2 & T2).
  destruct (set_w (fun x => set_data (<[Z.to_nat (BSIZE - 1) := 0]> (data x)) x) s2 _ d T2) as (s3 & R3 & T3 & M3).
  { cbn [data set_data]. rewrite length_insert. apply T2. }
  destruct (test_round n 0 s3 _ d T3 eq_refl ltac:(lia) Hn) as (s4 & s5 & s6 & w6 & d6 & R4 & R5 & R6 & C6 & T6 & M6).
  destruct (set_w (set_blockno 1) s6 w6 d6 T6 (tg_lw _ _ _ T6)) as (s7 & R7 & T7 & M7).
  destruct (fill_w (fun i => chr "2" + i mod 6) 512 0 s7 _ d6 T7 eq_refl) as (s8 & R8 & M8 & T8).
  destruct (test_round n 1 s8 _ d6 T8 eq_refl ltac:(lia) Hn) as (s9 & s10 & s11 & w11 & d11 & R9 & R10 & R11 & C11 & T11 & M11).
  exists s11, w11, d11. split; [|split; [done|]].
  - unfold virtioTest. erewrite kbind_ret by exact R1. erewrite kbind_ret by exact R2. erewrite kbind_ret by exact R3.
    erewrite kbind_ret by exact R4. erewrite kbind_ret by exact R5. erewrite kbind_ret by exact R6. erewrite kbind_ret by exact C6.
    erewrite kbind_ret by reflexivity. erewrite kbind_ret by exact R7. erewrite kbind_ret by exact R8.
    erewrite kbind_ret by exact R9. erewrite kbind_ret by exact R10. erewrite kbind_ret by exact R11. by erewrite kbind_ret by exact C11.
  - intros j. rewrite M11, M8, M7, M6, M3, M2, M1. reflexivity.
Qed.
End Passes.
