(* ===== verification/Buf.v ===== *)
(** The buffer cache: src/kernel/fs/buf.c.

    The list of buffers, from the most to the least recently released, is the
    doubly linked list threaded through them. [Class Cache] is what the file
    system uses of this component: its theorems are proved against the laws of
    [CacheLaws], which the last section proves of the code. *)
From S2P Require Import Prelude CString Spinlock DList Pm Ids Proc Schedule Sleep Virt.

Definition NBUF : Z := 30.

(** ** Operations *)

Section Buf.
Context {V : Type} `{Device V}.
Context (run_queue process_list : addr) (fuel qfuel : nat) (swtch : K (kst V) unit).
(** The fuel of the sleep locks and of the disk driver. *)
Context (sfuel dfuel : nat).
(** The addresses of [disk], of [bcache.buf] and of [bcache_list]. *)
Context (disk_base bufs_base bcache_list : addr).

Definition links_op {A} (m : K store A) : K (kst V) A := blk_op (zoom bk_links put_blinks m).
Definition buf_op {A} (m : K (blk V) A) : K (kst V) A := blk_op m.

Fixpoint binit_loop (n : nat) (b : addr) : K (kst V) unit :=
  match n with
  | O => kret tt
  | S n =>
      initsleeplock (lock_of b) ;;
      links_op (list_push_back bcache_list (belem b)) ;;
      binit_loop n (b + SIZEOF_BUF)
  end.
Definition binit : K (kst V) unit :=
  via (lock_op (initlock bcache_lock)) ;;
  links_op (list_init bcache_list) ;;
  binit_loop (Z.to_nat NBUF) bufs_base.

(** The [for] loop of [bget]: the buffer that holds the block, or [tmp]. *)
Fixpoint bget_loop (n : nat) (dev bn : Z) (e tmp : addr) : K (kst V) (addr + addr) :=
  match n with
  | O => knofuel
  | S n =>
      t <- links_op (list_end bcache_list) ;;
      if e =? t then kret (inr tmp) else
      let b := buf_of_belem e in
      d <- buf_op (getb bdev b) ;;
      hit <- (if d =? dev then k <- buf_op (getb blockno b) ;; kret (k =? bn) else kret false) ;;
      if (hit : bool) then kret (inl b) else
      c <- buf_op (getb refcnt b) ;;
      let tmp := if c =? 0 then (if tmp =? 0 then b else tmp) else tmp in
      e' <- links_op (list_next e) ;;
      bget_loop n dev bn e' tmp
  end.

Definition bget (dev bn : Z) : K (kst V) addr :=
  via (lock_op (acquire bcache_lock)) ;;
  e <- links_op (list_begin bcache_list) ;;
  f <- bget_loop sfuel dev bn e 0 ;;
  match f with
  | inl b =>
      c <- buf_op (getb refcnt b) ;;
      buf_op (setb (set_refcnt (u32 (c + 1))) b) ;;
      via (lock_op (release bcache_lock)) ;;
      acquiresleeplock swtch sfuel (lock_of b) ;;
      kret b
  | inr tmp =>
      if tmp =? 0 then kpanic "bget: no buffer" else
      buf_op (setb (set_bdev dev) tmp) ;;
      buf_op (setb (set_blockno bn) tmp) ;;
      buf_op (setb (set_valid 0) tmp) ;;
      buf_op (setb (set_refcnt 1) tmp) ;;
      via (lock_op (release bcache_lock)) ;;
      acquiresleeplock swtch sfuel (lock_of tmp) ;;
      kret tmp
  end.

Definition bread (dev bn : Z) : K (kst V) addr :=
  b <- bget dev bn ;;
  v <- buf_op (getb valid b) ;;
  kwhen (v =? 0)
    (virtio_disk_rw run_queue process_list fuel qfuel disk_base dfuel b READ ;;
     buf_op (setb (set_valid 1) b)) ;;
  kret b.

Definition bwrite (b : addr) : K (kst V) unit :=
  h <- holdingsleeplock (lock_of b) ;;
  kwhen (negb h) (kpanic "bwrite") ;;
  virtio_disk_rw run_queue process_list fuel qfuel disk_base dfuel b WRITE.

Definition brelse (b : addr) : K (kst V) unit :=
  h <- holdingsleeplock (lock_of b) ;;
  kwhen (negb h) (kpanic "brelse") ;;
  releasesleeplock run_queue process_list fuel qfuel (lock_of b) ;;
  via (lock_op (acquire bcache_lock)) ;;
  c <- buf_op (getb refcnt b) ;;
  buf_op (setb (set_refcnt (u32 (c - 1))) b) ;;
  c <- buf_op (getb refcnt b) ;;
  kwhen (c =? 0)
    (links_op (list_remove (belem b)) ;;
     links_op (list_push_front bcache_list (belem b))) ;;
  via (lock_op (release bcache_lock)).

Definition bpin (b : addr) : K (kst V) unit :=
  via (lock_op (acquire bcache_lock)) ;;
  c <- buf_op (getb refcnt b) ;;
  buf_op (setb (set_refcnt (u32 (c + 1))) b) ;;
  via (lock_op (release bcache_lock)).
Definition bunpin (b : addr) : K (kst V) unit :=
  via (lock_op (acquire bcache_lock)) ;;
  c <- buf_op (getb refcnt b) ;;
  buf_op (setb (set_refcnt (u32 (c - 1))) b) ;;
  via (lock_op (release bcache_lock)).
End Buf.

(** ** What the file system uses *)

Class Cache (S : Type) : Type := {
  cache_mem :: Lens S mem;
  c_bread : Z -> Z -> K S addr;
  c_bwrite : addr -> K S unit;
  c_brelse : addr -> K S unit;
  c_data : addr -> K S (list Z);
  c_set_data : (list Z -> list Z) -> addr -> K S unit;
  c_log : string -> K S unit
}.

(** [ASSERT_INFO] of macro.h: a condition that does not hold is logged with
    [log], and the code goes on. [c_log] stands for [_log] of printf.c (Printf.v)
    on the state the file system runs in; nothing below promises that it
    returns, unless a theorem asks for it with [log_returns]. *)
Definition ASSERT_INFO {S : Type} `{Cache S} (condition : bool) (msg : string) : K S unit :=
  if condition then kret tt else c_log msg.

Definition disk_upd (n : Z) (x : list Z) (D : Z -> list Z) : Z -> list Z := fun k => if k =? n then x else D k.

(** [cached s D X]: the blocks of device [cache_dev] hold [D], and the caller
    has the buffers of [X], each with the block it is for and its data. A block
    is read as it is, or as it was last written; two buffers are never for the
    same block. *)
Class CacheLaws (S : Type) `{Cache S} : Type := {
  cache_dev : Z;
  cached : S -> (Z -> list Z) -> gmap addr (Z * list Z) -> Prop;
  cached_length s D X n : cached s D X -> 0 <= n < 2 ^ 32 -> length (D n) = 512%nat;
  cached_mem s D X m : cached s D X -> cached (lput (T := mem) m s) D X;
  bread_ok s D X n :
    cached s D X -> (forall b x, X !! b = Some x -> x.1 <> n) -> Z.of_nat (size X) < NBUF -> 0 <= n < 2 ^ 32 ->
    exists b s', c_bread cache_dev n s = Ret (b, s') /\ X !! b = None /\ cached s' D (<[b := (n, D n)]> X) /\
      lget (T := mem) s' = lget s;
  data_ok s D X b n x : cached s D X -> X !! b = Some (n, x) -> c_data b s = Ret (x, s);
  set_data_ok s D X b n x f : cached s D X -> X !! b = Some (n, x) -> length (f x) = 512%nat ->
    exists s', c_set_data f b s = Ret (tt, s') /\ cached s' D (<[b := (n, f x)]> X) /\ lget (T := mem) s' = lget s;
  bwrite_ok s D X b n x : cached s D X -> X !! b = Some (n, x) ->
    exists s', c_bwrite b s = Ret (tt, s') /\ cached s' (disk_upd n x D) X /\ lget (T := mem) s' = lget s;
  brelse_ok s D X b n : cached s D X -> X !! b = Some (n, D n) ->
    exists s', c_brelse b s = Ret (tt, s') /\ cached s' D (delete b X) /\ lget (T := mem) s' = lget s
}.

(** Logging comes back and touches neither the cache nor the memory. *)
Definition log_returns (S : Type) `{CacheLaws S} : Prop := forall msg (s : S) D X, cached s D X ->
  exists s', c_log msg s = Ret (tt, s') /\ cached s' D X /\ lget (T := mem) s' = lget s.

(** ** Sleep locks without contention *)

Section Uncontended.
Context {V : Type}.
Context (run_queue process_list : addr) (fuel qfuel : nat) (swtch : K (kst V) unit).
Context (p : addr) (xs : list addr) (r : proc) (Hxs : (length xs < fuel)%nat).
#[local] Abbreviation quiet := (quiet run_queue process_list qfuel p xs r).

(** A critical section of a spin lock; what runs in it leaves the processes
    alone. *)
Lemma critical lk ps : plain lk -> quiet ps ->
  exists l l', (forall sy (b : blk V), via (lock_op (acquire lk)) (mkKst ps sy b) = Ret (tt, mkKst (put_lk l ps) sy b)) /\
    (forall sy (b : blk V), via (lock_op (release lk)) (mkKst (put_lk l ps) sy b) = Ret (tt, mkKst (put_lk l' ps) sy b)) /\
    quiet (put_lk l' ps).
Proof.
  intros Hlk Hq. destruct (quiet_enter run_queue process_list qfuel p xs r lk ps Hq Hlk) as (l & Hl & Hh & Hi & Hfr & Hid).
  destruct (quiet_leave run_queue process_list qfuel p xs r lk ps l Hq Hlk Hh Hi Hfr Hid) as (l' & Hl' & Hq' & _).
  exists l, l'. split; [|split; [|done]].
  - intros sy b. erewrite via_ret by exact Hl. done.
  - intros sy b. erewrite via_ret by exact Hl'. done.
Qed.

Lemma getpid_quiet l ps sy (b : blk V) : quiet ps -> via getpid (mkKst (put_lk l ps) sy b) = Ret (pid r, mkKst (put_lk l ps) sy b).
Proof.
  intros [[q Ha] _ Hr _]. erewrite via_ret; [done|]. unfold getpid. krun. cbn. rewrite (ac_cur _ _ _ _ _ Ha). by apply getp_ok.
Qed.

Lemma sl_get_at a sy (ps : psys) (b : blk V) l : sy_locks sy !! a = Some l -> via (sl_get a) (mkKst ps sy b) = Ret (l, mkKst ps sy b).
Proof. intros Hl. erewrite via_ret; [done|]. unfold sl_get. cbn. by rewrite Hl. Qed.
Lemma sl_set_at a f sy (ps : psys) (b : blk V) l : sy_locks sy !! a = Some l ->
  via (sl_set a f) (mkKst ps sy b) = Ret (tt, mkKst ps (put_sl a (f l) sy) b).
Proof. intros Hl. erewrite via_ret; [done|]. unfold sl_set. cbn. by rewrite Hl. Qed.

Lemma acquiresleeplock_free n a ps sy (b : blk V) l :
  quiet ps -> sy_locks sy !! a = Some l -> sl_locked l = false ->
  exists ps', acquiresleeplock swtch (S n) a (mkKst ps sy b) =
      Ret (tt, mkKst ps' (put_sl a (mkSleeplock true (pid r)) sy) b) /\ quiet ps' /\ pm_mem (ps_pm ps') = pm_mem (ps_pm ps).
Proof.
  intros Hq Hl Hfree. destruct (critical (sleep_lk a) ps (sleep_lk_plain a) Hq) as (k & k' & Hen & Hle & Hq').
  exists (put_lk k' ps). split; [|by split]. unfold acquiresleeplock. erewrite kbind_ret by apply Hen.
  cbn [await_unlocked]. rewrite kbind_assoc. erewrite kbind_ret by by apply sl_get_at. rewrite Hfree. krun.
  erewrite kbind_ret by (apply sl_set_at; exact Hl).
  erewrite kbind_ret by by apply getpid_quiet.
  erewrite kbind_ret by (apply sl_set_at; cbn; apply lookup_insert_eq).
  rewrite Hle. cbn. unfold put_sl. cbn. by rewrite insert_insert_eq.
Qed.

Lemma holdingsleeplock_own a ps sy (b : blk V) :
  quiet ps -> sy_locks sy !! a = Some (mkSleeplock true (pid r)) ->
  exists ps', holdingsleeplock a (mkKst ps sy b) = Ret (true, mkKst ps' sy b) /\ quiet ps' /\ pm_mem (ps_pm ps') = pm_mem (ps_pm ps).
Proof.
  intros Hq Hl. destruct (critical (sleep_lk a) ps (sleep_lk_plain a) Hq) as (k & k' & Hen & Hle & Hq').
  exists (put_lk k' ps). split; [|by split]. unfold holdingsleeplock. erewrite kbind_ret by apply Hen.
  erewrite kbind_ret by (apply sl_get_at; exact Hl). cbn [sl_locked sl_pid].
  erewrite kbind_ret by (erewrite kbind_ret by (by apply getpid_quiet); reflexivity).
  erewrite kbind_ret by apply Hle. by rewrite Z.eqb_refl.
Qed.

Lemma releasesleeplock_quiet a ps sy (b : blk V) l :
  quiet ps -> sy_locks sy !! a = Some l ->
  exists ps', releasesleeplock run_queue process_list fuel qfuel a (mkKst ps sy b) =
      Ret (tt, mkKst ps' (put_sl a (mkSleeplock false (-1)) sy) b) /\ quiet ps' /\ pm_mem (ps_pm ps') = pm_mem (ps_pm ps).
Proof.
  intros [[q Ha] Hpl Hr Hfr] Hl.
  destruct (releasesleeplock_ok run_queue process_list fuel qfuel p a xs q (mkKst ps sy b) l) as
    (s' & q' & H1 & H2 & H3 & H4 & _ & _ & H5 & H6 & H7 & H8); [exact Ha| |apply Hfr, sleep_lk_plain|exact Hl|done|].
  { destruct Ha as [Ha1 Ha2 Ha3 Ha4 Ha5]. split; [done|done| |done]. intros x Hx _. apply Ha4. by apply (pl_proc _ _ _ _ _ Hpl). }
  cbn [lget sync_st sync_ps kst_sync k_ps k_sy] in *. exists (k_ps s'). split; [|split; [|done]].
  - rewrite H1. destruct s' as [ps' sy' b']. cbn in H2 |- *. rewrite H2. do 3 f_equal.
    exact (H8 _ k_blk (fun _ _ => eq_refl) (fun _ _ => eq_refl)).
  - split; [by exists q'|exact H5| |].
    + eapply wk_no; [exact H3|done|]. right. by left.
    + intros lk Hlk. by apply H6, Hfr.
Qed.
End Uncontended.

(** ** The invariant of the cache *)

Section Invariant.
Context {V : Type} `{Device V}.
Context (run_queue process_list : addr) (fuel qfuel : nat) (swtch : K (kst V) unit).
Context (sfuel dfuel : nat) (disk_base bcache_list : addr) `{!DeviceLaws disk_base}.
Context (p : addr) (xs : list addr) (r : proc) (Hxs : (length xs < fuel)%nat).
Context (Hsf : (Z.to_nat NBUF < sfuel)%nat) (Hdf : (Datatypes.S (patience disk_base) < dfuel)%nat).
Context (dev : Z).
#[local] Abbreviation quiet := (quiet run_queue process_list qfuel p xs r).
#[local] Abbreviation pmem := (fun s : kst V => pm_mem (ps_pm (k_ps s))).

(** The buffers in list order are those filled since the start, [A], followed
    by those never used, [B]. *)
Record order (s : kst V) (A B : list addr) : Prop := {
  or_list : dlist (bk_links (k_blk s)) bcache_list (map belem (A ++ B));
  or_num : Z.of_nat (length (A ++ B)) = NBUF;
  or_pos b : b ∈ A ++ B -> b <> 0;
  or_used b : b ∈ A -> exists bf, bk_bufs (k_blk s) !! b = Some bf /\ valid bf = 1 /\ bdev bf = dev /\
    0 <= blockno bf < 2 ^ 32 /\ length (data bf) = 512%nat;
  or_uniq b b' bf bf' : b ∈ A -> b' ∈ A -> bk_bufs (k_blk s) !! b = Some bf -> bk_bufs (k_blk s) !! b' = Some bf' ->
    blockno bf = blockno bf' -> b = b';
  or_new b : b ∈ B -> exists bf, bk_bufs (k_blk s) !! b = Some bf /\ valid bf = 0 /\ bdev bf = 0 /\ blockno bf = 0 /\
    refcnt bf = 0 /\ length (data bf) = 512%nat
}.

(** The free buffers: nobody has them, and those filled hold their block. *)
Definition spare (s : kst V) (D : Z -> list Z) (A : list addr) (b : addr) : Prop :=
  exists bf l, bk_bufs (k_blk s) !! b = Some bf /\ refcnt bf = 0 /\ (b ∈ A -> data bf = D (blockno bf)) /\
    sy_locks (k_sy s) !! lock_of b = Some l /\ sl_locked l = false.

Record cache_inv (s : kst V) (D : Z -> list Z) (X : gmap addr (Z * list Z)) : Prop := {
  ci_quiet : quiet (k_ps s);
  ci_idle : idle (bk_disk (k_blk s));
  ci_order : exists A B, order s A B /\
    (forall b x, X !! b = Some x -> b ∈ A) /\
    (forall b, b ∈ A ++ B -> X !! b = None -> spare s D A b);
  ci_held b n x : X !! b = Some (n, x) -> exists bf, bk_bufs (k_blk s) !! b = Some bf /\ refcnt bf = 1 /\ blockno bf = n /\
    data bf = x /\ sy_locks (k_sy s) !! lock_of b = Some (mkSleeplock true (pid r));
  ci_media n : 0 <= n < 2 ^ 32 -> media (bk_dev (k_blk s)) n = D n
}.

(** *** The search *)

Fixpoint scan (P : gmap addr buf) (bn : Z) (l : list addr) (tmp : addr) : addr + addr :=
  match l with
  | [] => inr tmp
  | b :: l =>
      match P !! b with
      | Some bf =>
          if (bdev bf =? dev) && (blockno bf =? bn) then inl b
          else scan P bn l (if refcnt bf =? 0 then (if tmp =? 0 then b else tmp) else tmp)
      | None => inr tmp
      end
  end.

Lemma links_read {A} (m : K store A) (s : kst V) a : m (bk_links (k_blk s)) = Ret (a, bk_links (k_blk s)) -> links_op m s = Ret (a, s).
Proof.
  intros Hm. unfold links_op. erewrite blk_op_ok by (apply zoom_ret; exact Hm). by destruct s as [? ? []].
Qed.
Lemma buf_read {A} (f : buf -> A) b (s : kst V) bf : bk_bufs (k_blk s) !! b = Some bf -> buf_op (getb f b) s = Ret (f bf, s).
Proof. intros Hb. unfold buf_op. erewrite blk_op_ok by (apply getb_ok; exact Hb). by destruct s as [? ? []]. Qed.
Lemma buf_write f b (s : kst V) bf : bk_bufs (k_blk s) !! b = Some bf ->
  buf_op (setb f b) s = Ret (tt, put_blk (put_bufs (<[b := f bf]> (bk_bufs (k_blk s))) (k_blk s)) s).
Proof. intros Hb. unfold buf_op. by erewrite blk_op_ok by (apply setb_ok; exact Hb). Qed.

Lemma buf_of_belem_at b : buf_of_belem (belem b) = b.
Proof. unfold buf_of_belem, belem. lia. Qed.

Lemma bget_loop_ok bn (s : kst V) l : forall n pre tmp,
  dlist (bk_links (k_blk s)) bcache_list (map belem (pre ++ l)) ->
  (forall b, b ∈ l -> is_Some (bk_bufs (k_blk s) !! b)) -> (length l < n)%nat ->
  bget_loop bcache_list n dev bn (cur bcache_list (map belem l)) tmp s = Ret (scan (bk_bufs (k_blk s)) bn l tmp, s).
Proof.
  induction l as [|b l IH]; intros n pre tmp Hd Hb Hn; (destruct n as [|n]; [simpl in Hn; lia|]); cbn [bget_loop scan].
  - erewrite kbind_ret by (eapply links_read, end_ok, Hd). cbn [map]. by rewrite cur_nil, Z.eqb_refl.
  - erewrite kbind_ret by (eapply links_read, end_ok, Hd). rewrite map_app in Hd.
    rewrite (cur_tail _ bcache_list (map belem pre) (map belem (b :: l)) Hd), bool_decide_eq_false_2 by done.
    cbn [map]. rewrite cur_cons, buf_of_belem_at. destruct (Hb b) as [bf Hbf]; [by left|]. rewrite Hbf.
    erewrite kbind_ret by (apply buf_read; exact Hbf).
    assert (Hh : (if bdev bf =? dev then k <- buf_op (getb blockno b) ;; kret (k =? bn) else kret false) s =
      Ret ((bdev bf =? dev) && (blockno bf =? bn), s)).
    { destruct (bdev bf =? dev); [|done]. by erewrite kbind_ret by (apply buf_read; exact Hbf). }
    erewrite kbind_ret by exact Hh. destruct ((bdev bf =? dev) && (blockno bf =? bn)) eqn:Ht; [done|].
    erewrite kbind_ret by (apply buf_read; exact Hbf).
    erewrite kbind_ret by (eapply links_read, (next_elem _ _ (map belem pre) (belem b) (map belem l)), Hd).
    apply (IH n (pre ++ [b])).
    + rewrite <- app_assoc, map_app. exact Hd.
    + intros x Hx. apply Hb. by right.
    + simpl in Hn. lia.
Qed.

Definition hits (P : gmap addr buf) (bn : Z) (b : addr) : Prop :=
  exists bf, P !! b = Some bf /\ bdev bf = dev /\ blockno bf = bn.
Definition unused (P : gmap addr buf) (b : addr) : Prop := exists bf, P !! b = Some bf /\ refcnt bf = 0.

Lemma scan_found P bn l b : forall tmp, scan P bn l tmp = inl b ->
  exists l1 l2, l = l1 ++ b :: l2 /\ hits P bn b /\ forall x, x ∈ l1 -> ~ hits P bn x.
Proof.
  induction l as [|x l IH]; intros tmp Hs; cbn [scan] in Hs; [done|]. destruct (P !! x) as [bf|] eqn:Hx; [|done].
  destruct ((bdev bf =? dev) && (blockno bf =? bn)) eqn:Ht.
  - injection Hs as ->. exists [], l. split; [done|]. split; [|by intros y Hy%not_elem_of_nil].
    bool_to_prop. by exists bf.
  - destruct (IH _ Hs) as (l1 & l2 & -> & Hh & Hn). exists (x :: l1), l2. split; [done|]. split; [done|].
    intros y [->|Hy]%elem_of_cons; [|by apply Hn]. intros (bf' & Hb' & <- & <-). simplify_eq. by rewrite !Z.eqb_refl in Ht.
Qed.

Lemma scan_none P bn l b : forall tmp, scan P bn l tmp = inr b -> (forall x, x ∈ l -> x <> 0 /\ is_Some (P !! x)) ->
  (forall x, x ∈ l -> ~ hits P bn x) /\
  (if tmp =? 0 then
     (b = 0 /\ forall x, x ∈ l -> ~ unused P x) \/
     (exists l1 l2, l = l1 ++ b :: l2 /\ unused P b /\ forall x, x ∈ l1 -> ~ unused P x)
   else b = tmp).
Proof.
  induction l as [|x l IH]; intros tmp Hs Hl; cbn [scan] in Hs.
  { injection Hs as <-. split; [by intros y Hy%not_elem_of_nil|]. destruct (Z.eqb_spec tmp 0) as [->|]; [|done].
    left. split; [done|]. by intros y Hy%not_elem_of_nil. }
  destruct (Hl x) as [Hx0 [bf Hx]]; [by left|]. rewrite Hx in Hs.
  destruct ((bdev bf =? dev) && (blockno bf =? bn)) eqn:Ht; [done|].
  destruct (IH _ Hs) as [Hn Hb]; [intros y Hy; apply Hl; by right|]. split.
  - intros y [->|Hy]%elem_of_cons; [|by apply Hn]. intros (bf' & Hb' & <- & <-). simplify_eq. by rewrite !Z.eqb_refl in Ht.
  - destruct (Z.eqb_spec (refcnt bf) 0) as [Hr|Hr].
    + destruct (Z.eqb_spec tmp 0) as [->|Ht0].
      * rewrite (proj2 (Z.eqb_neq x 0)) in Hb by done. subst b. right. exists [], l. split; [done|].
        split; [by exists bf|]. by intros y Hy%not_elem_of_nil.
      * by rewrite (proj2 (Z.eqb_neq tmp 0)) in Hb by done.
    + destruct (tmp =? 0); [|done].
      assert (Hx' : ~ unused P x) by (intros (bf' & Hb' & E); simplify_eq).
      destruct Hb as [[-> Hall]|(l1 & l2 & -> & Hu & Hall)].
      * left. split; [done|]. intros y [->|Hy]%elem_of_cons; [done|by apply Hall].
      * right. exists (x :: l1), l2. split; [done|]. split; [done|]. intros y [->|Hy]%elem_of_cons; [done|by apply Hall].
Qed.

(** The buffer chosen is in [A] or it is the first of [B]. *)
Definition chosen (A B : list addr) (b : addr) : Prop := b ∈ A \/ exists B', B = b :: B'.

Lemma first_chosen (Q : addr -> Prop) A B l1 b l2 :
  A ++ B = l1 ++ b :: l2 -> (forall x, x ∈ l1 -> ~ Q x) -> (b ∈ B -> forall x, x ∈ B -> Q x) -> chosen A B b.
Proof.
  intros E Hn HB. apply app_eq_inv in E as [(k & -> & E)|(k & -> & E)].
  - destruct k as [|y k]; simpl in E.
    + right. by exists l2.
    + injection E as <- ->. left. set_solver.
  - destruct k as [|y k]; simpl in E.
    + right. by exists l2.
    + exfalso. apply (Hn y); [set_solver|]. apply HB; subst B; set_solver.
Qed.

(** *** [bget] *)

Lemma chosen_elem A B b : chosen A B b -> b ∈ A ++ B.
Proof. intros [Hb|[B' ->]]; set_solver. Qed.

Lemma order_some s A B b : order s A B -> b ∈ A ++ B -> exists bf, bk_bufs (k_blk s) !! b = Some bf /\ length (data bf) = 512%nat.
Proof.
  intros Ho [Hb|Hb]%elem_of_app.
  - destruct (or_used _ _ _ Ho b Hb) as (bf & ? & ? & ? & ? & ?). by exists bf.
  - destruct (or_new _ _ _ Ho b Hb) as (bf & ? & ? & ? & ? & ? & ?). by exists bf.
Qed.

Lemma order_nodup s A B : order s A B -> NoDup (A ++ B).
Proof.
  intros Ho. pose proof (d_nodup _ _ _ (or_list _ _ _ Ho)) as Hnd. unfold nodes in Hnd.
  apply NoDup_cons in Hnd as [_ Hnd]. apply NoDup_app in Hnd as [Hnd _]. by apply NoDup_fmap_1 in Hnd.
Qed.

Lemma chosen_prefix A B l1 (b : addr) l2 : A ++ B = l1 ++ b :: l2 -> b ∉ A -> forall x, x ∈ A -> x ∈ l1.
Proof.
  intros E Hb x Hx. apply app_eq_inv in E as [(k & -> & E)|(k & -> & _)]; [|set_solver].
  destruct k as [|y k]; [by rewrite app_nil_r in Hx|]. injection E as <- _. set_solver.
Qed.

Lemma all_held s A B (X : gmap addr (Z * list Z)) : order s A B ->
  (forall b, b ∈ A ++ B -> X !! b = None -> False) -> NBUF <= Z.of_nat (size X).
Proof.
  intros Ho Hall. rewrite <- (or_num _ _ _ Ho), <- (size_list_to_set (C := gset addr)) by by apply (order_nodup s).
  rewrite <- (size_dom X). apply inj_le, subseteq_size. intros b Hb%elem_of_list_to_set. apply elem_of_dom.
  destruct (X !! b) eqn:E; [by eexists|]. by destruct (Hall b).
Qed.


(** The buffer the search settles on. *)
Record choice (s : kst V) (D : Z -> list Z) (X : gmap addr (Z * list Z)) (A B : list addr) (n : Z) (b : addr) (bf : buf) : Prop := {
  ch_chosen : chosen A B b;
  ch_free : X !! b = None;
  ch_buf : bk_bufs (k_blk s) !! b = Some bf /\ refcnt bf = 0 /\ length (data bf) = 512%nat;
  ch_lock : exists l, sy_locks (k_sy s) !! lock_of b = Some l /\ sl_locked l = false;
  ch_valid : hits (bk_bufs (k_blk s)) n b -> valid bf = 0 \/ (valid bf = 1 /\ b ∈ A /\ data bf = D n);
  ch_uniq x bx : x ∈ A -> x <> b -> bk_bufs (k_blk s) !! x = Some bx -> blockno bx <> n
}.

Lemma scan_choice s D X A B n :
  order s A B -> (forall b, b ∈ A ++ B -> X !! b = None -> spare s D A b) ->
  (forall b n x, X !! b = Some (n, x) -> exists bf, bk_bufs (k_blk s) !! b = Some bf /\ refcnt bf = 1 /\ blockno bf = n) ->
  (forall b x, X !! b = Some x -> x.1 <> n) -> Z.of_nat (size X) < NBUF ->
  exists b bf, choice s D X A B n b bf /\
    ((scan (bk_bufs (k_blk s)) n (A ++ B) 0 = inl b /\ hits (bk_bufs (k_blk s)) n b) \/
     (scan (bk_bufs (k_blk s)) n (A ++ B) 0 = inr b /\ b <> 0)).
Proof.
  intros Ho Hfree Hheld Hnew Hsz.
  assert (Hsome : forall b, b ∈ A ++ B -> exists bf, bk_bufs (k_blk s) !! b = Some bf /\ length (data bf) = 512%nat)
    by (intros b; by apply order_some).
  destruct (scan (bk_bufs (k_blk s)) n (A ++ B) 0) as [b|b] eqn:Hs.
  - destruct (scan_found _ _ _ _ _ Hs) as (l1 & l2 & E & Hh & Hno).
    assert (HXb : X !! b = None).
    { destruct (X !! b) as [[n' x]|] eqn:HXb; [|done]. exfalso. apply (Hnew b _ HXb). cbn.
      destruct (Hheld b n' x HXb) as (bf' & Hbf' & _ & <-). destruct Hh as (bf & Hbf & _ & Hn). congruence. }
    assert (Hch : chosen A B b).
    { apply (first_chosen (hits (bk_bufs (k_blk s)) n) A B l1 b l2 E Hno). intros HbB x Hx.
      destruct (or_new _ _ _ Ho b HbB) as (bf' & Hbf' & _ & Hd0 & Hn0 & _).
      destruct (or_new _ _ _ Ho x Hx) as (bx & Hbx & _ & Hdx & Hnx & _).
      destruct Hh as (bf & Hbf & Hd & Hn). exists bx. split; [done|]. simplify_eq. split; congruence. }
    destruct (Hfree b (chosen_elem _ _ _ Hch) HXb) as (bf & k & Hbf & Hr0 & HD & Hk).
    destruct (Hsome b (chosen_elem _ _ _ Hch)) as (bf2 & Hbf2 & Hlen). assert (bf2 = bf) as -> by congruence.
    exists b, bf. split; [|by left]. split; [done|done|done|by exists k| |].
    + intros (bf' & Hbf' & _ & Hn). assert (bf' = bf) as -> by congruence.
      apply chosen_elem, elem_of_app in Hch as [HA|HB].
      * right. destruct (or_used _ _ _ Ho b HA) as (bf'' & Hbf'' & Hv & _). assert (bf'' = bf) as -> by congruence.
        split; [done|]. split; [done|]. rewrite <- Hn. by apply HD.
      * left. destruct (or_new _ _ _ Ho b HB) as (bf'' & Hbf'' & Hv & _). congruence.
    + intros x bx HxA Hxb Hbx Hn. destruct Hh as (bf' & Hbf' & _ & Hn'). destruct (decide (b ∈ A)) as [HbA|HbA].
      * apply Hxb. apply (or_uniq _ _ _ Ho x b bx bf'); [done|done|done|done|congruence].
      * apply (Hno x); [by apply (chosen_prefix A B l1 b l2)|]. destruct (or_used _ _ _ Ho x HxA) as (bx' & Hbx' & _ & Hd' & _).
        exists bx. assert (bx' = bx) as -> by congruence. done.
  - destruct (scan_none (bk_bufs (k_blk s)) n (A ++ B) b 0 Hs) as [Hno Hb].
    { intros x Hx. split; [by apply (or_pos _ _ _ Ho)|]. destruct (Hsome x Hx) as (bf & Hbf & _). by eexists. }
    rewrite Z.eqb_refl in Hb. destruct Hb as [[_ Hall]|(l1 & l2 & E & Hu & Hall)].
    { exfalso. pose proof (all_held _ A B X Ho) as Hge. apply Zlt_not_le in Hsz. apply Hsz, Hge. intros x Hx HXx.
      destruct (Hfree x Hx HXx) as (bf & _ & Hbf & Hr & _). apply (Hall x Hx). by exists bf. }
    assert (Hin : b ∈ A ++ B) by (rewrite E; set_solver).
    assert (HXb : X !! b = None).
    { destruct (X !! b) as [[n' x]|] eqn:HXb; [|done]. exfalso.
      destruct (Hheld b n' x HXb) as (bf' & Hbf' & Hr & _). destruct Hu as (bf & Hbf & Hr0). simplify_eq. lia. }
    destruct (Hfree b Hin HXb) as (bf & k & Hbf & Hr0 & HD & Hk).
    destruct (Hsome b Hin) as (bf2 & Hbf2 & Hlen). assert (bf2 = bf) as -> by congruence.
    exists b, bf. split; [|right; split; [done|by apply (or_pos _ _ _ Ho)]]. split; [|done|done|by exists k| |].
    + apply (first_chosen (unused (bk_bufs (k_blk s))) A B l1 b l2 E Hall). intros HbB x Hx.
      destruct (or_new _ _ _ Ho x Hx) as (bx & Hbx & _ & _ & _ & Hrx & _). by exists bx.
    + intros Hh. by destruct (Hno b Hin).
    + intros x bx HxA Hxb Hbx Hn. apply (Hno x); [set_solver|]. destruct (or_used _ _ _ Ho x HxA) as (bx' & Hbx' & _ & Hd' & _).
      exists bx. assert (bx' = bx) as -> by congruence. done.
Qed.

#[local] Abbreviation do_bget := (bget swtch sfuel bcache_list).

Lemma bcache_plain : plain bcache_lock.
Proof. by split. Qed.

(** The state after [bget] returned [b], its record [bf]. *)
Definition taken (s : kst V) (ps : psys) (b : addr) (bf : buf) : kst V :=
  mkKst ps (put_sl (lock_of b) (mkSleeplock true (pid r)) (k_sy s)) (put_bufs (<[b := bf]> (bk_bufs (k_blk s))) (k_blk s)).

Lemma bget_ok s D X n :
  cache_inv s D X -> (forall b x, X !! b = Some x -> x.1 <> n) -> Z.of_nat (size X) < NBUF ->
  exists A B b bf bf' ps, order s A B /\ (forall b x, X !! b = Some x -> b ∈ A) /\
    (forall b, b ∈ A ++ B -> X !! b = None -> spare s D A b) /\
    choice s D X A B n b bf /\ do_bget dev n s = Ret (b, taken s ps b bf') /\ quiet ps /\ pm_mem (ps_pm ps) = pmem s /\
    bdev bf' = dev /\ blockno bf' = n /\ refcnt bf' = 1 /\ data bf' = data bf /\
    (valid bf' = 0 \/ (valid bf' = 1 /\ b ∈ A /\ data bf = D n)).
Proof.
  intros [Hq Hi (A & B & Ho & HX & Hfree) Hheld Hm] Hnew Hsz.
  destruct (scan_choice s D X A B n Ho Hfree) as (b & bf & Hch & Hs); [|done|done|].
  { intros b0 n0 x0 H0. destruct (Hheld b0 n0 x0 H0) as (bf & ? & ? & ? & _). by exists bf. }
  destruct (ch_buf _ _ _ _ _ _ _ _ Hch) as (Hbf & Hr0 & Hlen). destruct (ch_lock _ _ _ _ _ _ _ _ Hch) as (k & Hk & Hkf).
  destruct s as [ps sy bk]. cbn [k_ps k_sy k_blk] in *.
  destruct (critical run_queue process_list qfuel p xs r (V := V) bcache_lock ps bcache_plain Hq) as (l & l' & Hen & Hle & Hq').
  assert (Esf : Datatypes.S (pred sfuel) = sfuel) by lia.
  set (bf' := match scan (bk_bufs bk) n (A ++ B) 0 with inl _ => set_refcnt 1 bf | inr _ =>
         set_refcnt 1 (set_valid 0 (set_blockno n (set_bdev dev bf))) end).
  destruct (acquiresleeplock_free (V := V) run_queue process_list qfuel swtch p xs r (pred sfuel) (lock_of b) (put_lk l' ps) sy
      (put_bufs (<[b := bf']> (bk_bufs bk)) bk) k Hq' Hk Hkf) as (ps' & H1 & H2 & H3). rewrite Esf in H1.
  exists A, B, b, bf, bf', ps'. split; [done|]. split; [done|]. split; [done|]. split; [done|]. split; [|split; [done|split; [done|]]].
  - unfold Buf.bget. erewrite kbind_ret by apply Hen. erewrite kbind_ret by (eapply links_read, begin_ok, (or_list _ _ _ Ho)).
    erewrite kbind_ret by (apply (bget_loop_ok n (mkKst (put_lk l ps) sy bk) (A ++ B) sfuel []);
      [apply (or_list _ _ _ Ho)|intros x Hx; destruct (order_some _ _ _ x Ho Hx) as (bx & ? & _); by eexists|pose proof (or_num _ _ _ Ho); lia]).
    cbn [k_blk]. unfold bf' in *. destruct Hs as [[Hs Hh]|[Hs Hb0]]; rewrite Hs in H1 |- *; cbv beta iota.
    + erewrite kbind_ret by (apply buf_read; exact Hbf). rewrite Hr0. erewrite kbind_ret by (apply buf_write; exact Hbf).
      erewrite kbind_ret by apply Hle. erewrite kbind_ret by exact H1. reflexivity.
    + rewrite (proj2 (Z.eqb_neq b 0) Hb0). erewrite kbind_ret by (apply buf_write; exact Hbf).
      do 3 (erewrite kbind_ret by (apply buf_write; cbn; apply lookup_insert_eq)).
      cbn [bk_bufs put_bufs k_blk put_blk]. rewrite !insert_insert_eq. erewrite kbind_ret by apply Hle. erewrite kbind_ret by exact H1. reflexivity.
  - unfold bf'. destruct Hs as [[Hs Hh]|[Hs Hb0]]; rewrite Hs; cbn.
    + pose proof (ch_valid _ _ _ _ _ _ _ _ Hch Hh) as Hv. destruct Hh as (bf2 & Hbf2 & Hd & Hn). cbn [k_blk] in Hbf2. by simplify_eq.
    + by split_and!; [..|left].
Qed.

Lemma order_promote s s' A B b bf n :
  order s A B -> chosen A B b -> bk_links (k_blk s') = bk_links (k_blk s) ->
  bk_bufs (k_blk s') = <[b := bf]> (bk_bufs (k_blk s)) ->
  valid bf = 1 -> bdev bf = dev -> blockno bf = n -> 0 <= n < 2 ^ 32 -> length (data bf) = 512%nat ->
  (forall x bx, x ∈ A -> x <> b -> bk_bufs (k_blk s) !! x = Some bx -> blockno bx <> n) ->
  exists A' B', order s' A' B' /\ A' ++ B' = A ++ B /\ (forall x, x ∈ A' <-> x ∈ A \/ x = b).
Proof.
  intros Ho Hch Hli Hbu Hv Hd Hn Hr Hlen Huniq. pose proof (order_nodup _ _ _ Ho) as Hnd.
  pose proof Ho as [H1 H2 H3 H4 H5 H6].
  assert (Hex : exists A' B', A' ++ B' = A ++ B /\ (forall x, x ∈ A' <-> x ∈ A \/ x = b) /\ (forall x, x ∈ B' -> x ∈ B /\ x <> b)).
  { destruct Hch as [HA|[B' ->]].
    - exists A, B. split; [done|]. split; [naive_solver|]. intros x Hx. split; [done|]. intros ->.
      apply NoDup_app in Hnd as (_ & Hdis & _). by apply (Hdis b).
    - exists (A ++ [b]), B'. rewrite <- app_assoc. split; [done|]. split; [set_solver|]. intros x Hx. split; [by right|]. intros ->.
      apply NoDup_app in Hnd as (_ & _ & Hnd). by apply NoDup_cons in Hnd as [? _]. }
  destruct Hex as (A' & B' & E & HA' & HB'). exists A', B'. split; [|done].
  assert (Hlk : forall x bx, x ∈ A' -> bk_bufs (k_blk s') !! x = Some bx ->
    (x = b /\ bx = bf) \/ (x <> b /\ x ∈ A /\ bk_bufs (k_blk s) !! x = Some bx)).
  { intros x bx Hx. rewrite Hbu. destruct (decide (x = b)) as [->|Hne].
    - rewrite lookup_insert_eq. intros [= <-]. by left.
    - rewrite lookup_insert_ne by done. intros Hbx. right. apply HA' in Hx as [Hx|]; [|done]. done. }
  split.
  - by rewrite E, Hli.
  - by rewrite E.
  - intros x. rewrite E. apply H3.
  - intros x Hx. apply HA' in Hx as [Hx| ->].
    + rewrite Hbu. destruct (decide (x = b)) as [->|Hne]; [exists bf; subst n; by rewrite lookup_insert_eq|].
      rewrite lookup_insert_ne by done. by apply H4.
    + exists bf. subst n. by rewrite Hbu, lookup_insert_eq.
  - intros x y bx by' Hx Hy Hbx Hby E'. destruct (Hlk x bx Hx Hbx) as [[-> ->]|(Hxb & HxA & Hbx')], (Hlk y by' Hy Hby) as [[-> ->]|(Hyb & HyA & Hby')].
    + done.
    + exfalso. by apply (Huniq y by'); [..|congruence].
    + exfalso. by apply (Huniq x bx); [..|congruence].
    + by apply (H5 x y bx by').
  - intros x Hx. destruct (HB' x Hx) as [HxB Hne]. rewrite Hbu, lookup_insert_ne by done. by apply H6.
Qed.

(** A buffer is handed to the caller. *)
Lemma cache_inv_take s s' D X A B n b bf bf2 :
  cache_inv s D X -> order s A B -> (forall b x, X !! b = Some x -> b ∈ A) ->
  (forall b, b ∈ A ++ B -> X !! b = None -> spare s D A b) -> choice s D X A B n b bf ->
  quiet (k_ps s') -> idle (bk_disk (k_blk s')) -> 
  (forall k, media (bk_dev (k_blk s')) k = media (bk_dev (k_blk s)) k) ->
  bk_links (k_blk s') = bk_links (k_blk s) -> k_sy s' = put_sl (lock_of b) (mkSleeplock true (pid r)) (k_sy s) ->
  bk_bufs (k_blk s') = <[b := bf2]> (bk_bufs (k_blk s)) ->
  valid bf2 = 1 -> bdev bf2 = dev -> blockno bf2 = n -> refcnt bf2 = 1 -> data bf2 = D n -> 0 <= n < 2 ^ 32 -> length (D n) = 512%nat ->
  cache_inv s' D (<[b := (n, D n)]> X).
Proof.
  intros [Hq Hi _ Hheld Hm] Ho HX Hfree Hch Hq' Hi' Hme Hli Hsy Hbu Hv Hd Hn Hr Hda Hrn Hlen.
  destruct (order_promote s s' A B b bf2 n) as (A' & B' & Ho' & E & HA'); try done.
  { apply Hch. }
  { by rewrite Hda. }
  { apply Hch. }
  split; [done|done| | |].
  - exists A', B'. split; [done|]. split.
    + intros x y [[<- _]|[_ Hx]]%lookup_insert_Some; apply HA'; [by right|left; by eapply HX].
    + intros x. rewrite E. intros Hx [HX0 Hne]%lookup_insert_None.
      destruct (Hfree x Hx HX0) as (bx & k & Hbx & Hrx & HDx & Hk & Hkf). exists bx, k.
      split; [by rewrite Hbu, lookup_insert_ne|]. split; [done|]. split.
      * intros Hx'. apply HDx. by apply HA' in Hx' as [? | ->].
      * split; [|done]. rewrite Hsy. cbn. rewrite lookup_insert_ne; [done|]. by intros ?%(inj lock_of).
  - intros x n' y [[<- [= <- <-]]|[Hne Hx]]%lookup_insert_Some.
    + exists bf2. rewrite Hbu, Hsy, lookup_insert_eq. cbn. rewrite lookup_insert_eq. done.
    + destruct (Hheld x n' y Hx) as (bx & Hbx & ? & ? & ? & Hk). exists bx. rewrite Hbu, Hsy, lookup_insert_ne by done. cbn.
      rewrite lookup_insert_ne; [done|]. by intros ?%(inj lock_of).
  - intros k Hk. by rewrite Hme, Hm.
Qed.

#[local] Abbreviation do_bread := (bread run_queue process_list fuel qfuel swtch sfuel dfuel disk_base bcache_list).
#[local] Abbreviation do_bwrite := (bwrite run_queue process_list fuel qfuel dfuel disk_base).
#[local] Abbreviation do_brelse := (brelse run_queue process_list fuel qfuel bcache_list).
#[local] Abbreviation do_virtio_disk_rw := (virtio_disk_rw run_queue process_list fuel qfuel disk_base).

Lemma stored_read bf (m m' : Z -> list Z) : stored READ bf m m' -> forall k, m' k = m k.
Proof. intros Hs k. by rewrite (Hs k). Qed.

(** [virtio_disk_rw] on a state of the invariant. *)
Lemma disk_rw_quiet b write bf (s : kst V) :
  quiet (k_ps s) -> idle (bk_disk (k_blk s)) -> bk_bufs (k_blk s) !! b = Some bf -> length (data bf) = 512%nat ->
  exists s', do_virtio_disk_rw dfuel b write s = Ret (tt, s') /\
    bk_bufs (k_blk s') = <[b := set_bdisk 0 (if write =? 0 then set_data (media (bk_dev (k_blk s)) (u32 (blockno bf))) bf else bf)]> (bk_bufs (k_blk s)) /\
    stored write bf (media (bk_dev (k_blk s))) (media (bk_dev (k_blk s'))) /\
    idle (bk_disk (k_blk s')) /\ bk_links (k_blk s') = bk_links (k_blk s) /\ k_sy s' = k_sy s /\
    quiet (k_ps s') /\ pmem s' = pmem s.
Proof.
  intros Hq Hi Hb Hlen. assert (Ed : Datatypes.S (pred dfuel) = dfuel) by lia.
  destruct (virtio_disk_rw_ok disk_base run_queue process_list fuel qfuel p xs r Hxs (pred dfuel) b write bf s Hi Hb Hlen Hq)
    as (s' & H1 & H2 & H3 & H4 & H5 & H6 & H7 & (_ & _ & H8 & _)); [lia|].
  rewrite Ed in H1. by exists s'.
Qed.

Lemma bread_cached s D X n :
  cache_inv s D X -> (forall b x, X !! b = Some x -> x.1 <> n) -> Z.of_nat (size X) < NBUF -> 0 <= n < 2 ^ 32 ->
  exists b s', do_bread dev n s = Ret (b, s') /\ X !! b = None /\ cache_inv s' D (<[b := (n, D n)]> X) /\ pmem s' = pmem s.
Proof.
  intros Hinv Hnew Hsz Hn. destruct (bget_ok s D X n Hinv Hnew Hsz) as
    (A & B & b & bf & bf' & ps & Ho & HX & Hfree & Hch & Hget & Hq & Hmem & Hd & Hbn & Hr & Hda & Hv).
  destruct (ch_buf _ _ _ _ _ _ _ _ Hch) as (_ & _ & Hlen). pose proof (ci_media _ _ _ Hinv n Hn) as Hmn.
  assert (HDn : length (D n) = 512%nat) by (rewrite <- Hmn; apply (media_length disk_base)).
  set (s1 := taken s ps b bf') in *. assert (Hb1 : bk_bufs (k_blk s1) !! b = Some bf') by apply lookup_insert_eq.
  unfold Buf.bread. exists b. destruct Hv as [Hv|(Hv & HbA & HD)].
  - destruct (disk_rw_quiet b READ bf' s1) as (s2 & H1 & H2 & H3 & H4 & H5 & H6 & H7 & H8);
      [done|apply Hinv|done|by rewrite Hda|].
    change (READ =? 0) with true in H2. cbv iota in H2. rewrite Hbn, u32_small in H2 by done. change (bk_dev (k_blk s1)) with (bk_dev (k_blk s)) in H2, H3.
    rewrite Hmn in H2.
    eexists. split; [|split; [apply Hch|split]].
    + erewrite kbind_ret by exact Hget. erewrite kbind_ret by (apply buf_read; exact Hb1). rewrite Hv.
      erewrite kbind_ret; [reflexivity|]. cbn [Z.eqb kwhen]. erewrite kbind_ret by exact H1.
      apply buf_write. rewrite H2. apply lookup_insert_eq.
    + eapply (cache_inv_take s _ D X A B n b bf (set_valid 1 (set_bdisk 0 (set_data (D n) bf')))); try done.
      cbn. rewrite H2. change (bk_bufs (k_blk s1)) with (<[b := bf']> (bk_bufs (k_blk s))). by rewrite !insert_insert_eq.
    + cbn. rewrite H8. exact Hmem.
  - exists s1. split; [|split; [apply Hch|split]].
    + erewrite kbind_ret by exact Hget. erewrite kbind_ret by (apply buf_read; exact Hb1). by rewrite Hv.
    + eapply (cache_inv_take s s1 D X A B n b bf bf'); try done.
      * apply Hinv.
      * congruence.
    + exact Hmem.
Qed.

(** The caller changes the record of a buffer it has. *)
Lemma cache_inv_upd s s' D D' X b n x bf bf2 :
  cache_inv s D X -> X !! b = Some (n, x) -> bk_bufs (k_blk s) !! b = Some bf ->
  quiet (k_ps s') -> idle (bk_disk (k_blk s')) -> bk_links (k_blk s') = bk_links (k_blk s) -> k_sy s' = k_sy s ->
  bk_bufs (k_blk s') = <[b := bf2]> (bk_bufs (k_blk s)) ->
  valid bf2 = valid bf -> bdev bf2 = bdev bf -> blockno bf2 = blockno bf -> refcnt bf2 = refcnt bf -> length (data bf2) = 512%nat ->
  (forall k, 0 <= k < 2 ^ 32 -> media (bk_dev (k_blk s')) k = D' k) -> (forall k, k <> n -> D' k = D k) ->
  cache_inv s' D' (<[b := (n, data bf2)]> X).
Proof.
  intros [_ _ (A & B & Ho & HX & Hfree) Hheld Hm] HXb Hbf Hq Hi Hli Hsy Hbu Hv Hd Hn Hr Hl Hme HD.
  pose proof (HX _ _ HXb) as HbA. destruct (Hheld _ _ _ HXb) as (bf' & Hbf' & Hr1 & Hn1 & _ & Hk).
  assert (bf' = bf) as -> by congruence.
  destruct (or_used _ _ _ Ho b HbA) as (bf'' & Hbf'' & Hv1 & Hd1 & Hrn & _).
  assert (bf'' = bf) as -> by congruence. rewrite <- Hn1 in *.
  destruct (order_promote s s' A B b bf2 (blockno bf)) as (A' & B' & Ho' & E & HA'); try done; try congruence.
  { by left. }
  { intros y by' Hy Hne Hby E. apply Hne. by apply (or_uniq _ _ _ Ho y b by' bf). }
  assert (HAA : forall y, y ∈ A' <-> y ∈ A) by (intros y; rewrite HA'; naive_solver).
  split; [done|done| | |done].
  - exists A', B'. split; [done|]. split.
    + intros y z [[<- _]|[_ Hy]]%lookup_insert_Some; apply HAA; [done|by eapply HX].
    + intros y. rewrite E. intros Hy [HX0 Hne]%lookup_insert_None.
      destruct (Hfree y Hy HX0) as (by' & k & Hby & Hry & HDy & Hk'). exists by', k.
      split; [by rewrite Hbu, lookup_insert_ne|]. split; [done|]. split; [|by rewrite Hsy].
      intros HyA. apply HAA in HyA. rewrite HDy by done. symmetry. apply HD. intros E'. apply Hne. symmetry.
      by apply (or_uniq _ _ _ Ho y b by' bf).
  - intros y n' z [[<- [= <- <-]]|[Hne Hy]]%lookup_insert_Some.
    + exists bf2. rewrite Hbu, Hsy, lookup_insert_eq. split; [done|]. split; [congruence|done].
    + destruct (Hheld y n' z Hy) as (by' & Hby & ?). exists by'. by rewrite Hbu, Hsy, lookup_insert_ne by done.
Qed.

Lemma held_facts s D X b n x : cache_inv s D X -> X !! b = Some (n, x) ->
  exists bf, bk_bufs (k_blk s) !! b = Some bf /\ refcnt bf = 1 /\ blockno bf = n /\ data bf = x /\
    sy_locks (k_sy s) !! lock_of b = Some (mkSleeplock true (pid r)) /\ length x = 512%nat /\ 0 <= n < 2 ^ 32.
Proof.
  intros [_ _ (A & B & Ho & HX & _) Hheld _] HXb. destruct (Hheld _ _ _ HXb) as (bf & Hbf & Hr & Hn & Hd & Hk).
  destruct (or_used _ _ _ Ho b (HX _ _ HXb)) as (bf' & Hbf' & _ & _ & Hrn & Hl). assert (bf' = bf) as -> by congruence.
  exists bf. subst. done.
Qed.

Lemma bwrite_cached s D X b n x :
  cache_inv s D X -> X !! b = Some (n, x) ->
  exists s', do_bwrite b s = Ret (tt, s') /\ cache_inv s' (disk_upd n x D) X /\ pmem s' = pmem s.
Proof.
  intros Hinv HXb. destruct (held_facts s D X b n x Hinv HXb) as (bf & Hbf & Hr & Hn & Hd & Hk & Hl & Hrn).
  destruct s as [ps sy bk]. cbn [k_ps k_sy k_blk] in *.
  destruct (holdingsleeplock_own (V := V) run_queue process_list qfuel p xs r (lock_of b) ps sy bk (ci_quiet _ _ _ Hinv) Hk)
    as (ps1 & H1 & Hq1 & Hm1).
  destruct (disk_rw_quiet b WRITE bf (mkKst ps1 sy bk)) as (s2 & H2 & H3 & H4 & H5 & H6 & H7 & H8 & H9);
    [done|apply Hinv|done|by rewrite Hd|].
  exists s2. split; [|split; [|by rewrite H9]].
  - unfold Buf.bwrite. erewrite kbind_ret by exact H1. krun. exact H2.
  - rewrite <- (insert_id X b (n, data (set_bdisk 0 bf))) by (cbn; by rewrite Hd).
    apply (cache_inv_upd (mkKst ps sy bk) s2 D (disk_upd n x D) X b n x bf); try done.
    + cbn. by rewrite Hd.
    + intros k Hk'. cbn in H4. rewrite H4. unfold disk_upd. cbn. rewrite Hn, u32_small, Hd by done.
      destruct (k =? n); [done|]. by apply (ci_media _ _ _ Hinv).
    + intros k Hk'. unfold disk_upd. by rewrite (proj2 (Z.eqb_neq k n)).
Qed.

Lemma links_write {A} (m : K store A) (s : kst V) a L : m (bk_links (k_blk s)) = Ret (a, L) ->
  links_op m s = Ret (a, put_blk (put_blinks L (k_blk s)) s).
Proof. intros Hm. unfold links_op. by erewrite blk_op_ok by (apply zoom_ret; exact Hm). Qed.

(** The list of buffers when [b] is moved to its front. *)
Lemma order_front s A B b : order s A B -> b ∈ A ->
  exists L1 L2 c A', list_remove (belem b) (bk_links (k_blk s)) = Ret (c, L1) /\
    list_push_front bcache_list (belem b) L1 = Ret (tt, L2) /\
    dlist L2 bcache_list (map belem ((b :: A') ++ B)) /\ b :: A' ≡ₚ A.
Proof.
  intros Ho (A1 & A2 & ->)%list_elem_of_split. pose proof (or_list _ _ _ Ho) as Hd.
  rewrite <- app_assoc, map_app in Hd. cbn [app map] in Hd.
  destruct (list_remove_ok _ _ _ _ _ Hd) as (L1 & HR & Hd1 & _ & Hlive & Hnz & Hni).
  destruct (push_front_ok L1 bcache_list _ (belem b) Hd1 Hlive Hnz Hni) as (L2 & HP & Hd2 & _).
  exists L1, L2. eexists _, (A1 ++ A2). split; [exact HR|]. split; [exact HP|]. split; [|by rewrite Permutation_middle].
  rewrite <- app_comm_cons, <- app_assoc. cbn [map]. by rewrite map_app.
Qed.

Lemma order_perm s s' A A' B bf b :
  order s A B -> A' ≡ₚ A -> dlist (bk_links (k_blk s')) bcache_list (map belem (A' ++ B)) ->
  bk_bufs (k_blk s) !! b = Some bf -> bk_bufs (k_blk s') = <[b := set_refcnt 0 bf]> (bk_bufs (k_blk s)) ->
  order s' A' B.
Proof.
  intros [H1 H2 H3 H4 H5 H6] HP Hd Hb Hbu.
  assert (Hlk : forall x bx, bk_bufs (k_blk s') !! x = Some bx -> exists bx', bk_bufs (k_blk s) !! x = Some bx' /\ blockno bx = blockno bx').
  { intros x bx. rewrite Hbu. intros [[<- <-]|[Hne Hbx]]%lookup_insert_Some; [by exists bf|by exists bx]. }
  split; [done| | | | |].
  - by rewrite HP.
  - intros x. rewrite HP. apply H3.
  - intros x Hx. rewrite HP in Hx. destruct (H4 x Hx) as (bx & Hbx & Hv & Hdv & Hn & Hl). rewrite Hbu.
    destruct (decide (x = b)) as [->|Hne].
    + rewrite lookup_insert_eq. assert (bx = bf) as -> by congruence. by exists (set_refcnt 0 bf).
    + rewrite lookup_insert_ne by done. by exists bx.
  - intros x y bx by' Hx Hy Hbx Hby E. rewrite HP in Hx, Hy.
    destruct (Hlk x bx Hbx) as (bx' & Hbx' & Ex), (Hlk y by' Hby) as (by2 & Hby' & Ey).
    by apply (H5 x y bx' by2); [..|congruence].
  - intros x Hx. destruct (H6 x Hx) as (bx & Hbx & Hv & Hdv & Hn & Hr & Hl). rewrite Hbu.
    destruct (decide (x = b)) as [->|Hne].
    + rewrite lookup_insert_eq. assert (bx = bf) as -> by congruence. by exists (set_refcnt 0 bf).
    + rewrite lookup_insert_ne by done. by exists bx.
Qed.

Lemma brelse_cached s D X b n :
  cache_inv s D X -> X !! b = Some (n, D n) ->
  exists s', do_brelse b s = Ret (tt, s') /\ cache_inv s' D (delete b X) /\ pmem s' = pmem s.
Proof.
  intros Hinv HXb. destruct (held_facts s D X b n (D n) Hinv HXb) as (bf & Hbf & Hr & Hn & Hda & Hk & Hl & Hrn).
  pose proof Hinv as [Hq Hi (A & B & Ho & HX & Hfree) Hheld Hm]. destruct s as [ps sy bk]. cbn [k_ps k_sy k_blk] in *.
  destruct (holdingsleeplock_own (V := V) run_queue process_list qfuel p xs r (lock_of b) ps sy bk Hq Hk) as (ps1 & H1 & Hq1 & Hm1).
  destruct (releasesleeplock_quiet (V := V) run_queue process_list fuel qfuel p xs r Hxs (lock_of b) ps1 sy bk _ Hq1 Hk) as (ps2 & H2 & Hq2 & Hm2).
  destruct (critical run_queue process_list qfuel p xs r (V := V) bcache_lock ps2 bcache_plain Hq2) as (l & l' & Hen & Hle & Hq').
  destruct (order_front _ A B b Ho (HX _ _ HXb)) as (L1 & L2 & c & A' & HR & HP & Hd & HPm). cbn [k_blk] in HR.
  set (sy' := put_sl (lock_of b) (mkSleeplock false (-1)) sy) in *.
  set (bk1 := put_bufs (<[b := set_refcnt 0 bf]> (bk_bufs bk)) bk).
  exists (mkKst (put_lk l' ps2) sy' (put_blinks L2 bk1)). split; [|split].
  - unfold Buf.brelse. erewrite kbind_ret by exact H1. krun. erewrite kbind_ret by exact H2. erewrite kbind_ret by apply Hen.
    erewrite kbind_ret by (apply buf_read; exact Hbf). rewrite Hr. erewrite kbind_ret by (apply buf_write; exact Hbf).
    change (u32 (1 - 1)) with 0. erewrite kbind_ret by (apply (buf_read _ b _ (set_refcnt 0 bf)); apply lookup_insert_eq).
    cbn [refcnt set_refcnt Z.eqb kwhen].
    erewrite kbind_ret; [apply Hle|]. erewrite kbind_ret by (apply links_write; exact HR).
    erewrite links_write by exact HP. reflexivity.
  - split; [done|done| | |done].
    + exists (b :: A'), B. split; [by eapply (order_perm (mkKst ps sy bk) _ A (b :: A') B bf b)|]. split.
      * intros x y [_ Hx]%lookup_delete_Some. rewrite HPm. by eapply HX.
      * intros x Hx HXx. destruct (decide (x = b)) as [->|Hne].
        -- exists (set_refcnt 0 bf), (mkSleeplock false (-1)). cbn. rewrite !lookup_insert_eq. split; [done|]. split; [done|].
           split; [|done]. intros _. by rewrite Hda, Hn.
        -- rewrite lookup_delete_ne in HXx by done. rewrite HPm in Hx. destruct (Hfree x Hx HXx) as (bx & k & Hbx & Hrx & HDx & Hkk & Hkf).
           exists bx, k. cbn. rewrite !lookup_insert_ne; [|by intros ?%(inj lock_of)|done]. split; [done|]. split; [done|].
           split; [|done]. intros HxA. apply HDx. by rewrite HPm in HxA.
    + intros x n' y [Hne Hx]%lookup_delete_Some. destruct (Hheld x n' y Hx) as (bx & Hbx & ? & ? & ? & Hkk).
      exists bx. cbn. rewrite !lookup_insert_ne; [done|by intros ?%(inj lock_of)|done].
  - cbn. by rewrite Hm2.
Qed.

(** *** The interface: the console is no part of this state, so what is logged
    leaves no trace in it. *)

Definition kst_put_mem (m : mem) (s : kst V) : kst V :=
  mkKst (put_pm (set_mem m (ps_pm (k_ps s))) (k_ps s)) (k_sy s) (k_blk s).
#[local] Instance kst_mem : Lens (kst V) mem.
Proof. by refine {| lget := pmem; lput := kst_put_mem |}; intros; destruct s as [[[] ? ? ? ? ?] ? ?]. Defined.

Definition kst_cache : Cache (kst V) :=
  {| c_bread := do_bread; c_bwrite := do_bwrite; c_brelse := do_brelse;
     c_data b := buf_op (getb data b); c_set_data f b := buf_op (setb (fun x => set_data (f (data x)) x) b);
     c_log _ := kret tt |}.

Lemma quiet_mem ps m : quiet ps -> quiet (put_pm (set_mem m (ps_pm ps)) ps).
Proof.
  intros [[q [Hrq Hc Hn Hl Hs]] Hp Hr Hf]. split; [|done..]. exists q. split; [|done..]. by destruct Hrq.
Qed.

Definition kst_cache_laws : @CacheLaws (kst V) kst_cache.
Proof.
  refine {| cache_dev := dev; cached := cache_inv |}.
  - intros s D X n Hinv Hn. rewrite <- (ci_media _ _ _ Hinv n Hn). apply (media_length disk_base).
  - intros s D X m [Hq Hi Ho Hh Hm]. split; try done; [by apply quiet_mem|].
    destruct Ho as (A & B & [O1 O2 O3 O4 O5 O6] & HX & Hf). by exists A, B.
  - apply bread_cached.
  - intros s D X b n x Hinv HXb. destruct (held_facts s D X b n x Hinv HXb) as (bf & Hbf & _ & _ & <- & _).
    by apply buf_read.
  - intros s D X b n x f Hinv HXb Hl. destruct (held_facts s D X b n x Hinv HXb) as (bf & Hbf & _ & _ & <- & _).
    eexists. split; [apply (buf_write _ b s bf Hbf)|]. split; [|done].
    apply (cache_inv_upd s _ D D X b n (data bf) bf (set_data (f (data bf)) bf)); try done; apply Hinv.
  - apply bwrite_cached.
  - apply brelse_cached.
Defined.
End Invariant.

(** ** The cache is a disk *)

Inductive block_op : Type := RdBlock (n : Z) | WrBlock (n : Z) (x : list Z).
Definition block_op_ok (o : block_op) : Prop :=
  match o with RdBlock n => 0 <= n < 2 ^ 32 | WrBlock n x => 0 <= n < 2 ^ 32 /\ length x = 512%nat end.

Section Client.
Context {S : Type} `{Cache S} (dev : Z).

(** What the code does around one access to a block. *)
Definition block_exec (o : block_op) : K S (list Z) :=
  match o with
  | RdBlock n => b <- c_bread dev n ;; x <- c_data b ;; c_brelse b ;; kret x
  | WrBlock n x => b <- c_bread dev n ;; c_set_data (fun _ => x) b ;; c_bwrite b ;; c_brelse b ;; kret x
  end.
Fixpoint block_exec_all (os : list block_op) : K S (list (list Z)) :=
  match os with
  | [] => kret []
  | o :: os => x <- block_exec o ;; ys <- block_exec_all os ;; kret (x :: ys)
  end.

(** The same on an array of blocks. *)
Definition block_step (o : block_op) (D : Z -> list Z) : list Z * (Z -> list Z) :=
  match o with RdBlock n => (D n, D) | WrBlock n x => (x, disk_upd n x D) end.
Fixpoint block_run (os : list block_op) (D : Z -> list Z) : list (list Z) * (Z -> list Z) :=
  match os with
  | [] => ([], D)
  | o :: os => let '(x, D1) := block_step o D in let '(ys, D2) := block_run os D1 in (x :: ys, D2)
  end.

Context `{!CacheLaws S}.

Lemma read_block_ok s D n : dev = cache_dev -> cached s D ∅ -> 0 <= n < 2 ^ 32 ->
  exists s', block_exec (RdBlock n) s = Ret (D n, s') /\ cached s' D ∅ /\ lget (T := mem) s' = lget s.
Proof.
  intros Hdev Hc Hn. destruct (bread_ok s D ∅ n Hc) as (b & s1 & H1 & _ & Hc1 & M1); [done|done|done|]. rewrite <- Hdev in H1.
  rewrite insert_empty in Hc1.
  destruct (brelse_ok s1 D {[b := (n, D n)]} b n Hc1) as (s2 & H2 & Hc2 & M2); [by rewrite lookup_singleton_eq|].
  exists s2. split; [|split; [|congruence]].
  - unfold block_exec. erewrite kbind_ret by exact H1.
    erewrite kbind_ret by (eapply data_ok; [exact Hc1|apply lookup_singleton_eq]). by erewrite kbind_ret by exact H2.
  - by rewrite delete_singleton_eq in Hc2.
Qed.

Lemma write_block_ok s D n x : dev = cache_dev -> cached s D ∅ -> 0 <= n < 2 ^ 32 -> length x = 512%nat ->
  exists s', block_exec (WrBlock n x) s = Ret (x, s') /\ cached s' (disk_upd n x D) ∅ /\ lget (T := mem) s' = lget s.
Proof.
  intros Hdev Hc Hn Hx. destruct (bread_ok s D ∅ n Hc) as (b & s1 & H1 & _ & Hc1 & M1); [done|done|done|]. rewrite <- Hdev in H1.
  destruct (set_data_ok s1 D _ b n (D n) (fun _ => x) Hc1) as (s2 & H2 & Hc2 & M2); [apply lookup_insert_eq|done|].
  rewrite insert_insert_eq, insert_empty in Hc2.
  destruct (bwrite_ok s2 D _ b n x Hc2) as (s3 & H3 & Hc3 & M3); [by rewrite lookup_singleton_eq|].
  destruct (brelse_ok s3 (disk_upd n x D) _ b n Hc3) as (s4 & H4 & Hc4 & M4).
  { rewrite lookup_singleton_eq. unfold disk_upd. by rewrite Z.eqb_refl. }
  exists s4. split; [|split; [|congruence]].
  - unfold block_exec. erewrite kbind_ret by exact H1. erewrite kbind_ret by exact H2. erewrite kbind_ret by exact H3.
    by erewrite kbind_ret by exact H4.
  - by rewrite delete_singleton_eq in Hc4.
Qed.

Lemma block_exec_all_ok os : dev = cache_dev -> Forall block_op_ok os -> forall s D, cached s D ∅ ->
  exists s', block_exec_all os s = Ret ((block_run os D).1, s') /\ cached s' (block_run os D).2 ∅.
Proof.
  intros Hdev. induction 1 as [|o os Ho _ IH]; intros s D Hc; cbn [block_exec_all block_run]; [by exists s|].
  assert (exists s1, block_exec o s = Ret ((block_step o D).1, s1) /\ cached s1 (block_step o D).2 ∅) as (s1 & H1 & Hc1).
  { destruct o as [n|n x].
    - destruct (read_block_ok s D n Hdev Hc Ho) as (s1 & ? & ? & _). by exists s1.
    - destruct Ho as [Hn Hx]. destruct (write_block_ok s D n x Hdev Hc Hn Hx) as (s1 & ? & ? & _). by exists s1. }
  destruct (block_step o D) as [x D1]. cbn [fst snd] in *. destruct (IH s1 D1 Hc1) as (s2 & H2 & Hc2).
  destruct (block_run os D1) as [ys D2]. cbn [fst snd] in *.
  exists s2. split; [|done]. erewrite kbind_ret by exact H1. by erewrite kbind_ret by exact H2.
Qed.
End Client.

(** ** Initialisation *)

Section Init.
Context {V : Type} `{Device V}.
Context (run_queue process_list : addr) (qfuel : nat) (disk_base bufs_base bcache_list : addr).
Context (p : addr) (xs : list addr) (r : proc) (dev : Z).
#[local] Abbreviation quiet := (quiet run_queue process_list qfuel p xs r).

Fixpoint bufs_from (b : addr) (n : nat) : list addr :=
  match n with O => [] | S n => b :: bufs_from (b + SIZEOF_BUF) n end.
Definition bufs : list addr := bufs_from bufs_base (Z.to_nat NBUF).

(** Zeroed memory for the buffers and their list. *)
Record unset (s : kst V) : Prop := {
  un_quiet : quiet (k_ps s);
  un_idle : idle (bk_disk (k_blk s));
  un_buf b : b ∈ bufs -> exists bf, bk_bufs (k_blk s) !! b = Some bf /\ valid bf = 0 /\ bdev bf = 0 /\ blockno bf = 0 /\
    refcnt bf = 0 /\ length (data bf) = 512%nat;
  un_live b : b ∈ bufs -> live (bk_links (k_blk s)) (belem b);
  un_list : bcache_list <> 0 /\ tail_of bcache_list <> 0 /\ live (bk_links (k_blk s)) (head_of bcache_list) /\
    live (bk_links (k_blk s)) (tail_of bcache_list);
  un_apart b : b ∈ bufs -> belem b <> head_of bcache_list /\ belem b <> tail_of bcache_list;
  un_base : 0 < bufs_base
}.

Lemma bufs_from_in n : forall b x, x ∈ bufs_from b n -> b <= x.
Proof.
  induction n as [|n IH]; intros b x Hx; [by apply not_elem_of_nil in Hx|]. cbn in Hx.
  apply elem_of_cons in Hx as [->|Hx]; [lia|]. apply IH in Hx. unfold SIZEOF_BUF in Hx. lia.
Qed.
Lemma bufs_from_nodup n : forall b, NoDup (bufs_from b n).
Proof.
  induction n as [|n IH]; intros b; constructor; [|apply IH]. intros Hb%bufs_from_in. unfold SIZEOF_BUF in Hb. lia.
Qed.
Lemma bufs_from_length n : forall b, length (bufs_from b n) = n.
Proof. induction n as [|n IH]; intros b; [done|]. cbn. by rewrite IH. Qed.

Lemma initlock_quiet lk ps : quiet ps -> plain lk ->
  exists l, lock_op (initlock lk) ps = Ret (tt, put_lk l ps) /\ quiet (put_lk l ps).
Proof.
  intros [[q [Hrq Hc Hn Hl Hs]] Hp Hr Hf] Hlk. eexists. split; [by apply lock_op_ok|].
  assert (Hfree : forall lk', lock_free lk' (ps_lk ps) ->
    lock_free lk' (on_lock lk (fun _ => mkSpinlock 0 None) (ps_lk ps))).
  { intros lk' H'. unfold lock_free in *. cbn. unfold set_lock. by case_decide. }
  split; [exists q; split| | |].
  - destruct Hrq as [Q1 Q2 Q3]. split; [exact Q1|by apply Hfree|exact Q3].
  - exact Hc.
  - exact Hn.
  - intros a Ha. by apply Hfree, Hl.
  - exact Hs.
  - exact Hp.
  - exact Hr.
  - intros lk' H'. by apply Hfree, Hf.
Qed.

Lemma initsleeplock_ok a ps sy (b : blk V) : quiet ps ->
  exists ps', initsleeplock a (mkKst ps sy b) = Ret (tt, mkKst ps' (put_sl a (mkSleeplock false (-1)) sy) b) /\ quiet ps'.
Proof.
  intros Hq. destruct (initlock_quiet (sleep_lk a) ps Hq (sleep_lk_plain a)) as (l & Hl & Hq'). eexists. split; [|exact Hq'].
  unfold initsleeplock. erewrite kbind_ret by (apply via_ret; exact Hl). by erewrite via_ret by reflexivity.
Qed.

Lemma binit_loop_ok n : forall b pre (s : kst V),
  quiet (k_ps s) -> dlist (bk_links (k_blk s)) bcache_list (map belem pre) ->
  (forall x, x ∈ bufs_from b n -> live (bk_links (k_blk s)) (belem x) /\ belem x <> 0 /\
     belem x <> head_of bcache_list /\ belem x <> tail_of bcache_list /\ x ∉ pre) ->
  exists ps sy L, binit_loop bcache_list n b s = Ret (tt, mkKst ps sy (put_blinks L (k_blk s))) /\ quiet ps /\
    dlist L bcache_list (map belem (pre ++ bufs_from b n)) /\
    (forall x, x ∈ bufs_from b n -> sy_locks sy !! lock_of x = Some (mkSleeplock false (-1))) /\
    (forall x, x ∉ bufs_from b n -> sy_locks sy !! lock_of x = sy_locks (k_sy s) !! lock_of x).
Proof.
  induction n as [|n IH]; intros b pre [ps sy bk] Hq Hd Hx; cbn [binit_loop bufs_from k_ps k_sy k_blk] in *.
  { exists ps, sy, (bk_links bk). rewrite app_nil_r. split; [by destruct bk|]. split; [done|]. split; [done|].
    split; [by intros x Hx'%not_elem_of_nil|done]. }
  destruct (initsleeplock_ok (lock_of b) ps sy bk Hq) as (ps1 & H1 & Hq1).
  destruct (Hx b) as (Lb & Nb & Hh & Ht & Hp); [by left|].
  destruct (push_back_ok (bk_links bk) bcache_list (map belem pre) (belem b) Hd Lb Nb) as (L1 & H2 & Hd1 & [Hu1 _]).
  { unfold nodes. rewrite elem_of_cons, elem_of_app, list_elem_of_singleton. intros [?|[(y & E & Hy)%list_elem_of_fmap|?]]; [done| |done].
    apply (inj belem) in E as ->. done. }
  destruct (IH (b + SIZEOF_BUF) (pre ++ [b]) (mkKst ps1 (put_sl (lock_of b) (mkSleeplock false (-1)) sy) (put_blinks L1 bk)))
    as (ps' & sy' & L' & H3 & Hq' & Hd' & Hs1 & Hs2).
  - done.
  - rewrite map_app. exact Hd1.
  - intros x Hxin. destruct (Hx x) as (Lx & Nx & Hhx & Htx & Hpx); [by right|]. split; [by apply Hu1|]. split_and!; try done.
    pose proof (bufs_from_in _ _ _ Hxin). unfold SIZEOF_BUF in *. rewrite elem_of_app, list_elem_of_singleton. intros [?|?]; [done|lia].
  - exists ps', sy', L'. split; [|split; [done|split; [by rewrite <- app_assoc in Hd'|split]]].
    + erewrite kbind_ret by exact H1. erewrite kbind_ret by (apply links_write; exact H2). etransitivity; [exact H3|]. by destruct bk.
    + intros x [->|Hxin]%elem_of_cons; [|by apply Hs1]. rewrite Hs2.
      * cbn. apply lookup_insert_eq.
      * intros Hb%bufs_from_in. unfold SIZEOF_BUF in Hb. lia.
    + intros x Hni. apply not_elem_of_cons in Hni as [Hne Hni]. rewrite Hs2 by done. cbn.
      rewrite lookup_insert_ne; [done|]. by intros ->%(inj lock_of).
Qed.

(** [binit] establishes the invariant. *)
Lemma binit_ok s : unset s ->
  exists s', binit bufs_base bcache_list s = Ret (tt, s') /\
    cache_inv run_queue process_list qfuel bcache_list p xs r dev s' (media (bk_dev (k_blk s))) ∅.
Proof.
  intros [Hq Hi Hb Hl (Hz1 & Hz2 & Hz3 & Hz4) Hap Hbase]. destruct s as [ps sy bk]. cbn [k_ps k_sy k_blk] in *.
  destruct (initlock_quiet bcache_lock ps Hq bcache_plain) as (l & H1 & Hq1).
  destruct (list_init_ok (bk_links bk) bcache_list Hz1 Hz2 Hz3 Hz4) as (L1 & H2 & Hd & [Hu _]).
  destruct (binit_loop_ok (Z.to_nat NBUF) bufs_base [] (mkKst (put_lk l ps) sy (put_blinks L1 bk))) as (ps' & sy' & L' & H3 & Hq' & Hd' & Hs1 & _).
  - done.
  - exact Hd.
  - intros x Hx. split; [by apply Hu, Hl|]. apply bufs_from_in in Hx as Hge. unfold belem in *. split; [lia|].
    split_and!; [by apply Hap..|apply not_elem_of_nil].
  - eexists. split; [|].
    + unfold binit. erewrite kbind_ret by (apply via_ret; exact H1). erewrite kbind_ret by (apply links_write; exact H2). exact H3.
    + split; [done|exact Hi| |by intros b n x Hx|done]. exists [], bufs. split; [|split].
      * split.
        -- exact Hd'.
        -- cbn [app]. unfold bufs. by rewrite bufs_from_length.
        -- intros b Hx%bufs_from_in. lia.
        -- by intros b Hx%not_elem_of_nil.
        -- by intros b b' bf bf' Hx%not_elem_of_nil.
        -- exact Hb.
      * by intros b x Hx.
      * intros b Hx _. destruct (Hb b Hx) as (bf & Hbf & _ & _ & _ & Hr & _). exists bf, (mkSleeplock false (-1)).
        split; [done|]. split; [done|]. split; [by intros ?%not_elem_of_nil|]. split; [by apply Hs1|done].
Qed.
End Init.

Section Refinement.
Context {V : Type} `{Device V}.
Context (run_queue process_list : addr) (fuel qfuel : nat) (swtch : K (kst V) unit).
Context (sfuel dfuel : nat) (disk_base bcache_list : addr) `{!DeviceLaws disk_base}.
Context (p : addr) (xs : list addr) (r : proc) (dev : Z).
#[local] Abbreviation cache := (kst_cache run_queue process_list fuel qfuel swtch sfuel dfuel disk_base bcache_list).

(** C2. The buffer cache behaves as the disk. After [binit], any sequence of
    block reads and writes, made by a process that holds no lock through
    [bread], [bwrite] and [brelse], returns what an array of blocks that starts
    as the disk would return, and leaves the disk as that array: whatever the
    sequence, the 30 buffers are recycled without losing a write, without
    serving a stale block and without two buffers for one block. *)
Theorem buffer_cache_is_disk bufs_base os (s : kst V) :
  (length xs < fuel)%nat -> (Z.to_nat NBUF < sfuel)%nat -> (Datatypes.S (patience disk_base) < dfuel)%nat ->
  unset run_queue process_list qfuel bufs_base bcache_list p xs r s -> Forall block_op_ok os ->
  let spec := block_run os (media (bk_dev (k_blk s))) in
  exists s', (binit bufs_base bcache_list ;; @block_exec_all (kst V) cache dev os) s = Ret (spec.1, s') /\
    forall n, 0 <= n < 2 ^ 32 -> media (bk_dev (k_blk s')) n = spec.2 n.
Proof.
  intros Hx Hsf Hdf Hun Hos spec.
  destruct (binit_ok run_queue process_list qfuel bufs_base bcache_list p xs r dev s Hun) as (s1 & H1 & Hinv).
  destruct (@block_exec_all_ok (kst V) cache dev
    (kst_cache_laws run_queue process_list fuel qfuel swtch sfuel dfuel disk_base bcache_list p xs r Hx Hsf Hdf dev) os eq_refl Hos s1 _ Hinv)
    as (s2 & H2 & Hinv2).
  exists s2. split; [by erewrite kbind_ret by exact H1|]. apply (ci_media _ _ _ _ _ _ _ _ _ _ _ Hinv2).
Qed.
End Refinement.

(** ** A zeroed cache *)

Definition demo_list : addr := 90000.
Definition demo_bufs : list addr := bufs 30000.
Definition blank : buf := mkBuf 0 0 0 0 0 (replicate 512 0).
Definition demo_raw : kst sectors :=
  mkKst demo_sleep (mkSync ∅ ∅)
    (mkBlk demo_disk (list_to_map (map (fun b => (b, blank)) demo_bufs))
      (list_to_map (map (fun e => (e, Elem 0 0)) (demo_list :: tail_of demo_list :: map belem demo_bufs))) (fun _ => [])).

(** No process sleeps on a lock here. *)
Definition demo_swtch_kst : K (kst sectors) unit := kret tt.

Lemma demo_raw_unset : unset 100 500 4 30000 demo_list 1000 [1000; 2000; 3000] (demo_sleeper RUNNING 1 0) demo_raw.
Proof.
  split.
  - apply demo_quiet.
  - apply demo_idle.
  - intros b Hb. exists blank. split; [|done]. cbn [bk_bufs k_blk demo_raw].
    apply elem_of_list_to_map_1.
    + rewrite <- list_fmap_compose. cbn. rewrite list_fmap_id. apply bufs_from_nodup.
    + by apply (list_elem_of_fmap_2 (fun b => (b, blank))).
  - intros b Hb. cbn [bk_links k_blk demo_raw]. exists (Elem 0 0). vm_compute in Hb |- *.
    repeat apply elem_of_cons in Hb as [->|Hb]; [reflexivity..|by apply not_elem_of_nil in Hb].
  - split; [done|]. split; [done|]. split; exists (Elem 0 0); by vm_compute.
  - intros b Hb. vm_compute in Hb. repeat apply elem_of_cons in Hb as [->|Hb]; [by split..|by apply not_elem_of_nil in Hb].
  - done.
Qed.

Lemma buffer_cache_is_disk_witness :
  exists s', (binit 30000 demo_list ;;
      @block_exec_all (kst sectors)
        (kst_cache 100 500 4 4 demo_swtch_kst 31 3 demo_base demo_list) 0
        [RdBlock 5; WrBlock 5 (replicate 512 9); RdBlock 5]) demo_raw =
    Ret ([replicate 512 0; replicate 512 9; replicate 512 9], s').
Proof.
  destruct (buffer_cache_is_disk 100 500 4 4 demo_swtch_kst 31 3 demo_base demo_list 1000 [1000; 2000; 3000]
    (demo_sleeper RUNNING 1 0) 0 30000 [RdBlock 5; WrBlock 5 (replicate 512 9); RdBlock 5] demo_raw) as (s' & H & _).
  - simpl. lia.
  - unfold NBUF. lia.
  - cbn. lia.
  - apply demo_raw_unset.
  - repeat constructor; done.
  - exists s'. exact H.
Defined.
