(* ===== verification/Fat32.v ===== *)
(** The FAT32 layer: src/kernel/fs/fat32.c and src/include/fs/fat32.h.

    Everything goes through the buffer cache, of which only the interface of
    Buf.v is used. The contents of the disk are seen as one byte array, the
    [image] of its blocks: a FAT entry is a 32-bit word of it, a cluster a run
    of bytes of it. A failed [ASSERT_INFO] logs and goes on: the log is the
    operation [c_log] of the interface. *)
From S2P Require Import Prelude CString Bytes Spinlock DList Proc Schedule Sleep Virt Buf.

(** ** The file system's record *)

Definition FAT32_EOF : Z := 0x0fffffff.
Definition FAT32_isEOF (x : Z) : bool := (0x0ffffff8 <=? x) && (x <=? 0x0fffffff).
Definition fat32_entry_size : Z := 4.
Definition ERR : Z := -1.

Record superblock : Type := mkSb {
  bytes_per_sector : Z; sectors_per_cluster : Z; reserved_sectors : Z; cluster_root_directory : Z; fat_size : Z }.
Record SubSuperBlockInfo : Type := mkSbi {
  first_data_sector : Z; data_sector_cnt : Z; cluster_cnt : Z; bytes_per_clus : Z }.
Record filesystem : Type := mkFs {
  fs_valid : bool; fs_name : list Z; sb : superblock; sbinfo : SubSuperBlockInfo; root : addr; image_of : addr;
  mountPoint : addr; deviceNum : Z }.
Definition put_sb (x : superblock) (fs : filesystem) : filesystem :=
  mkFs (fs_valid fs) (fs_name fs) x (sbinfo fs) (root fs) (image_of fs) (mountPoint fs) (deviceNum fs).
Definition put_sbinfo (x : SubSuperBlockInfo) (fs : filesystem) : filesystem :=
  mkFs (fs_valid fs) (fs_name fs) (sb fs) x (root fs) (image_of fs) (mountPoint fs) (deviceNum fs).

(** Sector and byte of a FAT entry, first sector of a cluster; [uint32_t]
    arithmetic. *)
Definition FATSecNum (h : superblock) (clus : Z) : Z :=
  u32 (reserved_sectors h + u32 (clus * fat32_entry_size) / bytes_per_sector h).
Definition SectorNum (h : superblock) (clus fatno : Z) : Z := u32 (FATSecNum h clus + fatno * fat_size h).
Definition FATEntOffset (h : superblock) (clus : Z) : Z := u32 (clus * fat32_entry_size) mod bytes_per_sector h.
Definition first_sector_clus (fs : filesystem) (clus : Z) : Z :=
  u32 (first_data_sector (sbinfo fs) + u32 (clus - cluster_root_directory (sb fs)) * sectors_per_cluster (sb fs)).
Definition CLUSTER_SIZE (fs : filesystem) : Z := bytes_per_clus (sbinfo fs).

(** Offsets in [struct fat32hder]. *)
Definition hd_bytes_per_sector (m : mem) : Z := ld16 m 11.
Definition hd_sectors_per_cluster (m : mem) : Z := ld8 m 13.
Definition hd_reserved_sectors (m : mem) : Z := ld16 m 14.
Definition hd_number_fats (m : mem) : Z := ld8 m 16.
Definition hd_large_sector_count (m : mem) : Z := ld32 m 32.
Definition hd_fat_size (m : mem) : Z := ld32 m 36.
Definition hd_cluster_root_directory (m : mem) : Z := ld32 m 44.
Definition hd_system_identifier_string : addr := 82.
(** [!strncmp(header->system_identifier_string, "FAT32", 5)]: the literal is put
    behind the sector, which ends at [BSIZE]. *)
Definition is_fat32 (m : mem) : bool :=
  strncmp (mput m BSIZE [70; 65; 84; 51; 50; 0]) hd_system_identifier_string BSIZE 5 =? 0.

(** ** Operations *)

Section Fat32.
Context {S : Type} `{Cache S}.

Definition load_bytes (a n : Z) : K S (list Z) := kget (fun s => mget (lget s) a (Z.to_nat n)).
Definition store_bytes (a : Z) (l : list Z) : K S unit := kmod (fun s => lput (mput (lget s) a l) s).

(** Bytes [off] to [off + n] of the data of a buffer: past its end is a [Fault]. *)
Definition data_get (b : addr) (off n : Z) : K S (list Z) :=
  x <- c_data b ;;
  if Z.of_nat (length x) <? off + n then kfault else kret (sub x off n).
Definition data_put (b : addr) (off : Z) (l : list Z) : K S unit :=
  x <- c_data b ;;
  if Z.of_nat (length x) <? off + Z.of_nat (length l) then kfault else c_set_data (fun x => splice x off l) b.

(** [clusinit]; 0 or [ERR], with the filled record. *)
Definition clusinit (fs : filesystem) : K S (Z * filesystem) :=
  b <- c_bread (deviceNum fs) 0 ;;
  x <- c_data b ;;
  let h := bytes_mem x in
  let fs := put_sb (mkSb (hd_bytes_per_sector h) (hd_sectors_per_cluster h) (hd_reserved_sectors h)
    (hd_cluster_root_directory h) (hd_fat_size h)) fs in
  ASSERT_INFO (is_fat32 h) "read fat32 volume error" ;;
  let first := u32 (hd_reserved_sectors h + u32 (hd_number_fats h * hd_fat_size h)) in
  let cnt := u32 (hd_large_sector_count h - first) in
  if hd_sectors_per_cluster h =? 0 then kfault else
  let fs := put_sbinfo (mkSbi first cnt (cnt / hd_sectors_per_cluster h)
    (hd_bytes_per_sector h * hd_sectors_per_cluster h)) fs in
  if negb (BSIZE =? hd_bytes_per_sector h) then kret (ERR, fs) else
  c_brelse b ;;
  kret (0, fs).

(** Outside the table: the test of [fatread] and [fatwrite]. *)
Definition bad_cluster (fs : filesystem) (clus : Z) : bool :=
  (clus <? cluster_root_directory (sb fs)) || (u32 (data_sector_cnt (sbinfo fs) + 1) <? clus).

Definition fatread (fs : filesystem) (clus : Z) : K S Z :=
  if bad_cluster fs clus then kret 0 else
  if bytes_per_sector (sb fs) =? 0 then kfault else
  let sectorNo := SectorNum (sb fs) clus 0 in
  let sectorOff := FATEntOffset (sb fs) clus in
  b <- c_bread (deviceNum fs) sectorNo ;;
  ret <- data_get b (4 * (sectorOff / 4)) 4 ;;
  c_brelse b ;;
  kret (ld32 (bytes_mem ret) 0).

Definition fatwrite (fs : filesystem) (clus next : Z) : K S unit :=
  if bad_cluster fs clus then ASSERT_INFO false "write fat" ;; kret tt else
  if bytes_per_sector (sb fs) =? 0 then kfault else
  let sectorNo0 := SectorNum (sb fs) clus 0 in
  let sectorNo1 := SectorNum (sb fs) clus 1 in
  let sectorOff := FATEntOffset (sb fs) clus in
  b <- c_bread (deviceNum fs) sectorNo0 ;;
  data_put b (4 * (sectorOff / 4)) (le32 next) ;;
  c_bwrite b ;;
  b1 <- c_bread (deviceNum fs) sectorNo1 ;;
  data_put b (4 * (sectorOff / 4)) (le32 next) ;;
  c_bwrite b1 ;;
  c_brelse b ;;
  c_brelse b1.

Fixpoint cluszero_loop (n : nat) (fs : filesystem) (idx : Z) : K S unit :=
  match n with
  | O => kret tt
  | Datatypes.S n =>
      b <- c_bread (deviceNum fs) idx ;;
      data_put b 0 (replicate (Z.to_nat (bytes_per_sector (sb fs))) 0) ;;
      c_bwrite b ;;
      c_brelse b ;;
      cluszero_loop n fs (u32 (idx + 1))
  end.
Definition cluszero (fs : filesystem) (clus : Z) : K S unit :=
  cluszero_loop (Z.to_nat (sectors_per_cluster (sb fs))) fs (first_sector_clus fs clus).

(** [n] clusters are left to look at. *)
Fixpoint clusalloc_loop (n : nat) (fs : filesystem) (prevNo nextNo : Z) : K S Z :=
  match n with
  | O => kret 0
  | Datatypes.S n =>
      e <- fatread fs nextNo ;;
      if e =? 0 then
        kwhen (negb (prevNo =? 0)) (fatwrite fs prevNo nextNo) ;;
        fatwrite fs nextNo FAT32_EOF ;;
        cluszero fs nextNo ;;
        kret nextNo
      else clusalloc_loop n fs prevNo (u32 (nextNo + 1))
  end.
Definition clusalloc (fs : filesystem) (prevNo : Z) : K S Z :=
  clusalloc_loop (Z.to_nat (u32 (cluster_cnt (sbinfo fs) + 2) - 2)) fs prevNo 2.

Definition clusfree (fs : filesystem) (clus prevNo : Z) : K S unit :=
  kwhen (negb (prevNo =? 0)) (fatwrite fs prevNo FAT32_EOF) ;;
  fatwrite fs clus 0.

(** The length of a chain: [count_clusters]. *)
Fixpoint count_loop (fuel : nat) (fs : filesystem) (clus i : Z) : K S Z :=
  match fuel with
  | O => knofuel
  | Datatypes.S fuel =>
      if FAT32_isEOF clus then kret i else
      c <- fatread fs clus ;; count_loop fuel fs c (s32 (i + 1))
  end.
Definition count_clusters (fuel : nat) (fs : filesystem) (first : Z) : K S Z :=
  if first =? 0 then kret 0 else count_loop fuel fs first 0.

Definition clusread_msg : string := "clusread: The size of the required read exceeds the remaining space in the cluster.".
Definition cluswrite_msg : string := "cluswrite: The size of the required write exceeds the remaining space in the cluster.".

Fixpoint clusread_loop (fuel : nat) (fs : filesystem) (secNo dst read_len n : Z) : K S Z :=
  match fuel with
  | O => knofuel
  | Datatypes.S fuel =>
      if read_len <? n then
        let len := u32 (Z.min (bytes_per_sector (sb fs)) (n - read_len)) in
        b <- c_bread (deviceNum fs) secNo ;;
        l <- data_get b 0 len ;;
        store_bytes (dst + read_len) l ;;
        c_brelse b ;;
        clusread_loop fuel fs (u32 (secNo + 1)) dst (u32 (read_len + len)) n
      else kret read_len
  end.
Definition clusread (fuel : nat) (fs : filesystem) (clus offset dst n : Z) : K S Z :=
  let bps := bytes_per_sector (sb fs) in
  if bps =? 0 then kfault else
  let secNo := u32 (first_sector_clus fs clus + offset / bps) in
  let secOff := offset mod bps in
  ASSERT_INFO (n <=? u32 (bytes_per_clus (sbinfo fs) - offset)) clusread_msg ;;
  let len := u32 (Z.min (bps - secOff) n) in
  b <- c_bread (deviceNum fs) secNo ;;
  l <- data_get b secOff len ;;
  store_bytes dst l ;;
  c_brelse b ;;
  if len =? n then kret len else clusread_loop fuel fs (u32 (secNo + 1)) dst len n.

Fixpoint cluswrite_loop (fuel : nat) (fs : filesystem) (secNo src write_len n : Z) : K S Z :=
  match fuel with
  | O => knofuel
  | Datatypes.S fuel =>
      if write_len <? n then
        let len := u32 (Z.min (bytes_per_sector (sb fs)) (n - write_len)) in
        b <- c_bread (deviceNum fs) secNo ;;
        l <- load_bytes (src + write_len) len ;;
        data_put b 0 l ;;
        c_bwrite b ;;
        c_brelse b ;;
        cluswrite_loop fuel fs (u32 (secNo + 1)) src (u32 (write_len + len)) n
      else kret write_len
  end.
Definition cluswrite (fuel : nat) (fs : filesystem) (clus offset src n : Z) : K S Z :=
  let bps := bytes_per_sector (sb fs) in
  if bps =? 0 then kfault else
  let secNo := u32 (first_sector_clus fs clus + offset / bps) in
  let secOff := offset mod bps in
  ASSERT_INFO (n <? u32 (bytes_per_clus (sbinfo fs) - offset)) cluswrite_msg ;;
  let len := u32 (Z.min (bps - secOff) n) in
  b <- c_bread (deviceNum fs) secNo ;;
  l <- load_bytes src len ;;
  data_put b secOff l ;;
  c_bwrite b ;;
  c_brelse b ;;
  if len =? n then kret len else cluswrite_loop fuel fs (u32 (secNo + 1)) src len n.
End Fat32.

(** ** The disk as one array of bytes *)

Definition image (D : Z -> list Z) : mem := fun p => nth (Z.to_nat (p mod 512)) (D (p / 512)) 0.

Definition blocks (D : Z -> list Z) : Prop := forall n, 0 <= n < 2 ^ 32 -> length (D n) = 512%nat.

Lemma image_sub D n off len : length (D n) = 512%nat -> 0 <= off -> 0 <= len -> off + len <= 512 ->
  map u8 (sub (D n) off len) = mget (image D) (n * 512 + off) (Z.to_nat len).
Proof.
  intros Hn Ho Hl Hol. symmetry. unfold sub. apply mget_eq.
  - rewrite length_map, length_take, length_drop. lia.
  - intros i Hi. rewrite list_lookup_fmap, lookup_take_lt, lookup_drop by lia.
    destruct (lookup_lt_is_Some_2 (D n) (Z.to_nat off + i)) as [b Hb]; [lia|]. rewrite Hb. cbn. unfold ld8, image.
    replace ((n * 512 + off + Z.of_nat i) / 512) with n by dlia.
    replace ((n * 512 + off + Z.of_nat i) mod 512) with (off + Z.of_nat i) by dlia.
    replace (Z.to_nat (off + Z.of_nat i)) with (Z.to_nat off + i)%nat by lia. by rewrite (nth_lookup_Some _ _ 0 _ Hb).
Qed.

Lemma image_upd D n off l : length (D n) = 512%nat -> 0 <= off -> off + Z.of_nat (length l) <= 512 ->
  image (disk_upd n (splice (D n) off l) D) ≡ mput (image D) (n * 512 + off) l.
Proof.
  intros Hn Ho Hol p. rewrite ld8_mput. unfold ld8 at 1, image, disk_upd, splice.
  destruct (Z.eqb_spec (p / 512) n) as [Ep|Ep].
  - set (k := Z.to_nat (p mod 512)). assert (Hk : (k < 512)%nat) by (unfold k; dlia).
    destruct (lookup_lt_is_Some_2 (list_inserts (Z.to_nat off) l (D n)) k) as [b Hb]; [by rewrite length_inserts, Hn|].
    rewrite (nth_lookup_Some _ _ 0 _ Hb). destruct (decide (Z.to_nat off <= k < Z.to_nat off + length l)%nat) as [Hin|Hout].
    + rewrite list_lookup_inserts in Hb by lia. rewrite (proj2 (Z.leb_le _ _)), (proj2 (Z.ltb_lt _ _)) by (unfold k in *; dlia). cbn.
      replace (Z.to_nat (p - (n * 512 + off))) with (k - Z.to_nat off)%nat by (unfold k in *; dlia).
      by rewrite (nth_lookup_Some _ _ 0 _ Hb).
    + assert (Hb' : D n !! k = Some b).
      { assert (k < Z.to_nat off \/ Z.to_nat off + length l <= k)%nat as [?|?] by lia.
        - by rewrite list_lookup_inserts_lt in Hb.
        - by rewrite list_lookup_inserts_ge in Hb. }
      replace ((n * 512 + off <=? p) && (p <? n * 512 + off + Z.of_nat (length l))) with false.
      * unfold ld8. rewrite Ep. fold k. by rewrite (nth_lookup_Some _ _ 0 _ Hb').
      * symmetry. apply andb_false_iff. rewrite Z.leb_gt, Z.ltb_ge. unfold k in *. dlia.
  - replace ((n * 512 + off <=? p) && (p <? n * 512 + off + Z.of_nat (length l))) with false; [done|].
    symmetry. apply andb_false_iff. rewrite Z.leb_gt, Z.ltb_ge. dlia.
Qed.

(** ** A well-formed volume *)

Record geometry (fs : filesystem) : Prop := {
  g_bps : bytes_per_sector (sb fs) = 512;
  g_spc : 0 < sectors_per_cluster (sb fs) < 2 ^ 8;
  g_res : 0 <= reserved_sectors (sb fs) < 2 ^ 16;
  g_root : cluster_root_directory (sb fs) = 2;
  g_cnt : 0 < cluster_cnt (sbinfo fs) <= data_sector_cnt (sbinfo fs);
  g_max : cluster_cnt (sbinfo fs) + 2 <= 0x0ffffff7;
  g_size : CLUSTER_SIZE fs = 512 * sectors_per_cluster (sb fs);
  g_fat : (cluster_cnt (sbinfo fs) + 2) * 4 <= fat_size (sb fs) * 512;
  g_data : reserved_sectors (sb fs) + 2 * fat_size (sb fs) <= first_data_sector (sbinfo fs);
  g_end : first_data_sector (sbinfo fs) + data_sector_cnt (sbinfo fs) + 1 < 2 ^ 32;
  g_fit : cluster_cnt (sbinfo fs) * sectors_per_cluster (sb fs) <= data_sector_cnt (sbinfo fs)
}.

Definition cluster (fs : filesystem) (c : Z) : Prop := 2 <= c < cluster_cnt (sbinfo fs) + 2.
(** The first byte of the FAT entry of a cluster and of the cluster. *)
Definition fat_addr (fs : filesystem) (c : Z) : Z := reserved_sectors (sb fs) * 512 + 4 * c.
Definition clus_addr (fs : filesystem) (c : Z) : Z :=
  (first_data_sector (sbinfo fs) + (c - 2) * sectors_per_cluster (sb fs)) * 512.

Section Volume.
Context (fs : filesystem) (G : geometry fs).

Lemma cluster_small c : cluster fs c -> 0 <= 4 * c < 2 ^ 32 /\ c < 2 ^ 30.
Proof. destruct G. unfold cluster. lia. Qed.

Lemma good_cluster c : cluster fs c -> bad_cluster fs c = false.
Proof.
  intros Hc. pose proof Hc as Hc'. unfold cluster in Hc'. destruct G. unfold bad_cluster. rewrite g_root0.
  rewrite u32_small by lia. apply orb_false_iff. rewrite !Z.ltb_ge. lia.
Qed.

Lemma fat_sector c k : cluster fs c -> 0 <= k <= 1 ->
  SectorNum (sb fs) c k = reserved_sectors (sb fs) + 4 * c / 512 + k * fat_size (sb fs) /\
  0 <= SectorNum (sb fs) c k < 2 ^ 32 /\ SectorNum (sb fs) c k < first_data_sector (sbinfo fs).
Proof.
  intros Hc Hk. destruct (cluster_small c Hc) as [Hs _]. pose proof Hc as Hc'. unfold cluster in Hc'. destruct G.
  unfold SectorNum, FATSecNum, fat32_entry_size. rewrite g_bps0, (u32_small (c * 4)) by lia. rewrite (Z.mul_comm c 4).
  assert (0 <= 4 * c / 512 < fat_size (sb fs)) by dlia. assert (0 <= k * fat_size (sb fs) <= fat_size (sb fs)) by nia.
  rewrite (u32_small (reserved_sectors (sb fs) + _)) by lia. rewrite u32_small by lia. lia.
Qed.

Lemma fat_offset c : cluster fs c ->
  4 * (FATEntOffset (sb fs) c / 4) = (4 * c) mod 512 /\ 0 <= (4 * c) mod 512 /\ (4 * c) mod 512 + 4 <= 512.
Proof.
  intros Hc. destruct (cluster_small c Hc) as [Hs _]. unfold FATEntOffset, fat32_entry_size.
  rewrite (g_bps _ G), u32_small by lia. dlia.
Qed.

Lemma fat_addr_sector c : cluster fs c -> SectorNum (sb fs) c 0 * 512 + (4 * c) mod 512 = fat_addr fs c.
Proof. intros Hc. destruct (fat_sector c 0 Hc) as [-> _]; [lia|]. unfold fat_addr. dlia. Qed.

Lemma clus_sector c : cluster fs c ->
  first_sector_clus fs c * 512 = clus_addr fs c /\ 0 <= first_sector_clus fs c /\
  first_sector_clus fs c + sectors_per_cluster (sb fs) < 2 ^ 32 /\ first_data_sector (sbinfo fs) <= first_sector_clus fs c.
Proof.
  intros Hc. destruct (cluster_small c Hc) as [_ Hs]. unfold cluster in Hc. destruct G. unfold first_sector_clus, clus_addr. rewrite g_root0.
  assert (H0 : 0 <= (c - 2) * sectors_per_cluster (sb fs)) by nia.
  assert (H1 : (c - 2) * sectors_per_cluster (sb fs) + sectors_per_cluster (sb fs) <= cluster_cnt (sbinfo fs) * sectors_per_cluster (sb fs)) by nia.
  rewrite (u32_small (c - 2)) by lia. rewrite u32_small by lia. lia.
Qed.

(** FAT entries and clusters do not overlap. *)
Lemma fat_addr_apart c c' : c <> c' -> fat_addr fs c + 4 <= fat_addr fs c' \/ fat_addr fs c' + 4 <= fat_addr fs c.
Proof. unfold fat_addr. lia. Qed.
Lemma fat_clus_apart c c' : cluster fs c -> cluster fs c' -> fat_addr fs c + 4 <= clus_addr fs c'.
Proof.
  intros Hc Hc'. destruct (clus_sector c' Hc') as (<- & _ & _ & H). unfold cluster in Hc. destruct G. unfold fat_addr. lia.
Qed.
Lemma clus_addr_apart c c' : cluster fs c -> cluster fs c' -> c <> c' ->
  clus_addr fs c + CLUSTER_SIZE fs <= clus_addr fs c' \/ clus_addr fs c' + CLUSTER_SIZE fs <= clus_addr fs c.
Proof.
  intros Hc Hc' Hne. destruct G. rewrite g_size0. unfold clus_addr.
  destruct (Z.lt_total c c') as [?|[?|?]]; [left|done|right]; nia.
Qed.
End Volume.

Lemma image_same D n : image (disk_upd n (D n) D) ≡ image D.
Proof. intros p. unfold ld8, image, disk_upd. by destruct (Z.eqb_spec (p / 512) n) as [->|]. Qed.

(** ** The operations *)

Section Ops.
Context {S : Type} `{CacheLaws S}.
Context (fs : filesystem) (G : geometry fs) (Hdev : deviceNum fs = cache_dev).
#[local] Abbreviation memof := (lget (T := mem)).

(** The buffer of one sector, from [bread] to [brelse]: reading it, or changing
    and writing it. *)
Lemma sector_ok s D n : cached s D ∅ -> 0 <= n < 2 ^ 32 ->
  exists b s1, c_bread (deviceNum fs) n s = Ret (b, s1) /\ memof s1 = memof s /\
    (forall off len, 0 <= off -> 0 <= len -> off + len <= 512 -> data_get b off len s1 = Ret (sub (D n) off len, s1)) /\
    (forall m, exists s2, c_brelse b (lput m s1) = Ret (tt, s2) /\ cached s2 D ∅ /\ memof s2 = m) /\
    (forall off l, 0 <= off -> off + Z.of_nat (length l) <= 512 ->
       exists s2 s3 s4, data_put b off l s1 = Ret (tt, s2) /\ c_bwrite b s2 = Ret (tt, s3) /\ c_brelse b s3 = Ret (tt, s4) /\
         cached s4 (disk_upd n (splice (D n) off l) D) ∅ /\ memof s4 = memof s).
Proof.
  intros Hc Hn. destruct (bread_ok s D ∅ n Hc) as (b & s1 & H1 & _ & Hc1 & M1); [done|done|done|].
  rewrite insert_empty in Hc1. pose proof (cached_length _ _ _ n Hc Hn) as Hlen.
  assert (Hx : ({[b := (n, D n)]} : gmap addr (Z * list Z)) !! b = Some (n, D n)) by apply lookup_singleton_eq.
  exists b, s1. rewrite Hdev. split; [done|]. split; [done|]. split; [|split].
  - intros off len Ho Hl Hol. unfold data_get. erewrite kbind_ret by (eapply data_ok; [exact Hc1|exact Hx]).
    by rewrite (proj2 (Z.ltb_ge _ _)) by lia.
  - intros m. destruct (brelse_ok (lput m s1) D {[b := (n, D n)]} b n) as (s2 & H2 & Hc2 & M2); [by apply cached_mem|done|].
    rewrite delete_singleton_eq in Hc2. exists s2. by rewrite M2, lget_lput.
  - intros off l Ho Hol.
    destruct (set_data_ok s1 D {[b := (n, D n)]} b n (D n) (fun x => splice x off l) Hc1 Hx) as (s2 & H2 & Hc2 & M2);
      [by rewrite length_splice|].
    rewrite insert_singleton_eq in Hc2.
    destruct (bwrite_ok s2 D _ b n (splice (D n) off l) Hc2) as (s3 & H3 & Hc3 & M3); [apply lookup_singleton_eq|].
    destruct (brelse_ok s3 (disk_upd n (splice (D n) off l) D) _ b n Hc3) as (s4 & H4 & Hc4 & M4).
    { rewrite lookup_singleton_eq. unfold disk_upd. by rewrite Z.eqb_refl. }
    rewrite delete_singleton_eq in Hc4. exists s2, s3, s4. split; [|split; [done|split; [done|split; [done|congruence]]]].
    unfold data_put. erewrite kbind_ret by (eapply data_ok; [exact Hc1|exact Hx]). by rewrite (proj2 (Z.ltb_ge _ _)) by lia.
Qed.

(** *** FAT entries *)

Definition fat_entry (D : Z -> list Z) (c : Z) : Z := ld32 (image D) (fat_addr fs c).

Lemma fat_entry_image D m c : image D ≡ m -> fat_entry D c = ld32 m (fat_addr fs c).
Proof. intros I. exact (ldn_proper 4 _ _ I _ _ eq_refl). Qed.

Lemma ldn_mget n : forall m a, ldn n m a = ldn n (bytes_mem (mget m a n)) 0.
Proof.
  intros m a. assert (Hi : forall i x, (i < n)%nat -> x = Z.of_nat i -> ld8 (bytes_mem (mget m a n)) x = ld8 m (a + x)).
  { intros i x Hi ->. unfold ld8 at 1. rewrite (bytes_mem_lookup _ i (ld8 m (a + Z.of_nat i))) by by apply lookup_mget. apply u8_small, ld8_range. }
  assert (Hgen : forall k b x, (x + k <= n)%nat -> b = a + Z.of_nat x -> ldn k m b = ldn k (bytes_mem (mget m a n)) (Z.of_nat x)).
  { induction k as [|k IH]; intros b x Hk ->; cbn [ldn]; [done|]. rewrite (Hi x) by lia. f_equal. f_equal.
    replace (Z.of_nat x + 1) with (Z.of_nat (Datatypes.S x)) by lia. apply IH; lia. }
  by apply (Hgen n a 0%nat); [lia|rewrite Z.add_0_r].
Qed.

Lemma ldn_bytes_u8 n : forall x off, ldn n (bytes_mem (map u8 x)) off = ldn n (bytes_mem x) off.
Proof.
  intros x off. apply ldn_ext. intros p _. unfold ld8, bytes_mem. case_match; [done|].
  pose proof (map_nth u8 x 0 (Z.to_nat p)) as E. change (u8 0) with 0 in E. rewrite E. apply u8_idem.
Qed.

Lemma fatread_ok s D c : cached s D ∅ -> cluster fs c ->
  exists s', fatread fs c s = Ret (fat_entry D c, s') /\ cached s' D ∅ /\ memof s' = memof s.
Proof.
  intros Hc Hcl. unfold fatread. rewrite (good_cluster fs G c Hcl), (g_bps _ G). change (512 =? 0) with false. cbv iota zeta.
  destruct (fat_sector fs G c 0 Hcl) as (_ & Hr & _); [lia|]. destruct (fat_offset fs G c Hcl) as (-> & Ho1 & Ho2).
  destruct (sector_ok s D _ Hc Hr) as (b & s1 & H1 & M1 & Hget & Hrel & _).
  destruct (Hrel (memof s1)) as (s2 & H2 & Hc2 & M2). rewrite lput_lget in H2.
  exists s2. split; [|split; [done|congruence]]. erewrite kbind_ret by exact H1. erewrite kbind_ret by (apply Hget; lia).
  erewrite kbind_ret by exact H2. unfold kret. do 2 f_equal. unfold fat_entry, ld32. rewrite <- (ldn_bytes_u8 4), (ldn_mget 4 (image D)).
  rewrite (image_sub D _ _ 4) by (exact (cached_length _ _ _ _ Hc Hr) || lia). by rewrite (fat_addr_sector fs G).
Qed.

Lemma fatwrite_ok s D c v : cached s D ∅ -> cluster fs c ->
  exists s' D', fatwrite fs c v s = Ret (tt, s') /\ cached s' D' ∅ /\ memof s' = memof s /\
    image D' ≡ st32 (image D) (fat_addr fs c) v /\
    D' (SectorNum (sb fs) c 1) = D (SectorNum (sb fs) c 1).
Proof.
  intros Hc Hcl. unfold fatwrite. rewrite (good_cluster fs G c Hcl), (g_bps _ G). change (512 =? 0) with false. cbv iota zeta.
  destruct (fat_sector fs G c 0 Hcl) as (E0 & Hr0 & _); [lia|]. destruct (fat_sector fs G c 1 Hcl) as (E1 & Hr1 & _); [lia|].
  pose proof (fat_addr_sector fs G c Hcl) as Ead.
  set (n0 := SectorNum (sb fs) c 0) in *. set (n1 := SectorNum (sb fs) c 1) in *.
  assert (Hne : n0 <> n1) by (pose proof (g_fat _ G); pose proof (g_cnt _ G); lia).
  destruct (fat_offset fs G c Hcl) as (-> & Ho1 & Ho2). set (o := (4 * c) mod 512) in *. destruct (le32_bytes v) as [Hle Hput].
  pose proof (cached_length _ _ _ n0 Hc Hr0) as Hlen. rewrite Hdev.
  set (x0 := splice (D n0) o (le32 v)). assert (Hx0 : length x0 = 512%nat) by by unfold x0; rewrite length_splice.
  destruct (bread_ok s D ∅ n0 Hc) as (b & s1 & H1 & _ & Hc1 & M1); [done|done|done|]. rewrite insert_empty in Hc1.
  destruct (set_data_ok s1 D _ b n0 (D n0) (fun x => splice x o (le32 v)) Hc1) as (s2 & H2 & Hc2 & M2);
    [apply lookup_singleton_eq|done|]. rewrite insert_singleton_eq in Hc2. fold x0 in Hc2.
  destruct (bwrite_ok s2 D _ b n0 x0 Hc2) as (s3 & H3 & Hc3 & M3); [apply lookup_singleton_eq|].
  set (D1 := disk_upd n0 x0 D) in *.
  destruct (bread_ok s3 D1 {[b := (n0, x0)]} n1 Hc3) as (b1 & s4 & H4 & Hb1 & Hc4 & M4); [| |done|].
  { intros b' y [<- <-]%lookup_singleton_Some. done. }
  { by rewrite map_size_singleton. }
  apply lookup_singleton_None in Hb1. set (X4 := <[b1 := (n1, D1 n1)]> {[b := (n0, x0)]}) in *.
  assert (Hb4 : X4 !! b = Some (n0, x0)) by (unfold X4; rewrite lookup_insert_ne by done; apply lookup_singleton_eq).
  destruct (set_data_ok s4 D1 X4 b n0 x0 (fun x => splice x o (le32 v)) Hc4 Hb4) as (s5 & H5 & Hc5 & M5); [by rewrite length_splice|].
  assert (Hx1 : splice x0 o (le32 v) = x0) by apply splice_twice. rewrite Hx1, insert_id in Hc5 by exact Hb4.
  assert (Hb5 : X4 !! b1 = Some (n1, D1 n1)) by apply lookup_insert_eq.
  destruct (bwrite_ok s5 D1 X4 b1 n1 (D1 n1) Hc5 Hb5) as (s6 & H6 & Hc6 & M6). set (D2 := disk_upd n1 (D1 n1) D1) in *.
  assert (HD2 : D2 n0 = x0 /\ D2 n1 = D1 n1 /\ D1 n1 = D n1).
  { unfold D2, D1, disk_upd. by rewrite Z.eqb_refl, (proj2 (Z.eqb_neq n0 n1)), Z.eqb_refl, (proj2 (Z.eqb_neq n1 n0)) by lia. }
  destruct HD2 as (HD20 & HD21 & HD11).
  destruct (brelse_ok s6 D2 X4 b n0 Hc6) as (s7 & H7 & Hc7 & M7); [by rewrite HD20|].
  destruct (brelse_ok s7 D2 _ b1 n1 Hc7) as (s8 & H8 & Hc8 & M8).
  { rewrite lookup_delete_ne by done. by rewrite Hb5, HD21. }
  assert (Hempty : delete b1 (delete b X4) = ∅).
  { unfold X4. rewrite delete_insert_ne by done. rewrite delete_singleton_eq, insert_empty. apply delete_singleton_eq. }
  rewrite Hempty in Hc8. exists s8, D2. split; [|split; [done|split; [congruence|split; [|congruence]]]].
  - erewrite kbind_ret by exact H1.
    assert (HP1 : data_put b o (le32 v) s1 = Ret (tt, s2)).
    { unfold data_put. erewrite kbind_ret by (eapply data_ok; [exact Hc1|apply lookup_singleton_eq]). by rewrite (proj2 (Z.ltb_ge _ _)) by (rewrite Hle; lia). }
    erewrite kbind_ret by exact HP1. erewrite kbind_ret by exact H3. erewrite kbind_ret by exact H4.
    assert (HP2 : data_put b o (le32 v) s4 = Ret (tt, s5)).
    { unfold data_put. erewrite kbind_ret by (eapply data_ok; [exact Hc4|exact Hb4]). by rewrite (proj2 (Z.ltb_ge _ _)) by (rewrite Hle; lia). }
    erewrite kbind_ret by exact HP2. erewrite kbind_ret by exact H6. by erewrite kbind_ret by exact H7.
  - unfold D2. rewrite image_same. unfold D1, x0. rewrite image_upd by (done || rewrite Hle; lia). by rewrite Ead, Hput.
Qed.

(** *** Clusters *)

Lemma store_bytes_ok a l (s : S) : store_bytes a l s = Ret (tt, lput (mput (memof s) a l) s).
Proof. done. Qed.

Lemma mput_image D n off len m a : length (D n) = 512%nat -> 0 <= off -> 0 <= len -> off + len <= 512 ->
  mput m a (sub (D n) off len) = mput m a (mget (image D) (n * 512 + off) (Z.to_nat len)).
Proof. intros. by rewrite <- image_sub, mput_u8. Qed.

Lemma clusread_loop_ok D n : forall fuel s sec dst rl, cached s D ∅ -> 0 <= sec -> 0 <= rl <= n -> n < 2 ^ 32 ->
  sec * 512 + (n - rl) <= (2 ^ 32 - 1) * 512 -> n - rl <= 512 * (Z.of_nat fuel - 1) ->
  exists s', clusread_loop fuel fs sec dst rl n s = Ret (n, s') /\ cached s' D ∅ /\
    memof s' = mput (memof s) (dst + rl) (mget (image D) (sec * 512) (Z.to_nat (n - rl))).
Proof.
  induction fuel as [|fuel IH]; intros s sec dst rl Hc Hsec Hrl Hn Hend Hf; [lia|]. cbn [clusread_loop].
  destruct (Z.ltb_spec rl n) as [Hlt|Hge].
  - rewrite (g_bps _ G). set (len := Z.min 512 (n - rl)). rewrite (u32_small len) by lia.
    destruct (sector_ok s D sec Hc) as (b & s1 & H1 & M1 & Hget & Hrel & _); [lia|].
    erewrite kbind_ret by exact H1. erewrite kbind_ret by (apply Hget; lia). erewrite kbind_ret by apply store_bytes_ok.
    destruct (Hrel (mput (memof s1) (dst + rl) (sub (D sec) 0 len))) as (s2 & H2 & Hc2 & M2). erewrite kbind_ret by exact H2.
    rewrite (u32_small (rl + len)) by lia.
    destruct (Z.eqb_spec len (n - rl)) as [Elast|Hmore].
    + destruct fuel as [|fuel]; [lia|]. cbn [clusread_loop]. rewrite (proj2 (Z.ltb_ge _ _)) by lia.
      exists s2. split; [by replace (rl + len) with n by lia|]. split; [done|].
      rewrite M2, M1, mput_image, Z.add_0_r, Elast by (lia || apply (cached_length _ _ _ _ Hc); lia). done.
    + rewrite (u32_small (sec + 1)) by lia.
      destruct (IH s2 (sec + 1) dst (rl + len) Hc2) as (s3 & H3 & Hc3 & M3); [lia..|].
      exists s3. split; [done|]. split; [done|]. rewrite M3, M2, M1, mput_image, Z.add_0_r by (lia || apply (cached_length _ _ _ _ Hc); lia).
      replace (Z.to_nat (n - rl)) with (Z.to_nat len + Z.to_nat (n - (rl + len)))%nat by lia.
      rewrite mget_app, mput_app, length_mget, Z2Nat.id by lia. f_equal; [lia|]. f_equal. lia.
  - exists s. replace (n - rl) with 0 by lia. cbn. split; [by replace rl with n by lia|done].
Qed.

(** Sector and offset of byte [off] of a cluster. *)
Lemma clus_pos c off n : cluster fs c -> 0 <= off -> 0 < n -> off + n <= CLUSTER_SIZE fs ->
  let sec := u32 (first_sector_clus fs c + off / 512) in
  0 <= sec < 2 ^ 32 /\ sec * 512 + off mod 512 = clus_addr fs c + off /\ sec * 512 + off mod 512 + n <= (2 ^ 32 - 1) * 512 /\
  0 <= off mod 512 < 512 /\ n < 2 ^ 32.
Proof.
  intros Hcl Ho Hn Hfit. destruct (clus_sector fs G c Hcl) as (Ead & H1 & H2 & _). rewrite (g_size _ G) in Hfit.
  pose proof (g_spc _ G). cbv zeta. rewrite u32_small by dlia. dlia.
Qed.

Lemma room_in_cluster off n : 0 <= off -> 0 < n -> off + n <= CLUSTER_SIZE fs -> u32 (bytes_per_clus (sbinfo fs) - off) = CLUSTER_SIZE fs - off.
Proof. intros Ho Hn Hfit. pose proof (g_size _ G). pose proof (g_spc _ G). apply u32_small. unfold CLUSTER_SIZE in *. lia. Qed.

Lemma clusread_ok fuel s D c off dst n :
  cached s D ∅ -> cluster fs c -> 0 <= off -> 0 < n -> off + n <= CLUSTER_SIZE fs -> n <= 512 * (Z.of_nat fuel - 1) ->
  exists s', clusread fuel fs c off dst n s = Ret (n, s') /\ cached s' D ∅ /\
    memof s' = mput (memof s) dst (mget (image D) (clus_addr fs c + off) (Z.to_nat n)).
Proof.
  intros Hc Hcl Ho Hn Hfit Hf. unfold clusread. rewrite (g_bps _ G). change (512 =? 0) with false. cbv iota zeta.
  rewrite (room_in_cluster off n), (proj2 (Z.leb_le n _)) by lia. erewrite kbind_ret by done.
  destruct (clus_pos c off n Hcl Ho Hn Hfit) as (Hsec & Ead & Hend & Hmod & Hn32).
  set (sec := u32 (first_sector_clus fs c + off / 512)) in *. set (o := off mod 512) in *.
  set (len := Z.min (512 - o) n). rewrite (u32_small len) by lia.
  destruct (sector_ok s D sec Hc Hsec) as (b & s1 & H1 & M1 & Hget & Hrel & _).
  erewrite kbind_ret by exact H1. erewrite kbind_ret by (apply Hget; lia). erewrite kbind_ret by apply store_bytes_ok.
  destruct (Hrel (mput (memof s1) dst (sub (D sec) o len))) as (s2 & H2 & Hc2 & M2). erewrite kbind_ret by exact H2.
  rewrite mput_image, Ead, M1 in M2 by (lia || by apply (cached_length _ _ _ _ Hc)).
  destruct (Z.eqb_spec len n) as [->|Hmore]; [by exists s2|].
  rewrite (u32_small (sec + 1)) by lia.
  destruct (clusread_loop_ok D n fuel s2 (sec + 1) dst len Hc2) as (s3 & H3 & Hc3 & M3); [lia..|].
  exists s3. split; [done|]. split; [done|]. rewrite M3, M2.
  replace (Z.to_nat n) with (Z.to_nat len + Z.to_nat (n - len))%nat by lia.
  rewrite mget_app, mput_app, length_mget, Z2Nat.id by lia. f_equal. f_equal. lia.
Qed.

Lemma cluswrite_loop_ok m n src : forall fuel s D sec wl, cached s D ∅ -> memof s = m -> 0 <= sec -> 0 <= wl <= n -> n < 2 ^ 32 ->
  sec * 512 + (n - wl) <= (2 ^ 32 - 1) * 512 -> n - wl <= 512 * (Z.of_nat fuel - 1) ->
  exists s' D', cluswrite_loop fuel fs sec src wl n s = Ret (n, s') /\ cached s' D' ∅ /\ memof s' = m /\
    image D' ≡ mput (image D) (sec * 512) (mget m (src + wl) (Z.to_nat (n - wl))).
Proof.
  induction fuel as [|fuel IH]; intros s D sec wl Hc Hm Hsec Hwl Hn Hend Hf; [lia|]. cbn [cluswrite_loop].
  destruct (Z.ltb_spec wl n) as [Hlt|Hge].
  - rewrite (g_bps _ G). set (len := Z.min 512 (n - wl)). rewrite (u32_small len) by lia.
    destruct (sector_ok s D sec Hc) as (b & s1 & H1 & M1 & _ & _ & Hput); [lia|].
    set (l := mget m (src + wl) (Z.to_nat len)). assert (Hl : Z.of_nat (length l) = len) by (unfold l; rewrite length_mget; lia).
    destruct (Hput 0 l) as (s2 & s3 & s4 & H2 & H3 & H4 & Hc4 & M4); [lia..|]. rewrite Hm in M4.
    erewrite kbind_ret by exact H1. erewrite kbind_ret by (unfold load_bytes, kget; by rewrite M1, Hm).
    erewrite kbind_ret by exact H2. erewrite kbind_ret by exact H3. erewrite kbind_ret by exact H4.
    assert (Him : image (disk_upd sec (splice (D sec) 0 l) D) ≡ mput (image D) (sec * 512) l).
    { rewrite image_upd by (lia || apply (cached_length _ _ _ _ Hc); lia). by rewrite Z.add_0_r. }
    rewrite (u32_small (wl + len)) by lia. destruct (Z.eqb_spec len (n - wl)) as [Elast|Hmore].
    + destruct fuel as [|fuel]; [lia|]. cbn [cluswrite_loop]. rewrite (proj2 (Z.ltb_ge _ _)) by lia.
      eexists s4, _. split; [by replace (wl + len) with n by lia|]. split; [done|]. split; [done|]. rewrite Him. unfold l. by rewrite Elast.
    + rewrite (u32_small (sec + 1)) by lia.
      destruct (IH s4 _ (sec + 1) (wl + len) Hc4 M4) as (s5 & D5 & H5 & Hc5 & M5 & I5); [lia..|].
      exists s5, D5. split; [done|]. split; [done|]. split; [done|]. rewrite I5, Him.
      replace (Z.to_nat (n - wl)) with (Z.to_nat len + Z.to_nat (n - (wl + len)))%nat by lia.
      rewrite mget_app, mput_app, length_mget, Z2Nat.id by lia. fold l.
      replace (src + wl + len) with (src + (wl + len)) by lia. by replace ((sec + 1) * 512) with (sec * 512 + len) by lia.
  - exists s, D. replace (n - wl) with 0 by lia. cbn. split; [by replace wl with n by lia|done].
Qed.

(** The condition of [cluswrite]'s [ASSERT_INFO] is false when the write reaches
    the end of the cluster, where that of [clusread] is true: there the write
    succeeds only if the logger comes back. *)
Definition log_free (off n : Z) : Prop := off + n < CLUSTER_SIZE fs \/ log_returns S.

Lemma write_check_ok s D off n : cached s D ∅ -> 0 <= off -> 0 < n -> off + n <= CLUSTER_SIZE fs -> log_free off n ->
  exists s', ASSERT_INFO (n <? u32 (bytes_per_clus (sbinfo fs) - off)) cluswrite_msg s = Ret (tt, s') /\ cached s' D ∅ /\ memof s' = memof s.
Proof.
  intros Hc Ho Hn Hfit Hlog. rewrite (room_in_cluster off n) by done. unfold ASSERT_INFO.
  destruct (Z.ltb_spec n (CLUSTER_SIZE fs - off)) as [Hlt|Hge]; [by exists s|].
  destruct Hlog as [?|Hlog]; [lia|]. by apply Hlog.
Qed.

(** A write that fills its cluster to the end calls the logger first. *)
Lemma cluswrite_full_logs fuel s c off src n e : 0 <= off -> 0 < n -> off + n = CLUSTER_SIZE fs ->
  c_log cluswrite_msg s = Panic e -> cluswrite fuel fs c off src n s = Panic e.
Proof.
  intros Ho Hn Hfit He. unfold cluswrite. rewrite (g_bps _ G). change (512 =? 0) with false. cbv iota zeta.
  rewrite (room_in_cluster off n) by lia. unfold ASSERT_INFO. rewrite (proj2 (Z.ltb_ge _ _)) by lia. unfold kbind at 1. by rewrite He.
Qed.

Lemma cluswrite_ok fuel s D c off src n :
  cached s D ∅ -> cluster fs c -> 0 <= off -> 0 < n -> off + n <= CLUSTER_SIZE fs -> log_free off n -> n <= 512 * (Z.of_nat fuel - 1) ->
  exists s' D', cluswrite fuel fs c off src n s = Ret (n, s') /\ cached s' D' ∅ /\ memof s' = memof s /\
    image D' ≡ mput (image D) (clus_addr fs c + off) (mget (memof s) src (Z.to_nat n)).
Proof.
  intros Hc0 Hcl Ho Hn Hfit Hlog Hf. unfold cluswrite. rewrite (g_bps _ G). change (512 =? 0) with false. cbv iota zeta.
  destruct (write_check_ok s D off n Hc0 Ho Hn Hfit Hlog) as (s0 & Hs0 & Hc & M0). erewrite kbind_ret by exact Hs0.
  rewrite <- M0. clear s Hs0 Hc0 M0. rename s0 into s.
  destruct (clus_pos c off n Hcl Ho Hn Hfit) as (Hsec & Ead & Hend & Hmod & Hn32).
  set (sec := u32 (first_sector_clus fs c + off / 512)) in *. set (o := off mod 512) in *.
  set (len := Z.min (512 - o) n). rewrite (u32_small len) by lia.
  destruct (sector_ok s D sec Hc Hsec) as (b & s1 & H1 & M1 & _ & _ & Hput).
  set (l := mget (memof s) src (Z.to_nat len)). assert (Hl : Z.of_nat (length l) = len) by (unfold l; rewrite length_mget; lia).
  destruct (Hput o l) as (s2 & s3 & s4 & H2 & H3 & H4 & Hc4 & M4); [lia..|].
  erewrite kbind_ret by exact H1. erewrite kbind_ret by (unfold load_bytes, kget; by rewrite M1).
  erewrite kbind_ret by exact H2. erewrite kbind_ret by exact H3. erewrite kbind_ret by exact H4.
  assert (Him : image (disk_upd sec (splice (D sec) o l) D) ≡ mput (image D) (clus_addr fs c + off) l).
  { rewrite image_upd by (lia || by apply (cached_length _ _ _ _ Hc)). by rewrite Ead. }
  destruct (Z.eqb_spec len n) as [Elen|Hmore]; [eexists s4, _; rewrite <- Elen; by split_and!|].
  rewrite (u32_small (sec + 1)) by lia.
  destruct (cluswrite_loop_ok (memof s) n src fuel s4 _ (sec + 1) len Hc4 M4) as (s5 & D5 & H5 & Hc5 & M5 & I5); [lia..|].
  exists s5, D5. split; [done|]. split; [done|]. split; [done|]. rewrite I5, Him.
  replace (Z.to_nat n) with (Z.to_nat len + Z.to_nat (n - len))%nat by lia.
  rewrite mget_app, mput_app, length_mget, Z2Nat.id by lia. fold l.
  by replace ((sec + 1) * 512) with (clus_addr fs c + off + len) by lia.
Qed.

Lemma cluszero_loop_ok n : forall s D idx, cached s D ∅ -> 0 <= idx -> idx + Z.of_nat n < 2 ^ 32 ->
  exists s' D', cluszero_loop n fs idx s = Ret (tt, s') /\ cached s' D' ∅ /\ memof s' = memof s /\
    image D' ≡ mput (image D) (idx * 512) (replicate (n * 512) 0).
Proof.
  induction n as [|n IH]; intros s D idx Hc Hi Hend; cbn [cluszero_loop]; [by exists s, D|].
  rewrite (g_bps _ G). change (Z.to_nat 512) with 512%nat.
  destruct (sector_ok s D idx Hc) as (b & s1 & H1 & M1 & _ & _ & Hput); [lia|].
  destruct (Hput 0 (replicate 512 0)) as (s2 & s3 & s4 & H2 & H3 & H4 & Hc4 & M4); [lia|by rewrite length_replicate|].
  erewrite kbind_ret by exact H1. erewrite kbind_ret by exact H2. erewrite kbind_ret by exact H3. erewrite kbind_ret by exact H4.
  rewrite u32_small by lia. destruct (IH s4 _ (idx + 1) Hc4) as (s5 & D5 & H5 & Hc5 & M5 & I5); [lia..|].
  exists s5, D5. split; [done|]. split; [done|]. split; [congruence|]. rewrite I5, image_upd; [|apply (cached_length _ _ _ _ Hc); lia|lia|by rewrite length_replicate].
  replace (Datatypes.S n * 512)%nat with (512 + n * 512)%nat by lia. rewrite replicate_add, mput_app, length_replicate, Z.add_0_r.
  by replace ((idx + 1) * 512) with (idx * 512 + Z.of_nat 512) by lia.
Qed.

Lemma cluszero_ok s D c : cached s D ∅ -> cluster fs c ->
  exists s' D', cluszero fs c s = Ret (tt, s') /\ cached s' D' ∅ /\ memof s' = memof s /\
    image D' ≡ mput (image D) (clus_addr fs c) (replicate (Z.to_nat (CLUSTER_SIZE fs)) 0).
Proof.
  intros Hc Hcl. destruct (clus_sector fs G c Hcl) as (Ead & H1 & H2 & _). pose proof (g_spc _ G).
  destruct (cluszero_loop_ok (Z.to_nat (sectors_per_cluster (sb fs))) s D (first_sector_clus fs c) Hc) as (s' & D' & R & Hc' & M & I); [lia..|].
  exists s', D'. split; [done|]. split; [done|]. split; [done|]. rewrite I, Ead, (g_size _ G).
  by replace (Z.to_nat (512 * sectors_per_cluster (sb fs))) with (Z.to_nat (sectors_per_cluster (sb fs)) * 512)%nat by lia.
Qed.

(** *** The table and the clusters as functions of the cluster number *)

Record vol : Type := mkVol { v_fat : Z -> Z; v_clus : Z -> list Z; v_mem : mem }.
Definition fat_set (c v : Z) (V : vol) : vol := mkVol (fun k => if k =? c then v else v_fat V k) (v_clus V) (v_mem V).
Definition clus_set (c : Z) (x : list Z) (V : vol) : vol := mkVol (v_fat V) (fun k => if k =? c then x else v_clus V k) (v_mem V).

Record holds (s : S) (D : Z -> list Z) (V : vol) : Prop := {
  h_cached : cached s D ∅;
  h_mem : memof s = v_mem V;
  h_fat : forall c, cluster fs c -> fat_entry D c = v_fat V c;
  h_clus : forall c, cluster fs c -> mget (image D) (clus_addr fs c) (Z.to_nat (CLUSTER_SIZE fs)) = v_clus V c
}.

Lemma holds_fatread s D V c : holds s D V -> cluster fs c ->
  exists s', fatread fs c s = Ret (v_fat V c, s') /\ holds s' D V.
Proof.
  intros [Hc Hm Hf Hx] Hcl. destruct (fatread_ok s D c Hc Hcl) as (s' & R & Hc' & M). exists s'. rewrite <- (Hf c Hcl).
  split; [done|]. split; [done|congruence|done|done].
Qed.

Lemma holds_fatwrite s D V c v : holds s D V -> cluster fs c -> 0 <= v < 2 ^ 32 ->
  exists s' D', fatwrite fs c v s = Ret (tt, s') /\ holds s' D' (fat_set c v V).
Proof.
  intros [Hc Hm Hf Hx] Hcl Hv. destruct (fatwrite_ok s D c v Hc Hcl) as (s' & D' & R & Hc' & M & I & _). exists s', D'.
  split; [done|]. split; [done|by rewrite M| |]; intros k Hk; cbn [fat_set clus_set v_fat v_clus].
  - rewrite (fat_entry_image _ _ _ I). destruct (Z.eqb_spec k c) as [->|Hne].
    + rewrite ld32_st32_eq. by apply u32_small.
    + rewrite ld32_st32_other by (pose proof (fat_addr_apart fs k c Hne); lia). by apply Hf.
  - rewrite <- (Hx k Hk), I. destruct (le32_bytes v) as [Hle <-]. apply mget_mput_out. right. rewrite Hle.
    pose proof (fat_clus_apart fs G c k Hcl Hk). lia.
Qed.

(** Writing a run of bytes inside a cluster. *)
Lemma holds_put s s' D D' V c off l : holds s D V -> cluster fs c -> 0 <= off -> off + Z.of_nat (length l) <= CLUSTER_SIZE fs ->
  cached s' D' ∅ -> memof s' = memof s -> image D' ≡ mput (image D) (clus_addr fs c + off) l ->
  holds s' D' (clus_set c (splice (v_clus V c) off (map u8 l)) V).
Proof.
  intros [Hc Hm Hf Hx] Hcl Ho Hl Hc' M I. split; [done|by rewrite M| |]; intros k Hk; cbn [fat_set clus_set v_fat v_clus].
  - rewrite <- (Hf k Hk), (fat_entry_image _ _ _ I). apply ldn_ext. intros p Hp. apply ld8_mput_out. left.
    pose proof (fat_clus_apart fs G k c Hk Hcl). lia.
  - rewrite I. destruct (Z.eqb_spec k c) as [->|Hne].
    + rewrite mget_mput_splice by lia. by rewrite (Hx c Hcl).
    + rewrite <- (Hx k Hk). apply mget_mput_out. pose proof (clus_addr_apart fs G k c Hk Hcl Hne). lia.
Qed.

Lemma holds_cluszero s D V c : holds s D V -> cluster fs c ->
  exists s' D', cluszero fs c s = Ret (tt, s') /\ holds s' D' (clus_set c (replicate (Z.to_nat (CLUSTER_SIZE fs)) 0) V).
Proof.
  intros HV Hcl. destruct (cluszero_ok s D c (h_cached _ _ _ HV) Hcl) as (s' & D' & R & Hc' & M & I). exists s', D'. split; [done|].
  rewrite <- (Z.add_0_r (clus_addr fs c)) in I.
  pose proof (holds_put s s' D D' V c 0 (replicate (Z.to_nat (CLUSTER_SIZE fs)) 0) HV Hcl ltac:(lia)) as HP. rewrite length_replicate in HP.
  assert (E : replicate (Z.to_nat (CLUSTER_SIZE fs)) 0 =
    splice (v_clus V c) 0 (map u8 (replicate (Z.to_nat (CLUSTER_SIZE fs)) 0))).
  { pose proof (fmap_replicate u8 (Z.to_nat (CLUSTER_SIZE fs)) 0) as E. change (u8 0) with 0 in E.
    change (map u8) with (fmap (M := list) u8). rewrite E, splice_all; [done|].
    by rewrite length_replicate, <- (h_clus _ _ _ HV c Hcl), length_mget. }
  rewrite E. pose proof (g_size _ G). pose proof (g_spc _ G). apply HP; [lia|done|done|done].
Qed.

Lemma holds_clusread s D V c off dst n : holds s D V -> cluster fs c -> 0 <= off -> 0 < n -> off + n <= CLUSTER_SIZE fs ->
  exists s', clusread 256 fs c off dst n s = Ret (n, s') /\
    holds s' D (mkVol (v_fat V) (v_clus V) (mput (v_mem V) dst (sub (v_clus V c) off n))).
Proof.
  intros [Hc Hm Hf Hx] Hcl Ho Hn Hfit. pose proof (g_size _ G). pose proof (g_spc _ G).
  destruct (clusread_ok 256 s D c off dst n Hc Hcl Ho Hn Hfit) as (s' & R & Hc' & M); [lia|]. exists s'. split; [done|].
  split; [done| |done|done]. cbn. by rewrite M, Hm, <- (Hx c Hcl), sub_mget by lia.
Qed.

Lemma holds_cluswrite s D V c off src n : holds s D V -> cluster fs c -> 0 <= off -> 0 < n -> off + n <= CLUSTER_SIZE fs -> log_free off n ->
  exists s' D', cluswrite 256 fs c off src n s = Ret (n, s') /\
    holds s' D' (clus_set c (splice (v_clus V c) off (mget (v_mem V) src (Z.to_nat n))) V).
Proof.
  intros HV Hcl Ho Hn Hfit Hlog. pose proof (g_size _ G). pose proof (g_spc _ G).
  destruct (cluswrite_ok 256 s D c off src n (h_cached _ _ _ HV) Hcl Ho Hn Hfit Hlog) as (s' & D' & R & Hc' & M & I); [lia|].
  exists s', D'. split; [done|]. rewrite (h_mem _ _ _ HV) in I.
  rewrite <- (map_u8_mget (v_mem V) src (Z.to_nat n)). apply (holds_put s s' D D' V c off); rewrite ?length_mget; done || lia.
Qed.

(** The first free cluster of a table among [n] from [c] on. *)
Fixpoint first_free (f : Z -> Z) (n : nat) (c : Z) : option Z :=
  match n with O => None | Datatypes.S n => if f c =? 0 then Some c else first_free f n (c + 1) end.
Definition zeros : list Z := replicate (Z.to_nat (CLUSTER_SIZE fs)) 0.
Definition v_alloc (prev : Z) (V : vol) : Z * vol :=
  match first_free (v_fat V) (Z.to_nat (cluster_cnt (sbinfo fs))) 2 with
  | None => (0, V)
  | Some c => (c, clus_set c zeros (fat_set c FAT32_EOF (if prev =? 0 then V else fat_set prev c V)))
  end.

Lemma first_free_some f n : forall c k, first_free f n c = Some k ->
  c <= k < c + Z.of_nat n /\ f k = 0 /\ forall j, c <= j < k -> f j <> 0.
Proof.
  induction n as [|n IH]; intros c k; cbn [first_free]; [done|]. destruct (Z.eqb_spec (f c) 0) as [Hz|Hz].
  - intros [= <-]. split; [lia|]. split; [done|]. lia.
  - intros (H1 & H2 & H3)%IH. split; [lia|]. split; [done|]. intros j Hj. destruct (decide (j = c)) as [->|]; [done|]. apply H3. lia.
Qed.

Lemma holds_clusalloc_loop V prev : prev = 0 \/ cluster fs prev -> forall n s D c, holds s D V ->
  2 <= c -> c + Z.of_nat n = cluster_cnt (sbinfo fs) + 2 ->
  exists s' D', match first_free (v_fat V) n c with
    | None => clusalloc_loop n fs prev c s = Ret (0, s') /\ holds s' D' V
    | Some k => clusalloc_loop n fs prev c s = Ret (k, s') /\
        holds s' D' (clus_set k zeros (fat_set k FAT32_EOF (if prev =? 0 then V else fat_set prev k V)))
    end.
Proof.
  intros Hp. induction n as [|n IH]; intros s D c HV Hc Hn; cbn [first_free clusalloc_loop]; [by exists s, D|].
  assert (Hcl : cluster fs c) by (unfold cluster; lia). destruct (cluster_small fs G c Hcl) as [_ Hsm].
  destruct (holds_fatread s D V c HV Hcl) as (s1 & R1 & V1). erewrite kbind_ret by exact R1.
  destruct (v_fat V c =? 0).
  - assert (exists s2 D2, kwhen (negb (prev =? 0)) (fatwrite fs prev c) s1 = Ret (tt, s2) /\
      holds s2 D2 (if prev =? 0 then V else fat_set prev c V)) as (s2 & D2 & R2 & V2).
    { destruct (Z.eqb_spec prev 0) as [->|Hne]; cbn [negb kwhen]; [by exists s1, D|].
      destruct Hp as [?|Hp]; [done|]. apply (holds_fatwrite s1 D V prev c V1 Hp). unfold cluster in Hcl. lia. }
    destruct (holds_fatwrite s2 D2 _ c FAT32_EOF V2 Hcl) as (s3 & D3 & R3 & V3); [done|].
    destruct (holds_cluszero s3 D3 _ c V3 Hcl) as (s4 & D4 & R4 & V4). exists s4, D4. split; [|done].
    erewrite kbind_ret by exact R2. erewrite kbind_ret by exact R3. by erewrite kbind_ret by exact R4.
  - rewrite u32_small by (unfold cluster in Hcl; lia). apply (IH s1 D (c + 1) V1); lia.
Qed.

Lemma holds_clusalloc s D V prev : holds s D V -> prev = 0 \/ cluster fs prev ->
  exists s' D', clusalloc fs prev s = Ret (fst (v_alloc prev V), s') /\ holds s' D' (snd (v_alloc prev V)).
Proof.
  intros HV Hp. unfold clusalloc, v_alloc. pose proof (g_max _ G). pose proof (g_cnt _ G). rewrite u32_small by lia.
  replace (cluster_cnt (sbinfo fs) + 2 - 2) with (cluster_cnt (sbinfo fs)) by lia.
  destruct (holds_clusalloc_loop V prev Hp (Z.to_nat (cluster_cnt (sbinfo fs))) s D 2 HV) as (s' & D' & HR); [lia..|].
  exists s', D'. by destruct (first_free _ _ _).
Qed.

(** *** Sequences of operations *)

Inductive fat_op : Type :=
  | FatRead (c : Z) | FatWrite (c v : Z) | ClusAlloc (prev : Z) | ClusFree (c prev : Z)
  | ClusRead (c off dst n : Z) | ClusWrite (c off src n : Z).

Definition in_cluster (c off n : Z) : Prop := cluster fs c /\ 0 <= off /\ 0 < n /\ off + n <= CLUSTER_SIZE fs.
Definition fat_op_ok (o : fat_op) : Prop :=
  match o with
  | FatRead c => cluster fs c
  | FatWrite c v => cluster fs c /\ 0 <= v < 2 ^ 32
  | ClusAlloc prev => prev = 0 \/ cluster fs prev
  | ClusFree c prev => cluster fs c /\ (prev = 0 \/ cluster fs prev)
  | ClusRead c off dst n => in_cluster c off n
  | ClusWrite c off src n => in_cluster c off n /\ log_free off n
  end.

Definition fat_exec (o : fat_op) : K S Z :=
  match o with
  | FatRead c => fatread fs c
  | FatWrite c v => fatwrite fs c v ;; kret 0
  | ClusAlloc prev => clusalloc fs prev
  | ClusFree c prev => clusfree fs c prev ;; kret 0
  | ClusRead c off dst n => clusread 256 fs c off dst n
  | ClusWrite c off src n => cluswrite 256 fs c off src n
  end.
Definition fat_step (o : fat_op) (V : vol) : Z * vol :=
  match o with
  | FatRead c => (v_fat V c, V)
  | FatWrite c v => (0, fat_set c v V)
  | ClusAlloc prev => v_alloc prev V
  | ClusFree c prev => (0, fat_set c 0 (if prev =? 0 then V else fat_set prev FAT32_EOF V))
  | ClusRead c off dst n => (n, mkVol (v_fat V) (v_clus V) (mput (v_mem V) dst (sub (v_clus V c) off n)))
  | ClusWrite c off src n => (n, clus_set c (splice (v_clus V c) off (mget (v_mem V) src (Z.to_nat n))) V)
  end.
Fixpoint fat_exec_all (os : list fat_op) : K S (list Z) :=
  match os with
  | [] => kret []
  | o :: os => x <- fat_exec o ;; xs <- fat_exec_all os ;; kret (x :: xs)
  end.
Fixpoint fat_run (os : list fat_op) (V : vol) : list Z * vol :=
  match os with
  | [] => ([], V)
  | o :: os => let '(x, V) := fat_step o V in let '(xs, V) := fat_run os V in (x :: xs, V)
  end.

Lemma fat_exec_ok o s D V : holds s D V -> fat_op_ok o ->
  exists s' D', fat_exec o s = Ret (fst (fat_step o V), s') /\ holds s' D' (snd (fat_step o V)).
Proof.
  intros HV. destruct o as [c|c v|prev|c prev|c off dst n|c off src n]; cbn [fat_op_ok fat_exec fat_step fst snd].
  - intros Hcl. destruct (holds_fatread s D V c HV Hcl) as (s' & R & HV'). by exists s', D.
  - intros [Hcl Hv]. destruct (holds_fatwrite s D V c v HV Hcl Hv) as (s' & D' & R & HV'). exists s', D'. by erewrite kbind_ret by exact R.
  - by apply (holds_clusalloc s D).
  - intros [Hcl Hp]. unfold clusfree.
    assert (exists s1 D1, kwhen (negb (prev =? 0)) (fatwrite fs prev FAT32_EOF) s = Ret (tt, s1) /\
      holds s1 D1 (if prev =? 0 then V else fat_set prev FAT32_EOF V)) as (s1 & D1 & R1 & V1).
    { destruct (Z.eqb_spec prev 0) as [->|Hne]; cbn [negb kwhen]; [by exists s, D|].
      destruct Hp as [?|Hp]; [done|]. by apply (holds_fatwrite s D). }
    destruct (holds_fatwrite s1 D1 _ c 0 V1 Hcl) as (s2 & D2 & R2 & V2); [done|]. exists s2, D2. split; [|done].
    rewrite kbind_assoc. erewrite kbind_ret by exact R1. by erewrite kbind_ret by exact R2.
  - intros (Hcl & Ho & Hn & Hfit). destruct (holds_clusread s D V c off dst n HV Hcl Ho Hn Hfit) as (s' & R & HV'). by exists s', D.
  - intros ((Hcl & Ho & Hn & Hfit) & Hlog). by apply (holds_cluswrite s D).
Qed.

Lemma fat_exec_all_ok os : Forall fat_op_ok os -> forall s D V, holds s D V ->
  exists s' D', fat_exec_all os s = Ret (fst (fat_run os V), s') /\ holds s' D' (snd (fat_run os V)).
Proof.
  induction 1 as [|o os Ho _ IH]; intros s D V HV; cbn [fat_exec_all fat_run]; [by exists s, D|].
  destruct (fat_exec_ok o s D V HV Ho) as (s1 & D1 & R1 & V1). destruct (fat_step o V) as [x V'] eqn:Es. cbn [fst snd] in *.
  destruct (IH s1 D1 V' V1) as (s2 & D2 & R2 & V2). destruct (fat_run os V') as [xs V''] eqn:Er. cbn [fst snd] in *.
  exists s2, D2. split; [|done]. erewrite kbind_ret by exact R1. by erewrite kbind_ret by exact R2.
Qed.
End Ops.

(** C3. On a volume whose table and clusters lie where the record says, any
    sequence of [fatread], [fatwrite], [clusalloc], [clusfree], [clusread] and
    [cluswrite] acts as on a table of 32-bit entries and an array of clusters:
    a write is what a later read of the same entry or bytes returns, no other
    entry and no other byte of a cluster changes, and [clusalloc] returns the
    first cluster from 2 on whose entry is 0, cleared, marked as the end of its
    chain and linked from [prev] unless that is 0; without one it returns 0 and
    changes nothing. The bytes moved are those of the caller's memory. Nothing
    is logged, but for a [cluswrite] that fills its cluster to the end, which
    fails the function's own [ASSERT_INFO]: it writes the bytes all the same,
    once the logger has come back ([log_free]). *)
Theorem fat_volume_operations {S : Type} `{CacheLaws S} (fs : filesystem) (os : list fat_op) (s : S) D V :
  geometry fs -> deviceNum fs = cache_dev -> Forall (fat_op_ok fs) os -> holds fs s D V ->
  exists s' D', fat_exec_all fs os s = Ret (fst (fat_run fs os V), s') /\ holds fs s' D' (snd (fat_run fs os V)).
Proof. intros G Hdev Hos HV. by apply fat_exec_all_ok with (D := D). Qed.

(** ** A small volume: ten clusters of one sector, in the cache of Buf.v *)

Definition demo_fs : filesystem :=
  mkFs true [] (mkSb 512 1 32 2 1) (mkSbi 34 10 10 512) 0 0 0 0.
Lemma demo_geometry : geometry demo_fs.
Proof. split; cbn; lia || done. Qed.

(** The last write fills its cluster to the end. *)
Definition fat_demo_ops : list fat_op :=
  [ClusAlloc 0; ClusAlloc 2; FatRead 2; FatRead 3; ClusWrite 3 100 800 20; ClusRead 3 90 4000 30; ClusFree 3 2; ClusAlloc 2; FatRead 4;
   ClusWrite 3 492 800 20].

#[local] Instance fat_cache : Cache (kst sectors) := kst_cache 100 500 4 4 demo_swtch_kst 31 3 demo_base demo_list.
#[local] Instance fat_laws : CacheLaws (kst sectors) :=
  kst_cache_laws 100 500 4 4 demo_swtch_kst 31 3 demo_base demo_list 1000 [1000; 2000; 3000] (demo_sleeper RUNNING 1 0)
    ltac:(simpl; lia) ltac:(unfold NBUF; lia) ltac:(cbn; lia) 0.
Lemma fat_log : log_returns (kst sectors).
Proof. intros msg s D X Hc. by exists s. Qed.

Lemma fat_volume_operations_witness :
  geometry demo_fs /\ Forall (fat_op_ok demo_fs) fat_demo_ops /\
  exists s s', binit 30000 demo_list demo_raw = Ret (tt, s) /\
    fat_exec_all demo_fs fat_demo_ops s = Ret ([2; 3; 3; FAT32_EOF; 20; 30; 0; 3; 0; 20], s').
Proof.
  assert (Hops : Forall (fat_op_ok demo_fs) fat_demo_ops).
  { unfold fat_demo_ops. repeat (apply Forall_cons; split); [..|apply Forall_nil];
      cbn [fat_op_ok]; unfold in_cluster, log_free, cluster; cbn; first [lia | split; [lia|by right; apply fat_log]]. }
  split; [apply demo_geometry|]. split; [exact Hops|].
  destruct (binit_ok 100 500 4 30000 demo_list 1000 [1000; 2000; 3000] (demo_sleeper RUNNING 1 0) 0 demo_raw demo_raw_unset) as (s1 & H1 & Hinv).
  set (D := media (bk_dev (k_blk demo_raw))) in Hinv.
  set (V := mkVol (fun c => ld32 (image D) (fat_addr demo_fs c)) (fun c => mget (image D) (clus_addr demo_fs c) 512)
    (@lget _ _ (@cache_mem _ fat_cache) s1)).
  destruct (fat_volume_operations demo_fs fat_demo_ops s1 D V) as (s2 & D2 & H2 & _).
  - apply demo_geometry.
  - done.
  - exact Hops.
  - by split.
  - exists s1, s2. split; [exact H1|]. rewrite H2. f_equal.
Defined.
