(* ===== verification/Fs.v ===== *)
(** Directories and files of the FAT32 volume: src/kernel/fs/fs.c,
    src/kernel/fs/dirent.c, [fat32_init] of src/kernel/fs/fat32.c, and the
    structures of src/include/fs/fatfs.h.

    The state is that of the layers below (any [S] with a cache and a page
    allocator) beside the file system's own tables. [struct dirent] objects are
    records keyed by their address, their list element and list of children in
    a store of links. Local arrays and string literals are at addresses given
    by [frame]; what the code writes in them goes to memory. *)
From S2P Require Import Prelude CString Bytes Spinlock DList Ids Proc Schedule Sleep Virt Buf Fat32.

(** ** Data *)

Definition MAXLEN : Z := 64.
Definition MAX_FILE_NAME_LEN : Z := 32.
Definition MAX_FS_NUM : Z := 10.
Definition DIRECTORY_SIZE : Z := 32.
Definition SHORT_NAME_LEN : Z := 11.
Definition ATTR_READ_ONLY : Z := 0x01.
Definition ATTR_HIDDEN : Z := 0x02.
Definition ATTR_SYSTEM : Z := 0x04.
Definition ATTR_VOLUME_ID : Z := 0x08.
Definition ATTR_DIRECTORY : Z := 0x10.
Definition SLASH : Z := 47.
Definition E_NOT_FOUND : Z := 2.
Definition E_EXCEED_FILE : Z := 3.

Inductive dir_type : Type := DIR_DIR | DIR_FILE | DIR_LINK.

(** [struct dirent] without its list element and its list of children. *)
Record dirent : Type := mkDirent {
  d_name : list Z; d_size : Z; first_cluster : Z; d_offset : Z; d_type : dir_type; d_fs : addr; linkcnt : Z;
  d_parent : addr; d_mode : Z; d_flag : Z }.
Definition zero_dirent : dirent := mkDirent (replicate 64 0) 0 0 0 DIR_DIR 0 0 0 0 0.
Definition delem (d : addr) : addr := d + 144.
Definition child_of (d : addr) : addr := d + 112.
Definition dirent_of_elem (e : addr) : addr := e - 144.
Definition SIZEOF_DIRENT : Z := 168.

Definition set_d_name (x : list Z) (d : dirent) : dirent :=
  mkDirent x (d_size d) (first_cluster d) (d_offset d) (d_type d) (d_fs d) (linkcnt d) (d_parent d) (d_mode d) (d_flag d).
Definition set_d_size (x : Z) (d : dirent) : dirent :=
  mkDirent (d_name d) x (first_cluster d) (d_offset d) (d_type d) (d_fs d) (linkcnt d) (d_parent d) (d_mode d) (d_flag d).
Definition set_first_cluster (x : Z) (d : dirent) : dirent :=
  mkDirent (d_name d) (d_size d) x (d_offset d) (d_type d) (d_fs d) (linkcnt d) (d_parent d) (d_mode d) (d_flag d).
Definition set_d_offset (x : Z) (d : dirent) : dirent :=
  mkDirent (d_name d) (d_size d) (first_cluster d) x (d_type d) (d_fs d) (linkcnt d) (d_parent d) (d_mode d) (d_flag d).
Definition set_d_type (x : dir_type) (d : dirent) : dirent :=
  mkDirent (d_name d) (d_size d) (first_cluster d) (d_offset d) x (d_fs d) (linkcnt d) (d_parent d) (d_mode d) (d_flag d).
Definition set_d_fs (x : addr) (d : dirent) : dirent :=
  mkDirent (d_name d) (d_size d) (first_cluster d) (d_offset d) (d_type d) x (linkcnt d) (d_parent d) (d_mode d) (d_flag d).
Definition set_linkcnt (x : Z) (d : dirent) : dirent :=
  mkDirent (d_name d) (d_size d) (first_cluster d) (d_offset d) (d_type d) (d_fs d) x (d_parent d) (d_mode d) (d_flag d).
Definition set_d_parent (x : addr) (d : dirent) : dirent :=
  mkDirent (d_name d) (d_size d) (first_cluster d) (d_offset d) (d_type d) (d_fs d) (linkcnt d) x (d_mode d) (d_flag d).
Definition set_d_mode (x : Z) (d : dirent) : dirent :=
  mkDirent (d_name d) (d_size d) (first_cluster d) (d_offset d) (d_type d) (d_fs d) (linkcnt d) (d_parent d) x (d_flag d).
Definition set_d_flag (x : Z) (d : dirent) : dirent :=
  mkDirent (d_name d) (d_size d) (first_cluster d) (d_offset d) (d_type d) (d_fs d) (linkcnt d) (d_parent d) (d_mode d) x.

(** [struct file] of src/include/fs/vfs.h without its list element. *)
Inductive file_type : Type := FD_NONE | FD_FILE | FD_DEVICE.
Record file : Type := mkFile { f_fd : Z; f_dirent : addr; f_pos : Z; deny_write : bool; f_flag : Z; f_type : file_type }.

(** The tables: [fs], the directory entries, the links inside them, [fat_fs],
    [fd_bitmap] and the open files. *)
Record fsst : Type := mkFst {
  ft_tab : gmap addr filesystem; ft_dirs : gmap addr dirent; ft_links : store; fat_fs : addr; fd_bitmap : list Z;
  ft_files : gmap addr file }.
Definition put_tab (x : gmap addr filesystem) (s : fsst) : fsst :=
  mkFst x (ft_dirs s) (ft_links s) (fat_fs s) (fd_bitmap s) (ft_files s).
Definition put_dirs (x : gmap addr dirent) (s : fsst) : fsst :=
  mkFst (ft_tab s) x (ft_links s) (fat_fs s) (fd_bitmap s) (ft_files s).
Definition put_flinks (x : store) (s : fsst) : fsst :=
  mkFst (ft_tab s) (ft_dirs s) x (fat_fs s) (fd_bitmap s) (ft_files s).
Definition put_fat_fs (x : addr) (s : fsst) : fsst :=
  mkFst (ft_tab s) (ft_dirs s) (ft_links s) x (fd_bitmap s) (ft_files s).
Definition put_fds (x : list Z) (s : fsst) : fsst :=
  mkFst (ft_tab s) (ft_dirs s) (ft_links s) (fat_fs s) x (ft_files s).
Definition put_files (x : gmap addr file) (s : fsst) : fsst :=
  mkFst (ft_tab s) (ft_dirs s) (ft_links s) (fat_fs s) (fd_bitmap s) x.

(** Where the tables, the local arrays and the string literals are. *)
Record frame : Type := mkFrame {
  fs_base : addr; dirent_poll : addr; dirent_list : addr;
  fr_token : addr; fr_name : addr; fr_tname : addr; fr_cpath : addr; fr_last : addr;
  lit_dot : addr; lit_dotdot : addr }.

(** The page allocator, as far as it is used here. *)
Class Pages (S : Type) : Type := { pg_alloc : K S addr; pg_free : addr -> K S unit }.

Section Fs.
Context {S : Type} `{Cache S} `{Pages S}.
Context (fr : frame).
#[local] Abbreviation F := (K (S * fsst)).

Definition base {A} (m : K S A) : F A := zoom fst (fun x s => (x, snd s)) m.
Definition tabs {A} (m : K fsst A) : F A := zoom snd (fun x s => (fst s, x)) m.
(** The memory, and an update of it that returns something. *)
Definition the_mem {A} (f : mem -> A) : F A := base (kget (fun s => f (lget s))).
Definition mem_do {A} (f : mem -> mem * A) : F A := base (fun s => let '(m, a) := f (lget s) in Ret (a, lput m s)).
Definition mem_set (f : mem -> mem) : F unit := mem_do (fun m => (f m, tt)).
Definition res_k {A} (f : mem -> res A) : F A := fun s => match f (lget (fst s)) with
  | Ret a => Ret (a, s) | Panic e => Panic e | Fault => Fault | Spin => Spin | NoFuel => NoFuel end.

Definition mem_res {A} (f : mem -> res (mem * A)) : F A := fun s => match f (lget (fst s)) with
  | Ret (m, a) => Ret (a, (lput m (fst s), snd s)) | Panic e => Panic e | Fault => Fault | Spin => Spin | NoFuel => NoFuel end.

(** [fs->f], [d->f] and assignments to them. *)
Definition getfs (a : addr) : F filesystem := tabs (fun s => match ft_tab s !! a with Some x => Ret (x, s) | None => Fault end).
Definition setfs (f : filesystem -> filesystem) (a : addr) : F unit := tabs (fun s =>
  match ft_tab s !! a with Some x => Ret (tt, put_tab (<[a := f x]> (ft_tab s)) s) | None => Fault end).
Definition getd {A} (f : dirent -> A) (a : addr) : F A := tabs (fun s =>
  match ft_dirs s !! a with Some x => Ret (f x, s) | None => Fault end).
Definition setd (f : dirent -> dirent) (a : addr) : F unit := tabs (fun s =>
  match ft_dirs s !! a with Some x => Ret (tt, put_dirs (<[a := f x]> (ft_dirs s)) s) | None => Fault end).
Definition flinks {A} (m : K store A) : F A := tabs (zoom ft_links put_flinks m).

(** *** The pool of directory entries: dirent.c *)

Fixpoint dirent_init_loop (n : nat) (d : addr) : F unit :=
  match n with
  | O => kret tt
  | Datatypes.S n => flinks (list_push_back (dirent_list fr) (delem d)) ;; dirent_init_loop n (d + SIZEOF_DIRENT)
  end.
Definition dirent_init : F unit :=
  flinks (list_init (dirent_list fr)) ;; dirent_init_loop (Z.to_nat MAX_DIRENT) (dirent_poll fr).

(** The two lists inside a [struct dirent], as [memset] and [memcpy] see them. *)
Definition write_links (d : addr) (e h t : elem) : K store unit := fun s =>
  match s !! delem d, s !! head_of (child_of d), s !! tail_of (child_of d) with
  | Some _, Some _, Some _ =>
      Ret (tt, <[delem d := e]> (<[head_of (child_of d) := h]> (<[tail_of (child_of d) := t]> s)))
  | _, _, _ => Fault
  end.
Definition read_links (d : addr) : K store (elem * elem * elem) := fun s =>
  match s !! delem d, s !! head_of (child_of d), s !! tail_of (child_of d) with
  | Some e, Some h, Some t => Ret ((e, h, t), s)
  | _, _, _ => Fault
  end.
Definition dirent_zero (d : addr) : F unit :=
  setd (fun _ => zero_dirent) d ;; flinks (write_links d (Elem 0 0) (Elem 0 0) (Elem 0 0)).
(** [memcpy(dst, src, sizeof(struct dirent))]. *)
Definition dirent_copy (dst src : addr) : F unit :=
  x <- getd (fun x => x) src ;;
  l <- flinks (read_links src) ;;
  setd (fun _ => x) dst ;;
  flinks (write_links dst (fst (fst l)) (snd (fst l)) (snd l)).

Definition dirent_alloc : F addr :=
  e <- flinks (list_empty (dirent_list fr)) ;;
  if (e : bool) then kret 0 else
  x <- flinks (list_pop_front (dirent_list fr)) ;;
  let dir := dirent_of_elem x in
  dirent_zero dir ;;
  kret dir.
Definition dirent_free (dir : addr) : F unit := flinks (list_push_back (dirent_list fr) (delem dir)).

(** *** The table of file systems *)

Definition SIZEOF_FILESYSTEM : Z := 72.
Definition zero_fs : filesystem := mkFs false (replicate 7 0) (mkSb 0 0 0 0 0) (mkSbi 0 0 0 0) 0 0 0 0.
Definition put_valid (v : bool) (x : filesystem) : filesystem :=
  mkFs v (fs_name x) (sb x) (sbinfo x) (root x) (image_of x) (mountPoint x) (deviceNum x).
Definition put_fs_name (v : list Z) (x : filesystem) : filesystem :=
  mkFs (fs_valid x) v (sb x) (sbinfo x) (root x) (image_of x) (mountPoint x) (deviceNum x).
Definition put_root (v : addr) (x : filesystem) : filesystem :=
  mkFs (fs_valid x) (fs_name x) (sb x) (sbinfo x) v (image_of x) (mountPoint x) (deviceNum x).
Definition put_image (v : addr) (x : filesystem) : filesystem :=
  mkFs (fs_valid x) (fs_name x) (sb x) (sbinfo x) (root x) v (mountPoint x) (deviceNum x).
Definition put_device (v : Z) (x : filesystem) : filesystem :=
  mkFs (fs_valid x) (fs_name x) (sb x) (sbinfo x) (root x) (image_of x) (mountPoint x) v.

Fixpoint init_fs_loop (n : nat) (a : addr) : F unit :=
  match n with O => kret tt | Datatypes.S n => setfs (put_valid false) a ;; init_fs_loop n (a + SIZEOF_FILESYSTEM) end.
Definition init_fs : F unit := init_fs_loop (Z.to_nat MAX_FS_NUM) (fs_base fr).
Fixpoint alloc_fs_loop (n : nat) (a : addr) : F addr :=
  match n with
  | O => kpanic "no more fs to alloc"
  | Datatypes.S n =>
      x <- getfs a ;;
      if negb (fs_valid x) then setfs (fun _ => zero_fs) a ;; setfs (put_valid true) a ;; kret a
      else alloc_fs_loop n (a + SIZEOF_FILESYSTEM)
  end.
Definition alloc_fs : F addr := alloc_fs_loop (Z.to_nat MAX_FS_NUM) (fs_base fr).
Definition get_root_fs : F addr := tabs (kget fat_fs).

(** [fat32_init]: the names are "FAT32" and "/". *)
Definition fat32_init (fuel : nat) (a : addr) : F unit :=
  setfs (fun x => put_fs_name (splice (fs_name x) 0 [70; 65; 84; 51; 50; 0]) x) a ;;
  x <- getfs a ;;
  r <- base (clusinit x) ;;
  setfs (fun _ => snd r) a ;;
  base (ASSERT_INFO (fst r =? 0) "clusinit fault") ;;
  d <- dirent_alloc ;;
  setfs (put_root d) a ;;
  setd (set_first_cluster (cluster_root_directory (sb (snd r)))) d ;;
  setd (fun e => set_d_name (splice (d_name e) 0 [47; 0]) e) d ;;
  setd (set_d_fs a) d ;;
  setd (fun e => set_d_mode (Z.lor (d_mode e) ATTR_DIRECTORY) e) d ;;
  setd (set_d_parent 0) d ;;
  setd (set_linkcnt 1) d ;;
  setd (set_d_offset 0) d ;;
  c <- getd first_cluster d ;;
  n <- base (count_clusters fuel (snd r) c) ;;
  setd (set_d_size (u32 (n * CLUSTER_SIZE (snd r)))) d ;;
  flinks (list_init (child_of d)).

(** *** Directory clusters *)

Fixpoint read_cluster_loop (n fuel : nat) (x : filesystem) (clusNo buf size offset : Z) : F unit :=
  match n with
  | O => knofuel
  | Datatypes.S n =>
      if offset <? size then
        base (clusread fuel x (u32 clusNo) offset (buf + offset) BSIZE) ;;
        read_cluster_loop n fuel x clusNo buf size (u32 (offset + BSIZE))
      else kret tt
  end.
Definition read_multiple_cluster (fuel : nat) (x : filesystem) (clusNo buf size : Z) : F unit :=
  read_cluster_loop fuel fuel x clusNo buf size 0.

(** Fields of the [struct FAT32Directory] at [e]. *)
Definition file_attribute (m : mem) (e : addr) : Z := ld8 m (e + 11).
Definition dir_FstClusHI (m : mem) (e : addr) : Z := ld16 m (e + 20).
Definition dir_FstClusLO (m : mem) (e : addr) : Z := ld16 m (e + 26).
Definition dir_FileSize (m : mem) (e : addr) : Z := ld32 m (e + 28).
Definition cal_cluster_pos (hi lo : Z) : Z := u32 (u32 (hi * 2 ^ 16) + lo).
Definition is_long_file_name (m : mem) (e : addr) : bool :=
  let mask := Z.lor (Z.lor (Z.lor ATTR_READ_ONLY ATTR_HIDDEN) ATTR_SYSTEM) ATTR_VOLUME_ID in
  Z.land (file_attribute m e) mask =? mask.

Definition is_invalid_entry (m : mem) (e : addr) : Z :=
  if (ld8 m e =? FATDIR_DLT) || (strncmp m e (lit_dot fr) SHORT_NAME_LEN =? 0) || (strncmp m e (lit_dotdot fr) SHORT_NAME_LEN =? 0)
  then 0
  else if ld8 m e =? 0 then -1 else 1.

Definition FATLDIR_SEQ (x : Z) : Z := Z.land x 0x3f.

(** Returns the memory, the sequence number and the new value of [*aidx]. *)
Definition handle_long_file_name (m : mem) (buf offset : Z) (longEntSeq : bool) (rawName idx : Z) : mem * (Z * Z) :=
  let longEnt := buf + offset in
  let seq := FATLDIR_SEQ (ld8 m longEnt) in
  let m := if longEntSeq then st8 m (rawName + (idx + 13)) 0 else m in
  let m := fst (wstr2str m (rawName + idx) (longEnt + 1) 10) in
  let m := fst (wstr2str m (rawName + 5 + idx) (longEnt + 14) 12) in
  let m := fst (wstr2str m (rawName + 11 + idx) (longEnt + 28) 4) in
  (m, (seq, s32 (idx + 13))).

Definition fill_file_name (m : mem) (name e : addr) : mem :=
  if is_long_file_name m e then fst (fill_fat32_long_name m name e) else fst (read_fat32_short_name m name e).

(** Copies [strlen(name)] bytes into the name of an entry: past its end is a
    [Fault]. *)
Definition name_into (d name n : Z) : F unit :=
  if MAXLEN <? n then kfault else
  l <- the_mem (fun m => mget m name (Z.to_nat n)) ;;
  setd (fun x => set_d_name (splice (d_name x) 0 l) x) d.

Definition match_dirent_entry (fuel : nat) (name parent e offset newDir tname : Z) : F bool :=
  c <- the_mem (fun m => ld8 m tname) ;;
  (if negb (c =? 0) then
     n <- res_k (fun m => strlen fuel m tname) ;;
     mem_set (fun m => fst (strncpy m (fr_name fr) tname n))
   else mem_set (fun m => fill_file_name m (fr_name fr) e)) ;;
  n <- res_k (fun m => strlen fuel m name) ;;
  d <- the_mem (fun m => strncmp m (fr_name fr) name n) ;;
  if negb (d =? 0) then kret false else
  pf <- getd d_fs parent ;;
  setd (set_d_fs pf) newDir ;;
  clus <- the_mem (fun m => cal_cluster_pos (dir_FstClusHI m e) (dir_FstClusLO m e)) ;;
  setd (set_first_cluster clus) newDir ;;
  size <- the_mem (fun m => dir_FileSize m e) ;;
  setd (set_d_size size) newDir ;;
  mode <- the_mem (fun m => file_attribute m e) ;;
  setd (set_d_mode mode) newDir ;;
  setd (set_d_parent parent) newDir ;;
  setd (set_linkcnt 1) newDir ;;
  np <- getd d_parent newDir ;;
  setd (set_d_offset offset) np ;;
  let is_dir := negb (Z.land mode ATTR_DIRECTORY =? 0) in
  setd (set_d_type (if is_dir then DIR_DIR else DIR_FILE)) newDir ;;
  kwhen is_dir (flinks (list_init (child_of newDir))) ;;
  n <- res_k (fun m => strlen fuel m name) ;;
  name_into newDir name n ;;
  kret true.

Fixpoint parse_loop (n fuel : nat) (name parent buf clusSize lastDir i : Z) (longEntSeq : bool) (idx : Z) : F Z :=
  match n with
  | O => knofuel
  | Datatypes.S n =>
      if i <? clusSize then
        let entry := buf + i in
        let clear := mem_set (fun m => memset m (fr_tname fr) 0 MAX_FILE_NAME_LEN) in
        ret <- the_mem (fun m => is_invalid_entry m entry) ;;
        if ret =? 0 then
          clear ;; parse_loop n fuel name parent buf clusSize lastDir (u32 (i + DIRECTORY_SIZE)) false 0
        else if ret =? -1 then kret (-1) else
        long <- the_mem (fun m => is_long_file_name m entry) ;;
        if (long : bool) then
          r <- mem_do (fun m => handle_long_file_name m buf i longEntSeq (fr_tname fr) idx) ;;
          parse_loop n fuel name parent buf clusSize lastDir (u32 (i + DIRECTORY_SIZE)) (negb (fst r =? 0)) (snd r)
        else
        found <- match_dirent_entry fuel name parent entry i lastDir (fr_tname fr) ;;
        if (found : bool) then kret 0 else
        clear ;;
        parse_loop n fuel name parent buf clusSize lastDir (u32 (i + DIRECTORY_SIZE)) longEntSeq 0
      else kret (- E_NOT_FOUND)
  end.
Definition parse_directory_entries (fuel : nat) (name parent buf clusSize lastDir : Z) : F Z :=
  mem_set (fun m => memset m (fr_tname fr) 0 MAX_FILE_NAME_LEN) ;;
  parse_loop fuel fuel name parent buf clusSize lastDir 0 false 0.

Fixpoint search_loop (n fuel : nat) (a dir name entry buf clusSize clusNo : Z) : F unit :=
  match n with
  | O => knofuel
  | Datatypes.S n =>
      x <- getfs a ;;
      read_multiple_cluster fuel x clusNo buf clusSize ;;
      result <- parse_directory_entries fuel name dir buf clusSize entry ;;
      if (result =? -1) || (result =? 0) then kret tt else
      c <- base (fatread x (u32 clusNo)) ;;
      if FAT32_isEOF c then kret tt else search_loop n fuel a dir name entry buf clusSize c
  end.
Definition find_dirent_entry (fuel : nat) (dir name entry : Z) : F unit :=
  clusNo <- getd first_cluster dir ;;
  a <- getd d_fs dir ;;
  x <- getfs a ;;
  buf <- base pg_alloc ;;
  if buf =? 0 then kfault else
  search_loop fuel fuel a dir name entry buf (CLUSTER_SIZE x) clusNo ;;
  base (pg_free buf).

(** *** Paths *)

Fixpoint skip_slash (fuel : nat) (m : mem) (path : Z) : res Z :=
  match fuel with
  | O => NoFuel
  | Datatypes.S fuel => if ld8 m path =? SLASH then skip_slash fuel m (path + 1) else Ret path
  end.
(** [while ( *tmp != '/' && *tmp != '\0') ++tmp;] *)
Fixpoint scan_part (fuel : nat) (m : mem) (tmp : Z) : res Z :=
  match fuel with
  | O => NoFuel
  | Datatypes.S fuel =>
      if negb (ld8 m tmp =? SLASH) && negb (ld8 m tmp =? 0) then scan_part fuel m (tmp + 1) else Ret tmp
  end.
Definition token_at (token i : Z) : Z := token + MAX_FILE_NAME_LEN * i.

Fixpoint parse_path_loop (n fuel : nat) (m : mem) (token p i : Z) : res (mem * Z) :=
  match n with
  | O => Ret (m, i)
  | Datatypes.S n =>
      res_bind (strlen fuel m p) (fun l =>
      if l =? 0 then Ret (m, i) else
      res_bind (scan_part fuel m p) (fun tmp =>
      let len := tmp - p in
      let len := if MAX_FILE_NAME_LEN <=? len then MAX_FILE_NAME_LEN - 1 else len in
      let m := fst (strncpy m (token_at token i) p len) in
      let m := st8 m (token_at token i + len) 0 in
      res_bind (skip_slash fuel m tmp) (fun p =>
      parse_path_loop n fuel m token p (i + 1))))
  end.
Definition parse_path (fuel : nat) (m : mem) (path token : Z) : res (mem * Z) :=
  if path =? NULL then Ret (m, -1) else
  res_bind (skip_slash fuel m path) (fun p =>
  parse_path_loop (Z.to_nat MAX_FILE_NAME_LEN) fuel m token p 0).

(** [strncpy(lastElem, token, strlen(token))] unless [lastElem] is [NULL]. *)
Definition copy_last (fuel : nat) (lastElem token : Z) : F unit :=
  if lastElem =? NULL then kret tt else
  n <- res_k (fun m => strlen fuel m token) ;;
  mem_set (fun m => fst (strncpy m lastElem token n)).

(** [n] components are left. *)
Fixpoint walkDir_loop (n fuel : nat) (i token_size cfile cdir file lastElem : Z) : F Z :=
  match n with
  | O => dirent_free cfile ;; kret (- E_NOT_FOUND)
  | Datatypes.S n =>
      let token := token_at (fr_token fr) i in
      find_dirent_entry fuel cdir token cfile ;;
      t <- getd d_type cfile ;;
      match t with
      | DIR_DIR => walkDir_loop n fuel (i + 1) token_size cfile cfile file lastElem
      | DIR_FILE =>
          copy_last fuel lastElem token ;;
          if i =? token_size - 1 then
            dirent_copy file cfile ;; dirent_free cfile ;; kret 0
          else
            dirent_free cfile ;; kret (- E_NOT_FOUND)
      | DIR_LINK => walkDir_loop n fuel (i + 1) token_size cfile cdir file lastElem
      end
  end.
(** [file] is the value of [*file]; [dir] and [longSet] are not used. *)
Definition walkDir (fuel : nat) (a path base_dir file lastElem : Z) : F Z :=
  token_size <- mem_res (fun m => parse_path fuel m path (fr_token fr)) ;;
  cfile <- dirent_alloc ;;
  x <- getfs a ;;
  let cdir := if base_dir =? NULL then root x else base_dir in
  walkDir_loop (Z.to_nat token_size) fuel 0 token_size cfile cdir file lastElem.

(** The file system a path starts in. *)
Definition start_fs (base_dir : addr) : F addr := if base_dir =? NULL then get_root_fs else getd d_fs base_dir.

(** [f] is a local pointer the code never sets: [wild] is its value. *)
Definition createItemAt (fuel : nat) (base_dir path wild : addr) : F bool :=
  a <- start_fs base_dir ;;
  n <- res_k (fun m => strlen fuel m path) ;;
  mem_set (fun m => fst (strncpy m (fr_cpath fr) path n)) ;;
  r <- walkDir fuel a (fr_cpath fr) base_dir wild (fr_last fr) ;;
  if r =? 0 then kret false else kpanic "createItemAt todo".

Definition get_file (fuel : nat) (base_dir path : addr) : F addr :=
  d <- dirent_alloc ;;
  a <- start_fs base_dir ;;
  r <- walkDir fuel a path base_dir d NULL ;;
  if r <? 0 then kret NULL else kret d.

(** *** Contents of files *)

(** [index - i] steps are left. *)
Fixpoint clusNo_loop (n : nat) (x : filesystem) (clus : Z) : K S Z :=
  match n with
  | O => kret clus
  | Datatypes.S n =>
      c <- fatread x clus ;; if FAT32_isEOF c then kret c else clusNo_loop n x c
  end.
Definition file_get_clusNo (file : addr) (index : Z) : F Z :=
  clus <- getd first_cluster file ;;
  a <- getd d_fs file ;;
  x <- getfs a ;;
  base (clusNo_loop (Z.to_nat index) x clus).

(** [n - i] clusters are left. *)
Fixpoint fileread_loop (k fuel : nat) (x : filesystem) (clus dst len n : Z) : K S Z :=
  match k with
  | O => kret len
  | Datatypes.S k =>
      let l := Z.min (u32 (n - len)) (CLUSTER_SIZE x) in
      clusread fuel x clus 0 (dst + len) l ;;
      c <- fatread x clus ;;
      fileread_loop k fuel x c dst (u32 (len + l)) n
  end.
Definition fileread (fuel : nat) (file dst off n : Z) : F Z :=
  size <- getd d_size file ;;
  if size <? off then kret (- E_EXCEED_FILE) else
  let n := if size <? u32 (off + n) then u32 (size - off) else n in
  if n =? 0 then kret 0 else
  let start := off in
  let last := u32 (u32 (off + n) - 1) in
  a <- getd d_fs file ;;
  x <- getfs a ;;
  let clus_size := CLUSTER_SIZE x in
  if clus_size =? 0 then kfault else
  let offset := off mod clus_size in
  clus <- file_get_clusNo file (u32 (start / clus_size)) ;;
  if FAT32_isEOF clus then kret (-1) else
  let l := Z.min n (u32 (clus_size - offset)) in
  base (clusread fuel x clus offset dst l) ;;
  clus <- base (fatread x clus) ;;
  let clus_num := u32 (u64 (last - start) / clus_size) in
  r <- base (fileread_loop (Z.to_nat clus_num) fuel x clus dst l n) ;;
  kret (s32 r).

(** The last cluster of a chain that starts at [clus]. *)
Fixpoint last_clus_loop (fuel : nat) (x : filesystem) (clus last_clus : Z) : K S Z :=
  match fuel with
  | O => knofuel
  | Datatypes.S fuel =>
      if FAT32_isEOF clus then kret last_clus else
      c <- fatread x clus ;; last_clus_loop fuel x c clus
  end.
Fixpoint extend_loop (n : nat) (x : filesystem) (last_clus : Z) : K S unit :=
  match n with O => kret tt | Datatypes.S n => c <- clusalloc x last_clus ;; extend_loop n x c end.
Definition fileExtend (fuel : nat) (file new_size : Z) : F unit :=
  size <- getd d_size file ;;
  if new_size <? size then kret tt else
  a <- getd d_fs file ;;
  x <- getfs a ;;
  let clus_size := CLUSTER_SIZE x in
  if clus_size =? 0 then kfault else
  let more := u64 (new_size - size) in
  let extend_clus := u32 (more / clus_size + (if more mod clus_size =? 0 then 0 else 1)) in
  setd (set_d_size new_size) file ;;
  clus <- getd first_cluster file ;;
  last_clus <- base (last_clus_loop fuel x clus 0) ;;
  base (extend_loop (Z.to_nat extend_clus) x last_clus).

(** [ROUNDUP(a, x)] with a 64-bit [a] and a 32-bit [x]. *)
Definition ROUNDUP64 (a x : Z) : Z := Z.land (u64 (a + x - 1)) (u32 (Z.lnot (x - 1))).

(** The loop writes the same source bytes at the same offset of each cluster. *)
Fixpoint filewrite_loop (k fuel : nat) (x : filesystem) (clus_size clus offset src len n : Z) : K S Z :=
  match k with
  | O => kret len
  | Datatypes.S k =>
      let l := Z.min (u32 (n - len)) clus_size in
      cluswrite fuel x clus offset src l ;;
      c <- fatread x clus ;;
      filewrite_loop k fuel x clus_size c offset src (u32 (len + l)) n
  end.
(** [CLUSTER_SIZE(fs)] is that of the first file system of the table. *)
Definition filewrite (fuel : nat) (file src off n : Z) : F Z :=
  if n =? 0 then kret 0 else
  size <- getd d_size file ;;
  if size <? off then kret (- E_EXCEED_FILE) else
  (if size <? u32 (off + n) then fileExtend fuel file (u32 (off + n)) else kret tt) ;;
  let start := off in
  let last := u32 (u32 (off + n) - 1) in
  x0 <- getfs (fs_base fr) ;;
  let clus_size := CLUSTER_SIZE x0 in
  if clus_size =? 0 then kfault else
  let clus_num := u32 (ROUNDUP64 (u64 (last - start)) clus_size / clus_size) in
  let offset := off mod clus_size in
  clus <- file_get_clusNo file (u32 (start / clus_size)) ;;
  if FAT32_isEOF clus then kret (-1) else
  a <- getd d_fs file ;;
  x <- getfs a ;;
  let l := Z.min n (u32 (clus_size - offset)) in
  base (cluswrite fuel x clus offset src l) ;;
  clus <- base (fatread x clus) ;;
  r <- base (filewrite_loop (Z.to_nat (clus_num - 1)) fuel x clus_size clus offset src l n) ;;
  kret (s32 r).
End Fs.

(** ** Paths *)

(** The components of a path: what is between slashes, the empty ones left
    out. *)
Fixpoint split (l : list Z) : list (list Z) :=
  match l with
  | [] => [[]]
  | c :: l => if c =? SLASH then [] :: split l else match split l with [] => [[c]] | w :: ws => (c :: w) :: ws end
  end.
Definition nonempty (w : list Z) : bool := match w with [] => false | _ => true end.
Definition components (l : list Z) : list (list Z) := List.filter nonempty (split l).

Definition at_slash (l : list Z) : Prop := exists r, l = SLASH :: r.

Lemma components_slash l : components (SLASH :: l) = components l.
Proof. done. Qed.
Lemma split_part w l : Forall (fun c => c <> SLASH) w -> (l = [] \/ at_slash l) ->
  split (w ++ l) = match l with [] => [w] | _ :: r => w :: split r end.
Proof.
  induction 1 as [|c w Hc _ IH]; intros Hl; cbn.
  - destruct Hl as [->|[r ->]]; [done|]. cbn. done.
  - apply Z.eqb_neq in Hc as ->. rewrite IH by done. by destruct l.
Qed.
Lemma components_part w l : w <> [] -> Forall (fun c => c <> SLASH) w -> (l = [] \/ at_slash l) ->
  components (w ++ l) = w :: components l.
Proof.
  intros Hw Hs Hl. unfold components. rewrite split_part by done. destruct w as [|c w]; [done|].
  destruct Hl as [->|[r ->]]; done.
Qed.
Lemma part_split l : exists w r, l = w ++ r /\ Forall (fun c => c <> SLASH) w /\ (r = [] \/ at_slash r).
Proof.
  induction l as [|c l (w & r & -> & Hw & Hr)]; [exists [], []; auto|].
  destruct (Z.eq_dec c SLASH) as [->|Hc].
  - exists [], (SLASH :: w ++ r). split; [done|]. split; [done|]. right. by eexists.
  - exists (c :: w), r. auto.
Qed.
Lemma slashes_split l : exists k r, l = replicate k SLASH ++ r /\ ~ at_slash r /\ components l = components r.
Proof.
  induction l as [|c l (k & r & E & Hr & Hc)].
  - exists 0%nat, []. split; [done|]. split; [by intros [? ?]|done].
  - destruct (Z.eq_dec c SLASH) as [->|Hne].
    + exists (Datatypes.S k), r. split; [by rewrite E|]. split; [done|]. by rewrite components_slash.
    + exists 0%nat, (c :: l). split; [done|]. split; [|done]. intros [r' [= -> _]]. done.
Qed.

Lemma skip_slash_ok m : forall k fuel p r, cstr m p (replicate k SLASH ++ r) -> ~ at_slash r -> (k < fuel)%nat ->
  skip_slash fuel m p = Ret (p + Z.of_nat k).
Proof.
  induction k as [|k IH]; intros [|fuel] p r Hc Hr Hf; try lia; cbn [skip_slash].
  - rewrite Z.add_0_r. destruct r as [|c r]; cbn in Hc; [by rewrite Hc|]. destruct Hc as (-> & _).
    rewrite (proj2 (Z.eqb_neq c SLASH)); [done|]. intros ->. apply Hr. by eexists.
  - cbn in Hc. destruct Hc as (-> & _ & Hc). rewrite Z.eqb_refl. rewrite (IH fuel (p + 1) r) by (done || lia). f_equal. lia.
Qed.
Lemma scan_part_ok m : forall w fuel p r, cstr m p (w ++ r) -> Forall (fun c => c <> SLASH) w -> (r = [] \/ at_slash r) ->
  (length w < fuel)%nat -> scan_part fuel m p = Ret (p + Z.of_nat (length w)).
Proof.
  induction w as [|c w IH]; intros [|fuel] p r Hc Hw Hr Hf; cbn [length] in Hf; try lia; cbn [scan_part].
  - rewrite Z.add_0_r. destruct Hr as [->|[r' ->]]; cbn in Hc; [by rewrite Hc|]. destruct Hc as (-> & _). by rewrite Z.eqb_refl.
  - destruct Hc as (-> & Hn & Hc). apply Forall_cons in Hw as [Hs Hw].
    rewrite (proj2 (Z.eqb_neq c SLASH) Hs), (proj2 (Z.eqb_neq c 0) Hn). cbn [negb andb].
    rewrite (IH fuel (p + 1) r) by (done || lia). cbn [length]. f_equal. lia.
Qed.

Lemma cstr_at m s l1 l2 : cstr m s (l1 ++ l2) -> cstr m (s + Z.of_nat (length l1)) l2.
Proof. by intros [_ Hc]%cstr_app. Qed.

(** One component copied into its slot. *)
Lemma token_copy m d p w r : cstr m p (w ++ r) -> w <> [] ->
  (d + 32 <= p \/ p + Z.of_nat (length (w ++ r)) < d) ->
  let len := if MAX_FILE_NAME_LEN <=? Z.of_nat (length w) then MAX_FILE_NAME_LEN - 1 else Z.of_nat (length w) in
  let m' := st8 (fst (strncpy m d p len)) (d + len) 0 in
  cstr m' d (take 31 w) /\ forall a, a < d \/ d + 32 <= a -> ld8 m' a = ld8 m a.
Proof.
  intros Hc Hw Hd len m'. assert (Hlen : len = Z.of_nat (length (take 31 w)) /\ 0 < len <= 31).
  { unfold len, MAX_FILE_NAME_LEN. rewrite length_take. assert (length w <> 0)%nat by by destruct w.
    destruct (Z.leb_spec 32 (Z.of_nat (length w))); lia. }
  destruct Hlen as [Hlen Hr]. rewrite length_app in Hd.
  assert (Hle : (length (take 31 w) <= length w)%nat) by (rewrite length_take; lia).
  destruct (strncpy_effect m d p len (w ++ r)) as (m1 & E1 & Hcp & _ & Hout); [lia|done|rewrite length_app; lia|].
  rewrite length_app in Hcp, Hout. unfold m'. rewrite E1. cbn [fst]. split.
  - apply cstr_spec. rewrite <- Hlen. split; [|apply ld8_st8_eq].
    intros i c Hi. pose proof (lookup_lt_Some _ _ _ Hi) as Hil. rewrite ld8_st8_ne by lia. rewrite Hcp by lia.
    replace (p + (d + Z.of_nat i - d)) with (p + Z.of_nat i) by lia. apply (cstr_lookup m p (w ++ r)); [done|].
    apply lookup_app_l_Some. rewrite <- Hi. symmetry. apply lookup_take_lt. rewrite length_take in Hil. lia.
  - intros a Ha. rewrite ld8_st8_ne by lia. apply Hout. lia.
Qed.

Lemma parse_path_loop_ok fuel token : forall n m p i l, cstr m p l -> (length l < fuel)%nat -> ~ at_slash l ->
  (p + Z.of_nat (length l) < token_at token i \/ token_at token (i + Z.of_nat n) <= p) ->
  exists m', parse_path_loop n fuel m token p i = Ret (m', i + Z.of_nat (n `min` length (components l))) /\
    (forall j w, (j < n)%nat -> components l !! j = Some w -> cstr m' (token_at token (i + Z.of_nat j)) (take 31 w)) /\
    (forall a, a < token_at token i \/ token_at token (i + Z.of_nat n) <= a -> ld8 m' a = ld8 m a).
Proof.
  unfold token_at, MAX_FILE_NAME_LEN. induction n as [|n IH]; intros m p i l Hc Hf Hs Hd; cbn [parse_path_loop].
  { exists m. rewrite Nat.min_0_l, Z.add_0_r. split; [done|]. split; [lia|done]. }
  rewrite (strlen_cstr fuel m p l Hc Hf). cbn [res_bind].
  destruct (part_split l) as (w & r & -> & Hw & Hr). destruct (decide (w = [])) as [->|Hne].
  { destruct Hr as [->|Hr]; [|done]. cbn. exists m. rewrite Z.add_0_r. done. }
  rewrite length_app in Hf. assert (Hwl : length w <> 0%nat) by by destruct w.
  rewrite (proj2 (Z.eqb_neq _ 0)) by (rewrite length_app; lia).
  rewrite (scan_part_ok m w fuel p r Hc Hw Hr) by lia. cbn [res_bind].
  replace (p + Z.of_nat (length w) - p) with (Z.of_nat (length w)) by lia.
  destruct (token_copy m (token + 32 * i) p w r Hc Hne) as [Htok Hout]; [lia|]. cbv zeta in Htok, Hout.
  change (token_at token i) with (token + 32 * i). unfold MAX_FILE_NAME_LEN in *.
  set (m1 := st8 (fst (strncpy m (token + 32 * i) p _)) _ 0) in *.
  assert (Hc1 : cstr m1 p (w ++ r)) by (apply (cstr_ext m); [intros a Ha; apply Hout; lia|done]).
  apply cstr_at in Hc1. destruct (slashes_split r) as (k & r' & Er & Hr' & Ec). rewrite Er in Hc1, Hf, Hd.
  rewrite !length_app, length_replicate in *.
  rewrite (skip_slash_ok m1 k fuel _ r' Hc1 Hr') by lia. cbn [res_bind]. apply cstr_at in Hc1. rewrite length_replicate in Hc1.
  destruct (IH m1 (p + Z.of_nat (length w) + Z.of_nat k) (i + 1) r' Hc1) as (m2 & E2 & Htoks & Hout2); [lia|done|lia|].
  exists m2. rewrite E2, components_part, Ec by done. cbn [length]. split; [do 2 f_equal; lia|]. split.
  - intros [|j] x Hj Hx; cbn in Hx.
    + simplify_eq. rewrite Z.add_0_r. apply (cstr_ext m1); [|done]. intros a Ha. rewrite length_take in Ha. apply Hout2. lia.
    + replace (i + Z.of_nat (Datatypes.S j)) with (i + 1 + Z.of_nat j) by lia. apply Htoks; [lia|done].
  - intros a Ha. rewrite Hout2 by lia. apply Hout. lia.
Qed.

Lemma parse_path_ok fuel m path token l : path <> NULL -> cstr m path l -> (length l < fuel)%nat ->
  (path + Z.of_nat (length l) < token \/ token + 32 * 32 <= path) ->
  exists m', parse_path fuel m path token = Ret (m', Z.of_nat (32 `min` length (components l))) /\
    (forall j w, (j < 32)%nat -> components l !! j = Some w -> cstr m' (token_at token (Z.of_nat j)) (take 31 w)) /\
    (forall a, a < token \/ token + 32 * 32 <= a -> ld8 m' a = ld8 m a).
Proof.
  intros Hp Hc Hf Hd. unfold parse_path. rewrite (proj2 (Z.eqb_neq _ _) Hp).
  destruct (slashes_split l) as (k & r & El & Hr & Ec). rewrite El in Hc, Hf, Hd. rewrite length_app, length_replicate in *.
  rewrite (skip_slash_ok m k fuel path r Hc Hr) by lia. cbn [res_bind]. apply cstr_at in Hc. rewrite length_replicate in Hc.
  change (Z.to_nat MAX_FILE_NAME_LEN) with 32%nat.
  destruct (parse_path_loop_ok fuel token 32 m (path + Z.of_nat k) 0 r Hc) as (m' & E & Ht & Ho);
    [lia|done|unfold token_at, MAX_FILE_NAME_LEN; lia|].
  exists m'. rewrite Ec. split; [exact E|]. split; [exact Ht|]. intros a Ha. apply Ho. unfold token_at, MAX_FILE_NAME_LEN. lia.
Qed.

(** ** The contents of a file *)

(** The clusters of a chain in a table [f]: the entry of each is the next, that
    of the last marks the end. *)
Fixpoint chained (f : Z -> Z) (cl : list Z) : Prop :=
  match cl with
  | [] => False
  | [c] => FAT32_isEOF (f c) = true
  | c :: (c' :: _) as cl' => f c = c' /\ chained f cl'
  end.

Section Contents.
Context {S : Type} `{CacheLaws S} `{Pages S}.
Context (fr : frame) (x : filesystem) (G : geometry x) (Hdev : deviceNum x = cache_dev).
#[local] Abbreviation holds := (holds x).
#[local] Abbreviation CS := (CLUSTER_SIZE x).

Lemma base_ok {A} (m : K S A) b t a b' : m b = Ret (a, b') -> base m (b, t) = Ret (a, (b', t)).
Proof. intros E. unfold base, zoom. cbn. by rewrite E. Qed.
Lemma getd_ok {A} (f : dirent -> A) d (b : S) t e : ft_dirs t !! d = Some e -> getd f d (b, t) = Ret (f e, (b, t)).
Proof. intros E. unfold getd, tabs, zoom. cbn. by rewrite E. Qed.
Lemma getfs_ok a (b : S) t y : ft_tab t !! a = Some y -> getfs a (b, t) = Ret (y, (b, t)).
Proof. intros E. unfold getfs, tabs, zoom. cbn. by rewrite E. Qed.

Lemma size_pos : 0 < CS < 2 ^ 17.
Proof. rewrite (g_size _ G). pose proof (g_spc _ G). lia. Qed.
Lemma cluster_not_eof c : cluster x c -> FAT32_isEOF c = false.
Proof.
  intros Hc. unfold cluster in Hc. pose proof (g_max _ G). unfold FAT32_isEOF. apply andb_false_iff. rewrite !Z.leb_gt. lia.
Qed.

Lemma chained_next f cl c c' i : chained f cl -> cl !! i = Some c -> cl !! Datatypes.S i = Some c' -> f c = c'.
Proof.
  revert i. induction cl as [|c0 [|c1 cl] IH]; intros i Hch E1 E2; [done|by destruct i|].
  destruct Hch as [Hn Hch]. destruct i as [|i]; [by simplify_eq/=|]. by apply (IH i).
Qed.

(** [file_get_clusNo] follows the chain. *)
Lemma clusNo_loop_ok V cl : chained (v_fat V) cl -> Forall (cluster x) cl ->
  forall n b D i c c', holds b D V -> cl !! i = Some c -> cl !! (i + n)%nat = Some c' ->
  exists b', clusNo_loop n x c b = Ret (c', b') /\ holds b' D V.
Proof.
  intros Hch Hcl. induction n as [|n IH]; intros b D i c c' HV Hi Hin; cbn [clusNo_loop].
  - rewrite Nat.add_0_r in Hin. simplify_eq. by exists b.
  - assert (Hc : cluster x c) by (eapply Forall_lookup_1; [exact Hcl|exact Hi]).
    destruct (lookup_lt_is_Some_2 cl (Datatypes.S i)) as [c1 Hc1]; [apply lookup_lt_Some in Hin; lia|].
    destruct (holds_fatread x G Hdev b D V c HV Hc) as (b1 & R1 & V1). erewrite kbind_ret by exact R1.
    rewrite (chained_next _ _ c c1 i Hch Hi Hc1).
    rewrite (cluster_not_eof c1) by (eapply Forall_lookup_1; [exact Hcl|exact Hc1]).
    apply (IH b1 D (Datatypes.S i) c1 c' V1 Hc1). by replace (Datatypes.S i + n)%nat with (i + Datatypes.S n)%nat by lia.
Qed.

(** The bytes of the clusters of a chain. *)
Definition content (V : vol) (cl : list Z) : list Z := concat (map (v_clus V) cl).

Lemma length_clus b D V c : holds b D V -> cluster x c -> Z.of_nat (length (v_clus V c)) = CS.
Proof. intros HV Hc. rewrite <- (h_clus _ _ _ _ HV c Hc), length_mget. pose proof size_pos. lia. Qed.
Lemma length_content b D V cl : holds b D V -> Forall (cluster x) cl -> Z.of_nat (length (content V cl)) = CS * Z.of_nat (length cl).
Proof.
  intros HV. induction 1 as [|c cl Hc _ IH]; cbn; [lia|]. fold (content V cl).
  rewrite length_app, Nat2Z.inj_add, (length_clus b D V c HV Hc), IH. lia.
Qed.
(** A range inside one cluster of the chain. *)
Lemma content_sub b D V cl i c off n : holds b D V -> Forall (cluster x) cl -> cl !! i = Some c ->
  0 <= off -> 0 <= n -> off + n <= CS -> sub (content V cl) (CS * Z.of_nat i + off) n = sub (v_clus V c) off n.
Proof.
  intros HV Hcl Hi Ho Hn Hfit. rewrite <- (take_drop_middle _ _ _ Hi) in Hcl |- *.
  apply Forall_app in Hcl as [Hcl1 Hcl2]. apply Forall_cons in Hcl2 as [Hc _]. pose proof size_pos.
  unfold content. rewrite map_app, concat_app. cbn [map concat]. unfold sub.
  pose proof (length_content b D V _ HV Hcl1) as Hl. unfold content in Hl. rewrite length_take in Hl.
  rewrite Nat.min_l in Hl by (apply lookup_lt_Some in Hi; lia).
  replace (Z.to_nat (CS * Z.of_nat i + off)) with (length (concat (map (v_clus V) (take i cl))) + Z.to_nat off)%nat by lia.
  rewrite <- drop_drop, drop_app_length. pose proof (length_clus b D V c HV Hc).
  rewrite drop_app_le by lia. rewrite take_app_le; [done|]. rewrite length_drop. lia.
Qed.
(** The part of [fileread] after the first cluster: each turn moves one cluster,
    or what is left of the range. *)
Lemma fileread_loop_ok f cls cl dst n : chained f cl -> Forall (cluster x) cl -> n < 2 ^ 31 ->
  forall k b D m c j len, holds b D (mkVol f cls m) -> ((0 < k)%nat -> cl !! j = Some c) -> 0 <= len <= n ->
  ((0 < k)%nat -> len + (Z.of_nat k - 1) * CS < n) -> CS * Z.of_nat j + (n - len) <= CS * Z.of_nat (length cl) ->
  let r := Z.min n (len + Z.of_nat k * CS) in
  exists b', fileread_loop k 256 x c dst len n b = Ret (r, b') /\
    holds b' D (mkVol f cls (mput m (dst + len) (sub (content (mkVol f cls m) cl) (CS * Z.of_nat j) (r - len)))).
Proof.
  intros Hch Hcl Hn. pose proof size_pos as Hcs.
  induction k as [|k IH]; intros b D m c j len HV Hj Hlen Hk Hfit r; cbn [fileread_loop].
  { exists b. unfold r. replace (Z.min n (len + Z.of_nat 0 * CS)) with len by lia. split; [done|]. by rewrite Z.sub_diag. }
  specialize (Hj ltac:(lia)). specialize (Hk ltac:(lia)).
  assert (Hc : cluster x c) by (eapply Forall_lookup_1; [exact Hcl|exact Hj]). pose proof (lookup_lt_Some _ _ _ Hj) as Hjl.
  rewrite (u32_small (n - len)) by lia. set (l := Z.min (n - len) CS). assert (Hl : 0 < l <= CS) by lia.
  destruct (holds_clusread x G Hdev b D _ c 0 (dst + len) l HV Hc) as (b1 & R1 & V1); [lia..|].
  destruct (holds_fatread x G Hdev b1 D _ c V1 Hc) as (b2 & R2 & V2). cbn [v_fat v_clus v_mem] in *.
  erewrite kbind_ret by exact R1. erewrite kbind_ret by exact R2. rewrite (u32_small (len + l)) by lia.
  pose proof (content_sub b D _ cl j c 0 l HV Hcl Hj) as Hsub. rewrite Z.add_0_r in Hsub. cbn [v_clus] in Hsub. rewrite <- Hsub in V2 by lia.
  assert (Hfull : (0 < k)%nat -> l = CS) by (intros ?; assert (CS <= Z.of_nat k * CS) by nia; lia).
  destruct (IH b2 D _ (f c) (Datatypes.S j) (len + l) V2) as (b3 & R3 & V3).
  - intros Hk'. specialize (Hfull Hk'). destruct (lookup_lt_is_Some_2 cl (Datatypes.S j)) as [c' Hc']; [nia|].
    by rewrite (chained_next f cl c c' j Hch Hj Hc').
  - lia.
  - intros Hk'. specialize (Hfull Hk'). lia.
  - assert (l = n - len \/ l = CS) as [?|?] by lia; nia.
  - set (C := content (mkVol f cls m) cl) in *. change (content (mkVol f cls _) cl) with C in V3.
    assert (HlC : Z.of_nat (length C) = CS * Z.of_nat (length cl)) by (eapply length_content; [exact HV|exact Hcl]).
    assert (Hr : Z.min n (len + l + Z.of_nat k * CS) = r) by (unfold r; destruct k; [lia|rewrite Hfull by lia; lia]). rewrite Hr in R3, V3.
    exists b3. split; [exact R3|]. replace (r - len) with (l + (r - (len + l))) by lia.
    assert (Hr' : len + l <= r <= n) by (assert (0 <= Z.of_nat k * CS) by nia; unfold r; lia).
    assert (Hj0 : 0 <= CS * Z.of_nat j) by nia.
    rewrite sub_app by lia. rewrite mput_app, length_sub by lia.
    replace (dst + len + l) with (dst + (len + l)) by lia. destruct k as [|k].
    + replace (r - (len + l)) with 0 in * by (unfold r in *; lia). exact V3.
    + replace (CS * Z.of_nat j + l) with (CS * Z.of_nat (Datatypes.S j)) by (rewrite Hfull by lia; lia). exact V3.
Qed.

(** A file: its entry, its volume, its clusters. *)
Record file_at (t : fsst) (V : vol) (file : addr) (cl : list Z) (size : Z) : Prop := {
  fa_dirent : exists e, ft_dirs t !! file = Some e /\ d_size e = size /\ ft_tab t !! d_fs e = Some x /\ hd_error cl = Some (first_cluster e);
  fa_chain : chained (v_fat V) cl;
  fa_cl : Forall (cluster x) cl;
  fa_size : 0 <= size <= CS * Z.of_nat (length cl) /\ size < 2 ^ 32
}.

Lemma file_get_clusNo_ok t V file cl size b D i c : file_at t V file cl size -> holds b D V -> cl !! i = Some c ->
  exists b', file_get_clusNo file (Z.of_nat i) (b, t) = Ret (c, (b', t)) /\ holds b' D V.
Proof.
  intros [(e & He & Hs & Ht & Hh) Hch Hcl _] HV Hi. unfold file_get_clusNo.
  erewrite kbind_ret by by apply getd_ok. erewrite kbind_ret by by apply getd_ok. erewrite kbind_ret by by apply getfs_ok.
  destruct (clusNo_loop_ok V cl Hch Hcl i b D 0 (first_cluster e) c HV) as (b' & R & V'); [by destruct cl|done|].
  exists b'. split; [|done]. rewrite Nat2Z.id. by apply base_ok.
Qed.

(** The number of bytes a call moves. *)
Definition moved (size off n : Z) : Z :=
  let n := Z.min n (size - off) in
  if n =? 0 then 0 else Z.min n (CS - off mod CS + (n - 1) / CS * CS).

Lemma moved_range size off n : 0 <= off <= size -> 0 <= n -> 0 <= moved size off n <= Z.min n (size - off).
Proof.
  intros. unfold moved. pose proof size_pos. destruct (Z.eqb_spec (Z.min n (size - off)) 0); [lia|].
  pose proof (Z.mod_pos_bound off CS). assert (0 <= (Z.min n (size - off) - 1) / CS) by (apply Z.div_pos; lia). nia.
Qed.
(** It is the whole range when that starts a cluster, or lies in one. *)
Lemma moved_all size off n : 0 <= off <= size -> 0 <= n ->
  off mod CS = 0 \/ off mod CS + n <= CS -> moved size off n = Z.min n (size - off).
Proof.
  intros Ho Hn Hal. unfold moved. pose proof size_pos. destruct (Z.eqb_spec (Z.min n (size - off)) 0) as [->|Hne]; [done|].
  set (n' := Z.min n (size - off)) in *. pose proof (Z.mod_pos_bound off CS). 
  pose proof (Z.div_mod (n' - 1) CS). pose proof (Z.mod_pos_bound (n' - 1) CS). pose proof (Z.div_pos (n' - 1) CS). nia.
Qed.

Lemma fileread_ok t V file cl size b D off n dst :
  file_at t V file cl size -> holds b D V -> 0 <= off <= size -> 0 <= n < 2 ^ 31 -> off + n < 2 ^ 32 ->
  exists b', fileread 256 file dst off n (b, t) = Ret (moved size off n, (b', t)) /\
    holds b' D (mkVol (v_fat V) (v_clus V) (mput (v_mem V) dst (sub (content V cl) off (moved size off n)))).
Proof.
  intros HF HV Ho Hn Hon. pose proof size_pos as Hcs. destruct V as [f cls m]. cbn [v_fat v_clus v_mem].
  pose proof HF as [(e & He & Hs & Ht & Hh) Hch Hcl [Hsz Hsz32]]. cbn [v_fat] in Hch.
  unfold fileread. erewrite kbind_ret by by apply getd_ok. rewrite Hs, (proj2 (Z.ltb_ge size off)) by lia.
  rewrite (u32_small (off + n)) by lia. rewrite (u32_small (size - off)) by lia.
  replace (if size <? off + n then size - off else n) with (Z.min n (size - off)) by (case_cmp; lia).
  unfold moved. set (n1 := Z.min n (size - off)). destruct (Z.eqb_spec n1 0) as [E0|Hne]; [by exists b|].
  erewrite kbind_ret by by apply getd_ok. erewrite kbind_ret by by apply getfs_ok.
  rewrite (proj2 (Z.eqb_neq CS 0)) by lia. set (o := off mod CS). pose proof (Z.mod_pos_bound off CS) as Hmod. fold o in Hmod.
  pose proof (Z.div_mod off CS) as Hdiv. fold o in Hdiv. pose proof (Z.div_pos off CS) as Hi0.
  set (i := Z.to_nat (off / CS)). assert (Hi : off / CS = Z.of_nat i) by lia. rewrite Hi in Hdiv.
  destruct (lookup_lt_is_Some_2 cl i) as [c Hc]; [nia|]. pose proof (lookup_lt_Some _ _ _ Hc) as Hil.
  assert (Hclc : cluster x c) by (eapply Forall_lookup_1; [exact Hcl|exact Hc]).
  destruct (file_get_clusNo_ok t _ file cl size b D i c HF HV Hc) as (b1 & R1 & V1).
  rewrite u32_small, Hi by nia. erewrite kbind_ret by exact R1. rewrite (cluster_not_eof c Hclc).
  rewrite (u32_small (CS - o)) by lia. set (l := Z.min n1 (CS - o)).
  destruct (holds_clusread x G Hdev b1 D _ c o dst l V1 Hclc) as (b2 & R2 & V2); [lia..|].
  destruct (holds_fatread x G Hdev b2 D _ c V2 Hclc) as (b3 & R3 & V3). cbn [v_fat v_clus v_mem] in *.
  pose proof (content_sub b D _ cl i c o l HV Hcl Hc) as Hsub. cbn [v_clus] in Hsub. rewrite <- Hsub in V3 by lia.
  replace (CS * Z.of_nat i + o) with off in V3 by lia. set (C := content (mkVol f cls m) cl) in *.
  erewrite kbind_ret by (apply base_ok; exact R2). erewrite kbind_ret by (apply base_ok; exact R3).
  rewrite (u32_small (off + n1)), (u32_small (off + n1 - 1)) by lia.
  replace (off + n1 - 1 - off) with (n1 - 1) by lia. rewrite (u64_small (n1 - 1)) by lia.
  pose proof (Z.div_mod (n1 - 1) CS) as Hkd. pose proof (Z.mod_pos_bound (n1 - 1) CS) as Hkm. pose proof (Z.div_pos (n1 - 1) CS) as Hk0.
  set (k := Z.to_nat ((n1 - 1) / CS)). assert (Hk : (n1 - 1) / CS = Z.of_nat k) by lia. rewrite Hk in Hkd |- *.
  rewrite u32_small by nia. rewrite Nat2Z.id.
  assert (Hfull : (0 < k)%nat -> l = CS - o) by (intros ?; nia).
  destruct (fileread_loop_ok f cls cl dst n1 Hch Hcl ltac:(lia) k b3 D _ (f c) (Datatypes.S i) l V3) as (b4 & R4 & V4).
  - intros Hk'. destruct (lookup_lt_is_Some_2 cl (Datatypes.S i)) as [c' Hc']; [rewrite Hfull in * by done; nia|].
    by rewrite (chained_next f cl c c' i Hch Hc Hc').
  - lia.
  - intros Hk'. rewrite Hfull by done. nia.
  - assert (l = n1 \/ l = CS - o) as [El|El] by lia; rewrite El; nia.
  - assert (Hlen : Z.min n1 (l + Z.of_nat k * CS) = Z.min n1 (CS - o + Z.of_nat k * CS)) by (assert (0 <= Z.of_nat k * CS) by nia; lia).
    rewrite Hlen in R4, V4. set (r := Z.min n1 (CS - o + Z.of_nat k * CS)) in *. exists b4. split.
    + erewrite kbind_ret by (apply base_ok; exact R4). unfold kret. rewrite s32_small by (unfold r; lia). done.
    + change (content (mkVol f cls _) cl) with C in V4.
      assert (HlC : Z.of_nat (length C) = CS * Z.of_nat (length cl)) by (eapply length_content; [exact HV|exact Hcl]).
      assert (Hr : l <= r <= n1) by (assert (0 <= Z.of_nat k * CS) by nia; unfold r; lia).
      replace r with (l + (r - l)) by lia. rewrite sub_app by lia. rewrite mput_app, length_sub by lia.
      assert (l = n1 \/ l = CS - o) as [El|El] by lia.
      * replace (r - l) with 0 in * by lia. exact V4.
      * replace (off + l) with (CS * Z.of_nat (Datatypes.S i)) by lia. exact V4.
Qed.

(** *** Writing inside one cluster *)

Lemma chained_det f l1 : forall l2, chained f l1 -> chained f l2 -> Forall (cluster x) l1 -> Forall (cluster x) l2 ->
  hd_error l1 = hd_error l2 -> l1 = l2.
Proof.
  induction l1 as [|c [|c1 l1] IH]; intros [|d [|d1 l2]] Hc1 Hc2 F1 F2 Hh; try done; injection Hh as ->; try done.
  - destruct Hc2 as [E _]. cbn in Hc1. rewrite E in Hc1. apply Forall_cons in F2 as [_ F2]. apply Forall_cons in F2 as [F2 _].
    by rewrite cluster_not_eof in Hc1.
  - destruct Hc1 as [E _]. cbn in Hc2. rewrite E in Hc2. apply Forall_cons in F1 as [_ F1]. apply Forall_cons in F1 as [F1 _].
    by rewrite cluster_not_eof in Hc2.
  - destruct Hc1 as [E1 Hc1], Hc2 as [E2 Hc2]. apply Forall_cons in F1 as [_ F1]. apply Forall_cons in F2 as [_ F2].
    f_equal. apply IH; [done..|]. cbn. congruence.
Qed.
Lemma chained_suffix f A c B : chained f (A ++ c :: B) -> chained f (c :: B).
Proof.
  induction A as [|a A IH]; [done|]. intros Hc. apply IH. cbn [app] in Hc.
  destruct (A ++ c :: B) eqn:E; [by destruct A|]. by destruct Hc.
Qed.
(** A chain that ends visits no cluster twice. *)
Lemma chained_nodup f cl : chained f cl -> Forall (cluster x) cl -> NoDup cl.
Proof.
  induction cl as [|c cl IH]; intros Hc Hf; [constructor|]. apply Forall_cons in Hf as Hf'. destruct Hf' as [Hcc Hf'].
  constructor.
  - intros (A & B & E)%list_elem_of_split. rewrite E in Hc, Hf. pose proof (chained_suffix f (c :: A) c B Hc) as Hc2.
    rewrite E in Hf'. apply Forall_app in Hf' as [_ HB].
    pose proof (chained_det f _ _ Hc Hc2 Hf HB eq_refl) as [= E'].
    apply (f_equal length) in E'. rewrite length_app in E'. cbn in E'. lia.
  - destruct cl as [|c1 cl]; [constructor|]. apply IH; [by destruct Hc|done].
Qed.

Lemma map_clus_other V c y cl : c ∉ cl -> map (v_clus (clus_set c y V)) cl = map (v_clus V) cl.
Proof.
  induction cl as [|c' cl IH]; [done|]. intros [Hne Hn]%not_elem_of_cons. cbn [map]. rewrite IH by done. cbn [clus_set v_clus].
  by rewrite (proj2 (Z.eqb_neq c' c)) by done.
Qed.

Lemma content_splice b D V cl i c off l : holds b D V -> Forall (cluster x) cl -> NoDup cl -> cl !! i = Some c ->
  0 <= off -> off + Z.of_nat (length l) <= CS ->
  content (clus_set c (splice (v_clus V c) off l) V) cl = splice (content V cl) (CS * Z.of_nat i + off) l.
Proof.
  intros HV Hcl Hnd Hi Ho Hl. pose proof (lookup_lt_Some _ _ _ Hi) as Hil.
  rewrite <- (take_drop_middle _ _ _ Hi) in Hcl, Hnd |- *. apply Forall_app in Hcl as [Hcl1 Hcl2].
  apply Forall_cons in Hcl2 as [Hc _]. pose proof (length_content b D V _ HV Hcl1) as HlA. pose proof (length_clus b D V c HV Hc) as HlX.
  rewrite length_take, Nat.min_l in HlA by lia. apply NoDup_mid in Hnd as [_ Hn]. apply not_elem_of_app in Hn as [Hn1 Hn2].
  unfold content in *. rewrite !map_app, !concat_app. cbn [map concat]. rewrite !map_clus_other by done. cbn [clus_set v_clus].
  rewrite Z.eqb_refl, <- HlA. rewrite splice_app_r by done. rewrite splice_app_l by lia. done.
Qed.

Lemma filewrite_ok t V file cl size b D off n src :
  file_at t V file cl size -> ft_tab t !! fs_base fr = Some x -> holds b D V -> 0 <= off -> 0 < n -> off + n <= size ->
  off mod CS + n <= CS -> log_free x (off mod CS) n ->
  exists b' D' c y, filewrite fr 256 file src off n (b, t) = Ret (n, (b', t)) /\ c ∈ cl /\ holds b' D' (clus_set c y V) /\
    content (clus_set c y V) cl = splice (content V cl) off (mget (v_mem V) src (Z.to_nat n)).
Proof.
  intros HF Ht0 HV Ho Hn Hfit Hin Hlog. pose proof size_pos as Hcs.
  pose proof HF as [(e & He & Hs & Ht & Hh) Hch Hcl [Hsz Hsz32]].
  unfold filewrite. rewrite (proj2 (Z.eqb_neq n 0)) by lia. erewrite kbind_ret by by apply getd_ok.
  rewrite Hs, (proj2 (Z.ltb_ge size off)), (u32_small (off + n)) by lia.
  rewrite (proj2 (Z.ltb_ge size (off + n))) by lia. krun. erewrite kbind_ret by by apply getfs_ok.
  rewrite (proj2 (Z.eqb_neq CS 0)) by lia. set (o := off mod CS) in *. pose proof (Z.mod_pos_bound off CS) as Hmod. fold o in Hmod.
  pose proof (Z.div_mod off CS) as Hdiv. fold o in Hdiv. pose proof (Z.div_pos off CS) as Hi0.
  set (i := Z.to_nat (off / CS)). assert (Hi : off / CS = Z.of_nat i) by lia. rewrite Hi in Hdiv.
  destruct (lookup_lt_is_Some_2 cl i) as [c Hc]; [nia|].
  assert (Hclc : cluster x c) by (eapply Forall_lookup_1; [exact Hcl|exact Hc]).
  destruct (file_get_clusNo_ok t _ file cl size b D i c HF HV Hc) as (b1 & R1 & V1).
  rewrite (u32_small (off / CS)), Hi by nia. erewrite kbind_ret by exact R1. rewrite (cluster_not_eof c Hclc).
  erewrite kbind_ret by by apply getd_ok. erewrite kbind_ret by by apply getfs_ok.
  rewrite (u32_small (CS - o)), Z.min_l by lia.
  destruct (holds_cluswrite x G Hdev b1 D V c o src n V1 Hclc) as (b2 & D2 & R2 & V2); [lia|lia|lia|exact Hlog|].
  destruct (holds_fatread x G Hdev b2 D2 _ c V2 Hclc) as (b3 & R3 & V3).
  erewrite kbind_ret by (apply base_ok; exact R2). erewrite kbind_ret by (apply base_ok; exact R3).
  rewrite (u32_small (off + n - 1)) by lia. replace (off + n - 1 - off) with (n - 1) by lia. rewrite (u64_small (n - 1)) by lia.
  assert (Hru : 0 <= ROUNDUP64 (n - 1) CS / CS <= 1).
  { unfold ROUNDUP64. rewrite (u64_small (n - 1 + CS - 1)) by lia.
    destruct (land_le (n - 1 + CS - 1) (u32 (Z.lnot (CS - 1)))) as [L1 L2]; [lia|apply wrap_range; lia|].
    split; [apply Z.div_pos; lia|]. apply Z.lt_succ_r. apply Z.div_lt_upper_bound; lia. }
  rewrite (u32_small (ROUNDUP64 (n - 1) CS / CS)) by lia.
  replace (Z.to_nat (ROUNDUP64 (n - 1) CS / CS - 1)) with 0%nat by lia. cbn [filewrite_loop].
  erewrite kbind_ret by by apply base_ok. unfold kret. rewrite s32_small by lia.
  eexists b3, D2, c, _. split; [done|]. split; [by eapply list_elem_of_lookup_2|]. split; [exact V3|].
  rewrite (content_splice b D V cl i c o) by (rewrite ?length_mget; first [done | lia | by eapply chained_nodup]).
  by replace (CS * Z.of_nat i + o) with off by lia.
Qed.

(** A chain that starts at 0, as that of an empty file does, has no end. *)
Lemma last_clus_zero fuel : forall last (b : S), last_clus_loop fuel x 0 last b = NoFuel.
Proof.
  induction fuel as [|fuel IH]; intros last b; cbn [last_clus_loop]; [done|]. change (FAT32_isEOF 0) with false. cbv iota.
  unfold fatread, bad_cluster. rewrite (g_root _ G). change (0 <? 2) with true. cbn [orb]. krun. apply IH.
Qed.

Lemma set_ok (f : dirent -> dirent) d (b : S) t e : ft_dirs t !! d = Some e ->
  setd f d (b, t) = Ret (tt, (b, put_dirs (<[d := f e]> (ft_dirs t)) t)).
Proof. intros E. unfold setd, tabs, zoom. cbn. by rewrite E. Qed.

Lemma fileExtend_empty fuel (b : S) t file e n : ft_dirs t !! file = Some e -> d_size e = 0 -> first_cluster e = 0 ->
  ft_tab t !! d_fs e = Some x -> 0 <= n -> fileExtend fuel file n (b, t) = NoFuel.
Proof.
  intros He Hs Hc Ht Hn. pose proof size_pos. unfold fileExtend. erewrite kbind_ret by by apply getd_ok.
  rewrite Hs, (proj2 (Z.ltb_ge n 0)) by lia.
  erewrite kbind_ret by by apply getd_ok. erewrite kbind_ret by by apply getfs_ok.
  rewrite (proj2 (Z.eqb_neq CS 0)) by lia. erewrite kbind_ret by by apply set_ok.
  erewrite kbind_ret by (apply getd_ok; cbn [ft_dirs put_dirs]; apply lookup_insert_eq).
  change (first_cluster (set_d_size n e)) with (first_cluster e). rewrite Hc.
  unfold kbind at 1, base at 1, zoom. cbn [fst]. by rewrite last_clus_zero.
Qed.
End Contents.

(** [parse_path] splits a path at its slashes: it returns the number of
    components (what is between slashes, the empty ones left out), at most 32,
    and slot [j] of the table holds component [j], cut after 31 bytes and
    terminated. Nothing else is written. *)
Theorem parse_path_splits fuel m path token l :
  path <> NULL -> cstr m path l -> (length l < fuel)%nat ->
  (path + Z.of_nat (length l) < token \/ token + 32 * 32 <= path) ->
  exists m', parse_path fuel m path token = Ret (m', Z.of_nat (32 `min` length (components l))) /\
    (forall j w, (j < 32)%nat -> components l !! j = Some w -> cstr m' (token_at token (Z.of_nat j)) (take 31 w)) /\
    (forall a, a < token \/ token + 32 * 32 <= a -> ld8 m' a = ld8 m a).
Proof. apply parse_path_ok. Qed.

(** "//ab/c/" at 100. *)
Definition path_mem : mem := fun a =>
  match a with 100 => 47 | 101 => 47 | 102 => 97 | 103 => 98 | 104 => 47 | 105 => 99 | 106 => 47 | _ => 0 end.
Lemma parse_path_splits_witness :
  exists m', parse_path 20 path_mem 100 1000 = Ret (m', 2) /\ cstr m' 1000 [97; 98] /\ cstr m' 1032 [99].
Proof.
  destruct (parse_path_splits 20 path_mem 100 1000 [47; 47; 97; 98; 47; 99; 47]) as (m' & H1 & H2 & _).
  - done.
  - vm_compute. repeat split; discriminate.
  - cbn. lia.
  - left. cbn. lia.
  - exists m'. split; [exact H1|]. split; [apply (H2 0%nat [97; 98]); [lia|reflexivity]|apply (H2 1%nat [99]); [lia|reflexivity]].
Defined.

Section Properties.
Context {S : Type} `{CacheLaws S}.

(** C23. [fileread], on a file whose clusters hold its size, for a length below
    2^31 and a range that ends below 2^32, returns [-E_EXCEED_FILE] when the
    offset is past the end; otherwise it moves the
    first [moved size off n] bytes of the range asked for, cut at the end of the
    file, to [dst], writes nothing else, and returns their number. This is the
    whole range when it starts a cluster or lies inside one; a range that starts
    inside a cluster and needs one cluster more than its length says is read
    short (fs.c:336). Beyond 2^32 the sum of offset and length wraps, so that the
    length is not cut at the end of the file: no claim is made there. *)
Theorem fileread_reads_range (x : filesystem) t V file cl size (b : S) D off n dst :
  geometry x -> deviceNum x = cache_dev -> file_at x t V file cl size -> holds x b D V ->
  0 <= off -> 0 <= n < 2 ^ 31 -> off + n < 2 ^ 32 ->
  if size <? off then fileread 256 file dst off n (b, t) = Ret (- E_EXCEED_FILE, (b, t)) else
  let k := moved x size off n in
  0 <= k <= Z.min n (size - off) /\
  (off mod CLUSTER_SIZE x = 0 \/ off mod CLUSTER_SIZE x + n <= CLUSTER_SIZE x -> k = Z.min n (size - off)) /\
  exists b', fileread 256 file dst off n (b, t) = Ret (k, (b', t)) /\
    holds x b' D (mkVol (v_fat V) (v_clus V) (mput (v_mem V) dst (sub (content V cl) off k))).
Proof.
  intros G Hdev HF HV Ho Hn Hon. destruct (Z.ltb_spec size off) as [Hlt|Hge].
  - destruct HF as [(e & He & Hs & _) _ _ _]. unfold fileread. erewrite kbind_ret by by apply getd_ok.
    by rewrite Hs, (proj2 (Z.ltb_lt size off)).
  - split; [by apply (moved_range x G); lia|]. split; [intros Hal; apply (moved_all x G); lia || done|]. by apply fileread_ok.
Qed.

(** C21. A range inside one cluster of a file: [filewrite] returns its length,
    replaces those bytes of the file's contents by the bytes at [src], changes
    no other cluster and no entry of the table, and a [fileread] of the range
    then puts the same bytes at [dst]. A range that ends before its cluster does
    is written without a log; one that ends with it fails the [ASSERT_INFO] of
    [cluswrite], and is written once the logger has come back. *)
Theorem filewrite_fileread_roundtrip (fr : frame) (x : filesystem) t V file cl size (b : S) D off n src dst :
  geometry x -> deviceNum x = cache_dev -> file_at x t V file cl size -> ft_tab t !! fs_base fr = Some x -> holds x b D V ->
  0 <= off -> 0 < n -> off + n <= size -> off mod CLUSTER_SIZE x + n <= CLUSTER_SIZE x ->
  log_free x (off mod CLUSTER_SIZE x) n ->
  let l := mget (v_mem V) src (Z.to_nat n) in
  exists b1 D1 V1 b2, filewrite fr 256 file src off n (b, t) = Ret (n, (b1, t)) /\ holds x b1 D1 V1 /\
    content V1 cl = splice (content V cl) off l /\ v_fat V1 = v_fat V /\ v_mem V1 = v_mem V /\
    (forall c, c ∉ cl -> v_clus V1 c = v_clus V c) /\
    fileread 256 file dst off n (b1, t) = Ret (n, (b2, t)) /\
    holds x b2 D1 (mkVol (v_fat V1) (v_clus V1) (mput (v_mem V) dst l)).
Proof.
  intros G Hdev HF Ht0 HV Ho Hn Hfit Hin Hlog l. pose proof (size_pos x G) as Hcs.
  pose proof (Z.mod_pos_bound off (CLUSTER_SIZE x) ltac:(lia)) as Hmod.
  destruct (filewrite_ok fr x G Hdev t V file cl size b D off n src HF Ht0 HV Ho Hn Hfit Hin Hlog)
    as (b1 & D1 & c & y & R1 & Hc & V1 & Econt). set (W := clus_set c y V) in *.
  assert (HF1 : file_at x t W file cl size) by (destruct HF; by split).
  pose proof HF as [_ _ Hcl [Hsz Hsz32]].
  destruct (fileread_ok x G Hdev t W file cl size b1 D1 off n dst HF1 V1) as (b2 & R2 & V2); [lia..|].
  rewrite (moved_all x G), Z.min_l in R2, V2 by lia. rewrite Econt in V2. fold l in V2, Econt.
  assert (HlC : Z.of_nat (length (content V cl)) = CLUSTER_SIZE x * Z.of_nat (length cl)) by (eapply length_content; [exact G|exact HV|exact Hcl]).
  assert (Hl : Z.of_nat (length l) = n) by (unfold l; rewrite length_mget; lia).
  pose proof (sub_splice (content V cl) off l Ho) as Hsub. rewrite Hl in Hsub. rewrite Hsub in V2 by lia.
  exists b1, D1, W, b2. split; [done|]. split; [done|]. split; [done|]. split; [done|]. split; [done|]. split; [|done].
  intros c' Hc'. cbn. destruct (Z.eqb_spec c' c) as [->|]; [by destruct Hc'|done].
Qed.

(** Writing to an empty file never returns: its first cluster is 0, whose
    table entry reads as 0, so the search for the last cluster does not end
    whatever the fuel. *)
Theorem filewrite_empty_file_diverges (fr : frame) (x : filesystem) t file e (b : S) src n fuel :
  geometry x -> ft_dirs t !! file = Some e -> d_size e = 0 -> first_cluster e = 0 -> ft_tab t !! d_fs e = Some x ->
  0 < n < 2 ^ 32 -> filewrite fr fuel file src 0 n (b, t) = NoFuel.
Proof.
  intros G He Hs Hc Ht Hn. unfold filewrite. rewrite (proj2 (Z.eqb_neq n 0)) by lia. erewrite kbind_ret by by apply getd_ok.
  rewrite Hs, (Z.add_0_l n). rewrite (u32_small n) by lia. change (0 <? 0) with false.
  rewrite (proj2 (Z.ltb_lt 0 n)) by lia. cbv iota.
  unfold kbind at 1. by rewrite (fileExtend_empty x G fuel b t file e n He Hs Hc Ht ltac:(lia)).
Qed.
End Properties.

(** ** Two files of a small volume: one of two clusters, one empty *)

#[local] Instance demo_cache : Cache (kst sectors) := kst_cache 100 500 4 4 demo_swtch_kst 31 3 demo_base demo_list.
#[local] Instance demo_laws : CacheLaws (kst sectors).
Proof.
  refine (kst_cache_laws 100 500 4 4 demo_swtch_kst 31 3 demo_base demo_list 1000 [1000; 2000; 3000] (demo_sleeper RUNNING 1 0) _ _ _ 0).
  - simpl. lia.
  - unfold NBUF. lia.
  - cbn. lia.
Defined.
Definition demo_frame : frame := mkFrame 7000 20000 19000 300000 302000 303000 304000 305000 306000 306100.
Definition demo_file (size clus : Z) : dirent := mkDirent (replicate 64 0) size clus 0 DIR_FILE 7000 1 0 0 0.
Definition demo_tables : fsst :=
  mkFst {[7000 := demo_fs]} (<[20000 := demo_file 900 2]> {[20168 := demo_file 0 0]}) ∅ 7000 [] ∅.

Lemma demo_device : deviceNum demo_fs = cache_dev.
Proof. reflexivity. Qed.

(** The chain 2, 3 allocated in an empty volume. *)
Lemma demo_volume : exists (s : kst sectors) D V,
  holds demo_fs s D V /\ file_at demo_fs demo_tables V 20000 [2; 3] 900 /\ content V [2; 3] = replicate 1024 0.
Proof.
  destruct (binit_ok 100 500 4 30000 demo_list 1000 [1000; 2000; 3000] (demo_sleeper RUNNING 1 0) 0 demo_raw demo_raw_unset) as (s1 & H1 & Hinv).
  set (D := media (bk_dev (k_blk demo_raw))) in Hinv.
  set (V := mkVol (fun c => ld32 (image D) (fat_addr demo_fs c)) (fun c => mget (image D) (clus_addr demo_fs c) 512) (lget (T := mem) s1)).
  assert (HV : holds demo_fs s1 D V) by by split.
  destruct (fat_exec_all_ok demo_fs demo_geometry demo_device [ClusAlloc 0; ClusAlloc 2]) with (s := s1) (D := D) (V := V) as (s2 & D2 & _ & H2).
  - repeat (apply Forall_cons; split); [..|apply Forall_nil]; cbn [fat_op_ok]; unfold cluster; cbn; lia.
  - done.
  - eexists s2, D2, _. split; [exact H2|]. split.
    + split.
      * exists (demo_file 900 2). repeat split; reflexivity.
      * vm_compute. split; reflexivity.
      * repeat (apply Forall_cons; split); [..|apply Forall_nil]; unfold cluster; cbn; lia.
      * vm_compute. repeat split; discriminate.
    + vm_compute. reflexivity.
Qed.

Lemma fileread_reads_range_witness :
  exists (s : kst sectors) s1 s2,
    fileread 256 20000 4000 512 500 (s, demo_tables) = Ret (388, (s1, demo_tables)) /\
    fileread 256 20000 4000 500 100 (s, demo_tables) = Ret (12, (s2, demo_tables)) /\
    fileread 256 20000 4000 901 1 (s, demo_tables) = Ret (-3, (s, demo_tables)).
Proof.
  destruct demo_volume as (s & D & V & HV & HF & _).
  assert (R : forall off n, 0 <= off -> 0 <= n < 2 ^ 31 -> off + n < 2 ^ 32 ->
    if 900 <? off then fileread 256 20000 4000 off n (s, demo_tables) = Ret (- E_EXCEED_FILE, (s, demo_tables)) else
    exists s', fileread 256 20000 4000 off n (s, demo_tables) = Ret (moved demo_fs 900 off n, (s', demo_tables))).
  { intros off n Ho Hn Hon.
    pose proof (fileread_reads_range demo_fs demo_tables V 20000 [2; 3] 900 s D off n 4000 demo_geometry demo_device HF HV Ho Hn Hon) as Hr.
    destruct (900 <? off); [exact Hr|]. destruct Hr as (_ & _ & s' & Hr & _). by exists s'. }
  destruct (R 512 500 ltac:(lia) ltac:(lia) ltac:(lia)) as [s1 R1].
  destruct (R 500 100 ltac:(lia) ltac:(lia) ltac:(lia)) as [s2 R2].
  exists s, s1, s2. split; [exact R1|]. split; [exact R2|]. exact (R 901 1 ltac:(lia) ltac:(lia) ltac:(lia)).
Defined.

Lemma filewrite_fileread_roundtrip_witness :
  exists (s : kst sectors) s1 s2 D V,
    filewrite demo_frame 256 20000 800 600 20 (s, demo_tables) = Ret (20, (s1, demo_tables)) /\
    fileread 256 20000 4000 600 20 (s1, demo_tables) = Ret (20, (s2, demo_tables)) /\
    content V [2; 3] = splice (replicate 1024 0) 600 (mget (v_mem V) 800 20) /\ holds demo_fs s1 D V.
Proof.
  destruct demo_volume as (s & D & V & HV & HF & Hz).
  destruct (filewrite_fileread_roundtrip demo_frame demo_fs demo_tables V 20000 [2; 3] 900 s D 600 20 800 4000
    demo_geometry demo_device HF eq_refl HV) as (s1 & D1 & V1 & s2 & W & HV1 & Hc & _ & Hm & _ & R & _).
  - lia.
  - lia.
  - lia.
  - by vm_compute.
  - left. by vm_compute.
  - exists s, s1, s2, D1, V1. rewrite Hm, <- Hz. done.
Defined.

Lemma filewrite_empty_file_diverges_witness :
  filewrite demo_frame 1000 20168 800 0 5 (demo_raw, demo_tables) = NoFuel.
Proof. by apply (filewrite_empty_file_diverges demo_frame demo_fs demo_tables 20168 (demo_file 0 0) demo_raw 800 5 1000 demo_geometry). Defined.
