(* ===== verification/Dir.v ===== *)
(** Looking up a name: the directory functions of src/kernel/fs/fs.c (their
    definitions are in Fs.v) against a reference search.

    A directory is a chain of clusters of 32-byte slots. A slot is left out,
    ends the directory, holds a part of a long name, or is an entry; the name of
    an entry is the long name of the parts before it, or its own short name. The
    theorems say which entry [find_dirent_entry] finds, what it makes of it, and
    what [get_file] does with a path. *)
From S2P Require Import Prelude CString Bytes Spinlock DList Ids Proc Schedule Sleep Virt Buf Fat32 Fs.

(** ** The reference search *)

Definition byte (s : list Z) (k : nat) : Z := nth k s 0.
Definition attr (s : list Z) : Z := byte s 11.
(** The names of the two entries a directory starts with. *)
Definition dots : list Z := DOT :: replicate 10 FATDIR_DLT.
Definition ddots : list Z := DOT :: DOT :: replicate 9 FATDIR_DLT.
Definition left_out (s : list Z) : bool :=
  (byte s 0 =? FATDIR_DLT) || bool_decide (take 11 s = dots) || bool_decide (take 11 s = ddots).
Definition long (s : list Z) : bool := Z.land (attr s) 15 =? 15.
(** The low bytes of the 13 characters of a part. *)
Definition part (s : list Z) : list Z := map (byte s) [1; 3; 5; 7; 9; 14; 16; 18; 20; 22; 24; 28; 30]%nat.

Fixpoint until (c : Z) (l : list Z) : list Z := match l with [] => [] | x :: l => if x =? c then [] else x :: until c l end.
Definition short_text (s : list Z) : list Z :=
  until FATDIR_DLT (take 8 s) ++ dotted (until FATDIR_DLT (take 3 (drop 8 s))).
(** The name of an entry after the parts [acc]. *)
Definition entry_text (acc s : list Z) : list Z := match until 0 acc with [] => short_text s | w => w end.

(** The first entry whose name begins with [w], and its position. *)
Inductive verdict : Type := Hit (i : Z) (s : list Z) | Stop | More.
Fixpoint scan (w acc : list Z) (i : Z) (ss : list (list Z)) : verdict :=
  match ss with
  | [] => More
  | s :: ss =>
      if left_out s then scan w [] (i + 32) ss
      else if byte s 0 =? 0 then Stop
      else if long s then scan w (acc ++ part s) (i + 32) ss
      else if bool_decide (w `prefix_of` entry_text acc s) then Hit i s
      else scan w [] (i + 32) ss
  end.
(** ... in the clusters of a directory: a long name does not go on from one to
    the next. *)
Fixpoint search (w : list Z) (cs : list (list (list Z))) : verdict :=
  match cs with
  | [] => Stop
  | ss :: cs => match scan w [] 0 ss with More => search w cs | v => v end
  end.

(** The slots of a cluster. *)
Fixpoint slots (n : nat) (l : list Z) : list (list Z) := match n with O => [] | S n => take 32 l :: slots n (drop 32 l) end.

(** The directories the code reads as meant: an end mark is all zero where the
    code looks, a long name has at most two parts, a short name has no zero
    byte, and no name is cut short of [w] (the end of the shorter string is not
    seen by [strncmp]). *)
Fixpoint readable (w acc : list Z) (ss : list (list Z)) : Prop :=
  match ss with
  | [] => True
  | s :: ss =>
      if left_out s then readable w [] ss
      else if byte s 0 =? 0 then attr s = 0
      else byte s 0 <> DOT /\
        if long s then (length acc <= 13)%nat /\ readable w (acc ++ part s) ss
        else Forall (fun c => c <> 0) (take 11 s) /\
          if bool_decide (w `prefix_of` entry_text acc s) then True
          else ~ entry_text acc s `prefix_of` w /\ readable w [] ss
  end.

Fixpoint readable_all (w : list Z) (cs : list (list (list Z))) : Prop :=
  match cs with [] => True | ss :: cs => readable w [] ss /\ (scan w [] 0 ss = More -> readable_all w cs) end.

(** ** Bytes and strings *)

Lemma until_prefix c l : exists r, l = until c l ++ r /\ (r = [] \/ exists r', r = c :: r').
Proof.
  induction l as [|x l IH]; [by exists []; auto|]. cbn [until]. destruct (Z.eqb_spec x c) as [->|Hn]; [exists (c :: l); eauto|].
  destruct IH as (r & E & Hr). exists r. split; [cbn; by f_equal|done].
Qed.
Lemma until_not c l : Forall (fun x => x <> c) (until c l).
Proof. induction l as [|x l IH]; cbn [until]; [constructor|]. destruct (Z.eqb_spec x c); [constructor|by constructor]. Qed.

Lemma bytes_nth m a s k : bytes_at m a s -> (k < length s)%nat -> ld8 m (a + Z.of_nat k) = byte s k.
Proof.
  intros Hb Hk. apply Hb. destruct (lookup_lt_is_Some_2 s k Hk) as [c Hc]. rewrite Hc. f_equal. symmetry. unfold byte. by apply nth_lookup_Some.
Qed.
Lemma bytes_app m a l1 l2 : bytes_at m a (l1 ++ l2) <-> bytes_at m a l1 /\ bytes_at m (a + Z.of_nat (length l1)) l2.
Proof.
  split.
  - intros Hb. split; intros i c Hi; [apply Hb; by apply lookup_app_l_Some|]. rewrite <- (Hb (length l1 + i)%nat c); [f_equal; lia|].
    rewrite lookup_app_r by lia. rewrite <- Hi. f_equal. lia.
  - intros [H1 H2] i c [Hi|[Hl Hi]]%lookup_app_Some; [by apply H1|]. rewrite <- (H2 _ c Hi). f_equal. lia.
Qed.
Lemma bytes_mget m a n : bytes_at m a (mget m a n).
Proof.
  intros i c Hi. assert (Hl := lookup_lt_Some _ _ _ Hi). rewrite length_mget in Hl. rewrite lookup_mget in Hi by done. congruence.
Qed.

(** [strncmp] of two strings that agree, or differ in their first byte. *)
Lemma strncmp_loop_equal m s1 s2 l : forall idx, bytes_at m (s1 + idx) l -> bytes_at m (s2 + idx) l -> Forall (fun c => c <> 0) l ->
  strncmp_loop (length l) m s1 s2 idx = inl (idx + Z.of_nat (length l)).
Proof.
  induction l as [|c l IH]; intros idx H1 H2 Hn; cbn [length strncmp_loop].
  - rewrite Z.add_0_r. by destruct (_ || _).
  - apply bytes_at_cons in H1 as [E1 H1], H2 as [E2 H2]. apply Forall_cons in Hn as [Hc Hn]. rewrite E2, E1.
    rewrite (proj2 (Z.eqb_neq _ _) Hc), Z.eqb_refl. cbn. rewrite (IH (idx + 1)); [f_equal; lia| | |done]; by rewrite Z.add_assoc.
Qed.
Lemma strncmp_equal m s1 s2 l : bytes_at m s1 l -> bytes_at m s2 l -> Forall (fun c => c <> 0) l -> strncmp m s1 s2 (Z.of_nat (length l)) = 0.
Proof.
  intros H1 H2 Hn. unfold strncmp. rewrite Nat2Z.id, (strncmp_loop_equal m s1 s2 l 0) by (rewrite ?Z.add_0_r; done).
  by rewrite Z.add_0_l, Z.leb_refl.
Qed.
Lemma strncmp_heads m s1 s2 n : 0 < n -> ld8 m s1 <> 0 -> ld8 m s2 <> 0 -> ld8 m s1 <> ld8 m s2 -> strncmp m s1 s2 n <> 0.
Proof.
  intros Hn H1 H2 Hd. unfold strncmp. destruct (Z.to_nat n) as [|k] eqn:E; [lia|]. cbn [strncmp_loop]. rewrite !Z.add_0_r.
  rewrite (proj2 (Z.eqb_neq _ _) H1), (proj2 (Z.eqb_neq _ _) H2), (proj2 (Z.eqb_neq _ _) Hd). cbn. lia.
Qed.
Lemma strncmp_null m s1 s2 n : 0 < n -> ld8 m s1 = 0 -> ld8 m (s1 + n) = 0 -> strncmp m s1 s2 n = ld8 m s2.
Proof.
  intros Hn H1 H2. unfold strncmp. replace (strncmp_loop (Z.to_nat n) m s1 s2 0) with (inl (A := Z) (B := Z) 0).
  - rewrite (proj2 (Z.leb_gt n 0)) by lia. by rewrite H2, !Z.add_0_r.
  - destruct (Z.to_nat n); cbn [strncmp_loop]; by rewrite !Z.add_0_r, H1.
Qed.
(** Strings of which none is the start of the other. *)
Lemma strncmp_loop_differ m s1 s2 l2 : forall l1 idx, cstr m (s1 + idx) l1 -> cstr m (s2 + idx) l2 -> ~ l1 `prefix_of` l2 -> ~ l2 `prefix_of` l1 ->
  exists d, d <> 0 /\ strncmp_loop (length l2) m s1 s2 idx = inr d.
Proof.
  induction l2 as [|c2 l2 IH]; intros [|c1 l1] idx H1 H2 Hn1 Hn2; try (destruct Hn1; apply prefix_nil); try (destruct Hn2; apply prefix_nil).
  cbn [length strncmp_loop cstr] in *. destruct H1 as (E1 & Hc1 & H1), H2 as (E2 & Hc2 & H2). rewrite E1, E2.
  rewrite (proj2 (Z.eqb_neq _ _) Hc1), (proj2 (Z.eqb_neq _ _) Hc2). cbn [orb]. destruct (Z.eqb_spec c1 c2) as [->|Hne]; cbn [negb].
  - apply (IH l1); [by rewrite Z.add_assoc|by rewrite Z.add_assoc| |]; intros Hp; [apply Hn1|apply Hn2]; by apply prefix_cons.
  - exists (c1 - c2). split; [lia|done].
Qed.
Lemma strncmp_prefix m s1 s2 l1 l2 : cstr m s1 l1 -> cstr m s2 l2 -> (~ l2 `prefix_of` l1 -> ~ l1 `prefix_of` l2) ->
  (strncmp m s1 s2 (Z.of_nat (length l2)) =? 0) = bool_decide (l2 `prefix_of` l1).
Proof.
  intros H1 H2 Hd. destruct (decide (l2 `prefix_of` l1)) as [Hp|Hp].
  - rewrite bool_decide_eq_true_2 by done. apply Z.eqb_eq. destruct Hp as [r ->].
    apply cstr_bytes_at in H1 as (H1 & _), H2 as (H2 & Hn & _). apply bytes_app in H1 as [H1 _]. by apply strncmp_equal.
  - rewrite bool_decide_eq_false_2 by done. apply Z.eqb_neq. unfold strncmp. rewrite Nat2Z.id.
    destruct (strncmp_loop_differ m s1 s2 l2 l1 0) as (d & Hd0 & ->); rewrite ?Z.add_0_r; auto.
Qed.

(** ** Slots in memory *)

Section Slots.
Context (fr : frame).

(** The literals of [is_invalid_entry]. *)
Definition literals (m : mem) : Prop := bytes_at m (lit_dot fr) dots /\ bytes_at m (lit_dotdot fr) ddots.

Lemma slot_take m e s k : bytes_at m e s -> bytes_at m e (take k s).
Proof. intros Hb. rewrite <- (take_drop k s) in Hb. by apply bytes_app in Hb as [? _]. Qed.

Lemma is_invalid_entry_ok m e s : literals m -> bytes_at m e s -> length s = 32%nat ->
  (left_out s = false -> if byte s 0 =? 0 then attr s = 0 else byte s 0 <> DOT) ->
  is_invalid_entry fr m e = if left_out s then 0 else if byte s 0 =? 0 then -1 else 1.
Proof.
  intros [Hd Hdd] Hs Hl Hok. unfold is_invalid_entry. assert (H0 := bytes_nth m e s 0 Hs ltac:(lia)). rewrite Z.add_0_r in H0. rewrite H0.
  assert (H11 := bytes_nth m e s 11 Hs ltac:(lia)). change (e + Z.of_nat 11) with (e + SHORT_NAME_LEN) in H11.
  assert (Hd0 : ld8 m (lit_dot fr) = DOT) by (apply bytes_at_cons in Hd; tauto). assert (Hdd0 : ld8 m (lit_dotdot fr) = DOT) by (apply bytes_at_cons in Hdd; tauto).
  unfold left_out in *. destruct (Z.eqb_spec (byte s 0) FATDIR_DLT) as [E|E]; [done|]. cbn [orb] in *.
  assert (Hn1 : Forall (fun c => c <> 0) dots) by (repeat constructor; done). assert (Hn2 : Forall (fun c => c <> 0) ddots) by (repeat constructor; done).
  destruct (decide (take 11 s = dots)) as [Ed|Nd].
  { rewrite bool_decide_eq_true_2 by done. cbn [orb]. assert (Hst := slot_take m e s 11 Hs). rewrite Ed in Hst.
    change SHORT_NAME_LEN with (Z.of_nat (length dots)). by rewrite (strncmp_equal _ _ _ _ Hst Hd Hn1). }
  rewrite (bool_decide_eq_false_2 (take 11 s = dots)) in * by done. destruct (decide (take 11 s = ddots)) as [Ed|Ndd].
  { rewrite bool_decide_eq_true_2 by done. cbn [orb]. assert (Hst := slot_take m e s 11 Hs). rewrite Ed in Hst.
    change SHORT_NAME_LEN with (Z.of_nat (length ddots)). by rewrite (strncmp_equal _ _ _ _ Hst Hdd Hn2), orb_true_r. }
  rewrite (bool_decide_eq_false_2 (take 11 s = ddots)) in * by done. cbn [orb] in *. specialize (Hok eq_refl).
  assert (Hne : forall lit, ld8 m lit = DOT -> strncmp m e lit SHORT_NAME_LEN <> 0).
  { intros lit Hlit. destruct (Z.eqb_spec (byte s 0) 0) as [Ez|Nz].
    - rewrite strncmp_null; [by rewrite Hlit|done|by rewrite H0|by rewrite H11].
    - apply strncmp_heads; [done|by rewrite H0|by rewrite Hlit|by rewrite H0, Hlit]. }
  by rewrite (proj2 (Z.eqb_neq _ _) (Hne _ Hd0)), (proj2 (Z.eqb_neq _ _) (Hne _ Hdd0)).
Qed.

(** *** Parts of long names *)

Lemma wstr2str_loop_ok src dst k : forall m i, 0 <= i -> dst + i + Z.of_nat k <= src \/ src + 2 * (i + Z.of_nat k) <= dst + i ->
  let m' := fst (wstr2str_loop k m dst src i) in
  (forall j, i <= j < i + Z.of_nat k -> ld8 m' (dst + j) = ld8 m (src + 2 * j)) /\
  (forall a, a < dst + i \/ dst + i + Z.of_nat k <= a -> ld8 m' a = ld8 m a).
Proof.
  induction k as [|k IH]; intros m i Hi Hd; cbn [wstr2str_loop]; [split; [lia|done]|].
  destruct (IH (st8 m (dst + i) (ld8 m (src + i * 2))) (i + 1)) as [Hin Hout]; [lia|lia|]. cbv zeta in *. split.
  - intros j Hj. destruct (Z.eq_dec j i) as [->|Hne].
    + rewrite Hout by lia. rewrite ld8_st8, Z.eqb_refl. rewrite u8_small by apply ld8_range. f_equal. lia.
    + rewrite Hin by lia. apply ld8_st8_ne. lia.
  - intros a Ha. rewrite Hout by lia. apply ld8_st8_ne. lia.
Qed.
Lemma wstr2str_ok m dst src n : 0 <= n -> dst + n <= src \/ src + 2 * n <= dst ->
  let m' := fst (wstr2str m dst src (2 * n)) in
  (forall j, 0 <= j < n -> ld8 m' (dst + j) = ld8 m (src + 2 * j)) /\ (forall a, a < dst \/ dst + n <= a -> ld8 m' a = ld8 m a).
Proof.
  intros Hn Hd. unfold wstr2str. rewrite Z.mul_comm, Z.quot_mul by lia.
  destruct (wstr2str_loop_ok src dst (Z.to_nat n) m 0) as [H1 H2]; [lia|lia|]. cbv zeta in *. split; intros; [apply H1|apply H2]; lia.
Qed.

(** [rawName] holds the parts [acc] and zeros after them. *)
Definition parts_at (m : mem) (a : Z) (acc : list Z) : Prop := bytes_at m a (acc ++ replicate (32 - length acc) 0).

Lemma handle_long_file_name_ok m buf i seq a acc s : bytes_at m (buf + i) s -> length s = 32%nat -> parts_at m a acc -> (length acc <= 13)%nat ->
  buf + i + 32 <= a \/ a + 32 <= buf + i ->
  exists m' q, handle_long_file_name m buf i seq a (Z.of_nat (length acc)) = (m', (q, Z.of_nat (length (acc ++ part s)))) /\
    parts_at m' a (acc ++ part s) /\ (forall p, p < a \/ a + 32 <= p -> ld8 m' p = ld8 m p).
Proof.
  intros Hs Hl Ha Hlen Hd. unfold handle_long_file_name. set (n := Z.of_nat (length acc)) in *. set (e := buf + i) in *. set (q := FATLDIR_SEQ _).
  set (m0 := if seq then st8 m (a + (n + 13)) 0 else m).
  assert (H0 : forall p, ld8 m0 p = ld8 m p).
  { intros p. unfold m0. destruct seq; [|done]. rewrite ld8_st8. destruct (Z.eqb_spec p (a + (n + 13))) as [->|]; [|done]. symmetry.
    replace (a + (n + 13)) with (a + Z.of_nat (length acc + 13)) by lia. apply Ha. rewrite lookup_app_r by lia. apply lookup_replicate. split; [done|lia]. }
  change 10 with (2 * 5). change 12 with (2 * 6). change 4 with (2 * 2).
  destruct (wstr2str_ok m0 (a + n) (e + 1) 5) as [I1 O1]; [lia|lia|]. cbv zeta in I1, O1. set (m1 := fst (wstr2str m0 (a + n) (e + 1) (2 * 5))) in *.
  destruct (wstr2str_ok m1 (a + 5 + n) (e + 14) 6) as [I2 O2]; [lia|lia|]. cbv zeta in I2, O2. set (m2 := fst (wstr2str m1 (a + 5 + n) (e + 14) (2 * 6))) in *.
  destruct (wstr2str_ok m2 (a + 11 + n) (e + 28) 2) as [I3 O3]; [lia|lia|]. cbv zeta in I3, O3. set (m3 := fst (wstr2str m2 (a + 11 + n) (e + 28) (2 * 2))) in *.
  assert (Hpart : length (part s) = 13%nat) by done.
  exists m3, q. split; [by rewrite length_app, Hpart, s32_small by lia; do 2 f_equal; lia|]. split.
  2:{ intros p Hp. rewrite O3, O2, O1 by lia. apply H0. }
  unfold parts_at in *. rewrite <- app_assoc. apply bytes_app in Ha as [Hacc Hz]. apply bytes_app. split.
  { eapply bytes_at_ext; [|exact Hacc]. intros p Hp. rewrite O3, O2, O1 by lia. apply H0. }
  fold n in Hz |- *. apply bytes_app. split.
  - assert (Hget : forall k, (k < 32)%nat -> ld8 m0 (e + Z.of_nat k) = byte s k) by (intros k Hk; rewrite H0; apply bytes_nth; [done|lia]).
    intros k c Hk. assert (Hk13 := lookup_lt_Some _ _ _ Hk). rewrite Hpart in Hk13.
    assert (Ec : c = byte s (nth k [1; 3; 5; 7; 9; 14; 16; 18; 20; 22; 24; 28; 30] 0)%nat).
    { do 13 (destruct k as [|k]; [by injection Hk as <-|]). lia. } clear Hk. rewrite Ec. clear Ec.
    destruct (decide (k < 5)%nat) as [K|K]; [|destruct (decide (k < 11)%nat) as [K2|K2]].
    + rewrite O3, O2 by lia. rewrite I1 by lia. rewrite <- Hget by (do 5 (destruct k as [|k]; [cbn; lia|]); lia). f_equal. do 5 (destruct k as [|k]; [cbn; lia|]). lia.
    + rewrite O3 by lia. replace (a + n + Z.of_nat k) with (a + 5 + n + (Z.of_nat k - 5)) by lia. rewrite I2, O1 by lia.
      rewrite <- Hget by (do 11 (destruct k as [|k]; [cbn; lia|]); lia). f_equal. do 11 (destruct k as [|k]; [cbn; lia|]). lia.
    + replace (a + n + Z.of_nat k) with (a + 11 + n + (Z.of_nat k - 11)) by lia. rewrite I3, O2, O1 by lia.
      rewrite <- Hget by (do 13 (destruct k as [|k]; [cbn; lia|]); lia). f_equal. do 13 (destruct k as [|k]; [cbn; lia|]). lia.
  - rewrite length_app, Hpart. replace (32 - length acc)%nat with (13 + (32 - (length acc + 13)))%nat in Hz by lia.
    rewrite replicate_add in Hz. apply bytes_app in Hz as [_ Hz]. rewrite length_replicate in Hz.
    eapply bytes_at_ext; [|exact Hz]. intros p Hp. rewrite length_replicate in Hp. rewrite O3, O2, O1 by lia. apply H0.
Qed.

(** *** Names *)

Lemma until_padding m a c l n : bytes_at m a l -> (length l <= n)%nat -> (length (until c l) < length l)%nat -> ld8 m (a + Z.of_nat (length (until c l))) = c.
Proof.
  intros Hb Hn Hl. destruct (until_prefix c l) as (r & E & [->|(r' & ->)]).
  - rewrite app_nil_r in E. rewrite <- E in Hl. lia.
  - apply Hb. assert (Hx := list_lookup_middle (until c l) r' c _ eq_refl). by rewrite <- E in Hx.
Qed.
Lemma until_sub c l : until c l `prefix_of` l.
Proof. destruct (until_prefix c l) as (r & E & _). by exists r. Qed.
Lemma Forall_until (P : Z -> Prop) c l : Forall P l -> Forall P (until c l).
Proof. destruct (until_prefix c l) as (r & E & _). intros HF. rewrite E in HF. by apply Forall_app in HF as [? _]. Qed.

Lemma short_text_nonzero s : Forall (fun c => c <> 0) (take 11 s) -> Forall (fun c => c <> 0) (short_text s).
Proof.
  intros HF. unfold short_text. assert (H1 : Forall (fun c => c <> 0) (take 8 s)).
  { replace (take 8 s) with (take 8 (take 11 s)) by by rewrite take_take. by apply Forall_take. }
  assert (H2 : Forall (fun c => c <> 0) (take 3 (drop 8 s))).
  { replace (take 3 (drop 8 s)) with (drop 8 (take 11 s)) by exact (skipn_firstn_comm 8 11 s). by apply Forall_drop. }
  apply Forall_app. split; [by apply Forall_until|]. apply (Forall_until _ FATDIR_DLT) in H2. destruct (until _ _); [constructor|by constructor].
Qed.
Lemma short_text_length s : (length (short_text s) <= 12)%nat.
Proof.
  unfold short_text. rewrite length_app. assert (H1 := prefix_length _ _ (until_sub FATDIR_DLT (take 8 s))). rewrite length_take in H1.
  assert (H2 := prefix_length _ _ (until_sub FATDIR_DLT (take 3 (drop 8 s)))). rewrite length_take in H2.
  set (b := until FATDIR_DLT (take 8 s)) in *. set (e := until FATDIR_DLT (take 3 (drop 8 s))) in *.
  assert (H3 : (length e <= 3)%nat) by lia. assert (H4 : (length b <= 8)%nat) by lia. clearbody b e. destruct e; cbn [length dotted] in *; lia.
Qed.

Lemma short_name_ok m d e s : bytes_at m e s -> length s = 32%nat -> Forall (fun c => c <> 0) (take 11 s) -> e + 32 <= d \/ d + 32 <= e ->
  let m' := fst (read_fat32_short_name m d e) in cstr m' d (short_text s) /\ forall a, a < d \/ d + 32 <= a -> ld8 m' a = ld8 m a.
Proof.
  intros Hs Hl Hnz Hd. assert (Hb := slot_take m e s 8 Hs).
  assert (He : bytes_at m (e + 8) (take 3 (drop 8 s))).
  { apply slot_take. rewrite <- (take_drop 8 s) in Hs. apply bytes_app in Hs as [_ Hs]. by rewrite length_take, Hl in Hs. }
  assert (Hlb : length (take 8 s) = 8%nat) by (rewrite length_take; lia). assert (Hle : length (take 3 (drop 8 s)) = 3%nat) by (rewrite length_take, length_drop; lia).
  assert (P1 := prefix_length _ _ (until_sub FATDIR_DLT (take 8 s))). assert (P2 := prefix_length _ _ (until_sub FATDIR_DLT (take 3 (drop 8 s)))).
  destruct (read_fat32_short_name_ok m e d (until FATDIR_DLT (take 8 s)) (until FATDIR_DLT (take 3 (drop 8 s)))) as (m2 & R & Hc & Hf).
  - rewrite Z.add_0_r. destruct (until_prefix FATDIR_DLT (take 8 s)) as (r & E & _). rewrite E in Hb. by apply bytes_app in Hb as [? _].
  - destruct (until_prefix FATDIR_DLT (take 3 (drop 8 s))) as (r & E & _). rewrite E in He. by apply bytes_app in He as [? _].
  - intros Hlt. apply (until_padding m e _ _ 8 Hb); lia.
  - intros Hlt. apply (until_padding m (e + 8) _ _ 3 He); lia.
  - apply until_not.
  - apply until_not.
  - exact (short_text_nonzero s Hnz).
  - lia.
  - lia.
  - lia.
  - rewrite R. cbn [fst]. split; [exact Hc|]. intros a Ha. apply Hf. lia.
Qed.

(** The long name is a string as far as its first zero. *)
Lemma parts_cstr m a acc : parts_at m a acc -> (length acc <= 26)%nat -> cstr m a (until 0 acc).
Proof.
  intros Ha Hl. apply cstr_bytes_at. destruct (until_prefix 0 acc) as (r & E & Hr). unfold parts_at in Ha. rewrite E in Ha at 1. rewrite <- app_assoc in Ha.
  apply bytes_app in Ha as [Hb Hz]. split; [done|]. split; [apply until_not|]. destruct Hr as [->|(r' & ->)].
  - cbn [app] in Hz. replace (32 - length acc)%nat with (Datatypes.S (31 - length acc)) in Hz by lia. by apply bytes_at_cons in Hz as [? _].
  - by apply bytes_at_cons in Hz as [? _].
Qed.
End Slots.

(** ** An entry of the directory becomes a [struct dirent] *)

Definition e_clus (s : list Z) : Z := cal_cluster_pos (ld16 (bytes_mem s) 20) (ld16 (bytes_mem s) 26).
Definition e_size (s : list Z) : Z := ld32 (bytes_mem s) 28.
Definition e_dir (s : list Z) : bool := negb (Z.land (attr s) ATTR_DIRECTORY =? 0).
(** What is written over the entry [e0]. The name has no terminator of its own. *)
Definition made_of (e0 : dirent) (fs parent : addr) (w s : list Z) : dirent :=
  mkDirent (splice (d_name e0) 0 w) (e_size s) (e_clus s) (d_offset e0) (if e_dir s then DIR_DIR else DIR_FILE) fs 1 parent (attr s) (d_flag e0).

(** The tables after entry [s] at offset [i] of the directory [parent] was
    found: [d] is the entry, and [parent], which may be [d] itself, gets the
    offset. *)
Record found (d parent i : Z) (w s : list Z) (t t' : fsst) : Prop := {
  fo_entry : exists e0 pe, ft_dirs t !! d = Some e0 /\ ft_dirs t !! parent = Some pe /\
    ft_dirs t' !! d = Some ((if d =? parent then set_d_offset i else id) (made_of e0 (d_fs pe) parent w s)) /\
    (d <> parent -> ft_dirs t' !! parent = Some (set_d_offset i pe));
  fo_others : forall a, a <> d -> a <> parent -> ft_dirs t' !! a = ft_dirs t !! a;
  fo_links : unchanged_but [head_of (child_of d); tail_of (child_of d)] (ft_links t) (ft_links t');
  fo_tables : ft_tab t' = ft_tab t /\ fat_fs t' = fat_fs t /\ fd_bitmap t' = fd_bitmap t /\ ft_files t' = ft_files t
}.

Lemma bytes_mem_at s m e k : bytes_at m e s -> (k < length s)%nat -> ld8 m (e + Z.of_nat k) = ld8 (bytes_mem s) (Z.of_nat k).
Proof.
  intros Hb Hk. destruct (lookup_lt_is_Some_2 s k Hk) as [c Hc]. rewrite (Hb k c Hc). unfold ld8. rewrite (bytes_mem_lookup s k c Hc).
  rewrite <- (Hb k c Hc). symmetry. apply u8_small, ld8_range.
Qed.
Lemma ldn_bytes_mem s m e n k : bytes_at m e s -> (k + n <= length s)%nat -> ldn n m (e + Z.of_nat k) = ldn n (bytes_mem s) (Z.of_nat k).
Proof.
  intros Hb. revert k. induction n as [|n IH]; intros k Hk; cbn [ldn]; [done|]. rewrite (bytes_mem_at s m e k Hb) by lia.
  replace (e + Z.of_nat k + 1) with (e + Z.of_nat (Datatypes.S k)) by lia. replace (Z.of_nat k + 1) with (Z.of_nat (Datatypes.S k)) by lia.
  by rewrite IH by lia.
Qed.
Lemma entry_fields m e s : bytes_at m e s -> length s = 32%nat ->
  file_attribute m e = attr s /\ cal_cluster_pos (dir_FstClusHI m e) (dir_FstClusLO m e) = e_clus s /\ dir_FileSize m e = e_size s /\
  is_long_file_name m e = long s.
Proof.
  intros Hs Hl. assert (Ha : file_attribute m e = attr s) by (apply (bytes_nth m e s 11 Hs); lia). split; [done|].
  unfold dir_FstClusHI, dir_FstClusLO, dir_FileSize, e_clus, e_size, is_long_file_name. rewrite Ha. split_and!; [| |done].
  - f_equal; [apply (ldn_bytes_mem s m e 2 20 Hs)|apply (ldn_bytes_mem s m e 2 26 Hs)]; lia.
  - apply (ldn_bytes_mem s m e 4 28 Hs). lia.
Qed.

Section Lookup.
Context {S : Type} `{CacheLaws S} `{Pages S}.
Context (fr : frame) (x : filesystem) (vf : Z -> Z) (vc : Z -> list Z).

(** The memory is [m] and the volume is given by [vf] and [vc]. *)
Definition stands (b : S) (D : Z -> list Z) (m : mem) : Prop := holds x b D (mkVol vf vc m).

Lemma stands_mem b D m : stands b D m -> lget b = m.
Proof. intros [_ Hm _ _]. exact Hm. Qed.
Lemma stands_put b D m m' : stands b D m -> stands (lput m' b) D m'.
Proof. intros [Hc _ Hf Hx]. split; [by apply cached_mem|by rewrite lget_lput|done|done]. Qed.
Lemma the_mem_ok {A} (f : mem -> A) b D m (t : fsst) : stands b D m -> the_mem f (b, t) = Ret (f m, (b, t)).
Proof. intros Hs. unfold the_mem. apply base_ok. unfold kget. by rewrite (stands_mem _ _ _ Hs). Qed.
Lemma mem_do_ok {A} (f : mem -> mem * A) b D m (t : fsst) : stands b D m -> mem_do f (b, t) = Ret (snd (f m), (lput (fst (f m)) b, t)).
Proof. intros Hs. unfold mem_do. apply base_ok. rewrite (stands_mem _ _ _ Hs). by destruct (f m). Qed.
Lemma mem_set_ok (f : mem -> mem) b D m (t : fsst) : stands b D m -> mem_set f (b, t) = Ret (tt, (lput (f m) b, t)).
Proof. intros Hs. unfold mem_set. by rewrite (mem_do_ok _ b D m t Hs). Qed.
Lemma res_k_ok {A} (f : mem -> res A) a b D m (t : fsst) : stands b D m -> f m = Ret a -> res_k f (b, t) = Ret (a, (b, t)).
Proof. intros Hs Hf. unfold res_k. cbn [fst]. by rewrite (stands_mem _ _ _ Hs), Hf. Qed.

(** *** The local arrays *)

(** Pages of the allocator lie between [plo] and [phi]. *)
Context (plo phi : Z).
Definition scratch (p : Z) : Prop := fr_name fr <= p < fr_name fr + 32 \/ fr_tname fr <= p < fr_tname fr + 32 \/ plo <= p < phi.
Definition apart (a n : Z) : Prop := forall p, a <= p < a + n -> ~ scratch p.
Definition agree (m m' : mem) : Prop := forall p, ~ scratch p -> ld8 m' p = ld8 m p.
Record laid_out : Prop := {
  lo_arrays : fr_name fr + 32 <= fr_tname fr \/ fr_tname fr + 32 <= fr_name fr;
  lo_name : fr_name fr + 32 <= plo \/ phi <= fr_name fr;
  lo_tname : fr_tname fr + 32 <= plo \/ phi <= fr_tname fr;
  lo_dot : apart (lit_dot fr) 11;
  lo_dotdot : apart (lit_dotdot fr) 11
}.
Context (HL : laid_out).

Lemma agree_refl m : agree m m.
Proof. by intros p _. Qed.
Lemma agree_trans m1 m2 m3 : agree m1 m2 -> agree m2 m3 -> agree m1 m3.
Proof. intros A1 A2 p Hp. by rewrite A2, A1. Qed.
Lemma agree_bytes m m' a l : agree m m' -> apart a (Z.of_nat (length l)) -> bytes_at m a l -> bytes_at m' a l.
Proof. intros Ha Hp. apply bytes_at_ext. intros p Hp'. apply Ha, Hp. lia. Qed.
Lemma agree_cstr m m' a l : agree m m' -> apart a (Z.of_nat (length l) + 1) -> cstr m a l -> cstr m' a l.
Proof. intros Ha Hp. apply cstr_ext. intros p Hp'. apply Ha, Hp. lia. Qed.
Lemma agree_literals m m' : agree m m' -> literals fr m -> literals fr m'.
Proof. intros Ha [L1 L2]. split; [apply (agree_bytes m m'); [done|apply HL|done]|apply (agree_bytes m m'); [done|apply HL|done]]. Qed.
Lemma agree_name m m' : (forall p, p < fr_name fr \/ fr_name fr + 32 <= p -> ld8 m' p = ld8 m p) -> agree m m'.
Proof. intros Ho p Hp. apply Ho. unfold scratch in Hp. lia. Qed.
Lemma agree_tname m m' : (forall p, p < fr_tname fr \/ fr_tname fr + 32 <= p -> ld8 m' p = ld8 m p) -> agree m m'.
Proof. intros Ho p Hp. apply Ho. unfold scratch in Hp. lia. Qed.

(** The name of an entry goes to [_name]. *)
Lemma entry_name_ok e acc s b D m t : stands b D m -> parts_at m (fr_tname fr) acc -> (length acc <= 26)%nat -> bytes_at m e s -> length s = 32%nat ->
  long s = false -> Forall (fun c => c <> 0) (take 11 s) -> plo <= e /\ e + 32 <= phi ->
  exists m1, (forall A (k : K (S * fsst) A),
    (c <- the_mem (fun m => ld8 m (fr_tname fr)) ;;
     (if negb (c =? 0) then
        n <- res_k (fun m => strlen 256 m (fr_tname fr)) ;; mem_set (fun m => fst (strncpy m (fr_name fr) (fr_tname fr) n))
      else mem_set (fun m => fill_file_name m (fr_name fr) e)) ;; k) (b, t) = k (lput m1 b, t)) /\
    cstr m1 (fr_name fr) (entry_text acc s) /\ (forall p, p < fr_name fr \/ fr_name fr + 32 <= p -> ld8 m1 p = ld8 m p).
Proof.
  intros Hs Ha Hl He Hls Hlong Hnz Hp. assert (Hc := parts_cstr _ _ _ Ha Hl). assert (Hu := prefix_length _ _ (until_sub 0 acc)).
  assert (Harr := lo_arrays HL). unfold entry_text. destruct (until 0 acc) as [|c w].
  - cbn [cstr] in Hc. destruct (short_name_ok m (fr_name fr) e s He Hls Hnz) as [Hn Ho]; [assert (Hx := lo_name HL); lia|]. cbv zeta in *.
    exists (fst (read_fat32_short_name m (fr_name fr) e)). split; [|by split]. intros A k. erewrite kbind_ret by by eapply the_mem_ok.
    rewrite Hc. cbn [Z.eqb negb]. erewrite kbind_ret by by eapply mem_set_ok. unfold fill_file_name.
    destruct (entry_fields m e s He Hls) as (_ & _ & _ & ->). by rewrite Hlong.
  - destruct (strncpy_terminates_string m (fr_name fr) (fr_tname fr) (Z.of_nat (length (c :: w))) (c :: w)) as (m1 & E & Hc1 & Ho); [cbn [length] in *; lia|done|lia|].
    rewrite Nat2Z.id, firstn_all in Hc1, Ho. exists m1. split; [|split; [done|intros p Hp'; apply Ho; lia]]. intros A k. erewrite kbind_ret by by eapply the_mem_ok.
    destruct Hc as (Hc0 & Hcn & Hc'). rewrite Hc0, (proj2 (Z.eqb_neq _ _) Hcn). cbn [negb]. erewrite kbind_ret; [reflexivity|].
    erewrite kbind_ret; [|eapply res_k_ok; [exact Hs|apply (strlen_cstr 256 m _ (c :: w)); [done|lia]]]. rewrite (mem_set_ok _ b D m t Hs), E. done.
Qed.

(** *** Filling in the entry *)

Lemma setd_step {A} (f : dirent -> dirent) d (b : S) t e (k : K (S * fsst) A) : ft_dirs t !! d = Some e ->
  (setd f d ;; k) (b, t) = k (b, put_dirs (<[d := f e]> (ft_dirs t)) t).
Proof. intros E. by erewrite kbind_ret by by apply set_ok. Qed.
Lemma flinks_ok {A} (m : K store A) (b : S) t a l : m (ft_links t) = Ret (a, l) -> flinks m (b, t) = Ret (a, (b, put_flinks l t)).
Proof. intros E. unfold flinks, tabs, zoom. cbn. by rewrite E. Qed.
Lemma mget_bytes m a l : bytes_at m a l -> mget m a (length l) = l.
Proof. intros Hb. apply mget_eq; [done|]. intros i Hi. destruct (lookup_lt_is_Some_2 l i Hi) as [c Hc]. by rewrite Hc, (Hb i c Hc). Qed.

(** The fields that [match_dirent_entry] sets, before the type and the name. *)
Definition half_made (e0 : dirent) (fs parent : addr) (s : list Z) : dirent :=
  mkDirent (d_name e0) (e_size s) (e_clus s) (d_offset e0) (d_type e0) fs 1 parent (attr s) (d_flag e0).
Definition live_child (t : fsst) (d : addr) : Prop := live (ft_links t) (head_of (child_of d)) /\ live (ft_links t) (tail_of (child_of d)) /\ child_of d <> NULL /\ tail_of (child_of d) <> NULL.

Lemma init_child (c : bool) d (b : S) t : live_child t d ->
  exists l, kwhen c (flinks (list_init (child_of d))) (b, t) = Ret (tt, (b, put_flinks l t)) /\
    unchanged_but [head_of (child_of d); tail_of (child_of d)] (ft_links t) l.
Proof.
  intros (L1 & L2 & L3 & L4). destruct c; cbn [kwhen].
  - destruct (list_init_ok (ft_links t) (child_of d)) as (l & E & _ & Hu); [done..|]. exists l. split; [by apply flinks_ok|done].
  - exists (ft_links t). split; [by destruct t|apply unchanged_refl].
Qed.

Lemma name_into_ok d name w b D m t e : stands b D m -> cstr m name w -> (length w <= 64)%nat -> ft_dirs t !! d = Some e ->
  name_into d name (Z.of_nat (length w)) (b, t) = Ret (tt, (b, put_dirs (<[d := set_d_name (splice (d_name e) 0 w) e]> (ft_dirs t)) t)).
Proof.
  intros Hs Hn Hw He. unfold name_into. rewrite (proj2 (Z.ltb_ge _ _)) by (unfold MAXLEN; lia). erewrite kbind_ret by by eapply the_mem_ok.
  rewrite Nat2Z.id, (mget_bytes m name w) by (by apply cstr_bytes_at in Hn as [? _]). etransitivity; [apply set_ok; exact He|done].
Qed.

Lemma fill_in_ok e s d parent i w name b D m t e0 pe :
  stands b D m -> bytes_at m e s -> length s = 32%nat -> cstr m name w -> (length w <= 64)%nat -> live_child t d ->
  ft_dirs t !! d = Some e0 -> ft_dirs t !! parent = Some pe ->
  exists t',
    (pf <- getd d_fs parent ;;
     setd (set_d_fs pf) d ;;
     clus <- the_mem (fun m => cal_cluster_pos (dir_FstClusHI m e) (dir_FstClusLO m e)) ;;
     setd (set_first_cluster clus) d ;;
     size <- the_mem (fun m => dir_FileSize m e) ;;
     setd (set_d_size size) d ;;
     mode <- the_mem (fun m => file_attribute m e) ;;
     setd (set_d_mode mode) d ;;
     setd (set_d_parent parent) d ;;
     setd (set_linkcnt 1) d ;;
     np <- getd d_parent d ;;
     setd (set_d_offset i) np ;;
     let is_dir := negb (Z.land mode ATTR_DIRECTORY =? 0) in
     setd (set_d_type (if is_dir then DIR_DIR else DIR_FILE)) d ;;
     kwhen is_dir (flinks (list_init (child_of d))) ;;
     n <- res_k (fun m => strlen 256 m name) ;;
     name_into d name n ;;
     kret true) (b, t) = Ret (true, (b, t')) /\ found d parent i w s t t'.
Proof.
  intros Hs He Hl Hn Hw Hlive H0' Hp. destruct (entry_fields m e s He Hl) as (Ea & Ec & Es & _).
  erewrite kbind_ret by by apply getd_ok. erewrite setd_step by exact H0'.
  repeat (erewrite kbind_ret by (by eapply the_mem_ok); rewrite ?Ea, ?Ec, ?Es; erewrite setd_step by apply lookup_insert_eq; cbn [ft_dirs put_dirs]; rewrite insert_insert_eq).
  do 2 (erewrite setd_step by apply lookup_insert_eq; cbn [ft_dirs put_dirs]; rewrite insert_insert_eq).
  set (e6 := half_made e0 (d_fs pe) parent s). match goal with |- exists t', _ (b, ?t6) = _ /\ _ => change t6 with (put_dirs (<[d := e6]> (ft_dirs t)) t) end.
  erewrite kbind_ret by (apply getd_ok; apply lookup_insert_eq). change (d_parent e6) with parent.
  set (p1 := if decide (d = parent) then e6 else pe). set (e7 := if decide (d = parent) then set_d_offset i e6 else e6).
  assert (Hp1 : <[d := e6]> (ft_dirs t) !! parent = Some p1).
  { unfold p1. destruct (decide (d = parent)) as [->|Hne]; [apply lookup_insert_eq|by rewrite lookup_insert_ne]. }
  erewrite setd_step by exact Hp1. cbn [ft_dirs put_dirs]. set (D2 := <[parent := set_d_offset i p1]> (<[d := e6]> (ft_dirs t))).
  assert (Hd2 : D2 !! d = Some e7).
  { unfold D2, e7, p1. destruct (decide (d = parent)) as [->|Hne]; [apply lookup_insert_eq|]. rewrite lookup_insert_ne by done. apply lookup_insert_eq. }
  erewrite setd_step by exact Hd2. cbn [ft_dirs put_dirs]. set (ty := if negb _ then DIR_DIR else DIR_FILE).
  match goal with |- exists t', _ (b, ?t8) = _ /\ _ => destruct (init_child (negb (Z.land (attr s) ATTR_DIRECTORY =? 0)) d b t8 Hlive) as (l & El & Hu) end.
  erewrite kbind_ret by exact El. erewrite kbind_ret by (eapply res_k_ok; [exact Hs|by apply (strlen_cstr 256 m name w); [|lia]]).
  erewrite kbind_ret by (eapply name_into_ok; [exact Hs|exact Hn|done|apply lookup_insert_eq]). eexists. split; [reflexivity|].
  cbn [ft_dirs put_dirs put_flinks]. rewrite insert_insert_eq. split; cbn [ft_dirs put_dirs ft_links put_flinks ft_tab fat_fs fd_bitmap ft_files]; [| |done|done].
  - exists e0, pe. split; [done|]. split; [done|]. rewrite lookup_insert_eq. split.
    + unfold e7. destruct (decide (d = parent)) as [->|Hne]; [by rewrite Z.eqb_refl|by rewrite (proj2 (Z.eqb_neq _ _) Hne)].
    + intros Hne. rewrite lookup_insert_ne by done. unfold D2. rewrite lookup_insert_eq. unfold p1. by rewrite decide_False.
  - intros a Ha Hap. rewrite lookup_insert_ne by done. unfold D2. by rewrite !lookup_insert_ne by done.
Qed.

(** *** One entry, and the entries of a cluster *)

(** Only the two local arrays change. *)
Definition quiet (m m' : mem) : Prop :=
  forall p, (p < fr_name fr \/ fr_name fr + 32 <= p) -> (p < fr_tname fr \/ fr_tname fr + 32 <= p) -> ld8 m' p = ld8 m p.
Lemma quiet_trans m1 m2 m3 : quiet m1 m2 -> quiet m2 m3 -> quiet m1 m3.
Proof. intros Q1 Q2 p Hp Hq. by rewrite Q2, Q1. Qed.
Lemma quiet_agree m m' : quiet m m' -> agree m m'.
Proof. intros Hq p Hp. unfold scratch in Hp. apply Hq; lia. Qed.
Lemma quiet_page m m' a l : quiet m m' -> plo <= a -> a + Z.of_nat (length l) <= phi -> bytes_at m a l -> bytes_at m' a l.
Proof. intros Hq H1' H2'. apply bytes_at_ext. intros p Hp. assert (A := lo_name HL). assert (B := lo_tname HL). apply Hq; lia. Qed.
Lemma clear_ok m : parts_at (memset m (fr_tname fr) 0 MAX_FILE_NAME_LEN) (fr_tname fr) [] /\ quiet m (memset m (fr_tname fr) 0 MAX_FILE_NAME_LEN).
Proof.
  change MAX_FILE_NAME_LEN with 32. split.
  - intros i c Hi. cbn [app length Nat.sub] in Hi. apply lookup_replicate in Hi as [-> Hi]. by rewrite memset_in by lia.
  - intros p _ Hp. apply memset_out; lia.
Qed.

(** The name that is looked up is outside of what is written. *)
Context (name : Z) (w : list Z) (Hapart : apart name (Z.of_nat (length w) + 1)) (Hw : (length w <= 64)%nat).
(** The entry to fill in and the directory exist. *)
Definition ready (d parent : addr) (t : fsst) : Prop := is_Some (ft_dirs t !! d) /\ is_Some (ft_dirs t !! parent) /\ live_child t d.

Lemma match_dirent_entry_ok e acc s d parent i b D m t : stands b D m -> parts_at m (fr_tname fr) acc -> (length acc <= 26)%nat ->
  bytes_at m e s -> length s = 32%nat -> long s = false -> Forall (fun c => c <> 0) (take 11 s) -> plo <= e /\ e + 32 <= phi ->
  cstr m name w -> (~ w `prefix_of` entry_text acc s -> ~ entry_text acc s `prefix_of` w) -> ready d parent t ->
  exists b' t' m', match_dirent_entry fr 256 name parent e i d (fr_tname fr) (b, t) = Ret (bool_decide (w `prefix_of` entry_text acc s), (b', t')) /\
    stands b' D m' /\ quiet m m' /\ if bool_decide (w `prefix_of` entry_text acc s) then found d parent i w s t t' else t' = t.
Proof.
  intros Hs Ha Hl He Hls Hlong Hnz Hpe Hn Hpre ([e0 He0] & [pe Hpe0] & Hlive).
  destruct (entry_name_ok e acc s b D m t Hs Ha Hl He Hls Hlong Hnz Hpe) as (m1 & E & Htext & Ho).
  assert (Hs1 := stands_put b D m m1 Hs). assert (Hq : quiet m m1) by (intros p Hp _; by apply Ho).
  assert (Hn1 : cstr m1 name w) by (apply (agree_cstr m m1); [by apply quiet_agree|done|done]).
  unfold match_dirent_entry. rewrite E. erewrite kbind_ret by (eapply res_k_ok; [exact Hs1|by apply (strlen_cstr 256 m1 name w); [|lia]]).
  erewrite kbind_ret by by eapply the_mem_ok. rewrite (strncmp_prefix m1 _ _ (entry_text acc s) w Htext Hn1 Hpre).
  destruct (bool_decide (w `prefix_of` entry_text acc s)); cbn [negb]; [|by exists (lput m1 b), t, m1].
  assert (He1 : bytes_at m1 e s) by (apply (quiet_page m m1); [done|lia|lia|done]).
  destruct (fill_in_ok e s d parent i w name _ D m1 t e0 pe Hs1 He1 Hls Hn1 Hw Hlive He0 Hpe0) as (t' & R & Hf).
  by exists (lput m1 b), t', m1.
Qed.

Lemma length_slots (ss : list (list Z)) : Forall (fun s => length s = 32%nat) ss -> Z.of_nat (length (concat ss)) = 32 * Z.of_nat (length ss).
Proof. induction 1 as [|s ss Hs _ IH]; cbn [concat length]; [done|]. rewrite length_app. lia. Qed.

Lemma carry m m1 a l : quiet m m1 -> literals fr m -> cstr m name w -> plo <= a -> a + Z.of_nat (length l) <= phi -> bytes_at m a l ->
  literals fr m1 /\ cstr m1 name w /\ bytes_at m1 a l.
Proof.
  intros Hq Hl Hn Ha1 Ha2 Hb. assert (Ha := quiet_agree _ _ Hq).
  split; [by apply (agree_literals m)|]. split; [by apply (agree_cstr m)|by apply (quiet_page m)].
Qed.

(** What [parse_directory_entries] returns. *)
Definition verdict_code (v : verdict) : Z := match v with Hit _ _ => 0 | Stop => -1 | More => - E_NOT_FOUND end.
Definition verdict_tables (d parent : addr) (v : verdict) (t t' : fsst) : Prop := match v with Hit j s => found d parent j w s t t' | _ => t' = t end.

Lemma parse_loop_ok d parent buf clus t : ready d parent t -> plo <= buf -> buf + clus <= phi -> clus < 2 ^ 31 -> forall ss n i acc seq b D m,
  stands b D m -> literals fr m -> cstr m name w -> parts_at m (fr_tname fr) acc -> bytes_at m (buf + i) (concat ss) ->
  Forall (fun s => length s = 32%nat) ss -> 0 <= i -> i + 32 * Z.of_nat (length ss) = clus -> readable w acc ss -> (length acc <= 26)%nat -> (length ss < n)%nat ->
  exists b' t' m', parse_loop fr n 256 name parent buf clus d i seq (Z.of_nat (length acc)) (b, t) = Ret (verdict_code (scan w acc i ss), (b', t')) /\
    stands b' D m' /\ quiet m m' /\ verdict_tables d parent (scan w acc i ss) t t'.
Proof.
  intros Hrd Hlo Hhi Hc31. induction ss as [|s ss IH]; intros n i acc seq b D m Hs Hlit Hn Ha Hb Hlen Hi Hend Hok Hacc Hfu; (destruct n as [|n]; [cbn in Hfu; lia|]); cbn [parse_loop].
  { cbn [length] in Hend. rewrite (proj2 (Z.ltb_ge i clus)) by lia. by exists b, t, m. }
  cbn [length concat readable scan] in *. apply Forall_cons in Hlen as [Hl Hlen]. rewrite (proj2 (Z.ltb_lt i clus)) by lia. apply bytes_app in Hb as [Hsl Hb]. rewrite Hl in Hb.
  replace (buf + i + Z.of_nat 32) with (buf + (i + 32)) in Hb by lia. change DIRECTORY_SIZE with 32. rewrite (u32_small (i + 32)) by lia.
  assert (Hcat := length_slots ss Hlen).
  assert (Hnext : forall seq' b1 m1, stands b1 D m1 -> quiet m m1 -> readable w [] ss ->
    exists b' t' m', (mem_set (fun m => memset m (fr_tname fr) 0 MAX_FILE_NAME_LEN) ;;
      parse_loop fr n 256 name parent buf clus d (i + 32) seq' 0) (b1, t) = Ret (verdict_code (scan w [] (i + 32) ss), (b', t')) /\
      stands b' D m' /\ quiet m m' /\ verdict_tables d parent (scan w [] (i + 32) ss) t t').
  { intros seq' b1 m1 Hs1 Hq1 Hok1. erewrite kbind_ret by by eapply mem_set_ok. destruct (clear_ok m1) as [Hclr1 Hqc1].
    assert (Hq2 := quiet_trans _ _ _ Hq1 Hqc1). destruct (carry m _ (buf + (i + 32)) (concat ss) Hq2 Hlit Hn ltac:(lia) ltac:(lia) Hb) as (L1 & N1 & B1).
    destruct (IH n (i + 32) [] seq' _ D _ (stands_put b1 D m1 _ Hs1) L1 N1 Hclr1 B1 Hlen ltac:(lia) ltac:(lia) Hok1 ltac:(cbn; lia) ltac:(lia)) as (b' & t' & m' & R & Hs' & Hq' & Hv).
    exists b', t', m'. split; [exact R|]. split; [done|]. split; [by eapply quiet_trans|done]. }
  erewrite kbind_ret by by eapply the_mem_ok. rewrite (is_invalid_entry_ok fr m (buf + i) s Hlit Hsl Hl).
  2:{ intros Hlo'. rewrite Hlo' in Hok. destruct (byte s 0 =? 0); [done|]. by destruct Hok. }
  destruct (left_out s); [by apply (Hnext false b m)|]. destruct (byte s 0 =? 0); cbn [Z.eqb Pos.eqb].
  { by exists b, t, m. }
  destruct Hok as [_ Hok]. erewrite kbind_ret by by eapply the_mem_ok. destruct (entry_fields m (buf + i) s Hsl Hl) as (_ & _ & _ & ->).
  destruct (long s) eqn:Hlong.
  - destruct Hok as [Hacc13 Hok]. destruct (handle_long_file_name_ok m buf i seq (fr_tname fr) acc s Hsl Hl Ha Hacc13) as (m1 & q & E & Ha1 & Ho1);
      [assert (B := lo_tname HL); lia|]. erewrite kbind_ret by by eapply mem_do_ok. cbv beta. rewrite E. cbn [fst snd].
    assert (Hq1 : quiet m m1) by (intros p _ Hp; by apply Ho1).
    destruct (carry m m1 (buf + (i + 32)) (concat ss) Hq1 Hlit Hn ltac:(lia) ltac:(lia) Hb) as (L1 & N1 & B1).
    destruct (IH n (i + 32) (acc ++ part s) (negb (q =? 0)) _ D m1 (stands_put b D m m1 Hs) L1 N1 Ha1 B1 Hlen ltac:(lia) ltac:(lia) Hok
      ltac:(rewrite length_app; cbn; lia) ltac:(lia)) as (b' & t' & m' & R & Hs' & Hq' & Hv).
    exists b', t', m'. split; [exact R|]. split; [done|]. split; [by eapply quiet_trans|done].
  - destruct Hok as [Hnz Hok]. destruct (match_dirent_entry_ok (buf + i) acc s d parent i b D m t Hs Ha Hacc Hsl Hl Hlong Hnz ltac:(lia) Hn) as (b1 & t1 & m1 & R & Hs1 & Hq1 & Hf);
      [intros Hnp; by rewrite bool_decide_eq_false_2 in Hok; [destruct Hok|]|done|].
    erewrite kbind_ret by exact R. destruct (bool_decide (w `prefix_of` entry_text acc s)).
    + by exists b1, t1, m1.
    + subst t1. destruct Hok as [_ Hok]. by apply (Hnext seq b1 m1).
Qed.

Lemma parse_directory_entries_ok d parent buf t ss b D m : ready d parent t -> plo <= buf -> buf + 32 * Z.of_nat (length ss) <= phi -> (length ss < 256)%nat ->
  stands b D m -> literals fr m -> cstr m name w -> bytes_at m buf (concat ss) -> Forall (fun s => length s = 32%nat) ss -> readable w [] ss ->
  exists b' t' m', parse_directory_entries fr 256 name parent buf (32 * Z.of_nat (length ss)) d (b, t) = Ret (verdict_code (scan w [] 0 ss), (b', t')) /\
    stands b' D m' /\ quiet m m' /\ verdict_tables d parent (scan w [] 0 ss) t t'.
Proof.
  intros Hrd Hlo Hhi Hl Hs Hlit Hn Hb Hlen Hok. unfold parse_directory_entries. erewrite kbind_ret by by eapply mem_set_ok.
  destruct (clear_ok m) as [Ha Hq]. set (m1 := memset m _ 0 _) in *. assert (Hcat := length_slots ss Hlen).
  destruct (carry m m1 buf (concat ss) Hq Hlit Hn Hlo ltac:(lia) Hb) as (L1 & N1 & B1).
  destruct (parse_loop_ok d parent buf (32 * Z.of_nat (length ss)) t Hrd Hlo Hhi ltac:(lia) ss 256 0 [] false _ D m1 (stands_put b D m m1 Hs) L1 N1 Ha) as (b' & t' & m' & R & Hs' & Hq' & Hv);
    [by rewrite Z.add_0_r|done|lia|lia|done|cbn; lia|lia|].
  exists b', t', m'. split; [exact R|]. split; [done|]. split; [by eapply quiet_trans|done].
Qed.

(** *** Clusters *)

Context (G : geometry x) (Hdev : deviceNum x = cache_dev).
#[local] Abbreviation CS := (CLUSTER_SIZE x).

Lemma read_cluster_loop_ok c buf t : cluster x c -> CS <= 4096 -> forall k n j b D m, stands b D m -> CS = 512 * (Z.of_nat j + Z.of_nat k) -> (k < n)%nat ->
  exists b', read_cluster_loop n 256 x c buf CS (512 * Z.of_nat j) (b, t) = Ret (tt, (b', t)) /\
    stands b' D (mput m (buf + 512 * Z.of_nat j) (drop (512 * j) (vc c))).
Proof.
  intros Hc Hcs. induction k as [|k IH]; intros n j b D m Hs Hj Hn; (destruct n as [|n]; [lia|]); cbn [read_cluster_loop];
    pose proof (length_clus x G b D _ c Hs Hc) as Hlv; cbn [v_clus] in Hlv.
  - rewrite (proj2 (Z.ltb_ge _ _)) by lia. exists b. split; [done|]. rewrite drop_ge by lia. exact Hs.
  - rewrite (proj2 (Z.ltb_lt _ _)) by lia. destruct (cluster_small x G c Hc) as [_ Hsm]. rewrite (u32_small c) by (unfold cluster in Hc; pose proof (g_max _ G); lia).
    destruct (holds_clusread x G Hdev b D _ c (512 * Z.of_nat j) (buf + 512 * Z.of_nat j) 512 Hs Hc) as (b1 & R1 & V1); [lia..|].
    cbn [v_fat v_clus v_mem] in V1. erewrite kbind_ret by (apply base_ok; exact R1). change BSIZE with 512. rewrite u32_small by lia.
    replace (512 * Z.of_nat j + 512) with (512 * Z.of_nat (Datatypes.S j)) by lia.
    destruct (IH n (Datatypes.S j) b1 D _ V1) as (b2 & R2 & V2); [lia|lia|]. exists b2. split; [exact R2|].
    replace (buf + 512 * Z.of_nat (Datatypes.S j)) with (buf + 512 * Z.of_nat j + 512) in V2 by lia.
    set (l1 := sub (vc c) (512 * Z.of_nat j) 512) in V2. assert (Hl1 : Z.of_nat (length l1) = 512) by (apply length_sub; lia). rewrite <- Hl1 in V2. rewrite <- mput_app, Hl1 in V2.
    replace (drop (512 * j) (vc c)) with (l1 ++ drop (512 * Datatypes.S j) (vc c)); [exact V2|].
    unfold l1, sub. replace (Z.to_nat (512 * Z.of_nat j)) with (512 * j)%nat by lia. rewrite <- (take_drop (Z.to_nat 512) (drop (512 * j) (vc c))) at 2.
    rewrite drop_drop. do 2 f_equal. lia.
Qed.
Lemma read_multiple_cluster_ok c buf t b D m : cluster x c -> CS <= 4096 -> stands b D m ->
  exists b', read_multiple_cluster 256 x c buf CS (b, t) = Ret (tt, (b', t)) /\ stands b' D (mput m buf (vc c)).
Proof.
  intros Hc Hcs Hs. pose proof (g_size _ G). pose proof (g_spc _ G).
  destruct (read_cluster_loop_ok c buf t Hc Hcs (Z.to_nat (sectors_per_cluster (sb x))) 256 0 b D m Hs) as (b' & R & Hs'); [lia|lia|].
  exists b'. split; [exact R|]. by rewrite Z.mul_0_r, Z.add_0_r in Hs'.
Qed.

Lemma slots_ok n : forall l, length l = (32 * n)%nat -> concat (slots n l) = l /\ Forall (fun s => length s = 32%nat) (slots n l) /\ length (slots n l) = n.
Proof.
  induction n as [|n IH]; intros l Hl; cbn [slots concat length]; [by destruct l|].
  destruct (IH (drop 32 l)) as (E & F & L); [rewrite length_drop; lia|]. rewrite E, take_drop, L. split; [done|]. split; [|done].
  constructor; [rewrite length_take; lia|done].
Qed.
Definition cluster_slots (c : Z) : list (list Z) := slots (Z.to_nat (CS / 32)) (vc c).
Lemma cluster_slots_ok c b D m : stands b D m -> cluster x c ->
  concat (cluster_slots c) = vc c /\ Forall (fun s => length s = 32%nat) (cluster_slots c) /\ 32 * Z.of_nat (length (cluster_slots c)) = CS.
Proof.
  intros Hs Hc. pose proof (g_size _ G) as Hcs. pose proof (g_spc _ G) as Hsp. pose proof (length_clus x G b D _ c Hs Hc) as Hlv. cbn [v_clus] in Hlv.
  assert (E : CS / 32 = 16 * sectors_per_cluster (sb x)) by (rewrite Hcs; replace (512 * sectors_per_cluster (sb x)) with (16 * sectors_per_cluster (sb x) * 32) by lia; apply Z.div_mul; lia).
  destruct (slots_ok (Z.to_nat (CS / 32)) (vc c)) as (H1' & H2' & H3'); [lia|]. split; [done|]. split; [done|]. unfold cluster_slots. lia.
Qed.
Lemma cluster_bytes c b D m buf : stands b D m -> cluster x c -> bytes_at (mput m buf (vc c)) buf (vc c).
Proof.
  intros Hs Hc i v Hi. rewrite (ld8_mput_in m buf (vc c) i v Hi). apply u8_small. pose proof (h_clus _ _ _ _ Hs c Hc) as E. cbn [v_clus] in E.
  pose proof (lookup_lt_Some _ _ _ Hi) as Hil. rewrite <- E in Hi, Hil. rewrite length_mget in Hil. rewrite lookup_mget in Hi by done. injection Hi as <-. apply ld8_range.
Qed.
Lemma page_agree m buf l : plo <= buf -> buf + Z.of_nat (length l) <= phi -> agree m (mput m buf l).
Proof. intros Hlo Hhi p Hp. apply ld8_mput_out. unfold scratch in Hp. lia. Qed.

(** The search of a directory whose clusters are [cl]. *)
Lemma search_loop_ok a d dir buf t : ready d dir t -> ft_tab t !! a = Some x -> plo <= buf -> buf + 4096 <= phi -> CS <= 4096 -> forall cl c n b D m,
  chained vf (c :: cl) -> Forall (cluster x) (c :: cl) -> (length cl < n)%nat -> stands b D m -> literals fr m -> cstr m name w ->
  readable_all w (map cluster_slots (c :: cl)) ->
  exists b' t' m', search_loop fr n 256 a dir name d buf CS c (b, t) = Ret (tt, (b', t')) /\ stands b' D m' /\ agree m m' /\
    verdict_tables d dir (search w (map cluster_slots (c :: cl))) t t'.
Proof.
  intros Hrd Hx Hlo Hhi Hcs. induction cl as [|c1 cl IH]; intros c n b D m Hch Hcl Hn Hs Hlit Hname Hok; (destruct n as [|n]; [cbn in Hn; lia|]); cbn [search_loop];
    apply Forall_cons in Hcl as [Hc Hcl]; cbn [map readable_all search] in *; destruct Hok as [Hok Hmore];
    erewrite kbind_ret by (by apply getfs_ok);
    destruct (read_multiple_cluster_ok c buf t b D m Hc Hcs Hs) as (b1 & R1 & Hs1); erewrite kbind_ret by exact R1;
    destruct (cluster_slots_ok c b D m Hs Hc) as (Ecat & Hlen & Hcnt); pose proof (length_clus x G b D _ c Hs Hc) as Hlv; cbn [v_clus] in Hlv;
    assert (Ha1 : agree m (mput m buf (vc c))) by (apply page_agree; lia);
    (destruct (parse_directory_entries_ok d dir buf t (cluster_slots c) b1 D _ Hrd Hlo ltac:(lia) ltac:(lia) Hs1) as (b2 & t2 & m2 & R2 & Hs2 & Hq2 & Hv);
      [by eapply agree_literals|by eapply agree_cstr|rewrite Ecat; by eapply cluster_bytes|done|done|]);
    rewrite Hcnt in R2; erewrite kbind_ret by exact R2; pose proof (agree_trans _ _ _ Ha1 (quiet_agree _ _ Hq2)) as Ha2;
    destruct (scan w [] 0 (cluster_slots c)) as [j s'| |]; cbn [verdict_code verdict_tables] in *; try (by exists b2, t2, m2); subst t2;
    (destruct (holds_fatread x G Hdev b2 D _ c Hs2 Hc) as (b3 & R3 & Hs3)); cbn [v_fat] in R3; change (- E_NOT_FOUND =? -1) with false; change (- E_NOT_FOUND =? 0) with false; cbn [orb];
    (destruct (cluster_small x G c Hc) as [_ Hsm]); rewrite (u32_small c) by (unfold cluster in Hc; lia); erewrite kbind_ret by (apply base_ok; exact R3).
  - cbn [chained] in Hch. rewrite Hch. by exists b3, t, m2.
  - destruct Hch as [E Hch]. rewrite E. rewrite (cluster_not_eof x G c1) by (by apply Forall_cons in Hcl as [? _]).
    destruct (IH c1 n b3 D m2 Hch Hcl ltac:(cbn in Hn; lia) Hs3) as (b' & t' & m' & R & Hs' & Ha' & Hv'); [by eapply agree_literals|by eapply agree_cstr|by apply Hmore|].
    exists b', t', m'. split; [exact R|]. split; [done|]. split; [by eapply agree_trans|done].
Qed.
End Lookup.

(** ** With the page allocator *)

(** What the page allocator promises beside the cache: [with_pages L k] is the
    cache while the pages [L] are lent and [k] are left. *)
Class PagesLaws (S : Type) `{Cache S} `{Pages S} : Type := {
  with_pages : list addr -> nat -> CacheLaws S;
  page_dev : Z;
  pages_dev L k : cache_dev (CacheLaws := with_pages L k) = page_dev;
  page_lo : Z;
  page_hi : Z;
  pg_alloc_ok L k b D : cached (CacheLaws := with_pages L (Datatypes.S k)) b D ∅ ->
    exists a b', pg_alloc b = Ret (a, b') /\ a <> 0 /\ page_lo <= a /\ a + 4096 <= page_hi /\
      cached (CacheLaws := with_pages (a :: L) k) b' D ∅ /\
      forall p, p < a \/ a + 4096 <= p -> ld8 (lget b') p = ld8 (lget b) p;
  pg_free_ok L k a b D : cached (CacheLaws := with_pages (a :: L) k) b D ∅ ->
    exists b', pg_free a b = Ret (tt, b') /\ cached (CacheLaws := with_pages L (Datatypes.S k)) b' D ∅ /\
      forall p, p < a \/ a + 4096 <= p -> ld8 (lget b') p = ld8 (lget b) p
}.

Section Find.
Context {S : Type} `{PagesLaws S}.
Context (fr : frame) (x : filesystem) (G : geometry x) (Hdev : deviceNum x = page_dev) (Hcs : CLUSTER_SIZE x <= 4096).
Context (vf : Z -> Z) (vc : Z -> list Z).
Context (HL : laid_out fr page_lo page_hi).

(** The state with [k] pages left. *)
Definition stands_with (L : list addr) (k : nat) (b : S) (D : Z -> list Z) (m : mem) : Prop := stands (H0 := with_pages L k) x vf vc b D m.
#[local] Abbreviation agree := (agree fr page_lo page_hi).
#[local] Abbreviation apart := (apart fr page_lo page_hi).

Lemma stands_move L k L' k' b b' D m m' : stands_with L k b D m -> cached (CacheLaws := with_pages L' k') b' D ∅ -> lget b' = m' -> stands_with L' k' b' D m'.
Proof. intros [_ _ Hf Hx] Hc Hm. by split. Qed.

(** The directory that starts at cluster [c], its chain of clusters. *)
Record directory (c : Z) (cl : list Z) : Prop := {
  di_head : hd_error cl = Some c;
  di_chain : chained vf cl;
  di_clusters : Forall (cluster x) cl;
  di_length : (length cl <= 256)%nat
}.
(** What a search for [w] in the directory at [c] comes to. *)
Definition looked_up (c : Z) (w : list Z) (v : verdict) : Prop :=
  exists cl, directory c cl /\ readable_all w (map (cluster_slots x vc) cl) /\ search w (map (cluster_slots x vc) cl) = v.

Lemma find_dirent_entry_ok L k name w d dir de v b D m t : apart name (Z.of_nat (length w) + 1) -> (length w <= 64)%nat ->
  ready d dir t -> ft_dirs t !! dir = Some de -> ft_tab t !! d_fs de = Some x -> looked_up (first_cluster de) w v ->
  stands_with L (Datatypes.S k) b D m -> literals fr m -> cstr m name w ->
  exists b' t' m', find_dirent_entry fr 256 dir name d (b, t) = Ret (tt, (b', t')) /\ stands_with L (Datatypes.S k) b' D m' /\ agree m m' /\
    verdict_tables w d dir v t t'.
Proof.
  intros Hap Hw Hrd Hde Hx (cl & [Hhd Hch Hcl Hlen] & Hok & Hv) Hs Hlit Hn. unfold find_dirent_entry.
  erewrite kbind_ret by by apply getd_ok. erewrite kbind_ret by by apply getd_ok. erewrite kbind_ret by by apply getfs_ok.
  destruct (pg_alloc_ok L k b D) as (buf & b1 & R1 & Hb0 & Hlo & Hhi & Hc1 & Hm1); [by destruct Hs|].
  erewrite kbind_ret by (apply base_ok; exact R1). rewrite (proj2 (Z.eqb_neq _ _) Hb0).
  assert (Hs1 := stands_move _ _ _ _ _ _ _ _ _ Hs Hc1 eq_refl). rewrite (stands_mem _ _ _ _ _ _ Hs) in Hm1.
  assert (Ha1 : agree m (lget b1)) by (intros p Hp; apply Hm1; unfold scratch in Hp; lia).
  destruct cl as [|c cl]; [done|]. injection Hhd as ->.
  destruct (search_loop_ok (H0 := with_pages (buf :: L) k) fr x vf vc page_lo page_hi HL name w Hap Hw G ltac:(by rewrite pages_dev) (d_fs de) d dir buf t
    Hrd Hx Hlo Hhi Hcs cl (first_cluster de) 256 b1 D (lget b1) Hch Hcl ltac:(cbn in Hlen; lia) Hs1) as (b2 & t' & m2 & R2 & Hs2 & Ha2 & Hf);
    [by eapply agree_literals|by eapply agree_cstr|done|].
  erewrite kbind_ret by exact R2. destruct (pg_free_ok L k buf b2 D) as (b3 & R3 & Hc3 & Hm3); [by destruct Hs2|].
  exists b3, t', (lget b3). split; [by apply base_ok|]. split; [by eapply stands_move|]. split; [|by rewrite <- Hv].
  rewrite (stands_mem _ _ _ _ _ _ Hs2) in Hm3. eapply agree_trans; [exact Ha1|]. eapply agree_trans; [exact Ha2|].
  intros p Hp. apply Hm3. unfold scratch in Hp. lia.
Qed.

(** *** The pool of directory entries *)

Definition is_dirent (d : addr) : Prop := exists i, 0 <= i < MAX_DIRENT /\ d = dirent_poll fr + SIZEOF_DIRENT * i.
Context (Hpoll : 0 < dirent_poll fr) (Hlist : 0 < dirent_list fr /\ (dirent_list fr + 32 <= dirent_poll fr \/ dirent_poll fr + SIZEOF_DIRENT * MAX_DIRENT <= dirent_list fr)).
Record pool_at (t : fsst) (free : list addr) : Prop := {
  po_list : dlist (ft_links t) (dirent_list fr) (map delem free);
  po_free : Forall is_dirent free;
  po_live : forall d, is_dirent d -> is_Some (ft_dirs t !! d) /\ live (ft_links t) (delem d) /\ live (ft_links t) (head_of (child_of d)) /\ live (ft_links t) (tail_of (child_of d))
}.

Lemma pool_node a free : a ∈ nodes (dirent_list fr) (map delem free) -> a = dirent_list fr \/ a = dirent_list fr + 16 \/ exists d, d ∈ free /\ a = delem d.
Proof.
  unfold nodes, head_of, tail_of. intros [->|[Ha|Ha]%elem_of_app]%elem_of_cons; [by left| |by apply list_elem_of_singleton in Ha; right; left].
  right; right. apply list_elem_of_fmap in Ha as (d & -> & Hd). by exists d.
Qed.
Lemma delem_in d free : delem d ∈ map delem free -> d ∈ free.
Proof. intros (d' & E & Hd)%list_elem_of_fmap. replace d with d' by (unfold delem in E; lia). done. Qed.
(** The links of an entry that is not in the list are not those of the list. *)
Lemma pool_apart d free : is_dirent d -> Forall is_dirent free -> d ∉ free ->
  nodes (dirent_list fr) (map delem free) ## [delem d; head_of (child_of d); tail_of (child_of d)].
Proof.
  intros (i & Hi & Ed) Hf Hn a Ha Hx. rewrite Forall_forall in Hf. unfold MAX_DIRENT, SIZEOF_DIRENT, head_of, tail_of, child_of, delem in *.
  apply pool_node in Ha as [Ea|[Ea|(d' & Hd' & Ea)]].
  1, 2: rewrite !elem_of_cons in Hx; destruct Hx as [Hx|[Hx|[Hx|Hx]]]; [lia..|by apply not_elem_of_nil in Hx].
  destruct (Hf d' Hd') as (j & Hj & Ed'). unfold delem in Ea. unfold MAX_DIRENT, SIZEOF_DIRENT in Hj, Ed'. rewrite !elem_of_cons in Hx.
  destruct Hx as [Hx|[Hx|[Hx|Hx]]]; [|lia|lia|by apply not_elem_of_nil in Hx]. apply Hn. by replace d with d' by lia.
Qed.
Lemma pool_change t t' d free : pool_at t free -> is_dirent d -> d ∉ free -> unchanged_but [delem d; head_of (child_of d); tail_of (child_of d)] (ft_links t) (ft_links t') ->
  (forall a, is_Some (ft_dirs t !! a) -> is_Some (ft_dirs t' !! a)) -> pool_at t' free.
Proof.
  intros [Hl Hf Hlive] Hd Hn Hu Hdirs. split; [|done|].
  - eapply dlist_frame; [exact Hl|exact Hu|by apply pool_apart].
  - intros a Ha. destruct (Hlive a Ha) as (L1 & L2 & L3 & L4). destruct Hu as [Hu _]. rewrite <- !Hu. auto.
Qed.
Lemma pool_live_child t free d : pool_at t free -> is_dirent d -> live_child t d.
Proof.
  intros HP Hd. destruct (po_live _ _ HP d Hd) as (_ & _ & L1 & L2). destruct Hd as (i & Hi & Ed). unfold MAX_DIRENT, SIZEOF_DIRENT in *.
  split; [done|]. split; [done|]. unfold child_of, tail_of, NULL. lia.
Qed.

Lemma write_links_ok t d e h l free : pool_at t free -> is_dirent d ->
  exists s, write_links d e h l (ft_links t) = Ret (tt, s) /\ unchanged_but [delem d; head_of (child_of d); tail_of (child_of d)] (ft_links t) s.
Proof.
  intros HP Hd. destruct (po_live _ _ HP d Hd) as (_ & [e0 E0] & [e1 E1] & [e2 E2]). unfold write_links. rewrite E0, E1, E2. eexists. split; [reflexivity|]. split.
  - intros a. unfold live. destruct (decide (a = delem d)) as [->|N0]; [rewrite lookup_insert_eq, E0; split; by eauto|]. rewrite lookup_insert_ne by done.
    destruct (decide (a = head_of (child_of d))) as [->|N1]; [rewrite lookup_insert_eq, E1; split; by eauto|]. rewrite lookup_insert_ne by done.
    destruct (decide (a = tail_of (child_of d))) as [->|N2]; [rewrite lookup_insert_eq, E2; split; by eauto|]. by rewrite lookup_insert_ne by done.
  - intros a Ha. rewrite !not_elem_of_cons in Ha. destruct Ha as (N0 & N1 & N2 & _). by rewrite !lookup_insert_ne by done.
Qed.

(** [t'] is [t] but for its entries [D] and its links. *)
Definition redone (D : gmap addr dirent) (t t' : fsst) : Prop :=
  ft_dirs t' = D /\ ft_tab t' = ft_tab t /\ fat_fs t' = fat_fs t /\ fd_bitmap t' = fd_bitmap t /\ ft_files t' = ft_files t.
Lemma dirs_kept (D : gmap addr dirent) d e : is_Some (D !! d) -> forall a, is_Some (D !! a) -> is_Some (<[d := e]> D !! a).
Proof. intros Hd a Ha. destruct (decide (a = d)) as [->|Hn]; [rewrite lookup_insert_eq; by eexists|by rewrite lookup_insert_ne]. Qed.

Lemma dirent_alloc_ok (b : S) t d free : pool_at t (d :: free) ->
  exists t', dirent_alloc fr (b, t) = Ret (d, (b, t')) /\ pool_at t' free /\ redone (<[d := zero_dirent]> (ft_dirs t)) t t' /\ is_dirent d /\ d ∉ free.
Proof.
  intros HP. destruct (HP) as [Hl Hf Hlive]. apply Forall_cons in Hf as [Hd Hf]. cbn [map] in Hl.
  destruct (pop_front_ok _ _ _ _ Hl) as (s1 & R1 & Hl1 & [Hu1 _] & _ & _ & Hni).
  assert (Hn : d ∉ free) by (intros Hin; apply Hni; unfold nodes; apply elem_of_cons; right; apply elem_of_app; left; apply list_elem_of_fmap; by exists d).
  assert (HP1 : pool_at (put_flinks s1 t) free).
  { split; [done|done|]. intros a Ha. cbn [ft_links put_flinks ft_dirs]. rewrite <- !Hu1. by apply Hlive. }
  assert (HP2 : pool_at (put_dirs (<[d := zero_dirent]> (ft_dirs t)) (put_flinks s1 t)) free).
  { eapply pool_change; [exact HP1|exact Hd|exact Hn|apply unchanged_refl|]. intros a. cbn [ft_dirs put_dirs put_flinks]. apply dirs_kept. by apply Hlive. }
  destruct (write_links_ok _ d (Elem 0 0) (Elem 0 0) (Elem 0 0) free HP2 Hd) as (s2 & R2 & Hu2).
  destruct (Hlive d Hd) as ([e0 He0] & _). eexists. split; [|split; [|split; [|done]]].
  - unfold dirent_alloc. erewrite kbind_ret by (apply flinks_ok; by eapply list_empty_ok). rewrite bool_decide_eq_false_2 by done.
    erewrite kbind_ret by (apply flinks_ok; exact R1). replace (dirent_of_elem (delem d)) with d by (unfold dirent_of_elem, delem; lia).
    erewrite kbind_ret; [reflexivity|]. unfold dirent_zero. erewrite setd_step by exact He0. apply flinks_ok. exact R2.
  - eapply pool_change; [exact HP2|exact Hd|exact Hn|exact Hu2|done].
  - done.
Qed.

Lemma dirent_free_ok (b : S) t d free : pool_at t free -> is_dirent d -> d ∉ free ->
  exists t', dirent_free fr d (b, t) = Ret (tt, (b, t')) /\ pool_at t' (free ++ [d]) /\ redone (ft_dirs t) t t'.
Proof.
  intros HP Hd Hn. destruct (HP) as [Hl Hf Hlive]. destruct (Hlive d Hd) as (_ & Hld & _).
  assert (Hd0 : delem d <> NULL) by (destruct Hd as (i & Hi & ->); unfold delem, NULL, MAX_DIRENT, SIZEOF_DIRENT in *; lia).
  destruct (push_back_ok _ _ _ _ Hl Hld Hd0) as (s & R & Hl' & [Hu _]).
  { intros Ha. destruct (pool_apart d free Hd Hf Hn (delem d) Ha). left. }
  exists (put_flinks s t). split; [by apply flinks_ok|]. split; [|done]. split.
  - rewrite map_app. exact Hl'.
  - apply Forall_app. split; [done|by constructor].
  - intros a Ha. cbn [ft_links put_flinks ft_dirs]. rewrite <- !Hu. by apply Hlive.
Qed.
Lemma dirent_copy_ok (b : S) t dst src e free : pool_at t free -> is_dirent dst -> is_dirent src -> dst ∉ free -> ft_dirs t !! src = Some e ->
  exists t', dirent_copy dst src (b, t) = Ret (tt, (b, t')) /\ pool_at t' free /\ redone (<[dst := e]> (ft_dirs t)) t t'.
Proof.
  intros HP Hd Hsrc Hn He. destruct (po_live _ _ HP src Hsrc) as (_ & [e0 E0] & [e1 E1] & [e2 E2]). destruct (po_live _ _ HP dst Hd) as ([x0 Hx0] & _).
  assert (HP1 : pool_at (put_dirs (<[dst := e]> (ft_dirs t)) t) free).
  { eapply pool_change; [exact HP|exact Hd|exact Hn|apply unchanged_refl|]. intros a. cbn [ft_dirs put_dirs]. apply dirs_kept. by eexists. }
  destruct (write_links_ok _ dst e0 e1 e2 free HP1 Hd) as (s & R & Hu). exists (put_flinks s (put_dirs (<[dst := e]> (ft_dirs t)) t)). split; [|split; [|done]].
  - unfold dirent_copy. erewrite kbind_ret by (by apply getd_ok).
    erewrite kbind_ret by (apply flinks_ok; unfold read_links; rewrite E0, E1, E2; reflexivity).
    cbn [fst snd]. replace (put_flinks (ft_links t) t) with t by by destruct t. erewrite setd_step by exact Hx0. by apply flinks_ok.
  - eapply pool_change; [exact HP1|exact Hd|exact Hn|exact Hu|done].
Qed.

(** *** Paths *)

(** What [match_dirent_entry] makes of an entry. *)
Record described (e : dirent) (a : addr) (s : list Z) : Prop := {
  de_size : d_size e = e_size s;
  de_cluster : first_cluster e = e_clus s;
  de_mode : d_mode e = attr s;
  de_type : d_type e = if e_dir s then DIR_DIR else DIR_FILE;
  de_fs : d_fs e = a;
  de_links : linkcnt e = 1
}.
Lemma found_described d parent i w s t t' pe : found d parent i w s t t' -> ft_dirs t !! parent = Some pe ->
  exists e, ft_dirs t' !! d = Some e /\ described e (d_fs pe) s.
Proof.
  intros [(e0 & pe' & He0 & Hpe & He & _) _ _ _] Hp. rewrite Hp in Hpe. injection Hpe as <-. eexists. split; [exact He|]. by destruct (d =? parent).
Qed.
Lemma found_pool d parent i w s t t' free : found d parent i w s t t' -> pool_at t free -> is_dirent d -> d ∉ free -> pool_at t' free.
Proof.
  intros [(e0 & pe & He0 & Hpe & He & Hp) Ho [Hul Hua] _] HP Hd Hn. eapply pool_change; [exact HP|exact Hd|exact Hn| |].
  - split; [done|]. intros a Ha. apply Hua. rewrite !not_elem_of_cons in *. tauto.
  - intros a Ha. destruct (decide (a = d)) as [->|Hnd]; [rewrite He; by eexists|]. destruct (decide (a = parent)) as [->|Hnp]; [rewrite Hp by done; by eexists|].
    by rewrite Ho.
Qed.

(** What the path [ws] leads to from the directory at cluster [c], which is
    [below] the one the walk starts in or is that one: the entry of a file, or
    nothing, because the path ends at a directory, goes on through a file, or
    ends with a name that is not there. Below the first directory a name that is
    not there and is not the last is skipped, which is what the code does
    (fs.c:237); in the first directory such a name has no meaning, the walk
    going on through a null pointer. *)
Inductive resolves : bool -> Z -> list (list Z) -> option (list Z) -> Prop :=
| RS_empty below c : resolves below c [] None
| RS_file below c w j s : looked_up c w (Hit j s) -> e_dir s = false -> resolves below c [w] (Some s)
| RS_dir below c w j s ws r : looked_up c w (Hit j s) -> e_dir s = true -> resolves true (e_clus s) ws r -> resolves below c (w :: ws) r
| RS_through below c w j s ws : looked_up c w (Hit j s) -> e_dir s = false -> ws <> [] -> resolves below c (w :: ws) None
| RS_missing below c w : looked_up c w Stop -> resolves below c [w] None
| RS_skip c w ws r : looked_up c w Stop -> ws <> [] -> resolves true c ws r -> resolves true c (w :: ws) r.

(** The first component, and what is left to do. *)
Lemma resolves_cons below c w ws r : resolves below c (w :: ws) r -> exists v, looked_up c w v /\ match v with
  | Hit _ s => if e_dir s then resolves true (e_clus s) ws r else if decide (ws = []) then r = Some s else r = None
  | Stop => if decide (ws = []) then r = None else below = true /\ resolves true c ws r
  | More => False end.
Proof.
  intros Hr. inversion Hr as [|? ? ? ? s Hl He|? ? ? ? s ? ? Hl He Hr'|? ? ? ? s ? Hl He Hn|? ? ? Hl|? ? ? ? Hl Hn Hr']; subst;
    (eexists; split; [exact Hl|]); cbv beta iota; rewrite ?He; [by rewrite decide_True|done|by rewrite decide_False|by rewrite decide_True|by rewrite decide_False].
Qed.

(** The tokens [ws] from number [i] on. *)
Definition tokens (m : mem) (i : Z) (ws : list (list Z)) : Prop :=
  forall j w, ws !! j = Some w -> cstr m (token_at (fr_token fr) (i + Z.of_nat j)) w /\ (length w <= 31)%nat.
Context (Htok : apart (fr_token fr) 1024).
Lemma token_apart i (w : list Z) : 0 <= i < 32 -> (length w <= 31)%nat -> apart (token_at (fr_token fr) i) (Z.of_nat (length w) + 1).
Proof. intros Hi Hw p Hp. apply Htok. unfold token_at, MAX_FILE_NAME_LEN in Hp. lia. Qed.
Lemma tokens_next m m' i (w : list Z) ws : agree m m' -> 0 <= i -> i + Z.of_nat (length (w :: ws)) <= 32 -> tokens m i (w :: ws) -> tokens m' (i + 1) ws.
Proof.
  intros Ha Hi Hl Ht j w' Hj. destruct (Ht (Datatypes.S j) w' Hj) as [Hc Hw]. split; [|done].
  replace (i + 1 + Z.of_nat j) with (i + Z.of_nat (Datatypes.S j)) by lia. eapply agree_cstr; [exact Ha|apply token_apart; [|done]|done].
  apply lookup_lt_Some in Hj. cbn in Hl. lia.
Qed.

(** What [walkDir] returns. *)
Definition walk_code (r : option (list Z)) : Z := match r with Some _ => 0 | None => - E_NOT_FOUND end.
(** The entry [file] after a walk. *)
Definition walked (r : option (list Z)) (file a : addr) (t : fsst) : Prop :=
  match r with Some s => exists e, ft_dirs t !! file = Some e /\ described e a s | None => True end.

(** The end of a walk at a file, or where a file is in the way. *)
Lemma walk_end_ok (b : S) t cfile file e free : pool_at t free -> is_dirent cfile -> is_dirent file -> cfile ∉ free -> file ∉ free -> ft_dirs t !! cfile = Some e ->
  exists t', (dirent_copy file cfile ;; dirent_free fr cfile ;; kret 0) (b, t) = Ret (0, (b, t')) /\ pool_at t' (free ++ [cfile]) /\ ft_dirs t' = <[file := e]> (ft_dirs t).
Proof.
  intros HP Hc Hf Hnc Hnf He. destruct (dirent_copy_ok b t file cfile e free HP Hf Hc Hnf He) as (t1 & R1 & HP1 & Ed1 & _).
  destruct (dirent_free_ok b t1 cfile free HP1 Hc Hnc) as (t2 & R2 & HP2 & Ed2 & _). exists t2.
  erewrite kbind_ret by exact R1. erewrite kbind_ret by exact R2. split; [done|]. split; [done|]. by rewrite Ed2.
Qed.

Lemma walkDir_loop_ok L k a file cfile size free : is_dirent cfile -> is_dirent file -> cfile <> file -> cfile ∉ free -> file ∉ free -> size <= 32 ->
  forall ws below i cdir de r b D m t, i + Z.of_nat (length ws) = size -> 0 <= i ->
  resolves below (first_cluster de) ws r -> (below = true -> cdir = cfile) -> ft_dirs t !! cdir = Some de -> d_fs de = a -> ft_tab t !! a = Some x ->
  (exists ce, ft_dirs t !! cfile = Some ce /\ d_type ce = DIR_DIR) -> pool_at t free ->
  stands_with L (Datatypes.S k) b D m -> literals fr m -> tokens m i ws ->
  exists b' t' m', walkDir_loop fr (length ws) 256 i size cfile cdir file NULL (b, t) = Ret (walk_code r, (b', t')) /\
    stands_with L (Datatypes.S k) b' D m' /\ agree m m' /\ pool_at t' (free ++ [cfile]) /\ walked r file a t' /\
    (forall d, d <> cfile -> d <> file -> d <> cdir -> ft_dirs t' !! d = ft_dirs t !! d).
Proof.
  intros Hcf Hf Hne Hnc Hnf Hsz. induction ws as [|w ws IH]; intros below i cdir de r b D m t Hi Hi0 Hr Hbel Hde Hfs Hx (ce & Hce & Hty) HP Hs Hlit Ht; cbn [length walkDir_loop].
  { inversion Hr; subst. destruct (dirent_free_ok b t cfile free HP Hcf Hnc) as (t1 & R & HP1 & Ed & _). erewrite kbind_ret by exact R.
    exists b, t1, m. split; [done|]. split; [done|]. split; [apply agree_refl|]. split; [done|]. split; [done|]. intros d _ _ _. by rewrite Ed. }
  cbn [length] in Hi. destruct (Ht 0%nat w eq_refl) as [Hc Hw]. rewrite Z.add_0_r in Hc. assert (Hap := token_apart i w ltac:(lia) Hw).
  assert (Hrd : ready cfile cdir t) by (split; [by eexists|]; split; [by eexists|]; by eapply pool_live_child).
  destruct (resolves_cons _ _ _ _ _ Hr) as (v & Hl & Hv). rewrite <- Hfs in Hx.
  destruct (find_dirent_entry_ok L k _ w cfile cdir de v b D m t Hap ltac:(lia) Hrd Hde Hx Hl Hs Hlit Hc) as (b1 & t1 & m1 & R1 & Hs1 & Ha1 & Hf1).
  erewrite kbind_ret by exact R1. destruct v as [j s| |]; cbn [verdict_tables] in Hf1; [|subst t1|done].
  - destruct (found_described _ _ _ _ _ _ _ _ Hf1 Hde) as (e1 & He1 & Hd1). rewrite Hfs in Hd1. assert (HP1 := found_pool _ _ _ _ _ _ _ _ Hf1 HP Hcf Hnc).
    destruct (fo_tables _ _ _ _ _ _ _ Hf1) as (Htab & _). assert (Hoth := fo_others _ _ _ _ _ _ _ Hf1).
    erewrite kbind_ret by by apply getd_ok. rewrite (de_type _ _ _ Hd1). destruct (e_dir s) eqn:Edir.
    + destruct (IH true (i + 1) cfile e1 r b1 D m1 t1) as (b' & t' & m' & R & Hs' & Ha' & HP' & Hw' & Ho');
        [lia|lia|by rewrite (de_cluster _ _ _ Hd1)|done|done|exact (de_fs _ _ _ Hd1)|by rewrite Htab, <- Hfs| |done|done|by eapply agree_literals|by eapply tokens_next; [| |cbn; lia|]|].
      { exists e1. split; [done|]. by rewrite (de_type _ _ _ Hd1), Edir. }
      exists b', t', m'. split; [exact R|]. split; [done|]. split; [by eapply agree_trans|]. split; [done|]. split; [done|].
      intros d Hd1' Hd2 Hd3. by rewrite Ho', Hoth.
    + unfold copy_last. change (NULL =? NULL) with true. erewrite kbind_ret by reflexivity. destruct (decide (ws = [])) as [->|Hnil].
      * cbn [length] in Hi. rewrite (proj2 (Z.eqb_eq i (size - 1))) by lia.
        destruct (walk_end_ok b1 t1 cfile file e1 free HP1 Hcf Hf Hnc Hnf He1) as (t2 & R2 & HP2 & Ed2). exists b1, t2, m1.
        subst r. split; [exact R2|]. split; [done|]. split; [done|]. split; [done|]. unfold walked. rewrite Ed2. split.
        { exists e1. rewrite lookup_insert_eq. by split. }
        intros d Hd1' Hd2 Hd3. rewrite lookup_insert_ne by done. by apply Hoth.
      * assert (Hlen : length ws <> 0%nat) by by destruct ws. rewrite (proj2 (Z.eqb_neq i (size - 1))) by lia. subst r.
        destruct (dirent_free_ok b1 t1 cfile free HP1 Hcf Hnc) as (t2 & R2 & HP2 & Ed2 & _). erewrite kbind_ret by exact R2. exists b1, t2, m1.
        split; [done|]. split; [done|]. split; [done|]. split; [done|]. split; [done|]. intros d Hd1' Hd2 Hd3. rewrite Ed2. by apply Hoth.
  - erewrite kbind_ret by by apply getd_ok. rewrite Hty. destruct (decide (ws = [])) as [->|Hnil]; [subst r|destruct Hv as [-> Hr']].
    2: { specialize (Hbel eq_refl). subst cdir. destruct (IH true (i + 1) cfile de r b1 D m1 t) as (b' & t' & m' & R & Hs' & Ha' & HP' & Hw' & Ho');
        [lia|lia|done|done|done|done|by rewrite <- Hfs|by exists ce|done|done|by eapply agree_literals|by eapply tokens_next; [| |cbn; lia|]|].
      exists b', t', m'. split; [exact R|]. split; [done|]. by split; [by eapply agree_trans|]. }
    cbn [length walkDir_loop]. destruct (dirent_free_ok b1 t cfile free HP Hcf Hnc) as (t2 & R2 & HP2 & Ed2 & _). erewrite kbind_ret by exact R2. exists b1, t2, m1.
    split; [done|]. split; [done|]. split; [done|]. split; [done|]. split; [done|]. intros d _ _ _. by rewrite Ed2.
Qed.

Context (Hlits : (lit_dot fr + 11 <= fr_token fr \/ fr_token fr + 1024 <= lit_dot fr) /\ (lit_dotdot fr + 11 <= fr_token fr \/ fr_token fr + 1024 <= lit_dotdot fr)).
(** The path [l] at [path], which [parse_path] can split into its components. *)
Record path_at (m : mem) (path : Z) (l : list Z) : Prop := {
  pa_null : path <> NULL;
  pa_cstr : cstr m path l;
  pa_length : (length l < 256)%nat;
  pa_count : (length (components l) <= 32)%nat;
  pa_names : Forall (fun w => (length w <= 31)%nat) (components l);
  pa_apart : path + Z.of_nat (length l) < fr_token fr \/ fr_token fr + 1024 <= path
}.
(** Outside of the local arrays and of the pages. *)
Definition keeps (m m' : mem) : Prop := forall p, ~ scratch fr page_lo page_hi p -> p < fr_token fr \/ fr_token fr + 1024 <= p -> ld8 m' p = ld8 m p.

Lemma walkDir_ok L k a base path l file r de d2 free res b D m t : is_dirent file -> file ∉ d2 :: free -> r <> d2 ->
  r = (if base =? NULL then root x else base) -> ft_dirs t !! r = Some de -> d_fs de = a -> ft_tab t !! a = Some x ->
  pool_at t (d2 :: free) -> stands_with L (Datatypes.S k) b D m -> literals fr m -> path_at m path l -> resolves false (first_cluster de) (components l) res ->
  exists b' t' m', walkDir fr 256 a path base file NULL (b, t) = Ret (walk_code res, (b', t')) /\
    stands_with L (Datatypes.S k) b' D m' /\ keeps m m' /\ pool_at t' (free ++ [d2]) /\ walked res file a t' /\
    (forall d, d <> d2 -> d <> file -> d <> r -> ft_dirs t' !! d = ft_dirs t !! d).
Proof.
  intros Hf Hnf Hr2 Er Hde Hfs Hx HP Hs Hlit [Hp0 Hpc Hpl Hcnt Hnm Hpa] Hres. rewrite not_elem_of_cons in Hnf. destruct Hnf as [Hf2 Hnf].
  destruct (parse_path_ok 256 m path (fr_token fr) l Hp0 Hpc Hpl) as (m1 & R1 & Htoks & Ho1); [lia|]. rewrite Nat.min_r in R1 by done.
  unfold walkDir. erewrite kbind_ret by (unfold mem_res; cbn [fst]; rewrite (stands_mem _ _ _ _ _ _ Hs), R1; reflexivity).
  destruct (dirent_alloc_ok (lput m1 b) t d2 free HP) as (t1 & R2 & HP1 & (Ed & Et & _) & Hd2 & Hn2). cbn [fst snd]. erewrite kbind_ret by exact R2.
  erewrite kbind_ret by (apply getfs_ok; by rewrite Et). rewrite <- Er, Nat2Z.id.
  assert (Hs1 : stands_with L (Datatypes.S k) (lput m1 b) D m1) by (eapply (stands_put (H0 := with_pages L (Datatypes.S k))); exact Hs).
  assert (Hlit1 : literals fr m1) by (destruct Hlit as [L1 L2]; split; (eapply bytes_at_ext; [|eassumption]); intros p Hp; apply Ho1; cbn in Hp; lia).
  assert (Ht1 : tokens m1 0 (components l)).
  { intros j w Hj. rewrite Forall_forall in Hnm. assert (Hw := Hnm w (list_elem_of_lookup_2 _ _ _ Hj)). split; [|done]. rewrite Z.add_0_l.
    assert (Hc := Htoks j w ltac:(apply lookup_lt_Some in Hj; lia) Hj). by rewrite take_ge in Hc by lia. }
  destruct (walkDir_loop_ok L k a file d2 (Z.of_nat (length (components l))) free Hd2 Hf ltac:(congruence) Hn2 Hnf ltac:(lia)
    (components l) false 0 r de res (lput m1 b) D m1 t1) as (b' & t' & m' & R3 & Hs' & Ha' & HP' & Hw' & Ho');
    [lia|lia|done|done|by rewrite Ed, lookup_insert_ne|done|by rewrite Et| |done|done|done|done|].
  { exists zero_dirent. by rewrite Ed, lookup_insert_eq. }
  exists b', t', m'. split; [exact R3|]. split; [done|]. split; [|split; [done|split; [done|]]].
  - intros p Hp Hpt. rewrite Ha' by done. apply Ho1. lia.
  - intros d N1 N2 N3. rewrite Ho' by done. rewrite Ed. by rewrite lookup_insert_ne.
Qed.

Lemma get_file_ok L k a base path l r de d1 d2 free res b D m t : (base = NULL -> fat_fs t = a) -> r <> d1 -> r <> d2 ->
  r = (if base =? NULL then root x else base) -> ft_dirs t !! r = Some de -> d_fs de = a -> ft_tab t !! a = Some x ->
  pool_at t (d1 :: d2 :: free) -> stands_with L (Datatypes.S k) b D m -> literals fr m -> path_at m path l -> resolves false (first_cluster de) (components l) res ->
  exists b' t' m', get_file fr 256 base path (b, t) = Ret (match res with Some _ => d1 | None => NULL end, (b', t')) /\
    stands_with L (Datatypes.S k) b' D m' /\ keeps m m' /\ pool_at t' (free ++ [d2]) /\ walked res d1 a t' /\
    (forall d, d <> d2 -> d <> d1 -> d <> r -> ft_dirs t' !! d = ft_dirs t !! d).
Proof.
  intros Ha Hr1 Hr2 Er Hde Hfs Hx HP Hs Hlit Hpath Hres. unfold get_file.
  destruct (dirent_alloc_ok b t d1 (d2 :: free) HP) as (t1 & R1 & HP1 & (Ed & Et & Ef & _) & Hd1 & Hn1). erewrite kbind_ret by exact R1.
  assert (Hde1 : ft_dirs t1 !! r = Some de) by (by rewrite Ed, lookup_insert_ne).
  assert (Hst : start_fs base (b, t1) = Ret (a, (b, t1))).
  { unfold start_fs. destruct (Z.eqb_spec base NULL) as [E|E].
    - unfold get_root_fs, tabs, zoom, kget. cbn. by rewrite Ef, (Ha E).
    - subst r. rewrite <- Hfs. by apply getd_ok. }
  erewrite kbind_ret by exact Hst.
  destruct (walkDir_ok L k a base path l d1 r de d2 free res b D m t1 Hd1 Hn1 Hr2 Er Hde1 Hfs) as (b' & t' & m' & R2 & Hs' & Hk & HP' & Hw' & Ho'); [by rewrite Et|done..|].
  erewrite kbind_ret by exact R2. exists b', t', m'. split; [by destruct res|]. split; [done|]. split; [done|]. split; [done|]. split; [done|].
  intros d N1 N2 N3. rewrite Ho' by done. by rewrite Ed, lookup_insert_ne.
Qed.
End Find.

(** Where the arrays, the literals, the pool and the pages are. *)
Record placed (fr : frame) (lo hi : Z) : Prop := {
  pl_arrays : laid_out fr lo hi;
  pl_pool : 0 < dirent_poll fr;
  pl_list : 0 < dirent_list fr /\ (dirent_list fr + 32 <= dirent_poll fr \/ dirent_poll fr + SIZEOF_DIRENT * MAX_DIRENT <= dirent_list fr);
  pl_tokens : apart fr lo hi (fr_token fr) 1024;
  pl_literals : (lit_dot fr + 11 <= fr_token fr \/ fr_token fr + 1024 <= lit_dot fr) /\ (lit_dotdot fr + 11 <= fr_token fr \/ fr_token fr + 1024 <= lit_dotdot fr)
}.

(** C22. [get_file] follows a path as the volume says. The path has at most 32
    components of at most 31 bytes; at each directory it passes the reference
    search for the component comes to a result ([looked_up]): the first entry,
    cluster after cluster, whose long or short name begins with it. Then
    [get_file] returns the first free [struct dirent], with the size, cluster,
    attributes and file system of the entry the path ends at, if that is a file;
    and [NULL] if the path ends at a directory, goes on through a file, or ends
    with a name that is not there. A name that is not there and is not the last
    is skipped below the first directory, as [resolves] says; in the first
    directory the claim excludes it. One page is enough, and is given back; the
    free entry of the walk comes back to the end of the pool, the one for the
    result does not, not even when [get_file] returns [NULL] (fs.c:292); no other
    entry changes except the offset of the directory the path starts from, and of
    memory only the local arrays and pages. *)
Theorem get_file_resolves {S} `{PagesLaws S} (fr : frame) (x : filesystem) (vf : Z -> Z) (vc : Z -> list Z) L k a base path l de d1 d2 free res (b : S) D m t :
  geometry x -> deviceNum x = page_dev -> CLUSTER_SIZE x <= 4096 -> placed fr page_lo page_hi ->
  stands_with x vf vc L (Datatypes.S k) b D m -> literals fr m -> path_at fr m path l -> pool_at fr t (d1 :: d2 :: free) ->
  let r := if base =? NULL then root x else base in
  (base = NULL -> fat_fs t = a) -> r <> d1 -> r <> d2 -> ft_dirs t !! r = Some de -> d_fs de = a -> ft_tab t !! a = Some x ->
  resolves x vf vc false (first_cluster de) (components l) res ->
  exists b' t' m', get_file fr 256 base path (b, t) = Ret (match res with Some _ => d1 | None => NULL end, (b', t')) /\
    stands_with x vf vc L (Datatypes.S k) b' D m' /\ keeps fr m m' /\ pool_at fr t' (free ++ [d2]) /\
    match res with Some s => exists e, ft_dirs t' !! d1 = Some e /\ described e a s | None => True end /\
    (forall d, d <> d2 -> d <> d1 -> d <> r -> ft_dirs t' !! d = ft_dirs t !! d).
Proof.
  intros G Hdev Hcs [HL Hpoll Hlist Htok Hlits] Hs Hlit Hpath HP r Ha Hr1 Hr2 Hde Hfs Hx Hres.
  exact (get_file_ok fr x G Hdev Hcs vf vc HL Hpoll Hlist Htok Hlits L k a base path l r de d1 d2 free res b D m t Ha Hr1 Hr2 eq_refl Hde Hfs Hx HP Hs Hlit Hpath Hres).
Qed.

(** ** A small volume with a directory in its root *)

(** A cache and an allocator that keep what they promise: buffer [n + 1] is for
    block [n], and pages are lent from 16 in a row. *)
Record shelf : Type := mkShelf { sh_mem : mem; sh_disk : Z -> list Z; sh_bufs : gmap addr (Z * list Z); sh_lent : list addr }.
Definition shelf_lo : Z := 0x100000.
#[local] Instance shelf_lens : Lens shelf mem.
Proof. by refine {| lget := sh_mem; lput m s := mkShelf m (sh_disk s) (sh_bufs s) (sh_lent s) |}; intros; try destruct s. Defined.
#[local] Instance shelf_cache : Cache shelf := {|
  cache_mem := shelf_lens;
  c_bread _ n s := Ret (n + 1, mkShelf (sh_mem s) (sh_disk s) (<[n + 1 := (n, sh_disk s n)]> (sh_bufs s)) (sh_lent s));
  c_bwrite b s := match sh_bufs s !! b with Some (n, y) => Ret (tt, mkShelf (sh_mem s) (disk_upd n y (sh_disk s)) (sh_bufs s) (sh_lent s)) | None => Fault end;
  c_brelse b s := Ret (tt, mkShelf (sh_mem s) (sh_disk s) (delete b (sh_bufs s)) (sh_lent s));
  c_data b s := match sh_bufs s !! b with Some (n, y) => Ret (y, s) | None => Fault end;
  c_set_data f b s := match sh_bufs s !! b with Some (n, y) => Ret (tt, mkShelf (sh_mem s) (sh_disk s) (<[b := (n, f y)]> (sh_bufs s)) (sh_lent s)) | None => Fault end ; c_log _ := kret tt |}.
#[local] Instance shelf_pages : Pages shelf := {|
  pg_alloc s := let a := shelf_lo + 4096 * Z.of_nat (length (sh_lent s)) in Ret (a, mkShelf (sh_mem s) (sh_disk s) (sh_bufs s) (a :: sh_lent s));
  pg_free _ s := Ret (tt, mkShelf (sh_mem s) (sh_disk s) (sh_bufs s) (tail (sh_lent s))) |}.
Definition shelf_laws (L : list addr) (k : nat) : CacheLaws shelf.
Proof.
  refine {| cache_dev := 0; cached s D X := (sh_disk s = D /\ sh_bufs s = X /\ sh_lent s = L /\ (length L + k <= 16)%nat) /\
    (forall n, 0 <= n < 2 ^ 32 -> length (D n) = 512%nat) /\ (forall b y, X !! b = Some y -> b = y.1 + 1 /\ length y.2 = 512%nat) |}.
  - intros s D X n (_ & Hl & _) Hn. by apply Hl.
  - done.
  - intros s D X n ((<- & <- & <- & Hk) & Hl & Hx) Hn _ Hr. eexists (n + 1), _. split; [reflexivity|]. cbn. split.
    { destruct (sh_bufs s !! (n + 1)) as [y|] eqn:E; [|done]. destruct (Hx _ _ E) as [E1 _]. destruct (Hn _ _ E). lia. }
    split; [|done]. split; [done|]. split; [done|]. intros b y [[<- <-]|[_ Hb]]%lookup_insert_Some; [cbn; auto|by apply Hx].
  - intros s D X b n y ((<- & <- & <- & Hk) & Hl & Hx) Hb. cbn. by rewrite Hb.
  - intros s D X b n y f ((<- & <- & <- & Hk) & Hl & Hx) Hb Hf. cbn. rewrite Hb. eexists. split; [reflexivity|]. split; [|done].
    split; [done|]. split; [done|]. intros c z [[<- <-]|[_ Hc]]%lookup_insert_Some; [|by apply Hx]. cbn. destruct (Hx _ _ Hb). auto.
  - intros s D X b n y ((<- & <- & <- & Hk) & Hl & Hx) Hb. cbn. rewrite Hb. eexists. split; [reflexivity|]. split; [|done].
    split; [done|]. split; [|done]. intros j Hj. unfold disk_upd. destruct (j =? n); [by apply (Hx b (n, y))|by apply Hl].
  - intros s D X b n ((<- & <- & <- & Hk) & Hl & Hx) Hb. cbn. eexists. split; [reflexivity|]. split; [|done].
    split; [done|]. split; [done|]. intros c z [_ Hc]%lookup_delete_Some. by apply Hx.
Defined.
#[local] Instance shelf_pages_laws : PagesLaws shelf.
Proof.
  refine {| with_pages := shelf_laws; page_dev := 0; page_lo := shelf_lo; page_hi := shelf_lo + 16 * 4096 |}.
  - done.
  - intros L k b D ((<- & E & <- & Hk) & Hl & Hx). eexists _, _. split; [reflexivity|]. unfold shelf_lo. split; [lia|]. split; [lia|]. split; [cbn in Hk; lia|].
    split; [|done]. split; [|by split]. split; [done|]. split; [done|]. split; [done|]. cbn [length] in *. lia.
  - intros L k a b D ((<- & E & El & Hk) & Hl & Hx). eexists. split; [reflexivity|]. split; [|done]. split; [|by split]. split; [done|]. split; [done|].
    cbn [sh_lent]. rewrite El. cbn [length] in *. split; [done|lia].
Defined.

(** The root at cluster 2 holds the directory etc (a long name), at cluster 3,
    which holds the file PASSWD, at cluster 4. *)
Definition sector (l : list Z) : list Z := l ++ replicate (512 - length l) 0.
Definition a_slot (name : list Z) (at_ c size : Z) : list Z :=
  name ++ [at_] ++ replicate 8 0 ++ [0; 0] ++ replicate 4 0 ++ [c; 0] ++ [size; 0; 0; 0].
Definition etc_part : list Z := [65; 101; 0; 116; 0; 99; 0; 0; 0; 255; 255; 15; 0; 7] ++ replicate 12 255 ++ [0; 0] ++ replicate 4 255.
Definition etc_slot : list Z := a_slot [69; 84; 67; 126; 49; 32; 32; 32; 32; 32; 32] ATTR_DIRECTORY 3 0.
Definition passwd_slot : list Z := a_slot [80; 65; 83; 83; 87; 68; 32; 32; 32; 32; 32] 32 4 100.
Definition tree_disk (n : Z) : list Z :=
  if n =? 32 then sector (concat (map le32 [0x0ffffff8; 0x0fffffff; 0x0fffffff; 0x0fffffff; 0x0fffffff]))
  else if n =? 34 then sector (a_slot dots ATTR_DIRECTORY 2 0 ++ etc_part ++ etc_slot)
  else if n =? 35 then sector (a_slot dots ATTR_DIRECTORY 3 0 ++ a_slot ddots ATTR_DIRECTORY 2 0 ++ passwd_slot)
  else replicate 512 0.
Definition tree_fs : filesystem := mkFs true [] (mkSb 512 1 32 2 1) (mkSbi 34 10 10 512) 20000 0 0 0.
Lemma tree_geometry : geometry tree_fs.
Proof. split; cbn; lia || done. Qed.
Definition tree_path : list Z := [47; 101; 116; 99; 47; 47; 80; 65; 83; 83; 87; 68].
Definition tree_mem : mem := mput (mput (mput (fun _ => 0) 306000 dots) 306100 ddots) 500 tree_path.
Definition tree_shelf : shelf := mkShelf tree_mem tree_disk ∅ [].
Definition poll_addrs : list addr := map (fun i => 20000 + 168 * Z.of_nat i) (seq 0 1024).
Definition tree_links : store :=
  <[19000 := Elem 0 (delem 20168)]> (<[delem 20168 := Elem 19000 (delem 20336)]> (<[delem 20336 := Elem (delem 20168) 19016]> (<[19016 := Elem (delem 20336) 0]>
    (list_to_map (map (fun a => (a, Elem 0 0)) (concat (map (fun d => [delem d; head_of (child_of d); tail_of (child_of d)]) poll_addrs))))))).
Definition tree_root : dirent := mkDirent (replicate 64 0) 512 2 0 DIR_DIR 7000 1 0 ATTR_DIRECTORY 0.
Definition tree_tables : fsst :=
  mkFst {[7000 := tree_fs]} (<[20000 := tree_root]> (list_to_map (map (fun d => (d, zero_dirent)) poll_addrs))) tree_links 7000 [] ∅.
Definition tree_fat (c : Z) : Z := fat_entry tree_fs tree_disk c.
Definition tree_clus (c : Z) : list Z := mget (image tree_disk) (clus_addr tree_fs c) 512.

Lemma tree_stands : stands_with tree_fs tree_fat tree_clus [] 1 tree_shelf tree_disk tree_mem.
Proof.
  split; [|done|done|done]. split; [by split_and!; [..|cbn; lia]|]. split; [|done].
  intros n Hn. unfold tree_disk. repeat (destruct (_ =? _); [vm_compute; reflexivity|]). by rewrite length_replicate.
Qed.
Lemma tree_pool : pool_at demo_frame tree_tables [20168; 20336].
Proof.
  split.
  - split; [by vm_compute|by vm_compute|by vm_compute| |].
    + change (NoDup [19000; 20312; 20480; 19016]). repeat (apply NoDup_cons; split; [rewrite ?not_elem_of_cons; repeat split; try discriminate; apply not_elem_of_nil|]). apply NoDup_nil_2.
    + change (0 ∉ [19000; 20312; 20480; 19016]). rewrite ?not_elem_of_cons. repeat split; try discriminate. apply not_elem_of_nil.
  - repeat constructor; [exists 1|exists 2]; (split; [unfold MAX_DIRENT; lia|done]).
  - assert (Hall : forallb (fun d => bool_decide (is_Some (ft_dirs tree_tables !! d)) && bool_decide (is_Some (tree_links !! delem d)) &&
      bool_decide (is_Some (tree_links !! head_of (child_of d))) && bool_decide (is_Some (tree_links !! tail_of (child_of d)))) poll_addrs = true) by by vm_compute.
    intros d (i & Hi & ->).
    assert (Hin : In (dirent_poll demo_frame + SIZEOF_DIRENT * i) poll_addrs).
    { apply in_map_iff. exists (Z.to_nat i). unfold MAX_DIRENT, SIZEOF_DIRENT in *. split; [cbn; lia|]. apply in_seq. lia. }
    apply (proj1 (forallb_forall _ _) Hall) in Hin. apply andb_prop in Hin as [Hin E]. apply andb_prop in Hin as [Hin C]. apply andb_prop in Hin as [A B].
    exact (conj (bool_decide_eq_true_1 _ A) (conj (bool_decide_eq_true_1 _ B) (conj (bool_decide_eq_true_1 _ C) (bool_decide_eq_true_1 _ E)))).
Qed.
#[local] Abbreviation tree_looked_up := (looked_up tree_fs tree_fat tree_clus).
#[local] Ltac tree_search c := exists [c]; split; [|split];
  [split; [done|by vm_compute|repeat constructor; unfold cluster; cbn; lia|cbn; lia]
  |vm_compute; repeat split; try (intros [? ?]); first [discriminate|repeat constructor; discriminate]|by vm_compute].
Lemma tree_etc : tree_looked_up 2 [101; 116; 99] (Hit 64 etc_slot).
Proof. tree_search 2. Qed.
Lemma tree_passwd : tree_looked_up 3 [80; 65; 83; 83; 87; 68] (Hit 64 passwd_slot).
Proof. tree_search 3. Qed.
Lemma tree_nofile : tree_looked_up 3 [110; 111] Stop.
Proof. tree_search 3. Qed.
Lemma tree_resolves : resolves tree_fs tree_fat tree_clus false 2 (components tree_path) (Some passwd_slot).
Proof.
  change (components tree_path) with [[101; 116; 99]; [80; 65; 83; 83; 87; 68]].
  eapply RS_dir; [apply tree_etc|done|]. eapply RS_file; [apply tree_passwd|done].
Qed.
(** The path /etc/no/PASSWD leads to the same file. *)
Lemma tree_skips : resolves tree_fs tree_fat tree_clus false 2 [[101; 116; 99]; [110; 111]; [80; 65; 83; 83; 87; 68]] (Some passwd_slot).
Proof.
  eapply RS_dir; [apply tree_etc|done|]. eapply RS_skip; [apply tree_nofile|done|]. eapply RS_file; [apply tree_passwd|done].
Qed.

Lemma get_file_resolves_witness : exists (b' : shelf) t' m', get_file demo_frame 256 NULL 500 (tree_shelf, tree_tables) = Ret (20168, (b', t')) /\
  keeps demo_frame tree_mem m' /\ pool_at demo_frame t' [20336] /\ exists e, ft_dirs t' !! 20168 = Some e /\ described e 7000 passwd_slot.
Proof.
  destruct (get_file_resolves (H1 := shelf_pages_laws) demo_frame tree_fs tree_fat tree_clus [] 0 7000 NULL 500 tree_path tree_root 20168 20336 []
    (Some passwd_slot) tree_shelf tree_disk tree_mem tree_tables tree_geometry eq_refl) as (b' & t' & m' & R & _ & Hk & HP & He & _).
  - cbn. lia.
  - split; [split|..]; unfold apart, scratch, page_lo, page_hi, shelf_pages_laws, shelf_lo, SIZEOF_DIRENT, MAX_DIRENT; cbn; lia.
  - exact tree_stands.
  - split; intros i c Hi; pose proof (lookup_lt_Some _ _ _ Hi) as Hl; cbn in Hl; do 11 (destruct i as [|i]; [injection Hi as <-; by vm_compute|]); lia.
  - split; [done|vm_compute; repeat split; discriminate|cbn; lia|cbn; lia|repeat constructor; cbn; lia|cbn; lia].
  - exact tree_pool.
  - done.
  - done.
  - done.
  - by vm_compute.
  - done.
  - done.
  - exact tree_resolves.
  - exists b', t', m'. exact (conj R (conj Hk (conj HP He))).
Defined.
