(* ===== verification/Console.v ===== *)
(** The console: src/kernel/console.c.

    The 16550 UART is a parameter ([Class Uart]): what a load from one of its
    registers returns, and what loads and stores do to it. [Class UartLaws] is
    what its data sheet promises. The line read from the keyboard is compared
    with a line editor on lists of characters. *)
From S2P Require Import Prelude CString Bytes Spinlock DList Pm Vm Ids Proc Schedule.

Definition BACKSPACE : Z := 0x100.
Definition UART_RHR : Z := 0.
Definition UART_THR : Z := 0.
Definition UART_IER : Z := 1.
Definition UART_FCR : Z := 2.
Definition UART_LCR : Z := 3.
Definition UART_LSR : Z := 5.
Definition UART_IER_RX_ENABLE : Z := 0x01.
Definition UART_IER_TX_ENABLE : Z := 0x02.
Definition UART_LCR_BAUD_LATCH : Z := 0x80.
Definition UART_LSR_RX_READY : Z := 0x01.
Definition UART_LSR_TX_IDLE : Z := 0x20.

(** Loads and stores of the registers. *)
Class Uart (V : Type) : Type := { reg_load : Z -> V -> Z * V; reg_store : Z -> Z -> V -> V }.

(** The kernel and the UART inside a larger state. *)
Class Terminal (S V : Type) : Type := {
  term_ps :: Lens S psys;
  term_uart :: Lens S V;
  uart_of_ps x (s : S) : lget (T := V) (lput (T := psys) x s) = lget s;
  ps_of_uart x (s : S) : lget (T := psys) (lput (T := V) x s) = lget s
}.

Section Console.
Context {S V : Type} `{Terminal S V} `{Uart V}.
Context (run_queue : addr) (qfuel : nat) (swtch : K S unit).
(** The address of the local variable [ch]. *)
Context (ch_at : addr).

Definition uart_read_reg (reg : Z) : K S Z := via (fun v : V => Ret (reg_load reg v)).
Definition uart_write_reg (reg v : Z) : K S unit := via (fun x : V => Ret (tt, reg_store reg (u8 v) x)).

(** The lock [cons] is not used after its initialisation. *)
Definition console_init (cons : lockid) : K S unit :=
  via (lock_op (initlock cons)) ;;
  uart_write_reg UART_IER 0 ;;
  uart_write_reg UART_LCR UART_LCR_BAUD_LATCH ;;
  uart_write_reg 0 3 ;;
  uart_write_reg 1 0 ;;
  uart_write_reg UART_LCR 3 ;;
  uart_write_reg UART_FCR 7 ;;
  uart_write_reg UART_IER (Z.lor UART_IER_RX_ENABLE UART_IER_TX_ENABLE).

Fixpoint wait_tx (fuel : nat) : K S unit :=
  match fuel with
  | O => knofuel
  | Datatypes.S fuel => l <- uart_read_reg UART_LSR ;; if Z.land l UART_LSR_TX_IDLE =? 0 then wait_tx fuel else kret tt
  end.
Definition console_putc (fuel : nat) (ch : Z) : K S unit :=
  if ch =? BACKSPACE then
    wait_tx fuel ;; uart_write_reg UART_THR 8 ;;
    wait_tx fuel ;; uart_write_reg UART_THR 32 ;;
    wait_tx fuel ;; uart_write_reg UART_THR 8
  else wait_tx fuel ;; uart_write_reg UART_THR ch.

Fixpoint wait_rx (fuel : nat) : K S unit :=
  match fuel with
  | O => knofuel
  | Datatypes.S fuel =>
      l <- uart_read_reg UART_LSR ;;
      if Z.land l UART_LSR_RX_READY =? 0 then yield run_queue swtch qfuel ;; wait_rx fuel else kret tt
  end.

Definition the_pm {A} (m : K pmst A) : K S A := via (pm_op m).
Definition user_pagetable : K S addr := p <- via cur_proc ;; via (getp pagetable p).

(** Puts one character at [dst + i]; false when [copyout] fails. *)
Definition store_char (user_dst : bool) (dst i ch : Z) : K S bool :=
  if user_dst then
    pt <- user_pagetable ;;
    the_pm (kmod (fun s => set_mem (st8 (pm_mem s) ch_at ch) s)) ;;
    r <- the_pm (copyout 2 pt (dst + i) ch_at 1) ;;
    kret (negb (r <? 0))
  else the_pm (kmod (fun s => set_mem (st8 (pm_mem s) (dst + i) ch) s)) ;; kret true.

(** The [while] loop of [console_read]; the value is the [i] it ends with, or
    0 for the return in the middle. *)
Fixpoint console_read_loop (fuel pfuel : nat) (user_dst : bool) (dst n i : Z) : K S Z :=
  match fuel with
  | O => knofuel
  | Datatypes.S fuel =>
      if i <? n - 1 then
        wait_rx pfuel ;;
        c <- uart_read_reg UART_RHR ;;
        if c =? 4 then (if i =? 0 then kret 0 else kret i) else
        if (c =? 0x7f) || (c =? 8) then
          if 0 <? i then console_putc pfuel BACKSPACE ;; console_read_loop fuel pfuel user_dst dst n (i - 1)
          else console_read_loop fuel pfuel user_dst dst n i
        else
        let ch := u8 c in
        if (ch =? 10) || (ch =? 13) then
          ok <- store_char user_dst dst i ch ;;
          if negb ok then kret i else
          console_putc pfuel (if ch =? 13 then 10 else ch) ;;
          kret (i + 1)
        else
        ok <- store_char user_dst dst i ch ;;
        if negb ok then kret i else
        console_putc pfuel ch ;;
        console_read_loop fuel pfuel user_dst dst n (i + 1)
      else kret i
  end.
Definition console_read (fuel pfuel : nat) (user_dst : bool) (dst n : Z) : K S Z :=
  if n <=? 0 then kret 0 else console_read_loop fuel pfuel user_dst dst n 0.

(** [k] characters are left; the value is the [i] it ends with. *)
Fixpoint console_write_loop (k pfuel : nat) (user_dst : bool) (src i : Z) : K S Z :=
  match k with
  | O => kret i
  | Datatypes.S k =>
      r <- (if user_dst then pt <- user_pagetable ;; the_pm (copyin 2 pt ch_at (src + i) 1) else kret 0) ;;
      if (r : Z) <? 0 then kret i else
      s <- the_pm (kget pm_mem) ;;
      console_putc pfuel (ld8 s (if user_dst then ch_at else src + i)) ;;
      console_write_loop k pfuel user_dst src (i + 1)
  end.
Definition console_write (pfuel : nat) (user_dst : bool) (src n : Z) : K S Z :=
  console_write_loop (Z.to_nat n) pfuel user_dst src 0.
End Console.

(** ** The UART's promises *)

(** [rx] is what has been typed and not read, [tx] what has been sent. The
    transmitter is idle after at most [busy] looks. *)
Class UartLaws (V : Type) `{Uart V} : Type := {
  rx : V -> list Z;
  tx : V -> list Z;
  busy : V -> nat;
  lsr_ok v : let (l, v') := reg_load UART_LSR v in
    rx v' = rx v /\ tx v' = tx v /\
    (rx v <> [] -> Z.land l UART_LSR_RX_READY <> 0) /\
    (Z.land l UART_LSR_TX_IDLE = 0 -> (busy v' < busy v)%nat);
  rhr_ok v c r : rx v = c :: r -> let (l, v') := reg_load UART_RHR v in l = c /\ rx v' = r /\ tx v' = tx v;
  thr_ok v c : let (l, v1) := reg_load UART_LSR v in Z.land l UART_LSR_TX_IDLE <> 0 ->
    let v2 := reg_store UART_THR c v1 in rx v2 = rx v1 /\ tx v2 = tx v1 ++ [c];
  rx_bytes v : Forall (fun c => 0 <= c < 256) (rx v);
  busy_bound : nat;
  busy_le v : (busy v <= busy_bound)%nat
}.

(** ** The line editor *)

Inductive outcome : Type := Line (line echo rest : list Z) | Waits.

(** [line] is what has been typed so far, at most [room] characters may follow. *)
Fixpoint edit (input : list Z) (room : nat) (line echo : list Z) : outcome :=
  match room with
  | O => Line line echo input
  | Datatypes.S _ =>
      match input with
      | [] => Waits
      | c :: input =>
          if c =? 4 then Line line echo input
          else if (c =? 0x7f) || (c =? 8) then
            match line with [] => edit input room [] echo | _ => edit input (Datatypes.S room) (removelast line) (echo ++ [8; 32; 8]) end
          else if (c =? 10) || (c =? 13) then Line (line ++ [c]) (echo ++ [10]) input
          else edit input (pred room) (line ++ [c]) (echo ++ [c])
      end
  end.

Section Reading.
Context {S V : Type} `{Terminal S V} `{UartLaws V}.
Context (run_queue : addr) (qfuel : nat) (swtch : K S unit) (ch_at : addr).

(** What the console's code sees of a state. *)
Record term_at (s : S) (input out : list Z) (ps : psys) : Prop := {
  ta_rx : rx (lget (T := V) s) = input;
  ta_tx : tx (lget (T := V) s) = out;
  ta_ps : lget (T := psys) s = ps
}.
Definition put_mem (m : mem) (ps : psys) : psys := put_pm (set_mem m (ps_pm ps)) ps.
Definition mem_of (ps : psys) : mem := pm_mem (ps_pm ps).

Lemma read_reg_run reg (s : S) : uart_read_reg reg s = Ret (fst (reg_load reg (lget s)), lput (snd (reg_load reg (lget s))) s).
Proof. unfold uart_read_reg, via, zoom. by destruct (reg_load reg (lget s)). Qed.
Lemma term_at_uart s v input out ps : lget (T := psys) s = ps -> rx v = input -> tx v = out -> term_at (lput v s) input out ps.
Proof. intros Hp Hr Ht. split; by rewrite ?lget_lput, ?ps_of_uart. Qed.
Lemma term_at_ps s input out ps x : term_at s input out ps -> term_at (lput (T := psys) x s) input out x.
Proof. intros [Hr Ht Hp]. split; by rewrite ?uart_of_ps, ?lget_lput. Qed.

(** Waiting for the transmitter and sending one character. *)
Lemma send_ok c input out ps : forall fuel s, term_at s input out ps -> (busy (lget (T := V) s) < fuel)%nat -> 0 <= c < 256 ->
  exists s', (wait_tx (V := V) fuel ;; uart_write_reg UART_THR c) s = Ret (tt, s') /\ term_at s' input (out ++ [c]) ps.
Proof.
  induction fuel as [|fuel IH]; intros s [Hr Ht Hp] Hb Hc; [lia|]. cbn [wait_tx].
  rewrite kbind_assoc. erewrite kbind_ret by apply read_reg_run. set (v := lget (T := V) s) in *.
  pose proof (lsr_ok v) as Hl. pose proof (thr_ok v c) as Hw. destruct (reg_load UART_LSR v) as [l v1]. cbn [fst snd].
  destruct Hl as (L1 & L2 & _ & L4). destruct (Z.eqb_spec (Z.land l UART_LSR_TX_IDLE) 0) as [Hz|Hz].
  - apply IH; [|rewrite lget_lput; specialize (L4 Hz); lia|done]. apply term_at_uart; congruence.
  - krun. specialize (Hw Hz). cbv zeta in Hw. destruct Hw as [W1 W2]. eexists. split.
    + unfold uart_write_reg, via, zoom. reflexivity.
    + rewrite u8_small by lia. rewrite lget_lput. apply term_at_uart; [by rewrite ps_of_uart| |]; congruence.
Qed.

Lemma console_putc_ok fuel c input out ps s : term_at s input out ps -> (busy_bound < fuel)%nat -> 0 <= c < 256 ->
  exists s', console_putc (V := V) fuel c s = Ret (tt, s') /\ term_at s' input (out ++ [c]) ps.
Proof.
  intros Hs Hf Hc. unfold console_putc, BACKSPACE. rewrite (proj2 (Z.eqb_neq c 0x100)) by lia. pose proof (busy_le (lget (T := V) s)).
  apply send_ok; [done|lia|done].
Qed.
Lemma console_erase_ok fuel input out ps s : term_at s input out ps -> (busy_bound < fuel)%nat ->
  exists s', console_putc (V := V) fuel BACKSPACE s = Ret (tt, s') /\ term_at s' input (out ++ [8; 32; 8]) ps.
Proof.
  intros Hs Hf. unfold console_putc. rewrite Z.eqb_refl.
  destruct (send_ok 8 input out ps fuel s Hs) as (s1 & R1 & S1); [pose proof (busy_le (lget (T := V) s)); lia|lia|].
  destruct (send_ok 32 input _ ps fuel s1 S1) as (s2 & R2 & S2); [pose proof (busy_le (lget (T := V) s1)); lia|lia|].
  destruct (send_ok 8 input _ ps fuel s2 S2) as (s3 & R3 & S3); [pose proof (busy_le (lget (T := V) s2)); lia|lia|].
  exists s3. split; [|by rewrite <- !app_assoc in S3].
  assert (E : forall (a b c d e g : K S unit), (a ;; b ;; c ;; d ;; e ;; g) s = ((a ;; b) ;; (c ;; d) ;; e ;; g) s).
  { intros. unfold kbind. destruct (a s) as [[[] t]| | | |]; try done. destruct (b t) as [[[] t']| | | |]; try done.
    destruct (c t') as [[[] t'']| | | |]; done. }
  rewrite E. erewrite kbind_ret by exact R1. by erewrite kbind_ret by exact R2.
Qed.

(** A typed character is there: no waiting. *)
Lemma receive_ok fuel c input out ps s : term_at s (c :: input) out ps -> (0 < fuel)%nat ->
  exists s', (wait_rx (V := V) run_queue qfuel swtch fuel ;; uart_read_reg UART_RHR) s = Ret (c, s') /\ term_at s' input out ps.
Proof.
  intros [Hr Ht Hp] Hf. destruct fuel as [|fuel]; [lia|]. cbn [wait_rx].
  rewrite kbind_assoc. erewrite kbind_ret by apply read_reg_run. set (v := lget (T := V) s) in *.
  pose proof (lsr_ok v) as Hl. destruct (reg_load UART_LSR v) as [l v1]. cbn [fst snd]. destruct Hl as (L1 & L2 & L3 & _).
  rewrite (proj2 (Z.eqb_neq _ 0)) by (apply L3; by rewrite Hr). krun. rewrite read_reg_run, lget_lput.
  pose proof (rhr_ok v1 c input) as Hv. destruct (reg_load UART_RHR v1) as [c' v2]. cbn [fst snd].
  destruct Hv as (-> & V2 & V3); [congruence|]. eexists. split; [done|]. apply term_at_uart; [by rewrite ps_of_uart|done|congruence].
Qed.

Lemma store_char_ok dst i c input out ps s : term_at s input out ps ->
  exists s', store_char (V := V) ch_at false dst i c s = Ret (true, s') /\ term_at s' input out (put_mem (st8 (mem_of ps) (dst + i) c) ps).
Proof.
  intros Hs. pose proof (ta_ps _ _ _ _ Hs) as Hp. eexists. split; [|apply (term_at_ps s input out ps); exact Hs].
  unfold store_char, the_pm. erewrite kbind_ret; [reflexivity|]. unfold via, zoom, pm_op, zoom, kmod. by rewrite Hp.
Qed.

Lemma mget_snoc m a l c : mget m a (length l) = l -> 0 <= c < 256 ->
  mget (st8 m (a + Z.of_nat (length l)) c) a (length (l ++ [c])) = l ++ [c].
Proof.
  intros Hm Hc. rewrite length_app, mget_app. f_equal.
  - rewrite <- Hm at 3. apply mget_ext. intros p Hp. apply ld8_st8_ne. lia.
  - cbn. by rewrite ld8_st8_eq, u8_small by lia.
Qed.
Lemma mget_removelast m a l : mget m a (length l) = l -> mget m a (length (removelast l)) = removelast l.
Proof.
  destruct l as [|c l] using rev_ind; [done|]. intros Hm. rewrite removelast_last. rewrite length_app, mget_app in Hm.
  by apply app_inj_1 in Hm as [Hm _]; [|by rewrite length_mget].
Qed.

(** The loop from a state in which [line] is at [dst], [room] characters may
    follow it, and [echo] has been sent. *)
Lemma console_read_loop_ok fuel pfuel dst n room line echo line' echo' rest input out ps s :
  edit input room line echo = Line line' echo' rest -> term_at s input (out ++ echo) ps ->
  Z.of_nat (length line) + Z.of_nat room = n - 1 -> Forall (fun c => 0 <= c < 256) input ->
  mget (mem_of ps) dst (length line) = line -> (length input < fuel)%nat -> (busy_bound < pfuel)%nat ->
  exists s' m', console_read_loop (V := V) run_queue qfuel swtch ch_at fuel pfuel false dst n (Z.of_nat (length line)) s =
      Ret (Z.of_nat (length line'), s') /\
    term_at s' rest (out ++ echo') (put_mem m' ps) /\ mget m' dst (length line') = line' /\
    Z.of_nat (length line') <= n - 1 /\
    forall a, a < dst \/ dst + (n - 1) <= a -> ld8 m' a = ld8 (mem_of ps) a.
Proof.
  revert fuel room line echo ps s. induction input as [|c input IH]; intros [|fuel] room line echo ps s He Hs Hroom Hin Hm Hf Hpf;
    cbn [length] in Hf; try lia; (destruct room as [|room]; cbn [edit] in He; try discriminate He);
    cbn [console_read_loop]; first [rewrite (proj2 (Z.ltb_lt _ _)) by lia | rewrite (proj2 (Z.ltb_ge _ _)) by lia].
  1, 2: injection He as <- <- <-; exists s, (mem_of ps); split; [done|]; split; [by destruct ps as [[]]|]; split; [done|]; split; [lia|done].
  apply Forall_cons in Hin as [Hc Hin]. rewrite <- kbind_assoc.
  destruct (receive_ok pfuel c input _ ps s Hs) as (s1 & R1 & S1); [lia|]. erewrite kbind_ret by exact R1.
  destruct (Z.eqb_spec c 4) as [->|H4].
  { injection He as <- <- <-. exists s1, (mem_of ps). split; [by destruct (Z.of_nat (length line) =? 0) eqn:E; [apply Z.eqb_eq in E; rewrite E|]|].
    split; [by destruct ps as [[]]|]. split; [done|]. split; [lia|done]. }
  destruct ((c =? 127) || (c =? 8)).
  { destruct line as [|l0 line].
    - cbn [length] in *. change (0 <? Z.of_nat 0) with false. cbv iota. by apply (IH fuel (Datatypes.S room) [] echo ps s1); try done; lia.
    - assert (Hl : length (l0 :: line) = Datatypes.S (length (removelast (l0 :: line)))).
      { destruct (exists_last (l := l0 :: line)) as (l1 & x & E); [done|]. rewrite E, removelast_last, length_app. cbn. lia. }
      set (ln := l0 :: line) in *. rewrite (proj2 (Z.ltb_lt 0 _)) by lia.
      destruct (console_erase_ok pfuel input _ ps s1 S1 Hpf) as (s2 & R2 & S2). erewrite kbind_ret by exact R2. rewrite <- app_assoc in S2.
      replace (Z.of_nat (length ln) - 1) with (Z.of_nat (length (removelast ln))) by lia.
      apply (IH fuel (Datatypes.S (Datatypes.S room)) (removelast ln) (echo ++ [8; 32; 8]) ps s2); try done; [lia| |lia].
      by apply mget_removelast. }
  rewrite (u8_small c) by lia.
  destruct (store_char_ok dst (Z.of_nat (length line)) c input _ ps s1 S1) as (s2 & R2 & S2).
  pose proof (mget_snoc (mem_of ps) dst line c Hm Hc) as Hm2. set (m2 := st8 (mem_of ps) (dst + Z.of_nat (length line)) c) in *.
  assert (Hfr : forall a, a < dst \/ dst + (n - 1) <= a -> ld8 m2 a = ld8 (mem_of ps) a) by (intros a Ha; apply ld8_st8_ne; lia).
  assert (Hlen : Z.of_nat (length (line ++ [c])) = Z.of_nat (length line) + 1) by (rewrite length_app; cbn; lia).
  destruct ((c =? 10) || (c =? 13)) eqn:Enl; erewrite kbind_ret by exact R2; cbn [negb].
  - injection He as <- <- <-.
    replace (if c =? 13 then 10 else c) with 10 by (destruct (Z.eqb_spec c 10), (Z.eqb_spec c 13); done || lia).
    destruct (console_putc_ok pfuel 10 input _ _ s2 S2 Hpf) as (s3 & R3 & S3); [lia|]. erewrite kbind_ret by exact R3.
    exists s3, m2. rewrite <- app_assoc in S3. rewrite <- Hlen. split; [done|]. split; [done|]. split; [done|]. split; [lia|done].
  - destruct (console_putc_ok pfuel c input _ _ s2 S2 Hpf Hc) as (s3 & R3 & S3). erewrite kbind_ret by exact R3.
    rewrite <- app_assoc in S3. rewrite <- Hlen.
    destruct (IH fuel room (line ++ [c]) (echo ++ [c]) (put_mem m2 ps) s3) as (s4 & m4 & R4 & S4 & M4 & L4 & F4); try done; [lia|lia|].
    exists s4, m4. split; [done|]. split; [by destruct ps as [[]]|]. split; [done|]. split; [done|].
    intros a Ha. rewrite F4 by done. by apply Hfr.
Qed.

Lemma console_write_loop_ok pfuel src ps input : (busy_bound < pfuel)%nat -> forall k i out s, term_at s input out ps ->
  exists s', console_write_loop (V := V) ch_at k pfuel false src i s = Ret (i + Z.of_nat k, s') /\
    term_at s' input (out ++ mget (mem_of ps) (src + i) k) ps.
Proof.
  intros Hpf. induction k as [|k IH]; intros i out s Hs; cbn [console_write_loop mget].
  - exists s. rewrite app_nil_r, Z.add_0_r. done.
  - krun. change (0 <? 0) with false. cbv iota.
    assert (E : the_pm (kget pm_mem) s = Ret (mem_of ps, s)).
    { unfold the_pm, via, zoom, pm_op, zoom, kget. rewrite (ta_ps _ _ _ _ Hs). do 2 f_equal.
      replace (put_pm (ps_pm ps) ps) with ps by by destruct ps. rewrite <- (ta_ps _ _ _ _ Hs). apply lput_lget. }
    erewrite kbind_ret by exact E.
    destruct (console_putc_ok pfuel (ld8 (mem_of ps) (src + i)) input out ps s Hs Hpf (ld8_range _ _)) as (s1 & R1 & S1).
    erewrite kbind_ret by exact R1. destruct (IH (i + 1) _ s1 S1) as (s2 & R2 & S2). exists s2.
    rewrite R2. split; [do 2 f_equal; lia|]. rewrite <- app_assoc in S2. by rewrite <- Z.add_assoc.
Qed.

(** C24. [console_read] into a kernel buffer is a line editor: when the typed
    characters end a line (a line feed, a return, an end of transmission, or
    one character less than the buffer has room for), it returns the length of
    the edited line, the backspaces applied, puts the line at [dst] and nothing
    outside the first [n - 1] bytes there, echoes what the editor echoes, and
    leaves the characters after the line to be read. *)
Theorem console_read_edits_line fuel pfuel dst n ps input out line echo rest s :
  term_at s input out ps -> 0 < n -> edit input (Z.to_nat (n - 1)) [] [] = Line line echo rest ->
  (length input < fuel)%nat -> (busy_bound < pfuel)%nat ->
  exists s' m', console_read (V := V) run_queue qfuel swtch ch_at fuel pfuel false dst n s = Ret (Z.of_nat (length line), s') /\
    term_at s' rest (out ++ echo) (put_mem m' ps) /\ mget m' dst (length line) = line /\
    Z.of_nat (length line) <= n - 1 /\ forall a, a < dst \/ dst + (n - 1) <= a -> ld8 m' a = ld8 (mem_of ps) a.
Proof.
  intros Hs Hn He Hf Hpf. unfold console_read. rewrite (proj2 (Z.leb_gt n 0)) by lia.
  apply (console_read_loop_ok fuel pfuel dst n (Z.to_nat (n - 1)) [] []  line echo rest input out ps s); try done.
  - by rewrite app_nil_r.
  - cbn [length]. lia.
  - rewrite <- (ta_rx _ _ _ _ Hs). apply rx_bytes.
Qed.
End Reading.

(** ** A UART that is always ready *)

Record typed : Type := mkTyped { t_in : list Z; t_out : list Z }.
#[local] Instance typed_uart : Uart typed := {|
  reg_load r v :=
    if r =? UART_LSR then ((match t_in v with [] => 0x20 | _ => 0x21 end), v)
    else match t_in v with [] => (0, v) | c :: l => (u8 c, mkTyped l (t_out v)) end;
  reg_store r c v := mkTyped (t_in v) (t_out v ++ [c]) |}.
#[local] Instance typed_laws : UartLaws typed.
Proof.
  refine {| rx v := map u8 (t_in v); tx := t_out; busy _ := 0%nat; busy_bound := 0%nat |}.
  - intros [[|c i] o]; cbn; split_and!; try done; intros; done || discriminate.
  - intros [[|c' i] o] c r; cbn; intros E; [done|]. by injection E as -> ->.
  - intros [[|c' i] o] c; cbn; intros _; done.
  - intros v. apply Forall_map, Forall_forall. intros c _. apply u8_range.
  - done.
Defined.
#[local] Instance typed_terminal : Terminal (psys * typed) typed.
Proof.
  unshelve refine {|
    term_ps := {| lget := fst; lput := fun x s => (x, snd s) |};
    term_uart := {| lget := snd; lput := fun x s => (fst s, x) |} |}; try done; by intros [].
Defined.

(** "ab", erased "b", "c", return, "d". *)
Definition demo_keys : typed := mkTyped [97; 98; 127; 99; 13; 100] [].
Lemma console_read_edits_line_witness :
  exists s' m', console_read (V := typed) 500 4 (kret tt) 800 10 2 false 4000 64 (demo_running, demo_keys) = Ret (3, s') /\
    t_in (snd s') = [100] /\ t_out (snd s') = [97; 98; 8; 32; 8; 99; 10] /\ mget m' 4000 3 = [97; 99; 13].
Proof.
  destruct (console_read_edits_line (V := typed) 500 4 (kret tt) 800 10 2 4000 64 demo_running [97; 98; 127; 99; 13; 100] []
    [97; 99; 13] [97; 98; 8; 32; 8; 99; 10] [100] (demo_running, demo_keys)) as (s' & m' & R & [_ Ht _] & Hm & _).
  - by split.
  - lia.
  - reflexivity.
  - cbn. lia.
  - cbn. lia.
  - exists s', m'. split; [exact R|]. split; [|split; [exact Ht|exact Hm]].
    vm_compute in R. injection R as <-. reflexivity.
Defined.
