(* ===== verification/File.v ===== *)
(** Open files: src/kernel/fs/file.c and src/kernel/fs/vfs.c.

    A process refers to its open files by number. [struct file] objects are
    records keyed by their address; their list elements are among the links of
    the process system, where the list [file_list] of a process is. *)
From S2P Require Import Prelude CString Bytes Spinlock DList Pm Ids Proc Schedule Sleep Virt Buf Fat32 Fs Console.

Definition O_RDONLY : Z := 0.
Definition O_WRONLY : Z := 1.
Definition O_RDWR : Z := 2.
Definition SEEK_SET : Z := 0.
Definition SEEK_CUR : Z := 1.
Definition SEEK_END : Z := 2.

Definition felem (f : addr) : addr := f + 32.
Definition file_of_elem (e : addr) : addr := e - 32.
Definition set_f_pos (x : Z) (f : file) : file := mkFile (f_fd f) (f_dirent f) x (deny_write f) (f_flag f) (f_type f).

(** 64-bit two's complement. *)
Definition s64 (x : Z) : Z := let y := u64 x in if y <? 2 ^ 63 then y else y - 2 ^ 64.

(** [kalloc(sizeof(struct file), FILE_MODE)] and its [kfree]. *)
Class Heap (S : Type) : Type := { hp_alloc : K S addr; hp_free : addr -> K S unit }.

Section File.
Context {S V : Type} `{Cache S} `{Pages S} `{Heap S} `{Terminal S V} `{Uart V}.
Context (fr : frame) (run_queue : addr) (qfuel : nat) (swtch : K S unit) (ch_at lit_console : addr).
#[local] Abbreviation F := (K (S * fsst)).

Definition kern {A} (m : K psys A) : F A := base (via m).
Definition getf {A} (f : file -> A) (a : addr) : F A := tabs (fun s =>
  match ft_files s !! a with Some x => Ret (f x, s) | None => Fault end).
Definition setf (f : file -> file) (a : addr) : F unit := tabs (fun s =>
  match ft_files s !! a with Some x => Ret (tt, put_files (<[a := f x]> (ft_files s)) s) | None => Fault end).
(** The bitmap of descriptors with the locks of the hart. *)
Definition fd_op {A} (m : K bmst A) : F A :=
  zoom (fun s => mkBm (ps_lk (lget (fst s))) (fd_bitmap (snd s)))
    (fun x s => (lput (put_lk (bm_lk x) (lget (fst s))) (fst s), put_fds (bits x) (snd s))) m.

(** An object that comes into being, with its list element, and one that goes. *)
Definition new_file (f : addr) (x : file) : F unit :=
  tabs (kmod (fun s => put_files (<[f := x]> (ft_files s)) s)) ;;
  kern (list_op (kmod (insert (felem f) (Elem 0 0)))).
Definition delete_file (f : addr) : F unit :=
  tabs (kmod (fun s => put_files (delete f (ft_files s)) s)) ;;
  kern (list_op (kmod (delete (felem f)))).

(** *** file.c *)

Definition filesys_init (fuel : nat) : F unit :=
  a <- alloc_fs fr ;;
  tabs (kmod (put_fat_fs a)) ;;
  dirent_init fr ;;
  setfs (put_image 0) a ;;
  setfs (put_device 0) a ;;
  kern (lock_op (initlock fd_lock)) ;;
  tabs (kmod (fun s => put_fds (replicate (length (fd_bitmap s)) 0) s)) ;;
  fat32_init fr fuel a.

Definition file_open (fuel : nat) (base_dir path flags : Z) : F addr :=
  d <- get_file fr fuel base_dir path ;;
  if d =? NULL then kret NULL else
  mode <- getd d_mode d ;;
  if negb (Z.land (u32 (Z.lnot mode)) (u32 flags) =? 0) then kret NULL else
  setd (set_d_flag (u32 flags)) d ;;
  kret d.

Definition file_close (d : addr) : F bool :=
  if d =? NULL then kret false else
  n <- getd linkcnt d ;;
  let n := u32 (n - 1) in
  setd (set_linkcnt n) d ;;
  kwhen (n =? 0) (dirent_free fr d) ;;
  kret true.

(** [wild] is the uninitialised pointer of [createItemAt]. *)
Definition file_create (fuel : nat) (dir path wild : addr) : F bool := createItemAt fr fuel dir path wild.

Definition file_read (fuel : nat) (d dst offset sz : Z) : F Z :=
  if (d =? NULL) || (dst =? NULL) then kret (u64 (-1)) else
  if sz =? 0 then kret 0 else
  flag <- getd d_flag d ;;
  if (flag =? O_RDONLY) || (flag =? O_RDWR) then
    r <- fileread fuel d dst (u32 offset) (u32 sz) ;; kret (u64 r)
  else kret (u64 (-1)).

Definition file_write (fuel : nat) (d src offset sz : Z) : F Z :=
  if (d =? NULL) || (src =? NULL) then kret (u64 (-1)) else
  if sz =? 0 then kret 0 else
  flag <- getd d_flag d ;;
  if (flag =? O_WRONLY) || (flag =? O_RDWR) then
    r <- filewrite fr fuel d src (u32 offset) (u32 sz) ;; kret (u64 r)
  else kret (u64 (-1)).

(** [clus_num - i] clusters are left. *)
Fixpoint remove_loop (n : nat) (x : filesystem) (clus : Z) : K S bool :=
  match n with
  | O => kret true
  | Datatypes.S n =>
      if FAT32_isEOF clus then kret false else
      next <- fatread x clus ;;
      clusfree x clus 0 ;;
      remove_loop n x next
  end.
Definition file_remove (fuel : nat) (base_dir filename : addr) : F bool :=
  d <- get_file fr fuel base_dir filename ;;
  clus <- getd first_cluster d ;;
  a <- getd d_fs d ;;
  x <- getfs a ;;
  let clus_size := CLUSTER_SIZE x in
  size <- getd d_size d ;;
  if clus_size =? 0 then kfault else
  let clus_num := u32 (size / clus_size + (if size mod clus_size =? 0 then 0 else 1)) in
  base (remove_loop (Z.to_nat clus_num) x clus).

(** *** vfs.c *)

Fixpoint find_file_loop (n : nat) (l e fd : Z) : F addr :=
  match n with
  | O => knofuel
  | Datatypes.S n =>
      t <- kern (list_op (list_end l)) ;;
      if e =? t then kret NULL else
      let f := file_of_elem e in
      x <- getf f_fd f ;;
      if x =? u32 fd then kret f else
      e' <- kern (list_op (list_next e)) ;; find_file_loop n l e' fd
  end.
Definition find_file (fuel : nat) (l fd : Z) : F addr :=
  e <- kern (list_op (list_begin l)) ;; find_file_loop fuel l e fd.

(** [p->cwd ? p->cwd->dirent : NULL]. *)
Definition cwd_dirent (p : addr) : F addr :=
  c <- kern (getp cwd p) ;; if c =? NULL then kret NULL else getf f_dirent c.

Definition filesys_create (fuel : nat) (p path wild : addr) : F bool :=
  dir <- cwd_dirent p ;;
  d <- dirent_alloc fr ;;
  base (ASSERT_INFO (negb (d =? NULL)) "alloc dirent fault") ;;
  r <- file_create fuel dir path wild ;;
  if negb r then dirent_free fr d ;; kret false else kret true.

Definition filesys_open (fuel : nat) (p path flags : Z) : F Z :=
  c <- the_mem (fun m => strncmp m path lit_console 7) ;;
  d <- (if c =? 0 then kret (Some (FD_DEVICE, NULL)) else
        dir <- cwd_dirent p ;;
        d <- file_open fuel dir path flags ;;
        if d =? NULL then kret None else kret (Some (FD_FILE, d))) ;;
  match d with
  | None => kret (-1)
  | Some (type, d) =>
      f <- base hp_alloc ;;
      if f =? NULL then kfault else
      fd <- fd_op alloc_fd ;;
      new_file f (mkFile (u32 fd) d 0 false (u32 flags) type) ;;
      kern (list_op (list_push_back (file_list_of p) (felem f))) ;;
      kret (s32 fd)
  end.

Definition filesys_write (fuel pfuel : nat) (p fd src size : Z) : F Z :=
  f <- find_file fuel (file_list_of p) fd ;;
  if f =? NULL then kret (-1) else
  t <- getf f_type f ;;
  match t with
  | FD_DEVICE => base (console_write (V := V) ch_at pfuel false src (s32 size))
  | _ =>
      d <- getf f_dirent f ;;
      pos <- getf f_pos f ;;
      r <- file_write fuel d src pos size ;;
      pos <- getf f_pos f ;;
      setf (set_f_pos (s64 (pos + r))) f ;;
      kret (s64 r)
  end.

Definition filesys_read (fuel pfuel : nat) (p fd buf size : Z) : F Z :=
  f <- find_file fuel (file_list_of p) fd ;;
  if f =? NULL then kret (-1) else
  t <- getf f_type f ;;
  match t with
  | FD_DEVICE => base (console_read (V := V) run_queue qfuel swtch ch_at fuel pfuel false buf (s32 size))
  | _ =>
      d <- getf f_dirent f ;;
      pos <- getf f_pos f ;;
      r <- file_read fuel d buf pos size ;;
      pos <- getf f_pos f ;;
      setf (set_f_pos (s64 (pos + r))) f ;;
      kret (s64 r)
  end.

(** Frees the descriptor, the list element and the object. *)
Definition drop_file (f : addr) : F unit :=
  fd <- getf f_fd f ;;
  fd_op (free_fd (s32 fd)) ;;
  kern (list_op (list_remove (felem f))) ;;
  base (hp_free f) ;;
  delete_file f.

Definition filesys_close (fuel : nat) (p fd : Z) : F bool :=
  f <- find_file fuel (file_list_of p) fd ;;
  if f =? NULL then kret true else
  d <- getf f_dirent f ;;
  drop_file f ;;
  file_close d.

(** [strncmp(file->dirent->name, name, strlen(name)) == 0]; the name of an
    entry is at the entry's own address. *)
Definition contian_of (fuel : nat) (f name : addr) : F bool :=
  d <- getf f_dirent f ;;
  x <- getd d_name d ;;
  n <- res_k (fun m => strlen fuel m name) ;;
  c <- the_mem (fun m => strncmp (mput m d x) d name n) ;;
  kret (c =? 0).
Fixpoint named_loop (n fuel : nat) (l e name : Z) : F addr :=
  match n with
  | O => knofuel
  | Datatypes.S n =>
      t <- kern (list_op (list_end l)) ;;
      if e =? t then kret NULL else
      b <- contian_of fuel (file_of_elem e) name ;;
      if (b : bool) then kret (file_of_elem e) else
      e' <- kern (list_op (list_next e)) ;; named_loop n fuel l e' name
  end.
Definition filesys_remove (fuel : nat) (p filename : addr) : F bool :=
  e <- kern (list_op (list_begin (file_list_of p))) ;;
  f <- named_loop fuel fuel (file_list_of p) e filename ;;
  if f =? NULL then kret false else
  d <- getf f_dirent f ;;
  drop_file f ;;
  ret <- file_remove fuel d filename ;;
  file_close d ;;
  kret ret.

Definition filesys_seek (fuel : nat) (p fd offset mode : Z) : F unit :=
  f <- find_file fuel (file_list_of p) fd ;;
  if mode =? SEEK_SET then setf (set_f_pos offset) f
  else if mode =? SEEK_CUR then pos <- getf f_pos f ;; setf (set_f_pos (s64 (pos + offset))) f
  else if mode =? SEEK_END then d <- getf f_dirent f ;; size <- getd d_size d ;; setf (set_f_pos (s64 size)) f
  else kassert false.
End File.

(** ** Reading through a descriptor *)

Section Reading.
Context {S V : Type} `{CacheLaws S} `{Terminal S V} `{Uart V}.
Context (run_queue : addr) (qfuel : nat) (swtch : K S unit) (ch_at : addr).

Lemma kern_read {A} (m : K psys A) (b : S) (t : fsst) a : m (lget b) = Ret (a, lget b) -> kern m (b, t) = Ret (a, (b, t)).
Proof. intros E. unfold kern. apply base_ok. rewrite (via_ret _ _ _ _ E). by rewrite lput_lget. Qed.
Lemma getf_ok {A} (g : file -> A) f (b : S) t r : ft_files t !! f = Some r -> getf g f (b, t) = Ret (g r, (b, t)).
Proof. intros E. unfold getf, tabs, zoom. cbn. by rewrite E. Qed.
Lemma setf_ok g f (b : S) t r : ft_files t !! f = Some r -> setf g f (b, t) = Ret (tt, (b, put_files (<[f := g r]> (ft_files t)) t)).
Proof. intros E. unfold setf, tabs, zoom. cbn. by rewrite E. Qed.

(** The files of a process, in the order of its list. *)
Definition file_list (b : S) (t : fsst) (l : addr) (fl : list addr) : Prop :=
  dlist (ps_links (lget b)) l (map felem fl) /\ forall f, f ∈ fl -> is_Some (ft_files t !! f).
Definition has_fd (t : fsst) (fd : Z) (f : addr) : bool := match ft_files t !! f with Some r => f_fd r =? u32 fd | None => false end.

Lemma find_file_loop_ok (b : S) t l fd : forall B A n, file_list b t l (A ++ B) -> (length B < n)%nat ->
  find_file_loop n l (cur l (map felem B)) fd (b, t) = Ret (default NULL (List.find (has_fd t fd) B), (b, t)).
Proof.
  induction B as [|f B IH]; intros A [|n] [HL HF] Hn; cbn [length] in Hn; try lia; cbn [find_file_loop];
    rewrite map_app in HL; (erewrite kbind_ret by (apply kern_read, list_read_ok; by eapply end_ok));
    rewrite (cur_tail _ l (map felem A)) by done.
  - cbn. done.
  - cbn [map]. rewrite cur_cons. rewrite bool_decide_eq_false_2 by done.
    replace (file_of_elem (felem f)) with f by (unfold file_of_elem, felem; lia).
    destruct (HF f) as [r Hr]; [apply elem_of_app; right; left|]. erewrite kbind_ret by by apply getf_ok.
    cbn [List.find]. unfold has_fd at 1. rewrite Hr. destruct (f_fd r =? u32 fd); [done|].
    erewrite kbind_ret by (apply kern_read, list_read_ok; by eapply (next_elem _ l (map felem A) (felem f) (map felem B))).
    apply (IH (A ++ [f])); [|lia]. split; [|by rewrite <- app_assoc]. rewrite map_app, map_app, <- app_assoc. exact HL.
Qed.
Lemma find_file_ok (b : S) t l fd fl n : file_list b t l fl -> (length fl < n)%nat ->
  find_file n l fd (b, t) = Ret (default NULL (List.find (has_fd t fd) fl), (b, t)).
Proof.
  intros HF Hn. unfold find_file. erewrite kbind_ret by (apply kern_read, list_read_ok; eapply begin_ok; apply HF).
  by apply (find_file_loop_ok b t l fd fl [] n).
Qed.

Lemma s64_add a r : - 2 ^ 62 <= r < 2 ^ 62 -> 0 <= a < 2 ^ 62 -> s64 (a + u64 r) = a + r.
Proof.
  intros Hr Ha. unfold s64. replace (u64 (a + u64 r)) with (u64 (a + r)) by (unfold u64, wrap; by rewrite Zplus_mod_idemp_r).
  destruct (Z.leb_spec 0 (a + r)).
  - rewrite u64_small by lia. by rewrite (proj2 (Z.ltb_lt _ _)) by lia.
  - replace (u64 (a + r)) with (a + r + 2 ^ 64).
    + rewrite (proj2 (Z.ltb_ge _ _)) by lia. lia.
    + unfold u64, wrap. rewrite <- (Z_mod_plus_full (a + r) 1). symmetry. apply Z.mod_small. lia.
Qed.

Definition readable (flag : Z) : bool := (flag =? O_RDONLY) || (flag =? O_RDWR).
Definition at_pos (t : fsst) (f : addr) (r : file) (pos : Z) : fsst := put_files (<[f := set_f_pos pos r]> (ft_files t)) t.
(** What a read of a regular file returns. *)
Definition read_result (x : filesystem) (flag size pos n : Z) : Z :=
  if readable flag then if size <? pos then - E_EXCEED_FILE else moved x size pos n else -1.

Lemma file_read_ok (x : filesystem) t W d e cl size (b : S) D pos n dst :
  geometry x -> deviceNum x = cache_dev -> file_at x t W d cl size -> ft_dirs t !! d = Some e -> holds x b D W ->
  d <> NULL -> dst <> NULL -> 0 <= pos -> 0 < n < 2 ^ 31 -> pos + n < 2 ^ 32 ->
  let k := read_result x (d_flag e) size pos n in
  -3 <= k <= n /\
  exists b', file_read 256 d dst pos n (b, t) = Ret (u64 k, (b', t)) /\
    holds x b' D (mkVol (v_fat W) (v_clus W) (mput (v_mem W) dst (sub (content W cl) pos k))).
Proof.
  intros G Hdev HF He HV Hd Hdst Hpos Hn Hpn k. unfold file_read, k, read_result.
  rewrite (proj2 (Z.eqb_neq d NULL) Hd), (proj2 (Z.eqb_neq dst NULL) Hdst), (proj2 (Z.eqb_neq n 0)) by lia. cbn [orb].
  erewrite kbind_ret by by apply getd_ok. change ((d_flag e =? O_RDONLY) || (d_flag e =? O_RDWR)) with (readable (d_flag e)).
  destruct (readable (d_flag e)); [|by split; [lia|exists b; split; [done|destruct W]]].
  rewrite (u32_small pos), (u32_small n) by lia. destruct (Z.ltb_spec size pos) as [Hlt|Hge].
  - split; [unfold E_EXCEED_FILE; lia|]. exists b. split; [|by destruct W]. destruct HF as [(e' & He' & Hs & _) _ _ _].
    assert (e' = e) as -> by congruence.
    erewrite kbind_ret; [reflexivity|]. unfold fileread. erewrite kbind_ret by by apply getd_ok.
    by rewrite Hs, (proj2 (Z.ltb_lt size pos)).
  - pose proof (moved_range x G size pos n ltac:(lia) ltac:(lia)) as Hk.
    destruct (fileread_ok x G Hdev t W d cl size b D pos n dst HF HV) as (b' & R & V'); [lia..|]. split; [lia|].
    exists b'. split; [|exact V']. by erewrite kbind_ret by exact R.
Qed.

(** [filesys_read] on a regular file reads at the position of the
    descriptor and moves it by what it returns: successive reads return
    successive parts of the file, until 0 at its end. A read that fails (past
    the end, or a descriptor not open for reading) returns its error and moves
    the position back by that much (vfs.c:98). *)
Theorem filesys_read_advances (x : filesystem) t W p fd fl f r e cl size (b : S) D n dst pfuel :
  geometry x -> deviceNum x = cache_dev -> holds x b D W ->
  file_list b t (file_list_of p) fl -> (length fl < 256)%nat -> List.find (has_fd t fd) fl = Some f -> f <> NULL ->
  ft_files t !! f = Some r -> f_type r = FD_FILE -> f_dirent r <> NULL -> ft_dirs t !! f_dirent r = Some e ->
  file_at x t W (f_dirent r) cl size -> dst <> NULL -> 0 <= f_pos r -> 0 < n < 2 ^ 31 -> f_pos r + n < 2 ^ 32 ->
  let k := read_result x (d_flag e) size (f_pos r) n in
  exists b', filesys_read (V := V) run_queue qfuel swtch ch_at 256 pfuel p fd dst n (b, t) = Ret (k, (b', at_pos t f r (f_pos r + k))) /\
    holds x b' D (mkVol (v_fat W) (v_clus W) (mput (v_mem W) dst (sub (content W cl) (f_pos r) k))).
Proof.
  intros G Hdev HV HL Hlen Hfind Hf Hr Ht Hd He HF Hdst Hpos Hn Hpn k. unfold filesys_read.
  erewrite kbind_ret by (eapply (find_file_ok b t _ fd fl); done). rewrite Hfind. change (default NULL (Some f)) with f.
  rewrite (proj2 (Z.eqb_neq f NULL) Hf). erewrite kbind_ret by by apply getf_ok. rewrite Ht.
  erewrite kbind_ret by by apply getf_ok. erewrite kbind_ret by by apply getf_ok.
  destruct (file_read_ok x t W (f_dirent r) e cl size b D (f_pos r) n dst G Hdev HF He HV Hd Hdst Hpos Hn Hpn) as (Hk & b' & R & V').
  fold k in Hk, R, V'. exists b'. split; [|exact V']. erewrite kbind_ret by exact R. erewrite kbind_ret by by apply getf_ok.
  rewrite s64_add by lia. erewrite kbind_ret by (apply setf_ok; exact Hr). unfold kret.
  pose proof (s64_add 0 k) as Hs. rewrite !Z.add_0_l in Hs. by rewrite Hs by lia.
Qed.
End Reading.

(** ** A disk in memory, and a process with one open file *)

Record ram : Type := mkRam { r_ps : psys; r_disk : Z -> list Z; r_bufs : gmap addr (Z * list Z) }.
Definition put_ram_bufs (X : gmap addr (Z * list Z)) (s : ram) : ram := mkRam (r_ps s) (r_disk s) X.
#[local] Instance ram_ps : Lens ram psys.
Proof. by refine {| lget := r_ps; lput := fun x s => mkRam x (r_disk s) (r_bufs s) |}; intros []. Defined.
#[local] Instance ram_mem : Lens ram mem.
Proof.
  refine {| lget := fun s => mem_of (r_ps s); lput := fun m s => mkRam (put_mem m (r_ps s)) (r_disk s) (r_bufs s) |}; try done.
  by intros [[[] ? ? ? ? ?] ? ?].
Defined.
(** The buffer of block [n] is at [n + 1]. *)
#[local] Instance ram_cache : Cache ram := {|
  cache_mem := ram_mem;
  c_bread dev n s := Ret (n + 1, put_ram_bufs (<[n + 1 := (n, r_disk s n)]> (r_bufs s)) s);
  c_bwrite b s := match r_bufs s !! b with
    | Some (n, x) => Ret (tt, mkRam (r_ps s) (disk_upd n x (r_disk s)) (r_bufs s)) | None => Fault end;
  c_brelse b s := Ret (tt, put_ram_bufs (delete b (r_bufs s)) s);
  c_data b s := match r_bufs s !! b with Some (_, x) => Ret (x, s) | None => Fault end;
  c_set_data f b s := match r_bufs s !! b with
    | Some (n, x) => Ret (tt, put_ram_bufs (<[b := (n, f x)]> (r_bufs s)) s) | None => Fault end ; c_log _ := kret tt |}.

Record ram_ok (s : ram) (D : Z -> list Z) (X : gmap addr (Z * list Z)) : Prop := {
  ro_disk : forall n, 0 <= n < 2 ^ 32 -> r_disk s n = D n /\ length (D n) = 512%nat;
  ro_bufs : r_bufs s = X;
  ro_key : forall b n x, X !! b = Some (n, x) -> b = n + 1 /\ length x = 512%nat
}.
#[local] Instance ram_laws : CacheLaws ram.
Proof.
  refine {| cache_dev := 0; cached := ram_ok |}.
  - intros s D X n [Hd _ _] Hn. by apply Hd.
  - intros s D X m [Hd Hb Hk]. by split.
  - intros s D X n [Hd Hb Hk] Hne _ Hn. exists (n + 1), (put_ram_bufs (<[n + 1 := (n, r_disk s n)]> (r_bufs s)) s).
    destruct (Hd n Hn) as [E El]. split; [done|]. split; [|split; [|done]].
    + destruct (X !! (n + 1)) as [[k x]|] eqn:Ex; [|done]. destruct (Hk _ _ _ Ex) as [Ek _].
      destruct (Hne _ _ Ex). cbn. lia.
    + split; [done|cbn; by rewrite Hb, E|]. intros b k x [[<- [= <- <-]]|[_ Hx]]%lookup_insert_Some; [done|by apply Hk].
  - intros s D X b n x [_ Hb _] Hx. cbn. by rewrite Hb, Hx.
  - intros s D X b n x f [Hd Hb Hk] Hx Hl. cbn. rewrite Hb, Hx. eexists. split; [done|]. split; [|done].
    split; [done|done|]. intros b' k y [[<- [= <- <-]]|[_ Hy]]%lookup_insert_Some; [|by apply Hk].
    split; [by destruct (Hk _ _ _ Hx)|done].
  - intros s D X b n x [Hd Hb Hk] Hx. cbn. rewrite Hb, Hx. eexists. split; [done|]. split; [|done].
    split; [|done|done]. intros k Hn. cbn. destruct (Hd k Hn) as [E El]. unfold disk_upd. destruct (k =? n); [|done].
    split; [done|]. by destruct (Hk _ _ _ Hx).
  - intros s D X b n [Hd Hb Hk] Hx. eexists. split; [done|]. split; [|done].
    split; [done|cbn; by rewrite Hb|]. intros b' k y [_ Hy]%lookup_delete_Some. by apply Hk.
Defined.

(** No UART. *)
#[local] Instance no_uart : Uart unit := {| reg_load _ v := (0, v); reg_store _ _ v := v |}.
#[local] Instance lens_unit : Lens ram unit.
Proof. by refine {| lget := fun _ => tt; lput := fun _ s => s |}; intros []. Defined.
#[local] Instance ram_terminal : Terminal ram unit.
Proof. by refine {| term_ps := ram_ps; term_uart := lens_unit |}. Defined.

(** The process at 1000 has the file at 9000 open as descriptor 3, at position
    500; the file has the clusters 2 and 3 and holds 900 bytes. *)
Definition demo_fat : list Z := concat [le32 0x0ffffff8; le32 0x0fffffff; le32 3; le32 0x0fffffff] ++ replicate 496 0.
Definition demo_disk : Z -> list Z := fun n => if n =? 32 then demo_fat else replicate 512 n.
Definition demo_open : gmap addr elem :=
  <[1080 := Elem 0 9032]> (<[9032 := Elem 1080 1096]> {[1096 := Elem 9032 0]}).
Definition demo_ram : ram := mkRam (put_links demo_open demo_running) (fun n => u8 <$> demo_disk n) ∅.
Definition demo_descriptors : fsst :=
  put_files {[9000 := mkFile 3 20000 500 false 0 FD_FILE]} demo_tables.
Definition demo_vol : vol :=
  mkVol (fun c => ld32 (image (r_disk demo_ram)) (fat_addr demo_fs c))
    (fun c => mget (image (r_disk demo_ram)) (clus_addr demo_fs c) 512) (lget demo_ram).

Lemma demo_ram_holds : holds demo_fs demo_ram (r_disk demo_ram) demo_vol.
Proof.
  split; [|done|done|done]. split; [|done|].
  - intros n Hn. split; [done|]. cbn [r_disk demo_ram]. rewrite length_fmap. unfold demo_disk. by destruct (n =? 32).
  - intros b n x Hx. by rewrite lookup_empty in Hx.
Qed.
Lemma demo_ram_file : file_at demo_fs demo_descriptors demo_vol 20000 [2; 3] 900.
Proof.
  split.
  - exists (demo_file 900 2). repeat split; reflexivity.
  - vm_compute. split; reflexivity.
  - repeat (apply Forall_cons; split); [..|apply Forall_nil]; unfold cluster; cbn; lia.
  - vm_compute. repeat split; discriminate.
Qed.

Lemma filesys_read_advances_witness :
  exists s, filesys_read (V := unit) 500 4 (kret tt) 800 256 10 1000 3 4000 100 (demo_ram, demo_descriptors) =
      Ret (12, (s, at_pos demo_descriptors 9000 (mkFile 3 20000 500 false 0 FD_FILE) 512)) /\
    ld8 (lget (T := mem) s) 4000 = 34.
Proof.
  destruct (filesys_read_advances (V := unit) 500 4 (kret tt) 800 demo_fs demo_descriptors demo_vol 1000 3 [9000] 9000
    (mkFile 3 20000 500 false 0 FD_FILE) (demo_file 900 2) [2; 3] 900 demo_ram (r_disk demo_ram) 100 4000 10) as (s & R & V).
  - apply demo_geometry.
  - reflexivity.
  - apply demo_ram_holds.
  - split.
    + split; try (vm_compute; reflexivity).
      * vm_compute. repeat split; reflexivity.
      * apply (bool_decide_unpack _). vm_compute. exact I.
      * apply (bool_decide_unpack _). vm_compute. exact I.
    + intros f ->%list_elem_of_singleton. by eexists.
  - cbn. lia.
  - reflexivity.
  - done.
  - reflexivity.
  - reflexivity.
  - done.
  - reflexivity.
  - apply demo_ram_file.
  - done.
  - done.
  - lia.
  - done.
  - exists s. split; [exact R|]. change (ld8 (@lget _ _ (@cache_mem _ ram_cache) s) 4000 = 34). rewrite (h_mem _ _ _ _ V). vm_compute. reflexivity.
Defined.
