(* ===== verification/Umalloc.v ===== *)
(** The heap of a user program: src/user/stdlib.c and src/user/include/stdlib.h.

    A boundary-tag allocator over one contiguous heap that [sbrk] extends. The
    heap is seen as a list of blocks, each with its size and whether it is
    allocated; [tagged] ties the list to the words in memory. [printf] in the
    error path of [mem_sbrk] is left out. *)
From S2P Require Import Prelude CString Bytes.

Definition WSIZE : Z := 4.
Definition DSIZE : Z := 8.
Definition CHUNKSIZE : Z := 2 ^ 12.
Definition PACK (size alloc : Z) : Z := Z.lor size alloc.
Definition GET_SIZE (m : mem) (p : Z) : Z := Z.land (ld32 m p) (u32 (Z.lnot 7)).
Definition GET_ALLOC (m : mem) (p : Z) : Z := Z.land (ld32 m p) 1.
Definition HDRP (bp : Z) : Z := bp - WSIZE.
Definition FTRP (m : mem) (bp : Z) : Z := bp + GET_SIZE m (HDRP bp) - DSIZE.
Definition NEXT_BLKP (m : mem) (bp : Z) : Z := bp + GET_SIZE m (bp - WSIZE).
Definition PREV_BLKP (m : mem) (bp : Z) : Z := bp - GET_SIZE m (bp - DSIZE).

(** What the kernel keeps of the process, and its system call. *)
Class Os (W : Type) : Type := { sys_sbrk : Z -> mem * W -> Z * (mem * W) }.

(** The memory of the process, its two private variables, and the kernel. *)
Record umst (W : Type) : Type := mkUm { u_mem : mem; mem_heap_start : Z; mem_heap_end : Z; u_os : W }.
Arguments mkUm {W}.
Arguments u_mem {W}.
Arguments mem_heap_start {W}.
Arguments mem_heap_end {W}.
Arguments u_os {W}.

Section Umalloc.
Context {W : Type} `{Os W}.
#[local] Abbreviation U := (K (umst W)).

Definition put_umem (m : mem) (s : umst W) : umst W := mkUm m (mem_heap_start s) (mem_heap_end s) (u_os s).
Definition put_start (x : Z) (s : umst W) : umst W := mkUm (u_mem s) x (mem_heap_end s) (u_os s).
Definition put_end (x : Z) (s : umst W) : umst W := mkUm (u_mem s) (mem_heap_start s) x (u_os s).

Definition rd {A} (f : mem -> A) : U A := kget (fun s => f (u_mem s)).
Definition PUT (p : mem -> Z) (val : Z) : U unit := kmod (fun s => put_umem (st32 (u_mem s) (p (u_mem s)) val) s).
Definition at_ (p : Z) : mem -> Z := fun _ => p.

Definition sbrk (incr : Z) : U Z := fun s =>
  let '(r, (m, o)) := sys_sbrk (u32 incr) (u_mem s, u_os s) in
  Ret (r, mkUm m (mem_heap_start s) (mem_heap_end s) o).
Definition FAILED : Z := u64 (-1).

Definition mem_sbrk (incr : Z) : U Z :=
  old_brk <- kget mem_heap_end ;;
  if incr <? 0 then kret FAILED else
  ret <- sbrk incr ;;
  if ret =? FAILED then kret FAILED else
  kmod (fun s => put_end (mem_heap_end s + incr) s) ;;
  kret old_brk.

Fixpoint find_loop (fuel : nat) (bp size : Z) : U Z :=
  match fuel with
  | O => knofuel
  | S fuel =>
      m <- rd (fun m => m) ;;
      if 0 <? GET_SIZE m (HDRP bp) then
        if (GET_ALLOC m (HDRP bp) =? 0) && (size <=? GET_SIZE m (HDRP bp)) then kret bp
        else find_loop fuel (NEXT_BLKP m bp) size
      else kret 0
  end.
Definition find_fit (fuel : nat) (size : Z) : U Z := bp <- kget mem_heap_start ;; find_loop fuel bp size.

Definition place (bp asize : Z) : U unit :=
  csize <- rd (fun m => GET_SIZE m (HDRP bp)) ;;
  if 2 * DSIZE <=? u32 (csize - asize) then
    PUT (at_ (HDRP bp)) (PACK asize 1) ;;
    PUT (fun m => FTRP m bp) (PACK asize 1) ;;
    bp <- rd (fun m => NEXT_BLKP m bp) ;;
    PUT (at_ (HDRP bp)) (PACK (u32 (csize - asize)) 0) ;;
    PUT (fun m => FTRP m bp) (PACK (u32 (csize - asize)) 0)
  else
    PUT (at_ (HDRP bp)) (PACK csize 1) ;;
    PUT (fun m => FTRP m bp) (PACK csize 1).

Definition coalesce (bp : Z) : U Z :=
  m <- rd (fun m => m) ;;
  let prev_alloc := negb (GET_ALLOC m (FTRP m (PREV_BLKP m bp)) =? 0) in
  let next_alloc := negb (GET_ALLOC m (HDRP (NEXT_BLKP m bp)) =? 0) in
  let size := GET_SIZE m (HDRP bp) in
  if prev_alloc && next_alloc then kret bp
  else if prev_alloc && negb next_alloc then
    let size := u32 (size + GET_SIZE m (HDRP (NEXT_BLKP m bp))) in
    PUT (fun m => FTRP m bp) (PACK size 0) ;;
    PUT (fun m => FTRP m bp) (PACK size 0) ;;
    kret bp
  else if negb prev_alloc && next_alloc then
    let size := u32 (size + GET_SIZE m (HDRP (PREV_BLKP m bp))) in
    PUT (fun m => FTRP m bp) (PACK size 0) ;;
    PUT (fun m => HDRP (PREV_BLKP m bp)) (PACK size 0) ;;
    rd (fun m => PREV_BLKP m bp)
  else
    let size := u32 (size + u32 (GET_SIZE m (HDRP (PREV_BLKP m bp)) + GET_SIZE m (FTRP m (NEXT_BLKP m bp)))) in
    PUT (fun m => HDRP (PREV_BLKP m bp)) (PACK size 0) ;;
    PUT (fun m => FTRP m (NEXT_BLKP m bp)) (PACK size 0) ;;
    rd (fun m => PREV_BLKP m bp).

Definition extend_heap (words : Z) : U Z :=
  let size := if words mod 2 =? 0 then u32 (words * WSIZE) else u32 (u32 (words + 1) * WSIZE) in
  bp <- mem_sbrk (s32 size) ;;
  if bp =? FAILED then kret 0 else
  PUT (at_ (HDRP bp)) (PACK size 0) ;;
  PUT (fun m => FTRP m bp) (PACK size 0) ;;
  PUT (fun m => HDRP (NEXT_BLKP m bp)) (PACK 0 1) ;;
  coalesce bp.

Definition mm_init : U Z :=
  b <- sbrk 0 ;;
  kmod (put_start b) ;;
  kmod (put_end b) ;;
  r <- mem_sbrk (4 * WSIZE) ;;
  if r =? FAILED then kret (-1) else
  PUT (at_ b) 0 ;;
  PUT (at_ (b + 1 * WSIZE)) (PACK DSIZE 1) ;;
  PUT (at_ (b + 2 * WSIZE)) (PACK DSIZE 1) ;;
  PUT (at_ (b + 3 * WSIZE)) (PACK 0 1) ;;
  kmod (put_start (b + 2 * WSIZE)) ;;
  e <- extend_heap (CHUNKSIZE / WSIZE) ;;
  if e =? 0 then kret (-1) else kret 0.

Definition ensure_mm_init : U Z :=
  b <- kget mem_heap_start ;; if negb (b =? 0) then kret 0 else mm_init.

Definition adjusted (size : Z) : Z :=
  if size <=? DSIZE then 2 * DSIZE else u32 (DSIZE * (u32 (size + DSIZE + (DSIZE - 1)) / DSIZE)).

Definition malloc (fuel : nat) (size : Z) : U Z :=
  r <- ensure_mm_init ;;
  if r <? 0 then kret 0 else
  if size =? 0 then kret 0 else
  let asize := adjusted size in
  bp <- find_fit fuel asize ;;
  if negb (bp =? 0) then place bp asize ;; kret bp else
  let extendsize := Z.max asize CHUNKSIZE in
  bp <- extend_heap (extendsize / WSIZE) ;;
  if bp =? 0 then kret 0 else
  place bp asize ;;
  kret bp.

Definition free (ptr : Z) : U unit :=
  if ptr =? 0 then kret tt else
  size <- rd (fun m => GET_SIZE m (HDRP ptr)) ;;
  PUT (at_ (HDRP ptr)) (PACK size 0) ;;
  PUT (fun m => FTRP m ptr) (PACK size 0) ;;
  coalesce ptr ;;
  kret tt.

Definition realloc (fuel : nat) (ptr size : Z) : U Z :=
  newptr <- malloc fuel size ;;
  if newptr =? 0 then kret 0 else
  oldsz <- rd (fun m => GET_SIZE m (HDRP ptr)) ;;
  kmod (fun s => put_umem (memcpy (u_mem s) newptr ptr (Z.min size oldsz)) s) ;;
  free ptr ;;
  kret newptr.
End Umalloc.

(** ** Words of a heap *)

Definition b2z (b : bool) : Z := if b then 1 else 0.
Definition block : Type := Z * bool.
Definition fits (sz : Z) : Prop := 16 <= sz < 2 ^ 31 /\ sz mod 8 = 0.

Lemma pack_size sz al : fits sz -> PACK sz (b2z al) = sz + b2z al /\ 0 <= sz + b2z al < 2 ^ 32.
Proof.
  intros [Hr Hm]. split; [|destruct al; cbn; lia]. unfold PACK. destruct al; cbn [b2z]; [|by rewrite Z.lor_0_r, Z.add_0_r].
  rewrite <- Z.lxor_lor, <- Z.add_nocarry_lxor; [done| |]; (apply Z.bits_inj'; intros i Hi; rewrite Z.land_spec, Z.bits_0;
    destruct (Z.eq_dec i 0) as [->|Hne]; [|by rewrite (Z.bits_above_log2 1 i), andb_false_r by (cbn; lia)];
    rewrite Z.bit0_odd; assert (Z.odd sz = false) as ->; [|done]; rewrite <- Z.negb_even; apply negb_false_iff, Z.even_spec;
    exists (4 * (sz / 8)); dlia).
Qed.
Lemma size_mask v : 0 <= v < 2 ^ 32 -> Z.land v (u32 (Z.lnot 7)) = v - v mod 8.
Proof.
  intros Hv. change (u32 (Z.lnot 7)) with (Z.shiftl (Z.ones 29) 3). transitivity (Z.shiftl (Z.land (Z.shiftr v 3) (Z.ones 29)) 3).
  - apply Z.bits_inj'. intros i Hi. rewrite Z.land_spec, !Z.shiftl_spec, Z.land_spec by done. destruct (Z.lt_ge_cases i 3).
    + by rewrite !(Z.testbit_neg_r _ (i - 3)), !andb_false_r by lia.
    + rewrite Z.shiftr_spec by lia. by replace (i - 3 + 3) with i by lia.
  - rewrite Z.land_ones, Z.shiftl_mul_pow2, Z.shiftr_div_pow2 by lia. change (2 ^ 3) with 8. rewrite Z.mod_small by dlia. dlia.
Qed.
Lemma size_of_tag m p sz al : fits sz -> ld32 m p = sz + b2z al -> GET_SIZE m p = sz.
Proof.
  intros Hf E. destruct (pack_size sz al Hf) as [_ Hr]. unfold GET_SIZE. rewrite E, size_mask by done. destruct Hf as [_ Hf].
  destruct al; cbn [b2z]; dlia.
Qed.
Lemma alloc_of_tag m p sz al : sz mod 8 = 0 -> ld32 m p = sz + b2z al -> GET_ALLOC m p = b2z al.
Proof.
  intros Hf E. unfold GET_ALLOC. rewrite E. change 1 with (Z.ones 1). rewrite Z.land_ones by lia. change (2 ^ 1) with 2.
  destruct al; cbn [b2z]; dlia.
Qed.

(** ** The blocks of a heap *)

Fixpoint total (bs : list block) : Z := match bs with [] => 0 | (sz, _) :: bs => sz + total bs end.
(** Header and footer of a block. *)
Definition tags (m : mem) (bp sz : Z) (al : bool) : Prop :=
  fits sz /\ ld32 m (bp - 4) = sz + b2z al /\ ld32 m (bp + sz - 8) = sz + b2z al.
Fixpoint seg (m : mem) (bp : Z) (bs : list block) : Prop :=
  match bs with [] => True | (sz, al) :: bs => tags m bp sz al /\ seg m (bp + sz) bs end.
(** The allocated blocks: address and size. *)
Fixpoint used (bp : Z) (bs : list block) : list (Z * Z) :=
  match bs with [] => [] | (sz, al) :: bs => (if al : bool then [(bp, sz)] else []) ++ used (bp + sz) bs end.

(** The heap from its first block on: prologue before it, epilogue after it. *)
Record heap_mem (m : mem) (first : Z) (bs : list block) : Prop := {
  hm_pro : ld32 m (first - 12) = 9 /\ ld32 m (first - 8) = 9;
  hm_seg : seg m first bs;
  hm_epi : ld32 m (first + total bs - 4) = 1;
  hm_small : total bs < 2 ^ 31
}.
Definition same_outside (lo hi : Z) (m m' : mem) : Prop := forall a, a < lo \/ hi <= a -> ld8 m' a = ld8 m a.

Lemma total_app bs1 bs2 : total (bs1 ++ bs2) = total bs1 + total bs2.
Proof. induction bs1 as [|[sz al] bs1 IH]; cbn in *; lia. Qed.
Lemma seg_app m bs1 : forall bp bs2, seg m bp (bs1 ++ bs2) <-> seg m bp bs1 /\ seg m (bp + total bs1) bs2.
Proof.
  induction bs1 as [|[sz al] bs1 IH]; intros bp bs2; cbn; [by rewrite Z.add_0_r; naive_solver|].
  rewrite IH. replace (bp + sz + total bs1) with (bp + (sz + total bs1)) by lia. tauto.
Qed.
Lemma total_pos m bp bs : seg m bp bs -> 0 <= total bs.
Proof. revert bp. induction bs as [|[sz al] bs IH]; intros bp; cbn; [lia|]. intros [[[? ?] _] Hs]. apply IH in Hs. lia. Qed.
Lemma ld32_ext m m' a : (forall p, a <= p < a + 4 -> ld8 m' p = ld8 m p) -> ld32 m' a = ld32 m a.
Proof. intros E. symmetry. apply ldn_ext. intros p Hp. symmetry. apply E. lia. Qed.
Lemma tags_ext m m' bp sz al : (forall p, bp - 4 <= p < bp + sz - 4 -> ld8 m' p = ld8 m p) -> tags m bp sz al -> tags m' bp sz al.
Proof.
  intros E (Hf & Hh & Ht). pose proof Hf as [Hr _]. split; [done|].
  split; [rewrite <- Hh|rewrite <- Ht]; apply ld32_ext; intros p Hp; apply E; lia.
Qed.
Lemma seg_ext m m' bs : forall bp, (forall p, bp - 4 <= p < bp + total bs - 4 -> ld8 m' p = ld8 m p) -> seg m bp bs -> seg m' bp bs.
Proof.
  induction bs as [|[sz al] bs IH]; intros bp E Hs; [done|]. cbn in E, Hs |- *. destruct Hs as [Ht Hs].
  pose proof (total_pos _ _ _ Hs). pose proof Ht as [[Hr _] _]. split.
  - apply (tags_ext m); [|done]. intros p Hp. apply E. lia.
  - apply IH; [|done]. intros p Hp. apply E. lia.
Qed.
Lemma used_app bs1 : forall bp bs2, used bp (bs1 ++ bs2) = used bp bs1 ++ used (bp + total bs1) bs2.
Proof.
  induction bs1 as [|[sz al] bs1 IH]; intros bp bs2; cbn; [by rewrite Z.add_0_r|].
  rewrite IH, <- app_assoc. do 3 f_equal. lia.
Qed.

(** Replacing a run of blocks by blocks of the same total size. *)
Lemma heap_replace m m' first pre mid mid' post :
  heap_mem m first (pre ++ mid ++ post) -> total mid' = total mid ->
  same_outside (first + total pre - 4) (first + total pre + total mid - 4) m m' ->
  seg m' (first + total pre) mid' -> heap_mem m' first (pre ++ mid' ++ post).
Proof.
  intros [[P1 P2] Hs He Hsm] Ht Ho Hmid. rewrite !total_app in *. apply seg_app in Hs as [Hpre Hs]. apply seg_app in Hs as [Hm Hpost].
  pose proof (total_pos _ _ _ Hpre). pose proof (total_pos _ _ _ Hm). pose proof (total_pos _ _ _ Hpost). split.
  - split; [rewrite <- P1|rewrite <- P2]; apply ld32_ext; intros p Hp; apply Ho; lia.
  - apply seg_app. split; [|apply seg_app; split; [done|]].
    + apply (seg_ext m); [|done]. intros p Hp. apply Ho. lia.
    + rewrite Ht. apply (seg_ext m); [|done]. intros p Hp. apply Ho. lia.
  - rewrite !total_app, Ht, <- He. apply ld32_ext. intros p Hp. apply Ho. lia.
  - rewrite !total_app. lia.
Qed.

(** ** Writing the tags of a block *)

Definition write_tags (m : mem) (bp sz : Z) (al : bool) : mem :=
  st32 (st32 m (bp - 4) (PACK sz (b2z al))) (bp + sz - 8) (PACK sz (b2z al)).

Lemma ld32_pack m p sz al : fits sz -> ld32 (st32 m p (PACK sz (b2z al))) p = sz + b2z al.
Proof. intros Hf. destruct (pack_size sz al Hf) as [-> Hr]. rewrite ld32_st32_eq. by apply u32_small. Qed.
Lemma write_tags_ok m bp sz al : fits sz -> tags (write_tags m bp sz al) bp sz al.
Proof.
  intros Hf. pose proof Hf as [Hr _]. split; [done|]. unfold write_tags. rewrite ld32_pack by done. split; [|done].
  rewrite ld32_st32_other by lia. by apply ld32_pack.
Qed.
Lemma same_st32 m p v lo hi : lo <= p -> p + 4 <= hi -> same_outside lo hi m (st32 m p v).
Proof. intros H1 H2 a Ha. apply (ld8_stn_other 4). lia. Qed.
Lemma same_outside_trans lo hi m1 m2 m3 : same_outside lo hi m1 m2 -> same_outside lo hi m2 m3 -> same_outside lo hi m1 m3.
Proof. intros H1 H2 a Ha. by rewrite H2, H1. Qed.
Lemma same_outside_mono lo hi lo' hi' m m' : lo' <= lo -> hi <= hi' -> same_outside lo hi m m' -> same_outside lo' hi' m m'.
Proof. intros H1 H2 H a Ha. apply H. lia. Qed.
Lemma write_tags_outside m bp sz al : 16 <= sz -> same_outside (bp - 4) (bp + sz - 4) m (write_tags m bp sz al).
Proof. intros Hr. eapply same_outside_trans; apply same_st32; lia. Qed.
Lemma footer_set m bp sz al : fits sz -> FTRP (st32 m (bp - 4) (PACK sz (b2z al))) bp = bp + sz - 8.
Proof. intros Hf. unfold FTRP, HDRP, WSIZE, DSIZE. erewrite size_of_tag; [reflexivity|exact Hf|]. by apply ld32_pack. Qed.

Section Blocks.
Context {W : Type} `{Os W}.
#[local] Abbreviation U := (K (umst W)).

Lemma put_mem_twice m m' (s : umst W) : put_umem m (put_umem m' s) = put_umem m s.
Proof. done. Qed.

(** Header then footer. *)
Lemma put_tags {A} (k : U A) bp sz al (s : umst W) : fits sz ->
  (PUT (at_ (HDRP bp)) (PACK sz (b2z al)) ;; PUT (fun m => FTRP m bp) (PACK sz (b2z al)) ;; k) s =
  k (put_umem (write_tags (u_mem s) bp sz al) s).
Proof.
  intros Hf. pose proof (footer_set (u_mem s) bp sz al Hf) as E. unfold write_tags. set (v := PACK sz (b2z al)) in *. krun. krun.
  change (k (put_umem (st32 (st32 (u_mem s) (bp - 4) v) (FTRP (st32 (u_mem s) (bp - 4) v) bp) v) s) =
    k (put_umem (st32 (st32 (u_mem s) (bp - 4) v) (bp + sz - 8) v) s)). by rewrite E.
Qed.

(** What the code reads of a block of a heap and of its neighbours. *)
Definition last_alloc (pre : list block) : bool := match last pre with Some (_, al) => al | None => true end.
Definition next_alloc (post : list block) : bool := match post with (_, al) :: _ => al | [] => true end.

Context (m : mem) (first : Z) (pre : list block) (sz : Z) (al : bool) (post : list block).
Context (Hh : heap_mem m first (pre ++ (sz, al) :: post)).
#[local] Abbreviation bp := (first + total pre).

Lemma at_block : tags m bp sz al.
Proof. destruct Hh as [_ Hs _ _]. apply seg_app in Hs as [_ Hs]. by destruct Hs. Qed.
Lemma block_fits : fits sz /\ 0 <= total pre /\ 0 <= total post /\ total pre + sz + total post < 2 ^ 31.
Proof.
  destruct Hh as [_ Hs _ Hsm]. apply seg_app in Hs as [Hp [[Hf _] Hq]]. rewrite total_app in Hsm. cbn [total] in Hsm.
  pose proof (total_pos _ _ _ Hp). pose proof (total_pos _ _ _ Hq). split; [done|]. lia.
Qed.
Lemma read_size : GET_SIZE m (HDRP bp) = sz.
Proof. destruct at_block as (Hf & E & _). by eapply size_of_tag. Qed.
Lemma read_next : NEXT_BLKP m bp = bp + sz /\ GET_ALLOC m (HDRP (NEXT_BLKP m bp)) = b2z (next_alloc post).
Proof.
  assert (E : NEXT_BLKP m bp = bp + sz) by (unfold NEXT_BLKP; change (bp - WSIZE) with (HDRP bp); by rewrite read_size).
  split; [done|]. rewrite E. destruct Hh as [_ Hs He _]. apply seg_app in Hs as [_ [_ Hs]]. destruct post as [|[n aln] post'].
  - rewrite total_app in He. cbn [total] in He. apply (alloc_of_tag m _ 0 true); [done|]. etransitivity; [|exact He]. unfold HDRP, WSIZE. f_equal. lia.
  - destruct Hs as [(Hf & Ht & _) _]. destruct Hf as [_ Hf]. by eapply alloc_of_tag.
Qed.

Lemma last_split (l : list block) : l = [] \/ exists l' x, l = l' ++ [x].
Proof. induction l using rev_ind; [by left|right; eauto]. Qed.

Lemma read_prev : GET_ALLOC m (FTRP m (PREV_BLKP m bp)) = b2z (last_alloc pre) /\
  forall pre' l all, pre = pre' ++ [(l, all)] -> PREV_BLKP m bp = first + total pre' /\ GET_SIZE m (HDRP (first + total pre')) = l /\
    tags m (first + total pre') l all.
Proof.
  destruct Hh as [[P1 P2] Hs _ _]. apply seg_app in Hs as [Hp _].
  destruct (last_split pre) as [E|(pre' & [l all] & E)].
  - rewrite E. split; [|intros ? ? ? E'; by destruct pre']. cbn [total]. rewrite Z.add_0_r. unfold PREV_BLKP, DSIZE.
    assert (G : forall p, ld32 m p = 9 -> GET_SIZE m p = 8) by (intros p Ep; unfold GET_SIZE; rewrite Ep; reflexivity).
    rewrite (G (first - 8) P2). unfold FTRP, HDRP, WSIZE. replace (first - 8 - 4) with (first - 12) by lia. rewrite (G _ P1).
    unfold DSIZE. replace (first - 8 + 8 - 8) with (first - 8) by lia. unfold GET_ALLOC. by rewrite P2.
  - rewrite E in *. apply seg_app in Hp as [_ [Ht _]]. pose proof Ht as (Hf & T1 & T2). rewrite total_app. cbn [total].
    assert (EP : PREV_BLKP m (first + (total pre' + (l + 0))) = first + total pre').
    { unfold PREV_BLKP, DSIZE. rewrite (size_of_tag m _ l all Hf); [lia|]. rewrite <- T2. f_equal. lia. }
    assert (EL : GET_SIZE m (HDRP (first + total pre')) = l) by (unfold HDRP, WSIZE; by apply (size_of_tag m _ l all Hf)).
    split.
    + rewrite EP. unfold FTRP. rewrite EL. unfold last_alloc. rewrite last_snoc. destruct Hf as [_ Hf]. by apply (alloc_of_tag m _ l all Hf).
    + intros pre'' l' all' [-> [= <- <-]]%app_inj_tail. done.
Qed.
End Blocks.

(** ** The operations on the blocks *)

Lemma fits_sub c a : fits c -> fits a -> 16 <= c - a -> fits (c - a).
Proof. intros [Hc Hc8] [Ha Ha8] Hr. split; [lia|dlia]. Qed.
Lemma fits_add a b : fits a -> fits b -> a + b < 2 ^ 31 -> fits (a + b).
Proof. intros [Hc Hc8] [Ha Ha8] Hr. split; [lia|dlia]. Qed.

(** The block [c] cut in an allocated part of size [a] and a free rest, if that
    can be a block. *)
Definition cut (c a : Z) : list block := if 2 * DSIZE <=? c - a then [(a, true); (c - a, false)] else [(c, true)].
Lemma total_cut c a : total (cut c a) = c.
Proof. unfold cut. destruct (_ <=? _); cbn; lia. Qed.

Section Operations.
Context {W : Type} `{Os W}.
#[local] Abbreviation U := (K (umst W)).

Lemma place_ok m first pre c post a (s : umst W) : heap_mem m first (pre ++ (c, false) :: post) -> u_mem s = m -> fits a -> a <= c ->
  let bp := first + total pre in
  exists m', place bp a s = Ret (tt, put_umem m' s) /\ same_outside (bp - 4) (bp + c - 4) m m' /\
    heap_mem m' first (pre ++ cut c a ++ post).
Proof.
  intros Hh Hm Ha Hac bp. destruct (block_fits m first pre c false post Hh) as (Hc & Hp & Hq & Hsm).
  pose proof (read_size m first pre c false post Hh) as Hsz. fold bp in Hsz. pose proof Ha as [Har _]. pose proof Hc as [Hcr _].
  assert (Hdone : forall m', same_outside (bp - 4) (bp + c - 4) m m' -> seg m' bp (cut c a) -> heap_mem m' first (pre ++ cut c a ++ post)).
  { intros m' Ho Hs. apply (heap_replace m m' first pre [(c, false)] (cut c a) post); [done|by rewrite total_cut; cbn; lia| |done].
    cbn [total]. eapply same_outside_mono; [| |exact Ho]; unfold bp; lia. }
  unfold place. erewrite kbind_ret by reflexivity. rewrite Hm. rewrite Hsz. rewrite (u32_small (c - a)) by lia.
  unfold cut in *. change (2 * DSIZE) with 16 in *. destruct (Z.leb_spec 16 (c - a)) as [Hcut|Hall].
  - change 1 with (b2z true). rewrite put_tags, Hm by done. set (m1 := write_tags m bp a true).
    pose proof (write_tags_ok m bp a true Ha) as T1. pose proof (write_tags_outside m bp a true ltac:(lia)) as O1. fold m1 in T1, O1.
    krun. cbn [u_mem put_umem]. assert (EN : NEXT_BLKP m1 bp = bp + a).
    { unfold NEXT_BLKP, WSIZE. destruct T1 as (_ & T1 & _). by rewrite (size_of_tag m1 _ a true). }
    rewrite EN. assert (Hf2 : fits (c - a)) by by apply fits_sub.
    set (m2 := write_tags m1 (bp + a) (c - a) false). exists m2.
    pose proof (write_tags_ok m1 (bp + a) (c - a) false Hf2) as T2. pose proof (write_tags_outside m1 (bp + a) (c - a) false Hcut) as O2. fold m2 in T2, O2.
    assert (Ho : same_outside (bp - 4) (bp + c - 4) m m2).
    { eapply same_outside_trans; [eapply same_outside_mono; [| |exact O1]; lia|eapply same_outside_mono; [| |exact O2]; lia]. }
    split; [|split; [exact Ho|]].
    + pose proof (put_tags (kret tt) (bp + a) (c - a) false (put_umem m1 s) Hf2) as E. exact E.
    + apply Hdone; [exact Ho|]. split; [|split; [exact T2|done]].
      apply (tags_ext m1); [|exact T1]. intros p Hpr. apply O2. lia.
  - change 1 with (b2z true). set (m1 := write_tags m bp c true). exists m1.
    pose proof (write_tags_ok m bp c true Hc) as T1. pose proof (write_tags_outside m bp c true ltac:(lia)) as O1. fold m1 in T1, O1.
    split; [|split; [exact O1|apply Hdone; [exact O1|by split]]].
    pose proof (put_tags (kret tt) bp c true s Hc) as E. rewrite Hm in E. exact E.
Qed.

Lemma first_fit_ok m first a : forall post pre fuel (s : umst W), heap_mem m first (pre ++ post) -> u_mem s = m -> (length post < fuel)%nat ->
  (find_loop fuel (first + total pre) a s = Ret (0, s) /\ Forall (fun b : block => snd b = false -> fst b < a) post) \/
  exists p1 c p2, post = p1 ++ (c, false) :: p2 /\ a <= c /\ find_loop fuel (first + total pre) a s = Ret (first + total (pre ++ p1), s).
Proof.
  induction post as [|[c al] post IH]; intros pre [|fuel] s Hh Hm Hf; cbn [length] in Hf; try lia; cbn [find_loop];
    erewrite kbind_ret by reflexivity; rewrite Hm.
  - left. rewrite app_nil_r in Hh. destruct Hh as [_ _ He _]. split; [|constructor].
    assert (E : GET_SIZE m (HDRP (first + total pre)) = 0).
    { unfold GET_SIZE, HDRP, WSIZE. by rewrite He. }
    by rewrite E.
  - destruct (block_fits m first pre c al post Hh) as (Hc & Hp & Hq & Hsm). pose proof Hc as [Hcr Hc8].
    rewrite (read_size m first pre c al post Hh). rewrite (proj2 (Z.ltb_lt 0 c)) by lia.
    assert (EA : GET_ALLOC m (HDRP (first + total pre)) = b2z al).
    { destruct (at_block m first pre c al post Hh) as (_ & T & _). by apply (alloc_of_tag m _ c). }
    rewrite EA. destruct ((b2z al =? 0) && (a <=? c)) eqn:Efit.
    + right. apply andb_true_iff in Efit as [E1 E2]. apply Z.leb_le in E2. destruct al; [done|].
      exists [], c, post. split; [done|]. split; [done|]. by rewrite app_nil_r.
    + destruct (read_next m first pre c al post Hh) as [-> _].
      replace (first + total pre + c) with (first + total (pre ++ [(c, al)])) by (rewrite total_app; cbn; lia).
      assert (Hh' : heap_mem m first ((pre ++ [(c, al)]) ++ post)) by by rewrite <- app_assoc.
      destruct (IH (pre ++ [(c, al)]) fuel s Hh' Hm ltac:(lia)) as [[R F]|(p1 & c' & p2 & -> & Hle & R)].
      * left. split; [done|]. constructor; [|done]. cbn. intros ->. cbn in Efit. by apply Z.leb_gt in Efit.
      * right. exists ((c, al) :: p1), c', p2. split; [done|]. split; [done|]. rewrite R. by rewrite <- app_assoc.
Qed.

(** The result of [coalesce] on a block of size [sz] before [post0]: a free
    block at [r] that holds it. *)
Record coalesced (m m' : mem) (first : Z) (bs bs' : list block) (sz : Z) (post0 : list block) (r : Z) : Prop := {
  co_heap : heap_mem m' first bs';
  co_used : used first bs' = used first bs;
  co_total : total bs' = total bs;
  co_block : exists (pre : list block) sz' (post : list block), bs' = pre ++ (sz', false) :: post /\ r = first + total pre /\ sz <= sz' /\
    (exists k, post = drop k post0) /\ same_outside (r - 4) (r + sz' - 4) m m'
}.

Lemma coalesce_merged k post0 m m' first pre mid post q sz : post = drop k post0 -> heap_mem m first (pre ++ mid ++ post) -> fits q -> total mid = q ->
  same_outside (first + total pre - 4) (first + total pre + q - 4) m m' -> tags m' (first + total pre) q false ->
  used (first + total pre) mid = [] -> sz <= q ->
  coalesced m m' first (pre ++ mid ++ post) (pre ++ (q, false) :: post) sz post0 (first + total pre).
Proof.
  intros Hk Hh Hq Ht Ho Htags Hu Hsz. split.
  - apply (heap_replace m m' first pre mid [(q, false)] post); [done|by rewrite Ht; cbn; lia|by rewrite Ht|by split].
  - rewrite !used_app, Hu, Ht. by cbn.
  - rewrite !total_app. cbn [total]. lia.
  - exists pre, q, post. split; [done|]. split; [done|]. split; [done|]. split; [by exists k|done].
Qed.

(** The free neighbours of a block. *)
Lemma left_neighbour m first pre sz post : heap_mem m first (pre ++ (sz, false) :: post) -> last_alloc pre = false ->
  let bp := first + total pre in
  exists pre' l, pre = pre' ++ [(l, false)] /\ bp = first + total pre' + l /\ tags m (first + total pre') l false /\
    l <= total pre /\ PREV_BLKP m bp = first + total pre' /\ GET_SIZE m (HDRP (first + total pre')) = l.
Proof.
  intros Hh El bp. destruct (last_split pre) as [->|(pre' & [l all] & Epre)]; [discriminate|].
  assert (all = false) as -> by (rewrite Epre in El; unfold last_alloc in El; by rewrite last_snoc in El).
  destruct (read_prev m first pre sz false post Hh) as [_ EP]. destruct (EP pre' l false Epre) as (Eq & Esz & Tq).
  exists pre', l. split; [exact Epre|]. assert (Et : total pre = total pre' + l) by (rewrite Epre, total_app; cbn [total]; lia).
  split; [unfold bp; lia|]. split; [exact Tq|]. split; [|by split].
  destruct Hh as [_ Hs _ _]. rewrite Epre in Hs. apply seg_app in Hs as [Hs _]. apply seg_app in Hs as [Hs _].
  pose proof (total_pos _ _ _ Hs). lia.
Qed.
Lemma right_neighbour m first pre sz post : heap_mem m first (pre ++ (sz, false) :: post) -> next_alloc post = false ->
  exists n post', post = (n, false) :: post' /\ tags m (first + total pre + sz) n false /\ n <= total post.
Proof.
  intros Hh En. destruct post as [|[n aln] post]; [discriminate|]. cbn in En. subst aln. exists n, post. split; [reflexivity|].
  destruct Hh as [_ Hs _ _]. apply seg_app in Hs as [_ (_ & Ht & Hs)]. split; [exact Ht|].
  pose proof (total_pos _ _ _ Hs). cbn [total]. lia.
Qed.
Lemma prev_of m bp l : fits l -> ld32 m (bp - 8) = l -> PREV_BLKP m bp = bp - l.
Proof. intros Hl E. unfold PREV_BLKP, DSIZE. rewrite (size_of_tag m _ l false Hl); [reflexivity|]. cbn [b2z]. by rewrite Z.add_0_r. Qed.

(** The writes of [coalesce] when the block before, of size [l], is free. *)
Lemma merge_left_writes m q l sz : fits l -> fits sz -> fits (l + sz) -> tags m q l false -> GET_SIZE m (HDRP (q + l)) = sz ->
  let bp := q + l in let v := PACK (l + sz) 0 in
  let m1 := st32 m (FTRP m bp) v in let m2 := st32 m1 (HDRP (PREV_BLKP m1 bp)) v in
  same_outside (q - 4) (q + (l + sz) - 4) m m2 /\ tags m2 q (l + sz) false /\ PREV_BLKP m2 bp = q.
Proof.
  intros Hl Hf Hsum (_ & _ & Tq) Hsz bp v m1 m2. pose proof Hl as [Hlr _]. pose proof Hf as [Hfr _].
  change v with (PACK (l + sz) (b2z false)) in *. cbn [b2z] in Tq. rewrite Z.add_0_r in Tq.
  assert (E1 : FTRP m bp = bp + sz - 8) by (unfold FTRP, DSIZE, bp; by rewrite Hsz).
  assert (Ek : ld32 m (bp - 8) = l) by (etransitivity; [|exact Tq]; f_equal; unfold bp; lia).
  assert (E2 : PREV_BLKP m1 bp = q).
  { rewrite (prev_of m1 bp l Hl); [unfold bp; lia|]. unfold m1. rewrite E1, ld32_st32_other by (unfold bp; lia). exact Ek. }
  assert (Em2 : m2 = st32 (st32 m (bp + sz - 8) v) (q - 4) v) by (unfold m2, HDRP, WSIZE; rewrite E2; unfold m1; by rewrite E1).
  change v with (PACK (l + sz) (b2z false)) in *. rewrite Em2. split; [|split].
  - eapply same_outside_trans; apply same_st32; unfold bp; lia.
  - split; [exact Hsum|]. rewrite ld32_pack by exact Hsum. split; [reflexivity|].
    rewrite ld32_st32_other by lia. replace (q + (l + sz) - 8) with (bp + sz - 8) by (unfold bp; lia). by apply ld32_pack.
  - rewrite (prev_of _ bp l Hl); [unfold bp; lia|]. rewrite !ld32_st32_other by (unfold bp; lia). exact Ek.
Qed.
(** And when the block after it, of size [n], is free too. *)
Lemma merge_both_writes m q l sz n : fits l -> fits n -> fits sz -> fits (l + sz + n) -> tags m q l false ->
  tags m (q + l) sz false -> tags m (q + l + sz) n false ->
  let bp := q + l in let v := PACK (l + sz + n) 0 in
  let m1 := st32 m (HDRP (PREV_BLKP m bp)) v in let m2 := st32 m1 (FTRP m1 (NEXT_BLKP m1 bp)) v in
  m2 = write_tags m q (l + sz + n) false /\ PREV_BLKP m2 bp = q.
Proof.
  intros Hl Hn Hf Hsum (_ & _ & Tq) (_ & Tb & _) (_ & Tn & _) bp v m1 m2.
  pose proof Hl as [Hlr _]. pose proof Hf as [Hfr _]. pose proof Hn as [Hnr _].
  cbn [b2z] in Tq. rewrite Z.add_0_r in Tq.
  assert (Ek : ld32 m (bp - 8) = l) by (etransitivity; [|exact Tq]; f_equal; unfold bp; lia).
  assert (Em1 : m1 = st32 m (q - 4) v) by (unfold m1, HDRP, WSIZE; rewrite (prev_of m bp l Hl Ek); f_equal; unfold bp; lia).
  assert (E1 : NEXT_BLKP m1 bp = bp + sz).
  { unfold NEXT_BLKP, WSIZE. rewrite (size_of_tag m1 _ sz false Hf); [reflexivity|]. rewrite Em1, ld32_st32_other by (unfold bp; lia). exact Tb. }
  assert (E2 : FTRP m1 (bp + sz) = bp + sz + n - 8).
  { unfold FTRP, HDRP, WSIZE, DSIZE. rewrite (size_of_tag m1 _ n false Hn); [reflexivity|].
    rewrite Em1, ld32_st32_other by (unfold bp; lia). exact Tn. }
  assert (Em2 : m2 = st32 (st32 m (q - 4) v) (bp + sz + n - 8) v) by (unfold m2; rewrite E1, E2; by rewrite Em1).
  rewrite Em2. split.
  - unfold write_tags. cbn [b2z]. fold v. f_equal. unfold bp. lia.
  - rewrite (prev_of _ bp l Hl); [unfold bp; lia|]. rewrite !ld32_st32_other by (unfold bp; lia). exact Ek.
Qed.

Lemma coalesce_ok m first pre sz post (s : umst W) : heap_mem m first (pre ++ (sz, false) :: post) -> u_mem s = m ->
  last_alloc pre && negb (next_alloc post) = false ->
  exists m' bs' r, coalesce (first + total pre) s = Ret (r, put_umem m' s) /\
    coalesced m m' first (pre ++ (sz, false) :: post) bs' sz post r.
Proof.
  intros Hh Hm Hcase. destruct (block_fits m first pre sz false post Hh) as (Hf & Hp & Hq & Hsm). pose proof Hf as [Hfr _].
  pose proof (read_size m first pre sz false post Hh) as Hsz. destruct (read_next m first pre sz false post Hh) as [EN AN].
  destruct (read_prev m first pre sz false post Hh) as [AP _]. pose proof (at_block m first pre sz false post Hh) as Hb.
  unfold coalesce. erewrite kbind_ret by reflexivity. rewrite Hm, AP, AN, Hsz.
  destruct (last_alloc pre) eqn:El; destruct (next_alloc post) eqn:En; try discriminate Hcase; cbn [b2z Z.eqb negb andb].
  - exists m, (pre ++ (sz, false) :: post), (first + total pre). split; [subst m; by destruct s|].
    apply (coalesce_merged 0 post m m first pre [(sz, false)] post sz sz); [done|exact Hh|exact Hf|cbn; lia|done|exact Hb|done|lia].
  - destruct (left_neighbour m first pre sz post Hh El) as (pre' & l & Epre & Ebp & Tq & Hl & EP & ES). pose proof Tq as (Hlf & _).
    pose proof Hlf as [Hlr _]. rewrite Ebp in *. rewrite EP, ES. rewrite (u32_small (sz + l)), (Z.add_comm sz l) by lia.
    assert (Hsum : fits (l + sz)) by (apply fits_add; [exact Hlf|exact Hf|lia]).
    destruct (merge_left_writes m (first + total pre') l sz Hlf Hf Hsum Tq Hsz) as (O2 & T2 & E2). cbv zeta in O2, T2, E2.
    set (m2 := st32 _ (HDRP _) _) in *. exists m2, (pre' ++ (l + sz, false) :: post), (first + total pre'). split.
    + erewrite kbind_ret by reflexivity. erewrite kbind_ret by reflexivity. unfold rd, kget. cbn [u_mem put_umem]. rewrite Hm.
      fold m2. by rewrite E2.
    + rewrite Epre in Hh |- *. rewrite <- app_assoc in Hh |- *.
      apply (coalesce_merged 0 post m m2 first pre' [(l, false); (sz, false)] post (l + sz) sz); [done|exact Hh|exact Hsum|cbn; lia|exact O2|exact T2|done|lia].
  - destruct (left_neighbour m first pre sz post Hh El) as (pre' & l & Epre & Ebp & Tq & Hl & EP & ES). pose proof Tq as (Hlf & _).
    pose proof Hlf as [Hlr _]. destruct (right_neighbour m first pre sz post Hh En) as (n & post' & Epost & Tn & Hnt).
    pose proof Tn as (Hn & _ & Tn2). pose proof Hn as [Hnr _]. rewrite Ebp in *. rewrite EP, ES, EN.
    assert (EF : GET_SIZE m (FTRP m (first + total pre' + l + sz)) = n).
    { assert (E : GET_SIZE m (HDRP (first + total pre' + l + sz)) = n) by (apply (size_of_tag m _ n false Hn); apply Tn).
      unfold FTRP, DSIZE. rewrite E. by apply (size_of_tag m _ n false Hn). }
    rewrite EF. rewrite (u32_small (l + n)), (u32_small (sz + (l + n))) by lia. replace (sz + (l + n)) with (l + sz + n) by lia.
    assert (Hsum : fits (l + sz + n)) by (apply fits_add; [apply fits_add; [exact Hlf|exact Hf|lia]|exact Hn|lia]).
    destruct (merge_both_writes m (first + total pre') l sz n Hlf Hn Hf Hsum Tq Hb Tn) as [Em2 E2]. cbv zeta in Em2, E2.
    set (m2 := st32 _ (FTRP _ _) _) in *. exists m2, (pre' ++ (l + sz + n, false) :: post'), (first + total pre'). split.
    + erewrite kbind_ret by reflexivity. erewrite kbind_ret by reflexivity. unfold rd, kget. cbn [u_mem put_umem]. rewrite Hm.
      fold m2. by rewrite E2.
    + rewrite Epre in Hh |- *. rewrite Epost in Hh |- *. rewrite <- app_assoc in Hh |- *.
      apply (coalesce_merged 1 ((n, false) :: post') m m2 first pre' [(l, false); (sz, false); (n, false)] post' (l + sz + n) sz);
        [done|exact Hh|exact Hsum|cbn; lia|rewrite Em2; apply write_tags_outside; lia|rewrite Em2; by apply write_tags_ok|done|lia].
Qed.
End Operations.

(** ** What the program relies on of [sbrk] *)

(** The break of the process, and that a call either refuses and changes
    nothing, or returns the old break and moves it by the amount asked, the
    memory below it untouched (src/kernel/sysproc.c, [incr_heap_space]). *)
Class OsLaws (W : Type) `{Os W} : Type := {
  brk : W -> Z;
  sbrk_zero : forall m o, sys_sbrk 0 (m, o) = (brk o, (m, o));
  sbrk_law : forall n m o, 0 < n < 2 ^ 31 ->
    (exists o', sys_sbrk n (m, o) = (FAILED, (m, o')) /\ brk o' = brk o) \/
    (exists m' o', sys_sbrk n (m, o) = (brk o, (m', o')) /\ brk o' = brk o + n /\ brk o' < 2 ^ 38 /\
      forall a, a < brk o -> ld8 m' a = ld8 m a)
}.

(** The payload bytes of the blocks of [us]. *)
Definition kept (us : list (Z * Z)) (m m' : mem) : Prop :=
  forall p n, (p, n) ∈ us -> forall a, p <= a < p + n - 8 -> ld8 m' a = ld8 m a.

Lemma used_range m bs : forall bp p n, seg m bp bs -> (p, n) ∈ used bp bs -> bp <= p /\ p + n <= bp + total bs /\ fits n.
Proof.
  induction bs as [|[sz al] bs IH]; intros bp p n Hs Hin; cbn in *; [by apply elem_of_nil in Hin|].
  destruct Hs as [[Hf _] Hs]. pose proof Hf as [Hr _]. pose proof (total_pos _ _ _ Hs). apply elem_of_app in Hin as [Hin|Hin].
  - destruct al; [|by apply elem_of_nil in Hin]. apply list_elem_of_singleton in Hin. injection Hin as -> ->. split; [lia|]. split; [lia|done].
  - destruct (IH _ _ _ Hs Hin) as (H1 & H2 & H3). split; [lia|]. split; [lia|done].
Qed.
Lemma kept_trans us m1 m2 m3 : kept us m1 m2 -> kept us m2 m3 -> kept us m1 m3.
Proof. intros H1 H2 p n Hin a Ha. by rewrite (H2 p n), (H1 p n). Qed.
Lemma kept_sub us us' m m' : us ⊆ us' -> kept us' m m' -> kept us m m'.
Proof. intros Hs Hk p n Hin. apply Hk, Hs, Hin. Qed.
(** Writes inside one block keep the payloads of the others. *)
Lemma kept_others m m0 m' first pre c al post : seg m0 first (pre ++ (c, al) :: post) ->
  same_outside (first + total pre - 4) (first + total pre + c - 4) m m' ->
  kept (used first pre ++ used (first + total pre + c) post) m m'.
Proof.
  intros Hs Ho p n Hin a Ha. apply seg_app in Hs as [Hp (_ & Hq)]. apply Ho. apply elem_of_app in Hin as [Hin|Hin].
  - destruct (used_range _ _ _ _ _ Hp Hin) as (H1 & H2 & H3). lia.
  - destruct (used_range _ _ _ _ _ Hq Hin) as (H1 & H2 & H3). lia.
Qed.
(** A block apart from all those in use. *)
Definition apart (p n : Z) (us : list (Z * Z)) : Prop := forall q k, (q, k) ∈ us -> p + n <= q \/ q + k <= p.
Lemma apart_others m first pre c al post : seg m first (pre ++ (c, al) :: post) ->
  apart (first + total pre) c (used first pre ++ used (first + total pre + c) post).
Proof.
  intros Hs q k Hin. apply seg_app in Hs as [Hp (_ & Hq)]. apply elem_of_app in Hin as [Hin|Hin].
  - destruct (used_range _ _ _ _ _ Hp Hin) as (H1 & H2 & H3). lia.
  - destruct (used_range _ _ _ _ _ Hq Hin) as (H1 & H2 & H3). lia.
Qed.

Section Heap.
Context {W : Type} `{OsLaws W}.

(** The heap of the program, once initialised. *)
Record heap_ok (s : umst W) (bs : list block) : Prop := {
  ho_mem : heap_mem (u_mem s) (mem_heap_start s + 8) bs;
  ho_end : mem_heap_end s = mem_heap_start s + 8 + total bs;
  ho_brk : brk (u_os s) = mem_heap_end s;
  ho_start : 0 < mem_heap_start s /\ mem_heap_start s mod 8 = 0;
  ho_limit : mem_heap_end s < 2 ^ 38
}.

Lemma heap_ok_mem s bs m' bs' : heap_ok s bs -> heap_mem m' (mem_heap_start s + 8) bs' -> total bs' = total bs ->
  heap_ok (put_umem m' s) bs'.
Proof. intros [Hm He Hb Hs Hl] Hm' Ht. split; [done|cbn; lia|done|done|done]. Qed.

Lemma mem_sbrk_ok n (s : umst W) : 0 < n < 2 ^ 31 -> brk (u_os s) = mem_heap_end s -> mem_heap_end s < 2 ^ 38 ->
  (exists o', mem_sbrk n s = Ret (FAILED, mkUm (u_mem s) (mem_heap_start s) (mem_heap_end s) o') /\ brk o' = brk (u_os s)) \/
  (exists m' o', mem_sbrk n s = Ret (mem_heap_end s, mkUm m' (mem_heap_start s) (mem_heap_end s + n) o') /\
    brk o' = mem_heap_end s + n /\ brk o' < 2 ^ 38 /\ forall a, a < mem_heap_end s -> ld8 m' a = ld8 (u_mem s) a).
Proof.
  intros Hn Hb Hl. unfold mem_sbrk. krun. rewrite (proj2 (Z.ltb_ge n 0)) by lia.
  assert (Es : sbrk n s = let '(r, (m, o)) := sys_sbrk n (u_mem s, u_os s) in Ret (r, mkUm m (mem_heap_start s) (mem_heap_end s) o)).
  { unfold sbrk. by rewrite u32_small by lia. }
  destruct (sbrk_law n (u_mem s) (u_os s) Hn) as [(o' & E & Eb)|(m' & o' & E & Eb & Hl' & Ho)]; rewrite E in Es;
    erewrite kbind_ret by exact Es.
  - left. exists o'. by split.
  - rewrite Hb in *. destruct (Z.eqb_spec (mem_heap_end s) FAILED) as [Ef|_]; [change FAILED with (2 ^ 64 - 1) in Ef; lia|].
    right. exists m', o'. split; [reflexivity|]. split; [exact Eb|]. by split.
Qed.

(** The memory after [extend_heap] has written the new block, before
    [coalesce]. *)
Definition extended (m : mem) (bp size : Z) : mem := st32 (write_tags m bp size false) (bp + size - 4) 1.

Lemma extended_ok m m0 first bs size : heap_mem m first bs -> fits size -> total bs + size < 2 ^ 31 ->
  (forall a, a < first + total bs -> ld8 m0 a = ld8 m a) ->
  let m' := extended m0 (first + total bs) size in
  heap_mem m' first (bs ++ [(size, false)]) /\ (forall a, a < first + total bs - 4 -> ld8 m' a = ld8 m a).
Proof.
  intros [[P1 P2] Hs He Hsm] Hf Ht Ho m'. pose proof Hf as [Hr _]. pose proof (total_pos _ _ _ Hs) as Hp.
  set (bp := first + total bs) in *. pose proof (write_tags_outside m0 bp size false ltac:(lia)) as O1.
  assert (O2 : forall a, a < bp - 4 -> ld8 m' a = ld8 m a).
  { intros a Ha. unfold m', extended. rewrite (ld8_stn_other 4) by lia. rewrite O1 by lia. apply Ho. lia. }
  split; [|exact O2]. split.
  - split; [rewrite <- P1|rewrite <- P2]; apply ld32_ext; intros p Hpr; apply O2; unfold bp; lia.
  - apply seg_app. split; [apply (seg_ext m); [|exact Hs]; intros p Hpr; apply O2; unfold bp; lia|].
    split; [|done]. apply (tags_ext (write_tags m0 bp size false)); [|by apply write_tags_ok].
    intros p Hpr. unfold m', extended. apply (ld8_stn_other 4). unfold bp in *. lia.
  - rewrite total_app. cbn [total]. unfold m', extended. replace (first + (total bs + (size + 0)) - 4) with (bp + size - 4) by (unfold bp; lia).
    by rewrite ld32_st32_eq.
  - rewrite total_app. cbn [total]. lia.
Qed.

Lemma put_epilogue {A} (k : K (umst W) A) bp size (s : umst W) : fits size ->
  (PUT (at_ (HDRP bp)) (PACK size 0) ;; PUT (fun m => FTRP m bp) (PACK size 0) ;; PUT (fun m => HDRP (NEXT_BLKP m bp)) (PACK 0 1) ;; k) s =
  k (put_umem (extended (u_mem s) bp size) s).
Proof.
  intros Hf. change (PACK size 0) with (PACK size (b2z false)). rewrite put_tags by exact Hf. krun. cbn [u_mem put_umem].
  assert (E : NEXT_BLKP (write_tags (u_mem s) bp size false) bp = bp + size).
  { unfold NEXT_BLKP, WSIZE. rewrite (size_of_tag _ _ size false Hf); [reflexivity|]. by apply (write_tags_ok (u_mem s) bp size false Hf). }
  rewrite E. reflexivity.
Qed.

(** What [extend_heap] promises: nothing changes, or a free block of at least
    the size asked is the last one. *)
Lemma extend_heap_ok s bs words : heap_ok s bs -> words mod 2 = 0 -> fits (words * WSIZE) -> total bs + words * WSIZE < 2 ^ 31 ->
  (exists s', extend_heap words s = Ret (0, s') /\ heap_ok s' bs /\ u_mem s' = u_mem s) \/
  (exists s' pre c, extend_heap words s = Ret (mem_heap_start s' + 8 + total pre, s') /\ heap_ok s' (pre ++ [(c, false)]) /\
    mem_heap_start s' = mem_heap_start s /\ words * WSIZE <= c /\ total pre + c = total bs + words * WSIZE /\
    used (mem_heap_start s + 8) pre = used (mem_heap_start s + 8) bs /\
    kept (used (mem_heap_start s + 8) bs) (u_mem s) (u_mem s')).
Proof.
  intros Hok He Hf Ht. pose proof Hok as [Hm Hend Hb [Hst Hal] Hl]. set (size := words * WSIZE) in *. pose proof Hf as [Hr _].
  unfold extend_heap. rewrite He. cbn [Z.eqb]. fold size. rewrite (u32_small size), (s32_small size) by lia.
  destruct (mem_sbrk_ok size s ltac:(lia) Hb Hl) as [(o' & E & Eb)|(m0 & o' & E & Eb & Hl' & Ho)]; erewrite kbind_ret by exact E.
  - left. eexists. split; [reflexivity|]. split; [|reflexivity]. split; [exact Hm|exact Hend|cbn; congruence|done|exact Hl].
  - right. destruct (Z.eqb_spec (mem_heap_end s) FAILED) as [Ef|_]; [change FAILED with (2 ^ 64 - 1) in Ef; lia|].
    rewrite put_epilogue by exact Hf. set (first := mem_heap_start s + 8) in *. rewrite Hend. cbn [u_mem].
    rewrite Hend in Ho. destruct (extended_ok (u_mem s) m0 first bs size Hm Hf Ht Ho) as [Hx Hkeep]. cbv zeta in Hx, Hkeep.
    set (m1 := extended m0 (first + total bs) size) in *. set (s1 := put_umem m1 _).
    destruct (coalesce_ok m1 first bs size [] s1 Hx eq_refl) as (m2 & bs' & r & Ec & [C1 C2 C3 C4]); [by rewrite andb_comm|].
    destruct C4 as (pre & c & post & -> & -> & Hc & [k Hk] & Ho2).
    rewrite drop_nil in Hk. subst post. exists (put_umem m2 s1), pre, c. cbn [mem_heap_start put_umem s1]. fold first.
    split; [exact Ec|]. split; [|split; [done|]; split; [exact Hc|]; split; [|split]].
    + assert (Et : total (pre ++ [(c, false)]) = total bs + size) by (etransitivity; [exact C3|]; rewrite total_app; cbn [total]; lia).
      split; [exact C1|rewrite Et; cbn [mem_heap_end mem_heap_start put_umem s1]; lia|cbn [mem_heap_end put_umem s1 u_os]; lia|done|
        cbn [mem_heap_end put_umem s1]; lia].
    + rewrite !total_app in C3. cbn [total] in C3. lia.
    + rewrite !used_app in C2. cbn [used app] in C2. by rewrite !app_nil_r in C2.
    + apply (kept_trans _ _ m1).
      * intros p n Hin a Ha. destruct Hm as [_ Hs _ _]. destruct (used_range _ _ _ _ _ Hs Hin) as (_ & H2 & _). apply Hkeep. lia.
      * rewrite !used_app in C2. cbn [used app] in C2. rewrite !app_nil_r in C2. rewrite <- C2.
        eapply kept_sub; [|eapply (kept_others m1 m2 m2 first pre c false []); [apply C1|exact Ho2]]. by apply list_subseteq_app_l.
Qed.

Lemma total_mod8 m bs : forall bp, seg m bp bs -> total bs mod 8 = 0.
Proof.
  induction bs as [|[sz al] bs IH]; intros bp Hs; [done|]. destruct Hs as [[[_ Hf] _] Hs]. specialize (IH _ Hs). cbn [total]. dlia.
Qed.
Lemma adjusted_ok size : 0 < size -> size < 2 ^ 31 - 16 -> fits (adjusted size) /\ size + 8 <= adjusted size.
Proof.
  intros H1 H2. unfold adjusted. change DSIZE with 8. destruct (Z.leb_spec size 8) as [Hs|Hs]; [split; [split; [lia|reflexivity]|lia]|].
  rewrite (u32_small (size + 8 + (8 - 1))) by lia. assert (8 * ((size + 8 + (8 - 1)) / 8) <= size + 15) by dlia.
  assert (size + 8 <= 8 * ((size + 8 + (8 - 1)) / 8)) by dlia. rewrite u32_small by lia. split; [split; [lia|dlia]|lia].
Qed.
Lemma used_cut bp c a : exists n, used bp (cut c a) = [(bp, n)] /\ (n = a \/ n = c).
Proof. unfold cut. destruct (_ <=? _); cbn; eexists; (split; [reflexivity|]); [by left|by right]. Qed.

(** What a successful allocation of [size] bytes at [r] does to a heap whose
    blocks in use are [us]. *)
Definition allocated (s s' : umst W) (us : list (Z * Z)) (r size : Z) : Prop :=
  exists bs' n, heap_ok s' bs' /\ used (mem_heap_start s' + 8) bs' ≡ₚ (r, n) :: us /\ size + 8 <= n /\ r mod 8 = 0 /\
    apart r n us /\ kept us (u_mem s) (u_mem s') /\ mem_heap_start s' = mem_heap_start s.

Lemma place_heap s pre c post size : heap_ok s (pre ++ (c, false) :: post) -> 0 < size < 2 ^ 31 - 16 -> adjusted size <= c ->
  let first := mem_heap_start s + 8 in let r := first + total pre in
  exists s', place r (adjusted size) s = Ret (tt, s') /\ allocated s s' (used first pre ++ used (r + c) post) r size.
Proof.
  intros Hok [H1 H2] Hc first r. pose proof Hok as [Hm Hend Hb [Hst Hal] Hl]. fold first in Hm.
  destruct (adjusted_ok size H1 H2) as [Hf Hsz]. pose proof Hf as [Hr _].
  destruct (place_ok (u_mem s) first pre c post (adjusted size) s Hm eq_refl Hf Hc) as (m' & E & Ho & Hm'). cbv zeta in E, Ho. fold r in E, Ho.
  pose proof Hm as [_ Hs _ _]. destruct (block_fits _ _ _ _ _ _ Hm) as (Hcf & _). destruct (used_cut r c (adjusted size)) as (n & Eu & En).
  exists (put_umem m' s). split; [exact E|]. exists (pre ++ cut c (adjusted size) ++ post), n. cbn [mem_heap_start put_umem u_mem]. fold first.
  split; [apply (heap_ok_mem s (pre ++ (c, false) :: post)); [exact Hok|exact Hm'|]|].
  { rewrite !total_app, total_cut. cbn [total]. lia. }
  split; [|split; [by destruct En; subst n; lia|split; [|split; [|split; [|done]]]]].
  - rewrite !used_app, total_cut. fold r. rewrite Eu. cbn [app]. symmetry. apply Permutation_middle.
  - pose proof Hs as [Hp _]%seg_app. apply total_mod8 in Hp. unfold r, first. dlia.
  - pose proof (apart_others _ _ _ _ _ _ Hs) as Ha. fold r in Ha. intros q k Hin. specialize (Ha q k Hin).
    destruct En; subst n; [|exact Ha]. destruct Ha as [Ha|Ha]; [|by right]. left. lia.
  - eapply kept_others; [exact Hs|]. exact Ho.
Qed.

Lemma find_fit_ok s bs a fuel : heap_ok s bs -> 16 <= a -> (length bs + 1 < fuel)%nat ->
  (find_fit fuel a s = Ret (0, s)) \/
  exists p1 c p2, bs = p1 ++ (c, false) :: p2 /\ a <= c /\ find_fit fuel a s = Ret (mem_heap_start s + 8 + total p1, s).
Proof.
  intros [Hm _ _ _ _] Ha Hf. unfold find_fit. krun. destruct fuel as [|fuel]; [lia|]. cbn [find_loop]. erewrite kbind_ret by reflexivity.
  assert (E : ld32 (u_mem s) (HDRP (mem_heap_start s)) = 9).
  { destruct Hm as [[P _] _ _ _]. rewrite <- P. unfold HDRP, WSIZE. f_equal. lia. }
  assert (EG : GET_SIZE (u_mem s) (HDRP (mem_heap_start s)) = 8) by (unfold GET_SIZE; by rewrite E).
  assert (EA : GET_ALLOC (u_mem s) (HDRP (mem_heap_start s)) = 1) by (unfold GET_ALLOC; by rewrite E).
  rewrite EG, EA. cbn [Z.ltb Z.compare Z.eqb andb]. unfold NEXT_BLKP. change (mem_heap_start s - WSIZE) with (HDRP (mem_heap_start s)). rewrite EG.
  pose proof (first_fit_ok (u_mem s) (mem_heap_start s + 8) a bs [] fuel s Hm eq_refl ltac:(lia)) as [[R _]|R].
  - left. cbn [total] in R. by rewrite Z.add_0_r in R.
  - right. destruct R as (p1 & c & p2 & -> & Hle & R). exists p1, c, p2. cbn [total app] in R. rewrite Z.add_0_r in R. by repeat split.
Qed.

(** Writes before the allocation itself. *)
Lemma allocated_after s0 s s' us r size : kept us (u_mem s0) (u_mem s) -> mem_heap_start s = mem_heap_start s0 ->
  allocated s s' us r size -> allocated s0 s' us r size.
Proof.
  intros Hk Hst (bs' & n & A1 & A2 & A3 & A4 & A5 & A6 & A7). exists bs', n. do 5 (split; [done|]). split; [by eapply kept_trans|congruence].
Qed.

Lemma malloc_heap s bs size fuel : heap_ok s bs -> 0 < size < 2 ^ 31 - 16 -> total bs + Z.max (adjusted size) CHUNKSIZE < 2 ^ 31 ->
  (length bs + 1 < fuel)%nat ->
  (exists s', malloc fuel size s = Ret (0, s') /\ heap_ok s' bs /\ u_mem s' = u_mem s) \/
  (exists r s', malloc fuel size s = Ret (r, s') /\ 0 < r /\ allocated s s' (used (mem_heap_start s + 8) bs) r size).
Proof.
  intros Hok Hsz Htot Hfuel. pose proof Hok as [Hm Hend Hb [Hst Hal] Hl]. destruct (adjusted_ok size ltac:(lia) ltac:(lia)) as [Hf Has].
  pose proof Hf as [Hr Hr8]. unfold malloc. erewrite kbind_ret.
  2: { unfold ensure_mm_init. krun. destruct (Z.eqb_spec (mem_heap_start s) 0); [lia|reflexivity]. }
  cbn [Z.ltb Z.compare]. rewrite (proj2 (Z.eqb_neq size 0)) by lia.
  assert (Hpos : forall pre c post s', mem_heap_start s' = mem_heap_start s -> heap_ok s' (pre ++ (c, false) :: post) -> 0 < mem_heap_start s' + 8 + total pre).
  { intros pre c post s' E [Hm' _ _ _ _]. pose proof (block_fits _ _ _ _ _ _ Hm') as (_ & ? & _). lia. }
  destruct (find_fit_ok s bs (adjusted size) fuel Hok ltac:(lia) Hfuel) as [E|(p1 & c & p2 & -> & Hc & E)]; erewrite kbind_ret by exact E.
  - cbn [Z.eqb negb]. set (ext := Z.max (adjusted size) CHUNKSIZE) in *.
    assert (Hext : fits ext /\ ext / WSIZE * WSIZE = ext /\ (ext / WSIZE) mod 2 = 0 /\ adjusted size <= ext).
    { unfold ext, fits. change CHUNKSIZE with 4096 in *. change WSIZE with 4. destruct (Z.max_spec (adjusted size) 4096) as [[? ->]|[? ->]];
        repeat split; try lia; dlia. }
    destruct Hext as (He1 & He2 & He3 & He4).
    destruct (extend_heap_ok s bs (ext / WSIZE) Hok He3 ltac:(by rewrite He2) ltac:(by rewrite He2)) as [(s' & E' & Hok' & Em)|
      (s' & pre & c & E' & Hok' & Est & Hc & _ & Hu & Hk)]; erewrite kbind_ret by exact E'; rewrite ?He2 in *.
    + left. exists s'. by split.
    + right. rewrite (proj2 (Z.eqb_neq _ 0)) by (specialize (Hpos pre c [] s' Est Hok'); lia).
      destruct (place_heap s' pre c [] size Hok' ltac:(lia) ltac:(lia)) as (s2 & Ep & Hall). cbv zeta in Ep, Hall.
      erewrite kbind_ret by exact Ep. eexists _, s2. split; [reflexivity|]. split; [by eapply Hpos|].
      cbn [used] in Hall. rewrite app_nil_r, Est, Hu in Hall. rewrite Est. by eapply allocated_after.
  - right. pose proof (Hpos p1 c p2 s eq_refl Hok) as Hp. rewrite (proj2 (Z.eqb_neq _ 0)) by lia. cbn [negb].
    destruct (place_heap s p1 c p2 size Hok ltac:(lia) Hc) as (s2 & Ep & Hall). cbv zeta in Ep, Hall.
    erewrite kbind_ret by exact Ep. eexists _, s2. split; [reflexivity|]. split; [exact Hp|].
    by rewrite used_app.
Qed.

(** ** The first call, and giving a block back *)

(** [mm_init] makes a heap of one free block of 4096 bytes, or fails. *)
Lemma mm_init_heap (s : umst W) : 0 < brk (u_os s) < 2 ^ 38 -> brk (u_os s) mod 8 = 0 ->
  exists r s', mm_init s = Ret (r, s') /\ (r = -1 \/ r = 0 /\ heap_ok s' [(CHUNKSIZE, false)]).
Proof.
  intros Hb Hb8. unfold mm_init. set (b := brk (u_os s)) in *.
  assert (E : sbrk 0 s = Ret (b, s)) by (unfold sbrk; change (u32 0) with 0; rewrite sbrk_zero; by destruct s).
  erewrite kbind_ret by exact E. krun. krun. set (s0 := put_end b (put_start b s)). change (4 * WSIZE) with 16.
  destruct (mem_sbrk_ok 16 s0 ltac:(lia) eq_refl ltac:(cbn; lia)) as [(o' & E1 & _)|(m0 & o' & E1 & Eb & Hl & _)]; erewrite kbind_ret by exact E1.
  { exists (-1). eexists. split; [reflexivity|by left]. }
  cbn [mem_heap_start mem_heap_end put_end put_start s0] in *. destruct (Z.eqb_spec b FAILED) as [Ef|_]; [change FAILED with (2 ^ 64 - 1) in Ef; lia|].
  do 5 krun. change (1 * WSIZE) with 4. change (2 * WSIZE) with 8. change (3 * WSIZE) with 12. change (PACK DSIZE 1) with 9. change (PACK 0 1) with 1.
  set (s1 := put_start (b + 8) _). assert (Hok : heap_ok s1 []).
  { split; [split; [|done| |cbn; lia]| | | |]; cbn [s1 mem_heap_start mem_heap_end put_umem u_mem u_os total put_start]; unfold at_.
    - replace (b + 8 + 8 - 12) with (b + 4) by lia. replace (b + 8 + 8 - 8) with (b + 8) by lia.
      split; rewrite ?ld32_st32_other by lia; rewrite ?ld32_st32_other by lia; by rewrite ld32_st32_eq.
    - replace (b + 8 + 8 + 0 - 4) with (b + 12) by lia. by rewrite ld32_st32_eq.
    - lia.
    - lia.
    - split; [lia|dlia].
    - lia. }
  change (CHUNKSIZE / WSIZE) with 1024.
  destruct (extend_heap_ok s1 [] 1024 Hok eq_refl) as [(s' & E' & _)|(s' & pre & c & E' & Hok' & Est & Hc & Ht & _)];
    [split; [unfold WSIZE; lia|reflexivity]|unfold WSIZE; cbn; lia| |];
    erewrite kbind_ret by exact E'; [exists (-1), s'; by split; [|left]|].
  exists 0, s'. pose proof Hok' as [Hm' _ _ _ _]. pose proof (block_fits _ _ _ _ _ _ Hm') as (_ & Hpre & _).
  cbn [s1 mem_heap_start put_start] in Est. rewrite (proj2 (Z.eqb_neq _ 0)) by lia. split; [reflexivity|right]. split; [done|].
  cbn [total] in Ht. change (1024 * WSIZE) with 4096 in *. change CHUNKSIZE with 4096. destruct pre as [|[q al] pre].
  - by replace 4096 with c by (cbn [total] in Ht; lia).
  - destruct Hm' as [_ [[[Hq _] _] Hs] _ _]. apply seg_app in Hs as [Hs _]. apply total_pos in Hs. cbn [total] in Ht. lia.
Qed. 

(** [free] first marks the block free. *)
Lemma free_marks m first pre sz post (s : umst W) : heap_mem m first (pre ++ (sz, true) :: post) -> u_mem s = m -> 0 < first + total pre ->
  let m1 := write_tags m (first + total pre) sz false in
  free (first + total pre) s = (coalesce (first + total pre) ;; kret tt) (put_umem m1 s) /\
  heap_mem m1 first (pre ++ (sz, false) :: post) /\ same_outside (first + total pre - 4) (first + total pre + sz - 4) m m1.
Proof.
  intros Hm Em Hp m1. destruct (block_fits _ _ _ _ _ _ Hm) as (Hf & _). pose proof Hf as [Hr _].
  pose proof (write_tags_outside m (first + total pre) sz false ltac:(lia)) as Ho. split; [|split; [|exact Ho]].
  - unfold free. rewrite (proj2 (Z.eqb_neq _ 0)) by lia. erewrite kbind_ret by reflexivity. rewrite Em, (read_size _ _ _ _ _ _ Hm).
    change (PACK sz 0) with (PACK sz (b2z false)). rewrite put_tags by exact Hf. by rewrite Em.
  - eapply (heap_replace m m1 first pre [(sz, true)] [(sz, false)] post); [exact Hm|done|cbn [total]; rewrite Z.add_0_r; exact Ho|].
    split; [by apply write_tags_ok|done].
Qed.

Lemma free_heap s pre sz post : heap_ok s (pre ++ (sz, true) :: post) -> last_alloc pre && negb (next_alloc post) = false ->
  let first := mem_heap_start s + 8 in
  exists s' bs', free (first + total pre) s = Ret (tt, s') /\ heap_ok s' bs' /\ mem_heap_start s' = mem_heap_start s /\
    used first bs' = used first pre ++ used (first + total pre + sz) post /\ kept (used first bs') (u_mem s) (u_mem s').
Proof.
  intros Hok Hcase first. pose proof Hok as [Hm Hend Hb [Hst Hal] Hl]. fold first in Hm.
  destruct (block_fits _ _ _ _ _ _ Hm) as (Hf & Hpos & _).
  destruct (free_marks (u_mem s) first pre sz post s Hm eq_refl ltac:(lia)) as (E & Hm1 & Ho1). cbv zeta in E, Hm1, Ho1.
  set (m1 := write_tags (u_mem s) _ sz false) in *. rewrite E.
  destruct (coalesce_ok m1 first pre sz post (put_umem m1 s) Hm1 eq_refl Hcase) as (m2 & bs' & r & Ec & [C1 C2 C3 C4]).
  destruct C4 as (pre2 & c & post2 & -> & -> & Hc & _ & Ho2).
  erewrite kbind_ret by exact Ec. exists (put_umem m2 s), (pre2 ++ (c, false) :: post2). split; [reflexivity|].
  assert (Eu : used first (pre2 ++ (c, false) :: post2) = used first pre ++ used (first + total pre + sz) post) by (rewrite C2, used_app; done).
  split; [apply (heap_ok_mem s (pre ++ (sz, true) :: post)); [exact Hok|exact C1|]|].
  { etransitivity; [exact C3|]. by rewrite !total_app. }
  split; [done|]. split; [exact Eu|]. apply (kept_trans _ _ m1).
  - rewrite Eu. eapply kept_others; [apply Hm|exact Ho1].
  - rewrite used_app. cbn [used app]. eapply kept_others; [apply C1|exact Ho2].
Qed.

(** The walk of a heap is determined by the headers. *)
Lemma seg_prefix m first pre : forall bp bs, seg m bp pre -> seg m bp bs -> first = bp -> ld32 m (bp + total bs - 4) = 1 ->
  exists rest, bs = pre ++ rest.
Proof.
  clear. revert first. induction pre as [|[sz al] pre IH]; intros first bp bs Hp Hs _ He; [by exists bs|].
  destruct Hp as [(Hf & T & _) Hp]. pose proof Hf as [Hr Hr8]. destruct bs as [|[sz' al'] bs].
  - cbn [total] in He. rewrite Z.add_0_r, T in He. destruct al; cbn [b2z] in He; lia.
  - destruct Hs as [([Hr' Hr8'] & T' & _) Hs]. cbn [total] in He. rewrite T' in T.
    assert (sz' = sz /\ al' = al) as [-> ->].
    { destruct al, al'; cbn [b2z] in T; (split; [|done || (exfalso; dlia)]); dlia. }
    destruct (IH (bp + sz) (bp + sz) bs Hp Hs eq_refl) as [rest ->]; [|by exists rest].
    rewrite <- He. f_equal. lia.
Qed.

(** A block given back while the block after it is free and the block before
    it is not: the size at its end becomes that of the two together, the size
    at its head stays, and the memory is no heap any more. *)
Lemma free_corrupts m first pre sz n post (s : umst W) : heap_mem m first (pre ++ (sz, true) :: (n, false) :: post) -> u_mem s = m ->
  0 < first + total pre -> last_alloc pre = true ->
  exists m', free (first + total pre) s = Ret (tt, put_umem m' s) /\
    ld32 m' (first + total pre - 4) = sz /\ ld32 m' (first + total pre + sz - 8) = sz + n /\ forall bs, ~ heap_mem m' first bs.
Proof.
  intros Hm Em Hp El. destruct (free_marks m first pre sz _ s Hm Em Hp) as (E & Hm1 & _). cbv zeta in E, Hm1.
  set (m1 := write_tags m _ sz false) in *. set (bp := first + total pre) in *. rewrite E.
  destruct (block_fits _ _ _ _ _ _ Hm1) as (Hf & Hp0 & Hq & Hsm). pose proof Hf as [Hfr Hf8].
  pose proof (read_size _ _ _ _ _ _ Hm1) as Hsz. destruct (read_next _ _ _ _ _ _ Hm1) as [EN AN]. destruct (read_prev _ _ _ _ _ _ Hm1) as [AP _].
  pose proof (at_block _ _ _ _ _ _ Hm1) as (_ & Tb & _). fold bp in Hsz, EN, AN, AP, Tb.
  cbn [next_alloc] in AN. rewrite El in AP.
  assert (Tn : tags m1 (bp + sz) n false) by (destruct Hm1 as [_ Hs _ _]; apply seg_app in Hs as [_ (_ & Ht & _)]; exact Ht).
  pose proof Tn as (Hn & Tn1 & _). pose proof Hn as [Hnr Hn8].
  assert (Hnt : sz + n < 2 ^ 31) by (destruct Hm1 as [_ Hs _ _]; apply seg_app in Hs as [_ (_ & _ & Hs)]; apply total_pos in Hs; cbn [total] in Hsm; lia).
  assert (Hsum : fits (sz + n)) by by apply fits_add.
  assert (EG : GET_SIZE m1 (HDRP (bp + sz)) = n) by by apply (size_of_tag m1 _ n false Hn).
  set (v := PACK (sz + n) (b2z false)). assert (EF : FTRP m1 bp = bp + sz - 8) by (unfold FTRP, DSIZE; by rewrite Hsz).
  set (m2 := st32 m1 (bp + sz - 8) v). assert (Hk : forall p, p + 4 <= bp + sz - 8 -> ld32 m2 p = ld32 m1 p) by (intros p Hpr; apply ld32_st32_other; lia).
  assert (Tb2 : ld32 m2 (bp - 4) = sz) by (rewrite Hk by lia; rewrite Tb; cbn; lia).
  assert (EF2 : FTRP m2 bp = bp + sz - 8).
  { unfold FTRP, DSIZE, HDRP, WSIZE. rewrite (size_of_tag m2 _ sz false Hf); [done|]. rewrite Tb2. cbn. lia. }
  set (m3 := st32 m2 (bp + sz - 8) v). exists m3.
  assert (Tb3 : ld32 m3 (bp - 4) = sz) by (unfold m3; rewrite ld32_st32_other by lia; exact Tb2).
  assert (Tf3 : ld32 m3 (bp + sz - 8) = sz + n) by (unfold m3, v; rewrite ld32_pack by exact Hsum; cbn; lia).
  split; [|split; [exact Tb3|split; [exact Tf3|]]].
  - assert (Ec : coalesce bp (put_umem m1 s) = Ret (bp, put_umem m3 s)); [|by erewrite kbind_ret by exact Ec].
    unfold coalesce. erewrite kbind_ret by reflexivity. cbn [u_mem put_umem].
    rewrite AP, AN, Hsz, EN, EG. cbn [b2z Z.eqb negb andb]. rewrite (u32_small (sz + n)) by lia. change (PACK (sz + n) 0) with v.
    krun. krun. cbn [u_mem put_umem]. rewrite EF. fold m2. rewrite EF2. reflexivity.
  - intros bs [_ Hs He _]. assert (Hpre : seg m3 first pre).
    { destruct Hm1 as [_ Hs1 _ _]. apply seg_app in Hs1 as [Hs1 _]. apply (seg_ext m1); [|exact Hs1]. intros p Hpr. unfold m3, m2.
      rewrite !(ld8_stn_other 4) by (unfold bp; lia). reflexivity. }
    destruct (seg_prefix m3 first pre first bs Hpre Hs eq_refl He) as [rest ->]. apply seg_app in Hs as [_ Hs]. fold bp in Hs.
    destruct rest as [|[q al] rest].
    + rewrite app_nil_r in He. fold bp in He. lia.
    + destruct Hs as [([Hq1 Hq8] & T1 & T2) _]. rewrite Tb3 in T1. assert (q = sz /\ al = false) as [-> ->] by (destruct al; cbn [b2z] in T1; (split; [|done || (exfalso; dlia)]); dlia).
      rewrite Tf3 in T2. cbn [b2z] in T2. lia.
Qed.

(** C20. An allocation in an initialised heap (of at most 2 GiB) either fails
    and changes no byte, or returns an address, a multiple of eight, of a block
    that holds the size asked and its tags and is apart from every block in
    use; the heap is well formed again, its blocks in use are the old ones and
    the new one, and the payloads of the old ones keep their bytes. The fuel is
    one step per block. *)
Theorem malloc_allocates s bs size fuel : heap_ok s bs -> 0 < size < 2 ^ 31 - 16 ->
  total bs + Z.max (adjusted size) CHUNKSIZE < 2 ^ 31 -> (length bs + 1 < fuel)%nat ->
  (exists s', malloc fuel size s = Ret (0, s') /\ heap_ok s' bs /\ u_mem s' = u_mem s) \/
  (exists r s', malloc fuel size s = Ret (r, s') /\ 0 < r /\ allocated s s' (used (mem_heap_start s + 8) bs) r size).
Proof. apply malloc_heap. Qed.

(** A block in use given back to the heap is no longer in use, the other
    blocks in use and their payloads stay and the heap is well formed, unless
    the block after it is free and the block before it is not: then the size
    in its footer becomes that of the two together while its header keeps the
    old one, and no list of blocks describes the memory any more. *)
Theorem free_returns_or_corrupts s pre sz post : heap_ok s (pre ++ (sz, true) :: post) ->
  let first := mem_heap_start s + 8 in
  exists s', free (first + total pre) s = Ret (tt, s') /\
    (last_alloc pre && negb (next_alloc post) = false -> exists bs', heap_ok s' bs' /\
       used first bs' = used first pre ++ used (first + total pre + sz) post /\ kept (used first bs') (u_mem s) (u_mem s')) /\
    (forall n rest, post = (n, false) :: rest -> last_alloc pre = true ->
       ld32 (u_mem s') (first + total pre - 4) = sz /\ ld32 (u_mem s') (first + total pre + sz - 8) = sz + n /\
       forall bs, ~ heap_mem (u_mem s') first bs).
Proof.
  intros Hok first. destruct (last_alloc pre && negb (next_alloc post)) eqn:Hcase.
  - apply andb_true_iff in Hcase as [El En]. destruct post as [|[n aln] post]; [discriminate|]. cbn in En. destruct aln; [discriminate|].
    pose proof Hok as [Hm _ _ [Hst _] _]. destruct (block_fits _ _ _ _ _ _ Hm) as (_ & Hpos & _).
    destruct (free_corrupts (u_mem s) first pre sz n post s Hm eq_refl ltac:(unfold first; lia) El) as (m' & E & C).
    exists (put_umem m' s). split; [exact E|]. split; [discriminate|]. intros n' rest [= <- <-] _. exact C.
  - destruct (free_heap s pre sz post Hok Hcase) as (s' & bs' & E & C1 & C2 & C3 & C4). exists s'. split; [exact E|].
    split; [intros _; exists bs'; by split|]. intros n rest -> El. rewrite El in Hcase. discriminate.
Qed.
End Heap.

(** ** A process whose break moves up to the top of its addresses *)

#[export] Instance bump : Os Z := {
  sys_sbrk n '(m, o) := if (n =? 0) || (o + n <? 2 ^ 38) then (o, (m, o + n)) else (FAILED, (m, o))
}.
#[export] Instance bump_laws : OsLaws Z.
Proof.
  refine {| brk := fun o => o |}.
  - intros m o. cbn. by rewrite Z.add_0_r.
  - intros n m o Hn. unfold sys_sbrk, bump. rewrite (proj2 (Z.eqb_neq n 0)) by lia. cbn [orb].
    destruct (Z.ltb_spec (o + n) (2 ^ 38)); [right|left]; [exists m|]; exists (if o + n <? 2 ^ 38 then o + n else o).
    + rewrite (proj2 (Z.ltb_lt _ _)) by done. by repeat split.
    + rewrite (proj2 (Z.ltb_ge _ _)) by lia. by split.
Defined.

(** The heap [mm_init] leaves to a process whose break was at 4096, and the one
    after two allocations. *)
Definition demo_heap : umst Z :=
  mkUm (extended (st32 (st32 (fun _ => 0) 4100 9) 4104 9) 4112 4096) 4104 8208 8208.
Definition demo_two : umst Z :=
  put_umem (write_tags (write_tags (write_tags (u_mem demo_heap) 4112 24 true) 4136 40 true) 4176 4032 false) demo_heap.

Lemma demo_heap_ok : heap_ok demo_heap [(4096, false)].
Proof. repeat split; vm_compute; congruence. Qed.
Lemma demo_two_ok : heap_ok demo_two ([(24, true)] ++ (40, true) :: [(4032, false)]).
Proof. repeat split; vm_compute; congruence. Qed.
Lemma malloc_allocates_witness : exists r s', malloc 4 30 demo_heap = Ret (r, s') /\
  ((r = 0 /\ heap_ok s' [(4096, false)]) \/ allocated demo_heap s' (used 4112 [(4096, false)]) r 30).
Proof.
  destruct (malloc_allocates demo_heap [(4096, false)] 30 4 demo_heap_ok) as [(s' & E & Hok & _)|(r & s' & E & _ & Ha)];
    [lia|vm_compute; congruence|cbn; lia| |].
  - exists 0, s'. split; [exact E|left]. by split.
  - exists r, s'. split; [exact E|by right].
Defined.
Lemma free_returns_or_corrupts_witness : exists s', free 4136 demo_two = Ret (tt, s') /\
  ld32 (u_mem s') 4132 = 40 /\ ld32 (u_mem s') 4168 = 4072 /\ forall bs, ~ heap_mem (u_mem s') 4112 bs.
Proof.
  destruct (free_returns_or_corrupts demo_two [(24, true)] 40 [(4032, false)] demo_two_ok) as (s' & E & _ & C).
  exists s'. split; [exact E|]. exact (C 4032 [] eq_refl eq_refl).
Defined.
