(* ===== verification/Life.v ===== *)
(** The life of a process: src/kernel/proc.c, from [process_create] to
    [process_wait], the ELF loader and [fork].

    The static variables and the symbols of the linker are parameters, as are
    the addresses of the local arrays. [ProcHeap] is [kalloc] of a
    [struct proc]: it returns the object with whatever its bytes held. *)
From S2P Require Import Prelude CString Bytes Spinlock DList Pm Vm Uvm Ids Proc Schedule Sleep Virt Buf Fat32 Fs Console File.

Definition MAXARG : Z := 32.
Definition EM_RISCV : Z := 0xf3.
Definition PGMASK : Z := Z.shiftl 1 12 - 1.
Definition ELF_MAGIC : Z := 0x464C457F.
Definition PT_LOAD : Z := 1.
Definition SIZEOF_ELFHDR : Z := 64.
Definition SIZEOF_PROGHDR : Z := 56.

(** The fields read of the packed [struct elfhdr] and [struct proghdr]. *)
Record elfhdr : Type := mkElf { e_magic : Z; e_machine : Z; e_entry : Z; e_phoff : Z; e_phnum : Z }.
Definition read_elfhdr (m : mem) (a : Z) : elfhdr :=
  mkElf (ld32 m a) (ld16 m (a + 18)) (ld64 m (a + 24)) (ld64 m (a + 32)) (ld16 m (a + 56)).
Record proghdr : Type := mkProg { p_type : Z; p_flags : Z; p_off : Z; p_vaddr : Z; p_filesz : Z; p_memsz : Z }.
Definition read_proghdr (m : mem) (a : Z) : proghdr :=
  mkProg (ld32 m a) (ld32 m (a + 4)) (ld64 m (a + 8)) (ld64 m (a + 16)) (ld64 m (a + 32)) (ld64 m (a + 40)).

Definition _flag2perm (flag : Z) : Z :=
  Z.lor (if Z.land flag 1 =? 0 then 0 else PTE_X) (if Z.land flag 2 =? 0 then 0 else PTE_W).

Definition set_ra (x : Z) (c : context) : context :=
  mkContext x (c_sp c) (c_s0 c) (c_s1 c) (c_s2 c) (c_s3 c) (c_s4 c) (c_s5 c) (c_s6 c) (c_s7 c) (c_s8 c) (c_s9 c) (c_s10 c) (c_s11 c).

Definition set_sp (x : Z) (c : context) : context :=
  mkContext (c_ra c) x (c_s0 c) (c_s1 c) (c_s2 c) (c_s3 c) (c_s4 c) (c_s5 c) (c_s6 c) (c_s7 c) (c_s8 c) (c_s9 c) (c_s10 c) (c_s11 c).

(** [kalloc(sizeof(struct proc), PROC_MODE)] and its [kfree]. *)
Class ProcHeap (S : Type) : Type := { ph_alloc : K S (addr * proc); ph_free : addr -> K S unit }.

(** ** The process and its address space *)

Section Spaces.
Context (kend kernel_pagetable trampoline : Z) (process_list : addr).

(** The registers saved in the trap frame of a process. *)
Definition tf_get (r : tf_reg) (p : addr) : K psys Z := tf <- getp trapframe p ;; pm_op (load64 (tf + tf_off r)).
Definition tf_set (r : tf_reg) (v : Z) (p : addr) : K psys unit :=
  tf <- getp trapframe p ;; pm_op (store64 (tf + tf_off r) v).

Definition free_user_pagetable (pt : Z) : K psys unit :=
  pm_op (uvmunmap kend 2 pt TRAMPOLINE 1 false) ;;
  pm_op (uvmunmap kend 2 pt TRAPFRAME 1 false) ;;
  pm_op (uvmfree kend pt 0).

(** [sp] is the address of the variable to set. *)
Definition setup_stack (pt sp : Z) : K psys bool :=
  pa <- pm_op kpmalloc ;;
  if pa =? NULL then kret false else
  r <- pm_op (mappages 1 pt (USTACK - PGSIZE) pa PGSIZE (Z.lor PTE_R (Z.lor PTE_W PTE_U))) ;;
  if r <? 0 then pm_op (kpmfree kend pa) ;; kret false else
  pm_op (store64 sp USTACK) ;;
  kret true.

Definition process_pagetable (p : addr) : K psys Z :=
  pt <- pm_op uvmcreate ;;
  if pt =? 0 then kret 0 else
  r <- pm_op (mappages 1 pt TRAMPOLINE trampoline PGSIZE (Z.lor PTE_R PTE_X)) ;;
  if r <? 0 then pm_op (uvmfree kend pt 0) ;; kret 0 else
  tf <- getp trapframe p ;;
  r <- pm_op (mappages 1 pt TRAPFRAME tf PGSIZE (Z.lor PTE_R PTE_W)) ;;
  if r <? 0 then
    pm_op (uvmunmap kend 2 pt TRAMPOLINE 1 false) ;;
    pm_op (uvmfree kend pt 0) ;;
    kret 0
  else kret pt.

Definition process_init : K psys unit :=
  list_op (list_init process_list) ;;
  lock_op (initlock process_lock) ;;
  lock_op (initlock pid_lock).

(** The list elements and lists inside a [struct proc]. *)
Definition links_in (p : addr) : list addr :=
  [head_of (child_list_of p); tail_of (child_list_of p); head_of (file_list_of p); tail_of (file_list_of p); elem_at p; sched_elem_at p].
Definition add_proc (p : addr) (r : proc) : K psys unit :=
  kmod (fun s => put_procs (<[p := r]> (ps_procs s)) s) ;;
  list_op (kmod (fun L => foldr (fun a => insert a (Elem 0 0)) L (links_in p))).
Definition del_proc (p : addr) : K psys unit :=
  kmod (fun s => put_procs (delete p (ps_procs s)) s) ;;
  list_op (kmod (fun L => foldr delete L (links_in p))).
End Spaces.

(** ** Creating and waiting *)

Section Family.
Context {S : Type} `{Sync S} `{ProcHeap S}.
Context (run_queue process_list : addr) (qfuel : nat) (swtch : K S unit).
Context (kend kernel_pagetable trampoline usertrapret_at : Z).

Definition free_proc (p : addr) : K S unit := ph_free p ;; via (del_proc p).

(** The fields of the new process and its place in [process_list]. *)
Definition create_fields (pt va : Z) (p : addr) : K psys unit :=
  setp (set_pagetable pt) p ;;
  setp (set_ctx (zero_context usertrapret_at (va + PGSIZE))) p ;;
  setp (set_vruntime 0) p ;;
  setp (set_priority FIRST) p ;;
  setp (set_status INITIAL) p ;;
  setp (set_cwd NULL) p ;;
  c <- cur_proc ;;
  setp (set_parent c) p ;;
  list_op (list_init (child_list_of p)) ;;
  list_op (list_init (file_list_of p)) ;;
  setp (set_in_run_queue false) p ;;
  lock_op (acquire process_lock) ;;
  list_op (list_push_back process_list (elem_at p)) ;;
  lock_op (release process_lock) ;;
  lock_op (initlock (proc_lock p)).

Definition process_create : K S addr :=
  x <- ph_alloc ;;
  let p := fst x in
  if p =? NULL then kret NULL else
  via (add_proc p (snd x)) ;;
  tf <- via (pm_op kpmalloc) ;;
  via (setp (set_trapframe tf) p) ;;
  if tf =? NULL then free_proc p ;; kret NULL else
  stack <- via (pm_op kpmalloc) ;;
  if stack =? NULL then via (pm_op (kpmfree kend p)) ;; kret NULL else
  i <- via (pid_op pid_alloc) ;;
  via (setp (set_pid i) p) ;;
  let va := KSTACK i in
  r <- via (pm_op (mappages 1 kernel_pagetable va stack PGSIZE (Z.lor PTE_R PTE_W))) ;;
  if negb (r =? 0) then via (pm_op (kpmfree kend stack)) ;; via (pm_op (kpmfree kend p)) ;; kret NULL else
  via (setp (set_kstack va) p) ;;
  pt <- via (process_pagetable kend trampoline p) ;;
  via (create_fields pt va p) ;;
  kret p.

(** A zombie child, its lock and [process_lock] held, up to the release of its
    lock. *)
Definition reap_enter (child : addr) : K psys Z :=
  child_pid <- getp pid child ;;
  ks <- getp kstack child ;;
  kwhen (negb (ks =? 0)) (pm_op (uvmunmap kend 2 kernel_pagetable ks 1 true) ;; setp (set_kstack 0) child) ;;
  tf <- getp trapframe child ;;
  kwhen (negb (tf =? 0)) (pm_op (kpmfree kend tf) ;; setp (set_trapframe NULL) child) ;;
  list_op (list_remove (elem_at child)) ;;
  i <- getp pid child ;;
  pid_op (pid_free i) ;;
  lock_op (release (proc_lock child)) ;;
  kret child_pid.
Definition reap (child : addr) : K S Z :=
  child_pid <- via (reap_enter child) ;;
  free_proc child ;;
  via (lock_op (release process_lock)) ;;
  kret child_pid.

(** The [for] loop over [process_list]: the pid returned, or [have_kids]. *)
Fixpoint wait_scan (n : nat) (p id e : Z) (have_kids : bool) : K S (Z + bool) :=
  match n with
  | O => knofuel
  | Datatypes.S n =>
      t <- via (list_op (list_end process_list)) ;;
      if e =? t then kret (inr have_kids) else
      let child := proc_of_elem e in
      par <- via (getp parent child) ;;
      i <- via (getp pid child) ;;
      if negb (par =? p) || (negb (id =? 0) && negb (i =? id)) then
        e' <- via (list_op (list_next e)) ;; wait_scan n p id e' have_kids
      else
        via (lock_op (acquire (proc_lock child))) ;;
        st <- via (getp status child) ;;
        if bool_decide (st = ZIMBIE) then r <- reap child ;; kret (inl r) else
        via (lock_op (release (proc_lock child))) ;;
        e' <- via (list_op (list_next e)) ;; wait_scan n p id e' true
  end.
Fixpoint wait_rounds (rounds n : nat) (p id : Z) : K S Z :=
  match rounds with
  | O => knofuel
  | Datatypes.S rounds =>
      e <- via (list_op (list_begin process_list)) ;;
      r <- wait_scan n p id e false ;;
      match r with
      | inl child_pid => kret child_pid
      | inr have_kids =>
          if negb have_kids then via (lock_op (release process_lock)) ;; kret (-1) else
          sleep swtch p process_lock ;; wait_rounds rounds n p id
      end
  end.
Definition process_wait (rounds n : nat) (id : Z) : K S Z :=
  p <- via cur_proc ;;
  via (lock_op (acquire process_lock)) ;;
  wait_rounds rounds n p id.

Definition init_first_proc (run_first_task_at : Z) : K S unit :=
  p <- process_create ;;
  via (setp (fun r => set_ctx (set_ra run_first_task_at (ctx r)) r) p) ;;
  via (tf_set tf_a0 0 p) ;;
  via (tf_set tf_sp PGSIZE p) ;;
  via (tf_set epc 0 p) ;;
  via (lock_op (acquire (proc_lock p))) ;;
  via (setp (set_status RUNNABLE) p) ;;
  via (rb_push_back run_queue qfuel p) ;;
  via (lock_op (release (proc_lock p))).
End Family.

(** ** Programs *)

(** Where the local arrays are. *)
Record lframe : Type := mkLframe { fr_ustack : addr; fr_path : addr; fr_ehdr : addr; fr_phdr : addr }.

(** [strncpy] into the [name] field, the last of the structure. *)
Definition name_at (p : addr) : addr := p + 324.
Definition copy_name (m : mem) (p : addr) (old : list Z) (src n : Z) : list Z :=
  mget (fst (strncpy (mput m (name_at p) old) (name_at p) src n)) (name_at p) 64.

Section Programs.
Context {S V : Type} `{Cache S} `{Pages S} `{Heap S} `{Terminal S V} `{Uart V} `{Sync S} `{ProcHeap S}.
Context (fr : frame) (lf : lframe) (run_queue process_list : addr) (qfuel : nat) (swtch : K S unit) (ch_at lit_console : addr).
Context (kend kernel_pagetable trampoline usertrapret_at forkret_at : Z).
(** The fuel of the loops below. *)
Context (fuel pfuel ufuel : nat).
#[local] Abbreviation F := (K (S * fsst)).
#[local] Abbreviation fs_read := (filesys_read (V := V) run_queue qfuel swtch ch_at fuel pfuel).
#[local] Abbreviation fs_seek := (filesys_seek (V := V) fuel).
#[local] Abbreviation fs_open := (filesys_open (V := V) fr lit_console fuel).
#[local] Abbreviation fs_close := (filesys_close (V := V) fr fuel).
#[local] Abbreviation kern := (kern (V := V)).

(** The memory of the kernel. *)
Definition pmem {A} (f : mem -> A) : F A := kern (kget (fun s => f (pm_mem (ps_pm s)))).
Definition pmem_set (f : mem -> mem) : F unit := kern (pm_op (kmod (fun s => set_mem (f (pm_mem s)) s))).
Definition pmem_res {A} (f : mem -> res A) : F A := kern (fun s => match f (pm_mem (ps_pm s)) with
  | Ret a => Ret (a, s) | Panic e => Panic e | Fault => Fault | Spin => Spin | NoFuel => NoFuel end).

(** The first loop of [loadseg], from byte [i] of the segment, and the second,
    which clears the [left] bytes from [bss] on. *)
Fixpoint load_loop (n : nat) (p pt fd va filesz i : Z) : F bool :=
  match n with
  | O => knofuel
  | Datatypes.S n =>
      if i <? filesz then
        pa <- kern (pm_op (walkaddr pt (u64 (va + i)))) ;;
        if pa =? 0 then kret false else
        let k := Z.min (filesz - i) PGSIZE in
        r <- fs_read p fd pa k ;;
        if negb (u64 r =? k) then kret false else
        load_loop n p pt fd va filesz (u64 (i + PGSIZE))
      else kret true
  end.
Fixpoint clear_loop (n : nat) (pt bss left : Z) : F bool :=
  match n with
  | O => knofuel
  | Datatypes.S n =>
      if 0 <? left then
        let page := PGROUNDDOWN bss in
        pa <- kern (pm_op (walkaddr pt page)) ;;
        if pa =? 0 then kret false else
        let off_in_page := bss - page in
        let k := Z.min (PGSIZE - off_in_page) left in
        pmem_set (fun m => memset m (pa + off_in_page) 0 k) ;;
        clear_loop n pt (u64 (bss + k)) (left - k)
      else kret true
  end.
Definition loadseg (pt fd off va filesz memsz flag oldsz : Z) : F Z :=
  p <- kern cur_proc ;;
  newsz <- kern (pm_op (uvmalloc kend ufuel pt oldsz (u64 (va + memsz)) flag)) ;;
  if newsz =? 0 then kret 0 else
  fs_seek p fd off SEEK_SET ;;
  b <- load_loop ufuel p pt fd va filesz 0 ;;
  if negb b then kret 0 else
  b <- clear_loop ufuel pt (u64 (va + filesz)) (u64 (memsz - filesz)) ;;
  if negb b then kret 0 else kret newsz.

(** The loop of [loader] over the program headers: the size reached, unless a
    header is refused. *)
Fixpoint load_segments (n : nat) (p fd i sz : Z) : F (option Z) :=
  match n with
  | O => kret (Some sz)
  | Datatypes.S n =>
      h <- pmem (fun m => read_proghdr m (fr_phdr lf + SIZEOF_PROGHDR * i)) ;;
      if negb (p_type h =? PT_LOAD) then load_segments n p fd (i + 1) sz else
      if p_memsz h <? p_filesz h then kret None else
      if u64 (p_vaddr h + p_memsz h) <? p_vaddr h then kret None else
      if negb (Z.land (p_vaddr h) PGMASK =? 0) then kret None else
      pt <- kern (getp pagetable p) ;;
      sz <- loadseg pt fd (s64 (p_off h)) (p_vaddr h) (p_filesz h) (p_memsz h) (_flag2perm (s32 (p_flags h))) sz ;;
      if sz =? 0 then kret None else load_segments n p fd (i + 1) sz
  end.
Definition loader (file : addr) : F bool :=
  p <- kern cur_proc ;;
  n <- pmem_res (fun m => strlen fuel m file) ;;
  pmem_set (fun m => st8 (fst (strncpy m (fr_path lf) file n)) (fr_path lf + n) 0) ;;
  fd <- fs_open p (fr_path lf) 0 ;;
  if fd <? 0 then kret false else
  r <- fs_read p fd (fr_ehdr lf) SIZEOF_ELFHDR ;;
  kassert (u64 r =? SIZEOF_ELFHDR) ;;
  e <- pmem (fun m => read_elfhdr m (fr_ehdr lf)) ;;
  kassert (e_magic e =? ELF_MAGIC) ;;
  kassert (e_machine e =? EM_RISCV) ;;
  fs_seek p fd (s64 (e_phoff e)) SEEK_SET ;;
  bytes_read <- fs_read p fd (fr_phdr lf) (SIZEOF_PROGHDR * e_phnum e) ;;
  kassert (u64 bytes_read =? SIZEOF_PROGHDR * e_phnum e) ;;
  sz <- load_segments (Z.to_nat (e_phnum e)) p fd 0 0 ;;
  success <- (match sz with
    | None => kret false
    | Some sz =>
        kern (setp (set_heap_start (PGROUNDUP sz)) p) ;;
        kern (setp (set_heap_end (PGROUNDUP sz)) p) ;;
        pt <- kern (getp pagetable p) ;;
        tf <- kern (getp trapframe p) ;;
        b <- kern (setup_stack kend pt (tf + tf_off tf_sp)) ;;
        if negb b then kret false else
        kern (tf_set epc (e_entry e) p) ;; kret true
    end) ;;
  fs_close p fd ;;
  kret success.

(** The loop of [process_execute] over the arguments: [argc] and [sp] at its
    end, unless it goes to [bad]. *)
Fixpoint push_args (n : nat) (p argv argc sp stackbase : Z) : F (option (Z * Z)) :=
  match n with
  | O => knofuel
  | Datatypes.S n =>
      a <- pmem (fun m => ld64 m (argv + 8 * argc)) ;;
      if a =? 0 then kret (Some (argc, sp)) else
      if MAXARG <=? argc then kret None else
      k <- pmem_res (fun m => strlen fuel m a) ;;
      let len := k + 1 in
      let sp := u64 (sp - len) in
      if sp <? stackbase then kret None else
      pt <- kern (getp pagetable p) ;;
      r <- kern (pm_op (copyout ufuel pt sp a len)) ;;
      if r <? 0 then kret None else
      pmem_set (fun m => st64 m (fr_ustack lf + 8 * argc) sp) ;;
      push_args n p argv (argc + 1) sp stackbase
  end.
(** The stack of the new program; [false] is [goto bad]. *)
Definition fill_stack (p argv _path : addr) : F bool :=
  sp <- kern (tf_get tf_sp p) ;;
  let stackbase := u64 (sp - PGSIZE) in
  x <- push_args fuel p argv 0 sp stackbase ;;
  match x with
  | None => kret false
  | Some (argc, sp) =>
      pmem_set (fun m => st64 m (fr_ustack lf + 8 * argc) 0) ;;
      let argc := argc + 1 in
      let align_len := Z.land sp 0x0f + (0x10 - Z.land (argc * 8) 0xf) in
      let sp := u64 (u64 (sp - align_len) - argc * 8) in
      if sp <? stackbase then kret false else
      pt <- kern (getp pagetable p) ;;
      r <- kern (pm_op (copyout ufuel pt sp (fr_ustack lf) (argc * 8))) ;;
      if r <? 0 then kret false else
      kern (tf_set tf_a1 sp p) ;;
      kern (tf_set tf_a0 (argc - 1) p) ;;
      kern (tf_set tf_sp sp p) ;;
      m <- pmem (fun m => m) ;;
      kern (setp (fun r => set_name (<[63%nat := 0]> (copy_name m p (name r) _path 63)) r) p) ;;
      kret true
  end.
Definition process_execute (_path argv : addr) : F bool :=
  p <- kern cur_proc ;;
  old_pagetable <- kern (getp pagetable p) ;;
  old_heap_start <- kern (getp heap_start p) ;;
  old_heap_end <- kern (getp heap_end p) ;;
  tf <- kern (getp trapframe p) ;;
  old_trapframe <- pmem (fun m => mget m tf (Z.to_nat TRAPFRAME_SIZE)) ;;
  new_pagetable <- kern (process_pagetable kend trampoline p) ;;
  if new_pagetable =? 0 then kret false else
  kern (setp (set_pagetable new_pagetable) p) ;;
  loaded <- loader _path ;;
  ok <- (if negb loaded then kret false else fill_stack p argv _path) ;;
  if (ok : bool) then
    kern (free_user_pagetable kend old_pagetable) ;;
    kret true
  else
    kern (free_user_pagetable kend new_pagetable) ;;
    kern (setp (set_pagetable old_pagetable) p) ;;
    tf <- kern (getp trapframe p) ;;
    pmem_set (fun m => mput m tf old_trapframe) ;;
    kern (setp (set_heap_start old_heap_start) p) ;;
    kern (setp (set_heap_end old_heap_end) p) ;;
    kret false.

(** The first loop of [process_exit]. *)
Fixpoint close_files (n : nat) (p : addr) : F unit :=
  match n with
  | O => knofuel
  | Datatypes.S n =>
      b <- kern (list_op (list_empty (file_list_of p))) ;;
      if (b : bool) then kret tt else
      e <- kern (list_op (list_pop_front (file_list_of p))) ;;
      let f := file_of_elem e in
      fd <- getf f_fd f ;;
      fd_op (V := V) (free_fd (s32 fd)) ;;
      d <- getf f_dirent f ;;
      file_close fr d ;;
      base (hp_free f) ;;
      delete_file (V := V) f ;;
      close_files n p
  end.
(** [process_exit] up to the switch, and as a whole: it does not return. *)
Definition exit_enter (p : addr) (state : Z) : F unit :=
  close_files fuel p ;;
  c <- kern (getp cwd p) ;;
  kwhen (negb (c =? 0))
    (d <- getf f_dirent c ;; file_close fr d ;; base (hp_free c) ;; delete_file (V := V) c ;; kern (setp (set_cwd NULL) p)) ;;
  pt <- kern (getp pagetable p) ;;
  kwhen (negb (pt =? 0)) (kern (free_user_pagetable kend pt) ;; kern (setp (set_pagetable 0) p)) ;;
  kern (lock_op (acquire (proc_lock p))) ;;
  kern (setp (set_exit_state (s32 state)) p) ;;
  kern (setp (set_status ZIMBIE) p) ;;
  q <- kern (getp parent p) ;;
  kwhen (negb (q =? 0)) (kern (wakeup run_queue process_list fuel qfuel q)).
Definition process_exit (state : Z) : F unit :=
  p <- kern cur_proc ;;
  exit_enter p state ;;
  base (sched swtch) ;;
  kpanic "zombie exit".

(** The copies [fork] makes of the open files. *)
Fixpoint copy_files (n : nat) (p np e : addr) : F unit :=
  match n with
  | O => knofuel
  | Datatypes.S n =>
      t <- kern (list_op (list_end (file_list_of p))) ;;
      if e =? t then kret tt else
      let f := file_of_elem e in
      nf <- base hp_alloc ;;
      if nf =? 0 then kfault else
      x <- getf (fun x => x) f ;;
      new_file (V := V) nf x ;;
      d <- getf f_dirent nf ;;
      kwhen (negb (d =? 0)) (c <- getd linkcnt d ;; setd (set_linkcnt (u32 (c + 1))) d) ;;
      kern (list_op (list_push_back (file_list_of np) (felem nf))) ;;
      e' <- kern (list_op (list_next e)) ;;
      copy_files n p np e'
  end.

(** The memory and the stack of the child: the page of its stack if one was
    allocated and whether all went well. *)
Definition copy_space (p np : addr) : F (Z * bool) :=
  let stack_va := USTACK - PGSIZE in
  ppt <- kern (getp pagetable p) ;;
  npt <- kern (getp pagetable np) ;;
  sz <- kern (getp heap_end p) ;;
  r <- kern (pm_op (uvmcopy kend ufuel ppt npt sz)) ;;
  if r <? 0 then kret (0, false) else
  spte <- kern (pm_op (walk ppt stack_va false)) ;;
  if spte =? 0 then kret (0, false) else
  e <- kern (pm_op (load64 spte)) ;;
  if negb (has PTE_V e && has PTE_U e) then kret (0, false) else
  stack_mem <- kern (pm_op kpmalloc) ;;
  if stack_mem =? 0 then kret (0, false) else
  kern (pm_op (move stack_mem (PTE2PA e) PGSIZE)) ;;
  r <- kern (pm_op (mappages 1 npt stack_va stack_mem PGSIZE (Z.land (PTE_FLAGS e) (Z.lor PTE_RWX PTE_U)))) ;;
  if negb (r =? 0) then kern (pm_op (kpmfree kend stack_mem)) ;; kret (0, false) else
  kret (stack_mem, true).
(** [bad]: [stack_mem] is null at every jump to it. *)
Definition fork_bad (np stack_mem : addr) : F unit :=
  kwhen (negb (stack_mem =? 0)) (kern (pm_op (kpmfree kend stack_mem))) ;;
  ks <- kern (getp kstack np) ;;
  i <- kern (getp pid np) ;;
  kwhen (negb (ks =? 0)) (kern (pm_op (uvmunmap kend 2 kernel_pagetable (KSTACK i) 1 true))) ;;
  pt <- kern (getp pagetable np) ;;
  kwhen (negb (pt =? 0)) (kern (free_user_pagetable kend pt)) ;;
  tf <- kern (getp trapframe np) ;;
  kwhen (negb (tf =? 0)) (kern (pm_op (kpmfree kend tf))) ;;
  kern (lock_op (acquire process_lock)) ;;
  kern (list_op (list_remove (elem_at np))) ;;
  kern (lock_op (release process_lock)) ;;
  kern (pid_op (pid_free i)) ;;
  base (free_proc np).
Definition fork : F Z :=
  p <- kern cur_proc ;;
  np <- base (process_create process_list kend kernel_pagetable trampoline usertrapret_at) ;;
  if np =? NULL then kret (-1) else
  x <- copy_space p np ;;
  if negb (snd x) then fork_bad np (fst x) ;; kret (-1) else
  ks <- kern (getp kstack np) ;;
  kern (setp (fun r => set_ctx (set_sp (ks + PGSIZE) (set_ra forkret_at (ctx r))) r) np) ;;
  ntf <- kern (getp trapframe np) ;;
  tf <- kern (getp trapframe p) ;;
  pmem_set (fun m => memcpy m ntf tf TRAPFRAME_SIZE) ;;
  kern (tf_set tf_a0 0 np) ;;
  a <- kern (getp heap_start p) ;;
  kern (setp (set_heap_start a) np) ;;
  b <- kern (getp heap_end p) ;;
  kern (setp (set_heap_end b) np) ;;
  kern (list_op (list_init (file_list_of np))) ;;
  e <- kern (list_op (list_begin (file_list_of p))) ;;
  copy_files fuel p np e ;;
  nm <- kern (getp name p) ;;
  m <- pmem (fun m => mput m (name_at p) nm) ;;
  kern (setp (fun r => set_name (copy_name m np (name r) (name_at p) 64) r) np) ;;
  i <- kern (getp pid np) ;;
  kern (lock_op (acquire (proc_lock np))) ;;
  kern (setp (set_status RUNNABLE) np) ;;
  kern (setp (set_parent p) np) ;;
  kern (rb_push_back run_queue qfuel np) ;;
  kern (lock_op (release (proc_lock np))) ;;
  kret i.
End Programs.

(** ** Waiting for a child *)

Section Reaping.
Context (kend kernel_pagetable : Z) (kend_pos : 0 < kend) (process_list : addr).

Lemma pm_op_ok {A} (m : K pmst A) s a x : m (ps_pm s) = Ret (a, x) -> pm_op m s = Ret (a, put_pm x s).
Proof. apply zoom_ret. Qed.

(** The zombie [c], its kernel stack in the frame [k]. *)
Record zombie_pages (s : psys) (r : proc) (k : Z) (free : list Z) : Prop := {
  zp_vm : vm_ok kend (ps_pm s) kernel_pagetable free;
  zp_stack : 0 < kstack r /\ kstack r mod PGSIZE = 0 /\ kstack r + PGSIZE <= MAXVA;
  zp_pte : leaf_pte (pte_of (pm_mem (ps_pm s)) kernel_pagetable (kstack r)) = true /\
    PTE2PA (pte_of (pm_mem (ps_pm s)) kernel_pagetable (kstack r)) = k;
  zp_frame : frame_ok kend (ps_pm s) kernel_pagetable free k;
  zp_tf : page kend (trapframe r) /\ trapframe r ∉ tables (pm_mem (ps_pm s)) kernel_pagetable ++ k :: free
}.

Lemma unmap_stack s r k free : zombie_pages s r k free ->
  exists x, uvmunmap kend 2 kernel_pagetable (kstack r) 1 true (ps_pm s) = Ret (tt, x) /\ vm_ok kend x kernel_pagetable (k :: free) /\
    retuned kernel_pagetable (clear_range (kstack r) 1 (pte_of (pm_mem (ps_pm s)) kernel_pagetable)) [k] (ps_pm s) x.
Proof.
  intros [Hvm (H0 & Hal & HM) [Hl Hk] Hf _].
  destruct (uvmunmap_loop_ok kend kend_pos [k] 2 (ps_pm s) kernel_pagetable free (kstack r) true Hvm) as (x & R & O & T);
    [lia|done|cbn [length]; lia| |intros _; split; [apply NoDup_singleton|by apply Forall_singleton]|cbn; lia|].
  { intros [|i] y Hy; [|done]. injection Hy as <-. rewrite Z.mul_0_l, Z.add_0_r. by split. }
  exists x. split; [|by split]. unfold uvmunmap. rewrite Hal. cbn [Z.eqb negb]. rewrite u64_small.
  - exact R.
  - change MAXVA with (2 ^ 38) in HM. unfold PGSIZE in *. lia.
Qed.

(** What is left when [c] has been reaped, seen from a state with locks [l0]
    where the process still was. *)
Record reaped (s : psys) (l0 : lockst) (c : addr) (r : proc) (k : Z) (A B : list addr) (X : gset Z) (free : list Z) (s' : psys) : Prop := {
  rp_procs : ps_procs s' = <[c := set_trapframe NULL (set_kstack 0 r)]> (ps_procs s);
  rp_list : dlist (ps_links s') process_list (map elem_at (A ++ B));
  rp_links : unchanged_but (nodes process_list (map elem_at (A ++ c :: B))) (ps_links s) (ps_links s');
  rp_ids : bitmap MAX_PID (ps_pids s') (X ∖ {[pid r]});
  rp_vm : vm_ok kend (ps_pm s') kernel_pagetable (trapframe r :: k :: free);
  rp_pte : forall va, 0 <= va < MAXVA ->
    pte_of (pm_mem (ps_pm s')) kernel_pagetable va = clear_range (kstack r) 1 (pte_of (pm_mem (ps_pm s)) kernel_pagetable) va;
  rp_bytes : forall a, (forall t, t ∈ tables (pm_mem (ps_pm s)) kernel_pagetable ++ [trapframe r; k] -> ~ (t <= a < t + PGSIZE)) ->
    ld8 (pm_mem (ps_pm s')) a = ld8 (pm_mem (ps_pm s)) a;
  rp_tables : tables (pm_mem (ps_pm s')) kernel_pagetable = tables (pm_mem (ps_pm s)) kernel_pagetable;
  rp_rest : ps_cur s' = ps_cur s /\ min_vruntime s' = min_vruntime s;
  rp_lk : lk_restored l0 (ps_lk s')
}.

Lemma reap_enter_ok s l0 c r k A B X free :
  ps_procs s !! c = Some r -> dlist (ps_links s) process_list (map elem_at (A ++ c :: B)) -> bitmap MAX_PID (ps_pids s) X ->
  zombie_pages s r k free -> lock_free (proc_lock c) l0 -> cpu_ok (hcpu l0) ->
  lock_free pid_lock l0 -> lock_free kmem_lock l0 -> ps_lk s ≡ acquired (proc_lock c) l0 ->
  exists s', reap_enter kend kernel_pagetable c s = Ret (pid r, s') /\ reaped s l0 c r k A B X free s'.
Proof.
  intros Hr HL Hb Hz Hlk Hc Hpl Hkm El. pose proof Hz as [Hvm (H0 & _ & _) _ Hfr [Htf Htn]].
  destruct (unmap_stack s r k free Hz) as (x1 & R1 & O1 & T1). destruct (acquired_ready _ _ _ Hc El) as [Hc1 Hfree1].
  assert (Hn2 : trapframe r ∉ tables (pm_mem x1) kernel_pagetable ++ k :: free) by by rewrite (t_tables _ _ _ _ _ T1).
  destruct (vm_free_page kend kend_pos x1 kernel_pagetable (trapframe r) (k :: free) O1 Htf Hn2) as (x2 & R2 & O2 & B2).
  set (r1 := set_kstack 0 r). set (r2 := set_trapframe NULL r1).
  set (s1 := put_procs (<[c := r1]> (ps_procs s)) (put_pm x1 s)).
  set (s2 := put_procs (<[c := r2]> (ps_procs s1)) (put_pm x2 s1)).
  rewrite map_app in HL. cbn [map] in HL.
  destruct (list_remove_ok (ps_links s2) process_list (map elem_at A) (elem_at c) (map elem_at B) HL) as (L & R3 & HL' & Hu & _ & _ & _).
  set (s3 := put_links L s2). assert (R12 : lk_restored (ps_lk s) (ps_lk s3)) by (eapply lk_restored_trans; [exact (t_lk _ _ _ _ _ T1)|exact (b_lk _ _ _ _ _ B2)]).
  assert (Hid : ids_ready pid_lock (mkBm (ps_lk s3) (ps_pids s3))).
  { split; cbn [bm_lk]; [eapply lk_restored_free; [exact R12|]; by apply Hfree1|by eapply lk_restored_ok]. }
  destruct (id_free_ok pid_lock MAX_PID (pid r) _ X Hid Hb) as (b4 & R4 & Hb4 & K4). cbn [bm_lk] in K4.
  set (s4 := put_pids b4 s3).
  destruct (lock_leave_restored (proc_lock c) l0 (ps_lk s) s4 Hlk Hc El) as (l5 & R5 & K5); [by eapply lk_restored_trans|].
  exists (put_lk l5 s4). split.
  - unfold reap_enter. erewrite kbind_ret by by apply getp_ok. erewrite kbind_ret by by apply getp_ok.
    rewrite (proj2 (Z.eqb_neq (kstack r) 0)) by lia. cbn [negb kwhen].
    rewrite kbind_assoc. erewrite kbind_ret by exact (pm_op_ok _ _ _ _ R1). erewrite kbind_ret by exact (setp_ok _ c (put_pm x1 s) r Hr).
    fold s1. assert (Hr1 : ps_procs s1 !! c = Some r1) by apply lookup_insert_eq.
    erewrite kbind_ret by by apply getp_ok. replace (trapframe r1) with (trapframe r) by by destruct r.
    rewrite (proj2 (Z.eqb_neq (trapframe r) 0)) by (pose proof (page_pos kend kend_pos _ Htf); lia). cbn [negb kwhen].
    rewrite kbind_assoc. erewrite kbind_ret by exact (pm_op_ok _ s1 _ _ R2). erewrite kbind_ret by exact (setp_ok _ c (put_pm x2 s1) r1 Hr1).
    fold r2 s2. erewrite kbind_ret by exact (list_op_ok _ s2 _ _ R3). fold s3.
    erewrite kbind_ret by (apply (getp_ok pid c s3 r2); apply lookup_insert_eq).
    replace (pid r2) with (pid r) by by destruct r.
    erewrite kbind_ret by (unfold pid_op; by erewrite zoom_ret by exact R4). fold s4.
    by erewrite kbind_ret by exact R5.
  - split.
    + cbn. unfold s1. cbn. by rewrite insert_insert_eq.
    + rewrite map_app. exact HL'.
    + eapply unchanged_mono; [|exact Hu]. rewrite map_app. cbn [map].
      intros a [->|[->|Ha%elem_of_nil]%elem_of_cons]%elem_of_cons; [apply pre_in| |done].
      replace (map elem_at A ++ elem_at c :: map elem_at B) with ((map elem_at A ++ [elem_at c]) ++ map elem_at B) by by rewrite <- app_assoc.
      apply cur_in.
    + exact Hb4.
    + destruct O2 as [V1 [F1 F2 F3 F4] V3]. split; [exact V1| |exact V3]. split; [exact F1|exact F2|exact F3|].
      split; [by eapply lk_restored_free|by eapply lk_restored_ok].
    + intros va Hva. cbn. rewrite (b_pte _ _ _ _ _ B2). apply (t_pte _ _ _ _ _ T1); lia.
    + intros a Ha. cbn. rewrite (b_bytes _ _ _ _ _ B2) by (apply Ha, elem_of_app; right; left). apply (t_bytes _ _ _ _ _ T1). intros t Ht. apply Ha.
      rewrite elem_of_app in *. destruct Ht as [Ht|Ht]; [by left|right]. by right.
    + cbn. rewrite (b_tables _ _ _ _ _ B2). apply (t_tables _ _ _ _ _ T1).
    + done.
    + exact K5.
Qed.
End Reaping.

(** *** What the code relies on of [kalloc] *)

(** The bytes of the allocator's own pages, the objects in them, and its
    invariant: other writes keep it; freeing an object touches only its bytes. *)
Class ProcHeapLaws (S : Type) `{Sync S} `{ProcHeap S} : Type := {
  slab_byte : Z -> Prop;
  slab_obj : addr -> Prop;
  slab_ok : S -> Prop;
  slab_ok_ps s x : slab_ok s ->
    (forall a, slab_byte a -> ld8 (pm_mem (ps_pm x)) a = ld8 (pm_mem (ps_pm (lget (T := psys) s))) a) -> slab_ok (lput x s);
  ph_free_ok s p : slab_ok s -> slab_obj p ->
    exists s' m, ph_free p s = Ret (tt, s') /\ slab_ok s' /\
      lget (T := psys) s' = put_pm (set_mem m (ps_pm (lget s))) (lget s) /\
      forall a, ~ slab_byte a -> ld8 m a = ld8 (pm_mem (ps_pm (lget (T := psys) s))) a
}.

Section Waiting.
Context {S : Type} `{ProcHeapLaws S}.
Context (process_list : addr) (swtch : K S unit) (kend kernel_pagetable : Z) (kend_pos : 0 < kend).
#[local] Abbreviation psof := (lget (T := psys)).
#[local] Abbreviation scan := (wait_scan process_list kend kernel_pagetable).
#[local] Abbreviation relocked l s := (lput (put_lk l (psof s)) s).

(** [r] is a child of [p] that a wait for [id] looks at. *)
Definition awaited (p id : Z) (r : proc) : bool := (parent r =? p) && ((id =? 0) || (pid r =? id)).
(** A process the scan passes: not awaited, or not yet a zombie. *)
Definition passed (s : psys) (p id : Z) (x : addr) : Prop :=
  exists r, ps_procs s !! x = Some r /\ (awaited p id r = true -> status r <> ZIMBIE /\ lock_free (proc_lock x) (ps_lk s)).

Lemma skip_test p id r : negb (parent r =? p) || negb (id =? 0) && negb (pid r =? id) = negb (awaited p id r).
Proof. unfold awaited. by destruct (parent r =? p), (id =? 0), (pid r =? id). Qed.

(** A critical section that does nothing. *)
Lemma lock_touch lk s : lock_free lk (ps_lk s) -> cpu_ok (hcpu (ps_lk s)) ->
  exists l l', lock_op (acquire lk) s = Ret (tt, put_lk l s) /\ lock_op (release lk) (put_lk l s) = Ret (tt, put_lk l' s) /\
    lk_restored (ps_lk s) l'.
Proof.
  intros Hf Hc. destruct (lock_enter lk s Hf) as (l & R1 & E1). destruct (lock_leave_restored lk (ps_lk s) l (put_lk l s) Hf Hc E1) as (l' & R2 & K2).
  { apply lk_restored_refl. }
  exists l, l'. split; [exact R1|]. split; [|exact K2]. exact R2.
Qed.

Lemma via_ok {A} (m : K psys A) (s : S) a x : m (psof s) = Ret (a, x) -> via m s = Ret (a, lput x s).
Proof. apply via_ret. Qed.
Lemma via_read {A} (m : K psys A) (s : S) a : m (psof s) = Ret (a, psof s) -> via m s = Ret (a, s).
Proof. intros E. erewrite via_ret by exact E. by rewrite lput_lget. Qed.

Lemma passed_relocked s l p id x : lk_restored (ps_lk s) l -> passed s p id x -> passed (put_lk l s) p id x.
Proof.
  intros R (r & Hr & Hz). exists r. split; [exact Hr|]. intros Ha. destruct (Hz Ha) as [Hs Hf]. split; [exact Hs|].
  by eapply lk_restored_free.
Qed.

Lemma put_lk_id s : put_lk (ps_lk s) s = s.
Proof. by destruct s as [[] ? ? ? ? ?]. Qed.
Lemma wait_skip p id rest m : forall A A1 s kids,
  dlist (ps_links (psof s)) process_list (map elem_at (A1 ++ A ++ rest)) -> Forall (passed (psof s) p id) A -> cpu_ok (hcpu (ps_lk (psof s))) ->
  exists l kids', lk_restored (ps_lk (psof s)) l /\
    kids' = kids || existsb (fun x => match ps_procs (psof s) !! x with Some r => awaited p id r | None => false end) A /\
    scan (length A + m) p id (cur process_list (map elem_at (A ++ rest))) kids s =
    scan m p id (cur process_list (map elem_at rest)) kids' (relocked l s).
Proof.
  induction A as [|x A IH]; intros A1 s kids HL HA Hc.
  - exists (ps_lk (psof s)), kids. split; [apply lk_restored_refl|]. split; [by rewrite orb_false_r|]. cbn [length Nat.add app].
    f_equal. by rewrite put_lk_id, lput_lget.
  - apply Forall_cons in HA as [(r & Hr & Hz) HA]. cbn [length Nat.add wait_scan].
    assert (HL2 := HL). rewrite map_app in HL2. cbn [app map] in HL2.
    erewrite kbind_ret by (apply via_read, list_read_ok; eapply end_ok, HL).
    cbn [app map].
    rewrite (cur_tail (ps_links (psof s)) process_list (map elem_at A1) (elem_at x :: map elem_at (A ++ rest)) HL2), bool_decide_eq_false_2 by done.
    rewrite cur_cons, proc_of_elem_at.
    erewrite kbind_ret by (apply via_read; by apply getp_ok). erewrite kbind_ret by (apply via_read; by apply getp_ok).
    rewrite skip_test.
    assert (HL3 : dlist (ps_links (psof s)) process_list (map elem_at ((A1 ++ [x]) ++ A ++ rest))) by by rewrite <- app_assoc.
    assert (Hnext : list_next (elem_at x) (ps_links (psof s)) = Ret (cur process_list (map elem_at (A ++ rest)), ps_links (psof s))).
    { eapply next_elem, HL2. }
    cbn [existsb]. rewrite Hr. destruct (awaited p id r) eqn:Ea; cbn [negb].
    + destruct (Hz eq_refl) as [Hs Hf]. destruct (lock_touch (proc_lock x) (psof s) Hf Hc) as (l & l' & R1 & R2 & K).
      erewrite kbind_ret by exact (via_ok _ _ _ _ R1).
      erewrite kbind_ret by (apply via_read; rewrite lget_lput; exact (getp_ok _ x (put_lk l (psof s)) r Hr)).
      rewrite bool_decide_eq_false_2 by done.
      erewrite kbind_ret by (apply via_ok; rewrite lget_lput; exact R2). rewrite lput_lput.
      set (s' := relocked l' s). assert (Es : psof s' = put_lk l' (psof s)) by apply lget_lput.
      erewrite kbind_ret by (apply via_read; rewrite Es; apply list_read_ok; exact Hnext).
      destruct (IH (A1 ++ [x]) s' true) as (l2 & kids' & K2 & Ek & R); [rewrite Es..|].
      * exact HL3.
      * eapply Forall_impl; [exact HA|]. intros y Hy. by apply passed_relocked.
      * by eapply lk_restored_ok.
      * rewrite Es in K2, R. exists l2, kids'. split; [by eapply lk_restored_trans|]. split.
        -- rewrite Ek. by destruct kids.
        -- rewrite R. unfold s'. by rewrite lput_lput.
    + erewrite kbind_ret by (apply via_read, list_read_ok; exact Hnext).
      destruct (IH (A1 ++ [x]) s kids HL3 HA Hc) as (l & kids' & K & Ek & R). exists l, kids'. split; [exact K|]. split; [exact Ek|exact R].
Qed.

(** Writes off the pages of a page table and of the free list. *)
Lemma vm_ok_off s root free m : vm_ok kend s root free ->
  (forall a t, t ∈ tables (pm_mem s) root ++ free -> t <= a < t + PGSIZE -> ld8 m a = ld8 (pm_mem s) a) ->
  vm_ok kend (set_mem m s) root free /\ forall va, pte_of m root va = pte_of (pm_mem s) root va.
Proof.
  intros [V1 [F1 F2 F3 F4] V3] He.
  destruct (off_tables_same kend (pm_mem s) m root V1) as (V1' & T & P).
  { intros a Ha. destruct (decide (Exists (fun t => t <= a < t + PGSIZE) (tables (pm_mem s) root))) as [Hex|Hno].
    - apply Exists_exists in Hex as (t & Ht & Hta). apply (He a t); [apply elem_of_app; by left|exact Hta].
    - destruct Ha. intros t Ht Hta. apply Hno, Exists_exists. by exists t. }
  split; [|exact P]. split; [exact V1'| |change (NoDup (tables m root ++ free)); by rewrite T]. split; [|exact F2|exact F3|exact F4].
  apply (linked_ext (pm_mem s)); [|exact F1]. intros x Hx. apply ld64_ext. intros a Ha. apply (He a x); [apply elem_of_app; by right|].
  unfold PGSIZE. lia.
Qed.

Lemma foldr_delete_other L xs a : a ∉ xs -> foldr delete L xs !! a = (L : store) !! a.
Proof.
  induction xs as [|x xs IH]; cbn; [done|]. intros Hn. apply not_elem_of_cons in Hn as [Hn1 Hn2]. rewrite lookup_delete_ne by congruence. by apply IH.
Qed.

(** What [process_wait] needs of the system to reap the child [c]. *)
Record can_reap (s : S) (id : Z) (A : list addr) (c : addr) (B : list addr) (r : proc) (k : Z) (X : gset Z) (free : list Z) : Prop := {
  cr_list : dlist (ps_links (psof s)) process_list (map elem_at (A ++ c :: B));
  cr_passed : Forall (passed (psof s) (ps_cur (psof s)) id) A;
  cr_child : ps_procs (psof s) !! c = Some r /\ awaited (ps_cur (psof s)) id r = true /\ status r = ZIMBIE;
  cr_pages : zombie_pages kend kernel_pagetable (psof s) r k free;
  cr_ids : bitmap MAX_PID (ps_pids (psof s)) X;
  cr_locks : lock_free process_lock (ps_lk (psof s)) /\ lock_free pid_lock (ps_lk (psof s)) /\ lock_free (proc_lock c) (ps_lk (psof s));
  cr_slab : slab_ok s /\ slab_obj c;
  cr_slab_apart : forall a t, slab_byte a -> t ∈ tables (pm_mem (ps_pm (psof s))) kernel_pagetable ++ trapframe r :: k :: free -> ~ (t <= a < t + PGSIZE);
  cr_links_apart : forall a, a ∈ links_in c -> a ∉ nodes process_list (map elem_at (A ++ B))
}.
(** The system [x], with the locks [l], after it. *)
Record waited (x : psys) (l : lockst) (A : list addr) (c : addr) (B : list addr) (r : proc) (k : Z) (X : gset Z) (free : list Z) (s' : S) : Prop := {
  wt_procs : ps_procs (psof s') = delete c (ps_procs x);
  wt_list : dlist (ps_links (psof s')) process_list (map elem_at (A ++ B));
  wt_ids : bitmap MAX_PID (ps_pids (psof s')) (X ∖ {[pid r]});
  wt_vm : vm_ok kend (ps_pm (psof s')) kernel_pagetable (trapframe r :: k :: free);
  wt_pte : forall va, 0 <= va < MAXVA -> pte_of (pm_mem (ps_pm (psof s'))) kernel_pagetable va =
    clear_range (kstack r) 1 (pte_of (pm_mem (ps_pm x)) kernel_pagetable) va;
  wt_slab : slab_ok s';
  wt_cur : ps_cur (psof s') = ps_cur x;
  wt_lk : lk_restored l (ps_lk (psof s'))
}.

(** Giving back the object of a process that has been reaped. *)
Lemma free_reaped s (s1 : S) l0 A c B r k X free : slab_ok s1 -> slab_obj c ->
  reaped kend kernel_pagetable process_list s l0 c r k A B X free (psof s1) ->
  (forall a t, slab_byte a -> t ∈ tables (pm_mem (ps_pm s)) kernel_pagetable ++ trapframe r :: k :: free -> ~ (t <= a < t + PGSIZE)) ->
  (forall a, a ∈ links_in c -> a ∉ nodes process_list (map elem_at (A ++ B))) ->
  exists s2 m, free_proc c s1 = Ret (tt, s2) /\ slab_ok s2 /\
    psof s2 = put_links (foldr delete (ps_links (psof s1)) (links_in c)) (put_procs (delete c (ps_procs s)) (put_pm (set_mem m (ps_pm (psof s1))) (psof s1))) /\
    dlist (ps_links (psof s2)) process_list (map elem_at (A ++ B)) /\
    vm_ok kend (ps_pm (psof s2)) kernel_pagetable (trapframe r :: k :: free) /\
    (forall va, pte_of (pm_mem (ps_pm (psof s2))) kernel_pagetable va = pte_of (pm_mem (ps_pm (psof s1))) kernel_pagetable va).
Proof.
  intros Hs Ho [P1 P2 P3 P4 P5 P6 P7 P8 P9 P10] Hap Hlk.
  destruct (ph_free_ok s1 c Hs Ho) as (s2 & m & R & Hs2 & E2 & Hm).
  set (x2 := put_links (foldr delete (ps_links (psof s1)) (links_in c)) (put_procs (delete c (ps_procs s)) (put_pm (set_mem m (ps_pm (psof s1))) (psof s1)))).
  exists (lput x2 s2), m. rewrite lget_lput. destruct (vm_ok_off (ps_pm (psof s1)) kernel_pagetable _ m P5) as [V P].
  { intros a t Ht Hta. apply Hm. intros Hsl. rewrite P8 in Ht. by apply (Hap a t). }
  split; [|split; [|split; [done|split; [|split]]]].
  - unfold free_proc. erewrite kbind_ret by exact R. apply via_ok. rewrite E2. unfold del_proc. krun. cbn. unfold list_op, zoom. cbn.
    rewrite P1, delete_insert_eq. reflexivity.
  - apply slab_ok_ps; [exact Hs2|]. intros a _. rewrite E2. reflexivity.
  - eapply dlist_same; [exact P2|]. intros a Ha. apply (foldr_delete_other (ps_links (psof s1)) (links_in c) a). intros Hin. by apply (Hlk a).
  - exact V.
  - exact P.
Qed.

Lemma zombie_relocked s l r k free : zombie_pages kend kernel_pagetable s r k free -> lk_ready l ->
  zombie_pages kend kernel_pagetable (put_lk l s) r k free.
Proof.
  intros [[V1 [F1 F2 F3 F4] V3] Z2 Z3 Z4 Z5] Hl. split; [|done|done|done|done]. split; [done| |done]. by split.
Qed.

(** [reap] with [process_lock], taken from the locks [l0], and the lock of the
    child, taken from [l2]. *)
Lemma reap_ok (s : S) l0 l1 l2 A c B r k X free :
  ps_procs (psof s) !! c = Some r -> dlist (ps_links (psof s)) process_list (map elem_at (A ++ c :: B)) ->
  bitmap MAX_PID (ps_pids (psof s)) X -> zombie_pages kend kernel_pagetable (psof s) r k free -> slab_ok s -> slab_obj c ->
  (forall a t, slab_byte a -> t ∈ tables (pm_mem (ps_pm (psof s))) kernel_pagetable ++ trapframe r :: k :: free -> ~ (t <= a < t + PGSIZE)) ->
  (forall a, a ∈ links_in c -> a ∉ nodes process_list (map elem_at (A ++ B))) ->
  lock_free process_lock l0 -> lock_free kmem_lock l0 -> cpu_ok (hcpu l0) -> l1 ≡ acquired process_lock l0 -> lk_restored l1 l2 ->
  lock_free (proc_lock c) l2 -> lock_free pid_lock l2 -> lock_free kmem_lock l2 -> ps_lk (psof s) ≡ acquired (proc_lock c) l2 ->
  exists s', reap kend kernel_pagetable c s = Ret (pid r, s') /\ waited (psof s) l0 A c B r k X free s'.
Proof.
  intros Hr HL Hb Hz Hs Ho Hap Hlk Hp0 Hkm0 Hc0 E1 K12 Hc Hpid Hkm E3.
  destruct (acquired_ready _ _ _ Hc0 E1) as [Hc1 _]. assert (Hc2 : cpu_ok (hcpu l2)) by by eapply lk_restored_ok.
  destruct (reap_enter_ok kend kernel_pagetable kend_pos process_list (psof s) l2 c r k A B X free Hr HL Hb Hz Hc Hc2 Hpid Hkm E3) as (x & R & Hx).
  set (s1 := lput x s). assert (Es1 : psof s1 = x) by apply lget_lput.
  assert (Hs1 : slab_ok s1).
  { apply slab_ok_ps; [exact Hs|]. intros a Ha. apply (rp_bytes _ _ _ _ _ _ _ _ _ _ _ _ _ Hx). intros t Ht. apply (Hap a t Ha).
    rewrite elem_of_app in *. destruct Ht as [Ht|Ht]; [by left|right]. rewrite !elem_of_cons in *. destruct Ht as [?|[?|?%elem_of_nil]]; tauto. }
  rewrite <- Es1 in Hx. destruct (free_reaped (psof s) s1 l2 A c B r k X free Hs1 Ho Hx Hap Hlk) as (s2 & m & Rf & Hs2 & E2 & HL2 & V2 & P2).
  destruct (lock_leave_restored process_lock l0 l1 (psof s2) Hp0 Hc0 E1) as (l5 & R5 & K5).
  { eapply lk_restored_trans; [exact K12|]. rewrite E2. apply (rp_lk _ _ _ _ _ _ _ _ _ _ _ _ _ Hx). }
  exists (lput (put_lk l5 (psof s2)) s2). split.
  - unfold reap. erewrite kbind_ret by exact (via_ok _ _ _ _ R). fold s1. erewrite kbind_ret by exact Rf.
    by erewrite kbind_ret by exact (via_ok _ _ _ _ R5).
  - destruct Hx as [X1 X2 X3 X4 X5 X6 X7 X8 [X9 _] X10]. split; rewrite ?lget_lput.
    + change (ps_procs (psof s2) = delete c (ps_procs (psof s))). by rewrite E2.
    + exact HL2.
    + change (bitmap MAX_PID (ps_pids (psof s2)) (X ∖ {[pid r]})). rewrite E2. exact X4.
    + destruct V2 as [W1 [F1 F2 F3 F4] W3]. split; [exact W1| |exact W3]. split; [exact F1|exact F2|exact F3|].
      split; [|by eapply lk_restored_ok]. by eapply lk_restored_free.
    + intros va Hva. rewrite <- X6 by exact Hva. apply P2.
    + apply slab_ok_ps; [exact Hs2|done].
    + change (ps_cur (psof s2) = ps_cur (psof s)). by rewrite E2.
    + exact K5.
Qed.
Lemma process_wait_ok s rounds n id A c B r k X free : can_reap s id A c B r k X free -> cpu_ok (hcpu (ps_lk (psof s))) ->
  (length A < n)%nat -> exists s', process_wait process_list swtch kend kernel_pagetable (Datatypes.S rounds) n id s = Ret (pid r, s') /\
    waited (psof s) (ps_lk (psof s)) A c B r k X free s'.
Proof.
  intros [C1 C2 (Hr & Ha & Hst) C4 C5 (Kp & Kid & Kc) [C7 C7'] C8 C9] Hcpu Hn. set (p := ps_cur (psof s)) in *.
  assert (Hkm : lk_ready (ps_lk (psof s))) by (destruct C4 as [[_ [_ _ _ F4] _] _ _ _ _]; exact F4). destruct Hkm as [Hkm _].
  destruct (lock_enter process_lock (psof s) Kp) as (l1 & R1 & E1). destruct (acquired_ready _ _ _ Hcpu E1) as [Hc1 Hf1].
  set (s1 := relocked l1 s). assert (Es1 : psof s1 = put_lk l1 (psof s)) by apply lget_lput.
  assert (HA : Forall (passed (psof s1) p id) A).
  { eapply Forall_impl; [exact C2|]. intros x (rx & Hx & Hz). exists rx. rewrite Es1. split; [exact Hx|]. intros Hax.
    destruct (Hz Hax) as [Hs Hf]. split; [exact Hs|]. by apply Hf1. }
  assert (HL1 : dlist (ps_links (psof s1)) process_list (map elem_at ([] ++ A ++ c :: B))) by by rewrite Es1.
  destruct (wait_skip p id (c :: B) (n - length A) A [] s1 false HL1 HA) as (l2 & kids & K2 & _ & R2); [by rewrite Es1|].
  rewrite Es1 in K2, R2. cbn [ps_lk put_lk put_pm ps_pm pm_lk set_lk] in K2. change (ps_lk (put_lk l1 (psof s))) with l1 in K2.
  set (s2 := relocked l2 s). replace (lput (put_lk l2 (put_lk l1 (psof s))) s1) with s2 in R2 by (unfold s1; by rewrite lput_lput).
  assert (Es2 : psof s2 = put_lk l2 (psof s)) by apply lget_lput. replace (length A + (n - length A))%nat with n in R2 by lia.
  assert (Hf2 : forall x, x <> process_lock -> lock_free x (ps_lk (psof s)) -> lock_free x l2).
  { intros x Hx Hf. eapply lk_restored_free; [exact K2|]. by apply Hf1. }
  assert (Hc2 : cpu_ok (hcpu l2)) by by eapply lk_restored_ok.
  destruct (lock_enter (proc_lock c) (psof s2)) as (l3 & R3 & E3); [rewrite Es2; by apply Hf2|]. rewrite Es2 in R3, E3.
  change (ps_lk (put_lk l2 (psof s))) with l2 in E3. destruct (acquired_ready _ _ _ Hc2 E3) as [Hc3 Hf3].
  set (x3 := put_lk l3 (psof s)). assert (Hz3 : zombie_pages kend kernel_pagetable x3 r k free).
  { apply zombie_relocked; [exact C4|]. split; [|exact Hc3]. apply Hf3; [done|]. by apply Hf2. }
  set (s3 := relocked l3 s). assert (Es3 : psof s3 = x3) by apply lget_lput.
  destruct (reap_ok s3 (ps_lk (psof s)) l1 l2 A c B r k X free) as (s' & R & W); try rewrite Es3; try assumption.
  - apply slab_ok_ps; [exact C7|done].
  - by apply Hf2.
  - by apply Hf2.
  - by apply Hf2.
  - rewrite Es3 in W. exists s'. split; [|destruct W as [W1 W2 W3 W4 W5 W6 W7 W8]; split; assumption].
    assert (RS : scan n p id (cur process_list (map elem_at (A ++ c :: B))) false s1 = Ret (inl (pid r), s')).
    2: { unfold process_wait. erewrite kbind_ret by by apply via_read. erewrite kbind_ret by exact (via_ok _ _ _ _ R1). fold s1.
         cbn [wait_rounds]. erewrite kbind_ret by (apply via_read, list_read_ok; eapply begin_ok; exact HL1).
         by erewrite kbind_ret by exact RS. }
    rewrite R2.
    destruct (n - length A)%nat as [|m] eqn:En; [lia|]. cbn [wait_scan].
    assert (HL2 : dlist (ps_links (psof s2)) process_list (map elem_at (A ++ c :: B))) by by rewrite Es2.
    erewrite kbind_ret by (apply via_read, list_read_ok; eapply end_ok; exact HL2).
    assert (HL2' := HL2). rewrite map_app in HL2'. rewrite (cur_tail _ _ _ _ HL2'), bool_decide_eq_false_2 by done.
    cbn [map]. rewrite cur_cons, proc_of_elem_at.
    erewrite kbind_ret by (apply via_read; rewrite Es2; by apply getp_ok). erewrite kbind_ret by (apply via_read; rewrite Es2; by apply getp_ok).
    rewrite skip_test, Ha. cbn [negb].
    erewrite kbind_ret by (apply via_ok; rewrite Es2; exact R3).
    replace (lput (put_lk l3 (put_lk l2 (psof s))) s2) with s3 by (unfold s2, s3; by rewrite lput_lput).
    erewrite kbind_ret by (apply via_read; rewrite Es3; by apply getp_ok).
    rewrite bool_decide_eq_true_2 by exact Hst. by erewrite kbind_ret by exact R.
Qed.

(** C25. [process_wait] reaps: when the first zombie among the children it
    looks at is [c], it returns the pid of [c] in one round over the list of
    processes, whatever the processes before [c] are. The process and its list
    element are gone, the frames of its kernel stack and its trap frame are the
    first of the free pages, its stack is unmapped and no other translation of
    the kernel changed, its pid is free again, and every lock and the interrupt
    state are as before. *)
Theorem process_wait_reaps s rounds n id A c B r k X free : can_reap s id A c B r k X free -> cpu_ok (hcpu (ps_lk (psof s))) ->
  (length A < n)%nat -> exists s', process_wait process_list swtch kend kernel_pagetable (Datatypes.S rounds) n id s = Ret (pid r, s') /\
    waited (psof s) (ps_lk (psof s)) A c B r k X free s'.
Proof. apply process_wait_ok. Qed.

(** Without a child to wait for, [-1] at once. *)
Lemma process_wait_none s rounds n id xs : dlist (ps_links (psof s)) process_list (map elem_at xs) ->
  Forall (fun x => exists r, ps_procs (psof s) !! x = Some r /\ awaited (ps_cur (psof s)) id r = false) xs ->
  lock_free process_lock (ps_lk (psof s)) -> cpu_ok (hcpu (ps_lk (psof s))) -> (length xs < n)%nat ->
  exists l, process_wait process_list swtch kend kernel_pagetable (Datatypes.S rounds) n id s = Ret (-1, relocked l s) /\
    lk_restored (ps_lk (psof s)) l.
Proof.
  intros HL Hxs Hp Hc Hn. set (p := ps_cur (psof s)) in *. destruct (lock_enter process_lock (psof s) Hp) as (l1 & R1 & E1).
  destruct (acquired_ready _ _ _ Hc E1) as [Hc1 _]. set (s1 := relocked l1 s). assert (Es1 : psof s1 = put_lk l1 (psof s)) by apply lget_lput.
  assert (HA : Forall (passed (psof s1) p id) xs).
  { eapply Forall_impl; [exact Hxs|]. intros x (rx & Hx & Ha). exists rx. rewrite Es1. split; [exact Hx|]. by rewrite Ha. }
  assert (HL1 : dlist (ps_links (psof s1)) process_list (map elem_at ([] ++ xs ++ []))) by by rewrite Es1, app_nil_r.
  destruct (wait_skip p id [] (n - length xs) xs [] s1 false HL1 HA) as (l2 & kids & K2 & Ek & R2); [by rewrite Es1|].
  replace (length xs + (n - length xs))%nat with n in R2 by lia. rewrite Es1 in K2, R2, Ek. change (ps_lk (put_lk l1 (psof s))) with l1 in K2.
  assert (kids = false) as ->.
  { rewrite Ek. cbn [orb]. apply not_true_iff_false. intros (x & Hin & Hx)%existsb_exists.
    apply list_elem_of_In in Hin. rewrite Forall_forall in Hxs. destruct (Hxs x Hin) as (rx & Hrx & Ha).
    change (ps_procs (put_lk l1 (psof s))) with (ps_procs (psof s)) in Hx. rewrite Hrx in Hx. congruence. }
  set (s2 := lput (put_lk l2 (put_lk l1 (psof s))) s1) in *. assert (Es2 : psof s2 = put_lk l2 (psof s)) by apply lget_lput.
  destruct (lock_leave_restored process_lock (ps_lk (psof s)) l1 (put_lk l2 (psof s)) Hp Hc E1 K2) as (l3 & R3 & K3).
  exists l3. split; [|exact K3]. unfold process_wait. erewrite kbind_ret by by apply via_read.
  erewrite kbind_ret by exact (via_ok _ _ _ _ R1). fold s1. cbn [wait_rounds].
  erewrite kbind_ret by (apply via_read, list_read_ok; eapply begin_ok; exact HL1). cbn [app].
  assert (RS : scan n p id (cur process_list (map elem_at (xs ++ []))) false s1 = Ret (inr false, s2)).
  { rewrite R2. destruct (n - length xs)%nat as [|m] eqn:En; [lia|]. cbn [wait_scan].
    erewrite kbind_ret by (apply via_read, list_read_ok; eapply (end_ok _ _ (map elem_at xs)); rewrite Es2; exact HL).
    cbn [map]. by rewrite cur_nil, Z.eqb_refl. }
  erewrite kbind_ret by exact RS. cbn [negb].
  erewrite kbind_ret by (apply via_ok; rewrite Es2; exact R3). unfold kret. do 2 f_equal. unfold s2, s1. by rewrite !lput_lput.
Qed.
End Waiting.

(** ** A parent and its child *)

(** An allocator that hands out one object and takes none back. *)
#[global] Instance demo_heap : ProcHeap (psys * syncst) := {
  ph_alloc := kret (9000, demo_sleeper ZIMBIE 0 0); ph_free := fun _ => kret tt }.
#[global] Instance demo_heap_laws : ProcHeapLaws (psys * syncst).
Proof.
  refine {| slab_byte := fun _ => False; slab_obj := fun _ => True; slab_ok := fun _ => True |}; [done|].
  intros s p _ _. exists s, (pm_mem (ps_pm (lget (T := psys) s))). split; [done|]. split; [done|]. split; [|done].
  by destruct s as [[[] ? ? ? ? ?] ?].
Defined.

(** Process 1000 runs; its child 2000 is a zombie whose kernel stack is at
    0x1000 of the page table of Vm.v. *)
Definition demo_child : proc :=
  set_trapframe demo_buffer (set_kstack 0x1000 (set_parent 1000 (demo_sleeper ZIMBIE 7 0))).
Definition demo_family : psys :=
  mkPs (mkPm demo_mapped free_locks 0) (bits (boot_ids MAX_PID))
    {[ 500 := Elem 0 1112; 1112 := Elem 500 2112; 2112 := Elem 1112 516; 516 := Elem 2112 0 ]}
    {[ 1000 := demo_sleeper RUNNING 1 0; 2000 := demo_child ]} 1000 0.

Lemma demo_can_reap : can_reap 500 KERNBASE demo_root (demo_family, mkSync ∅ ∅) 0 [1000] 2000 [] demo_child Vm.demo_frame ∅ [].
Proof.
  destruct demo_mapped_ok as (O & T & P). split; cbn [sync_ps pair_sync lget fst].
  - split; [reflexivity|reflexivity|by repeat split|..]; apply (bool_decide_unpack _); reflexivity.
  - apply Forall_singleton. exists (demo_sleeper RUNNING 1 0). split; [reflexivity|]. cbn. done.
  - split; [reflexivity|split; reflexivity].
  - split; [split; [exact O| |]| | | |].
    + split; [done|constructor|constructor|by repeat split].
    + rewrite app_nil_r, T. apply (bool_decide_unpack _). reflexivity.
    + done.
    + change (pm_mem (ps_pm demo_family)) with demo_mapped. rewrite P by done. rewrite decide_True by done. done.
    + split; [done|]. change (pm_mem (ps_pm demo_family)) with demo_mapped. rewrite app_nil_r, T. apply (bool_decide_unpack _). reflexivity.
    + split; [done|]. change (pm_mem (ps_pm demo_family)) with demo_mapped. rewrite T. apply (bool_decide_unpack _). reflexivity.
  - apply boot_bitmap; done.
  - done.
  - done.
  - intros a t [].
  - intros a Ha. unfold links_in in Ha. repeat (apply elem_of_cons in Ha as [->|Ha]; [apply (bool_decide_unpack _); reflexivity|]).
    by apply elem_of_nil in Ha.
Qed.

Lemma process_wait_reaps_witness : exists s', process_wait (S := psys * syncst) 500 (kret tt) KERNBASE demo_root 1 2 0 (demo_family, mkSync ∅ ∅) = Ret (7, s') /\
  waited 500 KERNBASE demo_root demo_family free_locks [1000] 2000 [] demo_child Vm.demo_frame ∅ [] s'.
Proof.
  apply (process_wait_reaps 500 (kret tt) KERNBASE demo_root ltac:(done) (demo_family, mkSync ∅ ∅) 0 2 0 [1000] 2000 [] demo_child Vm.demo_frame ∅ []);
    [exact demo_can_reap|split; [done|intros Hn; by apply Z.lt_irrefl in Hn]|cbn; lia].
Defined.
