(* ===== verification/Aspace.v ===== *)
(** The space of a process, for src/kernel/uvm.c and proc.c. First, which frames
    [uvmfree] finds in a page table when every page the user can reach is known.
    Then a space whose upper part holds the stack, the trap frame and the
    trampoline, and what the operations of Uvm.v and Space.v do to it; the
    functions of proc.c that use them are in SpaceLife.v. *)
From S2P Require Import Prelude CString Bytes Spinlock Pm Vm Uvm Space.

(** ** The frames of a space *)

Section Listing.
Context (kend : Z) (kend_pos : 0 < kend).
#[local] Abbreviation page := (page kend).

Definition user (e : Z) : bool := has PTE_V e && has PTE_U e.
Definition user_frame (e : Z) : option Z := if user e then Some (PTE2PA e) else None.

(** The addresses of the entries of the last level. *)
Definition leaf_slots (m : mem) (root : Z) : list Z := level0 m root ≫= fun t => slot t <$> idxs.

Lemma omap_bind {A B C} (g : B -> option C) (f : A -> list B) l : omap g (l ≫= f) = l ≫= fun x => omap g (f x).
Proof. induction l as [|x l IH]; [done|]. by rewrite !bind_cons, omap_app, IH. Qed.
Lemma uframes_slots m root : uframes m root = omap (fun a => user_frame (ld64 m a)) (leaf_slots m root).
Proof.
  unfold uframes, leaf_slots. rewrite omap_bind. apply bind_ext. intros t _. generalize idxs. intros l.
  induction l as [|j l IH]; [done|]. rewrite bind_cons, IH. cbn. unfold reached, user_frame, user, entry.
  by destruct (has PTE_V _), (has PTE_U _).
Qed.
Lemma leaf_slots_nodup m root : pt_ok kend m root -> NoDup (leaf_slots m root).
Proof.
  intros O. destruct (pt_levels kend m root O) as (_ & _ & _ & N & _). unfold leaf_slots.
  assert (Hp : forall t, t ∈ level0 m root -> page t) by (intros t Ht; by apply (pt_page kend m root), level0_table).
  apply NoDup_bind; [..|exact N].
  - intros t t' a Ht Ht' (j & -> & Hj)%list_elem_of_fmap (j' & E & Hj')%list_elem_of_fmap. rewrite elem_of_idxs in *.
    by apply (slot_eq kend t t' j j') in E as [-> _]; auto.
  - intros t _. apply NoDup_fmap_2; [|apply idxs_nodup]. intros j j'. unfold slot. lia.
Qed.

(** Each entry of the last level is the entry of a page. *)
Lemma leaf_slots_page m root a : a ∈ leaf_slots m root ->
  exists va, 0 <= va < 2 * MAXVA /\ va mod PGSIZE = 0 /\ leaf_slot m root va = Some a.
Proof.
  intros (t & (j & -> & Hj)%list_elem_of_fmap & (t1 & Ht & Ht1)%list_elem_of_bind)%list_elem_of_bind.
  destruct (child_ptr_at m root t1 Ht1) as (i2 & H2 & P2). destruct (child_ptr_at m t1 t Ht) as (i1 & H1 & P1).
  rewrite elem_of_idxs in Hj. set (va := ((i2 * 512 + i1) * 512 + j) * 4096).
  exists va. change (2 * MAXVA) with (512 * 512 * 512 * 4096). split; [unfold va; lia|]. split; [unfold va; by rewrite Z.mod_mul|].
  assert (I : IDX 2 va = i2 /\ IDX 1 va = i1 /\ IDX 0 va = j).
  { rewrite !IDX_spec by lia. change (2 ^ (12 + 2 * 9)) with (4096 * 512 * 512). change (2 ^ (12 + 1 * 9)) with (4096 * 512).
    change (2 ^ (12 + 0 * 9)) with 4096. rewrite <- !Z.div_div by lia. unfold va. rewrite Z.div_mul by lia.
    clear va. split; [|split]; dlia. }
  destruct I as (E2 & E1 & E0). unfold leaf_slot, leaf_table. by rewrite E2, P2, E1, P1, E0.
Qed.

Lemma omap_filter {A B} (g : A -> option B) (l : list A) : omap g l = omap g (filter (fun x => is_Some (g x)) l).
Proof.
  induction l as [|x l IH]; [done|]. rewrite filter_cons. cbn. case_decide as Hd; cbn; rewrite IH; [done|].
  destruct (g x); [by destruct Hd|done].
Qed.

(** What [L] lists: the pages of the user in the space at [root], each once,
    with their frames. *)
Record listing (m : mem) (root : Z) (L : list (Z * Z)) : Prop := {
  li_once : NoDup L.*1;
  li_page : forall va x, (va, x) ∈ L -> va mod PGSIZE = 0 /\ 0 <= va < 2 * MAXVA /\ user_frame (pte_of m root va) = Some x;
  li_all : forall va, 0 <= va < 2 * MAXVA -> va mod PGSIZE = 0 -> user (pte_of m root va) = true -> va ∈ L.*1
}.
Lemma listing_frames m root L : pt_ok kend m root -> listing m root L -> uframes m root ≡ₚ L.*2.
Proof.
  intros O [N P C]. rewrite uframes_slots, omap_filter.
  set (at_ := fun va => match leaf_slot m root va with Some a => a | None => 0 end).
  assert (Hat : forall va x, (va, x) ∈ L -> leaf_slot m root va = Some (at_ va) /\ user_frame (ld64 m (at_ va)) = Some x).
  { intros va x Hin. destruct (P va x Hin) as (_ & _ & E). unfold at_, pte_of in *. by destruct (leaf_slot m root va). }
  assert (E : filter (fun a => is_Some (user_frame (ld64 m a))) (leaf_slots m root) ≡ₚ at_ <$> L.*1).
  { apply NoDup_Permutation.
    - by apply NoDup_filter, leaf_slots_nodup.
    - apply NoDup_fmap_2_strong; [|exact N]. intros va va' ([v x] & -> & Hin)%list_elem_of_fmap ([v' x'] & -> & Hin')%list_elem_of_fmap E. cbn in *.
      destruct (P v x Hin) as (Hal & Hr & _), (P v' x' Hin') as (Hal' & Hr' & _).
      destruct (Hat v x Hin) as [E1 _], (Hat v' x' Hin') as [E2 _]. rewrite E in E1.
      assert (Epg := leaf_slot_inj kend m root v v' (at_ v') O Hr Hr' E1 E2). unfold PGSIZE in *. dlia.
    - intros a. rewrite list_elem_of_filter, list_elem_of_fmap. split.
      + intros [[x Hx] Ha]. destruct (leaf_slots_page m root a Ha) as (va & Hr & Hal & Hs). exists va.
        split; [unfold at_; by rewrite Hs|]. apply C; [done|done|]. unfold pte_of. rewrite Hs. unfold user_frame in Hx. by destruct (user _).
      + intros (va & -> & ([v x] & -> & Hin)%list_elem_of_fmap). cbn. destruct (Hat v x Hin) as [Hs Hx]. split; [by exists x|].
        apply leaf_slot_some in Hs as (t & _ & Et & Ht). rewrite Et. apply list_elem_of_bind. exists t. split; [|done].
        apply list_elem_of_fmap. exists (IDX 0 v). split; [done|]. by apply elem_of_idxs, IDX_range. }
  rewrite E. clear -Hat. induction L as [|[va x] L IH]; [done|]. cbn. destruct (Hat va x) as [_ ->]; [left|].
  f_equiv. apply IH. intros v y Hin. apply Hat. by right.
Qed.
End Listing.

Section Release.
Context (kend : Z) (kend_pos : 0 < kend).
#[local] Abbreviation page := (page kend).

(** What the addresses hold for the user decides. *)
Lemma user_is_some e : user e = true <-> is_Some (user_frame e).
Proof. unfold user_frame. destruct (user e); split; intros H; try done; by destruct H. Qed.
Lemma listing_ext m m' root L : (forall va, 0 <= va < 2 * MAXVA -> user_frame (pte_of m' root va) = user_frame (pte_of m root va)) ->
  listing m root L -> listing m' root L.
Proof.
  intros E [N P C]. split; [exact N| |].
  - intros va x Hin. destruct (P va x Hin) as (? & Hr & ?). by rewrite E.
  - intros va Hr Hal. rewrite user_is_some, E, <- user_is_some by done. by apply C.
Qed.

(** Only bytes of the pages [X] changed. *)
Definition kept (X : list Z) (s s' : pmst) : Prop :=
  forall a, (forall t, t ∈ X -> ~ (t <= a < t + PGSIZE)) -> ld8 (pm_mem s') a = ld8 (pm_mem s) a.
Lemma kept_step X Y s1 s2 s3 : kept X s1 s2 -> kept Y s2 s3 -> (forall t, t ∈ Y -> t ∈ X) -> kept X s1 s3.
Proof. intros H1 H2 HY a Ha. rewrite H2, H1; auto. Qed.
#[export] Instance kept_preorder X : PreOrder (kept X).
Proof. split; [by intros s a _|intros s1 s2 s3 H1 H2; by apply (kept_step X X s1 s2 s3)]. Qed.

(** A page table while others use the free pages: [Y] are those taken. *)
Lemma vm_ok_kept root s free s' Y free' : vm_ok kend s root free -> kept free s s' -> free_list kend s' free' -> Y ++ free' ≡ₚ free ->
  vm_ok kend s' root free' /\ tables (pm_mem s') root = tables (pm_mem s) root /\ (forall va, pte_of (pm_mem s') root va = pte_of (pm_mem s) root va) /\
  NoDup (tables (pm_mem s') root ++ Y ++ free').
Proof.
  intros [V F D] HK HF HY. assert (HFP : Forall page free) by (destruct F as [_ F1 _ _]; exact F1).
  destruct (off_tables_same kend (pm_mem s) (pm_mem s') root V) as (O & T & E).
  { intros a Ha. apply HK. intros t Ht Hta. apply Ha. intros u Hu Hua. rewrite Forall_forall in HFP.
    apply (page_bytes kend u t a); [by apply (pt_page kend (pm_mem s) root)|by apply HFP| |done|done].
    intros ->. apply NoDup_app in D as (_ & D & _). by apply (D t Hu). }
  assert (N : NoDup (tables (pm_mem s') root ++ Y ++ free')) by by rewrite T, HY.
  split; [|done]. split; [exact O|exact HF|]. revert N. rewrite !NoDup_app. set_solver.
Qed.

(** [uvmfree] of a space whose user pages are [L]. *)
Lemma free_listed root L s free : vm_ok kend s root free -> listing (pm_mem s) root L ->
  NoDup (tables (pm_mem s) root ++ L.*2 ++ free) -> Forall page L.*2 ->
  exists s' free', uvmfree kend root 0 s = Ret (tt, s') /\ free_list kend s' free' /\ free' ≡ₚ tables (pm_mem s) root ++ L.*2 ++ free /\
    kept (tables (pm_mem s) root ++ L.*2) s s' /\ lk_restored (pm_lk s) (pm_lk s').
Proof.
  intros [O F _] HL N P. assert (E := listing_frames kend (pm_mem s) root L O HL).
  destruct (uvmfree_frees_all kend kend_pos s free root 0 O F) as (s' & free' & R & F' & P' & B' & K').
  - by rewrite <- app_assoc, E.
  - rewrite E. apply Forall_app. split; [apply O|done].
  - exists s', free'. split; [done|]. split; [done|]. split; [by rewrite P', E, app_assoc|]. split; [|done].
    intros a Ha. apply B'. intros t Ht. apply Ha. by rewrite <- E.
Qed.

(** A space without a page of the user. *)
Lemma free_bare root s free : vm_ok kend s root free -> (forall va, 0 <= va < 2 * MAXVA -> user (pte_of (pm_mem s) root va) = false) ->
  exists s' free', uvmfree kend root 0 s = Ret (tt, s') /\ free_list kend s' free' /\ free' ≡ₚ tables (pm_mem s) root ++ free /\
    kept (tables (pm_mem s) root) s s' /\ lk_restored (pm_lk s) (pm_lk s').
Proof.
  intros O Hu. destruct (free_listed root [] s free O) as (s' & free' & R & F' & P' & B' & K'); [|apply O|done|rewrite app_nil_r in B'; by exists s', free'].
  split; [constructor|by intros va x ?%elem_of_nil|]. intros va Hr _ E. by rewrite Hu in E.
Qed.

(** A page of the kernel unmapped: the user's pages stay. *)
Lemma unmap_kernel root L s free va : vm_ok kend s root free -> listing (pm_mem s) root L -> va mod PGSIZE = 0 -> 0 <= va -> va + PGSIZE <= MAXVA ->
  leaf_pte (pte_of (pm_mem s) root va) = true -> user (pte_of (pm_mem s) root va) = false ->
  exists s', uvmunmap kend 2 root va 1 false s = Ret (tt, s') /\ vm_ok kend s' root free /\ listing (pm_mem s') root L /\
    retuned root (clear_range va 1 (pte_of (pm_mem s) root)) [] s s'.
Proof.
  intros O HL Hal H0 HM Hl Hu. destruct (unmap_page_ok kend kend_pos s root free va O Hal H0 HM Hl) as (s' & R & O' & T).
  exists s'. split; [done|]. split; [done|]. split; [|done]. apply (listing_ext (pm_mem s)); [|done]. intros w Hw.
  rewrite (t_pte _ _ _ _ _ T) by done. unfold clear_range. destruct (_ && _) eqn:E; [|done].
  rewrite (pte_of_page (pm_mem s) root w va); [unfold user_frame; by rewrite Hu|]. rewrite page_of_aligned by done.
  destruct (Z.leb_spec va w), (Z.ltb_spec w (va + 1 * PGSIZE)); done || lia.
Qed.
End Release.

(** ** The space of a process *)

Section Proc.
Context (kend : Z) (kend_pos : 0 < kend).
#[local] Abbreviation page := (page kend).
#[local] Abbreviation stack_va := (USTACK - PGSIZE).
(** A page of physical memory. *)
Definition frame_at (a : Z) : Prop := a mod PGSIZE = 0 /\ 0 <= a /\ a + PGSIZE <= 2 ^ 56.
Lemma page_frame x : page x -> frame_at x.
Proof.
  intros Hx. destruct (page_56 kend kend_pos x Hx) as [H56 Hal]. split; [exact Hal|]. destruct Hx as [_ Hx].
  unfold PHYSTOP, KERNBASE, PGSIZE in *. lia.
Qed.
(** The page of the trampoline and the trap frame of the process. *)
Context (tramp tf : Z) (Htramp : frame_at tramp) (Htf : frame_at tf).

(** The entries from the stack up; [K] is the frame of the stack, if any. *)
Definition kernel_pages : Z -> Z :=
  map_range TRAPFRAME tf 1 (Z.lor (Z.lor PTE_R PTE_W) PTE_V) (map_range TRAMPOLINE tramp 1 (Z.lor (Z.lor PTE_R PTE_X) PTE_V) (fun _ => 0)).
Definition stack_flags : Z := Z.lor (Z.lor PTE_R (Z.lor PTE_W PTE_U)) PTE_V.
Definition upper (K : option Z) : Z -> Z :=
  match K with Some x => map_range stack_va x 1 stack_flags kernel_pages | None => kernel_pages end.
Definition frames (K : option Z) : list Z := match K with Some x => [x] | None => [] end.

(** A process with the heap of [sz] bytes in the frames [F]. *)
Record proc_space (root sz : Z) (F : list Z) (K : option Z) (s : pmst) (free : list Z) : Prop := {
  as_heap : heap_ok kend stack_va root sz F s free;
  as_frames : NoDup (tables (pm_mem s) root ++ (F ++ frames K) ++ free) /\ Forall page (F ++ frames K);
  as_upper : forall va, stack_va <= va < 2 * MAXVA -> pte_of (pm_mem s) root va = upper K va
}.

Lemma map_range_in a pa fl f va : a <= va < a + PGSIZE -> map_range a pa 1 fl f va = mkpte pa fl.
Proof.
  intros Hva. unfold map_range. rewrite (proj2 (Z.leb_le _ _)), (proj2 (Z.ltb_lt _ _)) by lia. cbn [andb].
  replace ((va - a) / PGSIZE) with 0 by (unfold PGSIZE in *; dlia). f_equal. lia.
Qed.
Lemma map_range_out a pa fl f va : ~ (a <= va < a + PGSIZE) -> map_range a pa 1 fl f va = f va.
Proof. intros Hva. unfold map_range. destruct (Z.leb_spec a va), (Z.ltb_spec va (a + 1 * PGSIZE)); cbn; done || lia. Qed.
Lemma frame_has a fl f : frame_at a -> 0 <= fl < 1024 -> 0 <= f < 1024 -> has fl (mkpte a f) = has fl f.
Proof. intros (? & ? & ?) Hl Hf. apply mkpte_has; [unfold PGSIZE in *; lia|done|done]. Qed.
Lemma frame_leaf a f : frame_at a -> 0 <= f < 1024 -> has PTE_V f = true -> f <> PTE_V -> leaf_pte (mkpte a f) = true.
Proof.
  intros Ha Hf HV Hne. unfold leaf_pte. rewrite frame_has, HV by done. destruct Ha as (? & ? & ?).
  rewrite mkpte_flags by (done || (unfold PGSIZE in *; lia)). cbn [andb]. by apply negb_true_iff, Z.eqb_neq.
Qed.

(** No page of the kernel is the user's. *)
Lemma kernel_pages_user va : user (kernel_pages va) = false.
Proof.
  unfold kernel_pages. destruct (decide (TRAPFRAME <= va < TRAPFRAME + PGSIZE)) as [H1|H1].
  { rewrite map_range_in by done. unfold user. by rewrite !frame_has. }
  rewrite map_range_out by done. destruct (decide (TRAMPOLINE <= va < TRAMPOLINE + PGSIZE)) as [H2|H2].
  { rewrite map_range_in by done. unfold user. by rewrite !frame_has. }
  by rewrite map_range_out.
Qed.
Lemma kernel_pages_leaf : leaf_pte (kernel_pages TRAMPOLINE) = true /\ leaf_pte (kernel_pages TRAPFRAME) = true.
Proof.
  unfold kernel_pages. split.
  - rewrite map_range_out by (unfold TRAPFRAME, PGSIZE; lia). rewrite map_range_in by (unfold PGSIZE; lia). by apply frame_leaf.
  - rewrite map_range_in by (unfold PGSIZE; lia). by apply frame_leaf.
Qed.
Lemma upper_high K va : USTACK <= va -> upper K va = kernel_pages va.
Proof. intros Hva. destruct K as [x|]; [|done]. cbn. apply map_range_out. lia. Qed.

(** The pages of the user. *)
Definition heap_pages (F : list Z) : list (Z * Z) := imap (fun i x => (Z.of_nat i * PGSIZE, x)) F.
Definition user_pages (F : list Z) (K : option Z) : list (Z * Z) := heap_pages F ++ map (pair stack_va) (frames K).
Lemma user_pages_frames F K : (user_pages F K).*2 = F ++ frames K.
Proof.
  unfold user_pages, heap_pages. rewrite fmap_app. f_equal; [|by destruct K]. rewrite fmap_imap.
  apply list_eq. intros i. rewrite list_lookup_imap. by destruct (F !! i).
Qed.
Lemma heap_pages_elem F va x : (va, x) ∈ heap_pages F <-> exists i, F !! i = Some x /\ va = Z.of_nat i * PGSIZE.
Proof.
  unfold heap_pages. rewrite list_elem_of_lookup. setoid_rewrite list_lookup_imap. split.
  - intros [i Hi]. destruct (F !! i) as [y|] eqn:E; [|done]. cbn in Hi. injection Hi as <- <-. eauto.
  - intros (i & Hi & ->). exists i. by rewrite Hi.
Qed.
Lemma user_pages_elem F K va x : (va, x) ∈ user_pages F K <->
  (exists i, F !! i = Some x /\ va = Z.of_nat i * PGSIZE) \/ K = Some x /\ va = stack_va.
Proof.
  unfold user_pages. rewrite elem_of_app, heap_pages_elem. f_equiv. destruct K as [y|]; cbn; [|set_solver].
  rewrite list_elem_of_singleton. split; [intros [= -> ->]; done|intros [[= ->] ->]; done].
Qed.
Lemma user_page_frame e x : user_page e x -> user_frame e = Some x.
Proof.
  intros (Hl & <- & HU). unfold leaf_pte in Hl. apply andb_true_iff in Hl as [HV _]. unfold user_frame, user. by rewrite HV, HU.
Qed.
Lemma upper_stack x : page x -> user_frame (upper (Some x) stack_va) = Some x.
Proof.
  intros Hx. cbn. rewrite map_range_in by (unfold PGSIZE; lia). assert (Hf := page_frame x Hx). unfold user_frame, user.
  rewrite !frame_has by done. change (has PTE_V stack_flags && has PTE_U stack_flags) with true. destruct Hf as (? & ? & ?).
  by rewrite mkpte_pa by (done || (unfold PGSIZE in *; lia)).
Qed.

Lemma stack_lim : 0 <= stack_va <= MAXVA /\ stack_va mod PGSIZE = 0.
Proof. split; [split; discriminate|reflexivity]. Qed.
(** The heap ends below the stack. *)
Lemma heap_index root sz F K s free i x : proc_space root sz F K s free -> F !! i = Some x -> 0 <= Z.of_nat i * PGSIZE < stack_va.
Proof.
  intros H Hi. apply lookup_lt_Some in Hi. assert (HL := h_len _ _ _ _ _ _ _ (as_heap _ _ _ _ _ _ H)).
  assert (HS := h_size _ _ _ _ _ _ _ (as_heap _ _ _ _ _ _ H)). destruct stack_lim as [SL SA]. assert (HR := roundup_lim stack_va SL SA sz HS).
  unfold PGSIZE in *. lia.
Qed.

Lemma proc_listing root sz F K s free : proc_space root sz F K s free -> listing (pm_mem s) root (user_pages F K).
Proof.
  intros H. assert (H' := H). destruct H as [[H1 H2 H3 H4 H5 H6] [N P] U]. split.
  - unfold user_pages. rewrite fmap_app. apply NoDup_app. split; [|split].
    + apply NoDup_alt. intros i j va. rewrite !list_lookup_fmap. unfold heap_pages. rewrite !list_lookup_imap.
      destruct (F !! i), (F !! j); cbn; try done. unfold PGSIZE. intros [= <-] [= E]. lia.
    + intros va ([v x] & -> & (i & Hi & ->)%heap_pages_elem)%list_elem_of_fmap (y & E & Hy)%list_elem_of_fmap.
      destruct K as [k|]; cbn in Hy; [|set_solver]. apply list_elem_of_singleton in Hy as ->. cbn in E.
      pose proof (heap_index _ _ _ _ _ _ _ _ H' Hi). lia.
    + destruct K; cbn; [apply NoDup_singleton|constructor].
  - intros va x [(i & Hi & ->)|[-> ->]]%user_pages_elem.
    + split; [by apply Z.mod_mul|]. pose proof (heap_index _ _ _ _ _ _ _ _ H' Hi). split; [change stack_va with (MAXVA - 4 * PGSIZE) in *; unfold PGSIZE in *; lia|].
      by apply user_page_frame, H5.
    + split; [done|]. split; [by split|]. rewrite U by done. apply upper_stack. apply Forall_app in P as [_ P]. by apply Forall_inv in P.
  - intros va Hva Hal Hu. destruct (Z.lt_ge_cases va (PGROUNDUP sz)) as [Hlt|Hge].
    + assert (HL : (Z.to_nat (va / PGSIZE) < length F)%nat) by (unfold PGSIZE in *; dlia).
      apply lookup_lt_is_Some in HL as [x Hx]. apply list_elem_of_fmap. exists (va, x). split; [done|]. apply user_pages_elem. left.
      exists (Z.to_nat (va / PGSIZE)). split; [done|]. unfold PGSIZE in *. dlia.
    + destruct (Z.lt_ge_cases va stack_va) as [Hs|Hs]; [unfold user in Hu; by rewrite H6 in Hu|]. rewrite U in Hu by lia.
      destruct (Z.lt_ge_cases va USTACK) as [Ht|Ht]; [|by rewrite upper_high, kernel_pages_user in Hu].
      destruct K as [x|]; [|by cbn in Hu; rewrite kernel_pages_user in Hu]. apply list_elem_of_fmap. exists (va, x). split; [done|].
      apply user_pages_elem. right. split; [done|]. change stack_va with (67108860 * 4096) in *. change USTACK with (67108861 * 4096) in *. unfold PGSIZE in *. dlia.
Qed.

(** The end of a space, as [free_user_pagetable] brings it about. *)
Lemma release_ok root L s free : vm_ok kend s root free -> listing (pm_mem s) root L ->
  NoDup (tables (pm_mem s) root ++ L.*2 ++ free) -> Forall page L.*2 ->
  (forall va, USTACK <= va < 2 * MAXVA -> pte_of (pm_mem s) root va = kernel_pages va) ->
  exists s1 s2 s' free', uvmunmap kend 2 root TRAMPOLINE 1 false s = Ret (tt, s1) /\ uvmunmap kend 2 root TRAPFRAME 1 false s1 = Ret (tt, s2) /\
    uvmfree kend root 0 s2 = Ret (tt, s') /\ free_list kend s' free' /\ free' ≡ₚ tables (pm_mem s) root ++ L.*2 ++ free /\
    kept (tables (pm_mem s) root ++ L.*2) s s'.
Proof.
  intros O HL N P U. destruct kernel_pages_leaf as [K1 K2].
  destruct (unmap_kernel kend kend_pos root L s free TRAMPOLINE O HL) as (s1 & R1 & O1 & L1 & T1);
    [done|done|done|by rewrite U|by rewrite U, kernel_pages_user by done|].
  assert (U1 : pte_of (pm_mem s1) root TRAPFRAME = kernel_pages TRAPFRAME).
  { rewrite (t_pte _ _ _ _ _ T1) by done. unfold clear_range. change (TRAMPOLINE <=? TRAPFRAME) with false. by apply U. }
  destruct (unmap_kernel kend kend_pos root L s1 free TRAPFRAME O1 L1) as (s2 & R2 & O2 & L2 & T2);
    [done|done|done|by rewrite U1|by rewrite U1, kernel_pages_user|].
  assert (ET : tables (pm_mem s2) root = tables (pm_mem s) root) by (rewrite (t_tables _ _ _ _ _ T2); apply (t_tables _ _ _ _ _ T1)).
  destruct (free_listed kend kend_pos root L s2 free O2 L2) as (s' & free' & R3 & F' & P' & B' & _); [by rewrite ET|done|].
  exists s1, s2, s', free'. rewrite ET in P', B'. split_and!; try done. intros a Ha. rewrite B' by done.
  assert (HB := retuned_trans _ _ _ _ _ _ _ _ T1 T2). apply (t_bytes _ _ _ _ _ HB). intros t Ht. apply Ha.
  rewrite !app_nil_r in Ht. apply elem_of_app. by left.
Qed.

(** A new space: the pages of the kernel mapped in an empty one. *)
Lemma proc_space_new root s free : vm_ok kend s root free -> (forall va, 0 <= va < 2 * MAXVA -> pte_of (pm_mem s) root va = kernel_pages va) ->
  proc_space root 0 [] None s free.
Proof.
  intros O U. assert (D : NoDup (tables (pm_mem s) root ++ free)) by apply O.
  split; [split|by split|intros va Hva; apply U; change stack_va with (67108860 * 4096) in *; lia].
  - exact O.
  - by split.
  - split; [done|apply stack_lim].
  - reflexivity.
  - intros i x Hi. by rewrite lookup_nil in Hi.
  - intros va Hva. change (PGROUNDUP 0) with 0 in Hva. rewrite U by (change MAXVA with (stack_va + 4 * PGSIZE); unfold PGSIZE in *; lia).
    unfold kernel_pages. rewrite !map_range_out; [done|change TRAMPOLINE with (stack_va + 3 * PGSIZE)|change TRAPFRAME with (stack_va + 2 * PGSIZE)]; unfold PGSIZE in *; lia.
Qed.

(** What the heap does under the stack. *)
Lemma proc_heap_life fuel root sz F K s free os : proc_space root sz F K s free -> Forall (heap_op_ok stack_va) os ->
  2 * (stack_va / PGSIZE + 2) < Z.of_nat fuel ->
  exists sz' s' F' free', heap_life kend fuel root sz os s = Ret (sz', s') /\ proc_space root sz' F' K s' free' /\
    tables (pm_mem s') root ++ F' ++ free' ≡ₚ tables (pm_mem s) root ++ F ++ free.
Proof.
  intros [H [N P] U] Hos Hf. destruct stack_lim as [SL SA].
  destruct (heap_life_ok kend kend_pos stack_va SL SA fuel root os Hos Hf sz F s free H) as (sz' & s' & F' & free' & R & H' & [PM A]).
  exists sz', s', F', free'. split; [done|]. split; [|done]. split; [done| |intros va Hva; rewrite A by done; by apply U].
  apply Forall_app in P as [_ P]. split; [|apply Forall_app; split; [apply H'|done]].
  assert (E : tables (pm_mem s') root ++ (F' ++ frames K) ++ free' ≡ₚ tables (pm_mem s) root ++ (F ++ frames K) ++ free).
  { transitivity (frames K ++ tables (pm_mem s') root ++ F' ++ free'); [solve_Permutation|]. rewrite PM. solve_Permutation. }
  by rewrite E.
Qed.

(** The page of the stack, [x], mapped by [mappages]. *)
Lemma proc_space_stack root sz F s free x s' free' : proc_space root sz F None s (x :: free) -> page x -> vm_ok kend s' root free' ->
  tables (pm_mem s') root ++ free' ≡ₚ tables (pm_mem s) root ++ free ->
  (forall va, 0 <= va < 2 * MAXVA -> pte_of (pm_mem s') root va = map_range stack_va x 1 stack_flags (pte_of (pm_mem s) root) va) ->
  proc_space root sz F (Some x) s' free'.
Proof.
  clear kend_pos Htramp Htf.
  intros [[H1 [H2 HP] H3 H4 H5 H6] [N P] U] Hx O PM M. destruct stack_lim as [SL SA].
  assert (E : tables (pm_mem s') root ++ (F ++ [x]) ++ free' ≡ₚ tables (pm_mem s) root ++ F ++ x :: free).
  { transitivity ((F ++ [x]) ++ tables (pm_mem s') root ++ free'); [solve_Permutation|]. rewrite PM. solve_Permutation. }
  assert (ND : NoDup (tables (pm_mem s') root ++ (F ++ [x]) ++ free')) by by rewrite E.
  split; [split|split; [exact ND|apply Forall_app; split; [done|by constructor]]|].
  - exact O.
  - split; [|done]. revert ND. rewrite <- app_assoc. intros ND. rewrite !NoDup_app in *. set_solver.
  - exact H3.
  - exact H4.
  - intros i y Hi. assert (Hlt := lookup_lt_Some _ _ _ Hi). assert (HR := roundup_lim stack_va SL SA sz H3).
    rewrite M, map_range_out by (unfold PGSIZE in *; lia). by apply H5.
  - intros va Hva. assert (HR := roundup_lim stack_va SL SA sz H3). rewrite M, map_range_out by lia. by apply H6.
  - intros va Hva. rewrite M by lia. cbn. unfold map_range. destruct (_ && _); [done|]. by apply U.
Qed.
End Proc.
