(* ===== verification/Fork.v ===== *)
(** The address space of a child: [copy_space] of Life.v, the part of [fork]
    (src/kernel/proc.c) that copies the heap of the caller with [uvmcopy] and
    then the page of its stack, in the state of the whole kernel. *)
From S2P Require Import Prelude CString Bytes Spinlock Pm Vm Uvm Space Ids Proc Schedule Sleep Fat32 Fs Console File Life.

Section Child.
Context {S V : Type} `{Terminal S V}.
Context (kend : Z) (kend_pos : 0 < kend) (b : S) (t : fsst).
#[local] Abbreviation psof := (lget (T := psys) (Lens := term_ps)).

(** The system with the pages [y], all else as in [b]. *)
Definition with_pages (y : pmst) : S := lput (put_pm y (psof b)) b.
Lemma with_pages_same : with_pages (ps_pm (psof b)) = b.
Proof. unfold with_pages. replace (put_pm _ _) with (psof b) by (by destruct (psof b)). apply lput_lget. Qed.
Lemma with_pages_ps y : psof (with_pages y) = put_pm y (psof b).
Proof. apply lget_lput. Qed.

Lemma kern_getp {A} (f : proc -> A) p r y : ps_procs (psof b) !! p = Some r ->
  kern (V := V) (getp f p) (with_pages y, t) = Ret (f r, (with_pages y, t)).
Proof.
  intros Hr. unfold kern. rewrite (base_ok _ (with_pages y) t (f r) (with_pages y)); [done|].
  erewrite via_ret; [|rewrite with_pages_ps; apply getp_ok; exact Hr]. by rewrite <- with_pages_ps, lput_lget.
Qed.
Lemma kern_pm {A} (m : K pmst A) y a z : m y = Ret (a, z) -> kern (V := V) (pm_op m) (with_pages y, t) = Ret (a, (with_pages z, t)).
Proof.
  intros E. unfold kern. apply base_ok. erewrite via_ret; [|rewrite with_pages_ps; apply pm_op_ok; exact E].
  unfold with_pages. by rewrite lput_lput.
Qed.

Lemma kern_run {A} (m : K psys A) (s : S) (u : fsst) a x : m (psof s) = Ret (a, x) -> kern (V := V) m (s, u) = Ret (a, (lput x s, u)).
Proof. intros E. unfold kern. apply base_ok. by apply via_ret. Qed.

(** What [copy_space] does to the pages [s], for page tables [old] and [new] and
    a heap of [sz] bytes: the page of the stack, whether all went well, and the
    pages after it. *)
Inductive child_space (old new sz : Z) (s : pmst) (free : list Z) : Z -> bool -> pmst -> Prop :=
| child_all stk L s' free' :
    Vm.readable (pm_mem s) old (USTACK - PGSIZE) = true -> stk <> 0 -> (USTACK - PGSIZE, stk) ∈ L ->
    copied kend old new (fun va => below sz va \/ va = USTACK - PGSIZE) L s free s' free' -> child_space old new sz s free stk true s'
| child_part i L s' free' : i <= sz -> copied kend old new (below i) L s free s' free' -> child_space old new sz s free 0 false s'.

Lemma stack_page : 0 <= USTACK - PGSIZE < MAXVA /\ (USTACK - PGSIZE) mod PGSIZE = 0 /\ PGROUNDDOWN (USTACK - PGSIZE) = USTACK - PGSIZE.
Proof. split; [split; [discriminate|reflexivity]|split; reflexivity]. Qed.

Lemma copy_space_ok ufuel p np r n free : let s := ps_pm (psof b) in
  ps_procs (psof b) !! p = Some r -> ps_procs (psof b) !! np = Some n ->
  vm_ok kend s (pagetable n) free -> copyable kend (pagetable r) (pagetable n) s free ->
  (forall va, 0 <= va < MAXVA -> Vm.readable (pm_mem s) (pagetable r) va = true -> has PTE_V (pte_of (pm_mem s) (pagetable n) va) = false) ->
  0 <= heap_end r <= USTACK - PGSIZE -> heap_end r / PGSIZE + 1 < Z.of_nat ufuel ->
  exists stk ok s', copy_space (V := V) kend ufuel p np (b, t) = Ret ((stk, ok), (with_pages s', t)) /\
    child_space (pagetable r) (pagetable n) (heap_end r) s free stk ok s'.
Proof.
  intros s Hr Hn O Hc Hun Hh Hf. destruct stack_page as (HU & Hal & Hd). assert (Hnew := new_pages kend s (pagetable n) free O).
  replace (copy_space kend ufuel p np (b, t)) with (copy_space (V := V) kend ufuel p np (with_pages s, t)) by by rewrite <- with_pages_same.
  unfold copy_space.
  erewrite kbind_ret by exact (kern_getp pagetable p r s Hr). erewrite kbind_ret by exact (kern_getp pagetable np n s Hn).
  erewrite kbind_ret by exact (kern_getp heap_end p r s Hr).
  destruct (uvmcopy_ok kend kend_pos ufuel (pagetable r) (pagetable n) (heap_end r) s free O Hc Hun) as (x & s1 & free1 & i & L & R1 & C & Hx);
    [lia|done|]. erewrite kbind_ret by (apply kern_pm; exact R1).
  destruct Hx as [(-> & ->)|(-> & Hi)]; cbn [Z.ltb Z.compare].
  2:{ exists 0, false, s1. split; [done|]. apply (child_part _ _ _ _ _ i L s1 free1); [lia|exact C]. }
  assert (Hpart : forall s2 free2, copied kend (pagetable r) (pagetable n) (below (heap_end r)) L s free s2 free2 ->
    exists stk ok s', kret (0, false) (with_pages s2, t) = Ret ((stk, ok), (with_pages s', t)) /\
      child_space (pagetable r) (pagetable n) (heap_end r) s free stk ok s').
  { intros s2 free2 C2. exists 0, false, s2. split; [done|]. by apply (child_part _ _ _ _ _ (heap_end r) L s2 free2). }
  destruct (old_kept kend _ _ s free Hc Hnew _ L s1 free1 C) as [HO HP].
  destruct (walk_entry kend kend_pos (pagetable r) s1 (USTACK - PGSIZE) HO HU) as (a & R2 & Ha). rewrite Hd in R2.
  erewrite kbind_ret by (apply kern_pm; exact R2). rewrite HP in Ha.
  destruct Ha as [[-> E]|[Ha E]]; [by apply (Hpart s1 free1)|]. rewrite (proj2 (Z.eqb_neq a 0) Ha).
  erewrite kbind_ret by (apply kern_pm; reflexivity). rewrite E. fold (Vm.readable (pm_mem s) (pagetable r) (USTACK - PGSIZE)).
  destruct (Vm.readable (pm_mem s) (pagetable r) (USTACK - PGSIZE)) eqn:Hrd; cbn [negb]; [|by apply (Hpart s1 free1)].
  assert (HD : ~ below (heap_end r) (USTACK - PGSIZE)) by (unfold below; lia).
  destruct (copy_page_ok kend kend_pos _ _ s free Hc Hnew Hun _ L s1 free1 (USTACK - PGSIZE) C HU Hal HD Hrd)
    as [(s2 & R3 & C2)|(x & s2 & q & s3 & R3 & Hx & R4 & HR)]; erewrite kbind_ret by (apply kern_pm; exact R3); [by apply (Hpart s2 [])|].
  rewrite (proj2 (Z.eqb_neq x 0) Hx). erewrite kbind_ret by (apply kern_pm; reflexivity).
  erewrite kbind_ret by (apply kern_pm; unfold cmode in R4; rewrite u32_flags in R4; exact R4).
  destruct HR as [(-> & free3 & C3)|(-> & s4 & R5 & C4)]; cbn [Z.eqb negb].
  - exists x, true, s3. split; [done|]. by apply (child_all _ _ _ _ _ x (L ++ [(USTACK - PGSIZE, x)]) s3 free3); [| |apply elem_of_app; right; left|].
  - change (negb (-1 =? 0)) with true. cbv iota. erewrite kbind_ret by (apply kern_pm; exact R5). by apply (Hpart s4 [x]).
Qed.

(** C16. The address space of a child, as [fork] makes it from that of its
    caller [p]: the heap, then the one page of the stack. The new page table
    maps none of the user pages of the caller, and the tables and user frames of
    the caller are apart from its tables and the free pages. Then [copy_space]
    comes to an end, and of the kernel only the pages changed. Either every
    user page of the heap and the page of the stack have a copy, a frame of
    their own with the same bytes, mapped at the same address with the read,
    write, execute and user permissions of the original; or it says that it
    failed, with the heap copied up to an address and no stack, and the page it
    had taken for one given back. In both cases nothing else is
    mapped, the caller's own space and its bytes are as before, the frames of the copies are
    distinct pages, and no page is lost: tables, copies and free pages are
    together the tables and free pages from before. *)
Theorem copy_space_copies ufuel p np r n free : let s := ps_pm (psof b) in
  ps_procs (psof b) !! p = Some r -> ps_procs (psof b) !! np = Some n ->
  vm_ok kend s (pagetable n) free -> copyable kend (pagetable r) (pagetable n) s free ->
  (forall va, 0 <= va < MAXVA -> Vm.readable (pm_mem s) (pagetable r) va = true -> has PTE_V (pte_of (pm_mem s) (pagetable n) va) = false) ->
  0 <= heap_end r <= USTACK - PGSIZE -> heap_end r / PGSIZE + 1 < Z.of_nat ufuel ->
  exists stk ok s', copy_space (V := V) kend ufuel p np (b, t) = Ret ((stk, ok), (with_pages s', t)) /\
    child_space (pagetable r) (pagetable n) (heap_end r) s free stk ok s'.
Proof. apply copy_space_ok. Qed.
End Child.

(** The kernel with a console that nobody watches: process 1000 has the address
    space of Vm.v and a heap of two pages, process 2000 an empty space. *)
#[local] Instance quiet_unit : Lens psys unit.
Proof. by refine {| lget := fun _ => tt; lput := fun _ s => s |}; intros []. Defined.
#[local] Instance quiet_ps : Lens psys psys.
Proof. by refine {| lget := fun s => s; lput := fun x _ => x |}. Defined.
#[local] Instance quiet_terminal : Terminal psys unit.
Proof. by refine {| term_ps := quiet_ps; term_uart := quiet_unit |}. Defined.
Definition demo_parent : proc := set_heap_end 0x2000 (set_pagetable demo_root (demo_sleeper RUNNING 1 0)).
Definition demo_child : proc := set_pagetable copy_root (demo_sleeper RUNNING 2 0).
Definition demo_forking : psys := mkPs demo_copy [] ∅ (<[1000 := demo_parent]> {[ 2000 := demo_child ]}) 1000 0.
#[local] Opaque copy_mem.
Lemma demo_forking_procs : ps_procs demo_forking !! 1000 = Some demo_parent /\ ps_procs demo_forking !! 2000 = Some demo_child.
Proof. split; reflexivity. Qed.

Lemma copy_space_copies_witness : exists stk ok s',
  copy_space (V := unit) KERNBASE 4 1000 2000 (demo_forking, demo_tables) = Ret ((stk, ok), (with_pages demo_forking s', demo_tables)) /\
  child_space KERNBASE demo_root copy_root 0x2000 demo_copy [copy_page1; copy_page2] stk ok s'.
Proof.
  destruct demo_copyable as (O & C & Hn). destruct demo_forking_procs as [H1 H2].
  apply (copy_space_copies KERNBASE ltac:(done) demo_forking demo_tables 4 1000 2000 demo_parent demo_child [copy_page1; copy_page2]
    H1 H2 O C Hn); [split; discriminate|reflexivity].
Defined.
