(* ===== verification/SpaceLife.v ===== *)
(** No page is lost in the life of an address space: [process_pagetable],
    [setup_stack] and [free_user_pagetable] of src/kernel/proc.c, with what
    happens to the heap in between, and the copy that [fork] makes. *)
From S2P Require Import Prelude CString Bytes Spinlock Pm DList Vm Uvm Space Aspace Ids Proc Schedule Sleep Fat32 Fs Console File Life Fork.

Section Lives.
Context (kend : Z) (kend_pos : 0 < kend) (tramp : Z) (Htramp : frame_at tramp).
#[local] Abbreviation stack_va := (USTACK - PGSIZE).

Lemma put_pm_twice y z x : put_pm z (put_pm y x) = put_pm z x.
Proof. done. Qed.

(** The page table of a new process, or none and every page back. *)
Lemma process_pagetable_ok x p r free : ps_procs x !! p = Some r -> frame_at (trapframe r) -> free_list kend (ps_pm x) free ->
  exists pt s' free', process_pagetable kend tramp p x = Ret (pt, put_pm s' x) /\
    kept free (ps_pm x) s' /\ lk_restored (ps_lk x) (pm_lk s') /\
    (pt <> 0 /\ proc_space kend tramp (trapframe r) pt 0 [] None s' free' /\ tables (pm_mem s') pt ++ free' ≡ₚ free \/
     pt = 0 /\ free_list kend s' free' /\ free' ≡ₚ free /\ (length free <= 4)%nat).
Proof.
  intros Hr (Tal & T0 & T56) HF. destruct Htramp as (Pal & P0 & P56). unfold process_pagetable. destruct free as [|pt free].
  { destruct (kpmalloc_empty kend (ps_pm x) HF) as (l & R & K & HF'). exists 0, (set_lk l (ps_pm x)), []. split; [|split; [done|split; [exact K|right; split_and!; [done|done|done|cbn; lia]]]].
    erewrite kbind_ret by (apply pm_op_ok; unfold uvmcreate; erewrite kbind_ret by exact R; reflexivity). done. }
  destruct (uvmcreate_ok kend kend_pos stack_va (proj1 stack_lim) (ps_pm x) pt free HF) as (s1 & R1 & Hpt & HO & HT & HP & B1 & Q1).
  assert (K1 : kept (pt :: free) (ps_pm x) s1) by (intros a Ha; apply B1, Ha; left).
  assert (O1 := h_vm _ _ _ _ _ _ _ HO). erewrite kbind_ret by (apply pm_op_ok; exact R1). rewrite (proj2 (Z.eqb_neq pt 0) Hpt).
  destruct (map_page_ok kend kend_pos s1 pt free TRAMPOLINE tramp (Z.lor PTE_R PTE_X) O1) as (r1 & s2 & free2 & R2 & H2);
    [done|done|exact Pal|exact P0|exact P56|done|by rewrite HP|]. erewrite kbind_ret by (apply pm_op_ok; exact R2). rewrite put_pm_twice.
  destruct H2 as [(-> & N2 & M2)|(-> & N2 & -> & M2)]; cbn [Z.ltb Z.compare]; assert (PM2 := remapped_perm _ _ _ _ _ _ _ M2); rewrite HT in PM2;
    assert (K2 : kept (pt :: free) (ps_pm x) s2) by (apply (kept_step _ _ _ _ _ K1 (r_bytes _ _ _ _ _ _ _ M2)); by rewrite HT);
    assert (Q2 := lk_restored_trans _ _ _ Q1 (r_lk _ _ _ _ _ _ _ M2)).
  2:{ destruct (free_bare kend kend_pos pt s2 [] (r_ok _ _ _ _ _ _ _ M2)) as (s3 & free3 & R3 & F3 & P3 & B3 & Q3).
      { intros va Hva. by rewrite (r_pte _ _ _ _ _ _ _ M2), HP. }
      erewrite kbind_ret by (apply pm_op_ok; exact R3). exists 0, s3, free3. split; [done|].
    split; [apply (kept_step _ _ _ _ _ K2 B3); intros t Ht; by rewrite <- PM2, app_nil_r|]. split; [exact (lk_restored_trans _ _ _ Q2 Q3)|]. right. split; [done|]. split; [done|].
      split; [by rewrite P3, PM2|cbn; lia]. }
  erewrite kbind_ret by (apply getp_ok; exact Hr).
  assert (E2 : forall va, 0 <= va < 2 * MAXVA -> pte_of (pm_mem s2) pt va = map_range TRAMPOLINE tramp 1 (Z.lor (Z.lor PTE_R PTE_X) PTE_V) (fun _ => 0) va).
  { intros va Hva. rewrite (r_pte _ _ _ _ _ _ _ M2) by done. unfold map_range. by rewrite HP. }
  destruct (map_page_ok kend kend_pos s2 pt free2 TRAPFRAME (trapframe r) (Z.lor PTE_R PTE_W) (r_ok _ _ _ _ _ _ _ M2)) as (r2 & s3 & free3 & R3 & H3);
    [done|done|exact Tal|exact T0|exact T56|done|by rewrite E2|]. erewrite kbind_ret by (apply pm_op_ok; exact R3). rewrite put_pm_twice.
  destruct H3 as [(-> & N3 & M3)|(-> & N3 & -> & M3)]; cbn [Z.ltb Z.compare]; assert (PM3 := remapped_perm _ _ _ _ _ _ _ M3);
    assert (K3 : kept (pt :: free) (ps_pm x) s3) by (apply (kept_step _ _ _ _ _ K2 (r_bytes _ _ _ _ _ _ _ M3)); intros t Ht; by rewrite <- PM2);
    assert (Q3 := lk_restored_trans _ _ _ Q2 (r_lk _ _ _ _ _ _ _ M3)).
  - exists pt, s3, free3. split; [done|]. split; [done|]. split; [done|]. left. split; [done|]. split; [|by rewrite PM3, PM2].
    apply proc_space_new; [exact (r_ok _ _ _ _ _ _ _ M3)|]. intros va Hva. rewrite (r_pte _ _ _ _ _ _ _ M3) by done.
    unfold kernel_pages, map_range at 1 3. by rewrite E2.
  - assert (O3 := r_ok _ _ _ _ _ _ _ M3).
    destruct (unmap_page_ok kend kend_pos s3 pt [] TRAMPOLINE O3) as (s4 & R4 & O4 & T4); [done|done|done| |].
    { rewrite (r_pte _ _ _ _ _ _ _ M3), E2, map_range_in by done. by apply frame_leaf. }
    erewrite kbind_ret by (apply pm_op_ok; exact R4). rewrite put_pm_twice.
    destruct (free_bare kend kend_pos pt s4 [] O4) as (s5 & free5 & R5 & F5 & P5 & B5 & Q5).
    { intros va Hva. rewrite (t_pte _ _ _ _ _ T4) by done. unfold clear_range. destruct (_ && _) eqn:E; [done|].
      rewrite (r_pte _ _ _ _ _ _ _ M3), E2 by done. unfold map_range. by rewrite E. }
    erewrite kbind_ret by (apply pm_op_ok; exact R5). exists 0, s5, free5. split; [done|].
    assert (T5 : forall t, t ∈ tables (pm_mem s3) pt -> t ∈ pt :: free) by (intros t Ht; rewrite <- PM2, <- PM3; apply elem_of_app; by left).
    split; [apply (kept_step _ _ _ _ _ (kept_step _ _ _ _ _ K3 (t_bytes _ _ _ _ _ T4) ltac:(by rewrite app_nil_r)) B5); by rewrite (t_tables _ _ _ _ _ T4)|].
    split; [exact (lk_restored_trans _ _ _ (lk_restored_trans _ _ _ Q3 (t_lk _ _ _ _ _ T4)) Q5)|]. right. split; [done|]. split; [done|].
    split; [by rewrite P5, (t_tables _ _ _ _ _ T4), PM3, PM2|clear - N2 N3; cbn; lia].
Qed.

Section Space.
Context (tf : Z) (Htf : page kend tf).
#[local] Abbreviation space := (proc_space kend tramp tf).

(** The entries stay and no page goes missing. *)
Lemma proc_space_same root sz F K s free s' free' : space root sz F K s free -> vm_ok kend s' root free' ->
  tables (pm_mem s') root ++ free' ≡ₚ tables (pm_mem s) root ++ free ->
  (forall va, 0 <= va < 2 * MAXVA -> pte_of (pm_mem s') root va = pte_of (pm_mem s) root va) -> space root sz F K s' free'.
Proof.
  intros H O PM M. assert (HI := fun i x => heap_index kend tramp tf root sz F K s free i x H).
  destruct H as [[H1 [H2 HP] H3 H4 H5 H6] [N P] U]. assert (HR := roundup_lim stack_va (proj1 stack_lim) (proj2 stack_lim) sz H3).
  assert (Q : forall X, tables (pm_mem s') root ++ X ++ free' ≡ₚ tables (pm_mem s) root ++ X ++ free).
  { intros X. transitivity (X ++ tables (pm_mem s') root ++ free'); [solve_Permutation|]. rewrite PM. solve_Permutation. }
  split; [split|split; [by rewrite Q|done]|].
  - exact O.
  - split; [by rewrite Q|done].
  - exact H3.
  - exact H4.
  - intros i y Hi. assert (Hlt := HI i y Hi). change stack_va with (67108860 * 4096) in *. change MAXVA with (67108864 * 4096) in *.
    rewrite M by lia. by apply H5.
  - intros va Hva. change stack_va with (67108860 * 4096) in *. change MAXVA with (67108864 * 4096) in *. rewrite M by lia. by apply H6.
  - intros va Hva. rewrite M; [by apply U|]. change stack_va with (67108860 * 4096) in *. lia.
Qed.

Lemma setup_stack_ok x pt sp sz F free : space pt sz F None (ps_pm x) free -> ~ (tf ∈ tables (pm_mem (ps_pm x)) pt ++ F ++ free) ->
  tf <= sp -> sp + 8 <= tf + PGSIZE ->
  exists ok s' K free', setup_stack kend pt sp x = Ret (ok, put_pm s' x) /\ space pt sz F K s' free' /\
    tables (pm_mem s') pt ++ (F ++ frames K) ++ free' ≡ₚ tables (pm_mem (ps_pm x)) pt ++ F ++ free.
Proof.
  intros H Hn Hsp Hsp2. set (s := ps_pm x) in *. assert (O := h_vm _ _ _ _ _ _ _ (as_heap _ _ _ _ _ _ _ _ _ H)).
  assert (Hun : has PTE_V (pte_of (pm_mem s) pt stack_va) = false) by (by rewrite (as_upper _ _ _ _ _ _ _ _ _ H)).
  unfold setup_stack. destruct free as [|y free].
  { destruct (vm_alloc_none kend s pt O) as (s1 & R1 & O1 & E1 & _). erewrite kbind_ret by (apply pm_op_ok; exact R1).
    exists false, s1, None, []. split; [done|]. split; [apply (proc_space_same pt sz F None s []); by rewrite ?E1|]. rewrite E1. solve_Permutation. }
  destruct (fresh_page kend kend_pos s pt y free stack_va (Z.lor PTE_R (Z.lor PTE_W PTE_U)) O) as (Hy & Hy0 & s1 & R1 & B1 & HM);
    [done|done|done|exact Hun|].
  destruct (HM (pm_mem s1)) as (r & s2 & free2 & R2 & O2 & N2 & PM & _ & _ & HR); [done|]. rewrite <- set_mem_id in R2.
  erewrite kbind_ret by (apply pm_op_ok; exact R1). rewrite (proj2 (Z.eqb_neq y NULL) Hy0). rewrite kbind_ret with (1 := pm_op_ok _ (put_pm s1 x) _ _ R2), put_pm_twice.
  destruct HR as [(-> & P2)|(-> & -> & P2)]; cbn [Z.ltb Z.compare].
  - assert (HS := proc_space_stack kend tramp tf pt sz F s free y s2 free2 H Hy O2 PM P2).
    assert (Q : tables (pm_mem s2) pt ++ (F ++ [y]) ++ free2 ≡ₚ tables (pm_mem s) pt ++ F ++ y :: free).
    { transitivity ((F ++ [y]) ++ tables (pm_mem s2) pt ++ free2); [solve_Permutation|]. rewrite PM. solve_Permutation. }
    assert (Hn2 : tf ∉ tables (pm_mem s2) pt ++ free2).
    { intros Hin. apply Hn. rewrite <- Q. apply elem_of_app in Hin as [?|?]; rewrite !elem_of_app; auto. }
    destruct (vm_write_page kend s2 pt tf (st64 (pm_mem s2) sp USTACK) free2 O2 Htf Hn2) as [O3 B3].
    { intros a Ha. with_strategy transparent [st64] (unfold st64). apply ld8_stn_other. change (Z.of_nat 8) with 8. lia. }
    erewrite kbind_ret by (apply pm_op_ok; reflexivity). rewrite put_pm_twice.
    exists true, (set_mem (st64 (pm_mem s2) sp USTACK) s2), (Some y), free2. split; [done|]. split; [|by rewrite (b_tables _ _ _ _ _ B3)].
    apply (proc_space_same pt sz F (Some y) s2 free2 _ _ HS O3); [by rewrite (b_tables _ _ _ _ _ B3)|]. intros va _. apply (b_pte _ _ _ _ _ B3).
  - destruct (vm_free_page kend kend_pos s2 pt y [] O2 Hy N2) as (s3 & R3 & O3 & B3). erewrite kbind_ret by (apply pm_op_ok; exact R3).
    rewrite app_nil_r in PM. assert (Q : tables (pm_mem s3) pt ++ [y] ≡ₚ tables (pm_mem s) pt ++ y :: free).
    { rewrite (b_tables _ _ _ _ _ B3), PM. solve_Permutation. }
    exists false, s3, None, [y]. split; [done|]. split.
    + apply (proc_space_same pt sz F None s (y :: free)); [done|done|done|]. intros va Hva. by rewrite (b_pte _ _ _ _ _ B3), P2.
    + cbn [frames]. rewrite app_nil_r. transitivity (F ++ tables (pm_mem s3) pt ++ [y]); [solve_Permutation|]. rewrite Q. solve_Permutation.
Qed.

Lemma free_user_pagetable_ok x pt sz F K free : space pt sz F K (ps_pm x) free ->
  exists s' free', free_user_pagetable kend pt x = Ret (tt, put_pm s' x) /\ free_list kend s' free' /\
    free' ≡ₚ tables (pm_mem (ps_pm x)) pt ++ (F ++ frames K) ++ free.
Proof.
  intros H. assert (HL := proc_listing kend kend_pos tramp tf Htramp (page_frame kend kend_pos tf Htf) pt sz F K _ free H).
  assert (O := h_vm _ _ _ _ _ _ _ (as_heap _ _ _ _ _ _ _ _ _ H)). destruct H as [_ [N P] U].
  destruct (release_ok kend kend_pos tramp tf Htramp (page_frame kend kend_pos tf Htf) pt (user_pages F K) (ps_pm x) free O HL)
    as (s1 & s2 & s' & free' & R1 & R2 & R3 & F' & P' & _); rewrite ?user_pages_frames; [done|done| |].
  { intros va Hva. rewrite U by (change USTACK with (stack_va + PGSIZE) in Hva; unfold PGSIZE in *; lia). apply upper_high; lia. }
  exists s', free'. split; [|split; [done|by rewrite P', user_pages_frames]]. unfold free_user_pagetable.
  erewrite kbind_ret by (apply pm_op_ok; exact R1). erewrite kbind_ret by (apply pm_op_ok; exact R2). exact (pm_op_ok _ (put_pm s2 (put_pm s1 x)) _ _ R3).
Qed.
End Space.

(** The life of the space of a process [p], as the functions of proc.c make it
    up: [process_pagetable]; the heap, for which the loader and [sbrk] ask;
    [setup_stack], whose argument is the address of the stack pointer in the
    trap frame; more of the heap if there was a page for the stack; and
    [free_user_pagetable]. *)
Definition space_life (fuel : nat) (p : addr) (os1 : list heap_op) (sp : addr) (os2 : list heap_op) : K psys unit :=
  pt <- process_pagetable kend tramp p ;;
  if pt =? 0 then kret tt else
  sz <- pm_op (heap_life kend fuel pt 0 os1) ;;
  ok <- setup_stack kend pt sp ;;
  kwhen ok (pm_op (sz <- heap_life kend fuel pt sz os2 ;; kret tt)) ;;
  free_user_pagetable kend pt.

(** C14. No page is lost in the life of the address space of a process. It is
    made by [process_pagetable]; its heap grows and shrinks any number of
    times, before and after [setup_stack] has mapped the stack; and it ends
    with [free_user_pagetable]. Whatever fails on the way for want of memory, in
    any of these calls, the life comes to an end without a panic or a fault, and
    then the free pages are exactly those from before it. *)
Theorem space_life_loses_nothing fuel x p r free os1 sp os2 :
  ps_procs x !! p = Some r -> page kend (trapframe r) -> free_list kend (ps_pm x) free -> ~ (trapframe r ∈ free) ->
  trapframe r <= sp -> sp + 8 <= trapframe r + PGSIZE ->
  Forall (heap_op_ok stack_va) (os1 ++ os2) -> 2 * (stack_va / PGSIZE + 2) < Z.of_nat fuel ->
  exists s' free', space_life fuel p os1 sp os2 x = Ret (tt, put_pm s' x) /\ free_list kend s' free' /\ free' ≡ₚ free.
Proof.
  intros Hr Htf HF Hn Hsp Hsp2 [Ho1 Ho2]%Forall_app Hf. unfold space_life.
  destruct (process_pagetable_ok x p r free Hr (page_frame kend kend_pos _ Htf) HF) as (pt & s1 & f1 & R1 & _ & _ & [(Hpt & S1 & P1)|(-> & F1 & P1 & _)]);
    erewrite kbind_ret by exact R1; [|by exists s1, f1]. rewrite (proj2 (Z.eqb_neq pt 0) Hpt).
  destruct (proc_heap_life kend kend_pos tramp (trapframe r) fuel pt 0 [] None s1 f1 os1 S1 Ho1 Hf) as (sz & s2 & F2 & f2 & R2 & S2 & P2).
  erewrite kbind_ret by (apply pm_op_ok; exact R2). rewrite put_pm_twice. cbn [app] in P2.
  destruct (setup_stack_ok (trapframe r) Htf (put_pm s2 x) pt sp sz F2 f2 S2) as (ok & s3 & K & f3 & R3 & S3 & P3); [by rewrite P2, P1|done|done|].
  cbn [ps_pm put_pm] in P3. erewrite kbind_ret by exact R3. rewrite put_pm_twice.
  destruct ok; cbn [kwhen].
  - destruct (proc_heap_life kend kend_pos tramp (trapframe r) fuel pt sz F2 K s3 f3 os2 S3 Ho2 Hf) as (sz4 & s4 & F4 & f4 & R4 & S4 & P4).
    erewrite kbind_ret by (apply pm_op_ok; erewrite kbind_ret by exact R4; reflexivity). rewrite put_pm_twice.
    destruct (free_user_pagetable_ok (trapframe r) Htf (put_pm s4 x) pt sz4 F4 K f4 S4) as (s5 & f5 & R5 & F5 & P5).
    exists s5, f5. split; [exact R5|]. split; [done|]. rewrite P5. cbn [ps_pm put_pm].
    transitivity (frames K ++ tables (pm_mem s4) pt ++ F4 ++ f4); [solve_Permutation|]. rewrite P4, <- P1, <- P2, <- P3. solve_Permutation.
  - krun. destruct (free_user_pagetable_ok (trapframe r) Htf (put_pm s3 x) pt sz F2 K f3 S3) as (s5 & f5 & R5 & F5 & P5).
    exists s5, f5. split; [exact R5|]. split; [done|]. by rewrite P5, <- P1, <- P2, <- P3.
Qed.

(** ** The child of [fork] *)

(** The space of a process while others use the free pages: [Y] are those taken. *)
Lemma proc_space_kept tf root sz F K s free s' Y free' : proc_space kend tramp tf root sz F K s free -> kept free s s' ->
  free_list kend s' free' -> Y ++ free' ≡ₚ free ->
  proc_space kend tramp tf root sz F K s' free' /\ NoDup (tables (pm_mem s') root ++ (F ++ frames K) ++ Y ++ free').
Proof.
  intros H HK HF HY. assert (H' := H). destruct H as [[H1 [H2 HP] H3 H4 H5 H6] [N P] U].
  destruct (vm_ok_kept kend kend_pos root s free s' Y free' H1 HK HF HY) as (O & T & E & _).
  assert (Q : forall X, NoDup (tables (pm_mem s) root ++ X ++ free) -> NoDup (tables (pm_mem s') root ++ X ++ free')).
  { intros X ND. rewrite T. rewrite <- HY in ND. revert ND. rewrite !NoDup_app. set_solver. }
  split; [split; [split|split|]|].
  - exact O.
  - split; [by apply Q|done].
  - done.
  - done.
  - intros i y Hi. rewrite E. by apply H5.
  - intros va Hva. rewrite E. by apply H6.
  - by apply Q.
  - done.
  - intros va Hva. rewrite E. by apply U.
  - by rewrite T, HY.
Qed.

(** The frames a process can reach. *)
Lemma proc_space_reach tf root sz F K s free va : frame_at tf -> proc_space kend tramp tf root sz F K s free -> 0 <= va < 2 * MAXVA ->
  user (pte_of (pm_mem s) root va) = true -> page kend (PTE2PA (pte_of (pm_mem s) root va)) /\ PTE2PA (pte_of (pm_mem s) root va) ∈ F ++ frames K /\ va < USTACK.
Proof.
  intros Htf H Hva Hu. assert (HL := proc_listing kend kend_pos tramp tf Htramp Htf root sz F K s free H).
  assert (Hd : 0 <= va / PGSIZE * PGSIZE < 2 * MAXVA) by (change (2 * MAXVA) with (134217728 * 4096) in *; unfold PGSIZE; dlia).
  assert (Ep : pte_of (pm_mem s) root va = pte_of (pm_mem s) root (va / PGSIZE * PGSIZE)) by (apply pte_of_page; by rewrite Z.div_mul).
  assert (Hal : va / PGSIZE * PGSIZE mod PGSIZE = 0) by by apply Z.mod_mul.
  rewrite Ep in Hu. assert (Hin := li_all _ _ _ HL _ Hd Hal Hu). apply list_elem_of_fmap in Hin as ([v x] & E & Hin). cbn in E. subst v.
  destruct (li_page _ _ _ HL _ _ Hin) as (_ & _ & Hx). unfold user_frame in Hx. rewrite Hu in Hx. rewrite Ep. injection Hx as Hx. rewrite Hx.
  assert (HF : x ∈ F ++ frames K) by (rewrite <- user_pages_frames; apply list_elem_of_fmap; by exists (va / PGSIZE * PGSIZE, x)).
  split; [|split; [done|]]. { destruct H as [_ [_ P] _]. by apply (proj1 (Forall_forall _ _) P). }
  destruct (Z.lt_ge_cases va USTACK) as [|Hge]; [done|]. exfalso. rewrite <- Ep in Hu.
  rewrite (as_upper _ _ _ _ _ _ _ _ _ H), upper_high, kernel_pages_user in Hu; try done. change USTACK with (stack_va + PGSIZE) in Hge. unfold PGSIZE in *. lia.
Qed.

Lemma has_U e : has PTE_U e = Z.testbit e 4.
Proof.
  unfold has. change PTE_U with (2 ^ 4). destruct (Z.testbit e 4) eqn:E.
  - apply negb_true_iff, Z.eqb_neq. intros C. apply (f_equal (fun z => Z.testbit z 4)) in C. by rewrite Z.land_spec, E in C.
  - apply negb_false_iff, Z.eqb_eq, Z.bits_inj'. intros n Hn. rewrite Z.land_spec, Z.pow2_bits_eqb, Z.bits_0 by done.
    destruct (Z.eqb_spec 4 n) as [<-|]; [by rewrite E|apply andb_false_r].
Qed.
(** A copy of a page of the user is the user's. *)
Lemma copy_user x e : page kend x -> user e = true -> user_frame (mkpte x (cflags e)) = Some x.
Proof.
  intros Hx [_ HU]%andb_true_iff. assert (Hr := cmode_range e). assert (HF := page_frame kend kend_pos x Hx).
  assert (Hc : 0 <= cflags e < 1024) by by apply lor_1024.
  assert (HV : Z.odd (cflags e) = true) by apply odd_lor_V. assert (HU' : Z.testbit (cflags e) 4 = true).
  { rewrite has_U in HU. unfold cflags, cmode. rewrite u32_flags. unfold PTE_FLAGS. rewrite Z.lor_spec, !Z.land_spec, HU. done. }
  unfold user_frame, user. rewrite !frame_has, has_V, has_U, HV, HU' by done. cbn [andb]. destruct HF as (? & ? & ?).
  rewrite mkpte_pa; [done|unfold PGSIZE in *; lia|done|done].
Qed.

(** The pages of a child are those of its parent that were copied. *)
Lemma copied_listing old new D L s free s' free' : copied kend old new D L s free s' free' ->
  (forall va, 0 <= va < 2 * MAXVA -> user (pte_of (pm_mem s) new va) = false) -> listing (pm_mem s') new L.
Proof.
  intros [C1 [C2 CP] C3 C4 C5 C6 C7 C8 C9 C10] Hb.
  assert (HP : forall va x, (va, x) ∈ L -> va mod PGSIZE = 0 /\ 0 <= va < 2 * MAXVA /\ user_frame (pte_of (pm_mem s') new va) = Some x).
  { intros va x Hin. destruct (C3 va x Hin) as (Hal & Hr & _ & Hrd). split; [done|]. split; [lia|].
    rewrite (C5 va x va Hin) by (unfold PGSIZE; lia). apply copy_user; [|done].
    apply (proj1 (Forall_forall _ _) CP), list_elem_of_fmap. by exists (va, x). }
  split; [|exact HP|].
  - apply NoDup_fmap_2_strong.
    + intros [v x] [w y] H1 H2 E. cbn in E. subst w. destruct (HP v x H1) as (_ & _ & E1), (HP v y H2) as (_ & _ & E2). congruence.
    + apply NoDup_app in C2 as (_ & _ & N). apply NoDup_app in N as (N & _). by apply NoDup_fmap_1 in N.
  - intros va Hr Hal Hu. destruct (decide (va ∈ L.*1)) as [|Hn]; [done|]. exfalso. rewrite C6, Hb in Hu; [done|done|done|].
    intros v x Hin Hv. apply Hn, list_elem_of_fmap. exists (v, x). split; [|done]. cbn. destruct (HP v x Hin) as (Hv' & _). unfold PGSIZE in *. dlia.
Qed.

Section Child.
Context {S V : Type} `{Terminal S V}.
#[local] Abbreviation psof := (lget (T := psys) (Lens := term_ps)).

(** The space of a child of [p], as [fork] makes it and as it ends: when the
    child exits, or at once when [fork] fails. (The code does not test whether
    [process_pagetable] had the memory it needs.) *)
Definition child_life (ufuel : nat) (p np : addr) : K (S * fsst) unit :=
  pt <- kern (V := V) (process_pagetable kend tramp np) ;;
  if pt =? 0 then kret tt else
  kern (V := V) (setp (set_pagetable pt) np) ;;
  x <- copy_space (V := V) kend ufuel p np ;;
  kern (V := V) (free_user_pagetable kend pt).

(** A new space can take the copy of another. *)
Lemma proc_space_copyable tf tf' old new sz F K s free : frame_at tf -> frame_at tf' ->
  proc_space kend tramp tf old sz F K s free -> NoDup (tables (pm_mem s) old ++ (F ++ frames K) ++ tables (pm_mem s) new ++ free) ->
  proc_space kend tramp tf' new 0 [] None s free ->
  copyable kend old new s free /\
  forall va, 0 <= va < MAXVA -> Vm.readable (pm_mem s) old va = true -> has PTE_V (pte_of (pm_mem s) new va) = false.
Proof.
  intros Htf Htf' HP ND HN. assert (HR := fun va Hva => proc_space_reach tf old sz F K s free va Htf HP Hva). apply NoDup_app in ND as (_ & D1 & ND).
  apply NoDup_app in ND as (_ & D2 & _). split; [split|].
  - apply (h_vm _ _ _ _ _ _ _ (as_heap _ _ _ _ _ _ _ _ _ HP)).
  - intros t Ht Hin. apply (D1 t Ht), elem_of_app. by right.
  - intros va Hva Hrd. destruct (HR va ltac:(lia) Hrd) as (Hp & Hin & _). split; [done|by apply D2].
  - intros va Hva Hrd. destruct (HR va ltac:(lia) Hrd) as (_ & _ & Hlt). destruct (Z.lt_ge_cases va stack_va) as [Hs|Hs].
    + apply (h_above _ _ _ _ _ _ _ (as_heap _ _ _ _ _ _ _ _ _ HN)). change (PGROUNDUP 0) with 0. lia.
    + rewrite (as_upper _ _ _ _ _ _ _ _ _ HN) by lia. cbn. unfold kernel_pages.
      rewrite !map_range_out; [done|change TRAMPOLINE with (USTACK + 2 * PGSIZE)|change TRAPFRAME with (USTACK + PGSIZE)]; unfold PGSIZE; lia.
Qed.

(** The end of a child that has the pages [L]. *)
Lemma child_end tf old pt D L s free s' free' : frame_at tf -> copied kend old pt D L s free s' free' ->
  proc_space kend tramp tf pt 0 [] None s free -> (forall va, D va -> va < USTACK) ->
  exists s1 s2 s3 free3, uvmunmap kend 2 pt TRAMPOLINE 1 false s' = Ret (tt, s1) /\ uvmunmap kend 2 pt TRAPFRAME 1 false s1 = Ret (tt, s2) /\
    uvmfree kend pt 0 s2 = Ret (tt, s3) /\ free_list kend s3 free3 /\ free3 ≡ₚ tables (pm_mem s) pt ++ free /\
    kept (tables (pm_mem s) pt ++ free) s s3.
Proof.
  intros Htf C HN HD. assert (Hlow : forall va, 0 <= va < 2 * MAXVA -> user (pte_of (pm_mem s) pt va) = false).
  { intros va Hva. destruct (user _) eqn:E; [|done]. destruct (proc_space_reach tf pt 0 [] None s free va Htf HN Hva E) as (_ & Hin & _). by apply elem_of_nil in Hin. }
  assert (HL := copied_listing old pt D L s free s' free' C Hlow). assert (C8 := c_pages _ _ _ _ _ _ _ _ _ C).
  destruct (c_frames _ _ _ _ _ _ _ _ _ C) as [N P].
  destruct (release_ok kend kend_pos tramp tf Htramp Htf pt L s' free' (c_ok _ _ _ _ _ _ _ _ _ C) HL N P)
    as (s1 & s2 & s3 & free3 & R1 & R2 & R3 & F3 & P3 & B3).
  { intros va Hva. rewrite (c_rest _ _ _ _ _ _ _ _ _ C); [|change USTACK with (stack_va + PGSIZE) in Hva; change stack_va with (67108860 * 4096) in *; unfold PGSIZE in *; lia|].
    - rewrite (as_upper _ _ _ _ _ _ _ _ _ HN); [apply upper_high; lia|]. change USTACK with (stack_va + PGSIZE) in Hva. unfold PGSIZE in *. lia.
    - intros v x Hin Hv. destruct (c_sound _ _ _ _ _ _ _ _ _ C v x Hin) as (Hal & _ & Hd & _). specialize (HD v Hd).
      change USTACK with (67108861 * 4096) in *. unfold PGSIZE in *. dlia. }
  exists s1, s2, s3, free3. split_and!; try done; [by rewrite P3|]. apply (kept_step _ _ _ _ _ (c_bytes _ _ _ _ _ _ _ _ _ C) B3).
  intros t Ht. rewrite <- C8. apply elem_of_app in Ht as [?|?]; rewrite !elem_of_app; auto.
Qed.

(** C15. A child leaves no trace. Let [p] be a process with a well-formed space.
    When [fork] makes a page table for the child, copies the heap and the stack
    of [p] into it, all of it or as much as there is memory for, and the space of the child is freed later,
    then nothing panics or faults, the free pages are exactly those from before,
    no byte of any page that was not free has changed, and the space of [p] is as
    it was. *)
Theorem child_life_loses_nothing ufuel b t p np r n F K free :
  ps_procs (psof b) !! p = Some r -> ps_procs (psof b) !! np = Some n -> p <> np ->
  proc_space kend tramp (trapframe r) (pagetable r) (heap_end r) F K (ps_pm (psof b)) free ->
  frame_at (trapframe r) -> frame_at (trapframe n) -> heap_end r / PGSIZE + 1 < Z.of_nat ufuel ->
  exists x free', child_life ufuel p np (b, t) = Ret (tt, (lput x b, t)) /\ free' ≡ₚ free /\ kept free (ps_pm (psof b)) (ps_pm x) /\
    proc_space kend tramp (trapframe r) (pagetable r) (heap_end r) F K (ps_pm x) free'.
Proof.
  intros Hr Hn Hne HP Htf Htf' Hf. set (x0 := psof b) in *. assert (HF := vm_free _ _ _ _ (h_vm _ _ _ _ _ _ _ (as_heap _ _ _ _ _ _ _ _ _ HP))).
  destruct (process_pagetable_ok x0 np n free Hn Htf' HF) as (pt & s1 & f1 & R1 & K1 & _ & HD). unfold child_life.
  erewrite kbind_ret by (apply kern_run; exact R1).
  destruct HD as [(Hpt & HN & P1)|(-> & F1 & P1 & _)].
  2:{ exists (put_pm s1 x0), f1. split; [done|]. split; [done|]. split; [done|]. by apply (proc_space_kept _ _ _ _ _ _ _ s1 [] f1 HP K1). }
  rewrite (proj2 (Z.eqb_neq pt 0) Hpt). assert (F1 := vm_free _ _ _ _ (h_vm _ _ _ _ _ _ _ (as_heap _ _ _ _ _ _ _ _ _ HN))).
  destruct (proc_space_kept _ _ _ _ _ _ _ s1 (tables (pm_mem s1) pt) f1 HP K1 F1 P1) as [HP1 ND1].
  destruct (proc_space_copyable _ _ _ _ _ _ _ _ _ Htf Htf' HP1 ND1 HN) as [HC Hun].
  set (x1 := put_procs (<[np := set_pagetable pt n]> (ps_procs x0)) (put_pm s1 x0)).
  assert (R2 : setp (set_pagetable pt) np (psof (lput (put_pm s1 x0) b)) = Ret (tt, x1)) by (rewrite lget_lput; exact (setp_ok _ np (put_pm s1 x0) n Hn)).
  erewrite kbind_ret by (apply kern_run; exact R2). rewrite lput_lput.
  assert (En : pagetable (set_pagetable pt n) = pt) by by destruct n.
  assert (E1 : psof (lput x1 b) = x1) by apply lget_lput. set (b1 := lput x1 b) in *. destruct (h_size _ _ _ _ _ _ _ (as_heap _ _ _ _ _ _ _ _ _ HP)) as [H0 H1].
  destruct (copy_space_ok (V := V) kend kend_pos b1 t ufuel p np r (set_pagetable pt n) f1) as (stk & ok & s2 & R3 & HS); rewrite ?E1, ?En;
    [cbn; by rewrite lookup_insert_ne|cbn; by rewrite lookup_insert_eq|exact (h_vm _ _ _ _ _ _ _ (as_heap _ _ _ _ _ _ _ _ _ HN))|exact HC|exact Hun|lia|done|].
  rewrite E1, En in HS. change (ps_pm x1) with s1 in HS. erewrite kbind_ret by exact R3.
  assert (HE : exists D L f2, copied kend (pagetable r) pt D L s1 f1 s2 f2 /\ forall va, D va -> va < USTACK).
  { destruct HS as [stk L s' f' _ _ _ C|i L s' f' Hi C]; eexists _, L, f'; (split; [exact C|]); unfold below; change USTACK with (stack_va + PGSIZE); unfold PGSIZE in *; lia. }
  destruct HE as (D & L & f2 & C & HD). destruct (child_end _ _ _ _ _ _ _ _ _ Htf' C HN HD) as (s3 & s4 & s5 & f5 & R4 & R5 & R6 & F5 & P5 & B5).
  assert (R7 : free_user_pagetable kend pt (psof (with_pages b1 s2)) = Ret (tt, put_pm s5 x1)).
  { rewrite with_pages_ps, E1. unfold free_user_pagetable. erewrite kbind_ret by (apply pm_op_ok; exact R4).
    erewrite kbind_ret by (apply pm_op_ok; exact R5). exact (pm_op_ok _ (put_pm s4 (put_pm s3 (put_pm s2 x1))) _ _ R6). }
  assert (K5 : kept free (ps_pm x0) s5) by (apply (kept_step _ _ _ _ _ K1 B5); intros u Hu; by rewrite <- P1).
  exists (put_pm s5 x1), f5. split; [erewrite kern_run by exact R7; unfold with_pages, b1; by rewrite !lput_lput|]. split; [by rewrite P5|].
  split; [done|]. by apply (proc_space_kept _ _ _ _ _ _ _ s5 [] f5 HP K5 F5); rewrite P5.
Qed.
End Child.
End Lives.

(** The two free pages of [demo_pm] and a process without a heap: its trap frame
    is the page [demo_buffer], the code of the trampoline is at [KERNBASE]. *)
Definition life_caller : proc := set_pagetable demo_root (set_trapframe demo_buffer (demo_sleeper RUNNING 1 0)).
Definition life_start : psys := mkPs demo_pm [] ∅ {[ 1000 := life_caller ]} 1000 0.
Lemma demo_trapframe : page KERNBASE demo_buffer /\ frame_at KERNBASE /\ ~ (demo_buffer ∈ [demo_page1; demo_page2]).
Proof. split; [done|]. split; [done|]. apply (bool_decide_unpack _). reflexivity. Qed.

Lemma space_life_loses_nothing_witness : exists s' free',
  space_life KERNBASE KERNBASE (Z.to_nat 200000000) 1000 [Grow 5000 PTE_W] (demo_buffer + 48) [Shrink 100; Grow 9000 0] life_start =
    Ret (tt, put_pm s' life_start) /\ free_list KERNBASE s' free' /\ free' ≡ₚ [demo_page1; demo_page2].
Proof.
  destruct demo_trapframe as (Hb & Hk & Hn).
  apply (space_life_loses_nothing KERNBASE ltac:(done) KERNBASE Hk (Z.to_nat 200000000) life_start 1000 life_caller [demo_page1; demo_page2]);
    [reflexivity|exact Hb|exact demo_free|exact Hn|discriminate|discriminate| |rewrite Z2Nat.id by discriminate; reflexivity].
  repeat constructor; discriminate.
Defined.

(** The page table of that process. *)
Definition life_table1 : Z := PHYSTOP - 6 * PGSIZE.
Definition life_table0 : Z := PHYSTOP - 7 * PGSIZE.
Definition life_links : mem := link (link (pm_mem demo_pm) life_table1 demo_root (IDX 2 TRAMPOLINE)) life_table0 life_table1 (IDX 1 TRAMPOLINE).
Definition life_mem : mem :=
  st64 (st64 life_links (slot life_table0 (IDX 0 TRAMPOLINE)) (mkpte KERNBASE (Z.lor (Z.lor PTE_R PTE_X) PTE_V)))
    (slot life_table0 (IDX 0 TRAPFRAME)) (mkpte demo_buffer (Z.lor (Z.lor PTE_R PTE_W) PTE_V)).
Definition life_pm : pmst := set_mem life_mem demo_pm.

Lemma life_links_ok : pt_ok KERNBASE life_links demo_root /\ tables life_links demo_root ≡ₚ [life_table0; life_table1; demo_root] /\
  leaf_slot life_links demo_root TRAMPOLINE = Some (slot life_table0 (IDX 0 TRAMPOLINE)) /\ forall va, pte_of life_links demo_root va = 0.
Proof.
  apply (two_tables (pm_mem demo_pm) demo_root life_table1 life_table0 TRAMPOLINE); try done.
  - apply (bool_decide_unpack _). reflexivity.
  - apply demo_entries.
Qed.
Lemma life_links_out a : demo_page1 <= a -> ld8 life_links a = ld8 (pm_mem demo_pm) a.
Proof.
  intros Ha. assert (I2 := IDX_range 2 TRAMPOLINE ltac:(done)). assert (I1 := IDX_range 1 TRAMPOLINE ltac:(done)).
  unfold life_links, demo_page1, life_table1, life_table0, demo_root in *.
  rewrite !link_bytes; done || (unfold PGSIZE in *; lia).
Qed.
Lemma life_mem_ok : pt_ok KERNBASE life_mem demo_root /\ tables life_mem demo_root ≡ₚ [life_table0; life_table1; demo_root] /\
  (forall va, 0 <= va < 2 * MAXVA -> pte_of life_mem demo_root va = kernel_pages KERNBASE demo_buffer va) /\
  forall a, demo_page1 <= a -> ld8 life_mem a = ld8 (pm_mem demo_pm) a.
Proof.
  destruct life_links_ok as (O & T & L & P). assert (HB := life_links_out). unfold life_mem. generalize dependent life_links. intros m O T L P HB.
  assert (L2 : leaf_slot m demo_root TRAPFRAME = Some (slot life_table0 (IDX 0 TRAPFRAME))).
  { unfold leaf_slot in *. change (leaf_table m demo_root TRAPFRAME) with (leaf_table m demo_root TRAMPOLINE).
    destruct (leaf_table m demo_root TRAMPOLINE) as [t|]; [|done]. injection L as L. unfold slot in *. f_equal. lia. }
  destruct (set_leaf KERNBASE m demo_root TRAMPOLINE _ (mkpte KERNBASE (Z.lor (Z.lor PTE_R PTE_X) PTE_V)) O ltac:(done) L) as (O1 & T1 & S1 & P1).
  rewrite <- S1 in L2.
  destruct (set_leaf KERNBASE _ demo_root TRAPFRAME _ (mkpte demo_buffer (Z.lor (Z.lor PTE_R PTE_W) PTE_V)) O1 ltac:(done) L2) as (O2 & T2 & S2 & P2).
  split; [exact O2|]. split; [by rewrite T2, T1|]. split.
  - intros va Hva. rewrite P2, P1, P by done. unfold kernel_pages. rewrite <- !map_range_one by done. done.
  - intros a Ha. rewrite <- HB by done. with_strategy transparent [st64] (unfold st64).
    assert (I1 := IDX_range 0 TRAMPOLINE ltac:(done)). assert (I2 := IDX_range 0 TRAPFRAME ltac:(done)).
    rewrite !ld8_stn_other; [done|..]; unfold slot, life_table0, demo_page1, PGSIZE in *; change (Z.of_nat 8) with 8; lia.
Qed.
#[local] Opaque life_mem.

Lemma life_space : proc_space KERNBASE KERNBASE demo_buffer demo_root 0 [] None life_pm [demo_page1; demo_page2].
Proof.
  destruct life_mem_ok as (O & T & P & B). apply proc_space_new; [|exact P]. split; [exact O| |].
  - destruct demo_free as [F1 F2 F3 F4]. split; [|exact F2|exact F3|exact F4]. apply (linked_ext (pm_mem demo_pm)); [|exact F1].
    intros x Hx. apply ld64_ext. intros a Ha. apply B. revert Hx. unfold demo_page1, demo_page2, PGSIZE in *. rewrite !elem_of_cons, elem_of_nil. lia.
  - cbn [pm_mem life_pm set_mem]. rewrite T. apply (bool_decide_unpack _). reflexivity.
Qed.

(** Its child at 2000, whose trap frame is the page [demo_frame]. *)
Definition life_child : proc := set_trapframe Vm.demo_frame (demo_sleeper RUNNING 2 0).
Definition life_forking : psys := mkPs life_pm [] ∅ (<[1000 := life_caller]> {[ 2000 := life_child ]}) 1000 0.
Lemma life_forking_procs : ps_procs life_forking !! 1000 = Some life_caller /\ ps_procs life_forking !! 2000 = Some life_child.
Proof. split; reflexivity. Qed.
#[local] Existing Instance quiet_terminal.

Lemma child_life_loses_nothing_witness : exists x free',
  child_life KERNBASE KERNBASE (V := unit) 4 1000 2000 (life_forking, demo_tables) = Ret (tt, (lput (Lens := term_ps) x life_forking, demo_tables)) /\
  free' ≡ₚ [demo_page1; demo_page2] /\ kept [demo_page1; demo_page2] life_pm (ps_pm x) /\
  proc_space KERNBASE KERNBASE demo_buffer demo_root 0 [] None (ps_pm x) free'.
Proof.
  destruct demo_trapframe as (_ & Hk & _). destruct life_forking_procs as [H1 H2].
  apply (child_life_loses_nothing (H := quiet_terminal) KERNBASE ltac:(done) KERNBASE Hk 4 life_forking demo_tables 1000 2000 life_caller life_child [] None
    [demo_page1; demo_page2] H1 H2 ltac:(discriminate) life_space); [done|done|reflexivity].
Defined.
