(* ===== verification/Create.v ===== *)
(** Making a process: [process_create] of src/kernel/proc.c (Life.v), with every
    way it can end when a pid is free: the object given back, a panic, or a new
    process. *)
From S2P Require Import Prelude CString Bytes Spinlock DList Pm Vm Uvm Space Aspace Ids Proc Schedule Sleep Fat32 Fs Console File Life Fork SpaceLife.

(** ** The record and the lists *)

(** The record of a new process, made from what [kalloc] returned. *)
Definition new_proc (ret_at cur i tf pt : Z) (r : proc) : proc :=
  set_in_run_queue false (set_parent cur (set_cwd NULL (set_status INITIAL (set_priority FIRST (set_vruntime 0
    (set_ctx (zero_context ret_at (KSTACK i + PGSIZE)) (set_pagetable pt (set_kstack (KSTACK i) (set_pid i (set_trapframe tf r)))))))))).

Section Fields.
Context (process_list usertrapret_at : addr).

(** Lock [k] initialised, the others as in [l]. *)
Definition lock_made (k : lockid) (l l' : lockst) : Prop :=
  exists l0, lk_restored l l0 /\ l' = on_lock k (fun _ => mkSpinlock 0 None) l0.
Lemma lock_made_free k l l' j : lock_made k l l' -> lock_free j l -> lock_free j l'.
Proof.
  intros (l0 & R & ->) Hf. apply (lk_restored_free j) in R; [|done]. unfold lock_free, on_lock in *. cbn.
  destruct (decide (j = k)) as [->|Hne]; [by rewrite set_lock_eq|by rewrite set_lock_ne].
Qed.
Lemma lock_made_ready k l l' : lock_made k l l' -> lk_ready l -> lk_ready l'.
Proof.
  intros M [Hf Hc]. split; [by eapply lock_made_free|]. destruct M as (l0 & R & ->). by apply (lk_restored_ok l l0).
Qed.

(** The links of the process [p] are its own. *)
Record own_links (L : store) (p : addr) (xs : list addr) : Prop := {
  ol_live : forall a, a ∈ links_in p -> live L a;
  ol_apart : forall a, a ∈ links_in p -> a ∉ nodes process_list (map elem_at xs);
  ol_pos : 0 < p
}.
Lemma links_in_off p a : a ∈ links_in p -> exists k, k ∈ [48; 64; 80; 96; 112; 128] /\ a = p + k.
Proof.
  unfold links_in, child_list_of, file_list_of, elem_at, sched_elem_at, head_of, tail_of. intros Ha.
  repeat (apply elem_of_cons in Ha as [->|Ha]; [eexists; split; [|by rewrite <- ?Z.add_assoc]; set_solver|]). by apply elem_of_nil in Ha.
Qed.

Lemma create_fields_ok x p r xs pt va : ps_procs x !! p = Some r -> dlist (ps_links x) process_list (map elem_at xs) -> own_links (ps_links x) p xs ->
  lock_free process_lock (ps_lk x) -> cpu_ok (hcpu (ps_lk x)) ->
  exists L l, create_fields process_list usertrapret_at pt va p x =
      Ret (tt, put_lk l (put_links L (put_procs (<[p := set_in_run_queue false (set_parent (ps_cur x) (set_cwd NULL (set_status INITIAL
        (set_priority FIRST (set_vruntime 0 (set_ctx (zero_context usertrapret_at (va + PGSIZE)) (set_pagetable pt r)))))))]> (ps_procs x)) x))) /\
    dlist L process_list (map elem_at (xs ++ [p])) /\ dlist L (child_list_of p) [] /\ dlist L (file_list_of p) [] /\
    lock_made (proc_lock p) (ps_lk x) l.
Proof.
  intros Hr HL [Hlv Hap Hp] Hf Hc.
  assert (HS : forall f r0, setp f p (put_procs (<[p := r0]> (ps_procs x)) x) = Ret (tt, put_procs (<[p := f r0]> (ps_procs x)) x)).
  { intros f r0. erewrite setp_ok by apply lookup_insert_eq. cbn. by rewrite insert_insert_eq. }
  assert (Hapart : forall a, a ∈ nodes process_list (map elem_at xs) -> forall k, k ∈ [48; 64; 80; 96; 112; 128] -> a <> p + k).
  { intros a Ha k Hk ->. apply (Hap (p + k)); [|done]. unfold links_in, child_list_of, file_list_of, elem_at, sched_elem_at, head_of, tail_of.
    rewrite <- !Z.add_assoc. set_solver. }
  assert (Hl : forall k, k ∈ [48; 64; 80; 96; 112; 128] -> live (ps_links x) (p + k)).
  { intros k Hk. apply Hlv. unfold links_in, child_list_of, file_list_of, elem_at, sched_elem_at, head_of, tail_of. rewrite <- !Z.add_assoc. set_solver. }
  destruct (list_init_ok (ps_links x) (child_list_of p)) as (L1 & R1 & D1 & U1);
    [unfold child_list_of, NULL; lia|unfold tail_of, child_list_of, NULL; lia|by apply (Hl 48); set_solver|unfold tail_of, child_list_of; rewrite <- Z.add_assoc; by apply (Hl 64); set_solver|].
  destruct (list_init_ok L1 (file_list_of p)) as (L2 & R2 & D2 & U2);
    [unfold file_list_of, NULL; lia|unfold tail_of, file_list_of, NULL; lia|apply U1, (Hl 80); set_solver|
     unfold tail_of, file_list_of; rewrite <- Z.add_assoc; apply U1, (Hl 96); set_solver|].
  assert (HD2 : dlist L2 process_list (map elem_at xs)).
  { eapply dlist_frame; [eapply dlist_frame; [exact HL|exact U1|]|exact U2|]; intros a Ha Hin; unfold child_list_of, file_list_of, head_of, tail_of in Hin;
      rewrite !elem_of_cons, elem_of_nil in Hin; destruct Hin as [Hin|[Hin|[]]]; revert Hin; rewrite <- ?Z.add_assoc; apply Hapart; set_solver. }
  destruct (push_back_ok L2 process_list (map elem_at xs) (elem_at p)) as (L3 & R3 & D3 & U3);
    [exact HD2|apply U2, U1, (Hl 112); set_solver|unfold elem_at, NULL; lia|intros Hin; by apply (Hapart _ Hin 112); set_solver|].
  set (x1 := put_links L2 (put_procs (<[p := set_in_run_queue false (set_parent (ps_cur x) (set_cwd NULL (set_status INITIAL
        (set_priority FIRST (set_vruntime 0 (set_ctx (zero_context usertrapret_at (va + PGSIZE)) (set_pagetable pt r)))))))]> (ps_procs x)) x)).
  destruct (lock_enter process_lock x1 Hf) as (l1 & R4 & E4).
  destruct (lock_leave process_lock (ps_lk x) (put_links L3 (put_lk l1 x1)) Hf Hc E4) as (l2 & R5 & E5).
  exists L3, (on_lock (proc_lock p) (fun _ => mkSpinlock 0 None) l2). split; [|split; [|split; [|split]]].
  - unfold create_fields. rewrite (kbind_ret _ _ _ _ _ (setp_ok (set_pagetable pt) p x r Hr)). do 5 (erewrite kbind_ret by apply HS).
    unfold cur_proc at 1. krun. erewrite kbind_ret by apply HS.
    erewrite kbind_ret by (apply list_op_ok; exact R1). erewrite kbind_ret by (apply list_op_ok; exact R2).
    erewrite kbind_ret by (apply (setp_ok (set_in_run_queue false)); apply lookup_insert_eq). cbn [ps_procs put_procs put_links]. rewrite insert_insert_eq.
    erewrite kbind_ret by exact R4. erewrite kbind_ret by (apply list_op_ok; exact R3). erewrite kbind_ret by exact R5. reflexivity.
  - by rewrite map_app.
  - eapply dlist_frame; [eapply dlist_frame; [exact D1|exact U2|]|exact U3|].
    + unfold nodes, child_list_of, file_list_of, head_of, tail_of. cbn. intros a. rewrite !elem_of_cons, !elem_of_nil. lia.
    + intros a Ha. rewrite elem_of_cons. intros [->|Hin]; revert Ha; unfold nodes at 1, child_list_of, elem_at, head_of, tail_of; cbn; rewrite !elem_of_cons, elem_of_nil; [lia|].
      intros [Ha|[Ha|[]]]; revert Ha; rewrite <- ?Z.add_assoc; apply Hapart; set_solver.
  - eapply dlist_frame; [exact D2|exact U3|].
    intros a Ha. rewrite elem_of_cons. intros [->|Hin]; revert Ha; unfold nodes at 1, file_list_of, elem_at, head_of, tail_of; cbn; rewrite !elem_of_cons, elem_of_nil; [lia|].
    intros [Ha|[Ha|[]]]; revert Ha; rewrite <- ?Z.add_assoc; apply Hapart; set_solver.
  - by exists l2.
Qed.
End Fields.

(** ** The pages of the new process *)

Section Pages.
Context (kend : Z) (kend_pos : 0 < kend).

(** The locks do not matter to the tables. *)
Lemma vm_ok_lk root s free l : vm_ok kend s root free -> lk_ready l -> vm_ok kend (set_lk l s) root free.
Proof. intros [O [F1 F2 F3 F4] D] Hl. split; [exact O| |exact D]. by split. Qed.

(** The two pages [process_create] takes for itself. *)
Lemma take_two root s tf stack rest : vm_ok kend s root (tf :: stack :: rest) ->
  exists s1 s2, kpmalloc s = Ret (tf, s1) /\ kpmalloc s1 = Ret (stack, s2) /\ vm_ok kend s2 root rest /\ page kend tf /\ page kend stack /\
    NoDup (tf :: stack :: tables (pm_mem s) root ++ rest) /\ tables (pm_mem s2) root = tables (pm_mem s) root /\
    (forall va, pte_of (pm_mem s2) root va = pte_of (pm_mem s) root va) /\ lk_restored (pm_lk s) (pm_lk s2).
Proof.
  intros O. assert (N : NoDup (tf :: stack :: tables (pm_mem s) root ++ rest)) by (rewrite !Permutation_middle; apply O).
  destruct (vm_alloc_page kend kend_pos s root tf (stack :: rest) O) as (s1 & R1 & O1 & [_ T1 P1 _ L1] & H1 & _).
  destruct (vm_alloc_page kend kend_pos s1 root stack rest O1) as (s2 & R2 & O2 & [_ T2 P2 _ L2] & H2 & _).
  exists s1, s2. do 6 (split; [done|]). split; [by rewrite T2|]. split; [intros va; by rewrite P2|]. by eapply lk_restored_trans.
Qed.
End Pages.

(** The first free identifier. *)
Lemma id_alloc_first lock max s X i : 0 <= max -> ids_ready lock s -> bitmap max (bits s) X -> least_free (Z.to_nat max) 0 X = Some i ->
  exists s', id_alloc lock max s = Ret (i, s') /\ bitmap max (bits s') ({[i]} ∪ X) /\ lk_restored (bm_lk s) (bm_lk s') /\ 0 <= i < max.
Proof.
  intros H0 Hr Hb E. destruct (exec_id_ok lock max Alloc s X H0 Hr Hb) as (s' & R & B & Q). cbn [exec_id spec_step] in R, B. rewrite E in R, B.
  exists s'. do 3 (split; [done|]). apply (bm_range _ _ _ B), elem_of_union. left. by apply elem_of_singleton.
Qed.

(** Where the kernel stacks are. *)
Lemma KSTACK_range i : 0 <= i < MAX_PID -> KSTACK i mod PGSIZE = 0 /\ 0 <= KSTACK i < MAXVA.
Proof.
  unfold KSTACK, MAX_PID. change TRAMPOLINE with (67108863 * 4096). change MAXVA with (67108864 * 4096). unfold PGSIZE. intros Hi. split; [|lia].
  replace (67108863 * 4096 - (i + 1) * 2 * 4096) with ((67108863 - (i + 1) * 2) * 4096) by lia. by apply Z.mod_mul.
Qed.

Lemma foldr_insert_live (L : store) (xs : list addr) a : a ∈ xs -> live (foldr (fun a => insert a (Elem 0 0)) L xs) a.
Proof.
  induction xs as [|x xs IH]; intros Ha; [by apply elem_of_nil in Ha|]. cbn. unfold live. destruct (decide (x = a)) as [->|Hne].
  - rewrite lookup_insert_eq. by eexists.
  - rewrite lookup_insert_ne by done. apply elem_of_cons in Ha as [->|Ha]; [done|by apply IH].
Qed.
Lemma foldr_insert_other (L : store) (xs : list addr) a : a ∉ xs -> foldr (fun a => insert a (Elem 0 0)) L xs !! a = L !! a.
Proof.
  induction xs as [|x xs IH]; cbn; [done|]. intros [Hx Hn]%not_elem_of_cons. rewrite lookup_insert_ne by congruence. by apply IH.
Qed.

(** ** [process_create] *)

Section Create.
Context {S : Type} `{ProcHeapLaws S}.
Context (process_list usertrapret_at : addr) (kend kernel_pagetable tramp : Z).
Context (kend_pos : 0 < kend) (Htramp : frame_at tramp).
#[local] Abbreviation psof := (lget (T := psys)).
#[local] Abbreviation create := (process_create (S := S) process_list kend kernel_pagetable tramp usertrapret_at).
#[local] Abbreviation kp_tables x := (tables (pm_mem (ps_pm x)) kernel_pagetable).
#[local] Abbreviation kp_pte x := (pte_of (pm_mem (ps_pm x)) kernel_pagetable).

(** What [process_create] needs of the system, [p] being the new object and [i]
    the first free pid. *)
Record can_create (x : psys) (p : addr) (xs : list addr) (X : gset Z) (i : Z) (free : list Z) : Prop := {
  cn_vm : vm_ok kend (ps_pm x) kernel_pagetable free;
  cn_list : dlist (ps_links x) process_list (map elem_at xs);
  cn_apart : forall a, a ∈ links_in p -> a ∉ nodes process_list (map elem_at xs);
  cn_obj : 0 < p /\ ~ page kend p /\ ps_procs x !! p = None;
  cn_ids : bitmap MAX_PID (ps_pids x) X /\ least_free (Z.to_nat MAX_PID) 0 X = Some i;
  cn_stack : has PTE_V (kp_pte x (KSTACK i)) = false;
  cn_locks : lock_free process_lock (ps_lk x) /\ lock_free pid_lock (ps_lk x)
}.

(** The system [x] after it, with the trap frame [tf] and the stack [stack], and
    the free pages [rest] that were left for page tables. *)
Record created (x : psys) (p : addr) (r : proc) (xs : list addr) (X : gset Z) (i tf stack : Z) (rest : list Z) (x' : psys) : Prop := {
  cd_proc : exists pt rest', ps_procs x' = <[p := new_proc usertrapret_at (ps_cur x) i tf pt r]> (ps_procs x) /\
    vm_ok kend (ps_pm x') kernel_pagetable rest' /\
    (pt <> 0 /\ proc_space kend tramp tf pt 0 [] None (ps_pm x') rest' /\
       kp_tables x' ++ tables (pm_mem (ps_pm x')) pt ++ rest' ≡ₚ kp_tables x ++ rest \/
     pt = 0 /\ (length rest <= 6)%nat /\ kp_tables x' ++ rest' ≡ₚ kp_tables x ++ rest);
  cd_lists : dlist (ps_links x') process_list (map elem_at (xs ++ [p])) /\ dlist (ps_links x') (child_list_of p) [] /\ dlist (ps_links x') (file_list_of p) [];
  cd_ids : bitmap MAX_PID (ps_pids x') ({[i]} ∪ X);
  cd_pte : forall va, 0 <= va < 2 * MAXVA -> kp_pte x' va = map_range (KSTACK i) stack 1 (Z.lor (Z.lor PTE_R PTE_W) PTE_V) (kp_pte x) va;
  cd_pages : page kend tf /\ page kend stack /\ NoDup (tf :: stack :: kp_tables x ++ rest);
  cd_cur : ps_cur x' = ps_cur x;
  cd_lk : lock_made (proc_lock p) (ps_lk x) (ps_lk x')
}.

Lemma via_at {A} (m : K psys A) (s : S) x a x' : m x = Ret (a, x') -> via m (lput x s) = Ret (a, lput x' s).
Proof. intros E. erewrite via_ret by (rewrite lget_lput; exact E). by rewrite lput_lput. Qed.

#[local] Abbreviation sys x m b L P := (mkPs m b L P (ps_cur x) (min_vruntime x)).

(** The part of [process_create] that follows the second page. *)
Definition create_rest (stack : Z) (p : addr) : K S addr :=
  i <- via (pid_op pid_alloc) ;;
  via (setp (set_pid i) p) ;;
  let va := KSTACK i in
  r <- via (pm_op (mappages 1 kernel_pagetable va stack PGSIZE (Z.lor PTE_R PTE_W))) ;;
  if negb (r =? 0) then via (pm_op (kpmfree kend stack)) ;; via (pm_op (kpmfree kend p)) ;; kret NULL else
  via (setp (set_kstack va) p) ;;
  pt <- via (process_pagetable kend tramp p) ;;
  via (create_fields process_list usertrapret_at pt va p) ;;
  kret p.

(** Its end: the address space, the fields and the lists. *)
Lemma create_end (s : S) x m b L P p r xs va tf free : vm_ok kend m kernel_pagetable free -> P !! p = Some r -> trapframe r = tf -> page kend tf ->
  dlist L process_list (map elem_at xs) -> own_links process_list L p xs -> lock_free process_lock (pm_lk m) ->
  exists pt m' L' free', (pt <- via (process_pagetable kend tramp p) ;; via (create_fields process_list usertrapret_at pt va p) ;; kret p) (lput (sys x m b L P) s) =
      Ret (p, lput (sys x m' b L' (<[p := set_in_run_queue false (set_parent (ps_cur x) (set_cwd NULL (set_status INITIAL
        (set_priority FIRST (set_vruntime 0 (set_ctx (zero_context usertrapret_at (va + PGSIZE)) (set_pagetable pt r)))))))]> P)) s) /\
    vm_ok kend m' kernel_pagetable free' /\ tables (pm_mem m') kernel_pagetable = tables (pm_mem m) kernel_pagetable /\
    (forall va, pte_of (pm_mem m') kernel_pagetable va = pte_of (pm_mem m) kernel_pagetable va) /\
    (pt <> 0 /\ proc_space kend tramp tf pt 0 [] None m' free' /\ tables (pm_mem m') pt ++ free' ≡ₚ free \/
     pt = 0 /\ (length free <= 4)%nat /\ free' ≡ₚ free) /\
    dlist L' process_list (map elem_at (xs ++ [p])) /\ dlist L' (child_list_of p) [] /\ dlist L' (file_list_of p) [] /\
    lock_made (proc_lock p) (pm_lk m) (pm_lk m').
Proof.
  intros O Hp <- Htf HL HO Hlk.
  destruct (process_pagetable_ok kend kend_pos tramp Htramp (sys x m b L P) p r free Hp (page_frame kend kend_pos _ Htf) (vm_free _ _ _ _ O))
    as (pt & m1 & free' & R1 & K1 & Q1 & HD). cbn in K1, Q1.
  assert (HF : free_list kend m1 free' /\ exists Y, Y ++ free' ≡ₚ free).
  { destruct HD as [(_ & HP & E)|(_ & F & E & _)]; [split; [apply HP|by eexists]|split; [exact F|by exists []]]. }
  destruct HF as [HF [Y HY]]. destruct (vm_ok_kept kend kend_pos _ m free m1 Y free' O K1 HF HY) as (O1 & T1 & P1 & _).
  destruct (create_fields_ok process_list usertrapret_at (sys x m1 b L P) p r xs pt va Hp HL HO) as (L' & l & R2 & D1 & D2 & D3 & M).
  { by apply (lk_restored_free _ _ _ Q1). } { apply HF. }
  assert (M' : lock_made (proc_lock p) (pm_lk m) l) by (destruct M as (l0 & M & ->); exists l0; split; [by eapply lk_restored_trans|done]).
  assert (HR : lk_ready l) by (eapply lock_made_ready; [exact M|apply HF]).
  exists pt, (set_lk l m1), L', free'. split.
  { erewrite kbind_ret by (apply via_at; exact R1). erewrite kbind_ret by (apply via_at; exact R2). done. }
  split; [by apply vm_ok_lk|]. split; [exact T1|]. split; [exact P1|]. split; [|done].
  destruct HD as [(Hpt & HP & E)|(-> & _ & E & N)]; [left|by right]. split; [done|]. split; [|exact E].
  assert (HF1 : free_list kend (set_lk l m1) free') by (destruct HF as [F1 F2 F3 F4]; by split).
  by apply (proc_space_kept kend kend_pos tramp Htramp _ pt 0 [] None m1 free' (set_lk l m1) [] free' HP).
Qed.

Lemma create_rest_ok (s : S) x m L p r0 xs X i tf stack rest : can_create x p xs X i (tf :: stack :: rest) ->
  vm_ok kend m kernel_pagetable rest -> tables (pm_mem m) kernel_pagetable = kp_tables x ->
  (forall va, pte_of (pm_mem m) kernel_pagetable va = kp_pte x va) -> lk_restored (ps_lk x) (pm_lk m) ->
  page kend tf -> page kend stack -> NoDup (tf :: stack :: kp_tables x ++ rest) ->
  dlist L process_list (map elem_at xs) -> own_links process_list L p xs ->
  let s1 := lput (sys x m (ps_pids x) L (<[p := set_trapframe tf r0]> (ps_procs x))) s in
  (length rest <= 1)%nat /\ create_rest stack p s1 = Panic "kpmfree" \/
  exists x', create_rest stack p s1 = Ret (p, lput x' s) /\ created x p r0 xs X i tf stack rest x'.
Proof.
  intros [C1 C2 C3 (C4 & Cbad & Cnew) [C5 C6] C7 [C8 C9]] O T P Q Htf Hst N HL HO s1.
  assert (Hc : cpu_ok (hcpu (pm_lk m))) by apply O.
  destruct (id_alloc_first pid_lock MAX_PID (mkBm (pm_lk m) (ps_pids x)) X i) as ([l1 b1] & R1 & B1 & Q1 & Hi);
    [done|split; [by apply (lk_restored_free _ _ _ Q)|exact Hc]|exact C5|exact C6|]. cbn [bits bm_lk] in B1, Q1.
  destruct (KSTACK_range i Hi) as [Hal Hr].
  set (m1 := set_lk l1 m). assert (O1 : vm_ok kend m1 kernel_pagetable rest) by (apply vm_ok_lk; [exact O|eapply lk_ready_restored; [apply O|exact Q1]]).
  destruct (page_frame kend kend_pos stack Hst) as (S1 & S2 & S3).
  destruct (map_page_ok kend kend_pos m1 kernel_pagetable rest (KSTACK i) stack (Z.lor PTE_R PTE_W) O1 Hal Hr S1 S2 S3) as (r & m2 & free2 & R2 & HM);
    [done|change (pm_mem m1) with (pm_mem m); by rewrite P|].
  set (r1 := set_pid i (set_trapframe tf r0)).
  assert (Run : create_rest stack p s1 = (if negb (r =? 0) then via (pm_op (kpmfree kend stack)) ;; via (pm_op (kpmfree kend p)) ;; kret NULL else
    via (setp (set_kstack (KSTACK i)) p) ;; pt <- via (process_pagetable kend tramp p) ;; via (create_fields process_list usertrapret_at pt (KSTACK i) p) ;; kret p)
      (lput (sys x m2 b1 L (<[p := r1]> (ps_procs x))) s)).
  { unfold create_rest, s1. erewrite kbind_ret by (apply via_at; unfold pid_op; erewrite zoom_ret by exact R1; reflexivity).
    erewrite kbind_ret by (apply via_at; apply setp_ok; cbn; apply lookup_insert_eq). cbn [ps_procs put_procs put_pids]. rewrite insert_insert_eq.
    erewrite kbind_ret by (apply via_at; apply pm_op_ok; exact R2). done. }
  rewrite Run. destruct HM as [(-> & N2 & M2)|(-> & N2 & -> & M2)]; [right|left]; cbn [Z.eqb negb].
  - set (r2 := set_kstack (KSTACK i) r1).
    erewrite kbind_ret by (apply via_at; apply setp_ok; cbn; apply lookup_insert_eq). cbn [ps_procs put_procs]. rewrite insert_insert_eq. fold r2.
    destruct (create_end s x m2 b1 L (<[p := r2]> (ps_procs x)) p r2 xs (KSTACK i) tf free2 (r_ok _ _ _ _ _ _ _ M2)) as
      (pt & m3 & L' & free3 & R3 & O3 & T3 & P3 & HS & D1 & D2 & D3 & M3);
      [apply lookup_insert_eq|by destruct r0|exact Htf|exact HL|exact HO| |].
    { apply (lk_restored_free _ _ _ (r_lk _ _ _ _ _ _ _ M2)). apply (lk_restored_free _ _ _ Q1). by apply (lk_restored_free _ _ _ Q). }
    eexists. split; [exact R3|]. assert (PM := remapped_perm _ _ _ _ _ _ _ M2). change (pm_mem m1) with (pm_mem m) in PM. rewrite T in PM.
    split; cbn [ps_procs ps_pm ps_links ps_pids ps_cur]; [|done|exact B1| |done|done|].
    + exists pt, free3. split; [by rewrite insert_insert_eq|]. split; [exact O3|].
      destruct HS as [(Hpt & HS & E)|(-> & N3 & E)]; [left|right]; (split; [done|]); (split; [done || lia|]); by rewrite T3, E, PM.
    + intros va Hva. rewrite P3, (r_pte _ _ _ _ _ _ _ M2) by done. unfold map_range. change (pm_mem m1) with (pm_mem m). by rewrite P.
    + unfold lock_made in *. destruct M3 as (l0 & K & E). exists l0. split; [|exact E].
      exact (lk_restored_trans _ _ _ Q (lk_restored_trans _ _ _ Q1 (lk_restored_trans _ _ _ (r_lk _ _ _ _ _ _ _ M2) K))).
  - split; [exact N2|]. assert (PM := remapped_perm _ _ _ _ _ _ _ M2). change (pm_mem m1) with (pm_mem m) in PM. rewrite T in PM.
    destruct (vm_free_page kend kend_pos m2 kernel_pagetable stack [] (r_ok _ _ _ _ _ _ _ M2) Hst) as (m3 & R3 & _).
    { rewrite PM. apply NoDup_cons in N as [_ N]. by apply NoDup_cons in N as [N _]. }
    erewrite kbind_ret by (apply via_at; apply pm_op_ok; exact R3). unfold via, pm_op, zoom, kbind. rewrite lget_lput. by rewrite kpmfree_bad.
Qed.

(** The object and its links, before anything else. *)
Lemma create_begin s0 s p r0 xs X i free : ph_alloc s0 = Ret ((p, r0), s) -> can_create (psof s) p xs X i free ->
  exists L, dlist L process_list (map elem_at xs) /\ own_links process_list L p xs /\
    (forall a, a ∉ links_in p -> L !! a = ps_links (psof s) !! a) /\
    create s0 = (tf <- via (pm_op kpmalloc) ;; via (setp (set_trapframe tf) p) ;; if tf =? NULL then free_proc p ;; kret NULL else
      stack <- via (pm_op kpmalloc) ;; if stack =? NULL then via (pm_op (kpmfree kend p)) ;; kret NULL else create_rest stack p)
      (lput (sys (psof s) (ps_pm (psof s)) (ps_pids (psof s)) L (<[p := r0]> (ps_procs (psof s)))) s).
Proof.
  intros R [C1 C2 C3 (C4 & _) _ _ _]. set (L := foldr (fun a => insert a (Elem 0 0)) (ps_links (psof s)) (links_in p)).
  assert (HO : forall a, a ∉ links_in p -> L !! a = ps_links (psof s) !! a) by apply foldr_insert_other.
  exists L. split; [eapply dlist_same; [exact C2|]; intros a Ha; apply HO; intros Hin; by apply (C3 a)|].
  split; [split; [apply foldr_insert_live|exact C3|exact C4]|]. split; [exact HO|].
  unfold process_create. erewrite kbind_ret by exact R. cbn [fst snd]. rewrite (proj2 (Z.eqb_neq p NULL)) by (unfold NULL; lia).
  erewrite kbind_ret by (apply via_ret; unfold add_proc; krun; unfold list_op, zoom; reflexivity). done.
Qed.

(** Without a page for the trap frame the object is given back. *)
Lemma create_none s0 s p r0 xs X i : ph_alloc s0 = Ret ((p, r0), s) -> can_create (psof s) p xs X i [] -> slab_ok s -> slab_obj p ->
  (forall a t, slab_byte a -> t ∈ kp_tables (psof s) -> ~ (t <= a < t + PGSIZE)) ->
  exists s', create s0 = Ret (NULL, s') /\ slab_ok s' /\ ps_procs (psof s') = ps_procs (psof s) /\ ps_pids (psof s') = ps_pids (psof s) /\
    dlist (ps_links (psof s')) process_list (map elem_at xs) /\ vm_ok kend (ps_pm (psof s')) kernel_pagetable [] /\
    (forall va, kp_pte (psof s') va = kp_pte (psof s) va) /\ lk_restored (ps_lk (psof s)) (ps_lk (psof s')).
Proof.
  intros R HC Hs Ho Hap. destruct (create_begin s0 s p r0 xs X i [] R HC) as (L & HL & [_ Hxs _] & _ & Run). destruct HC as [C1 _ _ (_ & _ & C4) _ _ _].
  set (x := psof s) in *. destruct (kpmalloc_empty kend (ps_pm x) (vm_free _ _ _ _ C1)) as (l & R1 & Q1 & _).
  set (x1 := sys x (set_lk l (ps_pm x)) (ps_pids x) L (<[p := set_trapframe 0 r0]> (ps_procs x))).
  assert (E1 : psof (lput x1 s) = x1) by apply lget_lput.
  destruct (ph_free_ok (lput x1 s) p) as (s2 & m & R2 & Hs2 & E2 & Hm); [by apply slab_ok_ps|exact Ho|]. rewrite E1 in E2, Hm.
  assert (O1 : vm_ok kend (ps_pm x1) kernel_pagetable []) by (apply vm_ok_lk; [exact C1|eapply lk_ready_restored; [apply C1|exact Q1]]).
  destruct (vm_ok_off kend (ps_pm x1) kernel_pagetable [] m O1) as [O2 P2].
  { intros a t Ht Hta. apply Hm. intros Hb. rewrite app_nil_r in Ht. by apply (Hap a t). }
  set (x2 := sys x (set_mem m (set_lk l (ps_pm x))) (ps_pids x) (foldr delete L (links_in p)) (ps_procs x)).
  exists (lput x2 s2). rewrite lget_lput. split; [|split; [|split; [done|split; [done|split; [|split; [exact O2|split; [exact P2|exact Q1]]]]]]].
  - rewrite Run. erewrite kbind_ret by (apply via_at; apply pm_op_ok; exact R1).
    erewrite kbind_ret by (apply via_at; apply setp_ok; cbn; apply lookup_insert_eq). cbn [ps_procs put_procs put_pm]. rewrite insert_insert_eq.
    change (0 =? NULL) with true. cbv iota. unfold free_proc. rewrite kbind_assoc. erewrite kbind_ret by exact R2.
    erewrite kbind_ret; [reflexivity|]. apply via_ok. rewrite E2. unfold del_proc. krun. unfold list_op, zoom. cbn. rewrite delete_insert_id by exact C4. done.
  - apply slab_ok_ps; [exact Hs2|]. intros a _. by rewrite E2.
  - eapply dlist_same; [exact HL|]. intros a Ha. apply foldr_delete_other. intros Hin. by apply (Hxs a).
Qed.

(** C17. [process_create] in every state of the memory. Let [kalloc] give the
    object [p]. With no free page the object is given back and [NULL] is
    returned, the system being as before. With one page, which is for the trap
    frame, the code panics: it gives [p] to the page allocator. With more, it
    returns [p]: a process with the first free pid, its parent the caller, at
    the end of the list of processes, its two lists empty, its kernel stack
    mapped at the address of its pid and nothing else in the kernel page table
    changed, and an address space with only the trampoline and the trap frame;
    every lock is as before and that of [p] is initialised; no page is lost.
    Only when at most one page is left for page tables can it panic, and only
    when at most six are can the new process be without an address space. *)
Theorem process_create_outcomes s0 s p r0 xs X i free : ph_alloc s0 = Ret ((p, r0), s) -> can_create (psof s) p xs X i free ->
  slab_ok s -> slab_obj p -> (forall a t, slab_byte a -> t ∈ kp_tables (psof s) -> ~ (t <= a < t + PGSIZE)) ->
  match free with
  | [] => exists s', create s0 = Ret (NULL, s') /\ slab_ok s' /\ ps_procs (psof s') = ps_procs (psof s) /\ ps_pids (psof s') = ps_pids (psof s) /\
      dlist (ps_links (psof s')) process_list (map elem_at xs) /\ vm_ok kend (ps_pm (psof s')) kernel_pagetable [] /\
      (forall va, kp_pte (psof s') va = kp_pte (psof s) va) /\ lk_restored (ps_lk (psof s)) (ps_lk (psof s'))
  | [_] => create s0 = Panic "kpmfree"
  | tf :: stack :: rest => (length rest <= 1)%nat /\ create s0 = Panic "kpmfree" \/
      exists x', create s0 = Ret (p, lput x' s) /\ created (psof s) p r0 xs X i tf stack rest x'
  end.
Proof.
  intros R HC Hs Ho Hap. destruct free as [|tf free]; [by eapply create_none|].
  destruct (create_begin s0 s p r0 xs X i _ R HC) as (L & HL & HO & _ & Run). assert (O := cn_vm _ _ _ _ _ _ HC).
  destruct free as [|stack rest].
  - destruct (vm_alloc_page kend kend_pos _ _ tf [] O) as (s1 & R1 & O1 & _ & Htf & _).
    destruct (kpmalloc_empty kend s1 (vm_free _ _ _ _ O1)) as (l & R2 & _).
    assert (Htf0 : (tf =? NULL) = false) by (apply Z.eqb_neq; pose proof (page_pos kend kend_pos tf Htf); unfold NULL; lia).
    rewrite Run. erewrite kbind_ret by (apply via_at; apply pm_op_ok; exact R1).
    erewrite kbind_ret by (apply via_at; apply setp_ok; cbn; apply lookup_insert_eq). rewrite Htf0.
    erewrite kbind_ret by (apply via_at; apply pm_op_ok; exact R2). change (0 =? NULL) with true. cbv iota.
    unfold via, pm_op, zoom, kbind. rewrite lget_lput. rewrite kpmfree_bad; [done|apply (cn_obj _ _ _ _ _ _ HC)].
  - destruct (take_two kend kend_pos _ _ tf stack rest O) as (s1 & s2 & R1 & R2 & O2 & Htf & Hst & N & T & P & Q).
    assert (Hn : forall t, page kend t -> (t =? NULL) = false) by (intros t Ht; apply Z.eqb_neq; pose proof (page_pos kend kend_pos t Ht); unfold NULL; lia).
    rewrite Run. erewrite kbind_ret by (apply via_at; apply pm_op_ok; exact R1).
    erewrite kbind_ret by (apply via_at; apply setp_ok; cbn; apply lookup_insert_eq). rewrite (Hn tf Htf).
    erewrite kbind_ret by (apply via_at; apply pm_op_ok; exact R2). rewrite (Hn stack Hst). cbn [ps_procs put_procs put_pm]. rewrite insert_insert_eq.
    exact (create_rest_ok s (psof s) s2 L p r0 xs X i tf stack rest HC O2 T P Q Htf Hst N HL HO).
Qed.
End Create.

(** Process 1000 makes a process, its object at 9000; the page table of
    SpaceLife.v is the kernel's. *)
Definition create_start : psys :=
  mkPs life_pm (bits (boot_ids MAX_PID)) {[ 500 := Elem 0 1112; 1112 := Elem 500 516; 516 := Elem 1112 0 ]} {[ 1000 := life_caller ]} 1000 0.

Lemma demo_can_create : can_create 500 KERNBASE demo_root create_start 9000 [1000] ∅ 0 [demo_page1; demo_page2].
Proof.
  split.
  - apply life_space.
  - split; [reflexivity|reflexivity|by repeat split|..]; apply (bool_decide_unpack _); reflexivity.
  - intros a Ha. unfold links_in in Ha. repeat (apply elem_of_cons in Ha as [->|Ha]; [apply (bool_decide_unpack _); reflexivity|]).
    by apply elem_of_nil in Ha.
  - split; [done|]. split; [|reflexivity]. intros [Hp _]. discriminate Hp.
  - split; [by apply boot_bitmap|reflexivity].
  - destruct life_mem_ok as (_ & _ & P & _). change (pm_mem (ps_pm create_start)) with life_mem. by rewrite P.
  - done.
Qed.

Lemma process_create_outcomes_witness : let s := (create_start, mkSync ∅ ∅) in
  (0 <= 1)%nat /\ process_create (S := psys * syncst) 500 KERNBASE demo_root KERNBASE 7000 s = Panic "kpmfree" \/
  exists x', process_create (S := psys * syncst) 500 KERNBASE demo_root KERNBASE 7000 s = Ret (9000, lput x' s) /\
    created 500 7000 KERNBASE demo_root KERNBASE create_start 9000 (demo_sleeper ZIMBIE 0 0) [1000] ∅ 0 demo_page1 demo_page2 [] x'.
Proof.
  destruct demo_trapframe as (_ & Hk & _).
  apply (process_create_outcomes 500 7000 KERNBASE demo_root KERNBASE ltac:(done) Hk (create_start, mkSync ∅ ∅) (create_start, mkSync ∅ ∅) 9000
    (demo_sleeper ZIMBIE 0 0) [1000] ∅ 0 [demo_page1; demo_page2]); [reflexivity|exact demo_can_create|exact Logic.I|exact Logic.I|by intros a t []].
Defined.
