(* ===== verification/Syscall.v ===== *)
(** System calls: src/kernel/syscall.c, sysproc.c and sysfile.c.

    The arguments are in the trap frame of the running process. The handlers
    that need only the process and its address space run in the state of the
    process system; the others in that of the open files. [Scratch] is
    [kalloc] of bytes and its [kfree] (mode DEFAULT); [Printer] is where
    [printf] keeps [NumToChar] and what it has printed. *)
From S2P Require Import Prelude CString Bytes Spinlock DList Pm Vm Uvm Ids Proc Schedule Sleep Printf Virt Buf Fat32 Fs Console File Life.

Definition SYS_fork : Z := 1.
Definition SYS_exit : Z := 2.
Definition SYS_wait : Z := 3.
Definition SYS_read : Z := 5.
Definition SYS_exec : Z := 7.
Definition SYS_getpid : Z := 11.
Definition SYS_sbrk : Z := 12.
Definition SYS_open : Z := 15.
Definition SYS_write : Z := 16.
Definition SYS_close : Z := 21.
Definition SYS_create : Z := 22.

Definition STDOUT : Z := 1.
Definition STDERR : Z := 2.
Definition BUFLEN : Z := 1024.

(** Where the local arrays and the string "%s" are. *)
Record sframe : Type := mkSframe { sf_path : addr; sf_argv : addr; sf_uaddr : addr; sf_filename : addr; sf_lit_s : addr }.

Class Scratch (S : Type) : Type := { sc_alloc : Z -> K S addr; sc_free : addr -> K S unit }.
Class Printer (S : Type) : Type := { print_dev :: Lens S (list Z * list Z) }.

(** ** Arguments and user memory *)

Section Arguments.
Context (kend : Z) (ufuel : nat).

Definition argraw (n : Z) : K psys Z :=
  p <- cur_proc ;;
  match n with
  | 0 => tf_get tf_a0 p
  | 1 => tf_get tf_a1 p
  | 2 => tf_get tf_a2 p
  | 3 => tf_get tf_a3 p
  | 4 => tf_get tf_a4 p
  | 5 => tf_get tf_a5 p
  | _ => kpanic "argraw"
  end.
Definition argint (n : Z) : K psys Z := argraw n.
Definition argaddr (n : Z) : K psys Z := argraw n.

Definition transtr (addr buf size : Z) (direction : bool) : K psys Z :=
  p <- cur_proc ;;
  pt <- getp pagetable p ;;
  if direction then
    r <- pm_op (copyin ufuel pt buf addr size) ;; kret (if r <? 0 then -1 else 0)
  else
    r <- pm_op (copyout ufuel pt addr buf size) ;; kret (if r <? 0 then -1 else 0).

(** The loop of [transstr]; [n] is [maxlen - i]. *)
Fixpoint transstr_loop (n : nat) (p uaddr buf i maxlen : Z) : K psys Z :=
  match n with
  | O => pm_op (kmod (fun s => set_mem (st8 (pm_mem s) (buf + maxlen - 1) 0) s)) ;; kret 0
  | S n =>
      pt <- getp pagetable p ;;
      r <- pm_op (copyin 2 pt (buf + i) (u64 (uaddr + i)) 1) ;;
      if r <? 0 then kret (-1) else
      c <- pm_op (kget (fun s => ld8 (pm_mem s) (buf + i))) ;;
      if c =? 0 then kret 0 else
      transstr_loop n p uaddr buf (i + 1) maxlen
  end.
Definition transstr (uaddr buf maxlen : Z) : K psys Z :=
  p <- cur_proc ;; transstr_loop (Z.to_nat maxlen) p uaddr buf 0 maxlen.

Definition valid_user_arg (addr : Z) : K psys bool :=
  p <- cur_proc ;;
  if p =? NULL then kret false else
  pt <- getp pagetable p ;;
  if pt =? 0 then kret false else
  pte <- pm_op (walk pt addr false) ;;
  kret (negb (pte =? 0)).

Definition sys_getpid : K psys Z := p <- cur_proc ;; i <- getp pid p ;; kret (u64 i).

Definition incr_heap_space (incr : Z) : K psys Z :=
  p <- cur_proc ;;
  ret <- getp heap_end p ;;
  pt <- getp pagetable p ;;
  r <- pm_op (uvmalloc kend ufuel pt ret (u64 (ret + incr)) (Z.lor PTE_W PTE_V)) ;;
  if r =? 0 then kret (u64 (-1)) else
  setp (fun x => set_heap_end (u64 (heap_end x + incr)) x) p ;; kret ret.
Definition desc_heap_space (incr : Z) : K psys Z :=
  p <- cur_proc ;;
  ret <- getp heap_end p ;;
  pt <- getp pagetable p ;;
  r <- pm_op (uvmdealloc kend ufuel pt ret (u64 (ret + incr))) ;;
  if r =? 0 then kret (u64 (-1)) else
  setp (fun x => set_heap_end (u64 (heap_end x - incr)) x) p ;; kret ret.
Definition sys_sbrk : K psys Z :=
  p <- cur_proc ;;
  incr <- argint 0 ;;
  if incr =? 0 then getp heap_end p
  else if 0 <? incr then incr_heap_space incr
  else desc_heap_space (u64 (- incr)).
End Arguments.

(** ** Handlers *)

Section Handlers.
Context {S V : Type} `{Cache S} `{Pages S} `{Heap S} `{Terminal S V} `{Uart V} `{Sync S} `{ProcHeap S} `{Scratch S} `{Printer S}.
Context (fr : frame) (lf : lframe) (sf : sframe) (run_queue process_list : addr) (qfuel : nat) (swtch : K S unit) (ch_at lit_console : addr).
Context (kend kernel_pagetable trampoline usertrapret_at forkret_at : Z).
Context (fuel pfuel ufuel : nat).
#[local] Abbreviation F := (K (S * fsst)).
#[local] Abbreviation kern := (kern (V := V)).
#[local] Abbreviation arg n := (kern (argraw n)).

(** [printf], with the memory and the locks of the kernel. *)
Definition kprintf (fmt : addr) (ap : list Z) : K S unit :=
  zoom (fun s => let x := lget (T := psys) s in mkPr (pm_mem (ps_pm x)) (fst (lget s)) (snd (lget s)) (ps_lk x))
    (fun y s => let x := lget (T := psys) s in
      lput (pr_buf y, pr_out y) (lput (put_pm (set_mem (pr_mem y) (set_lk (pr_lk y) (ps_pm x))) x) s))
    (printf fuel fuel fmt ap).

(** The loop of [sys_exec] over the arguments; [false] is its [return -1]. *)
Fixpoint copy_args (n : nat) (uargv argbuf i : Z) : F bool :=
  match n with
  | O => kret true
  | Datatypes.S n =>
      r <- kern (transtr ufuel (u64 (uargv + 8 * i)) (sf_uaddr sf) 8 true) ;;
      if r <? 0 then kret false else
      uaddr <- pmem (V := V) (fun m => ld64 m (sf_uaddr sf)) ;;
      if uaddr =? 0 then pmem_set (V := V) (fun m => st64 m (sf_argv sf + 8 * i) 0) ;; kret true else
      let b := argbuf + MAXLEN * i in
      r <- kern (transstr uaddr b MAXLEN) ;;
      if r <? 0 then kret false else
      pmem_set (V := V) (fun m => st64 m (sf_argv sf + 8 * i) b) ;;
      copy_args n uargv argbuf (i + 1)
  end.
Definition sys_exec : F Z :=
  ufile <- arg 0 ;;
  uargv <- arg 1 ;;
  argbuf <- base (sc_alloc (MAXARG * MAXLEN)) ;;
  pmem_set (V := V) (fun m => memset m (sf_argv sf) 0 (8 * MAXARG)) ;;
  if argbuf =? NULL then kret (u64 (-1)) else
  r <- kern (transstr ufile (sf_path sf) MAXLEN) ;;
  if r <? 0 then base (sc_free argbuf) ;; kret (u64 (-1)) else
  b <- copy_args (Z.to_nat MAXARG) uargv argbuf 0 ;;
  if negb b then base (sc_free argbuf) ;; kret (u64 (-1)) else
  ok <- process_execute (V := V) fr lf run_queue qfuel swtch ch_at lit_console kend trampoline fuel pfuel ufuel (sf_path sf) (sf_argv sf) ;;
  base (sc_free argbuf) ;;
  if (ok : bool) then p <- kern cur_proc ;; kern (tf_get tf_a0 p) else kret (u64 (-1)).

(** [process_exit] does not return. *)
Definition sys_exit : F Z :=
  state <- arg 0 ;;
  process_exit (V := V) fr run_queue process_list qfuel swtch kend fuel state ;; kret 0.
Definition sys_fork : F Z :=
  r <- fork (V := V) run_queue process_list qfuel kend kernel_pagetable trampoline usertrapret_at forkret_at fuel ufuel ;; kret (u64 r).
Definition sys_wait : F Z :=
  i <- arg 0 ;;
  r <- base (process_wait process_list swtch kend kernel_pagetable fuel fuel (s32 i)) ;; kret (u64 r).

(** [wild] is what the uninitialised pointer of [createItemAt] holds. *)
Definition sys_create (wild : addr) : F Z :=
  path <- arg 0 ;;
  mode <- arg 1 ;;
  b <- kern (valid_user_arg path) ;;
  if negb b then kret (u64 (-1)) else
  r <- kern (transstr path (sf_filename sf) MAX_FILE_NAME_LEN) ;;
  if r <? 0 then kret (u64 (-1)) else
  p <- kern cur_proc ;;
  c <- filesys_create (V := V) fr fuel p (sf_filename sf) wild ;;
  kret (if (c : bool) then u64 (-1) else 0).

Definition sys_open : F Z :=
  path <- arg 0 ;;
  flags <- arg 1 ;;
  b <- kern (valid_user_arg path) ;;
  if negb b then kret (u64 (-1)) else
  r <- kern (transstr path (sf_filename sf) MAX_FILE_NAME_LEN) ;;
  if r <? 0 then kret (u64 (-1)) else
  p <- kern cur_proc ;;
  fd <- filesys_open (V := V) fr lit_console fuel p (sf_filename sf) flags ;;
  kret (u64 fd).

(** The [while] loop of [sys_write]: what it has written, unless a copy or a
    write fails. *)
Fixpoint write_loop (k : nat) (fd addr size buf total : Z) : F (option Z) :=
  match k with
  | O => knofuel
  | Datatypes.S k =>
      if total <? size then
        let n := Z.min (size - total) (BUFLEN - 1) in
        p <- kern cur_proc ;;
        pt <- kern (getp pagetable p) ;;
        r <- kern (pm_op (copyin ufuel pt buf (u64 (addr + total)) n)) ;;
        if r <? 0 then kret None else
        ok <- (if (fd =? STDOUT) || (fd =? STDERR) then
                 pmem_set (V := V) (fun m => st8 m (buf + n) 0) ;;
                 base (kprintf (sf_lit_s sf) [buf]) ;; kret true
               else
                 w <- filesys_write (V := V) fr ch_at fuel pfuel p fd buf n ;; kret (u64 w =? n)) ;;
        if negb ok then kret None else write_loop k fd addr size buf (total + n)
      else kret (Some total)
  end.
Definition sys_write : F Z :=
  fd <- arg 0 ;;
  addr <- arg 1 ;;
  size <- arg 2 ;;
  b <- kern (valid_user_arg addr) ;;
  if negb b then kret (u64 (-1)) else
  buf <- base (sc_alloc BUFLEN) ;;
  if buf =? NULL then kret (u64 (-1)) else
  r <- write_loop fuel fd addr size buf 0 ;;
  base (sc_free buf) ;;
  kret (match r with Some total => total | None => u64 (-1) end).

(** The [while] loop of [sys_read]. *)
Fixpoint read_loop (k : nat) (fd addr size buf total : Z) : F (option Z) :=
  match k with
  | O => knofuel
  | Datatypes.S k =>
      if total <? size then
        let n := Z.min (size - total) BUFLEN in
        p <- kern cur_proc ;;
        nread <- filesys_read (V := V) run_queue qfuel swtch ch_at fuel pfuel p fd buf n ;;
        let nread := u64 nread in
        if nread <=? 0 then kret (Some total) else
        pt <- kern (getp pagetable p) ;;
        r <- kern (pm_op (copyout ufuel pt (u64 (addr + total)) buf nread)) ;;
        if r <? 0 then kret None else
        let total := u64 (total + nread) in
        if nread <? n then kret (Some total) else read_loop k fd addr size buf total
      else kret (Some total)
  end.
Definition sys_read : F Z :=
  fd <- arg 0 ;;
  addr <- arg 1 ;;
  size <- arg 2 ;;
  b <- kern (valid_user_arg addr) ;;
  if negb b then kret (u64 (-1)) else
  buf <- base (sc_alloc BUFLEN) ;;
  if buf =? NULL then kret (u64 (-1)) else
  r <- read_loop fuel fd addr size buf 0 ;;
  base (sc_free buf) ;;
  kret (match r with Some total => total | None => u64 (-1) end).

Definition sys_close : F Z :=
  fd <- arg 0 ;;
  if fd <? 2 then kret (u64 (-1)) else
  p <- kern cur_proc ;;
  b <- filesys_close (V := V) fr fuel p fd ;;
  kret (if (b : bool) then 1 else 0).

(** ** The table and its use *)

(** The designated initialisers in the order of the numbers. *)
Definition syscalls (wild : addr) : list (option (F Z)) :=
  [None; Some sys_fork; Some sys_exit; Some sys_wait; None; Some sys_read; None; Some sys_exec; None; None; None;
   Some (kern sys_getpid); Some (kern (sys_sbrk kend ufuel)); None; None; Some sys_open; Some sys_write; None; None;
   None; None; Some sys_close; Some (sys_create wild)].

Definition syscall (wild : addr) : F unit :=
  p <- kern cur_proc ;;
  a7 <- kern (tf_get tf_a7 p) ;;
  let num := s32 a7 in
  let handler := if (0 <? num) && (num <? Z.of_nat (length (syscalls wild))) then mjoin (syscalls wild !! Z.to_nat num) else None in
  match handler with
  | Some h => r <- h ;; kern (tf_set tf_a0 r p)
  | None => kern (tf_set tf_a0 (u64 (-1)) p)
  end.

(** The value the call [num] returns: its handler's, or -1. *)
Definition dispatch (wild : addr) (num : Z) : F Z :=
  default (kret (u64 (-1)))
    (if (0 <? num) && (num <? Z.of_nat (length (syscalls wild))) then mjoin (syscalls wild !! Z.to_nat num) else None).
Lemma syscall_dispatch wild s : syscall wild s =
  (p <- kern cur_proc ;; a7 <- kern (tf_get tf_a7 p) ;; r <- dispatch wild (s32 a7) ;; kern (tf_set tf_a0 r p)) s.
Proof.
  unfold syscall, dispatch, kbind. destruct (kern cur_proc s) as [[p s1]| | | |]; [|done..].
  destruct (kern (tf_get tf_a7 p) s1) as [[a7 s2]| | | |]; [|done..]. by destruct (if _ : bool then _ else _).
Qed.
End Handlers.

(** ** Strings of the user *)

Definition with_mem (m : mem) (s : psys) : psys := put_pm (set_mem m (ps_pm s)) s.

(** The string at [va] of the address space [root]: the characters before its
    NUL, at most [n] of them; nothing when a page it needs is not the user's. *)
Fixpoint user_str (m : mem) (root va : Z) (n : nat) : option (list Z) :=
  match n with
  | O => Some []
  | S n =>
      if Vm.readable m root va then
        let c := ld8 m (uaddr m root va) in
        if c =? 0 then Some [] else cons c <$> user_str m root (va + 1) n
      else None
  end.

Section Strings.
Context (kend : Z) (kend_pos : 0 < kend).

(** One character. *)
Lemma copyin_char root dst va s : pt_ok kend (pm_mem s) root -> 0 <= va < MAXVA ->
  copyin 2 root dst va 1 s =
  if Vm.readable (pm_mem s) root va
  then Ret (0, set_mem (memmove (pm_mem s) dst (uaddr (pm_mem s) root va) 1) s) else Ret (-1, s).
Proof.
  intros Hok Hva. rewrite (copyin_page kend kend_pos) by done. destruct (part_spec va 1 Hva ltac:(lia)) as (Hp & Hp1 & _).
  by replace (part va 1) with 1 by lia.
Qed.
Lemma move_char m dst a b : ld8 (memmove m dst a 1) b = if b =? dst then ld8 m a else ld8 m b.
Proof.
  rewrite memmove_ld8 by lia. destruct (Z.leb_spec dst b), (Z.ltb_spec b (dst + 1)), (Z.eqb_spec b dst); cbn; try done; try lia.
  f_equal. lia.
Qed.

(** A buffer that a copy from the user may fill. *)
Record user_buffer (m : mem) (root va buf : Z) (n : Z) : Prop := {
  ub_pt : pt_ok kend m root;
  ub_range : 0 <= va /\ va + n <= MAXVA;
  ub_off : forall i, 0 <= i < n -> off_tables m root (buf + i);
  ub_sep : forall i j, 0 <= i < n -> 0 <= j < n -> Vm.readable m root (va + i) = true -> uaddr m root (va + i) <> buf + j
}.

Lemma user_str_ext m m' root va n : pt_ok kend m root -> (forall va, pte_of m' root va = pte_of m root va) ->
  (forall i, 0 <= i < Z.of_nat n -> Vm.readable m root (va + i) = true ->
     ld8 m' (uaddr m root (va + i)) = ld8 m (uaddr m root (va + i))) ->
  user_str m' root va n = user_str m root va n.
Proof.
  intros Hok Hp. revert va. induction n as [|n IH]; intros va Hb; [done|]. cbn [user_str].
  unfold Vm.readable, uaddr in *. rewrite Hp. destruct (has PTE_V (pte_of m root va) && has PTE_U (pte_of m root va)) eqn:E; [|done].
  assert (Hb0 := Hb 0 ltac:(lia)). rewrite !Z.add_0_r in Hb0. rewrite Hb0 by done. case_match; [done|]. f_equal. apply IH.
  intros i Hi. replace (va + 1 + i) with (va + (1 + i)) by lia. apply Hb. lia.
Qed.

(** Writes inside the buffer keep what the buffer needs, and the string. *)
Lemma user_buffer_ext m m' root va buf n : user_buffer m root va buf n ->
  (forall a, ~ (buf <= a < buf + n) -> ld8 m' a = ld8 m a) ->
  user_buffer m' root va buf n /\
  forall k i, 0 <= i -> i + Z.of_nat k <= n -> user_str m' root (va + i) k = user_str m root (va + i) k.
Proof.
  intros [U1 U2 U3 U4] He. destruct (off_tables_same kend m m' root U1) as (O & T & P).
  { intros a Ha. apply He. intros Hin. apply Ha. replace a with (buf + (a - buf)) by lia. apply U3. lia. }
  split.
  - split; [done|done|intros i Hi; unfold off_tables; rewrite T; by apply U3|].
    intros i j Hi Hj. unfold Vm.readable, uaddr. rewrite P. by apply U4.
  - intros k i Hi Hk. apply user_str_ext; [done|done|]. intros j Hj Hr. apply He. rewrite <- Z.add_assoc in *. intros Hin.
    apply (U4 (i + j) (uaddr m root (va + (i + j)) - buf)); [lia|lia|done|lia].
Qed.

Lemma transstr_loop_ok n : forall p r L s va buf maxlen,
  ps_procs s !! p = Some r -> Z.of_nat (length L + n) = maxlen -> 0 < maxlen -> user_buffer (pm_mem (ps_pm s)) (pagetable r) va buf maxlen ->
  bytes_at (pm_mem (ps_pm s)) buf L -> Forall (fun c => c <> 0) L ->
  exists x m, transstr_loop n p va buf (Z.of_nat (length L)) maxlen s = Ret (x, with_mem m s) /\
    (forall a, ~ (buf <= a < buf + maxlen) -> ld8 m a = ld8 (pm_mem (ps_pm s)) a) /\
    match user_str (pm_mem (ps_pm s)) (pagetable r) (va + Z.of_nat (length L)) n with
    | None => x = -1
    | Some l => x = 0 /\ cstr m buf (take (Z.to_nat (maxlen - 1)) (L ++ l))
    end.
Proof.
  induction n as [|n IH]; intros p r L s va buf maxlen Hr Hn Hm HU HL HF; cbn [transstr_loop user_str].
  - eexists 0, _. split; [reflexivity|]. split.
    + intros a Ha. rewrite ld8_st8_ne by lia. done.
    + split; [done|]. rewrite app_nil_r. apply cstr_bytes_at. rewrite length_take.
      split; [|split; [by apply Forall_take|]].
      * intros i c Hi. apply lookup_take_Some in Hi as [Hi Hlt]. rewrite ld8_st8_ne by lia. by apply HL.
      * replace (buf + Z.of_nat _) with (buf + maxlen - 1) by lia. apply ld8_st8_eq.
  - erewrite kbind_ret by by apply getp_ok.
    destruct HU as [U1 U2 U3 U4] eqn:EU. clear EU. set (i := Z.of_nat (length L)) in *. rewrite (u64_small (va + i)) by (change MAXVA with (2 ^ 38) in *; lia).
    assert (R := copyin_char (pagetable r) (buf + i) (va + i) (ps_pm s) U1 ltac:(lia)).
    destruct (Vm.readable (pm_mem (ps_pm s)) (pagetable r) (va + i)) eqn:ER.
    2:{ erewrite kbind_ret by (apply pm_op_ok; exact R). exists (-1), (pm_mem (ps_pm s)). split; [|by split].
        change (kret (-1) (put_pm (ps_pm s) s) = Ret (-1, with_mem (pm_mem (ps_pm s)) s)). unfold with_mem. by rewrite <- set_mem_id. }
    set (u := uaddr (pm_mem (ps_pm s)) (pagetable r) (va + i)) in *.
    set (m1 := memmove (pm_mem (ps_pm s)) (buf + i) u 1) in *. set (c := ld8 (pm_mem (ps_pm s)) u).
    erewrite kbind_ret by (apply pm_op_ok; exact R). cbn [Z.ltb Z.compare].
    assert (Hm1 : forall b, ld8 m1 b = if b =? buf + i then c else ld8 (pm_mem (ps_pm s)) b) by (intros b; apply move_char).
    erewrite kbind_ret by (apply pm_op_ok; reflexivity). cbn [pm_mem set_mem ps_pm put_pm].
    assert (HL1 : bytes_at m1 buf (L ++ [c])).
    { intros j d Hj. rewrite Hm1. apply lookup_app_Some in Hj as [Hj|[Hj Hd]].
      - apply lookup_lt_Some in Hj as Hlt. rewrite (proj2 (Z.eqb_neq _ _)) by lia. by apply HL.
      - apply list_lookup_singleton_Some in Hd as [Hd <-]. rewrite (proj2 (Z.eqb_eq _ _)) by lia. done. }
    rewrite Hm1, Z.eqb_refl. destruct (Z.eqb_spec c 0) as [Hc|Hc].
    + exists 0, m1. split; [reflexivity|]. split; [intros a Ha; rewrite Hm1, (proj2 (Z.eqb_neq _ _)) by lia; done|].
      split; [done|]. rewrite app_nil_r, take_ge by lia. apply cstr_bytes_at. split; [|split; [done|]].
      * intros j d Hj. apply HL1. rewrite lookup_app_l; [done|]. by eapply lookup_lt_Some.
      * rewrite <- Hc. apply HL1. rewrite lookup_app_r, Nat.sub_diag by lia. done.
    + destruct (user_buffer_ext (pm_mem (ps_pm s)) m1 (pagetable r) va buf maxlen) as [HU1 HS]; [by split|intros a Ha; rewrite Hm1, (proj2 (Z.eqb_neq _ _)) by lia; done|].
      destruct (IH p r (L ++ [c]) (with_mem m1 s) va buf maxlen Hr) as (x & m & Rx & Hx & HR); [rewrite length_app; cbn; lia|done|done|done|by apply Forall_app_2; [|apply Forall_singleton]|].
      rewrite length_app in Rx, HR. cbn [length] in Rx, HR. rewrite Nat2Z.inj_add in Rx, HR. fold i in Rx, HR. change (Z.of_nat 1) with 1 in *.
      exists x, m. split; [exact Rx|]. split.
      * intros a Ha. rewrite (Hx a Ha). cbn [with_mem ps_pm put_pm pm_mem set_mem]. rewrite Hm1, (proj2 (Z.eqb_neq _ _)) by lia. done.
      * cbn [with_mem ps_pm put_pm pm_mem set_mem] in HR. rewrite HS in HR by lia. rewrite <- Z.add_assoc.
        destruct (user_str (pm_mem (ps_pm s)) (pagetable r) (va + (i + 1)) n) as [l|]; cbn [fmap option_fmap option_map]; [|done].
        by rewrite <- app_assoc in HR.
Qed.

(** C37. [transstr] copies a string from the user: when the user's string is
    readable up to its NUL or for [maxlen] characters, the buffer holds, as a C
    string, its characters, cut to [maxlen - 1], and the result is 0; when a
    page before that is not the user's, the result is -1. No byte outside the
    buffer changes, and no lock. *)
Theorem transstr_copies_string s r va buf maxlen :
  ps_procs s !! ps_cur s = Some r -> 0 < maxlen -> user_buffer (pm_mem (ps_pm s)) (pagetable r) va buf maxlen ->
  exists x m, transstr va buf maxlen s = Ret (x, with_mem m s) /\
    (forall a, ~ (buf <= a < buf + maxlen) -> ld8 m a = ld8 (pm_mem (ps_pm s)) a) /\
    match user_str (pm_mem (ps_pm s)) (pagetable r) va (Z.to_nat maxlen) with
    | None => x = -1
    | Some l => x = 0 /\ cstr m buf (take (Z.to_nat (maxlen - 1)) l)
    end.
Proof.
  intros Hr Hm HU. destruct (transstr_loop_ok (Z.to_nat maxlen) (ps_cur s) r [] s va buf maxlen Hr) as (x & m & R & Hx & HR);
    [cbn; lia|done|done|by intros i c Hi|by constructor|]. exists x, m. cbn [length] in R, HR. rewrite Z.add_0_r in HR.
  split; [exact R|]. by split.
Qed.
End Strings.

(** ** The program break *)

Section Break.
Context (kend : Z) (kend_pos : 0 < kend).

(** The first argument of the call that process [r] makes. *)
Definition arg0 (s : psys) (r : proc) : Z := ld64 (pm_mem (ps_pm s)) (trapframe r + tf_off tf_a0).
Definition put_proc (r : proc) (s : psys) : psys := put_procs (<[ps_cur s := r]> (ps_procs s)) s.

Lemma argint_0 s r : ps_procs s !! ps_cur s = Some r -> argint 0 s = Ret (arg0 s r, s).
Proof.
  intros Hr. unfold argint, argraw. krun. unfold tf_get. erewrite kbind_ret by by apply getp_ok.
  change (pm_op (load64 (trapframe r + tf_off tf_a0)) s = Ret (arg0 s r, s)). unfold pm_op, load64, kget, zoom, arg0. by destruct s.
Qed.

(** [sys_sbrk] with a positive argument, by what [uvmalloc] does. *)
Lemma sys_sbrk_calls fuel s r : ps_procs s !! ps_cur s = Some r -> 0 < arg0 s r ->
  sys_sbrk kend fuel s =
  match uvmalloc kend fuel (pagetable r) (heap_end r) (u64 (heap_end r + arg0 s r)) (Z.lor PTE_W PTE_V) (ps_pm s) with
  | Ret (x, y) => if x =? 0 then Ret (u64 (-1), put_pm y s)
                  else Ret (heap_end r, put_proc (set_heap_end (u64 (heap_end r + arg0 s r)) r) (put_pm y s))
  | Panic e => Panic e | Fault => Fault | Spin => Spin | NoFuel => NoFuel
  end.
Proof.
  intros Hr Ha. unfold sys_sbrk. krun. erewrite kbind_ret by by apply argint_0.
  rewrite (proj2 (Z.eqb_neq _ 0)), (proj2 (Z.ltb_lt 0 _)) by lia. unfold incr_heap_space. krun.
  erewrite kbind_ret by by apply getp_ok. erewrite kbind_ret by by apply getp_ok. unfold kbind at 1, pm_op at 1, zoom at 1.
  destruct (uvmalloc _ _ _ _ _ _ _) as [[x y]| | | |]; [|done..]. destruct (x =? 0); [done|].
  erewrite kbind_ret by (apply setp_ok; exact Hr). by destruct r.
Qed.

(** C36. [sys_sbrk] with a positive argument grows the heap of the process or
    leaves it. Either it returns the old end of the heap, the end has moved by
    the argument, and every page up to it is mapped for the user to a cleared
    frame of its own; or it returns -1, the process is unchanged and no
    translation but those of the pages it had mapped is gone. No page of the
    machine is lost either way. *)
Theorem sys_sbrk_grows fuel s r free :
  ps_procs s !! ps_cur s = Some r -> vm_ok kend (ps_pm s) (pagetable r) free ->
  0 <= heap_end r -> 0 < arg0 s r -> heap_end r + arg0 s r <= MAXVA ->
  (forall va, PGROUNDUP (heap_end r) <= va -> va / PGSIZE * PGSIZE < heap_end r + arg0 s r ->
     has PTE_V (pte_of (pm_mem (ps_pm s)) (pagetable r) va) = false) ->
  2 * ((heap_end r + arg0 s r) / PGSIZE + 2) < Z.of_nat fuel ->
  let newsz := heap_end r + arg0 s r in let base := PGROUNDUP (heap_end r) in
  exists y free', 
    (sys_sbrk kend fuel s = Ret (heap_end r, put_proc (set_heap_end newsz r) (put_pm y s)) /\
       exists F, extended kend (pagetable r) base F (uflags (Z.lor PTE_W PTE_V)) (ps_pm s) free y free' /\
         base + Z.of_nat (length F) * PGSIZE = PGROUNDUP newsz) \/
    (sys_sbrk kend fuel s = Ret (u64 (-1), put_pm y s) /\ vm_ok kend y (pagetable r) free' /\
       tables (pm_mem y) (pagetable r) ++ free' ≡ₚ tables (pm_mem (ps_pm s)) (pagetable r) ++ free /\
       exists n, 0 <= n /\ base + n * PGSIZE < PGROUNDUP newsz /\
         forall va, 0 <= va < MAXVA ->
           pte_of (pm_mem y) (pagetable r) va = clear_range base n (pte_of (pm_mem (ps_pm s)) (pagetable r)) va).
Proof.
  intros Hr Hok H0 Ha HM Hun Hf newsz base. rewrite (sys_sbrk_calls fuel s r Hr Ha).
  rewrite u64_small by (change MAXVA with (2 ^ 38) in HM; lia).
  destruct (uvmalloc_ok kend kend_pos fuel (pagetable r) (heap_end r) newsz (Z.lor PTE_W PTE_V) (ps_pm s) free) as (x & y & free' & R & HR);
    [done|unfold newsz; lia|done|done|exact Hun|exact Hf|]. fold newsz. rewrite R. exists y, free'.
  destruct HR as [[-> HF]|(-> & V & P & _ & k & Hk & Hkb & HC)]; [left|right].
  - rewrite (proj2 (Z.eqb_neq newsz 0)) by (unfold newsz; lia). by split.
  - do 3 (split; [done|]). exists k. split; [done|]. split; [done|]. intros va Hva. apply HC. lia.
Qed.

(** Growing over a page that is mapped panics. *)
Lemma uvmalloc_remap fuel root oldsz newsz xperm s x free : vm_ok kend s root (x :: free) ->
  0 <= oldsz < newsz -> newsz <= MAXVA -> oldsz mod PGSIZE = 0 -> has PTE_V (pte_of (pm_mem s) root oldsz) = true ->
  uvmalloc kend (S fuel) root oldsz newsz xperm s = Panic "mappages: remap".
Proof.
  intros Hok Ho HM Hal HV. unfold uvmalloc. rewrite (proj2 (Z.ltb_ge _ _)) by lia.
  assert (HU : PGROUNDUP oldsz = oldsz).
  { rewrite PGROUNDUP_spec by (change MAXVA with (2 ^ 38) in HM; unfold PGSIZE; lia). unfold PGSIZE in *. dlia. }
  rewrite HU. cbn [uvmalloc_loop]. rewrite (proj2 (Z.ltb_lt _ _)) by lia.
  destruct (vm_alloc_page kend kend_pos s root x free Hok) as (s1 & R1 & O1 & B1 & Hx & N1).
  destruct (vm_write_page kend s1 root x (memset (pm_mem s1) x 0 PGSIZE) free O1 Hx N1) as [O2 B2]; [intros a Ha; by apply memset_out; [|lia]|].
  erewrite kbind_ret by exact R1. rewrite (proj2 (Z.eqb_neq x 0)) by (pose proof (page_pos kend kend_pos x Hx); lia).
  unfold fill at 1. krun. unfold kbind.
  erewrite (mappages_remap_panics kend kend_pos); [done|exact O2|exact Hal|lia|done|].
  by rewrite (b_pte _ _ _ _ _ B2), (b_pte _ _ _ _ _ B1).
Qed.

(** Shrinking the heap is not handled (sysproc.c:131): the argument is
    unsigned, so [sbrk(-n)] reaches [incr_heap_space], where [uvmalloc] sees a
    smaller size and does nothing. The end of the heap moves back by [n] with
    every page still mapped, and as soon as the process asks for memory again,
    with a page free, the kernel panics in [mappages]. *)
Theorem sbrk_shrink_then_grow_panics fuel s r n :
  ps_procs s !! ps_cur s = Some r -> 0 < n <= heap_end r -> heap_end r <= MAXVA -> arg0 s r = u64 (- n) ->
  let r' := set_heap_end (heap_end r - n) r in
  sys_sbrk kend fuel s = Ret (heap_end r, put_proc r' s) /\
  forall y x free, vm_ok kend y (pagetable r) (x :: free) -> (heap_end r - n) mod PGSIZE = 0 ->
    has PTE_V (pte_of (pm_mem y) (pagetable r) (heap_end r - n)) = true ->
    let s' := put_pm y (put_proc r' s) in
    0 < arg0 s' r' -> heap_end r - n + arg0 s' r' <= MAXVA ->
    sys_sbrk kend (S fuel) s' = Panic "mappages: remap".
Proof.
  intros Hr Hn HM Ha r'. assert (Eu : u64 (- n) = 2 ^ 64 - n).
  { unfold u64, wrap. rewrite <- (Z_mod_plus_full _ 1), Z.mul_1_l, Z.add_comm. apply Z.mod_small. change MAXVA with (2 ^ 38) in HM. lia. }
  assert (Es : u64 (heap_end r + arg0 s r) = heap_end r - n).
  { rewrite Ha, Eu. unfold u64, wrap. replace (heap_end r + (2 ^ 64 - n)) with (heap_end r - n + 1 * 2 ^ 64) by lia.
    rewrite Z_mod_plus_full. apply Z.mod_small. change MAXVA with (2 ^ 38) in HM. lia. }
  assert (Hpos : 0 < arg0 s r) by (rewrite Ha, Eu; change MAXVA with (2 ^ 38) in HM; lia). split.
  - rewrite (sys_sbrk_calls fuel s r Hr Hpos), Es. unfold uvmalloc at 1. rewrite (proj2 (Z.ltb_lt _ _)) by lia. unfold kret.
    rewrite (proj2 (Z.eqb_neq (heap_end r) 0)) by lia. by destruct s.
  - intros y x free Hok Hal HV s' Hp HM'.
    assert (Hr' : ps_procs s' !! ps_cur s' = Some r') by apply lookup_insert_eq.
    assert (Er : pagetable r' = pagetable r /\ heap_end r' = heap_end r - n) by (unfold r'; by destruct r). destruct Er as [Ep Eh].
    rewrite (sys_sbrk_calls (S fuel) s' r' Hr' Hp), Ep, Eh, u64_small by (change MAXVA with (2 ^ 38) in HM'; lia).
    rewrite (uvmalloc_remap fuel (pagetable r) _ _ _ y x free Hok); [done|lia|done|done|done].
Qed.
End Break.

(** ** A process and its calls *)

(** Process 1000 with the page table at [demo_root], its trap frame at
    [demo_buffer]; the memory and the first argument are given. *)
Definition demo_caller (heap : Z) : proc :=
  set_heap_end heap (set_trapframe demo_buffer (set_pagetable demo_root (demo_sleeper RUNNING 1 0))).
Definition demo_call (pm : pmst) (heap a0 : Z) : psys :=
  mkPs (set_mem (st64 (pm_mem pm) (demo_buffer + tf_off tf_a0) a0) pm) [] ∅ {[ 1000 := demo_caller heap ]} 1000 0.

Lemma demo_arg0 pm heap a0 : arg0 (demo_call pm heap a0) (demo_caller heap) = u64 a0.
Proof. apply ld64_st64_eq. Qed.

Lemma transstr_copies_string_witness :
  exists x m, transstr 0x1010 (demo_buffer + 2048) 32 (demo_call demo_user 0 0) = Ret (x, with_mem m (demo_call demo_user 0 0)) /\
    (forall a, ~ (demo_buffer + 2048 <= a < demo_buffer + 2048 + 32) -> ld8 m a = ld8 (pm_mem (ps_pm (demo_call demo_user 0 0))) a) /\
    match user_str (pm_mem (ps_pm (demo_call demo_user 0 0))) demo_root 0x1010 32 with
    | None => x = -1
    | Some l => x = 0 /\ cstr m (demo_buffer + 2048) (take 31 l)
    end.
Proof.
  assert (Hw : forall a, a < demo_buffer \/ demo_buffer + PGSIZE <= a -> ld8 (pm_mem (ps_pm (demo_call demo_user 0 0))) a = ld8 demo_mapped a).
  { intros a Ha. cbn [demo_call ps_pm set_mem pm_mem demo_user]. with_strategy transparent [st64] (unfold st64). apply ld8_stn_other.
    change (tf_off tf_a0) with 112. change (Z.of_nat 8) with 8. unfold PGSIZE in Ha. lia. }
  destruct demo_mapped_ok as (O & _ & _).
  destruct (off_tables_same KERNBASE demo_mapped (pm_mem (ps_pm (demo_call demo_user 0 0))) demo_root O) as (O' & T & P).
  { intros a Ha. apply Hw. destruct (Z.lt_ge_cases a demo_buffer); [by left|right]. destruct (Z.lt_ge_cases a (demo_buffer + PGSIZE)); [|done].
    destruct Ha. apply demo_off_tables. unfold demo_buffer, demo_root, PGSIZE in *. lia. }
  apply (transstr_copies_string KERNBASE ltac:(done) (demo_call demo_user 0 0) (demo_caller 0) 0x1010 (demo_buffer + 2048) 32).
  - reflexivity.
  - done.
  - change (pagetable (demo_caller 0)) with demo_root. generalize dependent (pm_mem (ps_pm (demo_call demo_user 0 0))). intros m1 Hw O' T P. split; [exact O'|split; [lia|discriminate]| |].
    + intros i Hi. unfold off_tables. rewrite T. apply demo_off_tables.
      unfold demo_buffer, demo_root, PGSIZE. lia.
    + intros i j Hi Hj _. unfold uaddr. rewrite P. fold (uaddr demo_mapped demo_root (0x1010 + i)).
      rewrite (proj2 (proj2 (demo_uaddr (0x1010 + i) ltac:(lia)))). unfold Vm.demo_frame, demo_buffer, PGSIZE. lia.
Defined.

Lemma demo_call_vm a0 : vm_ok KERNBASE (ps_pm (demo_call demo_pm 0 a0)) demo_root [demo_page1; demo_page2] /\
  forall va, pte_of (pm_mem (ps_pm (demo_call demo_pm 0 a0))) demo_root va = 0.
Proof.
  destruct (vm_ok_off KERNBASE demo_pm demo_root [demo_page1; demo_page2] (pm_mem (ps_pm (demo_call demo_pm 0 a0))) demo_vm_ok) as [V P].
  - intros a t Ht Hta. cbn [demo_call ps_pm set_mem pm_mem]. with_strategy transparent [st64] (unfold st64). apply ld8_stn_other.
    change (tf_off tf_a0) with 112. change (Z.of_nat 8) with 8.
    destruct (pt_empty KERNBASE (pm_mem demo_pm) demo_root) as (_ & T & _); [done|apply demo_entries|]. rewrite T in Ht.
    cbn [app] in Ht. rewrite !elem_of_cons, elem_of_nil in Ht. unfold demo_root, demo_page1, demo_page2, demo_buffer, PGSIZE in *. lia.
  - split; [exact V|]. intros va. rewrite P. apply demo_unmapped.
Qed.

Lemma sys_sbrk_grows_witness :
  exists y free',
    (sys_sbrk KERNBASE 7 (demo_call demo_pm 0 5000) = Ret (0, put_proc (set_heap_end 5000 (demo_caller 0)) (put_pm y (demo_call demo_pm 0 5000))) /\
       exists F, extended KERNBASE demo_root 0 F (uflags (Z.lor PTE_W PTE_V)) (ps_pm (demo_call demo_pm 0 5000)) [demo_page1; demo_page2] y free' /\
         0 + Z.of_nat (length F) * PGSIZE = 8192) \/
    (sys_sbrk KERNBASE 7 (demo_call demo_pm 0 5000) = Ret (u64 (-1), put_pm y (demo_call demo_pm 0 5000)) /\ vm_ok KERNBASE y demo_root free' /\
       tables (pm_mem y) demo_root ++ free' ≡ₚ tables (pm_mem (ps_pm (demo_call demo_pm 0 5000))) demo_root ++ [demo_page1; demo_page2] /\
       exists n, 0 <= n /\ 0 + n * PGSIZE < 8192 /\
         forall va, 0 <= va < MAXVA ->
           pte_of (pm_mem y) demo_root va = clear_range 0 n (pte_of (pm_mem (ps_pm (demo_call demo_pm 0 5000))) demo_root) va).
Proof.
  destruct (demo_call_vm 5000) as [V P]. assert (Ha : arg0 (demo_call demo_pm 0 5000) (demo_caller 0) = 5000) by apply demo_arg0.
  assert (T := sys_sbrk_grows KERNBASE ltac:(done) 7 (demo_call demo_pm 0 5000) (demo_caller 0) [demo_page1; demo_page2]).
  rewrite Ha in T. apply T; [reflexivity|exact V|done|done|done| |reflexivity].
  intros va _ _. change (pagetable (demo_caller 0)) with demo_root. by rewrite P.
Defined.

Lemma sbrk_shrink_then_grow_panics_witness :
  let s := demo_call demo_user 0x2000 (- 0x1000) in let r' := set_heap_end 0x1000 (demo_caller 0x2000) in
  sys_sbrk KERNBASE 7 s = Ret (0x2000, put_proc r' s) /\
  forall y x free, vm_ok KERNBASE y demo_root (x :: free) -> 0x1000 mod PGSIZE = 0 ->
    has PTE_V (pte_of (pm_mem y) demo_root 0x1000) = true ->
    let s' := put_pm y (put_proc r' s) in
    0 < arg0 s' r' -> 0x1000 + arg0 s' r' <= MAXVA -> sys_sbrk KERNBASE 8 s' = Panic "mappages: remap".
Proof.
  apply (sbrk_shrink_then_grow_panics KERNBASE ltac:(done) 7 (demo_call demo_user 0x2000 (- 0x1000)) (demo_caller 0x2000) 0x1000).
  - reflexivity.
  - done.
  - done.
  - apply demo_arg0.
Defined.
