(* ===== verification/Trap.v ===== *)
(** Traps and the return to user mode: src/kernel/trap.c, plic.c and timer.c,
    the registers of src/include/riscv.h, and [forkret] and [run_first_task] of
    proc.c, with the self-test of fs.c that the latter runs.

    The SIE bit of [sstatus] and the hart's number are in the lock state; the
    other control registers and [ticks] are in [csr]. The interrupt controller
    ([Mmio]), the clock ([Clock]) and the disk ([DiskIrq]) are parameters. The
    jump to [userret], which does not come back, is the pair of the address
    called and its argument. *)
From S2P Require Import Prelude CString Bytes Spinlock DList Pm Vm Uvm Ids Proc Schedule Sleep Printf Virt Buf Fat32 Fs Console File Life Syscall.

Definition SSTATUS_SPP : Z := Z.shiftl 1 8.
Definition SSTATUS_SPIE : Z := Z.shiftl 1 5.
Definition SSTATUS_SIE : Z := Z.shiftl 1 1.
Definition SIP_SSIP : Z := Z.shiftl 1 1.
Definition VIRTIO0_IRQ : Z := 1.
Definition PLIC_SENABLE (hartid : Z) : Z := PLIC + 0x2080 + hartid * 0x100.
Definition PLIC_STHRESHOLD (hartid : Z) : Z := PLIC + 0x201000 + hartid * 0x2000.
Definition PLIC_SCLAIM (hartid : Z) : Z := PLIC + 0x201004 + hartid * 0x2000.
Definition INTERVAL : Z := 1000000.
Definition CLOCK_PER_USEC : Z := 10.

(** [sstatus] without its SIE bit. *)
Record csr : Type := mkCsr {
  sstatus : Z; sepc : Z; scause : Z; stval : Z; stvec : Z; sip : Z; satp : Z; ticks : Z
}.
Definition set_sstatus (x : Z) (c : csr) : csr := mkCsr x (sepc c) (scause c) (stval c) (stvec c) (sip c) (satp c) (ticks c).
Definition set_sepc (x : Z) (c : csr) : csr := mkCsr (sstatus c) x (scause c) (stval c) (stvec c) (sip c) (satp c) (ticks c).
Definition set_stvec (x : Z) (c : csr) : csr := mkCsr (sstatus c) (sepc c) (scause c) (stval c) x (sip c) (satp c) (ticks c).
Definition set_sip (x : Z) (c : csr) : csr := mkCsr (sstatus c) (sepc c) (scause c) (stval c) (stvec c) x (satp c) (ticks c).
Definition set_ticks (x : Z) (c : csr) : csr := mkCsr (sstatus c) (sepc c) (scause c) (stval c) (stvec c) (sip c) (satp c) x.

Class Mmio (S : Type) : Type := { mm_load : Z -> K S Z; mm_store : Z -> Z -> K S unit }.
Class Clock (S : Type) : Type := { rdtime : K S Z; sbi_set_timer : Z -> K S unit }.
Class DiskIrq (S : Type) : Type := { disk_irq : K S unit }.

(** The hart: its control registers next to the process system. *)
Class Hart (S : Type) `{Sync S} : Type := {
  hart_csr :: Lens S csr;
  csr_of_ps (x : psys) (s : S) : lget (T := csr) (lput x s) = lget (T := csr) s;
  ps_of_csr (x : csr) (s : S) : lget (T := psys) (lput x s) = lget (T := psys) s
}.

(** The addresses of the assembly and of the strings. *)
Record tframe : Type := mkTframe {
  at_trampoline : Z; at_uservec : Z; at_userret : Z; at_kernelvec : Z; at_usertrap : Z;
  lit_irq : addr; lit_scause : addr; lit_sepc : addr
}.

(** ** Registers, the clock and the interrupt controller *)

Section Registers.
Context {S : Type} `{Sync S} `{!Hart S} `{Mmio S} `{Clock S}.

Definition rd (f : csr -> Z) : K S Z := via (kget f).
Definition wr (f : csr -> csr) : K S unit := via (kmod f).
Definition r_sstatus : K S Z :=
  x <- rd sstatus ;; i <- via (lock_op intr_get) ;; kret (Z.lor x (if i then SSTATUS_SIE else 0)).
Definition w_sstatus (x : Z) : K S unit :=
  wr (set_sstatus (Z.ldiff x SSTATUS_SIE)) ;; via (lock_op (kmod (on_cpu (set_sie (Z.testbit x 1))))).
Definition r_tp : K S Z := via (lock_op (kget hartid)).

Definition get_timerstamp : K S Z := rdtime.
Definition get_time : K S Z := t <- get_timerstamp ;; kret (t / CLOCK_PER_USEC).
Definition clock_init : K S unit := t <- get_timerstamp ;; sbi_set_timer (u64 (t + INTERVAL)).
Definition clock_intr : K S unit := t <- get_timerstamp ;; sbi_set_timer (u64 (t + INTERVAL)).

Definition plicinit : K S unit := mm_store (PLIC + VIRTIO0_IRQ * 4) 1.
Definition plicinithart (hart : Z) : K S unit :=
  mm_store (PLIC_SENABLE hart) (Z.shiftl 1 VIRTIO0_IRQ) ;; mm_store (PLIC_STHRESHOLD hart) 0.
Definition plic_claim : K S Z := h <- r_tp ;; irq <- mm_load (PLIC_SCLAIM (s32 h)) ;; kret (s32 irq).
Definition plic_complete (irq : Z) : K S unit := h <- r_tp ;; mm_store (PLIC_SCLAIM (s32 h)) (u32 irq).

Definition trapinit : K S unit := via (lock_op (initlock ticks_lock)).
Definition trapinithart (tf : tframe) : K S unit := wr (set_stvec (at_kernelvec tf)).
End Registers.

(** ** Traps *)

Section Traps.
Context {S : Type} `{Sync S} `{!Hart S} `{Mmio S} `{Clock S} `{DiskIrq S} `{Printer S}.
Context (tf : tframe) (run_queue : addr) (qfuel fuel : nat) (swtch : K S unit).

(** A timer interrupt: the next one, and the count of ticks on hart 0. *)
Definition tick : K S unit :=
  clock_intr ;;
  h <- r_tp ;;
  kwhen (h =? 0)
    (via (lock_op (acquire ticks_lock)) ;;
     wr (fun c => set_ticks (u32 (ticks c + 1)) c) ;;
     via (lock_op (release ticks_lock))).

Definition dev_intr : K S Z :=
  cause <- rd scause ;;
  if cause =? 0x8000000000000001 then
    wr (fun c => set_sip (Z.ldiff (sip c) SIP_SSIP) c) ;;
    tick ;; kret 2
  else if cause =? 0x8000000000000009 then
    irq <- plic_claim ;;
    if irq =? VIRTIO0_IRQ then disk_irq ;; plic_complete irq ;; kret 1
    else if irq =? 0 then plic_complete irq ;; kret 1
    else kprintf fuel (lit_irq tf) [irq] ;; kret 0
  else if cause =? 0x8000000000000005 then tick ;; kret 2
  else kret 0.

(** What a timer interrupt costs the running process. *)
Definition preempt (which_dev : Z) : K S unit :=
  p <- via cur_proc ;;
  kwhen ((which_dev =? 2) && negb (p =? NULL))
    (via (setp (fun r => set_vruntime (u64 (vruntime r + 100)) r) p) ;; yield run_queue swtch qfuel).

Definition kerneltrap : K S unit :=
  epc <- rd sepc ;;
  status <- r_sstatus ;;
  kwhen (Z.land status SSTATUS_SPP =? 0) (kpanic "kerneltrap->the interrupt source is not from S mode") ;;
  i <- via (lock_op intr_get) ;;
  kwhen i (kpanic "kerneltrap->interrupt enabled") ;;
  which_dev <- dev_intr ;;
  kwhen (which_dev =? 0) (kpanic "kerneltrap") ;;
  preempt which_dev ;;
  wr (set_sepc epc) ;;
  w_sstatus status.

Definition usertrapret : K S (Z * Z) :=
  p <- via cur_proc ;;
  via (lock_op intr_off) ;;
  wr (set_stvec (u64 (TRAMPOLINE + (at_uservec tf - at_trampoline tf)))) ;;
  x <- rd satp ;;
  via (tf_set kernel_satp x p) ;;
  ks <- via (getp kstack p) ;;
  via (tf_set kernel_sp (u64 (ks + PGSIZE)) p) ;;
  via (tf_set kernel_trap (at_usertrap tf) p) ;;
  h <- r_tp ;;
  via (tf_set kernel_hartid h p) ;;
  x <- r_sstatus ;;
  w_sstatus (Z.lor (Z.ldiff x SSTATUS_SPP) SSTATUS_SPIE) ;;
  e <- via (tf_get epc p) ;;
  wr (set_sepc e) ;;
  pt <- via (getp pagetable p) ;;
  kret (u64 (TRAMPOLINE + (at_userret tf - at_trampoline tf)), MAKE_SATP pt).

Definition forkret : K S (Z * Z) :=
  p <- via cur_proc ;;
  via (lock_op (release (proc_lock p))) ;;
  usertrapret.
End Traps.

(** ** From user mode *)

Section User.
Context {S V : Type} `{Cache S} `{Pages S} `{Heap S} `{Terminal S V} `{Uart V} `{Sync S} `{ProcHeap S} `{Scratch S} `{Printer S}
  `{!Hart S} `{Mmio S} `{Clock S} `{DiskIrq S}.
Context (fr : frame) (lf : lframe) (sf : sframe) (tf : tframe) (run_queue process_list : addr) (qfuel : nat) (swtch : K S unit) (ch_at lit_console : addr).
Context (kend kernel_pagetable trampoline usertrapret_at forkret_at wild : Z).
Context (fuel pfuel ufuel : nat).
#[local] Abbreviation F := (K (S * fsst)).

Definition usertrap : F (Z * Z) :=
  p <- base (via cur_proc) ;;
  status <- base r_sstatus ;;
  kwhen (negb (Z.land status SSTATUS_SPP =? 0)) (kpanic "usertrap: not from user mode") ;;
  base (wr (set_stvec (at_kernelvec tf))) ;;
  pc <- base (rd sepc) ;;
  base (via (tf_set epc pc p)) ;;
  cause <- base (rd scause) ;;
  which_dev <- (if cause =? 8 then
      pc <- base (via (tf_get epc p)) ;;
      base (via (tf_set epc (u64 (pc + 4)) p)) ;;
      base (via (lock_op intr_on)) ;;
      syscall (V := V) fr lf sf run_queue process_list qfuel swtch ch_at lit_console kend kernel_pagetable trampoline
        usertrapret_at forkret_at fuel pfuel ufuel wild ;;
      kret 0
    else
      d <- base (dev_intr tf fuel) ;;
      if negb (d =? 0) then kret d else
      i <- base (via (getp pid p)) ;;
      cause <- base (rd scause) ;;
      base (kprintf fuel (lit_scause tf) [cause; i]) ;;
      pc <- base (rd sepc) ;;
      v <- base (rd stval) ;;
      base (kprintf fuel (lit_sepc tf) [pc; v]) ;;
      kret 0) ;;
  base (preempt run_queue qfuel swtch which_dev) ;;
  base (usertrapret tf).

(** The static buffer and the strings of [fat32Test] and of [run_first_task]. *)
Record firsts : Type := mkFirsts { test_buf : addr; lit_text : addr; lit_fmt : addr; lit_str : addr; lit_init : addr; at_argv : addr }.
Context (ft : firsts).

Definition fat32Test : F unit :=
  file <- get_file fr fuel NULL (lit_text ft) ;;
  kassert (negb (file =? NULL)) ;;
  n <- getd d_size file ;;
  r <- fileread fuel file (test_buf ft) 0 n ;;
  kassert (0 <=? r) ;;
  base (kprintf fuel (lit_fmt ft) [test_buf ft]) ;;
  k <- res_k (fun m => strlen fuel m (lit_str ft)) ;;
  r <- filewrite fr fuel file (lit_str ft) 0 (u32 (k + 1)) ;;
  kassert (0 <=? r) ;;
  n <- getd d_size file ;;
  r <- fileread fuel file (test_buf ft) 0 n ;;
  kassert (0 <=? r) ;;
  k <- res_k (fun m => strlen fuel m (lit_str ft)) ;;
  c <- the_mem (fun m => strncmp m (test_buf ft) (lit_str ft) k) ;;
  kassert (c =? 0).

(** [sbi_shutdown] does not return. *)
Definition run_first_task : F (Z * Z) :=
  p <- base (via cur_proc) ;;
  base (via (lock_op (release (proc_lock p)))) ;;
  i <- base (via (lock_op intr_get)) ;;
  kassert i ;;
  filesys_init (V := V) fr fuel ;;
  fat32Test ;;
  pmem_set (V := V) (fun m => st64 (st64 m (at_argv ft) (lit_init ft)) (at_argv ft + 8) 0) ;;
  ok <- process_execute (V := V) fr lf run_queue qfuel swtch ch_at lit_console kend trampoline fuel pfuel ufuel (lit_init ft) (at_argv ft) ;;
  if (ok : bool) then base (usertrapret tf) else kpanic "sbi_shutdown".
End User.

(** ** The return to user mode *)

(** A word of the trap frame of [r]. *)
Definition tf_at (m : mem) (r : proc) (k : tf_reg) : Z := ld64 m (trapframe r + tf_off k).
Lemma tf_get_ok k p x r : ps_procs x !! p = Some r -> tf_get k p x = Ret (tf_at (pm_mem (ps_pm x)) r k, x).
Proof.
  intros Hr. unfold tf_get. erewrite kbind_ret by by apply getp_ok. unfold pm_op, load64, kget, zoom, tf_at. by destruct x.
Qed.
Lemma tf_set_ok k v p x r : ps_procs x !! p = Some r ->
  tf_set k v p x = Ret (tt, with_mem (st64 (pm_mem (ps_pm x)) (trapframe r + tf_off k) v) x).
Proof. intros Hr. unfold tf_set. by erewrite kbind_ret by by apply getp_ok. Qed.
Lemma tf_at_other m r k k' v : k <> k' -> tf_at (st64 m (trapframe r + tf_off k') v) r k = tf_at m r k.
Proof. intros Hk. unfold tf_at. apply ld64_st64_other. destruct (tf_off_disjoint k k' Hk); lia. Qed.
Lemma tf_at_same m r k v : tf_at (st64 m (trapframe r + tf_off k) v) r k = u64 v.
Proof. apply ld64_st64_eq. Qed.

Section Return.
Context {S : Type} `{Sync S} `{!Hart S}.
Context (tf : tframe).
#[local] Abbreviation psof := (lget (T := psys)).
#[local] Abbreviation csrof := (lget (T := csr)).

(** The memory with the words that the next trap finds in the trap frame. *)
Definition kernel_words (x : psys) (c : csr) (r : proc) : mem :=
  let at_ k := trapframe r + tf_off k in
  st64 (st64 (st64 (st64 (pm_mem (ps_pm x)) (at_ kernel_satp) (satp c)) (at_ kernel_sp) (u64 (kstack r + PGSIZE)))
    (at_ kernel_trap) (at_usertrap tf)) (at_ kernel_hartid) (hartid (ps_lk x)).
(** The hart about to execute [userret] for [r]: the process system and the
    control registers. *)
Definition leaving_ps (x : psys) (c : csr) (r : proc) : psys :=
  with_mem (kernel_words x c r) (put_lk (on_cpu (set_sie false) (ps_lk x)) x).
Definition leaving_csr (x : psys) (c : csr) (r : proc) : csr :=
  mkCsr (Z.ldiff (Z.lor (Z.ldiff (sstatus c) SSTATUS_SPP) SSTATUS_SPIE) SSTATUS_SIE) (tf_at (pm_mem (ps_pm x)) r epc)
    (scause c) (stval c) (u64 (TRAMPOLINE + (at_uservec tf - at_trampoline tf))) (sip c) (satp c) (ticks c).

(** [m] returns [a] and leaves the hart at [x] and [c]. *)
Definition runs {A} (m : K S A) (s : S) (a : A) (x : psys) (c : csr) : Prop :=
  exists s', m s = Ret (a, s') /\ psof s' = x /\ csrof s' = c.
Lemma runs_ret {A} (a : A) s : runs (kret a) s a (psof s) (csrof s).
Proof. by exists s. Qed.
Lemma runs_bind {A B} (m : K S A) (k : A -> K S B) s a x c b x' c' :
  runs m s a x c -> (forall s', psof s' = x -> csrof s' = c -> runs (k a) s' b x' c') -> runs (kbind m k) s b x' c'.
Proof. intros (s' & R & <- & <-) Hk. destruct (Hk s' eq_refl eq_refl) as (s2 & R2 & H2). exists s2. split; [|done]. by erewrite kbind_ret by exact R. Qed.
Lemma runs_ps {A} (m : K psys A) s a x : m (psof s) = Ret (a, x) -> runs (via m) s a x (csrof s).
Proof. intros E. exists (lput x s). split; [by apply via_ret|]. split; [apply lget_lput|apply csr_of_ps]. Qed.
Lemma runs_wr f s : runs (wr f) s tt (psof s) (f (csrof s)).
Proof. eexists. split; [by apply via_ret|]. split; [apply ps_of_csr|apply lget_lput]. Qed.
Lemma runs_rd f s : runs (rd f) s (f (csrof s)) (psof s) (csrof s).
Proof. exists s. split; [|done]. unfold rd. erewrite via_ret by reflexivity. by rewrite lput_lget. Qed.
Lemma r_sstatus_ok s : r_sstatus s =
  Ret (Z.lor (sstatus (csrof s)) (if sie (hcpu (ps_lk (psof s))) then SSTATUS_SIE else 0), s).
Proof.
  unfold r_sstatus. erewrite kbind_ret by (unfold rd; erewrite via_ret by reflexivity; by rewrite lput_lget).
  erewrite kbind_ret.
  2:{ rewrite (via_read (lock_op intr_get) s (sie (hcpu (ps_lk (psof s))))); [reflexivity|].
      erewrite lock_op_ok by reflexivity. by rewrite put_lk_id. }
  done.
Qed.
Lemma lock_op_mod f x : lock_op (kmod f) x = Ret (tt, put_lk (f (ps_lk x)) x).
Proof. by apply lock_op_ok. Qed.
Lemma w_sstatus_ok v s : runs (w_sstatus v) s tt (put_lk (on_cpu (set_sie (Z.testbit v 1)) (ps_lk (psof s))) (psof s))
  (set_sstatus (Z.ldiff v SSTATUS_SIE) (csrof s)).
Proof.
  unfold w_sstatus. eapply runs_bind; [apply runs_wr|]. intros s' Ex Ec. destruct (runs_ps (lock_op (kmod (on_cpu (set_sie (Z.testbit v 1))))) s' tt _ (lock_op_mod _ _)) as (s2 & R & E1 & E2).
  exists s2. split; [exact R|]. by rewrite E1, E2, Ex, Ec.
Qed.
Lemma runs_tp s : runs r_tp s (hartid (ps_lk (psof s))) (psof s) (csrof s).
Proof.
  exists s. split; [|done]. unfold r_tp. apply via_read. erewrite lock_op_ok by reflexivity. by rewrite put_lk_id.
Qed.

#[local] Arguments Z.testbit : simpl never.
#[local] Arguments Z.lor : simpl never.
#[local] Arguments Z.ldiff : simpl never.
#[local] Arguments tf_off : simpl never.
(** Runs the first operation by [tac], from the state that [E] and [C] describe. *)
Tactic Notation "step_to" tactic3(tac) :=
  lazymatch goal with
  | E : lget (T := psys) ?s = _, C : lget (T := csr) ?s = _ |- runs _ ?s _ _ _ =>
      eapply runs_bind; [tac|];
      let s' := fresh "s" in let E' := fresh "E'" in let C' := fresh "C'" in
      intros s' E' C'; rewrite ?E in E'; rewrite ?C in C'; rewrite ?E; rewrite ?C; clear E C; cbn in E', C'; rename E' into E; rename C' into C;
      cbn [ps_lk ps_pm pm_lk hcpu hartid sie ps_cur satp sstatus set_stvec]
  end.

Lemma usertrapret_ok s r : ps_procs (psof s) !! ps_cur (psof s) = Some r -> Z.testbit (sstatus (csrof s)) 1 = false ->
  runs (usertrapret tf) s (u64 (TRAMPOLINE + (at_userret tf - at_trampoline tf)), MAKE_SATP (pagetable r))
    (leaving_ps (psof s) (csrof s) r) (leaving_csr (psof s) (csrof s) r).
Proof.
  intros Hr Hb. destruct (psof s) as [[m [h u l] f] ids L P q mv] eqn:E. destruct (csrof s) as [ss se sc sv st si sa tk] eqn:C. cbn in Hr, Hb.
  assert (Hp : forall y, ps_procs y = P -> ps_procs y !! q = Some r) by (by intros y ->).
  unfold usertrapret.
  step_to (apply runs_ps; by rewrite E). step_to (apply runs_ps, lock_op_mod). step_to (apply runs_wr). step_to (apply runs_rd).
  step_to (apply runs_ps; rewrite E; apply tf_set_ok; by apply Hp). step_to (apply runs_ps; rewrite E; apply getp_ok; by apply Hp).
  step_to (apply runs_ps; rewrite E; apply tf_set_ok; by apply Hp). step_to (apply runs_ps; rewrite E; apply tf_set_ok; by apply Hp).
  step_to (apply runs_tp). step_to (apply runs_ps; rewrite E; apply tf_set_ok; by apply Hp).
  step_to (eexists; split; [apply r_sstatus_ok|done]). rewrite Z.lor_0_r.
  step_to (apply w_sstatus_ok). step_to (apply runs_ps; rewrite E; apply tf_get_ok; by apply Hp).
  step_to (apply runs_wr). step_to (apply runs_ps; rewrite E; apply getp_ok; by apply Hp).
  eexists. split; [reflexivity|]. rewrite E, C. clear - Hb. split.
  - unfold leaving_ps, kernel_words. cbn. by rewrite Z.lor_spec, Z.ldiff_spec, Hb.
  - unfold leaving_csr. cbn [sstatus scause stval sip satp ticks ps_pm pm_mem set_sepc]. f_equal. rewrite !tf_at_other by done. done.
Qed.
End Return.

(** ** A system call, from the trap to the return *)

Section Ecall.
Context {S V : Type} `{Cache S} `{Pages S} `{Heap S} `{Terminal S V} `{Uart V} `{Sync S} `{ProcHeap S} `{Scratch S} `{Printer S}
  `{!Hart S} `{Mmio S} `{Clock S} `{DiskIrq S}.
(** The terminal and the locks see the same process system. *)
Context (one_ps : @term_ps S V _ = @sync_ps S _).
Context (fr : frame) (lf : lframe) (sf : sframe) (tf : tframe) (run_queue process_list : addr) (qfuel : nat) (swtch : K S unit) (ch_at lit_console : addr).
Context (kend kernel_pagetable trampoline usertrapret_at forkret_at wild : Z).
Context (fuel pfuel ufuel : nat).
#[local] Abbreviation trap := (usertrap (V := V) fr lf sf tf run_queue process_list qfuel swtch ch_at lit_console kend kernel_pagetable
  trampoline usertrapret_at forkret_at wild fuel pfuel ufuel).
#[local] Abbreviation call := (dispatch (V := V) fr lf sf run_queue process_list qfuel swtch ch_at lit_console kend kernel_pagetable
  trampoline usertrapret_at forkret_at fuel pfuel ufuel wild).
#[local] Abbreviation psof := (lget (T := psys) (Lens := sync_ps)).
#[local] Abbreviation csrof := (lget (T := csr)).

(** The state in which the handler runs: traps go to the kernel, interrupts are
    on, and the saved pc is past the [ecall]. *)
Definition entered_ps (x : psys) (pc : Z) (r : proc) : psys :=
  let a := trapframe r + tf_off epc in
  put_lk (on_cpu (set_sie true) (ps_lk x)) (with_mem (st64 (st64 (pm_mem (ps_pm x)) a pc) a (u64 (pc + 4))) x).
Definition entered (b : S) (r : proc) : S :=
  lput (entered_ps (psof b) (sepc (csrof b)) r) (lput (set_stvec (at_kernelvec tf) (csrof b)) b).

(** The hart goes to user mode at [pc], in the address space of [r], with the
    registers of the trap frame in the memory [m] and [a0 = x]; the next trap
    will find the kernel. *)
Record resumes (m : mem) (r : proc) (pc x : Z) (b : S) : Prop := {
  re_mode : Z.land (sstatus (csrof b)) SSTATUS_SPP = 0 /\ Z.land (sstatus (csrof b)) SSTATUS_SPIE <> 0 /\ sie (hcpu (ps_lk (psof b))) = false;
  re_pc : sepc (csrof b) = pc;
  re_vec : stvec (csrof b) = u64 (TRAMPOLINE + (at_uservec tf - at_trampoline tf));
  re_a0 : tf_at (pm_mem (ps_pm (psof b))) r tf_a0 = u64 x;
  re_regs : forall k, k ∉ [tf_a0; kernel_satp; kernel_sp; kernel_trap; kernel_hartid] -> tf_at (pm_mem (ps_pm (psof b))) r k = tf_at m r k;
  re_kernel : tf_at (pm_mem (ps_pm (psof b))) r kernel_sp = u64 (kstack r + PGSIZE) /\
    tf_at (pm_mem (ps_pm (psof b))) r kernel_trap = u64 (at_usertrap tf) /\
    tf_at (pm_mem (ps_pm (psof b))) r kernel_satp = u64 (satp (csrof b)) /\
    tf_at (pm_mem (ps_pm (psof b))) r kernel_hartid = u64 (hartid (ps_lk (psof b)))
}.

Lemma leaving_resumes m r x y c b : psof b = leaving_ps tf (with_mem (st64 m (trapframe r + tf_off tf_a0) x) y) c r ->
  csrof b = leaving_csr tf (with_mem (st64 m (trapframe r + tf_off tf_a0) x) y) c r -> resumes m r (tf_at m r epc) x b.
Proof.
  intros Ex Ec. split; rewrite ?Ex, ?Ec; unfold leaving_ps, leaving_csr, kernel_words; cbn [sstatus sepc stvec satp ps_pm pm_mem with_mem put_pm set_mem ps_lk put_lk set_lk pm_lk hartid on_cpu hcpu set_sie sie].
  - split; [|split; [|done]].
    + apply Z.bits_inj_0. intros i. rewrite Z.land_spec, Z.ldiff_spec, Z.lor_spec, Z.ldiff_spec.
      destruct (Z.testbit SSTATUS_SPP i) eqn:E; [|by rewrite andb_false_r].
      assert (Z.testbit SSTATUS_SPIE i = false) as ->; [|by rewrite andb_false_r].
      unfold SSTATUS_SPP, SSTATUS_SPIE in *. destruct (Z.lt_ge_cases i 0); [by rewrite Z.testbit_neg_r in E|].
      rewrite Z.shiftl_mul_pow2, Z.mul_1_l, Z.pow2_bits_eqb in * by lia. apply Z.eqb_eq in E as <-. done.
    + intros E. apply (f_equal (fun z => Z.testbit z 5)) in E. rewrite Z.land_spec, Z.ldiff_spec, Z.lor_spec in E.
      change (Z.testbit SSTATUS_SPIE 5) with true in E. change (Z.testbit SSTATUS_SIE 5) with false in E.
      rewrite orb_true_r in E. done.
  - apply tf_at_other. done.
  - done.
  - rewrite !tf_at_other by done. apply tf_at_same.
  - intros k Hk. rewrite !not_elem_of_cons in Hk. destruct Hk as (K1 & K2 & K3 & K4 & K5 & _). rewrite !tf_at_other by done. done.
  - split_and!; rewrite ?tf_at_other by done; rewrite tf_at_same; by rewrite ?u64_idem.
Qed.

(** Up to the handler. *)
Lemma usertrap_enters b t r : ps_procs (psof b) !! ps_cur (psof b) = Some r -> Z.land (sstatus (csrof b)) SSTATUS_SPP = 0 ->
  scause (csrof b) = 8 -> 0 <= sepc (csrof b) < 2 ^ 64 ->
  trap (b, t) = (syscall (V := V) fr lf sf run_queue process_list qfuel swtch ch_at lit_console kend kernel_pagetable trampoline
      usertrapret_at forkret_at fuel pfuel ufuel wild ;;
    base (preempt run_queue qfuel swtch 0) ;; base (usertrapret tf)) (entered b r, t).
Proof.
  intros Hr Hs Hc Hpc. set (x := psof b) in *. set (p := ps_cur x) in *. unfold usertrap.
  assert (Hrd : forall f (b : S), rd f b = Ret (f (csrof b), b)) by (intros f b0; destruct (runs_rd f b0) as (? & R & _); unfold rd in *; erewrite via_ret by reflexivity; by rewrite lput_lget).
  erewrite kbind_ret by (apply base_ok; by apply via_read).
  erewrite kbind_ret by (apply base_ok; apply r_sstatus_ok). fold x.
  rewrite Z.land_lor_distr_l, Hs. replace (Z.land (if sie (hcpu (ps_lk x)) then SSTATUS_SIE else 0) SSTATUS_SPP) with 0 by (by destruct (sie _)).
  change (Z.lor 0 0 =? 0) with true. cbn [negb kwhen]. krun.
  erewrite kbind_ret by (apply base_ok; by apply via_ret). set (b1 := lput (set_stvec (at_kernelvec tf) (csrof b)) b).
  assert (E1 : psof b1 = x) by apply ps_of_csr. assert (C1 : csrof b1 = set_stvec (at_kernelvec tf) (csrof b)) by apply lget_lput.
  change (lput _ b) with b1. erewrite kbind_ret by (apply base_ok; apply Hrd). rewrite C1. cbn [sepc set_stvec].
  set (pc := sepc (csrof b)) in *.
  erewrite kbind_ret by (apply base_ok; apply via_ok; rewrite E1; by apply tf_set_ok).
  set (x2 := with_mem (st64 (pm_mem (ps_pm x)) (trapframe r + tf_off epc) pc) x). erewrite kbind_ret by (apply base_ok; apply Hrd).
  rewrite csr_of_ps, C1. cbn [scause set_stvec]. rewrite Hc. change (8 =? 8) with true. cbv iota.
  rewrite kbind_assoc. erewrite kbind_ret by (apply base_ok; apply via_read; rewrite lget_lput; by apply tf_get_ok).
  assert (Epc : tf_at (pm_mem (ps_pm x2)) r epc = pc) by (unfold x2; cbn [ps_pm with_mem put_pm pm_mem set_mem]; rewrite tf_at_same; by apply u64_small).
  rewrite kbind_assoc, Epc. erewrite kbind_ret by (apply base_ok; apply via_ok; rewrite lget_lput; by apply tf_set_ok). rewrite lput_lput.
  rewrite kbind_assoc. erewrite kbind_ret by (apply base_ok; apply via_ok; rewrite lget_lput; by apply lock_op_mod). rewrite lput_lput.
  rewrite kbind_assoc. reflexivity.
Qed.

Lemma kern_ps {A} (m : K psys A) (b : S) (t : fsst) a x : m (psof b) = Ret (a, x) -> kern (V := V) m (b, t) = Ret (a, (lput x b, t)).
Proof. intros E. unfold kern. apply base_ok. rewrite one_ps. by apply via_ret. Qed.

(** The call itself, in the state where it runs. *)
Lemma syscall_returns b t r b2 t2 x r2 : ps_procs (psof b) !! ps_cur (psof b) = Some r ->
  call (s32 (tf_at (pm_mem (ps_pm (psof b))) r tf_a7)) (entered b r, t) = Ret (x, (b2, t2)) ->
  ps_procs (psof b2) !! ps_cur (psof b) = Some r2 ->
  syscall (V := V) fr lf sf run_queue process_list qfuel swtch ch_at lit_console kend kernel_pagetable trampoline
      usertrapret_at forkret_at fuel pfuel ufuel wild (entered b r, t) =
  Ret (tt, (lput (with_mem (st64 (pm_mem (ps_pm (psof b2))) (trapframe r2 + tf_off tf_a0) x) (psof b2)) b2, t2)).
Proof.
  intros Hr Hcall Hr2. rewrite syscall_dispatch.
  assert (E1 : psof (entered b r) = entered_ps (psof b) (sepc (csrof b)) r) by apply lget_lput.
  erewrite kbind_ret by (apply kern_ps; rewrite E1; reflexivity).
  assert (Eb : lput (entered_ps (psof b) (sepc (csrof b)) r) (entered b r) = entered b r) by apply lput_lput. rewrite Eb.
  assert (Ha7 : tf_at (pm_mem (ps_pm (entered_ps (psof b) (sepc (csrof b)) r))) r tf_a7 = tf_at (pm_mem (ps_pm (psof b))) r tf_a7).
  { unfold entered_ps. cbn [ps_pm pm_mem put_lk set_lk put_pm with_mem set_mem]. rewrite !tf_at_other by done. done. }
  erewrite kbind_ret by (apply kern_ps; rewrite E1; by apply tf_get_ok). rewrite Eb, Ha7.
  erewrite kbind_ret by exact Hcall. by apply kern_ps, tf_set_ok.
Qed.

(** C10. A system call comes back. A user program that executes [ecall], with
    the number of the call in [a7], is resumed in user mode at the instruction
    after it, in its own address space, with what the handler returned in [a0]
    and every other register as the handler left it in the trap frame; a number
    with no handler returns -1. The handler is one of the table, run with
    interrupts on and the saved pc already past the [ecall]. *)
Theorem usertrap_syscall b t r b2 t2 x r2 :
  ps_procs (psof b) !! ps_cur (psof b) = Some r -> Z.land (sstatus (csrof b)) SSTATUS_SPP = 0 ->
  scause (csrof b) = 8 -> 0 <= sepc (csrof b) < 2 ^ 64 ->
  call (s32 (tf_at (pm_mem (ps_pm (psof b))) r tf_a7)) (entered b r, t) = Ret (x, (b2, t2)) ->
  ps_cur (psof b2) = ps_cur (psof b) -> ps_procs (psof b2) !! ps_cur (psof b) = Some r2 -> Z.testbit (sstatus (csrof b2)) 1 = false ->
  exists b3, trap (b, t) = Ret ((u64 (TRAMPOLINE + (at_userret tf - at_trampoline tf)), MAKE_SATP (pagetable r2)), (b3, t2)) /\
    resumes (pm_mem (ps_pm (psof b2))) r2 (tf_at (pm_mem (ps_pm (psof b2))) r2 epc) x b3.
Proof.
  intros Hr Hs Hc Hpc Hcall Hcur Hr2 Hbit. rewrite (usertrap_enters b t r Hr Hs Hc Hpc).
  erewrite kbind_ret by exact (syscall_returns b t r b2 t2 x r2 Hr Hcall Hr2).
  set (y := with_mem (st64 (pm_mem (ps_pm (psof b2))) (trapframe r2 + tf_off tf_a0) x) (psof b2)). set (b2' := lput y b2).
  assert (Ey : psof b2' = y) by apply lget_lput.
  erewrite kbind_ret.
  2:{ apply base_ok. unfold preempt. erewrite kbind_ret by by apply via_read. reflexivity. }
  destruct (usertrapret_ok tf b2' r2) as (b3 & R & E3 & C3).
  - rewrite Ey. change (ps_procs (psof b2) !! ps_cur (psof b2) = Some r2). by rewrite Hcur.
  - unfold b2'. by rewrite csr_of_ps.
  - exists b3. split; [by apply base_ok|]. rewrite Ey in E3, C3. by apply (leaving_resumes _ _ _ (psof b2) (csrof b2')).
Qed.

(** The calls that have no handler. *)
Lemma dispatch_none num s : num ∉ [SYS_fork; SYS_exit; SYS_wait; SYS_read; SYS_exec; SYS_getpid; SYS_sbrk; SYS_open; SYS_write; SYS_close; SYS_create] ->
  call num s = Ret (u64 (-1), s).
Proof.
  intros Hn. unfold dispatch. destruct ((0 <? num) && _) eqn:E; [|done]. apply andb_true_iff in E as [E1%Z.ltb_lt E2%Z.ltb_lt].
  cbn [length syscalls] in E2. rewrite !not_elem_of_cons in Hn. unfold SYS_fork, SYS_exit, SYS_wait, SYS_read, SYS_exec, SYS_getpid, SYS_sbrk, SYS_open, SYS_write, SYS_close, SYS_create in Hn.
  assert (Hi : num ∈ [4; 6; 8; 9; 10; 13; 14; 17; 18; 19; 20]).
  { rewrite !elem_of_cons. change (Z.of_nat 23) with 23 in E2. lia. }
  rewrite !elem_of_cons in Hi. repeat destruct Hi as [->|Hi]; try reflexivity. by apply elem_of_nil in Hi.
Qed.
End Ecall.

(** ** Traps from the kernel *)

(** The clock answers and keeps the deadline it is given; neither touches the
    kernel. *)
Class ClockLaws (S : Type) `{Hart S} `{!Clock S} : Type := {
  deadline : S -> Z;
  rdtime_ok s : exists t s', rdtime s = Ret (t, s') /\ lget (T := psys) s' = lget s /\ lget (T := csr) s' = lget s;
  set_timer_ok t s : exists s', sbi_set_timer t s = Ret (tt, s') /\ lget (T := psys) s' = lget s /\ lget (T := csr) s' = lget s /\ deadline s' = t;
  deadline_ps x s : deadline (lput (T := psys) x s) = deadline s;
  deadline_csr x s : deadline (lput (T := csr) x s) = deadline s
}.

Section Kernel.
Context {S : Type} `{Sync S} `{!Hart S} `{Mmio S} `{!Clock S} `{DiskIrq S} `{Printer S} `{!ClockLaws S}.
Context (tf : tframe) (run_queue : addr) (qfuel fuel : nat) (swtch : K S unit).
#[local] Abbreviation psof := (lget (T := psys)).
#[local] Abbreviation csrof := (lget (T := csr)).
#[local] Abbreviation ktrap := (kerneltrap tf run_queue qfuel fuel swtch).

Lemma rd_ok f (s : S) : rd f s = Ret (f (csrof s), s).
Proof. unfold rd. erewrite via_ret by reflexivity. by rewrite lput_lget. Qed.
Lemma intr_get_ok (s : S) : via (lock_op intr_get) s = Ret (sie (hcpu (ps_lk (psof s))), s).
Proof. apply via_read. erewrite lock_op_ok by reflexivity. by rewrite put_lk_id. Qed.

(** The end of [kerneltrap]. *)
Lemma restore_ok e v (s : S) : Z.testbit v 1 = false ->
  exists s', (wr (set_sepc e) ;; w_sstatus v) s = Ret (tt, s') /\ csrof s' = set_sstatus v (set_sepc e (csrof s)) /\
    psof s' = put_lk (on_cpu (set_sie false) (ps_lk (psof s))) (psof s) /\ deadline s' = deadline s.
Proof.
  intros Hv. set (c' := set_sepc e (csrof s)). set (x' := put_lk (on_cpu (set_sie false) (ps_lk (psof s))) (psof s)).
  set (s1 := lput c' s). set (s2 := lput (set_sstatus (Z.ldiff v SSTATUS_SIE) c') s1).
  assert (E2 : psof s2 = psof s) by (unfold s2, s1; by rewrite !ps_of_csr).
  exists (lput x' s2). split; [|split; [|split; [apply lget_lput|unfold s2, s1; by rewrite deadline_ps, !deadline_csr]]].
  { erewrite kbind_ret by (unfold wr; by apply via_ret). unfold w_sstatus, wr. fold c' s1.
    erewrite kbind_ret by (apply via_ret; unfold s1 at 1; rewrite lget_lput; reflexivity). fold s2.
    apply via_ok. rewrite Hv, E2. apply lock_op_mod. }
  rewrite csr_of_ps. unfold s2. rewrite lget_lput. f_equal.
  apply Z.bits_inj'. intros i Hi. rewrite Z.ldiff_spec. destruct (Z.eq_dec i 1) as [->|Hne]; [by rewrite Hv|].
  unfold SSTATUS_SIE. rewrite Z.shiftl_mul_pow2, Z.mul_1_l, Z.pow2_bits_eqb by lia. rewrite (proj2 (Z.eqb_neq 1 i)) by lia. apply andb_true_r.
Qed.

Lemma clock_intr_ok (s : S) : exists t s', clock_intr s = Ret (tt, s') /\ psof s' = psof s /\ csrof s' = csrof s /\ deadline s' = u64 (t + INTERVAL).
Proof.
  destruct (rdtime_ok s) as (t & s1 & R1 & E1 & C1). destruct (set_timer_ok (u64 (t + INTERVAL)) s1) as (s2 & R2 & E2 & C2 & D2).
  exists t, s2. split; [unfold clock_intr, get_timerstamp; by erewrite kbind_ret by exact R1|]. by rewrite E2, C2, E1, C1, D2.
Qed.

(** The count of ticks is hart 0's. *)
Definition ticked (h : Z) (c : csr) : csr := if h =? 0 then set_ticks (u32 (ticks c + 1)) c else c.
Lemma tick_ok (s : S) : lock_free ticks_lock (ps_lk (psof s)) -> cpu_ok (hcpu (ps_lk (psof s))) ->
  exists t l s', tick s = Ret (tt, s') /\ psof s' = put_lk l (psof s) /\ lk_restored (ps_lk (psof s)) l /\
    csrof s' = ticked (hartid (ps_lk (psof s))) (csrof s) /\ deadline s' = u64 (t + INTERVAL).
Proof.
  intros Hf Hc. destruct (clock_intr_ok s) as (t & s1 & R1 & E1 & C1 & D1). unfold tick. rewrite <- E1 in *. rewrite <- C1.
  exists t. unfold ticked. destruct (hartid (ps_lk (psof s1)) =? 0) eqn:Eh.
  2:{ exists (ps_lk (psof s1)), s1. rewrite put_lk_id. split; [|split; [done|split; [apply lk_restored_refl|done]]].
      erewrite kbind_ret by exact R1. erewrite kbind_ret by (apply via_read; erewrite lock_op_ok by reflexivity; by rewrite put_lk_id).
      by rewrite Eh. }
  destruct (lock_enter ticks_lock (psof s1) Hf) as (l1 & RL1 & EL1).
  destruct (lock_leave ticks_lock (ps_lk (psof s1)) (put_lk l1 (psof s1)) Hf Hc EL1) as (l2 & RL2 & K2).
  set (s2 := lput (put_lk l1 (psof s1)) s1). set (s3 := lput (set_ticks (u32 (ticks (csrof s1) + 1)) (csrof s1)) s2).
  assert (E3 : psof s3 = put_lk l1 (psof s1)) by (unfold s3; rewrite ps_of_csr; apply lget_lput).
  exists l2, (lput (put_lk l2 (psof s1)) s3). split; [|split; [apply lget_lput|split; [exact K2|split]]].
  - erewrite kbind_ret by exact R1. erewrite kbind_ret by (apply via_read; erewrite lock_op_ok by reflexivity; by rewrite put_lk_id).
    rewrite Eh. cbn [kwhen]. erewrite kbind_ret by exact (via_ok _ _ _ _ RL1). fold s2.
    erewrite kbind_ret; [|apply via_ret; unfold s2; rewrite csr_of_ps; reflexivity]. apply via_ok. fold s3. rewrite E3. exact RL2.
  - rewrite csr_of_ps. unfold s3. apply lget_lput.
  - rewrite deadline_ps. unfold s3, s2. by rewrite deadline_csr, deadline_ps.
Qed.

(** A clock interrupt, from the timer or passed on as a software interrupt,
    whose pending bit is cleared. *)
Definition clock_trap (c : csr) : Prop := scause c = 0x8000000000000005 \/ scause c = 0x8000000000000001.
Definition acked (c : csr) : csr := if scause c =? 0x8000000000000001 then set_sip (Z.ldiff (sip c) SIP_SSIP) c else c.

Lemma dev_intr_clock (s : S) : clock_trap (csrof s) -> lock_free ticks_lock (ps_lk (psof s)) -> cpu_ok (hcpu (ps_lk (psof s))) ->
  exists t l s', dev_intr tf fuel s = Ret (2, s') /\ psof s' = put_lk l (psof s) /\ lk_restored (ps_lk (psof s)) l /\
    csrof s' = ticked (hartid (ps_lk (psof s))) (acked (csrof s)) /\ deadline s' = u64 (t + INTERVAL).
Proof.
  intros Hc Hf Hk. unfold dev_intr. erewrite kbind_ret by apply rd_ok. unfold acked. destruct Hc as [Hc|Hc]; rewrite Hc; cbn [Z.eqb Pos.eqb].
  - destruct (tick_ok s Hf Hk) as (t & l & s1 & R1 & E1). exists t, l, s1. by erewrite kbind_ret by exact R1.
  - set (c' := set_sip _ _). assert (Ew : wr (fun c => set_sip (Z.ldiff (sip c) SIP_SSIP) c) s = Ret (tt, lput c' s)) by (unfold wr; by apply via_ret).
    erewrite kbind_ret by exact Ew. destruct (tick_ok (lput c' s)) as (t & l & s1 & R1 & E1); [by rewrite ps_of_csr..|].
    rewrite !ps_of_csr, lget_lput in E1. exists t, l, s1. by erewrite kbind_ret by exact R1.
Qed.

(** Up to the preemption. *)
Lemma kerneltrap_enters (s s1 : S) d : Z.land (sstatus (csrof s)) SSTATUS_SPP <> 0 -> sie (hcpu (ps_lk (psof s))) = false ->
  dev_intr tf fuel s = Ret (d, s1) -> d <> 0 ->
  ktrap s = (preempt run_queue qfuel swtch d ;; wr (set_sepc (sepc (csrof s))) ;; w_sstatus (sstatus (csrof s))) s1.
Proof.
  intros Hp Es Hd Hn. unfold kerneltrap. erewrite kbind_ret by apply rd_ok. erewrite kbind_ret by apply r_sstatus_ok.
  rewrite Es, Z.lor_0_r, (proj2 (Z.eqb_neq _ 0)) by exact Hp. krun. erewrite kbind_ret by apply intr_get_ok. rewrite Es. krun.
  erewrite kbind_ret by exact Hd. rewrite (proj2 (Z.eqb_neq d 0)) by exact Hn. by krun.
Qed.

(** A critical section that is over leaves a running process running. *)
Lemma active_restored p q (x : psys) l : lk_restored (ps_lk x) l -> active run_queue qfuel p q x -> active run_queue qfuel p q (put_lk l x).
Proof.
  intros K [[Hq Hf Hk] Hc Hn Hl Hsz]. split; [split; [done| |]|done| | |done].
  - by eapply lk_restored_free.
  - by eapply lk_restored_ok.
  - cbn. by destruct K as (_ & -> & _).
  - cbn. intros p' Hp'. eapply lk_restored_free; [exact K|by apply Hl].
Qed.
Lemma sie_off_id (x : psys) : sie (hcpu (ps_lk x)) = false -> put_lk (on_cpu (set_sie false) (ps_lk x)) x = x.
Proof. destruct x as [[m [h [n i e] ls] f] ? ? ? ? ?]. cbn. by intros ->. Qed.

(** The running process is charged for its slice and yields. *)
Lemma preempt_ok p q r (s : S) : active run_queue qfuel p q (psof s) -> ps_procs (psof s) !! p = Some r -> in_run_queue r = false ->
  exists x : psys, given_back run_queue qfuel p x /\ ps_procs x = <[p := yielded (min_vruntime (psof s)) (charged r)]> (ps_procs (psof s)) /\
    queue run_queue (ps_links x) (ps_procs x) (min_vruntime x) (cfs_insert (ps_procs x) p q) /\
    forall s2, swtch (lput x s) = Ret (tt, s2) -> handed run_queue qfuel p (psof s2) ->
      exists y : psys, preempt run_queue qfuel swtch 2 s = Ret (tt, lput y s2) /\ ps_procs y = ps_procs (psof s2) /\
        sie (hcpu (ps_lk y)) = sie (hcpu (ps_lk (psof s))) /\
        forall q2, queue run_queue (ps_links (psof s2)) (ps_procs (psof s2)) (min_vruntime (psof s2)) q2 -> active run_queue qfuel p q2 y.
Proof.
  intros [[Hq Hf Hk] Hc Hn Hl Hsz] Hr Hin. pose proof (not_queued _ _ _ _ _ _ _ Hq Hr Hin) as Hni.
  set (x0 := put_procs (<[p := charged r]> (ps_procs (psof s))) (psof s)). set (s0 := lput x0 s).
  assert (E0 : psof s0 = x0) by apply lget_lput.
  assert (Ha : active run_queue qfuel p q (psof s0)).
  { rewrite E0. split; [split; [|done|done]|done|done| |].
    - apply (queue_set_unqueued run_queue _ _ _ _ _ r); [done..|]. by destruct r.
    - cbn. intros p' Hp'. apply Hl. by apply (is_some_set_proc _ p r (charged r)).
    - cbn. by rewrite (size_set_proc _ _ r). }
  assert (Hr0 : ps_procs (psof s0) !! p = Some (charged r)) by (rewrite E0; apply lookup_insert_eq).
  destruct (yield_hands_over run_queue qfuel p q s0 (charged r) Ha Hr0) as (x & Hg & HP & Hqx & Hrest).
  rewrite E0 in HP. cbn [x0 ps_procs put_procs min_vruntime] in HP. rewrite insert_insert_eq in HP.
  exists x. split; [done|]. split; [exact HP|]. split.
  { unfold yielded_queue in Hqx. by replace (in_run_queue (charged r)) with false in Hqx by by destruct r. }
  intros s2 Hsw Hh. destruct (Hrest swtch s2) as (y & Ry & Py & Sy & Ay); [unfold s0; by rewrite lput_lput|done|].
  rewrite E0 in Sy. exists y. split; [|done]. unfold preempt.
  erewrite kbind_ret by by apply via_read. rewrite Hc.
  assert (Hp0 : p <> NULL) by (intros ->; unfold NULL in Hr; by rewrite (q_null _ _ _ _ _ Hq) in Hr).
  rewrite (proj2 (Z.eqb_neq p NULL)) by exact Hp0. change (2 =? 2) with true. cbn [negb andb kwhen].
  erewrite kbind_ret by (apply via_ok; by apply setp_ok). exact Ry.
Qed.

End Kernel.

(** ** A small machine *)

(** A kernel with its locks, one hart and its clock; no disk, no file and no
    terminal. *)
Record board : Type := mkBoard { bo_ps : psys; bo_sy : syncst; bo_csr : csr; bo_time : Z; bo_cmp : Z; bo_out : list Z * list Z }.

#[local] Instance board_sync : Sync board.
Proof.
  unshelve refine {|
    sync_ps := {| lget := bo_ps; lput := fun x s => mkBoard x (bo_sy s) (bo_csr s) (bo_time s) (bo_cmp s) (bo_out s) |};
    sync_st := {| lget := bo_sy; lput := fun x s => mkBoard (bo_ps s) x (bo_csr s) (bo_time s) (bo_cmp s) (bo_out s) |} |}; try done; by intros [].
Defined.
#[local] Instance board_hart : Hart board.
Proof.
  unshelve refine {| hart_csr := {| lget := bo_csr; lput := fun x s => mkBoard (bo_ps s) (bo_sy s) x (bo_time s) (bo_cmp s) (bo_out s) |} |};
    try done; by intros [].
Defined.
#[local] Instance board_printer : Printer board.
Proof.
  constructor. by refine {| lget := bo_out; lput := fun x s => mkBoard (bo_ps s) (bo_sy s) (bo_csr s) (bo_time s) (bo_cmp s) x |}; intros [].
Defined.
#[local] Instance board_clock : Clock board := {|
  rdtime s := Ret (bo_time s, s);
  sbi_set_timer t s := Ret (tt, mkBoard (bo_ps s) (bo_sy s) (bo_csr s) (bo_time s) t (bo_out s)) |}.
#[local] Instance board_clock_laws : ClockLaws board.
Proof.
  refine {| deadline := bo_cmp |}; try done.
  - intros s. by exists (bo_time s), s.
  - intros t s. by eexists.
Defined.
#[local] Instance board_mmio : Mmio board := {| mm_load _ := kret 0; mm_store _ _ := kret tt |}.
#[local] Instance board_disk : DiskIrq board := {| disk_irq := kret tt |}.
#[local] Instance board_uart : Uart unit := {| reg_load _ v := (0, v); reg_store _ _ v := v |}.
#[local] Instance board_unit : Lens board unit.
Proof. by refine {| lget := fun _ => tt; lput := fun _ s => s |}; intros []. Defined.
#[local] Instance board_terminal : Terminal board unit.
Proof. by refine {| term_ps := sync_ps; term_uart := board_unit |}. Defined.
#[local] Instance board_mem : Lens board mem.
Proof.
  refine {| lget := fun s => pm_mem (ps_pm (bo_ps s));
    lput := fun m s => mkBoard (with_mem m (bo_ps s)) (bo_sy s) (bo_csr s) (bo_time s) (bo_cmp s) (bo_out s) |}; try done.
  by intros [[[] ? ? ? ? ?] ? ? ? ? ?].
Defined.
#[local] Instance board_cache : Cache board := {|
  cache_mem := board_mem; c_bread _ _ := kfault; c_bwrite _ := kfault; c_brelse _ := kfault; c_data _ := kfault; c_set_data _ _ := kfault ; c_log _ := kfault |}.
#[local] Instance board_pages : Pages board := {| pg_alloc := kret 0; pg_free _ := kret tt |}.
#[local] Instance board_heap : Heap board := {| hp_alloc := kret 0; hp_free _ := kret tt |}.
#[local] Instance board_procs : ProcHeap board := {| ph_alloc := kret (0, demo_caller 0); ph_free _ := kret tt |}.
#[local] Instance board_scratch : Scratch board := {| sc_alloc _ := kret 0; sc_free _ := kret tt |}.

Definition demo_csr (status pc cause : Z) : csr := mkCsr status pc cause 0 0 0 0 0.
Definition demo_tframe : tframe := mkTframe 0x80200000 0x80200000 0x8020009c 0x80200200 0x80201000 0 0 0.
(** Process 1000 calls [getpid] at 0x1000. *)
Definition demo_getpid : board :=
  let pm := set_mem (st64 (fun _ => 0) (demo_buffer + tf_off tf_a7) SYS_getpid) demo_pm in
  mkBoard (mkPs pm [] ∅ {[ 1000 := demo_caller 0 ]} 1000 0) (mkSync ∅ ∅) (demo_csr 0 0x1000 8) 77 0 ([], []).
Definition demo_fr : frame := mkFrame 0 0 0 0 0 0 0 0 0 0.
Definition demo_lf : lframe := mkLframe 0 0 0 0.
Definition demo_sf : sframe := mkSframe 0 0 0 0 0.

Lemma usertrap_syscall_witness :
  exists b3, usertrap (V := unit) demo_fr demo_lf demo_sf demo_tframe 100 500 4 (kret tt) 0 0
      KERNBASE 0 0 0 0 0 9 9 9 (demo_getpid, demo_tables) =
    Ret ((u64 (TRAMPOLINE + 0x9c), MAKE_SATP demo_root), (b3, demo_tables)) /\
    resumes demo_tframe (pm_mem (ps_pm (bo_ps (entered demo_tframe demo_getpid (demo_caller 0))))) (demo_caller 0) 0x1004 1 b3.
Proof.
  set (b2 := entered demo_tframe demo_getpid (demo_caller 0)).
  assert (E : tf_at (pm_mem (ps_pm (bo_ps b2))) (demo_caller 0) epc = 0x1004) by exact (tf_at_same _ (demo_caller 0) epc 0x1004).
  rewrite <- E. assert (one : @term_ps board unit _ = @sync_ps board _) by reflexivity.
  apply (usertrap_syscall (V := unit) one demo_fr demo_lf demo_sf demo_tframe 100 500 4 (kret tt) 0 0
      KERNBASE 0 0 0 0 0 9 9 9 demo_getpid demo_tables (demo_caller 0) b2 demo_tables 1 (demo_caller 0)); try reflexivity.
  done.
Defined.

(** The same hart, idle, interrupted by the clock. *)
Definition demo_locks : lockst := on_cpu (set_sie false) free_locks.
Definition demo_idle : board :=
  mkBoard (mkPs (set_lk demo_locks demo_pm) [] ∅ ∅ NULL 0) (mkSync ∅ ∅) (demo_csr SSTATUS_SPP 0x80200400 0x8000000000000005) 77 0 ([], []).
(** The clock interrupts process 1000; [demo_back] is the state in which the
    scheduler switches back to it. *)
Definition demo_user : board :=
  mkBoard (put_lk demo_locks demo_running) (mkSync ∅ ∅) (demo_csr SSTATUS_SPP 0x80200400 0x8000000000000001) 77 0 ([], []).
Definition demo_back : psys := put_lk (on_lock (proc_lock 1000) (fun _ => mkSpinlock 1 (Some 0)) (on_cpu (set_noff 1) demo_locks)) demo_running.
Definition demo_resume : K board unit := fun s => Ret (tt, mkBoard demo_back (bo_sy s) (bo_csr s) (bo_time s) (bo_cmp s) (bo_out s)).

Lemma demo_user_active : active 100 4 1000 [] (bo_ps demo_user).
Proof.
  destruct demo_running_active as [[Hq Hf _] Hc Hn Hl Hsz]. split; [split; [exact Hq|exact Hf|]|exact Hc|exact Hn|exact Hl|exact Hsz].
  split; [done|]. intros Hz. by apply Z.lt_irrefl in Hz.
Qed.
Lemma demo_back_handed : handed 100 4 1000 demo_back.
Proof.
  destruct demo_running_active as [[Hq Hf _] Hc Hn Hl Hsz]. split; [split; [by exists []|done|done|done|done|done| |exact Hsz]|].
  - intros p' Hp' Hne. unfold lock_free, demo_back. cbn. rewrite set_lock_ne; [exact (Hl p' Hp')|]. intros E. apply Hne. congruence.
  - exists (set_in_run_queue false (demo_proc RUNNING 1 50)). split; [reflexivity|]. done.
Qed.

