(* ===== verification/Ulib.v ===== *)
(** The library of the user programs: src/user/lib.c, string.c and start.c, and
    the programs init.c and echo.c.

    A user program runs until it ends: [exit], and [exec] when it succeeds, do
    not return, which is [None] below. The kernel is a parameter ([Class User]):
    a system call takes a number and its arguments and may change the memory of
    the program. The line buffer of stdio.c is apart from that memory; what it
    writes goes through [put_bytes], the [write] of its bytes. A string literal
    is named by its text. *)
From S2P Require Import Prelude CString Spinlock Printf Ustdio.

(** string.c holds the code of kernel/string.c. *)
Definition memset : mem -> Z -> Z -> Z -> mem := CString.memset.
Definition memmove : mem -> Z -> Z -> Z -> mem := CString.memmove.
Definition memcpy : mem -> Z -> Z -> Z -> mem := CString.memcpy.
Definition strlen : nat -> mem -> Z -> res Z := CString.strlen.
Definition strncmp : mem -> Z -> Z -> Z -> Z := CString.strncmp.
Definition strncpy : mem -> Z -> Z -> Z -> mem * Z := CString.strncpy.

Definition SYS_fork : Z := 1.
Definition SYS_exit : Z := 2.
Definition SYS_wait : Z := 3.
Definition SYS_pipe : Z := 4.
Definition SYS_read : Z := 5.
Definition SYS_exec : Z := 7.
Definition SYS_chdir : Z := 9.
Definition SYS_dup : Z := 10.
Definition SYS_sbrk : Z := 12.
Definition SYS_open : Z := 15.
Definition SYS_write : Z := 16.
Definition SYS_close : Z := 21.
Definition STDIN : Z := 0.

(** [ecall num args] is the [long] the call returns. *)
Class User (S : Type) : Type := {
  us_mem :: Lens S mem;
  us_stdio :: Lens S (list Z * Z);
  ecall : Z -> list Z -> K S (option Z);
  put_bytes : Z -> list Z -> K S (option Z)
}.

(** Computations of a program. *)
Definition P (S A : Type) : Type := K S (option A).
Definition pret {S A} (a : A) : P S A := kret (Some a).
Definition pbind {S A B} (m : P S A) (k : A -> P S B) : P S B :=
  x <- m ;; match x with Some a => k a | None => kret None end.
Definition plift {S A} (m : K S A) : P S A := a <- m ;; pret a.
Notation "x <~ m ;; k" := (pbind m (fun x => k)) (at level 100, m at next level, right associativity) : kernel_scope.
Notation "m ;~ k" := (pbind m (fun _ => k)) (at level 100, right associativity) : kernel_scope.

Section Ulib.
Context {S : Type} `{User S}.
(** The addresses of the string literals. *)
Context (lit : string -> Z).
Context (fuel : nat).

Definition umem {A} (f : mem -> A) : P S A := plift (via (kget f)).
Definition umem_set (f : mem -> mem) : P S unit := plift (via (kmod f)).
Definition umem_res {A} (f : mem -> res A) : P S A := plift (via (fun m => match f m with
  | Ret a => Ret (a, m) | Panic e => Panic e | Fault => Fault | Spin => Spin | NoFuel => NoFuel end)).

(** ** lib.c *)

Definition read (fd buf sz : Z) : P S Z := r <~ ecall SYS_read [s32 fd; buf; sz] ;; pret (u64 r).
Definition write (fd buf sz : Z) : P S Z := r <~ ecall SYS_write [s32 fd; buf; sz] ;; pret (u64 r).
Definition exec (file argv : Z) : P S Z := r <~ ecall SYS_exec [file; argv] ;; pret (u64 r).
(** The kernel does not return from SYS_exit. *)
Definition exit {A} (state : Z) : P S A := ecall SYS_exit [s32 state] ;~ kret None.
Definition fork : P S Z := r <~ ecall SYS_fork [] ;; pret (s32 r).
Definition wait (pid : Z) : P S Z := r <~ ecall SYS_wait [s32 pid] ;; pret (s32 r).
Definition sbrk (incr : Z) : P S Z := r <~ ecall SYS_sbrk [u32 incr] ;; pret (u64 r).
Definition open (path mode : Z) : P S Z := r <~ ecall SYS_open [path; s32 mode] ;; pret (s32 r).
Definition dup (fd : Z) : P S Z := r <~ ecall SYS_dup [s32 fd] ;; pret (s32 r).
Definition pipe (fd_arr : Z) : P S Z := r <~ ecall SYS_pipe [fd_arr] ;; pret (s32 r).
Definition chdir (path : Z) : P S Z := r <~ ecall SYS_chdir [path] ;; pret (s32 r).

(** [fprintf]; the writes of the line buffer are made in their order. *)
Fixpoint put_writes (ws : list (Z * list Z)) : P S unit :=
  match ws with [] => pret tt | (fd, b) :: ws => put_bytes fd b ;~ put_writes ws end.
Definition uprintf (fd fmt : Z) (ap : list Z) : P S unit := fun s =>
  match Ustdio.fprintf fuel fuel fd fmt ap (mkUst (lget s) (fst (lget s)) (snd (lget (T := list Z * Z) s)) []) with
  | Ret (_, x) => put_writes (u_writes x) (lput (u_buf x, u_idx x) s)
  | Panic e => Panic e | Fault => Fault | Spin => Spin | NoFuel => NoFuel
  end.
Definition close (fd : Z) : P S unit :=
  r <~ ecall SYS_close [s32 fd] ;; if r <? 0 then uprintf STDOUT (lit (nl "syscall close fault")) [] else pret tt.

(** ** [gets] of string.c *)

(** The loop of [gets], over the [k] characters left: the index it stops at. *)
Fixpoint gets_loop (k : nat) (buf i : Z) : P S Z :=
  match k with
  | O => pret i
  | Datatypes.S k =>
      c <~ umem (fun m => ld8 m (buf + i)) ;;
      if (c =? 10) || (c =? 13) then umem_set (fun m => st8 m (buf + i) 0) ;~ pret i
      else gets_loop k buf (i + 1)
  end.
Definition gets (buf size : Z) : P S Z :=
  r <~ read STDIN buf (u64 (size - 1)) ;;
  let size := s32 r in
  i <~ gets_loop (Z.to_nat size) buf 0 ;;
  umem_set (fun m => st8 m (buf + size) 0) ;~
  pret (u64 (Z.min size i)).

(** ** start.c, echo.c and init.c *)

(** [mm_init] is in stdlib.c, [main] in the program. *)
Definition start (mm_init : P S Z) (main : Z -> Z -> P S Z) (argc argv : Z) : P S unit :=
  r <~ mm_init ;;
  if r <? 0 then exit (-1) else
  ret <~ main argc argv ;; exit ret.

(** [argc - i] arguments are left. *)
Fixpoint echo_loop (n : nat) (argc argv i : Z) : P S unit :=
  match n with
  | O => pret tt
  | Datatypes.S n =>
      a <~ umem (fun m => ld64 m (argv + 8 * i)) ;;
      k <~ umem_res (fun m => strlen fuel m a) ;;
      write 1 a k ;~
      (if i + 1 <? argc then write 1 (lit " ") 1 else write 1 (lit (nl "")) 1) ;~
      echo_loop n argc argv (i + 1)
  end.
Definition echo_main (argc argv : Z) : P S Z := echo_loop (Z.to_nat (argc - 1)) argc argv 1 ;~ exit 0.

(** The parameter [argv] hides the array of the same name. *)
Fixpoint init_loop (n : nat) (argv : Z) : P S Z :=
  match n with
  | O => knofuel
  | Datatypes.S n =>
      pid <~ fork ;;
      if pid <? 0 then uprintf STDOUT (lit (nl "init: exec sh failed")) [] ;~ exit 1 else
      if pid =? 0 then
        exec (lit "sh") argv ;~
        uprintf STDOUT (lit (nl "init: exec sh failed")) [] ;~
        exit 1
      else wait pid ;~ init_loop n argv
  end.
Definition init_main (argc argv : Z) : P S Z :=
  a <~ umem (fun m => ld64 m argv) ;;
  uprintf STDOUT (lit (nl "%s: starting sh")) [a] ;~
  init_loop fuel argv.
End Ulib.
