(* ===== verification/Sh.v ===== *)
(** The shell: src/user/sh.c.

    The commands the parser builds are records in a store of their own, found
    by their address; [malloc] (Umalloc.v) is a parameter with its contract,
    [ShellLaws]. The parser reads the line where it is: a pointer into it is an
    address, and [es] is the address of its NUL. A function that takes
    [char **ps] takes [*ps] and returns the new one. *)
From S2P Require Import Prelude CString Bytes Spinlock Printf Ustdio Ulib.

Definition MAXARGS : Z := 10.
Definition O_RDONLY : Z := 0x000.
Definition O_WRONLY : Z := 0x001.
Definition O_RDWR : Z := 0x002.
Definition O_CREATE : Z := 0x200.
Definition O_TRUNC : Z := 0x400.

(** [struct execcmd] ... [struct backcmd]; the constructor is the [type]. *)
Inductive cmd : Type :=
| EXEC (argv eargv : list Z)
| REDIR (c file efile mode fd : Z)
| PIPE (left right : Z)
| LIST (left right : Z)
| BACK (c : Z).

(** The address of [argv] in a [struct execcmd]. *)
Definition argv_at (a : Z) : Z := a + 8.
(** The sizes [malloc] is asked for. *)
Definition SIZEOF_EXEC : Z := 168.
Definition SIZEOF_REDIR : Z := 40.
Definition SIZEOF_PIPE : Z := 24.
Definition SIZEOF_LIST : Z := 24.
Definition SIZEOF_BACK : Z := 16.

Class Shell (S : Type) `{User S} : Type := { sh_cmds :: Lens S (gmap Z cmd); malloc : Z -> K S (option Z) }.

(** ** Tokens *)

Definition whitespace : list Z := [32; 9; 13; 10; 11].
Definition symbols : list Z := chars "<|>&;()".
(** [strchr(l, c)] as a truth value. *)
Definition is_in (l : list Z) (c : Z) : bool := existsb (Z.eqb c) l.

(** [while(s < es && ...) s++]; [n] is [es - s]. *)
Fixpoint skip_while (test : Z -> bool) (n : nat) (m : mem) (s : Z) : Z :=
  match n with
  | O => s
  | S n => if test (ld8 m s) then skip_while test n m (s + 1) else s
  end.
Definition skip (m : mem) (s es : Z) : Z := skip_while (is_in whitespace) (Z.to_nat (es - s)) m s.
Definition word_end (m : mem) (s es : Z) : Z :=
  skip_while (fun c => negb (is_in whitespace c) && negb (is_in symbols c)) (Z.to_nat (es - s)) m s.

(** The kind of a token, its first and its last address, and the new [*ps]. *)
Record token : Type := mkTok { t_kind : Z; t_q : Z; t_eq : Z; t_ps : Z }.
Definition gettoken (m : mem) (ps es : Z) : token :=
  let s := skip m ps es in
  let c := ld8 m s in
  let '(ret, s') :=
    if c =? 0 then (0, s)
    else if is_in (chars "|();&<") c then (c, s + 1)
    else if c =? chr ">" then (if ld8 m (s + 1) =? chr ">" then (chr "+", s + 2) else (c, s + 1))
    else (chr "a", word_end m s es) in
  mkTok ret s s' (skip m s' es).
Definition peek (m : mem) (ps es : Z) (toks : list Z) : bool * Z :=
  let s := skip m ps es in (negb (ld8 m s =? 0) && is_in toks (ld8 m s), s).

Section Sh.
Context {S : Type} `{Shell S}.
Context (lit : string -> Z) (fuel : nat).

Definition getc (a : Z) : P S cmd := plift (via (fun N : gmap Z cmd => match N !! a with Some c => Ret (c, N) | None => Fault end)).
Definition setc (a : Z) (c : cmd) : P S unit := plift (via (kmod (insert a c))).
Definition panic {A} (s : string) : P S A := uprintf fuel 2 (lit (nl "%s")) [lit s] ;~ exit 1.
Definition fork1 : P S Z := pid <~ fork ;; if pid =? -1 then panic "fork" else pret pid.

(** ** Constructors *)

(** [malloc] is not tested: [memset] of a null pointer is a [Fault]. *)
Definition new_cmd (size : Z) (c : cmd) : P S Z :=
  a <~ malloc size ;; if a =? 0 then kfault else setc a c ;~ pret a.
Definition execcmd : P S Z := new_cmd SIZEOF_EXEC (EXEC (replicate 10 0) (replicate 10 0)).
Definition redircmd (subcmd file efile mode fd : Z) : P S Z := new_cmd SIZEOF_REDIR (REDIR subcmd file efile mode fd).
Definition pipecmd (left right : Z) : P S Z := new_cmd SIZEOF_PIPE (PIPE left right).
Definition listcmd (left right : Z) : P S Z := new_cmd SIZEOF_LIST (LIST left right).
Definition backcmd (subcmd : Z) : P S Z := new_cmd SIZEOF_BACK (BACK subcmd).

(** ** The parser *)

Definition get (s es : Z) : P S token := umem (fun m => gettoken m s es).
Definition look (s es : Z) (toks : string) : P S (bool * Z) := umem (fun m => peek m s es (chars toks)).

(** [n] bounds the turns of the loop. *)
Fixpoint parseredirs (n : nat) (c s es : Z) : P S (Z * Z) :=
  match n with
  | O => knofuel
  | Datatypes.S n =>
      b <~ look s es "<>" ;;
      if fst b then
        tok <~ get (snd b) es ;;
        f <~ get (t_ps tok) es ;;
        if negb (t_kind f =? chr "a") then panic "missing file for redirection" else
        c <~ (if t_kind tok =? chr "<" then redircmd c (t_q f) (t_eq f) O_RDONLY 0
              else if t_kind tok =? chr ">" then redircmd c (t_q f) (t_eq f) (Z.lor O_WRONLY (Z.lor O_CREATE O_TRUNC)) 1
              else if t_kind tok =? chr "+" then redircmd c (t_q f) (t_eq f) (Z.lor O_WRONLY O_CREATE) 1
              else pret c) ;;
        parseredirs n c (t_ps f) es
      else pret (c, snd b)
  end.

Definition set_arg (a argc q eq : Z) : P S unit :=
  c <~ getc a ;;
  match c with
  | EXEC argv eargv =>
      if (0 <=? argc) && (argc <? MAXARGS) then setc a (EXEC (<[Z.to_nat argc := q]> argv) (<[Z.to_nat argc := eq]> eargv)) else kfault
  | _ => kfault
  end.
(** The [while] loop of [parseexec] and the two stores after it. *)
Fixpoint exec_loop (n : nat) (a ret argc s es : Z) : P S (Z * Z) :=
  match n with
  | O => knofuel
  | Datatypes.S n =>
      b <~ look s es "|)&;" ;;
      if fst b then set_arg a argc 0 0 ;~ pret (ret, snd b) else
      tok <~ get (snd b) es ;;
      if t_kind tok =? 0 then set_arg a argc 0 0 ;~ pret (ret, t_ps tok) else
      if negb (t_kind tok =? chr "a") then panic "syntax" else
      set_arg a argc (t_q tok) (t_eq tok) ;~
      (if MAXARGS <=? argc + 1 then panic "too many args" else
       r <~ parseredirs fuel ret (t_ps tok) es ;;
       exec_loop n a (fst r) (argc + 1) (snd r) es)
  end.

(** The loop of [parseline]. *)
Fixpoint back_loop (n : nat) (c s es : Z) : P S (Z * Z) :=
  match n with
  | O => knofuel
  | Datatypes.S n =>
      b <~ look s es "&" ;;
      if fst b then tok <~ get (snd b) es ;; c <~ backcmd c ;; back_loop n c (t_ps tok) es
      else pret (c, snd b)
  end.

(** [n] bounds the depth of the recursion. *)
Fixpoint parseline (n : nat) (s es : Z) : P S (Z * Z) :=
  match n with
  | O => knofuel
  | Datatypes.S n =>
      r <~ parsepipe n s es ;;
      r <~ back_loop fuel (fst r) (snd r) es ;;
      b <~ look (snd r) es ";" ;;
      if fst b then
        tok <~ get (snd b) es ;;
        r2 <~ parseline n (t_ps tok) es ;;
        c <~ listcmd (fst r) (fst r2) ;; pret (c, snd r2)
      else pret (fst r, snd b)
  end
with parsepipe (n : nat) (s es : Z) : P S (Z * Z) :=
  match n with
  | O => knofuel
  | Datatypes.S n =>
      r <~ parseexec n s es ;;
      b <~ look (snd r) es "|" ;;
      if fst b then
        tok <~ get (snd b) es ;;
        r2 <~ parsepipe n (t_ps tok) es ;;
        c <~ pipecmd (fst r) (fst r2) ;; pret (c, snd r2)
      else pret (fst r, snd b)
  end
with parseexec (n : nat) (s es : Z) : P S (Z * Z) :=
  match n with
  | O => knofuel
  | Datatypes.S n =>
      b <~ look s es "(" ;;
      if fst b then parseblock n (snd b) es else
      a <~ execcmd ;;
      r <~ parseredirs fuel a (snd b) es ;;
      exec_loop fuel a (fst r) 0 (snd r) es
  end
with parseblock (n : nat) (s es : Z) : P S (Z * Z) :=
  match n with
  | O => knofuel
  | Datatypes.S n =>
      b <~ look s es "(" ;;
      if negb (fst b) then panic "parseblock" else
      tok <~ get (snd b) es ;;
      r <~ parseline n (t_ps tok) es ;;
      b <~ look (snd r) es ")" ;;
      if negb (fst b) then panic "syntax - missing )" else
      tok <~ get (snd b) es ;;
      parseredirs fuel (fst r) (t_ps tok) es
  end.

(** The strings of an [execcmd] up to the null pointer; past the arrays is a
    [Fault]. *)
Fixpoint nul_args (argv eargv : list Z) : P S unit :=
  match argv, eargv with
  | a :: argv, e :: eargv => if a =? 0 then pret tt else umem_set (fun m => st8 m e 0) ;~ nul_args argv eargv
  | _, _ => kfault
  end.
Fixpoint nulterminate (n : nat) (a : Z) : P S unit :=
  match n with
  | O => knofuel
  | Datatypes.S n =>
      if a =? 0 then pret tt else
      c <~ getc a ;;
      match c with
      | EXEC argv eargv => nul_args argv eargv
      | REDIR c _ efile _ _ => nulterminate n c ;~ umem_set (fun m => st8 m efile 0)
      | PIPE l r => nulterminate n l ;~ nulterminate n r
      | LIST l r => nulterminate n l ;~ nulterminate n r
      | BACK c => nulterminate n c
      end
  end.

Definition parsecmd (s : Z) : P S Z :=
  k <~ umem_res (fun m => strlen fuel m s) ;;
  let es := s + k in
  r <~ parseline fuel s es ;;
  b <~ look (snd r) es "" ;;
  if negb (snd b =? es) then uprintf fuel 2 (lit (nl "leftovers: %s")) [snd b] ;~ panic "syntax" else
  nulterminate fuel (fst r) ;~
  pret (fst r).

(** ** Execution *)

(** The address of the local array [p], and one run of the loops below. *)
Context (p_at : Z).

(** [runcmd] never returns to its caller. *)
Fixpoint runcmd (n : nat) (a : Z) : P S unit :=
  match n with
  | O => knofuel
  | Datatypes.S n =>
      if a =? 0 then exit 1 else
      c <~ getc a ;;
      (match c with
       | EXEC argv _ =>
           match argv with
           | [] => kfault
           | a0 :: _ =>
               if a0 =? 0 then exit 1 else
               exec a0 (argv_at a) ;~
               uprintf fuel 2 (lit (nl "exec %s failed")) [a0]
           end
       | REDIR c file _ mode fd =>
           close lit fuel fd ;~
           r <~ open file mode ;;
           if r <? 0 then uprintf fuel 2 (lit (nl "open %s failed")) [file] ;~ exit 1 else
           runcmd n c
       | LIST l r =>
           pid <~ fork1 ;;
           if pid =? 0 then runcmd n l else
           wait 0 ;~ runcmd n r
       | PIPE l r =>
           x <~ pipe p_at ;;
           if x <? 0 then panic "pipe" else
           p0 <~ umem (fun m => s32 (ld32 m p_at)) ;;
           p1 <~ umem (fun m => s32 (ld32 m (p_at + 4))) ;;
           pid <~ fork1 ;;
           if pid =? 0 then close lit fuel 1 ;~ dup p1 ;~ close lit fuel p0 ;~ close lit fuel p1 ;~ runcmd n l else
           pid <~ fork1 ;;
           if pid =? 0 then close lit fuel 0 ;~ dup p0 ;~ close lit fuel p0 ;~ close lit fuel p1 ;~ runcmd n r else
           close lit fuel p0 ;~ close lit fuel p1 ;~ wait 0 ;~ wait 0 ;~ pret tt
       | BACK c => pid <~ fork1 ;; if pid =? 0 then runcmd n c else pret tt
       end) ;~
      exit 0
  end.

Definition getcmd (buf nbuf : Z) : P S Z :=
  write 2 (lit "$ ") 2 ;~
  umem_set (fun m => memset m buf 0 nbuf) ;~
  gets buf nbuf ;~
  c <~ umem (fun m => ld8 m buf) ;;
  pret (if c =? 0 then -1 else 0).

(** The first loop of [main]. *)
Fixpoint open_console (n : nat) : P S unit :=
  match n with
  | O => knofuel
  | Datatypes.S n =>
      fd <~ open (lit "console") O_RDWR ;;
      if fd <? 0 then pret tt else
      if 3 <=? fd then close lit fuel fd else open_console n
  end.

(** One turn of the second loop, for the line in [buf]. *)
Definition run_line (buf : Z) : P S unit :=
  m <~ umem (fun m => m) ;;
  if (ld8 m buf =? chr "c") && (ld8 m (buf + 1) =? chr "d") && (ld8 m (buf + 2) =? chr " ") then
    k <~ umem_res (fun m => strlen fuel m buf) ;;
    umem_set (fun m => st8 m (buf + k - 1) 0) ;~
    r <~ chdir (buf + 3) ;;
    if r <? 0 then uprintf fuel 2 (lit (nl "cannot cd %s")) [buf + 3] else pret tt
  else
    pid <~ fork1 ;;
    if pid =? 0 then a <~ parsecmd buf ;; runcmd fuel a else
    wait 0 ;~ pret tt.
Fixpoint main_loop (n : nat) (buf : Z) : P S unit :=
  match n with
  | O => knofuel
  | Datatypes.S n =>
      r <~ getcmd buf 100 ;;
      if 0 <=? r then run_line buf ;~ main_loop n buf else pret tt
  end.
(** [buf] is the static buffer. *)
Definition main (buf argc argv : Z) : P S Z := open_console fuel ;~ main_loop fuel buf ;~ exit 0.
End Sh.

(** ** Lexing *)

(** Words and the symbols of the grammar; [Append] is the [>>] token. *)
Inductive tk : Type := Word (w : list Z) | Sym (c : Z) | Append.

Definition special (c : Z) : bool := (c =? 0) || is_in whitespace c || is_in symbols c.
Definition plain (w : list Z) : bool := forallb (fun c => negb (special c)) w.
Definition tk_ok (t : tk) : bool :=
  match t with Word w => negb (bool_decide (w = [])) && plain w | Sym c => is_in (chars "|();&<>") c | Append => true end.
Definition tk_text (t : tk) : list Z := match t with Word w => w | Sym c => [c] | Append => chars ">>" end.
Definition tk_kind (t : tk) : Z := match t with Word _ => chr "a" | Sym c => c | Append => chr "+" end.
Definition tk_head (t : tk) : Z := hd 0 (tk_text t).

(** What must not follow a token directly. *)
Definition separated (t : tk) (rest : list Z) : bool :=
  match t, rest with
  | Word _, c :: _ => special c
  | Sym c, d :: _ => negb ((c =? chr ">") && (d =? chr ">"))
  | _, _ => true
  end.
(** The texts of a list of tokens: any whitespace between them. *)
Inductive rendering : list tk -> list Z -> Prop :=
| R_end ws : forallb (is_in whitespace) ws = true -> rendering [] ws
| R_tok ws t ts rest : forallb (is_in whitespace) ws = true -> tk_ok t = true -> rendering ts rest -> separated t rest = true ->
    rendering (t :: ts) (ws ++ tk_text t ++ rest).

(** A word of the line, from [q] to [e]. *)
Record word_at (m : mem) (q e : Z) (w : list Z) : Prop := {
  wa_bytes : bytes_at m q w;
  wa_end : e = q + Z.of_nat (length w);
  wa_plain : plain w = true;
  wa_stop : special (ld8 m e) = true;
  wa_null : 0 < q
}.

(** The token [k] read from the line is [t]. *)
Definition reads (m : mem) (k : token) (t : tk) : Prop :=
  t_kind k = tk_kind t /\ ld8 m (t_q k) = tk_head t /\ match t with Word w => w <> [] /\ word_at m (t_q k) (t_eq k) w | _ => True end.
(** From [s] on the line consists of the tokens [ts]. *)
Fixpoint lexes (m : mem) (es s : Z) (ts : list tk) : Prop :=
  match ts with
  | [] => skip m s es = es /\ ld8 m es = 0
  | t :: ts => tk_ok t = true /\ reads m (gettoken m s es) t /\ lexes m es (t_ps (gettoken m s es)) ts
  end.

Lemma skip_while_end test m l : forall n s, bytes_at m s l -> forallb test l = true -> test (ld8 m (s + Z.of_nat (length l))) = false ->
  (length l <= n)%nat -> skip_while test n m s = s + Z.of_nat (length l).
Proof.
  induction l as [|c l IH]; intros n s Hb Ht He Hn.
  - cbn [length] in *. rewrite Z.add_0_r in *. destruct n; [done|]. cbn [skip_while]. by rewrite He.
  - destruct n as [|n]; [cbn in Hn; lia|]. apply bytes_at_cons in Hb as [Hc Hb]. cbn [forallb] in Ht. apply andb_true_iff in Ht as [Htc Ht].
    cbn [skip_while]. rewrite Hc, Htc. cbn [length] in *. rewrite (IH n (s + 1)); [lia|done|done| |lia].
    replace (s + 1 + Z.of_nat (length l)) with (s + Z.of_nat (Datatypes.S (length l))) by lia. done.
Qed.

Lemma skip_nonwhite m s es : is_in whitespace (ld8 m s) = false -> skip m s es = s.
Proof. intros Hw. unfold skip. rewrite (skip_while_end _ m [] _ s); [cbn; lia|by intros ? ? ?|done|cbn; by rewrite Z.add_0_r|cbn; lia]. Qed.

Lemma skip_white m s es ws : bytes_at m s ws -> forallb (is_in whitespace) ws = true -> s + Z.of_nat (length ws) <= es ->
  is_in whitespace (ld8 m (s + Z.of_nat (length ws))) = false -> skip m s es = s + Z.of_nat (length ws).
Proof. intros Hb Hw Hl He. unfold skip. apply skip_while_end; [done|done|done|lia]. Qed.

Lemma skip_while_stop test n m : forall s, test (ld8 m (skip_while test n m s)) = false \/ skip_while test n m s = s + Z.of_nat n.
Proof.
  induction n as [|n IH]; intros s; cbn [skip_while]; [right; lia|]. destruct (test (ld8 m s)) eqn:E; [|by left].
  destruct (IH (s + 1)) as [H|H]; [by left|right; rewrite H; lia].
Qed.
Lemma skip_skip m s es : skip m (skip m s es) es = skip m s es.
Proof.
  destruct (skip_while_stop (is_in whitespace) (Z.to_nat (es - s)) m s) as [H|H]; fold (skip m s es) in H.
  - by apply skip_nonwhite.
  - destruct (Z.le_ge_cases s es).
    + rewrite H. unfold skip. replace (Z.to_nat (es - (s + Z.of_nat (Z.to_nat (es - s))))) with O by lia. done.
    + replace (Z.to_nat (es - s)) with O in H by lia. rewrite H. unfold skip. by replace (Z.to_nat (es - (s + Z.of_nat 0))) with O by lia.
Qed.
Lemma gettoken_skip m s es : gettoken m (skip m s es) es = gettoken m s es.
Proof. unfold gettoken. by rewrite skip_skip. Qed.
Lemma lexes_skip m es s ts : lexes m es s ts -> lexes m es (skip m s es) ts.
Proof. destruct ts as [|t ts]; cbn [lexes]; rewrite ?skip_skip, ?gettoken_skip; done. Qed.

Lemma special_white c : special c = false -> is_in whitespace c = false.
Proof. unfold special. by destruct (c =? 0), (is_in whitespace c). Qed.
Lemma plain_first w m s : plain w = true -> w <> [] -> bytes_at m s w -> special (ld8 m s) = false /\ ld8 m s = hd 0 w.
Proof.
  destruct w as [|c w]; [done|]. intros Hp _ [Hc _]%bytes_at_cons. cbn in Hp. apply andb_true_iff in Hp as [Hp _]. rewrite Hc.
  split; [by apply negb_true_iff in Hp|done].
Qed.

Lemma skip_while_all test m l : forall s, bytes_at m s l -> forallb test l = true -> skip_while test (length l) m s = s + Z.of_nat (length l).
Proof.
  induction l as [|c l IH]; intros s Hb Ht; cbn [length skip_while]; [lia|]. apply bytes_at_cons in Hb as [Hc Hb].
  cbn [forallb] in Ht. apply andb_true_iff in Ht as [Htc Ht]. rewrite Hc, Htc, IH by done. lia.
Qed.
(** The word that starts at [s]: it ends at a separator or with the line. *)
Lemma word_end_ok m s es w : plain w = true -> bytes_at m s w -> s + Z.of_nat (length w) <= es ->
  s + Z.of_nat (length w) = es \/ special (ld8 m (s + Z.of_nat (length w))) = true /\ ld8 m (s + Z.of_nat (length w)) <> 0 ->
  word_end m s es = s + Z.of_nat (length w).
Proof.
  intros Hp Hb Hl Hs. unfold word_end.
  assert (Ht : forallb (fun c => negb (is_in whitespace c) && negb (is_in symbols c)) w = true).
  { apply forallb_forall. intros c Hc. unfold plain in Hp. rewrite forallb_forall in Hp. specialize (Hp c Hc). apply negb_true_iff in Hp. unfold special in Hp.
    apply orb_false_iff in Hp as [Hp H2]. apply orb_false_iff in Hp as [H0 H1]. by rewrite H1, H2. }
  destruct Hs as [He|[Hs H0]].
  - rewrite <- He. replace (Z.to_nat (s + Z.of_nat (length w) - s)) with (length w) by lia. by apply skip_while_all.
  - apply skip_while_end; [done|done| |lia]. unfold special in Hs. rewrite (proj2 (Z.eqb_neq _ _) H0) in Hs. cbn [orb] in Hs.
    by rewrite <- negb_orb, Hs.
Qed.

Lemma cstr_parts m s l1 l2 : cstr m s (l1 ++ l2) -> bytes_at m s l1 /\ cstr m (s + Z.of_nat (length l1)) l2 /\ (0 ∉ l1).
Proof.
  intros Hc. apply cstr_app in Hc as [H1 H2]. split; [|split; [exact H2|]].
  - intros i c Hi. by apply H1.
  - intros Hin. apply list_elem_of_lookup in Hin as [i Hi]. by destruct (H1 i 0 Hi).
Qed.
Lemma cstr_head m s l : cstr m s l -> ld8 m s = hd 0 l.
Proof. by destruct l as [|c l]; cbn; [|intros [-> _]]. Qed.

(** Where the first character of the text decides. *)
Lemma gettoken_at m s es p : skip m s es = p ->
  gettoken m s es =
  (let c := ld8 m p in
   let '(ret, s') :=
     if c =? 0 then (0, p)
     else if is_in (chars "|();&<") c then (c, p + 1)
     else if c =? chr ">" then (if ld8 m (p + 1) =? chr ">" then (chr "+", p + 2) else (c, p + 1))
     else (chr "a", word_end m p es) in
   mkTok ret p s' (skip m s' es)).
Proof. by intros <-. Qed.

Lemma is_in_list l c : is_in l c = true -> In c l.
Proof. intros (x & Hin & ->%Z.eqb_eq)%existsb_exists. exact Hin. Qed.
Lemma sym_cases c : tk_ok (Sym c) = true -> In c [124; 40; 41; 59; 38; 60; 62].
Proof. apply is_in_list. Qed.

(** A token starts with a character that is not whitespace. *)
Lemma tk_nonwhite t rest : tk_ok t = true -> is_in whitespace (hd 0 (tk_text t ++ rest)) = false.
Proof.
  intros Hok. destruct t as [w|c|]; [|apply sym_cases in Hok|done].
  - cbn in Hok. apply andb_true_iff in Hok as [Hn Hpl]. destruct w as [|c w]; [done|]. cbn in Hpl |- *. apply andb_true_iff in Hpl as [Hpl _].
    by apply special_white, negb_true_iff.
  - by destruct Hok as [<-|[<-|[<-|[<-|[<-|[<-|[<-|[]]]]]]]].
Qed.

(** Reading one token of the text. *)
Lemma gettoken_word m p es w rest : 0 < p -> w <> [] -> plain w = true -> separated (Word w) rest = true ->
  cstr m p (w ++ rest) -> es = p + Z.of_nat (length (w ++ rest)) -> skip m p es = p ->
  reads m (gettoken m p es) (Word w) /\ t_ps (gettoken m p es) = skip m (p + Z.of_nat (length w)) es.
Proof.
  intros Hp Hw Hpl Hsep Hc He Hs. destruct (cstr_parts m p w rest Hc) as (Hb & Hc2 & _). rewrite length_app in He.
  destruct (plain_first w m p Hpl Hw Hb) as [Hns Hhd]. rewrite (gettoken_at m p es p Hs). cbv zeta.
  assert (Hz : ld8 m p <> 0) by (intros E; by rewrite E in Hns).
  assert (Hsy : is_in symbols (ld8 m p) = false) by (unfold special in Hns; by destruct (ld8 m p =? 0), (is_in whitespace _), (is_in symbols _)).
  assert (H1 : is_in (chars "|();&<") (ld8 m p) = false /\ (ld8 m p =? chr ">") = false).
  { cbn in Hsy |- *. rewrite !orb_false_r in *. repeat match type of Hsy with _ || _ = false => apply orb_false_iff in Hsy as [? Hsy] end.
    rewrite ?orb_false_iff. split_and!; done. }
  destruct H1 as [H1 H2]. rewrite (proj2 (Z.eqb_neq _ _) Hz), H1, H2.
  assert (Hstop : p + Z.of_nat (length w) = es \/ special (ld8 m (p + Z.of_nat (length w))) = true /\ ld8 m (p + Z.of_nat (length w)) <> 0).
  { destruct rest as [|d rest]; [left; cbn in He; lia|right]. destruct Hc2 as (-> & Hd & _). done. }
  rewrite (word_end_ok m p es w); [|done|done|lia|done]. cbn [t_ps]. split; [|done]. split; [done|]. cbn [t_q t_eq]. split; [done|]. split; [done|].
  split; [done|done|done| |done]. destruct Hstop as [->|[? _]]; [|done]. assert (E : ld8 m es = 0); [|by rewrite E].
  replace es with (p + Z.of_nat (length w) + Z.of_nat (length rest)) by lia. by apply cstr_end.
Qed.

Lemma gettoken_ok m p es t rest : 0 < p -> tk_ok t = true -> separated t rest = true ->
  cstr m p (tk_text t ++ rest) -> es = p + Z.of_nat (length (tk_text t ++ rest)) ->
  reads m (gettoken m p es) t /\ t_ps (gettoken m p es) = skip m (p + Z.of_nat (length (tk_text t))) es.
Proof.
  intros Hp Hok Hsep Hc He.
  assert (Hw : is_in whitespace (ld8 m p) = false).
  { rewrite (cstr_head _ _ _ Hc). by apply tk_nonwhite. }
  assert (Hs := skip_nonwhite m p es Hw). destruct t as [w|c|].
  - cbn in Hok. apply andb_true_iff in Hok as [Hn Hpl]. apply gettoken_word with rest; try done.
    intros E. by rewrite bool_decide_eq_true_2 in Hn.
  - rewrite (gettoken_at m p es p Hs). cbn in Hc, Hsep. destruct Hc as (Hh & H0 & Hc). rewrite Hh. cbv zeta.
    apply sym_cases in Hok. destruct Hok as [<-|[<-|[<-|[<-|[<-|[<-|[<-|[]]]]]]]]; cbn [Z.eqb Pos.eqb is_in chars existsb orb]; try done.
    assert (E : (ld8 m (p + 1) =? chr ">") = false).
    { rewrite (cstr_head _ _ _ Hc). destruct rest as [|d rest]; [done|]. cbn in Hsep |- *. by apply negb_true_iff in Hsep. }
    cbn. cbn in E. rewrite E. done.
  - rewrite (gettoken_at m p es p Hs). cbn in Hc. destruct Hc as (Hh & H0 & Hh2 & Hc). rewrite Hh. cbv zeta.
    cbn [Z.eqb Pos.eqb is_in chars existsb orb]. cbn. rewrite Hh2. done.
Qed.

Lemma rendering_lexes m es ts text : rendering ts text -> forall s, 0 < s -> cstr m s text -> es = s + Z.of_nat (length text) -> lexes m es s ts.
Proof.
  induction 1 as [ws Hw|ws t ts rest Hw Hok HR IH Hsep]; intros s Hs Hc He.
  - cbn [lexes]. apply cstr_bytes_at in Hc as (Hb & _ & Hz). rewrite <- He in Hz. split; [|done].
    rewrite He. apply skip_white; [done|done|lia|]. rewrite <- He, Hz. done.
  - destruct (cstr_parts m s ws _ Hc) as (Hb & Hc2 & _). set (p := s + Z.of_nat (length ws)) in *. rewrite length_app in He.
    assert (Hep : es = p + Z.of_nat (length (tk_text t ++ rest))) by (unfold p; lia).
    destruct (gettoken_ok m p es t rest) as [HRd Hps]; [unfold p; lia|done|done|done|done|].
    assert (Hsk : skip m s es = p).
    { apply skip_white; [done|done|lia|]. fold p. rewrite (cstr_head _ _ _ Hc2). by apply tk_nonwhite. }
    cbn [lexes]. rewrite <- (gettoken_skip m s es), Hsk. split; [done|]. split; [done|]. rewrite Hps. apply lexes_skip, IH; [unfold p; lia| |rewrite Hep, length_app; lia].
    by destruct (cstr_parts m p (tk_text t) rest Hc2) as (_ & ? & _).
Qed.

(** ** The grammar *)

Inductive redir : Type := RIn | ROut | RAppend.
Definition r_mode (r : redir) : Z :=
  match r with RIn => O_RDONLY | ROut => Z.lor O_WRONLY (Z.lor O_CREATE O_TRUNC) | RAppend => Z.lor O_WRONLY O_CREATE end.
Definition r_fd (r : redir) : Z := match r with RIn => 0 | _ => 1 end.
Definition r_tk (r : redir) : tk := match r with RIn => Sym (chr "<") | ROut => Sym (chr ">") | RAppend => Append end.

(** Commands. *)
Inductive ast : Type :=
| TExec (args : list (list Z))
| TRedir (t : ast) (r : redir) (file : list Z)
| TPipe (l r : ast)
| TList (l r : ast)
| TBack (t : ast).

Definition word_ok (w : list Z) : bool := negb (bool_decide (w = [])) && plain w.
Fixpoint valid (t : ast) : bool :=
  match t with
  | TExec args => (Z.of_nat (length args) <? MAXARGS) && forallb word_ok args
  | TRedir t _ f => valid t && word_ok f
  | TPipe l r | TList l r => valid l && valid r
  | TBack t => valid t
  end.
Fixpoint size (t : ast) : nat :=
  match t with
  | TExec _ => 1
  | TRedir t _ _ | TBack t => Datatypes.S (size t)
  | TPipe l r | TList l r => Datatypes.S (size l + size r)
  end.

(** The tokens of a command where a line, a line without [;], a pipeline or one
    command is expected; parentheses where the grammar needs them. *)
Inductive level : Type := LLine | LBack | LPipe | LExec.
Definition parens (b : bool) (ts : list tk) : list tk := if b then Sym (chr "(") :: ts ++ [Sym (chr ")")] else ts.
Fixpoint print (l : level) (t : ast) : list tk :=
  match t with
  | TExec args => map Word args
  | TRedir t r f => print LExec t ++ [r_tk r; Word f]
  | TPipe a b => parens (match l with LExec => true | _ => false end) (print LExec a ++ Sym (chr "|") :: print LPipe b)
  | TBack t => parens (match l with LExec | LPipe => true | _ => false end) (print LBack t ++ [Sym (chr "&")])
  | TList a b => parens (match l with LLine => false | _ => true end) (print LBack a ++ Sym (chr ";") :: print LLine b)
  end.

(** The command at [a] is [t]; [W q e w] says where the string [w] is. *)
Fixpoint shape (W : Z -> Z -> list Z -> Prop) (N : gmap Z cmd) (a : Z) (t : ast) : Prop :=
  match t with
  | TExec args => exists qs es, N !! a = Some (EXEC (qs ++ replicate (10 - length args) 0) (es ++ replicate (10 - length args) 0)) /\
      length qs = length args /\ length es = length args /\
      forall i w, args !! i = Some w -> exists q e, qs !! i = Some q /\ es !! i = Some e /\ W q e w
  | TRedir t r f => exists c q e, N !! a = Some (REDIR c q e (r_mode r) (r_fd r)) /\ W q e f /\ shape W N c t /\ c <> 0
  | TPipe l r => exists x y, N !! a = Some (PIPE x y) /\ shape W N x l /\ shape W N y r /\ x <> 0 /\ y <> 0
  | TList l r => exists x y, N !! a = Some (LIST x y) /\ shape W N x l /\ shape W N y r /\ x <> 0 /\ y <> 0
  | TBack t => exists c, N !! a = Some (BACK c) /\ shape W N c t /\ c <> 0
  end.

Lemma shape_weaken (W W' : Z -> Z -> list Z -> Prop) N N' t : N ⊆ N' -> (forall q e w, W q e w -> W' q e w) ->
  forall a, shape W N a t -> shape W' N' a t.
Proof.
  intros HN HW. induction t as [args|t IH r f|l IHl r IHr|l IHl r IHr|t IH]; intros a; cbn [shape].
  - intros (qs & es & Ha & L1 & L2 & Hw). exists qs, es. split; [by eapply lookup_weaken|]. do 2 (split; [done|]).
    intros i w Hi. destruct (Hw i w Hi) as (q & e & Hq & He & Hx). exists q, e. auto.
  - intros (c & q & e & Ha & Hw & Ht & Hc). exists c, q, e. split; [by eapply lookup_weaken|]. auto.
  - intros (x & y & Ha & Hx & Hy & H). exists x, y. split; [by eapply lookup_weaken|]. auto.
  - intros (x & y & Ha & Hx & Hy & H). exists x, y. split; [by eapply lookup_weaken|]. auto.
  - intros (c & Ha & Ht & Hc). exists c. split; [by eapply lookup_weaken|]. auto.
Qed.
(** The strings are stretches of the line. *)
#[local] Abbreviation tree N m := (shape (word_at m) N).
Lemma tree_mono N N' m a t : N ⊆ N' -> tree N m a t -> tree N' m a t.
Proof. intros HN. by apply shape_weaken. Qed.

(** What [malloc] promises: while there is [room], the address of a new object,
    which can be written as often as needed. *)
Class ShellLaws (S : Type) `{Shell S} : Type := {
  room : S -> nat -> Prop;
  malloc_ok n s k : room s (Datatypes.S k) ->
    exists a s', malloc n s = Ret (Some a, s') /\ a <> 0 /\ lget (T := gmap Z cmd) s !! a = None /\ lget (T := gmap Z cmd) s' = lget s /\
      lget (T := mem) s' = lget s /\ forall c, room (lput (<[a := c]> (lget (T := gmap Z cmd) s')) s') k;
  room_write a c c' s k : lget (T := gmap Z cmd) s !! a = Some c -> room s k -> room (lput (<[a := c']> (lget (T := gmap Z cmd) s)) s) k;
  mem_of_cmds (x : gmap Z cmd) s : lget (T := mem) (lput x s) = lget s;
  cmds_of_mem (x : mem) s : lget (T := gmap Z cmd) (lput x s) = lget s
}.

Section Parsing.
Context {S : Type} `{ShellLaws S}.
Context (lit : string -> Z) (fuel : nat).
Context (m : mem) (es : Z).
#[local] Abbreviation cmds := (lget (T := gmap Z cmd)).
#[local] Abbreviation memof := (lget (T := mem)).

(** [c] returns a value and a state with the same line for which [Q] holds. *)
Definition goes {A} (c : P S A) (s : S) (Q : A -> S -> Prop) : Prop := exists a s', c s = Ret (Some a, s') /\ memof s' = m /\ Q a s'.

Lemma goes_ret {A} (a : A) s (Q : A -> S -> Prop) : memof s = m -> Q a s -> goes (pret a) s Q.
Proof. intros Hm HQ. by exists a, s. Qed.
Lemma goes_bind {A B} (c : P S A) (k : A -> P S B) s Q R : goes c s Q -> (forall a s', memof s' = m -> Q a s' -> goes (k a) s' R) ->
  goes (pbind c k) s R.
Proof.
  intros (a & s1 & R1 & Hm & HQ) Hk. destruct (Hk a s1 Hm HQ) as (b & s2 & R2 & HH2). exists b, s2. split; [|exact HH2].
  unfold pbind. by erewrite kbind_ret by exact R1.
Qed.
Lemma goes_weaken {A} (c : P S A) s (Q R : A -> S -> Prop) : goes c s Q -> (forall a s', Q a s' -> R a s') -> goes c s R.
Proof. intros (a & s' & R1 & Hm & HQ) Hw. exists a, s'. split; [done|]. split; [done|]. by apply Hw. Qed.

(** Reading the line: the result is known and the state is the same. *)
Lemma umem_ok {A} (f : mem -> A) s : memof s = m -> umem f s = Ret (Some (f m), s).
Proof. intros Hm. unfold umem, plift. erewrite kbind_ret by (apply via_ret; reflexivity). rewrite lput_lget. by rewrite Hm. Qed.
Lemma pbind_step {A B} (c : P S A) (k : A -> P S B) s a s' : c s = Ret (Some a, s') -> pbind c k s = k a s'.
Proof. intros R. unfold pbind. by erewrite kbind_ret by exact R. Qed.
Lemma goes_step {A B} (c : P S A) (k : A -> P S B) s a s' R : c s = Ret (Some a, s') -> goes (k a) s' R -> goes (pbind c k) s R.
Proof. intros R1 (b & s2 & R2 & HH2). exists b, s2. split; [|exact HH2]. by rewrite (pbind_step _ _ _ _ _ R1). Qed.

Lemma get_ok s p : memof s = m -> get p es s = Ret (Some (gettoken m p es), s).
Proof. apply umem_ok. Qed.
Lemma look_ok s p toks : memof s = m -> look p es toks s = Ret (Some (peek m p es (chars toks)), s).
Proof. apply umem_ok. Qed.

(** The next token, as [peek] sees it. *)
Definition next_in (toks : string) (ts : list tk) : bool := match ts with [] => false | t :: _ => is_in (chars toks) (tk_head t) end.
Lemma peek_lexes p ts toks : lexes m es p ts -> peek m p es (chars toks) = (next_in toks ts, skip m p es).
Proof.
  intros HL. unfold peek. f_equal. destruct ts as [|t ts]; cbn [lexes next_in] in *.
  - destruct HL as [-> ->]. done.
  - destruct HL as (Hok & (_ & Hh & _) & _).
    assert (Hq : t_q (gettoken m p es) = skip m p es) by (unfold gettoken; by destruct (if _ : bool then _ else _) as [? ?]).
    rewrite Hq in Hh. rewrite Hh. assert (Hn : tk_head t <> 0).
    { destruct t as [w|c|]; [|apply sym_cases in Hok; by destruct Hok as [<-|[<-|[<-|[<-|[<-|[<-|[<-|[]]]]]]]]|done].
      cbn in Hok. apply andb_true_iff in Hok as [Hn Hpl]. destruct w as [|c w]; [done|]. cbn in Hpl |- *. apply andb_true_iff in Hpl as [Hpl _].
      intros ->. done. }
    by rewrite (proj2 (Z.eqb_neq _ _) Hn).
Qed.

(** Making a command. *)
Lemma new_cmd_ok n c s k : room s (Datatypes.S k) -> memof s = m ->
  goes (new_cmd n c) s (fun a s' => a <> 0 /\ cmds s !! a = None /\ cmds s' = <[a := c]> (cmds s) /\ room s' k).
Proof.
  intros Hr Hm. destruct (malloc_ok n s k Hr) as (a & s1 & R1 & Ha & Hf & Hc & Hm1 & Hr1).
  exists a, (lput (<[a := c]> (cmds s1)) s1). split; [|split; [by rewrite mem_of_cmds, Hm1|split; [done|split; [done|split; [by rewrite lget_lput, Hc|exact (Hr1 c)]]]]].
  unfold new_cmd. rewrite (pbind_step _ _ _ _ _ R1), (proj2 (Z.eqb_neq _ _) Ha). erewrite pbind_step; [reflexivity|].
  unfold setc, plift. by erewrite kbind_ret by (apply via_ret; reflexivity).
Qed.

(** Which tokens may follow. *)
Definition follow (cs : string) (ts : list tk) : bool := match ts with [] => true | Sym c :: _ => is_in (chars cs) c | _ => false end.
Lemma follow_not cs toks ts : follow cs ts = true -> forallb (fun c => negb (is_in (chars toks) c)) (chars cs) = true -> next_in toks ts = false.
Proof.
  intros Hf Hd. destruct ts as [|[w|c|] ts]; [done|done| |done]. cbn [next_in follow tk_head tk_text hd] in *. apply is_in_list in Hf.
  rewrite forallb_forall in Hd. by apply negb_true_iff, Hd.
Qed.
Lemma next_word toks w ts : tk_ok (Word w) = true -> forallb (is_in symbols) (chars toks) = true -> next_in toks (Word w :: ts) = false.
Proof.
  intros Hok Ht. cbn [next_in]. cbn in Hok. apply andb_true_iff in Hok as [Hn Hpl]. destruct w as [|c w]; [done|].
  cbn in Hpl. apply andb_true_iff in Hpl as [Hpl _]. apply negb_true_iff in Hpl. unfold special in Hpl. apply orb_false_iff in Hpl as [_ Hs].
  cbn [tk_head tk_text hd]. apply not_true_iff_false. intros Hin. apply is_in_list in Hin. rewrite forallb_forall in Ht. by rewrite (Ht c Hin) in Hs.
Qed.

(** *** Redirections *)

Definition redirs (rs : list (redir * list Z)) : list tk := concat (map (fun x => [r_tk x.1; Word x.2]) rs).
Definition wrap (t : ast) (rs : list (redir * list Z)) : ast := foldl (fun t x => TRedir t x.1 x.2) t rs.
(** [d] is [c] inside the redirections [rs], the first one innermost. *)
Fixpoint wraps (N : gmap Z cmd) (c d : Z) (rs : list (redir * list Z)) : Prop :=
  match rs with
  | [] => d = c
  | x :: rs => exists c1 q e, N !! c1 = Some (REDIR c q e (r_mode x.1) (r_fd x.1)) /\ word_at m q e x.2 /\ c1 <> 0 /\ wraps N c1 d rs
  end.
Lemma wraps_mono N N' rs : N ⊆ N' -> forall c d, wraps N c d rs -> wraps N' c d rs.
Proof.
  intros HN. induction rs as [|x rs IH]; intros c d; cbn [wraps]; [done|]. intros (c1 & q & e & Hl & Hw & Hnz & Hr).
  exists c1, q, e. split; [by eapply lookup_weaken|]. split; [done|]. split; [done|]. by apply IH.
Qed.
Lemma wraps_exec N a x y x' y' rs : N !! a = Some (EXEC x y) -> forall c d, wraps N c d rs -> wraps (<[a := EXEC x' y']> N) c d rs.
Proof.
  intros Ha. induction rs as [|z rs IH]; intros c d; cbn [wraps]; [done|]. intros (c1 & q & e & Hl & Hw & Hnz & Hr).
  exists c1, q, e. split; [|split; [done|split; [done|by apply IH]]]. rewrite lookup_insert_ne; [done|]. intros ->. congruence.
Qed.
Lemma wraps_tree N rs : forall c d t, tree N m c t -> c <> 0 -> wraps N c d rs -> tree N m d (wrap t rs) /\ d <> 0.
Proof.
  induction rs as [|x rs IH]; intros c d t Ht Hc; cbn [wraps]; [intros ->; by split|]. intros (c1 & q & e & Hl & Hw & Hnz & Hr).
  apply (IH c1 d (TRedir t x.1 x.2)); [|done|done]. cbn [shape]. exists c, q, e. by split.
Qed.
Lemma wraps_app N rs1 : forall c d e rs2, wraps N c d rs1 -> wraps N d e rs2 -> wraps N c e (rs1 ++ rs2).
Proof.
  induction rs1 as [|x rs1 IH]; intros c d e rs2; cbn [wraps app]; [by intros ->|]. intros (c1 & q & e1 & Hl & Hw & Hnz & Hr) HH2.
  exists c1, q, e1. split; [done|]. split; [done|]. split; [done|]. by apply (IH c1 d).
Qed.

Lemma parseredirs_ok rs : forall n c p rest s k, lexes m es p (redirs rs ++ rest) -> next_in "<>" rest = false -> memof s = m ->
  room s (length rs + k) -> (length rs < n)%nat ->
  goes (parseredirs lit fuel n c p es) s (fun x s' => lexes m es (snd x) rest /\ wraps (cmds s') c (fst x) rs /\ cmds s ⊆ cmds s' /\ room s' k).
Proof.
  induction rs as [|[r f] rs IH]; intros [|n] c p rest s k HL Hf Hm Hr Hn; cbn [length] in *; try lia; cbn [parseredirs].
  - eapply goes_step; [by apply look_ok|]. cbn [redirs concat map app] in HL. rewrite (peek_lexes _ _ _ HL), Hf. cbn [fst snd].
    apply goes_ret; [done|]. cbn [fst snd wraps]. split; [by apply lexes_skip|]. by split.
  - cbn [redirs concat map app fst snd] in HL. assert (HL' := HL). cbn [lexes] in HL. destruct HL as (Hok & (Hk & _ & _) & HL).
    set (k1 := gettoken m p es) in *. cbn [lexes] in HL. destruct HL as (Hok2 & (Hk2 & _ & _ & Hw) & HL). set (k2 := gettoken m (t_ps k1) es) in *.
    eapply goes_step; [by apply look_ok|]. rewrite (peek_lexes _ _ _ HL'). cbn [next_in fst snd].
    replace (is_in (chars "<>") (tk_head (r_tk r))) with true by (by destruct r).
    eapply goes_step; [by apply get_ok|]. rewrite gettoken_skip. fold k1. eapply goes_step; [by apply get_ok|]. fold k2.
    rewrite Hk2. cbn [tk_kind]. rewrite Z.eqb_refl. cbn [negb].
    eapply goes_bind.
    { assert (Hc : goes (redircmd c (t_q k2) (t_eq k2) (r_mode r) (r_fd r)) s (fun a s' => a <> 0 /\ cmds s !! a = None /\
        cmds s' = <[a := REDIR c (t_q k2) (t_eq k2) (r_mode r) (r_fd r)]> (cmds s) /\ room s' (length rs + k))) by (by apply new_cmd_ok).
      rewrite Hk. destruct r; exact Hc. }
    intros a s1 Hm1 (Ha & Hnone & Hcm & Hr1). eapply goes_weaken; [apply (IH n a (t_ps k2) rest s1 k); [done|done|done|done|lia]|].
    + intros x s' (HL2 & HW & HN & Hr'). split; [done|]. split; [|split; [|done]].
      * cbn [wraps fst snd]. exists a, (t_q k2), (t_eq k2). split; [|by split]. eapply lookup_weaken; [|exact HN]. rewrite Hcm. apply lookup_insert_eq.
      * etransitivity; [|exact HN]. rewrite Hcm. by apply insert_subseteq.
Qed.

(** *** Arguments *)

(** The arrays of an [execcmd] with [k] entries. *)
Definition padded (qs : list Z) : list Z := qs ++ replicate (10 - length qs) 0.
Lemma padded_insert qs q : (length qs < 10)%nat -> <[length qs := q]> (padded qs) = padded (qs ++ [q]).
Proof.
  intros Hl. unfold padded. rewrite insert_app_r_alt by lia. rewrite Nat.sub_diag, length_app. cbn [length].
  replace (10 - length qs)%nat with (Datatypes.S (10 - (length qs + 1))) by lia. cbn [replicate]. by rewrite <- app_assoc.
Qed.
Lemma padded_end qs : (length qs < 10)%nat -> <[length qs := 0]> (padded qs) = padded qs.
Proof.
  intros Hl. unfold padded. rewrite insert_app_r_alt by lia. rewrite Nat.sub_diag.
  by replace (10 - length qs)%nat with (Datatypes.S (9 - length qs)) by lia.
Qed.
Lemma set_arg_ok a qs es0 q e s : cmds s !! a = Some (EXEC (padded qs) (padded es0)) -> length es0 = length qs -> (length qs < 10)%nat ->
  set_arg a (Z.of_nat (length qs)) q e s =
  Ret (Some tt, lput (<[a := EXEC (<[length qs := q]> (padded qs)) (<[length qs := e]> (padded es0))]> (cmds s)) s).
Proof.
  intros Ha Hl Hn. unfold set_arg. erewrite pbind_step.
  2:{ unfold getc, plift. erewrite kbind_ret; [reflexivity|]. apply via_ret. by rewrite Ha. }
  rewrite (proj2 (Z.leb_le _ _)), (proj2 (Z.ltb_lt _ _)) by (unfold MAXARGS; lia). cbn [andb]. rewrite Nat2Z.id, lput_lget.
  unfold setc, plift. by erewrite kbind_ret by (apply via_ret; reflexivity).
Qed.

(** The arguments read so far. *)
Definition args_at (qs es0 : list Z) (args : list (list Z)) : Prop :=
  length qs = length args /\ length es0 = length args /\
  forall i w, args !! i = Some w -> exists q e, qs !! i = Some q /\ es0 !! i = Some e /\ word_at m q e w.
Lemma args_at_snoc qs es0 args q e w : args_at qs es0 args -> word_at m q e w -> args_at (qs ++ [q]) (es0 ++ [e]) (args ++ [w]).
Proof.
  intros (L1 & L2 & Ha) Hw. unfold args_at. rewrite !length_app. cbn [length]. split; [lia|]. split; [lia|].
  intros i x Hi. apply lookup_app_Some in Hi as [Hi|[Hi Hx]].
  - destruct (Ha i x Hi) as (q1 & e1 & Hq & He & Hx). exists q1, e1. split; [by apply lookup_app_l_Some|]. by split; [apply lookup_app_l_Some|].
  - apply list_lookup_singleton_Some in Hx as [Hx <-]. exists q, e. rewrite !lookup_app_r by lia.
    replace (i - length qs)%nat with O by lia. replace (i - length es0)%nat with O by lia. done.
Qed.
Lemma args_tree N a qs es0 args : args_at qs es0 args -> N !! a = Some (EXEC (padded qs) (padded es0)) -> tree N m a (TExec args).
Proof.
  intros (L1 & L2 & Ha) Hl. exists qs, es0. split; [|by split]. unfold padded in Hl. by rewrite L1, L2 in Hl.
Qed.

(** What a parser function makes of [t] when [rest] is left. *)
Definition made (t : ast) (rest : list tk) (k : nat) (N : gmap Z cmd) (x : Z * Z) (s' : S) : Prop :=
  lexes m es (snd x) rest /\ N ⊆ cmds s' /\ tree (cmds s') m (fst x) t /\ fst x <> 0 /\ room s' k.

(** Whether the redirections come before the next word is read, or after it. *)
Definition now {A B} (ws : list A) (l : list B) : list B := match ws with [] => l | _ => [] end.
Definition later {A B} (ws : list A) (l : list B) : list B := match ws with [] => [] | _ => l end.

(** No argument is left. *)
Lemma exec_loop_end N n a ret ar rs0 p rest qs es0 s k :
  lexes m es p rest -> follow "|&;)" rest = true -> memof s = m ->
  cmds s !! a = Some (EXEC (padded qs) (padded es0)) -> args_at qs es0 ar -> a <> 0 -> N ⊆ cmds s ->
  wraps (cmds s) a ret rs0 -> (length ar < 10)%nat -> room s k ->
  goes (exec_loop lit fuel (Datatypes.S n) a ret (Z.of_nat (length qs)) p es) s (made (wrap (TExec ar) rs0) rest k N).
Proof.
  intros HL Hf Hm Ha Hargs Ha0 HN HW Hlen Hr. cbn [exec_loop]. destruct (Hargs) as (L1 & L2 & _).
  assert (Hset : set_arg a (Z.of_nat (length qs)) 0 0 s = Ret (Some tt, s)).
  { rewrite (set_arg_ok a qs es0 0 0 s Ha) by lia. rewrite padded_end by lia. replace (length qs) with (length es0) by lia. rewrite padded_end by lia.
    do 2 f_equal. rewrite insert_id by exact Ha. apply lput_lget. }
  destruct (wraps_tree (cmds s) rs0 a ret (TExec ar)) as [HT Hnz]; [by apply (args_tree _ _ qs es0)|done|done|].
  eapply goes_step; [by apply look_ok|]. rewrite (peek_lexes _ _ _ HL). cbn [fst snd]. destruct (next_in "|)&;" rest) eqn:En.
  + eapply goes_step; [exact Hset|]. apply goes_ret; [done|]. split; [by apply lexes_skip|]. by split.
  + assert (rest = []) as ->.
    { destruct rest as [|[w|c|] rest]; [done|done| |done]. cbn [follow next_in tk_head tk_text hd] in Hf, En. apply is_in_list in Hf.
      exfalso. revert En. apply not_false_iff_true. apply existsb_exists. exists c. split; [|apply Z.eqb_refl].
      by destruct Hf as [<-|[<-|[<-|[<-|[]]]]]; cbn; tauto. }
    cbn [lexes] in HL. destruct HL as [Hsk Hz]. eapply goes_step; [by apply get_ok|]. rewrite gettoken_skip, (gettoken_at m p es es Hsk).
    cbv zeta. rewrite Hz. cbn [Z.eqb t_kind t_ps]. eapply goes_step; [exact Hset|]. apply goes_ret; [done|]. split.
    * assert (Hss : skip m es es = es) by (apply skip_nonwhite; by rewrite Hz). cbn [snd lexes]. by rewrite !Hss.
    * by split.
Qed.
Lemma exec_loop_ok N ws : forall n a ret ar rs0 rs p rest qs es0 s k,
  lexes m es p (map Word ws ++ later ws (redirs rs) ++ rest) -> (ws = [] -> rs = []) -> follow "|&;)" rest = true -> memof s = m ->
  cmds s !! a = Some (EXEC (padded qs) (padded es0)) -> args_at qs es0 ar -> a <> 0 -> N !! a = None -> N ⊆ cmds s ->
  wraps (cmds s) a ret rs0 -> (ws <> [] -> rs0 = []) -> (length ar + length ws < 10)%nat -> room s (length rs + k) ->
  (length ws < n)%nat -> (length rs < fuel)%nat ->
  goes (exec_loop lit fuel n a ret (Z.of_nat (length qs)) p es) s (made (wrap (TExec (ar ++ ws)) (rs0 ++ rs)) rest k N).
Proof.
  induction ws as [|w ws IH]; intros [|n] a ret ar rs0 rs p rest qs es0 s k HL Hrs Hf Hm Ha Hargs Ha0 HNa HN HW Hw0 Hlen Hr Hn Hfu;
    cbn [length] in *; try lia.
  - rewrite (Hrs eq_refl) in *. cbn [map app later] in HL. rewrite !app_nil_r. eapply exec_loop_end; try eassumption. lia.
  - cbn [exec_loop]. cbn [map app] in HL. assert (HL' := HL). cbn [lexes] in HL. destruct HL as (Hok & (Hk & _ & _ & Hw) & HL). set (k1 := gettoken m p es) in *.
    eapply goes_step; [by apply look_ok|]. rewrite (peek_lexes _ _ _ HL'), next_word by done. cbn [fst snd].
    eapply goes_step; [by apply get_ok|]. rewrite gettoken_skip. fold k1. rewrite Hk. cbn [tk_kind]. change (chr "a" =? 0) with false. cbv iota.
    rewrite Z.eqb_refl. cbn [negb]. destruct (Hargs) as (L1 & L2 & _).
    eapply goes_step; [apply (set_arg_ok a qs es0); [exact Ha|lia|lia]|].
    rewrite padded_insert by lia. replace (<[length qs := t_eq k1]> (padded es0)) with (padded (es0 ++ [t_eq k1])) by (rewrite <- padded_insert by lia; by rewrite L1, L2).
    set (s1 := lput _ s).
    assert (E1 : cmds s1 = <[a := EXEC (padded (qs ++ [t_q k1])) (padded (es0 ++ [t_eq k1]))]> (cmds s)) by apply lget_lput.
    rewrite (Hw0 ltac:(done)) in *. cbn [wraps] in HW. subst ret.
    rewrite (proj2 (Z.leb_gt _ _)) by (unfold MAXARGS; lia).
    set (rs1 := now ws rs). set (rs2 := later ws rs).
    assert (Hrest : lexes m es (t_ps k1) (redirs rs1 ++ map Word ws ++ later ws (redirs rs2) ++ rest)) by (unfold rs1, rs2, now, later; destruct ws; exact HL).
    assert (Hlr : (length rs1 + length rs2 = length rs)%nat) by (unfold rs1, rs2, now, later; destruct ws; cbn; lia).
    eapply goes_bind.
    { apply (parseredirs_ok rs1 fuel a (t_ps k1) _ s1 (length rs2 + k) Hrest); [|unfold s1; by rewrite mem_of_cmds|unfold s1; eapply room_write; [exact Ha|]; by replace (length rs1 + (length rs2 + k))%nat with (length rs + k)%nat by lia|lia].
      destruct ws as [|w2 ws]; [by apply (follow_not "|&;)")|]. cbn [map app]. apply next_word; [|done].
      clear - HL. cbn [map app lexes] in HL. by destruct HL as (? & _). }
    intros [ret p'] s2 Hm2 (HL2 & HW2 & HN2 & Hr2). cbn [fst snd] in *.
    replace (Z.of_nat (length qs) + 1) with (Z.of_nat (length (qs ++ [t_q k1]))) by (rewrite length_app; cbn; lia).
    rewrite E1 in HN2. assert (Ha2 : cmds s2 !! a = Some (EXEC (padded (qs ++ [t_q k1])) (padded (es0 ++ [t_eq k1])))).
    { eapply lookup_weaken; [|exact HN2]. apply lookup_insert_eq. }
    eapply goes_weaken.
    { apply (IH n a ret (ar ++ [w]) rs1 rs2 p' rest (qs ++ [t_q k1]) (es0 ++ [t_eq k1]) s2 k); try done.
      - by intros ->.
      - by apply args_at_snoc.
      - etransitivity; [|exact HN2]. by apply insert_subseteq_r.
      - unfold rs1. by destruct ws.
      - rewrite length_app. cbn. lia.
      - lia.
      - lia. }
    intros x s' HM. unfold rs1, rs2, now, later in HM. rewrite <- app_assoc in HM. cbn [app] in HM.
    destruct ws; [by rewrite app_nil_r in HM|exact HM].
Qed.

(** *** Pipelines, lines and blocks *)

(** A command without the [&]s after it, and their number. *)
Fixpoint core (t : ast) : ast := match t with TBack t => core t | _ => t end.
Fixpoint ands (t : ast) : nat := match t with TBack t => Datatypes.S (ands t) | _ => O end.
Definition amp : tk := Sym (chr "&").
Lemma core_ands t : t = Nat.iter (ands t) TBack (core t).
Proof. induction t as [| | | |t IH]; [done..|]. exact (f_equal TBack IH). Qed.
Lemma size_core t : (size t = ands t + size (core t))%nat.
Proof. induction t; cbn [ands core size]; lia. Qed.
Lemma valid_core t : valid t = true -> valid (core t) = true.
Proof. induction t; cbn [core]; auto. Qed.
Lemma print_back t : print LBack t = print LPipe (core t) ++ replicate (ands t) amp.
Proof.
  induction t as [args|t IH r f|l IHl r IHr|l IHl r IHr|t IH]; cbn [core ands replicate]; rewrite ?app_nil_r; [done..|].
  cbn [print]. unfold parens. rewrite IH, <- app_assoc. f_equal. symmetry. exact (replicate_cons_app (ands t) amp).
Qed.
Lemma print_line t : (forall a b, t <> TList a b) -> print LLine t = print LBack t.
Proof. destruct t; try done. intros Hn. by destruct (Hn t1 t2). Qed.
Lemma print_pipe t : (forall a b, t <> TPipe a b) -> print LPipe t = print LExec t.
Proof. destruct t; try done. intros Hn. by destruct (Hn t1 t2). Qed.

(** The symbol that comes next is there, and reading it. *)
Lemma lexes_sym p c ts : lexes m es p (Sym c :: ts) -> lexes m es (t_ps (gettoken m (skip m p es) es)) ts.
Proof. intros (_ & _ & HL). by rewrite gettoken_skip. Qed.

Lemma goes_assoc {A B C} (c : P S A) (f : A -> P S B) (g : B -> P S C) s Q :
  goes (pbind (pbind c f) g) s Q -> goes (pbind c (fun x => pbind (f x) g)) s Q.
Proof.
  intros (x & s' & R & HQ). exists x, s'. split; [|exact HQ]. rewrite <- R. unfold pbind, kbind.
  destruct (c s) as [[[a|] s1]| | | |]; reflexivity.
Qed.
Lemma made_weaken t rest k N N' x s' : N ⊆ N' -> made t rest k N' x s' -> made t rest k N x s'.
Proof. intros HN (H3 & H4 & H5 & H6). split; [done|]. split; [by etransitivity|]. by split. Qed.

Lemma back_loop_ok j : forall n c t p rest s k, lexes m es p (replicate j amp ++ rest) -> next_in "&" rest = false ->
  tree (cmds s) m c t -> c <> 0 -> memof s = m -> room s (j + k) -> (j < n)%nat ->
  goes (back_loop n c p es) s (made (Nat.iter j TBack t) rest k (cmds s)).
Proof.
  induction j as [|j IH]; intros [|n] c t p rest s k HL Hf HT Hc Hm Hr Hn; try lia; cbn [back_loop replicate app] in *.
  - eapply goes_step; [by apply look_ok|]. rewrite (peek_lexes _ _ _ HL), Hf. cbn [fst snd]. apply goes_ret; [done|].
    split; [by apply lexes_skip|]. by split.
  - eapply goes_step; [by apply look_ok|]. rewrite (peek_lexes _ _ _ HL). cbn [next_in fst snd].
    change (is_in (chars "&") (tk_head amp)) with true. cbv iota.
    eapply goes_step; [by apply get_ok|]. eapply goes_bind; [by apply (new_cmd_ok _ _ s (j + k))|]. intros a s1 Hm1 (Ha & Hnone & Hcm & Hr1).
    assert (HN : cmds s ⊆ cmds s1) by (rewrite Hcm; by apply insert_subseteq).
    eapply goes_weaken; [apply (IH n a (TBack t) _ rest s1 k); [exact (lexes_sym _ _ _ HL)|done| |done|done|done|lia]|].
    + exists c. split; [rewrite Hcm; apply lookup_insert_eq|]. by split; [eapply tree_mono|].
    + intros x s' HM. rewrite Nat.iter_succ_r. by eapply made_weaken.
Qed.

(** What is proved of each level. *)
Definition PE (t : ast) : Prop := forall n p rs rest s k, lexes m es p (print LExec t ++ redirs rs ++ rest) -> follow "|&;)" rest = true ->
  memof s = m -> room s (size t + length rs + k) -> (4 * length (print LExec t ++ redirs rs) + 1 <= n <= fuel)%nat ->
  goes (parseexec lit fuel n p es) s (made (wrap t rs) rest k (cmds s)).
Definition PP (t : ast) : Prop := forall n p rest s k, lexes m es p (print LPipe t ++ rest) -> follow "&;)" rest = true ->
  memof s = m -> room s (size t + k) -> (4 * length (print LPipe t) + 2 <= n <= fuel)%nat ->
  goes (parsepipe lit fuel n p es) s (made t rest k (cmds s)).
Definition PL (t : ast) : Prop := forall n p rest s k, lexes m es p (print LLine t ++ rest) -> follow ")" rest = true ->
  memof s = m -> room s (size t + k) -> (4 * length (print LLine t) + 3 <= n <= fuel)%nat ->
  goes (parseline lit fuel n p es) s (made t rest k (cmds s)).

Lemma follow_weaken c1 c2 ts : follow c1 ts = true -> forallb (is_in (chars c2)) (chars c1) = true -> follow c2 ts = true.
Proof.
  intros Hf Hc. destruct ts as [|[w|c|] ts]; try done. cbn [follow] in *. apply is_in_list in Hf. rewrite forallb_forall in Hc. by apply Hc.
Qed.

(** One pipeline and the [&]s after it. *)
Lemma parseback_ok t n p rest s k : PP (core t) -> lexes m es p (print LBack t ++ rest) -> follow ";)" rest = true ->
  memof s = m -> room s (size t + k) -> (4 * length (print LBack t) + 2 <= n <= fuel)%nat ->
  goes (r <~ parsepipe lit fuel n p es ;; back_loop fuel (fst r) (snd r) es) s (made t rest k (cmds s)).
Proof.
  intros HP HL Hf Hm Hr Hn. rewrite print_back, <- app_assoc in HL. rewrite print_back, length_app, length_replicate in Hn. rewrite size_core in Hr.
  eapply goes_bind.
  { apply (HP n p _ s (ands t + k)%nat HL); [|done|by replace (size (core t) + (ands t + k))%nat with (ands t + size (core t) + k)%nat by lia|lia].
    destruct (ands t); [by apply (follow_weaken ";)")|done]. }
  intros [c p'] s1 Hm1 (HL1 & HN1 & HT1 & Hc1 & Hr1). cbn [fst snd] in *.
  eapply goes_weaken; [apply (back_loop_ok (ands t) fuel c (core t) p' rest s1 k); try done; [by apply (follow_not ";)")|lia]|].
  intros x s' HM. rewrite <- core_ands in HM. by eapply made_weaken.
Qed.

(** The command made of two. *)
Lemma pair_ok (mk : Z -> Z -> cmd) (T : ast -> ast -> ast) n a b c d p rest N s k :
  (forall N e, N !! e = Some (mk c d) -> tree N m c a -> tree N m d b -> c <> 0 -> d <> 0 -> tree N m e (T a b)) ->
  tree (cmds s) m c a -> c <> 0 -> tree (cmds s) m d b -> d <> 0 -> lexes m es p rest -> N ⊆ cmds s -> memof s = m -> room s (Datatypes.S k) ->
  goes (e <~ new_cmd n (mk c d) ;; pret (e, p)) s (made (T a b) rest k N).
Proof.
  intros HT Ha Hc Hb Hd HL HN Hm Hr. eapply goes_bind; [by apply (new_cmd_ok _ _ s k)|]. intros e s3 Hm3 (He & Hnone & Hcm & Hr3). apply goes_ret; [done|].
  assert (HN3 : cmds s ⊆ cmds s3) by (rewrite Hcm; by apply insert_subseteq).
  split; [done|]. split; [by etransitivity|]. split; [|by split]. cbn [fst]. apply HT; [rewrite Hcm; apply lookup_insert_eq| | |done|done]; by eapply tree_mono.
Qed.

(** The first step of [parseline] done, [parseback_ok] gives the rest. *)
Lemma line_last t : (forall a b, t <> TList a b) -> PP (core t) -> PL t.
Proof.
  intros Hnl HP [|n] p rest s k HL Hf Hm Hr Hn; [lia|]. rewrite print_line in HL, Hn by done. cbn [parseline]. apply goes_assoc.
  eapply goes_bind; [apply (parseback_ok t n p rest s k); [done|done|by apply (follow_weaken ")")|done|done|lia]|].
  intros [c p'] s1 Hm1 (HL1 & HN1 & HT1 & Hc1 & Hr1). cbn [fst snd] in *.
  eapply goes_step; [by apply look_ok|]. rewrite (peek_lexes _ _ _ HL1), (follow_not ")") by done. cbn [fst snd].
  apply goes_ret; [done|]. split; [by apply lexes_skip|]. by split.
Qed.
Lemma line_list a b : PP (core a) -> PL b -> PL (TList a b).
Proof.
  intros HP HPL [|n] p rest s k HL Hf Hm Hr Hn; [lia|]. cbn [print] in HL, Hn. unfold parens in HL, Hn. rewrite <- app_assoc in HL. cbn [app] in HL.
  rewrite length_app in Hn. cbn [length size] in Hn, Hr. cbn [parseline]. apply goes_assoc.
  eapply goes_bind.
  { apply (parseback_ok a n p _ s (size b + Datatypes.S k)%nat HP HL); [done|done|by replace (size a + (size b + Datatypes.S k))%nat with (Datatypes.S (size a + size b) + k)%nat by lia|lia]. }
  intros [c p'] s1 Hm1 (HL1 & HN1 & HT1 & Hc1 & Hr1). cbn [fst snd] in *.
  eapply goes_step; [by apply look_ok|]. rewrite (peek_lexes _ _ _ HL1). cbn [next_in fst snd].
  change (is_in (chars ";") (tk_head (Sym (chr ";")))) with true. cbv iota. eapply goes_step; [by apply get_ok|].
  eapply goes_bind; [apply (HPL n _ rest s1 (Datatypes.S k)); [exact (lexes_sym _ _ _ HL1)|done|done|done|lia]|].
  intros [d p''] s2 Hm2 (HL2 & HN2 & HT2 & Hd2 & Hr2). cbn [fst snd] in *.
  eapply (pair_ok LIST TList); [by intros; eexists _, _|..]; try eassumption; [by eapply tree_mono|by etransitivity].
Qed.

Lemma pipe_last t : (forall a b, t <> TPipe a b) -> PE t -> PP t.
Proof.
  intros Hnp HP [|n] p rest s k HL Hf Hm Hr Hn; [lia|]. rewrite print_pipe in HL, Hn by done. cbn [parsepipe].
  eapply goes_bind.
  { apply (HP n p [] rest s k HL); [by apply (follow_weaken "&;)")|done|cbn [length]; by rewrite Nat.add_0_r|cbn [redirs concat map]; rewrite app_nil_r; lia]. }
  intros [c p'] s1 Hm1 (HL1 & HN1 & HT1 & Hc1 & Hr1). cbn [fst snd] in *.
  eapply goes_step; [by apply look_ok|]. rewrite (peek_lexes _ _ _ HL1), (follow_not "&;)") by done. cbn [fst snd].
  apply goes_ret; [done|]. split; [by apply lexes_skip|]. by split.
Qed.
Lemma pipe_pipe a b : PE a -> PP b -> PP (TPipe a b).
Proof.
  intros HP HPb [|n] p rest s k HL Hf Hm Hr Hn; [lia|]. cbn [print] in HL, Hn. unfold parens in HL, Hn. rewrite <- app_assoc in HL. cbn [app] in HL.
  rewrite length_app in Hn. cbn [length size] in Hn, Hr. cbn [parsepipe].
  eapply goes_bind.
  { apply (HP n p [] _ s (size b + Datatypes.S k)%nat HL); [done|done| |cbn [redirs concat map]; rewrite app_nil_r; lia].
    cbn [length]. by replace (size a + 0 + (size b + Datatypes.S k))%nat with (Datatypes.S (size a + size b) + k)%nat by lia. }
  intros [c p'] s1 Hm1 (HL1 & HN1 & HT1 & Hc1 & Hr1). cbn [fst snd] in *.
  eapply goes_step; [by apply look_ok|]. rewrite (peek_lexes _ _ _ HL1). cbn [next_in fst snd].
  change (is_in (chars "|") (tk_head (Sym (chr "|")))) with true. cbv iota. eapply goes_step; [by apply get_ok|].
  eapply goes_bind; [apply (HPb n _ rest s1 (Datatypes.S k)); [exact (lexes_sym _ _ _ HL1)|done|done|done|lia]|].
  intros [d p''] s2 Hm2 (HL2 & HN2 & HT2 & Hd2 & Hr2). cbn [fst snd] in *.
  eapply (pair_ok PIPE TPipe); [by intros; eexists _, _|..]; try eassumption; [by eapply tree_mono|by etransitivity].
Qed.

(** One command without parentheses: [args_split] says when its redirections
    are read. *)
Lemma args_split ws rs rest :
  map Word ws ++ redirs rs ++ rest = redirs (now ws rs) ++ map Word ws ++ later ws (redirs (later ws rs)) ++ rest.
Proof. by destruct ws. Qed.
Lemma length_now {A B} (ws : list A) (rs : list B) : (length (now ws rs) + length (later ws rs) = length rs)%nat.
Proof. destruct ws; cbn; lia. Qed.
Lemma length_redirs rs : length (redirs rs) = (2 * length rs)%nat.
Proof. induction rs as [|x rs IH]; [done|]. cbn [redirs map concat app length]. fold (redirs rs). rewrite IH. cbn [length]. lia. Qed.

Lemma exec_words args : valid (TExec args) = true -> PE (TExec args).
Proof.
  intros Hv [|n] p rs rest s k HL Hf Hm Hr Hn; [lia|]. cbn [valid] in Hv. apply andb_true_iff in Hv as [Hv Hw]. apply Z.ltb_lt in Hv. unfold MAXARGS in Hv.
  cbn [print] in HL, Hn. rewrite length_app, length_map, length_redirs in Hn. cbn [size] in Hr.
  assert (Hpar : next_in "(" (map Word args ++ redirs rs ++ rest) = false).
  { destruct args as [|w args]; [|cbn [map app]; apply next_word; [|done]; by cbn in HL; destruct HL as (? & _)].
    destruct rs as [|[[] f] rs]; [by apply (follow_not "|&;)")|done..]. }
  assert (Hhd : next_in "<>" (map Word args ++ later args (redirs (later args rs)) ++ rest) = false).
  { destruct args as [|w args]; [by apply (follow_not "|&;)")|]. cbn [map app]. apply next_word; [|done]. by cbn in HL; destruct HL as (? & _). }
  cbn [parseexec]. eapply goes_step; [by apply look_ok|]. rewrite (peek_lexes _ _ _ HL), Hpar. cbn [fst snd].
  eapply goes_bind; [apply (new_cmd_ok _ _ s (length rs + k)%nat); [by replace (Datatypes.S (length rs + k)) with (1 + length rs + k)%nat by lia|done]|].
  intros a s1 Hm1 (Ha & Hnone & Hcm & Hr1). rewrite args_split in HL. assert (Hln := length_now args rs).
  eapply goes_bind.
  { apply (parseredirs_ok (now args rs) fuel a (skip m p es) (map Word args ++ later args (redirs (later args rs)) ++ rest) s1 (length (later args rs) + k)%nat); [by apply lexes_skip|done|done| |lia].
    by replace (length (now args rs) + (length (later args rs) + k))%nat with (length rs + k)%nat by lia. }
  intros [ret p'] s2 Hm2 (HL2 & HW2 & HN2 & Hr2). cbn [fst snd] in *. rewrite Hcm in HN2.
  eapply goes_weaken.
  { apply (exec_loop_ok (cmds s) args fuel a ret [] (now args rs) (later args rs) p' rest [] [] s2 k HL2); try done.
    - by intros ->.
    - eapply lookup_weaken; [|exact HN2]. apply lookup_insert_eq.
    - etransitivity; [|exact HN2]. by apply insert_subseteq.
    - by destruct args.
    - cbn [length]. lia.
    - lia.
    - lia. }
  intros x s' HM. cbn [app] in HM. replace (now args rs ++ later args rs) with rs in HM; [exact HM|]. destruct args; [by rewrite app_nil_r|done].
Qed.

Lemma exec_redir t r f : PE t -> PE (TRedir t r f).
Proof.
  intros HP n p rs rest s k HL Hf Hm Hr Hn. apply (HP n p ((r, f) :: rs)); [|done|done| |].
  - cbn [print] in HL. rewrite <- app_assoc in HL. exact HL.
  - cbn [size length] in *. by replace (size t + Datatypes.S (length rs) + k)%nat with (Datatypes.S (size t) + length rs + k)%nat by lia.
  - cbn [print] in Hn. rewrite <- app_assoc in Hn. exact Hn.
Qed.

(** A command in parentheses. *)
Lemma exec_block t : print LExec t = parens true (print LLine t) -> PL t -> PE t.
Proof.
  intros Hp HP [|[|n]] p rs rest s k HL Hf Hm Hr Hn; [lia|rewrite length_app, Hp in Hn; cbn [parens length app] in Hn; lia|].
  rewrite Hp in HL, Hn. unfold parens in HL, Hn. cbn [app] in HL, Hn. rewrite <- app_assoc in HL, Hn. cbn [app] in HL, Hn.
  cbn [length] in Hn. rewrite length_app in Hn. cbn [length] in Hn. rewrite length_redirs in Hn.
  assert (HL' := lexes_skip _ _ _ _ HL).
  cbn [parseexec]. eapply goes_step; [by apply look_ok|]. rewrite (peek_lexes _ _ _ HL). cbn [next_in fst snd].
  change (is_in (chars "(") (tk_head (Sym (chr "(")))) with true. cbv iota. cbn [parseblock].
  eapply goes_step; [by apply look_ok|]. rewrite (peek_lexes _ _ _ HL'). cbn [next_in fst snd].
  change (is_in (chars "(") (tk_head (Sym (chr "(")))) with true. cbv iota. cbn [negb].
  eapply goes_step; [by apply get_ok|].
  eapply goes_bind.
  { apply (HP n _ (Sym (chr ")") :: redirs rs ++ rest) s (length rs + k)%nat); [exact (lexes_sym _ _ _ HL')|done|done|by rewrite Nat.add_assoc|lia]. }
  intros [c p'] s1 Hm1 (HL1 & HN1 & HT1 & Hc1 & Hr1). cbn [fst snd] in *.
  eapply goes_step; [by apply look_ok|]. rewrite (peek_lexes _ _ _ HL1). cbn [next_in fst snd].
  change (is_in (chars ")") (tk_head (Sym (chr ")")))) with true. cbv iota. cbn [negb].
  eapply goes_step; [by apply get_ok|].
  eapply goes_weaken.
  { apply (parseredirs_ok rs fuel c _ rest s1 k (lexes_sym _ _ _ HL1)); [by apply (follow_not "|&;)")|done|done|lia]. }
  intros [d p''] s2 (HL2 & HW2 & HN2 & Hr2). cbn [fst snd] in *. split; [done|]. split; [by etransitivity|].
  destruct (wraps_tree (cmds s2) rs c d t) as [HT Hd]; [by eapply tree_mono|done|done|]. by split.
Qed.

Lemma parse_all t : valid t = true -> PE t /\ PP t /\ PP (core t) /\ PL t.
Proof.
  induction t as [args|t IH r f|a IHa b IHb|a IHa b IHb|t IH]; cbn [valid core]; intros Hv.
  - assert (HE := exec_words args Hv). assert (HP : PP (TExec args)) by (by apply pipe_last). split_and!; try done. by apply line_last.
  - apply andb_true_iff in Hv as [Hv _]. destruct (IH Hv) as (HE & _).
    assert (HE' := exec_redir t r f HE). assert (HP : PP (TRedir t r f)) by (by apply pipe_last). split_and!; try done. by apply line_last.
  - apply andb_true_iff in Hv as [Hv1 Hv2]. destruct (IHa Hv1) as (HE & _), (IHb Hv2) as (_ & HP & _).
    assert (HP' := pipe_pipe a b HE HP). assert (HL : PL (TPipe a b)) by (by apply line_last). split_and!; try done. by apply exec_block.
  - apply andb_true_iff in Hv as [Hv1 Hv2]. destruct (IHa Hv1) as (_ & _ & HC & _), (IHb Hv2) as (_ & _ & _ & HL).
    assert (HL' := line_list a b HC HL). assert (HE : PE (TList a b)) by (by apply exec_block). assert (HP : PP (TList a b)) by (by apply pipe_last). by split_and!.
  - destruct (IH Hv) as (_ & _ & HC & _). assert (HL : PL (TBack t)) by (by apply line_last).
    assert (HE : PE (TBack t)) by (by apply exec_block). assert (HP : PP (TBack t)) by (by apply pipe_last). by split_and!.
Qed.
End Parsing.

(** ** Ending the strings *)

(** In [m'] some separators of [m] are NULs. *)
Definition cuts (m m' : mem) : Prop := forall a, ld8 m' a = ld8 m a \/ special (ld8 m a) = true /\ ld8 m' a = 0.
Lemma cuts_refl m : cuts m m.
Proof. by left. Qed.
Lemma cuts_trans m1 m2 m3 : cuts m1 m2 -> cuts m2 m3 -> cuts m1 m3.
Proof.
  intros H1 H2 a. destruct (H1 a) as [E1|[S1 E1]], (H2 a) as [E2|[S2 E2]]; rewrite ?E1 in *; auto.
Qed.
Lemma cuts_st8 m e : special (ld8 m e) = true -> cuts m (st8 m e 0).
Proof.
  intros He a. destruct (decide (a = e)) as [->|Hne]; [right; split; [done|]|left]; rewrite ld8_st8; [by rewrite Z.eqb_refl|by rewrite (proj2 (Z.eqb_neq _ _) Hne)].
Qed.
Lemma word_cut m m' q e w : cuts m m' -> word_at m q e w -> word_at m' q e w.
Proof.
  intros Hc [Hb He Hp Hs Hn]. split; [|done|done| |done].
  - intros i c Hi. destruct (Hc (q + Z.of_nat i)) as [->|[HS _]]; [by apply Hb|]. exfalso. rewrite (Hb i c Hi) in HS.
    unfold plain in Hp. rewrite forallb_forall in Hp. specialize (Hp c). rewrite HS in Hp. by specialize (Hp (proj1 (list_elem_of_In _ _) (list_elem_of_lookup_2 _ _ _ Hi))).
  - destruct (Hc e) as [->|[_ ->]]; done.
Qed.
(** A word with its NUL. *)
Definition ended (m : mem) (q e : Z) (w : list Z) : Prop := word_at m q e w /\ ld8 m e = 0.
Lemma ended_cut m m' q e w : cuts m m' -> ended m q e w -> ended m' q e w.
Proof. intros Hc [Hw He]. split; [by eapply word_cut|]. destruct (Hc e) as [->|[_ ->]]; done. Qed.
Lemma ended_cstr m q e w : ended m q e w -> cstr m q w.
Proof.
  intros [[Hb He Hp Hs Hn] Hz]. apply cstr_bytes_at. split; [done|]. split; [|by rewrite <- He]. apply Forall_forall. intros c Hc%list_elem_of_In ->.
  unfold plain in Hp. rewrite forallb_forall in Hp. by specialize (Hp 0 Hc).
Qed.

Section Nul.
Context {S : Type} `{ShellLaws S}.
#[local] Abbreviation cmds := (lget (T := gmap Z cmd)).
#[local] Abbreviation memof := (lget (T := mem)).

(** [c] returns and only cuts the line. *)
Definition nuls (c : P S unit) (s : S) (Q : mem -> Prop) : Prop :=
  exists s', c s = Ret (Some tt, s') /\ cmds s' = cmds s /\ cuts (memof s) (memof s') /\ Q (memof s').
Lemma nuls_bind (c d : P S unit) s Q R : nuls c s Q ->
  (forall s', cmds s' = cmds s -> cuts (memof s) (memof s') -> Q (memof s') -> nuls d s' R) -> nuls (c ;~ d) s R.
Proof.
  intros (s1 & R1 & C1 & K1 & HQ) Hd. destruct (Hd s1 C1 K1 HQ) as (s2 & R2 & C2 & K2 & HR). exists s2.
  split; [by rewrite (pbind_step _ _ _ _ _ R1)|]. split; [congruence|]. by split; [eapply cuts_trans|].
Qed.
Lemma nul_ok s q e w : word_at (memof s) q e w -> nuls (umem_set (fun m => st8 m e 0)) s (fun m => ended m q e w).
Proof.
  intros Hw. exists (lput (st8 (memof s) e 0) s). assert (Hc := cuts_st8 (memof s) e (wa_stop _ _ _ _ Hw)).
  split; [unfold umem_set, plift; by erewrite kbind_ret by (apply via_ret; reflexivity)|]. rewrite cmds_of_mem, lget_lput.
  split; [done|]. split; [done|]. split; [by eapply word_cut|by rewrite ld8_st8, Z.eqb_refl].
Qed.

Lemma nul_args_ok args : forall qs es x y s, length qs = length args -> length es = length args ->
  (forall i w, args !! i = Some w -> exists q e, qs !! i = Some q /\ es !! i = Some e /\ word_at (memof s) q e w) ->
  nuls (nul_args (qs ++ 0 :: x) (es ++ 0 :: y)) s
    (fun m => forall i w, args !! i = Some w -> exists q e, qs !! i = Some q /\ es !! i = Some e /\ ended m q e w).
Proof.
  induction args as [|w args IH]; intros [|q qs] [|e es] x y s L1 L2 Hw; try discriminate; cbn [app nul_args].
  - exists s. split; [done|]. split; [done|]. split; [apply cuts_refl|done].
  - destruct (Hw 0%nat w eq_refl) as (q' & e' & [= <-] & [= <-] & Hq). rewrite (proj2 (Z.eqb_neq q 0)) by (assert (Hn := wa_null _ _ _ _ Hq); lia).
    eapply nuls_bind; [by apply nul_ok|]. cbv beta. intros s1 C1 K1 He.
    destruct (IH qs es x y s1) as (s2 & R2 & C2 & K2 & HQ); [by injection L1|by injection L2| |].
    { intros i w' Hi. destruct (Hw (Datatypes.S i) w' Hi) as (q1 & e1 & Hq1 & He1 & Hx). exists q1, e1. split; [done|]. split; [done|]. by eapply word_cut. }
    exists s2. split; [done|]. split; [done|]. split; [done|]. intros [|i] w' Hi; [|by apply HQ].
    injection Hi as <-. exists q, e. split; [done|]. split; [done|]. by eapply ended_cut.
Qed.

Lemma nuls_getc (k : cmd -> P S unit) a c s Q : cmds s !! a = Some c -> nuls (k c) s Q -> nuls (x <~ getc a ;; k x) s Q.
Proof.
  intros Ha (s' & R & HQ). exists s'. split; [|exact HQ]. rewrite <- R. apply pbind_step. unfold getc, plift.
  erewrite kbind_ret by (apply via_ret; by rewrite Ha). by rewrite lput_lget.
Qed.
(** The commands of one node after those of another. *)
Lemma nuls_pair n x y l r s :
  nuls (nulterminate n x) s (fun m => shape (ended m) (cmds s) x l) ->
  (forall s', cmds s' = cmds s -> cuts (memof s) (memof s') -> nuls (nulterminate n y) s' (fun m => shape (ended m) (cmds s) y r)) ->
  nuls (nulterminate n x ;~ nulterminate n y) s (fun m => shape (ended m) (cmds s) x l /\ shape (ended m) (cmds s) y r).
Proof.
  intros Hx Hy. eapply nuls_bind; [exact Hx|]. cbv beta. intros s1 C1 K1 HT. destruct (Hy s1 C1 K1) as (s2 & R2 & C2 & K2 & HT2).
  exists s2. split; [done|]. split; [done|]. split; [done|]. split; [|done]. eapply shape_weaken; [reflexivity| |exact HT]. intros q e w. by apply ended_cut.
Qed.
Lemma nuls_weaken c s (Q R : mem -> Prop) : nuls c s Q -> (forall m, Q m -> R m) -> nuls c s R.
Proof. intros (s' & R1 & C1 & K1 & HQ) HQR. exists s'. auto. Qed.
Lemma tree_cut N m m' a t : cuts m m' -> tree N m a t -> tree N m' a t.
Proof. intros Hc. apply shape_weaken; [done|]. intros q e w. by apply word_cut. Qed.

Lemma nulterminate_ok t : forall n a s, valid t = true -> tree (cmds s) (memof s) a t -> a <> 0 -> (size t <= n)%nat ->
  nuls (nulterminate n a) s (fun m => shape (ended m) (cmds s) a t).
Proof.
  induction t as [args|t IH r f|l IHl r IHr|l IHl r IHr|t IH]; intros [|n] a s Hv HT Ha Hn; cbn [size] in Hn; try lia;
    cbn [nulterminate]; rewrite (proj2 (Z.eqb_neq a 0)) by done; cbn [valid] in Hv; cbn [shape] in HT |- *;
    rewrite ?andb_true_iff in Hv.
  - destruct HT as (qs & es & Hl & L1 & L2 & Hw). destruct Hv as [Hv _]. apply Z.ltb_lt in Hv. unfold MAXARGS in Hv.
    eapply nuls_getc; [exact Hl|]. cbv beta iota. replace (10 - length args)%nat with (Datatypes.S (9 - length args)) by lia. cbn [replicate].
    eapply nuls_weaken; [by apply (nul_args_ok args)|]. cbv beta. intros m Hm. exists qs, es. split; [|done]. rewrite Hl.
    by replace (10 - length args)%nat with (Datatypes.S (9 - length args)) by lia.
  - destruct HT as (c & q & e & Hl & Hw & Ht & Hc). destruct Hv as [Hv _]. eapply nuls_getc; [exact Hl|]. cbv beta iota.
    eapply nuls_bind; [apply (IH n c s); [done|done|done|lia]|]. cbv beta. intros s1 C1 K1 HT.
    destruct (nul_ok s1 q e f) as (s2 & R2 & C2 & K2 & He); [by eapply word_cut|]. exists s2. split; [done|]. split; [done|]. split; [done|].
    exists c, q, e. split; [done|]. split; [done|]. split; [|done]. eapply shape_weaken; [reflexivity| |exact HT]. intros q' e' w. by apply ended_cut.
  - destruct HT as (x & y & Hl & Hx & Hy & Hx0 & Hy0). destruct Hv as [Hv1 Hv2]. eapply nuls_getc; [exact Hl|]. cbv beta iota.
    eapply nuls_weaken; [apply (nuls_pair n x y l r)|by intros m [? ?]; exists x, y]; [apply IHl; [done..|lia]|].
    intros s1 C1 K1. rewrite <- C1. apply IHr; [done| |done|lia]. rewrite C1. by eapply tree_cut.
  - destruct HT as (x & y & Hl & Hx & Hy & Hx0 & Hy0). destruct Hv as [Hv1 Hv2]. eapply nuls_getc; [exact Hl|]. cbv beta iota.
    eapply nuls_weaken; [apply (nuls_pair n x y l r)|by intros m [? ?]; exists x, y]; [apply IHl; [done..|lia]|].
    intros s1 C1 K1. rewrite <- C1. apply IHr; [done| |done|lia]. rewrite C1. by eapply tree_cut.
  - destruct HT as (c & Hl & Ht & Hc). eapply nuls_getc; [exact Hl|]. cbv beta iota.
    eapply nuls_weaken; [apply (IH n c s); [done|done|done|lia]|]. cbv beta. intros m Hm. by exists c.
Qed.
End Nul.

(** ** The parser against the printer *)

Lemma rendering_app ts text : rendering ts text -> (length ts <= length text)%nat.
Proof.
  induction 1 as [|ws t ts rest Hw Hok HR IH Hsep]; [cbn; lia|]. rewrite !length_app. cbn [length].
  assert (Hn : (1 <= length (tk_text t))%nat); [|lia]. destruct t as [[|c w]|c|]; cbn in *; [done|lia..].
Qed.
Lemma parens_length b ts : (length ts <= length (parens b ts))%nat.
Proof. destruct b; cbn; [rewrite length_app; lia|done]. Qed.
Lemma size_print t : forall l, (size t <= 2 * length (print l t) + 1)%nat.
Proof.
  induction t as [args|t IH r f|a IHa b IHb|a IHa b IHb|t IH]; intros l; cbn [size print].
  - lia.
  - rewrite length_app. specialize (IH LExec). cbn [length]. lia.
  - match goal with |- context [parens ?b ?ts] => assert (Hp := parens_length b ts) end. rewrite length_app in Hp. cbn [length] in Hp.
    specialize (IHa LExec). specialize (IHb LPipe). lia.
  - match goal with |- context [parens ?b ?ts] => assert (Hp := parens_length b ts) end. rewrite length_app in Hp. cbn [length] in Hp.
    specialize (IHa LBack). specialize (IHb LLine). lia.
  - match goal with |- context [parens ?b ?ts] => assert (Hp := parens_length b ts) end. rewrite length_app in Hp. cbn [length] in Hp.
    specialize (IH LBack). lia.
Qed.

(** [parsecmd] on the text of a command, with where each string ends. *)
Lemma parsecmd_builds {S} `{ShellLaws S} lit fuel t text a s :
  valid t = true -> rendering (print LLine t) text -> 0 < a -> cstr (lget s) a text -> room s (size t) -> (4 * length text + 3 <= fuel)%nat ->
  exists c s', parsecmd lit fuel a s = Ret (Some c, s') /\
    shape (ended (lget s')) (lget s') c t /\
    cuts (lget s) (lget s') /\ lget (T := gmap Z cmd) s ⊆ lget s'.
Proof.
  intros Hv HR Ha Hc Hr Hf. assert (Hlen := rendering_app _ _ HR). assert (Hsz := size_print t LLine).
  assert (HL := rendering_lexes (lget s) _ _ _ HR a Ha Hc eq_refl). set (es := a + Z.of_nat (length text)) in *.
  destruct (parse_all lit fuel (lget s) es t Hv) as (_ & _ & _ & HP).
  destruct (HP fuel a [] s O) as ([c p] & s1 & R1 & Hm1 & HL1 & HN1 & HT1 & Hc1 & Hr1); [by rewrite app_nil_r|done|done|by rewrite Nat.add_0_r|lia|].
  cbn [fst snd lexes] in *. destruct HL1 as [Hsk Hz].
  destruct (nulterminate_ok t fuel c s1 Hv) as (s2 & R2 & C2 & K2 & HT2); [by rewrite Hm1|done|lia|].
  exists c, s2. split; [|split; [|split; [by rewrite <- Hm1|by rewrite C2]]].
  - unfold parsecmd. erewrite pbind_step.
    2:{ unfold umem_res, plift. erewrite kbind_ret; [reflexivity|]. apply via_ret. unfold Ulib.strlen. rewrite (strlen_cstr fuel _ _ text Hc) by lia. reflexivity. }
    rewrite lput_lget. fold es. rewrite (pbind_step _ _ _ _ _ R1). cbn [fst snd].
    erewrite pbind_step by (by apply (look_ok (lget s) es)). unfold peek. rewrite Hsk. cbn [fst snd]. rewrite Z.eqb_refl. cbn [negb].
    by rewrite (pbind_step _ _ _ _ _ R2).
  - by rewrite C2.
Qed.

(** C6. [parsecmd] inverts the printer. For a command [t] without more than
    nine arguments anywhere and any text of its tokens (whatever the blanks
    between them), it returns a command that is [t]: node by node, with the modes
    and descriptors of its redirections, each string ending at its NUL; of the
    line only separators have been overwritten, and no other command is changed.
    The turns of the loops and the depth of the recursion are linear in the
    length of the line. *)
Theorem parsecmd_roundtrip {S} `{ShellLaws S} lit fuel t text a s :
  valid t = true -> rendering (print LLine t) text -> 0 < a -> cstr (lget s) a text -> room s (size t) -> (4 * length text + 3 <= fuel)%nat ->
  exists c s', parsecmd lit fuel a s = Ret (Some c, s') /\
    shape (fun q _ w => cstr (lget s') q w) (lget s') c t /\
    cuts (lget s) (lget s') /\ lget (T := gmap Z cmd) s ⊆ lget s'.
Proof.
  intros Hv HR Ha Hc Hr Hf. destruct (parsecmd_builds lit fuel t text a s Hv HR Ha Hc Hr Hf) as (c & s' & R & HT & HK & HN). exists c, s'.
  split; [done|]. split; [|by split]. eapply shape_weaken; [reflexivity| |exact HT]. intros q e w. apply ended_cstr.
Qed.

(** A shell whose [malloc] takes the next addresses; its writes are kept. *)
Record demo_sh : Type := mkDemoSh { ds_mem : mem; ds_stdio : list Z * Z; ds_cmds : gmap Z cmd; ds_next : Z; ds_out : list (Z * list Z) }.
#[local] Instance ds_mem_lens : Lens demo_sh mem.
Proof. by refine {| lget := ds_mem; lput m s := mkDemoSh m (ds_stdio s) (ds_cmds s) (ds_next s) (ds_out s) |}; intros; try destruct s. Defined.
#[local] Instance ds_stdio_lens : Lens demo_sh (list Z * Z).
Proof. by refine {| lget := ds_stdio; lput x s := mkDemoSh (ds_mem s) x (ds_cmds s) (ds_next s) (ds_out s) |}; intros; try destruct s. Defined.
#[local] Instance ds_cmds_lens : Lens demo_sh (gmap Z cmd).
Proof. by refine {| lget := ds_cmds; lput x s := mkDemoSh (ds_mem s) (ds_stdio s) x (ds_next s) (ds_out s) |}; intros; try destruct s. Defined.
#[local] Instance ds_user : User demo_sh := {| us_mem := _; us_stdio := _; ecall _ _ := kret None;
  put_bytes fd l s := Ret (Some (Z.of_nat (length l)), mkDemoSh (ds_mem s) (ds_stdio s) (ds_cmds s) (ds_next s) (ds_out s ++ [(fd, l)])) |}.
#[local] Instance ds_shell : Shell demo_sh :=
  {| sh_cmds := _; malloc n s := Ret (Some (ds_next s), mkDemoSh (ds_mem s) (ds_stdio s) (ds_cmds s) (ds_next s + Z.max 1 n) (ds_out s)) |}.
#[local] Instance ds_laws : ShellLaws demo_sh.
Proof.
  refine {| room s _ := 0 < ds_next s /\ forall b, ds_next s <= b -> ds_cmds s !! b = None |}.
  - intros n s k [Hn Hf]. exists (ds_next s). eexists. split; [reflexivity|]. cbn. split; [lia|]. split; [apply Hf; lia|]. do 2 (split; [done|]).
    intros c. split; [lia|]. intros b Hb. rewrite lookup_insert_ne by lia. apply Hf. lia.
  - intros a c c' s k Ha [Hn Hf]. split; [done|]. cbn. intros b Hb. rewrite lookup_insert_ne; [by apply Hf|]. intros ->. specialize (Hf b Hb). cbn in Ha. congruence.
  - done.
  - done.
Defined.

Definition demo_line : string := "(ls -l;wc >>o)|cat<o  &".
Definition demo_tree : ast :=
  TBack (TPipe (TList (TExec [chars "ls"; chars "-l"]) (TRedir (TExec [chars "wc"]) RAppend (chars "o")))
    (TRedir (TExec [chars "cat"]) RIn (chars "o"))).
Definition demo_shell : demo_sh := mkDemoSh (mput (fun _ => 0) 100 (chars demo_line)) ([], 0) ∅ 4096 [].

Lemma parsecmd_roundtrip_witness :
  valid demo_tree = true /\
  exists c s', parsecmd (fun _ => 8) 200 100 demo_shell = Ret (Some c, s') /\
    shape (fun q _ w => cstr (lget s') q w) (lget s') c demo_tree /\
    cuts (lget demo_shell) (lget s') /\ lget (T := gmap Z cmd) demo_shell ⊆ lget s'.
Proof.
  split; [reflexivity|]. apply (parsecmd_roundtrip (S := demo_sh) (H1 := ds_laws) (fun _ => 8) 200 demo_tree (chars demo_line) 100 demo_shell); [reflexivity| |lia| |by split|vm_compute; lia].
  - exact (R_tok [] (Sym 40) _ _ eq_refl eq_refl
      (R_tok [] (Word (chars "ls")) _ _ eq_refl eq_refl
      (R_tok [32] (Word (chars "-l")) _ _ eq_refl eq_refl
      (R_tok [] (Sym 59) _ _ eq_refl eq_refl
      (R_tok [] (Word (chars "wc")) _ _ eq_refl eq_refl
      (R_tok [32] Append _ _ eq_refl eq_refl
      (R_tok [] (Word (chars "o")) _ _ eq_refl eq_refl
      (R_tok [] (Sym 41) _ _ eq_refl eq_refl
      (R_tok [] (Sym 124) _ _ eq_refl eq_refl
      (R_tok [] (Word (chars "cat")) _ _ eq_refl eq_refl
      (R_tok [] (Sym 60) _ _ eq_refl eq_refl
      (R_tok [] (Word (chars "o")) _ _ eq_refl eq_refl
      (R_tok [32; 32] (Sym 38) _ _ eq_refl eq_refl (R_end [] eq_refl) eq_refl)
      eq_refl) eq_refl) eq_refl) eq_refl) eq_refl) eq_refl) eq_refl) eq_refl) eq_refl) eq_refl) eq_refl) eq_refl).
  - vm_compute. repeat split; discriminate.
Defined.
