(* ===== verification/ShTotal.v ===== *)
(** The parser of the shell on every line: src/user/sh.c.

    Sh.v shows what [parsecmd] does with the text of a command; here the text is
    any string. The parser either builds a command, printing nothing, or writes
    a message and calls exit(1): it does not run for ever, read past the line, or
    write outside the arrays of a command. *)
From S2P Require Import Prelude CString Bytes Spinlock Printf Ustdio Ulib Sh.

(** What the rest of the program promises: the parts of the state are apart,
    a [write] comes back, and the other system calls come back or end the
    process. [output] is what has been written so far, call by call. *)
Class ShellOut (S : Type) `{ShellLaws S} : Type := {
  stdio_of_cmds (x : gmap Z cmd) s : lget (T := list Z * Z) (lput x s) = lget s;
  malloc_stdio n s r s' : malloc n s = Ret (r, s') -> lget (T := list Z * Z) s' = lget s;
  room_less s k : room s (Datatypes.S k) -> room s k;
  mem_of_stdio (x : list Z * Z) s : lget (T := mem) (lput x s) = lget s;
  stdio_of_mem (x : mem) s : lget (T := list Z * Z) (lput x s) = lget s;
  output : S -> list (Z * list Z);
  output_of_cmds (x : gmap Z cmd) s : output (lput x s) = output s;
  output_of_stdio (x : list Z * Z) s : output (lput x s) = output s;
  output_of_mem (x : mem) s : output (lput x s) = output s;
  malloc_output n s r s' : malloc n s = Ret (r, s') -> output s' = output s;
  put_returns fd l s : exists n s', put_bytes fd l s = Ret (Some n, s') /\ lget (T := mem) s' = lget s /\ lget (T := list Z * Z) s' = lget s /\
    output s' = output s ++ [(fd, l)];
  ecall_returns n args s : exists o s', ecall n args s = Ret (o, s')
}.

(** A finite tree of commands: its number of nodes and its address. A string
    starts and ends between [lo] and [hi]; the arguments of a command are fewer
    than ten and end with a null. *)
Definition within (lo hi p : Z) : Prop := lo <= p <= hi.
Record args_in (lo hi : Z) (qs es : list Z) : Prop := {
  ai_len : (length qs < 10)%nat;
  ai_len2 : length es = length qs;
  ai_starts : Forall (within lo hi) qs;
  ai_ends : Forall (within lo hi) es
}.
Inductive wf (lo hi : Z) (N : gmap Z cmd) : nat -> Z -> Prop :=
| W_exec a qs es : N !! a = Some (EXEC (padded qs) (padded es)) -> args_in lo hi qs es -> a <> 0 -> wf lo hi N 1 a
| W_redir n a c q e mode fd : N !! a = Some (REDIR c q e mode fd) -> a <> 0 -> within lo hi q -> within lo hi e -> wf lo hi N n c -> wf lo hi N (Datatypes.S n) a
| W_pipe i j a l r : N !! a = Some (PIPE l r) -> a <> 0 -> wf lo hi N i l -> wf lo hi N j r -> wf lo hi N (Datatypes.S (i + j)) a
| W_list i j a l r : N !! a = Some (LIST l r) -> a <> 0 -> wf lo hi N i l -> wf lo hi N j r -> wf lo hi N (Datatypes.S (i + j)) a
| W_back n a c : N !! a = Some (BACK c) -> a <> 0 -> wf lo hi N n c -> wf lo hi N (Datatypes.S n) a.
Lemma wf_mono lo hi N N' n a : N ⊆ N' -> wf lo hi N n a -> wf lo hi N' n a.
Proof.
  intros HN. induction 1; [eapply W_exec|eapply W_redir|eapply W_pipe|eapply W_list|eapply W_back]; try (eapply lookup_weaken; [eassumption|exact HN]); eassumption.
Qed.
Lemma wf_null lo hi N n a : wf lo hi N n a -> a <> 0.
Proof. by destruct 1. Qed.
(** Other arguments in one command. *)
Lemma wf_exec lo hi N n a x y qs es c : N !! a = Some (EXEC x y) -> args_in lo hi qs es -> wf lo hi N n c ->
  wf lo hi (<[a := EXEC (padded qs) (padded es)]> N) n c.
Proof.
  intros Ha Hq. assert (Hne : forall b v, N !! b = Some v -> (forall x y, v <> EXEC x y) -> <[a := EXEC (padded qs) (padded es)]> N !! b = Some v).
  { intros b v Hb Hv. rewrite lookup_insert_ne; [done|]. intros ->. rewrite Ha in Hb. injection Hb as <-. by apply (Hv x y). }
  induction 1 as [b| | | |].
  - destruct (decide (a = b)) as [->|Hn]; [eapply W_exec; [apply lookup_insert_eq|done|done]|].
    eapply W_exec; [rewrite lookup_insert_ne by done; eassumption|done|done].
  - eapply W_redir; [eapply Hne; [eassumption|done]|eassumption..].
  - eapply W_pipe; [eapply Hne; [eassumption|done]|eassumption..].
  - eapply W_list; [eapply Hne; [eassumption|done]|eassumption..].
  - eapply W_back; [eapply Hne; [eassumption|done]|eassumption..].
Qed.
Lemma args_in_snoc lo hi qs es q e : args_in lo hi qs es -> within lo hi q -> within lo hi e -> (length qs < 9)%nat ->
  args_in lo hi (qs ++ [q]) (es ++ [e]).
Proof.
  intros [L1 L2 F1 F2] Hq He Hl. split; rewrite ?length_app; cbn [length]; [lia|lia|by apply Forall_app_2; [|constructor]|by apply Forall_app_2; [|constructor]].
Qed.

(** ** Positions in the line *)

Section Line.
Context (m : mem) (lo hi : Z).
Context (Hpos : 0 < lo).
Context (Hend : ld8 m hi = 0).

Lemma skip_while_range test n : forall s, s <= skip_while test n m s <= s + Z.of_nat n.
Proof. induction n as [|n IH]; intros s; cbn [skip_while]; [lia|]. destruct (test (ld8 m s)); [specialize (IH (s + 1))|]; lia. Qed.
Lemma skip_range p : p <= hi -> p <= skip m p hi <= hi.
Proof. intros Hp. assert (H := skip_while_range (is_in whitespace) (Z.to_nat (hi - p)) p). unfold skip. lia. Qed.
Lemma word_end_range p : p <= hi -> p <= word_end m p hi <= hi.
Proof.
  intros Hp. assert (H := skip_while_range (fun c => negb (is_in whitespace c) && negb (is_in symbols c)) (Z.to_nat (hi - p)) p). unfold word_end. lia.
Qed.
Lemma inside p : within lo hi p -> ld8 m p <> 0 -> p < hi.
Proof. intros [H1 H2] H0. destruct (Z.eq_dec p hi) as [->|]; [done|lia]. Qed.

(** Reading a token stays in the line, and gets on unless it is at its end. *)
Lemma gettoken_in p : within lo hi p -> ld8 m (skip m p hi) <> 0 ->
  let t := gettoken m p hi in t_kind t <> 0 /\ within lo hi (t_q t) /\ within lo hi (t_eq t) /\ p < t_ps t <= hi.
Proof.
  intros Hp Hz t. assert (Hs := skip_range p (proj2 Hp)). assert (Hw := skip_while_stop (is_in whitespace) (Z.to_nat (hi - p)) m p). fold (skip m p hi) in Hw.
  unfold t, gettoken. cbv zeta. set (s := skip m p hi) in *. assert (Hin : within lo hi s) by (unfold within in *; lia).
  assert (Hlt := inside s Hin Hz). assert (Hp1 := skip_range (s + 1)). assert (Hp2 := skip_range (s + 2)). assert (He := word_end_range s).
  unfold within in *. rewrite (proj2 (Z.eqb_neq (ld8 m s) 0) Hz).
  destruct (is_in (chars "|();&<") (ld8 m s)) eqn:E1; [cbn; split; [done|lia]|].
  destruct (ld8 m s =? chr ">") eqn:E2; [destruct (ld8 m (s + 1) =? chr ">") eqn:E3; cbn|].
  - apply Z.eqb_eq in E3. assert (Hlt1 : s + 1 < hi) by (apply inside; [unfold within; lia|by rewrite E3]). split; [done|lia].
  - split; [done|lia].
  - cbn [t_kind t_q t_eq t_ps]. split; [done|]. assert (Hgo : s < word_end m s hi); [|assert (Hp3 := skip_range (word_end m s hi)); lia].
    assert (Hns : is_in whitespace (ld8 m s) = false) by (destruct Hw as [Hw|Hw]; [done|lia]).
    assert (Hsy : is_in symbols (ld8 m s) = false).
    { cbn in E1, E2 |- *. rewrite !orb_false_r in *. rewrite !orb_false_iff in *. intuition. }
    unfold word_end. destruct (Z.to_nat (hi - s)) as [|k] eqn:Ek; [lia|]. cbn [skip_while]. rewrite Hns, Hsy. cbn [negb andb].
    assert (Hr := skip_while_range (fun c => negb (is_in whitespace c) && negb (is_in symbols c)) k (s + 1)). lia.
Qed.
Lemma gettoken_end p : within lo hi p -> ld8 m (skip m p hi) = 0 -> gettoken m p hi = mkTok 0 (skip m p hi) (skip m p hi) (skip m p hi).
Proof. intros Hp Hz. unfold gettoken. cbv zeta. rewrite Hz. cbn [Z.eqb]. f_equal. apply skip_skip. Qed.
Lemma gettoken_kind p : within lo hi p -> t_kind (gettoken m p hi) <> 0 -> ld8 m (skip m p hi) <> 0.
Proof. intros Hp Hk Hz. by rewrite (gettoken_end p Hp Hz) in Hk. Qed.
Lemma peek_in p toks : within lo hi p -> peek m p hi toks = (fst (peek m p hi toks), skip m p hi) /\ within lo hi (skip m p hi) /\ p <= skip m p hi.
Proof. intros [H1 H2]. assert (H := skip_range p H2). unfold within. split; [done|lia]. Qed.
Lemma peek_sym p toks : fst (peek m p hi toks) = true -> ld8 m (skip m p hi) <> 0.
Proof. unfold peek. cbn [fst]. intros [H _]%andb_true_iff E. by rewrite E in H. Qed.
End Line.

(** The messages of the parser, and those of running a command. *)
Definition messages : list string :=
  ["missing file for redirection"; "syntax"; "too many args"; "parseblock"; "syntax - missing )"; nl "%s"; nl "leftovers: %s";
   "fork"; "pipe"; nl "exec %s failed"; nl "open %s failed"; nl "syscall close fault"]%string.

(** The messages [panic] prints for a line that does not parse. *)
Definition errors : list string :=
  ["missing file for redirection"; "syntax"; "too many args"; "parseblock"; "syntax - missing )"]%string.
Lemma errors_messages t : In t errors -> In t messages.
Proof. cbn. tauto. Qed.

Lemma cstr_inj m l : forall a l', cstr m a l -> cstr m a l' -> l = l'.
Proof.
  induction l as [|c l IH]; intros a [|c' l']; cbn [cstr]; [done|intros H (<- & Hn & _); congruence|intros (<- & Hn & _) H; congruence|].
  intros (<- & _ & H) (<- & _ & H'). f_equal. by eapply IH.
Qed.
Lemma chars_app s t : chars (s ++ t)%string = chars s ++ chars t.
Proof. induction s as [|c s IH]; [done|]. change (chars (String c s ++ t)%string) with (Z.of_N (Ascii.N_of_ascii c) :: chars (s ++ t)%string). by rewrite IH. Qed.
Lemma chars_nl s : chars (nl s) = chars s ++ [fflush].
Proof. unfold nl. by rewrite chars_app. Qed.

Section Total.
Context {S : Type} `{ShellOut S}.
Context (lit : string -> Z) (fuel : nat) (m : mem).
#[local] Abbreviation cmds := (lget (T := gmap Z cmd)).
#[local] Abbreviation memof := (lget (T := mem)).
#[local] Abbreviation stdio := (lget (T := list Z * Z)).

Definition spelled : Prop := Forall (fun t => lit t <> 0 /\ cstr m (lit t) (chars t) /\ (length (chars t) < fuel)%nat) messages.
Context (Hspell : spelled).

(** The characters that wait in the line buffer. *)
Definition waiting (x : list Z * Z) : list Z := take (Z.to_nat (snd x)) (fst x).
Definition buffered (s : S) : Prop := buf_ok (mkUst (memof s) (fst (stdio s)) (snd (stdio s)) []).

(** From [s] on the process has written, to descriptor 2, what waited in the
    line buffer and [msg], nothing more, and then has called exit(1), which
    leaves [s']. *)
Definition ended_with (s : S) (msg : list Z) (s' : S) : Prop := exists ws s1 r,
  output s1 = output s ++ ws /\ Forall (fun w => w.1 = 2) ws /\ concat (map snd ws) = waiting (stdio s) ++ msg /\
  memof s1 = memof s /\ ecall SYS_exit [1] s1 = Ret (r, s').

(** *** Printing *)

Lemma put_writes_ok ws : forall s : S, exists s', put_writes ws s = Ret (Some tt, s') /\ memof s' = memof s /\ stdio s' = stdio s /\ output s' = output s ++ ws.
Proof.
  induction ws as [|[fd l] ws IH]; intros s; cbn [put_writes]; [exists s; by rewrite app_nil_r|].
  destruct (put_returns fd l s) as (n & s1 & R1 & M1 & S1 & O1). destruct (IH s1) as (s2 & R2 & M2 & S2 & O2).
  exists s2. split; [by rewrite (pbind_step _ _ _ _ _ R1)|]. split; [congruence|]. split; [congruence|]. by rewrite O2, O1, <- app_assoc.
Qed.

(** A format that prints a line. *)
Lemma uprintf_line fd fmt f ap t (s : S) : cstr (memof s) fmt f -> fmt_ok fuel (memof s) f ap -> (length f < fuel)%nat -> buffered s ->
  (forall text, fmt_prints (memof s) f ap text -> text = t ++ [fflush]) ->
  exists s' ws, uprintf fuel fd fmt ap s = Ret (Some tt, s') /\ memof s' = memof s /\ buffered s' /\ waiting (stdio s') = [] /\
    output s' = output s ++ ws /\ Forall (fun w => w.1 = fd) ws /\ concat (map snd ws) = waiting (stdio s) ++ t ++ [fflush].
Proof.
  intros Hc Hf Hl Hb Ht. unfold uprintf, Ustdio.fprintf, Ustdio.vprintf.
  destruct (vprintf_loop_ok fuel f fuel fd fmt 0 ap (mkUst (memof s) (fst (stdio s)) (snd (stdio s)) [])) as (x & text & R & Px & Hx);
    [by rewrite Z.add_0_r|done|done|done|]. apply Ht in Hx. subst text.
  destruct (printed_line _ _ _ _ Px) as (Hp & ws & W & F & E). cbn [u_writes app] in W. rewrite R, W.
  destruct (put_writes_ok ws (lput (u_buf x, u_idx x) s)) as (s' & R' & M' & S' & O'). rewrite mem_of_stdio in M'. rewrite lget_lput in S'. rewrite output_of_stdio in O'.
  exists s', ws. split; [done|]. split; [done|]. split; [|split; [by rewrite S'|by split]].
  destruct (pr_ok _ _ _ _ Px) as [B1 B2 B3]. unfold buffered. rewrite S'. by split.
Qed.
Lemma exit_ends {A} (s : S) : exists r s', exit (A := A) 1 s = Ret (None, s') /\ ecall SYS_exit [1] s = Ret (r, s').
Proof.
  destruct (ecall_returns SYS_exit [1] s) as (o & s1 & R1). exists o, s1. split; [|done]. unfold exit. change (s32 1) with 1.
  unfold pbind. erewrite kbind_ret by exact R1. by destruct o.
Qed.
Lemma message t : In t messages -> lit t <> 0 /\ cstr m (lit t) (chars t) /\ (length (chars t) < fuel)%nat.
Proof. intros Hin. unfold spelled in Hspell. rewrite Forall_forall in Hspell. apply Hspell. by apply list_elem_of_In. Qed.

Lemma panic_says {A} t (s : S) : memof s = m -> buffered s -> In t messages ->
  exists s', panic lit fuel (A := A) t s = Ret (None, s') /\ ended_with s (chars (nl t)) s'.
Proof.
  intros Hm Hb Hin. destruct (message t Hin) as (Hn & Hc & Hl). destruct (message (nl "%s")) as (_ & Hc2 & Hl2); [cbn; tauto|].
  destruct (uprintf_line 2 (lit (nl "%s")) (chars (nl "%s")) [lit t] (chars t) s) as (s1 & ws & R1 & M1 & _ & _ & O1 & F1 & E1); [by rewrite Hm| |done|done| |].
  - rewrite Hm. cbn. split; [done|]. split; [done|]. split; [by exists (chars t)|done].
  - rewrite Hm. intros text (l & t' & Hl' & -> & (t2 & -> & ->)). by rewrite (cstr_inj m l _ _ Hl' Hc).
  - destruct (exit_ends (A := A) s1) as (r & s2 & R2 & X2). exists s2. split; [unfold panic; by rewrite (pbind_step _ _ _ _ _ R1)|].
    exists ws, s1, r. rewrite chars_nl. by split_and!.
Qed.
(** A message before the last one. *)
Lemma ended_after (s s1 : S) ws t1 t2 s' : output s1 = output s ++ ws -> Forall (fun w => w.1 = 2) ws -> concat (map snd ws) = waiting (stdio s) ++ t1 ->
  waiting (stdio s1) = [] -> memof s1 = memof s -> ended_with s1 t2 s' -> ended_with s (t1 ++ t2) s'.
Proof.
  intros O1 F1 E1 Hw M1 (ws2 & s2 & r & O2 & F2 & E2 & M2 & R2). exists (ws ++ ws2), s2, r. rewrite Hw in E2.
  split; [by rewrite O2, O1, app_assoc|]. split; [by apply Forall_app|]. split; [by rewrite map_app, concat_app, E1, E2, <- app_assoc|].
  split; [congruence|done].
Qed.

(** *** Running the parser from [s0] *)

Context (s0 : S) (Hm0 : memof s0 = m) (Hbuf0 : buffered s0).

(** The line is in memory and nothing has been printed. *)
Definition ready (s : S) : Prop := memof s = m /\ stdio s = stdio s0 /\ output s = output s0.
(** [c] ends the process with one of the messages, or returns a value for which
    [Q] holds. *)
Definition failed (s' : S) : Prop := exists t, In t errors /\ ended_with s0 (chars (nl t)) s'.
Definition safe {A} (c : P S A) (s : S) (Q : A -> S -> Prop) : Prop :=
  exists o s', c s = Ret (o, s') /\ match o with Some a => ready s' /\ Q a s' | None => failed s' end.

Lemma safe_ret {A} (a : A) s (Q : A -> S -> Prop) : ready s -> Q a s -> safe (pret a) s Q.
Proof. intros Hr HQ. by exists (Some a), s. Qed.
Lemma safe_bind {A B} (c : P S A) (k : A -> P S B) s Q R : safe c s Q -> (forall a s', ready s' -> Q a s' -> safe (k a) s' R) -> safe (pbind c k) s R.
Proof.
  intros (o & s1 & R1 & Ho) Hk. destruct o as [a|].
  - destruct Ho as [Hr HQ]. destruct (Hk a s1 Hr HQ) as (o2 & s2 & R2 & Ho2). exists o2, s2. split; [by rewrite (pbind_step _ _ _ _ _ R1)|done].
  - exists None, s1. split; [|done]. unfold pbind. by erewrite kbind_ret by exact R1.
Qed.
Lemma safe_weaken {A} (c : P S A) s (Q R : A -> S -> Prop) : safe c s Q -> (forall a s', Q a s' -> R a s') -> safe c s R.
Proof. intros (o & s' & R1 & Ho) Hw. exists o, s'. split; [done|]. destruct o as [a|]; [|done]. destruct Ho. auto. Qed.
Lemma safe_step {A B} (c : P S A) (k : A -> P S B) s a R : c s = Ret (Some a, s) -> safe (k a) s R -> safe (pbind c k) s R.
Proof. intros R1 (o & s2 & R2 & Ho). exists o, s2. split; [by rewrite (pbind_step _ _ _ _ _ R1)|done]. Qed.
Lemma ready_buffered s : ready s -> buffered s.
Proof. intros (Hm & Hs & _). unfold buffered in *. by rewrite Hm, Hs, <- Hm0. Qed.
Lemma panic_safe {A} t s (Q : A -> S -> Prop) : ready s -> In t errors -> safe (panic lit fuel (A := A) t) s Q.
Proof.
  intros Hr Hin. destruct (panic_says (A := A) t s) as (s' & R & ws & s1 & r & O1 & F1 & E1 & M1 & X1); [apply Hr|by apply ready_buffered|by apply errors_messages|].
  exists None, s'. split; [done|]. exists t. split; [done|]. destruct Hr as (Hm & Hs & Ho). exists ws, s1, r. rewrite Hs in E1. rewrite Ho in O1.
  split_and!; [done..|congruence|done].
Qed.

(** *** The line *)

Context (lo hi : Z).
Context (Hpos : 0 < lo).
Context (Hend : ld8 m hi = 0).
#[local] Abbreviation wfc s := (wf lo hi (cmds s)).
(** The characters that are left. *)
Definition left (p : Z) : nat := Z.to_nat (hi - p).

Lemma ready_set s x : ready s -> ready (lput (T := gmap Z cmd) x s).
Proof. intros (Hm & Hs & Ho). split; [by rewrite mem_of_cmds|]. by rewrite stdio_of_cmds, output_of_cmds. Qed.

(** A turn that looks at the line: where it looks on, and what is there. *)
Lemma safe_look {B} s p toks (k : bool * Z -> P S B) R : ready s -> within lo hi p ->
  (forall b p', within lo hi p' -> p <= p' -> (b = true -> ld8 m p' <> 0 /\ is_in (chars toks) (ld8 m p') = true) -> skip m p' hi = p' -> safe (k (b, p')) s R) ->
  safe (b <~ look p hi toks ;; k b) s R.
Proof.
  intros [Hm _] Hp Hk. eapply safe_step; [by apply (look_ok m hi)|]. destruct (peek_in m lo hi p (chars toks) Hp) as (-> & Hin & Hle).
  apply Hk; [done|done| |apply skip_skip]. unfold peek. cbn [fst]. intros [Hz Ht]%andb_true_iff. split; [|done]. intros E. by rewrite E in Hz.
Qed.
(** A token where there is one. *)
Lemma safe_get {B} s p (k : token -> P S B) R : ready s -> within lo hi p -> ld8 m p <> 0 -> skip m p hi = p ->
  (forall t, within lo hi (t_ps t) -> p < t_ps t -> safe (k t) s R) -> safe (t <~ get p hi ;; k t) s R.
Proof.
  intros [Hm _] Hp Hz Hs Hk. eapply safe_step; [by apply (get_ok m hi)|].
  destruct (gettoken_in m lo hi Hend p Hp) as (_ & _ & _ & Hlt); [by rewrite Hs|]. apply Hk; [unfold within in *; lia|lia].
Qed.
(** A word, or anything else. *)
Lemma safe_get_word {B} s p (k : token -> P S B) R : ready s -> within lo hi p ->
  (forall t, within lo hi (t_ps t) -> within lo hi (t_q t) -> within lo hi (t_eq t) -> p <= t_ps t -> (t_kind t <> 0 -> p < t_ps t) -> safe (k t) s R) ->
  safe (t <~ get p hi ;; k t) s R.
Proof.
  intros [Hm _] Hp Hk. eapply safe_step; [by apply (get_ok m hi)|]. assert (Hs := skip_range m hi p (proj2 Hp)).
  destruct (Z.eq_dec (ld8 m (skip m p hi)) 0) as [E|E].
  - rewrite (gettoken_end m lo hi p Hp E) in *. apply Hk; cbn; unfold within in *; [lia..|done].
  - destruct (gettoken_in m lo hi Hend p Hp E) as (_ & Hq & He & Hlt). apply Hk; [unfold within in *; lia|done|done|lia|lia].
Qed.

(** *** Building *)

Lemma new_cmd_safe n c s k : room s (Datatypes.S k) -> ready s ->
  safe (new_cmd n c) s (fun a s' => a <> 0 /\ cmds s !! a = None /\ cmds s' = <[a := c]> (cmds s) /\ room s' k).
Proof.
  intros Hr Hs. destruct (malloc_ok n s k Hr) as (a & s1 & R1 & Ha & Hf & Hc & Hm1 & Hr1). assert (Hst := malloc_stdio n s _ _ R1). assert (Hout := malloc_output n s _ _ R1).
  exists (Some a), (lput (<[a := c]> (cmds s1)) s1). split; [|split; [|split; [done|split; [done|split; [by rewrite lget_lput, Hc|exact (Hr1 c)]]]]].
  - unfold new_cmd. rewrite (pbind_step _ _ _ _ _ R1), (proj2 (Z.eqb_neq _ _) Ha). erewrite pbind_step; [reflexivity|].
    unfold setc, plift. by erewrite kbind_ret by (apply via_ret; reflexivity).
  - apply ready_set. destruct Hs as (H1' & H2' & H3'). split; [by rewrite Hm1|]. by rewrite Hst, Hout.
Qed.
Lemma room_mono s i j : (j <= i)%nat -> room s i -> room s j.
Proof. intros Hle Hr. induction Hle as [|i Hle IH]; [done|]. by apply IH, room_less. Qed.

(** What a function of the parser promises: the command [fst x] is a tree whose
    size is at most [n] plus twice the characters read since [p], the position
    [snd x] is in the line, and the commands there before are unchanged. *)
Definition built (N : gmap Z cmd) (n : nat) (p : Z) (k : nat) (x : Z * Z) (s' : S) : Prop :=
  within lo hi (snd x) /\ p <= snd x /\ N ⊆ cmds s' /\ room s' (2 * left (snd x) + k) /\
  exists i, wfc s' i (fst x) /\ (i + 2 * left (snd x) <= n + 2 * left p)%nat.

Lemma parseredirs_safe n : forall c p s i k, within lo hi p -> ready s -> wfc s i c -> room s (2 * left p + k) -> (left p < n)%nat ->
  safe (parseredirs lit fuel n c p hi) s (built (cmds s) i p k).
Proof.
  induction n as [|n IH]; intros c p s i k Hp Hs Hc Hr Hn; [lia|]. cbn [parseredirs].
  apply safe_look; [done|done|]. intros b p1 Hp1 Hle1 Hb Hsk. cbn [fst snd]. destruct b.
  2:{ apply safe_ret; [done|]. unfold built. cbn [fst snd]. split_and!; [done|done|done| |].
      - eapply room_mono; [|exact Hr]. unfold left. lia.
      - exists i. split; [done|]. unfold left. lia. }
  destruct (Hb eq_refl) as [Hz _]. apply safe_get; [done..|]. intros t Ht Hlt. apply safe_get_word; [done..|]. intros f Hf Hq He Hle2 Hgo.
  destruct (t_kind f =? chr "a") eqn:Ek; cbn [negb]; [|apply panic_safe; [done|cbn; tauto]].
  apply Z.eqb_eq in Ek. assert (Hlt2 : t_ps t < t_ps f) by (apply Hgo; by rewrite Ek). unfold within in *.
  assert (Hl : (left (t_ps f) + 2 <= left p)%nat) by (unfold left; lia).
  eapply (safe_bind _ _ s (fun c' s' => cmds s ⊆ cmds s' /\ room s' (2 * left (t_ps f) + k) /\ exists j, wfc s' j c' /\ (j <= Datatypes.S i)%nat)).
  - assert (Hnew : forall mode fd, safe (redircmd c (t_q f) (t_eq f) mode fd) s
      (fun c' s' => cmds s ⊆ cmds s' /\ room s' (2 * left (t_ps f) + k) /\ exists j, wfc s' j c' /\ (j <= Datatypes.S i)%nat)).
    { intros mode fd. eapply safe_weaken; [apply (new_cmd_safe _ _ s (2 * left (t_ps f) + k)); [eapply room_mono; [|exact Hr]; lia|done]|].
      intros a s1 (Ha & Hnone & Hcm & Hr1). rewrite Hcm. assert (Hsub := insert_subseteq (cmds s) a (REDIR c (t_q f) (t_eq f) mode fd) Hnone).
      split; [done|]. split; [done|]. exists (Datatypes.S i). split; [|done]. eapply W_redir; [apply lookup_insert_eq|done|done|done|]. by eapply wf_mono. }
    destruct (t_kind t =? chr "<"); [apply Hnew|]. destruct (t_kind t =? chr ">"); [apply Hnew|]. destruct (t_kind t =? chr "+"); [apply Hnew|].
    apply safe_ret; [done|]. split; [done|]. split; [eapply room_mono; [|exact Hr]; lia|]. exists i. split; [done|lia].
  - intros c' s1 Hs1 (HN & Hr1 & j & Hj & Hji). eapply safe_weaken; [apply (IH c' (t_ps f) s1 j k); [unfold within; lia|done|done|done|lia]|].
    intros x s' (H1' & H2' & H3' & H4' & i' & Hi' & Hsz). split; [done|]. split; [lia|]. split; [by etransitivity|]. split; [done|].
    exists i'. split; [done|lia].
Qed.

(** Storing an argument in a command of [qs]. *)
Lemma set_arg_safe a qs es q e s k : cmds s !! a = Some (EXEC (padded qs) (padded es)) -> args_in lo hi qs es ->
  ready s -> room s k ->
  safe (set_arg a (Z.of_nat (length qs)) q e) s (fun _ s' =>
    cmds s' = <[a := EXEC (padded (qs ++ [q])) (padded (es ++ [e]))]> (cmds s) /\ room s' k).
Proof.
  intros Ha [L1 L2 _ _] Hs Hr. assert (R := set_arg_ok a qs es q e s Ha L2 L1).
  rewrite padded_insert in R by done. replace (<[length qs := e]> (padded es)) with (padded (es ++ [e])) in R by (rewrite <- padded_insert by lia; by rewrite L2).
  eexists (Some tt), _. split; [exact R|]. split; [by apply ready_set|]. split; [by rewrite lget_lput|]. by eapply room_write.
Qed.
(** The null at the end is there already. *)
Lemma set_end_safe a qs es s : cmds s !! a = Some (EXEC (padded qs) (padded es)) -> args_in lo hi qs es ->
  set_arg a (Z.of_nat (length qs)) 0 0 s = Ret (Some tt, s).
Proof.
  intros Ha [L1 L2 _ _]. rewrite (set_arg_ok a qs es 0 0 s Ha) by lia. rewrite padded_end by lia. rewrite <- L2. rewrite padded_end by lia.
  do 2 f_equal. rewrite insert_id by exact Ha. apply lput_lget.
Qed.

Lemma exec_loop_safe N n : forall a ret qs es p s i k, cmds s !! a = Some (EXEC (padded qs) (padded es)) -> args_in lo hi qs es ->
  N !! a = None -> N ⊆ cmds s -> within lo hi p -> ready s -> wfc s i ret -> room s (2 * left p + k) -> (left p < n)%nat -> (left p < fuel)%nat ->
  safe (exec_loop lit fuel n a ret (Z.of_nat (length qs)) p hi) s (built N i p k).
Proof.
  induction n as [|n IH]; intros a ret qs es p s i k Ha Hqs HNa HN Hp Hs Hret Hr Hn Hfu; [lia|]. cbn [exec_loop].
  apply safe_look; [done|done|]. intros b p1 Hp1 Hle1 Hb Hsk. cbn [fst snd].
  assert (Hstop : forall p2, within lo hi p2 -> p <= p2 -> safe (set_arg a (Z.of_nat (length qs)) 0 0 ;~ pret (ret, p2)) s (built N i p k)).
  { intros p2 Hp2 Hle2. eapply safe_step; [by apply (set_end_safe a qs es)|]. apply safe_ret; [done|]. unfold built. cbn [fst snd].
    split_and!; [done|done|done| |].
    - eapply room_mono; [|exact Hr]. unfold left. lia.
    - exists i. split; [done|]. unfold left. lia. }
  destruct b; [by apply Hstop|]. apply safe_get_word; [done..|]. intros t Ht Hq He Hle2 Hgo.
  destruct (t_kind t =? 0) eqn:E0; [apply Hstop; [done|lia]|]. apply Z.eqb_neq in E0. specialize (Hgo E0).
  destruct (t_kind t =? chr "a"); cbn [negb]; [|apply panic_safe; [done|cbn; tauto]].
  eapply safe_bind; [apply (set_arg_safe a qs es _ _ s (2 * left p + k)); done|]. cbv beta. intros [] s1 Hs1 (Hc1 & Hr1).
  destruct (MAXARGS <=? Z.of_nat (length qs) + 1) eqn:Emax; [apply panic_safe; [done|cbn; tauto]|].
  apply Z.leb_gt in Emax. unfold MAXARGS in Emax.
  assert (Hqs1 : args_in lo hi (qs ++ [t_q t]) (es ++ [t_eq t])) by (apply args_in_snoc; [done..|lia]).
  assert (Hl : (left (t_ps t) < left p)%nat) by (unfold left, within in *; lia).
  eapply safe_bind.
  - apply (parseredirs_safe fuel ret (t_ps t) s1 i (2 + k)); [done|done| | |lia].
    + rewrite Hc1. by eapply wf_exec.
    + eapply room_mono; [|exact Hr1]. lia.
  - intros [ret' p2] s2 Hs2 (Hp2 & Hle3 & HN2 & Hr2 & j & Hj & Hji). cbn [fst snd] in *. rewrite Hc1 in HN2.
    replace (Z.of_nat (length qs) + 1) with (Z.of_nat (length (qs ++ [t_q t]))) by (rewrite length_app; cbn; lia).
    assert (Hl2 : (left p2 <= left (t_ps t))%nat) by (unfold left, within in *; lia).
    eapply safe_weaken; [apply (IH a ret' (qs ++ [t_q t]) (es ++ [t_eq t]) p2 s2 j k); try done|].
    + eapply lookup_weaken; [|exact HN2]. apply lookup_insert_eq.
    + etransitivity; [|exact HN2]. by apply insert_subseteq_r.
    + eapply room_mono; [|exact Hr2]. lia.
    + lia.
    + lia.
    + intros x s' (HA & HB & HC & HD & i' & Hi' & Hsz). split; [done|]. split; [lia|]. split; [done|]. split; [done|]. exists i'. split; [done|lia].
Qed.

Lemma back_loop_safe n : forall c p s i k, within lo hi p -> ready s -> wfc s i c -> room s (2 * left p + k) -> (left p < n)%nat ->
  safe (back_loop n c p hi) s (built (cmds s) i p k).
Proof.
  induction n as [|n IH]; intros c p s i k Hp Hs Hc Hr Hn; [lia|]. cbn [back_loop].
  apply safe_look; [done|done|]. intros b p1 Hp1 Hle1 Hb Hsk. cbn [fst snd]. destruct b.
  2:{ apply safe_ret; [done|]. unfold built. cbn [fst snd]. split_and!; [done|done|done| |].
      - eapply room_mono; [|exact Hr]. unfold left. lia.
      - exists i. split; [done|]. unfold left. lia. }
  destruct (Hb eq_refl) as [Hz _]. apply safe_get; [done..|]. intros t Ht Hlt.
  assert (Hl : (left (t_ps t) < left p)%nat) by (unfold left, within in *; lia).
  eapply safe_bind; [apply (new_cmd_safe _ _ s (2 * left (t_ps t) + k)); [eapply room_mono; [|exact Hr]; lia|done]|].
  cbv beta. intros a s1 Hs1 (Ha & Hnone & Hcm & Hr1). assert (Hsub := insert_subseteq (cmds s) a (BACK c) Hnone). rewrite <- Hcm in Hsub.
  eapply safe_weaken; [apply (IH a (t_ps t) s1 (Datatypes.S i) k); try done|].
  - eapply W_back; [rewrite Hcm; apply lookup_insert_eq|done|]. by eapply wf_mono.
  - lia.
  - intros x s' (HA & HB & HC & HD & i' & Hi' & Hsz). split; [done|]. split; [lia|]. split; [by etransitivity|]. split; [done|]. exists i'. split; [done|lia].
Qed.

(** *** Pipelines, lines and blocks *)

(** A parser, where there is room for what it may build. *)
Definition parser (sub : Z -> Z -> P S (Z * Z)) (l : nat) : Prop :=
  forall p s k, within lo hi p -> (left p < l)%nat -> ready s -> room s (2 * left p + 1 + k) -> safe (sub p hi) s (built (cmds s) 1 p k).
(** A constructor of two commands. *)
Definition joins (mk : Z -> Z -> P S Z) : Prop :=
  forall x y s k i j, ready s -> room s (Datatypes.S k) -> wfc s i x -> wfc s j y ->
  safe (mk x y) s (fun a s' => cmds s ⊆ cmds s' /\ room s' k /\ wfc s' (Datatypes.S (i + j)) a).
Lemma node_safe n c s k i : room s (Datatypes.S k) -> ready s ->
  (forall N a, cmds s ⊆ N -> N !! a = Some c -> a <> 0 -> wf lo hi N i a) ->
  safe (new_cmd n c) s (fun a s' => cmds s ⊆ cmds s' /\ room s' k /\ wfc s' i a).
Proof.
  intros Hr Hs Hw. eapply safe_weaken; [by apply (new_cmd_safe n c s k)|]. intros a s' (Ha & Hnone & Hc & Hr').
  assert (Hsub := insert_subseteq (cmds s) a c Hnone). rewrite <- Hc in Hsub. split; [done|]. split; [done|]. apply Hw; [done| |done].
  rewrite Hc. apply lookup_insert_eq.
Qed.
Lemma pipe_joins : joins pipecmd.
Proof. intros x y s k i j Hs Hr Hx Hy. apply node_safe; [done..|]. intros N a HN Ha H0'. eapply W_pipe; [exact Ha|done|by eapply wf_mono|by eapply wf_mono]. Qed.
Lemma list_joins : joins listcmd.
Proof. intros x y s k i j Hs Hr Hx Hy. apply node_safe; [done..|]. intros N a HN Ha H0'. eapply W_list; [exact Ha|done|by eapply wf_mono|by eapply wf_mono]. Qed.

Lemma built_trans N N' i j p q k x s : N' ⊆ N -> p <= q -> (j + 2 * left q <= i + 2 * left p)%nat -> built N j q k x s -> built N' i p k x s.
Proof.
  intros HN Hle Hsz (HA & HB & HC & HD & i' & Hi' & Hs). split; [done|]. split; [lia|]. split; [by etransitivity|]. split; [done|]. exists i'. split; [done|lia].
Qed.
(** After a command: a symbol and the rest, or neither. *)
Lemma tail_safe sub mk toks n c p1 s1 i k : parser sub n -> joins mk -> (left p1 <= n)%nat -> within lo hi p1 -> ready s1 ->
  wfc s1 i c -> room s1 (2 * left p1 + k) ->
  safe (b <~ look p1 hi toks ;;
        if fst b then tok <~ get (snd b) hi ;; r2 <~ sub (t_ps tok) hi ;; c' <~ mk c (fst r2) ;; pret (c', snd r2)
        else pret (c, snd b)) s1 (built (cmds s1) i p1 k).
Proof.
  intros Hsub Hmk Hl Hp1 Hs Hc Hr. apply safe_look; [done|done|]. intros b p2 Hp2 Hle Hb Hsk. cbn [fst snd]. destruct b.
  - destruct (Hb eq_refl) as [Hz _]. apply safe_get; [done..|]. intros t Ht Hlt. assert (Hl2 : (left (t_ps t) < left p1)%nat) by (unfold left, within in *; lia).
    eapply safe_bind; [apply (Hsub (t_ps t) s1 (Datatypes.S k)); [done|lia|done|eapply room_mono; [|exact Hr]; lia]|].
    intros [c2 p3] s2 Hs2 (Hp3 & Hle3 & HN & Hr2 & j & Hj & Hji). cbn [fst snd] in *.
    eapply safe_bind; [apply (Hmk c c2 s2 (2 * left p3 + k)%nat i j); [done|eapply room_mono; [|exact Hr2]; lia|by eapply wf_mono|done]|].
    cbv beta. intros a s3 Hs3 (HN3 & Hr3 & Hw). apply safe_ret; [done|]. unfold built. cbn [fst snd]. split_and!; [done|lia|by etransitivity|done|].
    exists (Datatypes.S (i + j)). split; [done|lia].
  - apply safe_ret; [done|]. unfold built. cbn [fst snd]. split_and!; [done|done|done| |].
    + eapply room_mono; [|exact Hr]. unfold left. lia.
    + exists i. split; [done|]. unfold left. lia.
Qed.

Lemma parseexec_safe n l : parser (parseblock lit fuel n) l -> (l <= fuel)%nat -> parser (parseexec lit fuel (Datatypes.S n)) l.
Proof.
  intros Hblock Hfu p s k Hp Hl Hs Hr. cbn [parseexec]. apply safe_look; [done|done|]. intros b p1 Hp1 Hle1 _ _. cbn [fst snd].
  assert (Hl1 : (left p1 <= left p)%nat) by (unfold left; lia). destruct b.
  - eapply safe_weaken; [apply (Hblock p1 s k); [done|lia|done|eapply room_mono; [|exact Hr]; lia]|].
    intros x s'. apply built_trans; [done|done|lia].
  - eapply safe_bind; [apply (new_cmd_safe _ _ s (2 * left p1 + k)); [eapply room_mono; [|exact Hr]; lia|done]|].
    cbv beta. intros a s1 Hs1 (Ha & Hnone & Hc1 & Hr1). set (c := EXEC _ _) in Hc1. assert (Hsub := insert_subseteq (cmds s) a c Hnone). rewrite <- Hc1 in Hsub.
    assert (Hlook : cmds s1 !! a = Some (EXEC (padded []) (padded []))) by (rewrite Hc1; apply lookup_insert_eq).
    assert (Hnil : args_in lo hi [] []) by (by split; cbn; [lia| |constructor|constructor]).
    eapply safe_bind; [apply (parseredirs_safe fuel a p1 s1 1 k); [done|done|by eapply W_exec|done|lia]|].
    intros [ret p2] s2 Hs2 (Hp2 & Hle2 & HN2 & Hr2 & j & Hj & Hji). cbn [fst snd] in *. assert (Hl2 : (left p2 <= left p1)%nat) by (unfold left; lia).
    eapply safe_weaken; [apply (exec_loop_safe (cmds s) fuel a ret [] [] p2 s2 j k); try done|].
    + by eapply lookup_weaken.
    + by etransitivity.
    + lia.
    + lia.
    + intros x s'. apply built_trans; [done|lia|lia].
Qed.
Lemma parseblock_safe n l : parser (parseline lit fuel n) l -> (l < fuel)%nat -> parser (parseblock lit fuel (Datatypes.S n)) (Datatypes.S l).
Proof.
  intros Hsub Hfu p s k Hp Hl Hs Hr. cbn [parseblock]. apply safe_look; [done|done|]. intros b p1 Hp1 Hle1 Hb Hsk. cbn [fst snd].
  destruct b; cbn [negb]; [|apply panic_safe; [done|cbn; tauto]]. destruct (Hb eq_refl) as [Hz _].
  apply safe_get; [done..|]. intros t Ht Hlt. assert (Hl1 : (left (t_ps t) < left p)%nat) by (unfold left, within in *; lia).
  eapply safe_bind; [apply (Hsub (t_ps t) s k); [done|lia|done|eapply room_mono; [|exact Hr]; lia]|].
  intros [c p2] s2 Hs2 (Hp2 & Hle2 & HN2 & Hr2 & j & Hj & Hji). cbn [fst snd] in *. apply safe_look; [done|done|]. intros b2 p3 Hp3 Hle3 Hb2 Hsk3. cbn [fst snd].
  destruct b2; cbn [negb]; [|apply panic_safe; [done|cbn; tauto]]. destruct (Hb2 eq_refl) as [Hz2 _].
  apply safe_get; [done..|]. intros t2 Ht2 Hlt2. assert (Hl2 : (left (t_ps t2) < left p2 <= left (t_ps t))%nat) by (unfold left, within in *; lia).
  eapply safe_weaken; [apply (parseredirs_safe fuel c (t_ps t2) s2 j k); [done|done|done|eapply room_mono; [|exact Hr2]; lia|lia]|].
  intros x s'. apply built_trans; [done|lia|lia].
Qed.
Lemma parsepipe_safe n l : parser (parseexec lit fuel n) (Datatypes.S l) -> parser (parsepipe lit fuel n) l -> parser (parsepipe lit fuel (Datatypes.S n)) (Datatypes.S l).
Proof.
  intros He Hpipe p s k Hp Hl Hs Hr. cbn [parsepipe]. eapply safe_bind; [by apply (He p s k)|].
  intros [c p1] s1 Hs1 (Hp1 & Hle1 & HN1 & Hr1 & i & Hi & Hsz). cbn [fst snd] in *.
  eapply safe_weaken; [apply (tail_safe _ _ "|" l c p1 s1 i k Hpipe pipe_joins); [unfold left in *; lia|done..]|].
  intros x s'. apply built_trans; [done|lia|lia].
Qed.
Lemma parseline_safe n l : (l < fuel)%nat -> parser (parsepipe lit fuel n) (Datatypes.S l) -> parser (parseline lit fuel n) l -> parser (parseline lit fuel (Datatypes.S n)) (Datatypes.S l).
Proof.
  intros Hfu Hpipe Hline p s k Hp Hl Hs Hr. cbn [parseline]. eapply safe_bind; [by apply (Hpipe p s k)|].
  intros [c p1] s1 Hs1 (Hp1 & Hle1 & HN1 & Hr1 & i & Hi & Hsz). cbn [fst snd] in *.
  eapply safe_bind; [apply (back_loop_safe fuel c p1 s1 i k); [done..|unfold left in *; lia]|].
  intros [c2 p2] s2 Hs2 (Hp2 & Hle2 & HN2 & Hr2 & j & Hj & Hji). cbn [fst snd] in *.
  eapply safe_weaken; [apply (tail_safe _ _ ";" l c2 p2 s2 j k Hline list_joins); [unfold left in *; lia|done..]|].
  intros x s'. apply built_trans; [by etransitivity|lia|lia].
Qed.
(** A recursion of depth [4 * l] is enough for fewer than [l] characters. *)
Lemma parsers_safe l : (l <= fuel)%nat -> forall n,
  (4 * l <= n -> parser (parseline lit fuel n) l)%nat /\ (4 * l <= n + 1 -> parser (parsepipe lit fuel n) l)%nat /\
  (4 * l <= n + 2 -> parser (parseexec lit fuel n) l)%nat /\ (4 * l <= n + 3 -> parser (parseblock lit fuel n) l)%nat.
Proof.
  induction l as [|l IH]; intros Hl.
  { intros n. split_and!; intros _ p s k _ Hlt; lia. }
  assert (IH' := IH ltac:(lia)). clear IH.
  assert (Hb : forall n, (4 * Datatypes.S l <= n + 3)%nat -> parser (parseblock lit fuel n) (Datatypes.S l)).
  { intros [|n] Hn; [lia|]. apply parseblock_safe; [|lia]. apply (IH' n). lia. }
  assert (He : forall n, (4 * Datatypes.S l <= n + 2)%nat -> parser (parseexec lit fuel n) (Datatypes.S l)).
  { intros [|n] Hn; [lia|]. apply parseexec_safe; [|lia]. apply Hb. lia. }
  assert (Hp : forall n, (4 * Datatypes.S l <= n + 1)%nat -> parser (parsepipe lit fuel n) (Datatypes.S l)).
  { intros [|n] Hn; [lia|]. apply parsepipe_safe; [apply He|apply (IH' n)]; lia. }
  intros n. split_and!; [|auto..]. intros Hn. destruct n as [|n]; [lia|]. apply parseline_safe; [lia|apply Hp|apply (IH' n)]; lia.
Qed.

(** *** Ending the strings *)

(** Only bytes of the line are written, with NULs. *)
Definition only_nuls (m1 m2 : mem) : Prop := forall x, ld8 m2 x = ld8 m1 x \/ within lo hi x /\ ld8 m2 x = 0.
Definition only (N : gmap Z cmd) (c : P S unit) : Prop :=
  forall s, cmds s = N -> exists s', c s = Ret (Some tt, s') /\ cmds s' = N /\ stdio s' = stdio s /\ output s' = output s /\ only_nuls (memof s) (memof s').
Lemma only_seq N c d : only N c -> only N d -> only N (c ;~ d).
Proof.
  intros Hc Hd s Hs. destruct (Hc s Hs) as (s1 & R1 & E1 & O1 & U1 & K1). destruct (Hd s1 E1) as (s2 & R2 & E2 & O2 & U2 & K2).
  exists s2. split; [by rewrite (pbind_step _ _ _ _ _ R1)|]. split; [done|]. split; [congruence|]. split; [congruence|]. intros x.
  destruct (K1 x) as [A1|[B1 A1]], (K2 x) as [A2|[B2 A2]]; rewrite ?A1 in *; auto.
Qed.
Lemma only_ret N : only N (pret tt).
Proof. intros s Hs. exists s. do 4 (split; [done|]). by left. Qed.
Lemma only_nul N e : within lo hi e -> only N (umem_set (fun m => st8 m e 0)).
Proof.
  intros He s Hs. exists (lput (st8 (memof s) e 0) s). split; [unfold umem_set, plift; by erewrite kbind_ret by (apply via_ret; reflexivity)|].
  split; [by rewrite cmds_of_mem|]. split; [apply stdio_of_mem|]. split; [apply output_of_mem|]. rewrite lget_lput. intros x. rewrite ld8_st8. destruct (x =? e) eqn:E; [|by left].
  apply Z.eqb_eq in E as ->. by right.
Qed.
Lemma only_args N qs : forall es x y, length es = length qs -> Forall (within lo hi) qs -> Forall (within lo hi) es ->
  only N (nul_args (qs ++ 0 :: x) (es ++ 0 :: y)).
Proof.
  induction qs as [|q qs IH]; intros [|e es] x y Hl Hq He; try discriminate; cbn [app nul_args].
  - apply only_ret.
  - inversion Hq as [|? ? Hq0 Hq1]. inversion He as [|? ? He0 He1]. rewrite (proj2 (Z.eqb_neq q 0)) by (unfold within in *; lia).
    apply only_seq; [by apply only_nul|]. apply IH; [by injection Hl|done|done].
Qed.
Lemma only_getc N (k : cmd -> P S unit) a c : N !! a = Some c -> only N (k c) -> only N (x <~ getc a ;; k x).
Proof.
  intros Ha Hk s Hs. rewrite <- Hs in Ha. destruct (Hk s Hs) as (s' & R & HQ). exists s'. split; [|exact HQ]. rewrite <- R. apply pbind_step. unfold getc, plift.
  erewrite kbind_ret by (apply via_ret; by rewrite Ha). by rewrite lput_lget.
Qed.
Lemma nulterminate_only N i a : wf lo hi N i a -> forall n, (i <= n)%nat -> only N (nulterminate n a).
Proof.
  induction 1 as [a qs es Ha [L1 L2 F1 F2] Hnz|i a c q e mode fd Ha Hnz Hq He Hc IH|i j a l r Ha Hnz Hl IHl Hr IHr|i j a l r Ha Hnz Hl IHl Hr IHr|i a c Ha Hnz Hc IH];
    intros [|n] Hn; try lia; cbn [nulterminate]; rewrite (proj2 (Z.eqb_neq a 0)) by done; (eapply only_getc; [exact Ha|]); cbv beta iota.
  - unfold padded. rewrite L2. replace (10 - length qs)%nat with (Datatypes.S (9 - length qs)) by lia. by apply only_args.
  - apply only_seq; [apply IH; lia|by apply only_nul].
  - apply only_seq; [apply IHl|apply IHr]; lia.
  - apply only_seq; [apply IHl|apply IHr]; lia.
  - apply IH. lia.
Qed.
End Total.

(** The rest of a line. *)
Lemma cstr_from m a text p : cstr m a text -> within a (a + Z.of_nat (length text)) p ->
  exists pre rest, text = pre ++ rest /\ p = a + Z.of_nat (length pre) /\ cstr m p rest.
Proof.
  intros Hc [H1 H2]. exists (take (Z.to_nat (p - a)) text), (drop (Z.to_nat (p - a)) text). rewrite take_drop. split; [done|].
  assert (Hp : p = a + Z.of_nat (length (take (Z.to_nat (p - a)) text))) by (rewrite length_take; lia). split; [done|].
  rewrite <- (take_drop (Z.to_nat (p - a)) text) in Hc. apply cstr_app in Hc as [_ Hc]. by rewrite <- Hp in Hc.
Qed.

(** What a line that does not parse makes the shell print. *)
Definition complaint (text msg : list Z) : Prop :=
  (exists t, In t errors /\ msg = chars (nl t)) \/
  exists pre rest, text = pre ++ rest /\ rest <> [] /\ msg = chars "leftovers: " ++ rest ++ [fflush] ++ chars (nl "syntax").

(** The parser on any line; the property below is its closed form. *)
Lemma parsecmd_ends {S} `{ShellOut S} lit fuel a text s :
  0 < a -> cstr (lget s) a text -> (4 * length text + 4 <= fuel)%nat -> spelled lit fuel (lget s) ->
  buf_ok (mkUst (lget s) (fst (lget (T := list Z * Z) s)) (snd (lget (T := list Z * Z) s)) []) ->
  room s (2 * length text + 1) ->
  exists o s', parsecmd lit fuel a s = Ret (o, s') /\
    match o with
    | None => exists msg, complaint text msg /\ ended_with s msg s'
    | Some c =>
        (exists n, wf a (a + Z.of_nat (length text)) (lget s') n c /\ (n <= 2 * length text + 1)%nat) /\
        only_nuls a (a + Z.of_nat (length text)) (lget s) (lget s') /\ lget (T := gmap Z cmd) s ⊆ lget s' /\
        buf_ok (mkUst (lget s') (fst (lget (T := list Z * Z) s')) (snd (lget (T := list Z * Z) s')) []) /\
        output s' = output s /\ lget (T := list Z * Z) s' = lget s
    end.
Proof.
  intros Ha Hc Hf Hsp Hb Hr. set (hi := a + Z.of_nat (length text)). assert (Hend : ld8 (lget s) hi = 0) by by apply cstr_end.
  assert (Hs : ready (lget s) s s) by by split. assert (Hla : left hi a = length text) by (unfold left, hi; lia).
  destruct (parsers_safe lit fuel (lget s) Hsp s eq_refl Hb a hi Hend (Datatypes.S (length text)) ltac:(lia) fuel) as [Hpar _].
  specialize (Hpar ltac:(lia) a s O). rewrite Hla in Hpar. unfold parsecmd.
  erewrite pbind_step.
  2:{ unfold umem_res, plift. erewrite kbind_ret; [reflexivity|]. apply via_ret. unfold Ulib.strlen. rewrite (strlen_cstr fuel _ _ text Hc) by lia. reflexivity. }
  rewrite lput_lget. fold hi.
  destruct Hpar as (o & s1 & R1 & Ho); [unfold within, hi; lia|lia|done|by rewrite Nat.add_0_r|].
  destruct o as [[c p]|].
  2:{ exists None, s1. split; [unfold pbind at 1; by erewrite kbind_ret by exact R1|]. destruct Ho as (t & Ht & Hw). eexists. split; [|exact Hw]. left. by exists t. }
  rewrite (pbind_step _ _ _ _ _ R1). cbn [fst snd]. destruct Ho as (Hs1 & Hp & _ & HN & _ & n & Hw & Hn). cbn [fst snd] in *.
  destruct Hs1 as (Hm1 & Hst1 & Ho1). rewrite (pbind_step _ _ _ _ _ (look_ok (lget s) hi s1 p "" Hm1)).
  destruct (peek_in (lget s) a hi p (chars "") Hp) as (-> & Hp1 & _). cbn [fst snd]. destruct (Z.eqb_spec (skip (lget s) p hi) hi) as [Eq|Hne]; cbn [negb].
  - destruct (nulterminate_only a hi Ha (lget s1) n c Hw fuel ltac:(lia) s1 eq_refl) as (s2 & R2 & E2 & O2 & U2 & K2). exists (Some c), s2.
    split; [by rewrite (pbind_step _ _ _ _ _ R2)|]. rewrite E2, O2, U2, Hst1, Ho1. rewrite Hm1 in K2. split; [exists n; split; [done|lia]|].
    split; [done|]. split; [done|]. by destruct Hb.
  - destruct (cstr_from (lget s) a text _ Hc Hp1) as (pre & rest & -> & Epre & Hrest). set (q := skip (lget s) p hi) in *.
    assert (Hne' : rest <> []) by (intros ->; apply Hne; unfold hi; rewrite app_nil_r; exact Epre).
    destruct (message lit fuel (lget s) Hsp (nl "leftovers: %s")) as (_ & Hcl & Hll); [cbn; tauto|]. rewrite length_app in Hf.
    destruct (uprintf_line fuel 2 (lit (nl "leftovers: %s")) (chars (nl "leftovers: %s")) [q] (chars "leftovers: " ++ rest) s1)
      as (s2 & ws & R2 & M2 & B2 & W2 & O2 & F2 & E2).
    + by rewrite Hm1.
    + rewrite Hm1. cbn. unfold within in Hp1. split; [done|]. split; [lia|]. split; [|done]. exists rest. split; [done|lia].
    + done.
    + unfold buffered. by rewrite Hm1, Hst1.
    + rewrite Hm1. cbn. intros x Hx. repeat (destruct Hx as (? & -> & Hx)). destruct Hx as (l & Hx). destruct Hx as (t' & Hl' & -> & (t2 & -> & ->)).
      by rewrite (cstr_inj _ _ _ _ Hl' Hrest).
    + destruct (panic_says lit fuel (lget s) Hsp (A := Z) "syntax" s2) as (s3 & R3 & X3); [congruence|done|cbn; tauto|].
      exists None, s3. split; [by rewrite (pbind_step _ _ _ _ _ R2)|].
      exists ((chars "leftovers: " ++ rest ++ [fflush]) ++ chars (nl "syntax")). split; [right; exists pre, rest; by rewrite <- !app_assoc|].
      rewrite Ho1 in O2. rewrite Hst1, <- app_assoc in E2. rewrite Hm1 in M2. by eapply ended_after.
Qed.

(** C7. On every line the parser of the shell comes to an end, with a recursion
    that is linear in the length of the line: it returns a command and has
    printed nothing, or it writes a complaint to descriptor 2, one of its error
    messages or "leftovers: " with a last part of the line and then "syntax",
    each ended by a newline, and calls exit(1). It never reads past the line or
    stores more than [MAXARGS] arguments, and what it returns is a tree of at most
    [2 * length text + 1] commands, each with fewer than ten arguments, ended by a
    null, and strings that lie in the line; of the memory it has only overwritten
    bytes of the line, with NULs, and no other command is changed. *)
Theorem parsecmd_total {S} `{ShellOut S} lit fuel a text s :
  0 < a -> cstr (lget s) a text -> (4 * length text + 4 <= fuel)%nat -> spelled lit fuel (lget s) ->
  buf_ok (mkUst (lget s) (fst (lget (T := list Z * Z) s)) (snd (lget (T := list Z * Z) s)) []) ->
  room s (2 * length text + 1) ->
  exists o s', parsecmd lit fuel a s = Ret (o, s') /\
    match o with
    | None => exists msg, complaint text msg /\ ended_with s msg s'
    | Some c =>
        (exists n, wf a (a + Z.of_nat (length text)) (lget s') n c /\ (n <= 2 * length text + 1)%nat) /\
        only_nuls a (a + Z.of_nat (length text)) (lget s) (lget s') /\ lget (T := gmap Z cmd) s ⊆ lget s' /\
        output s' = output s /\ lget (T := list Z * Z) s' = lget s
    end.
Proof.
  intros Ha Hc Hf Hsp Hb Hr. destruct (parsecmd_ends lit fuel a text s Ha Hc Hf Hsp Hb Hr) as (o & s' & R & Ho). exists o, s'.
  split; [done|]. destruct o; [|done]. destruct Ho as (Hw & Hn & HN & _ & Ho). by split_and!; try apply Ho.
Qed.

(** The shell of Sh.v with the messages in its memory, and a line with empty
    commands. *)
#[local] Existing Instances ds_mem_lens ds_stdio_lens ds_cmds_lens ds_user ds_shell ds_laws.
Definition ds_writes : ShellOut demo_sh.
Proof.
  refine {| output := ds_out |}; try done.
  - intros n s r s' [= <- <-]. done.
  - intros n s r s' [= <- <-]. done.
  - intros fd l s. by eexists _, _.
  - intros n args s. by eexists _, _.
Defined.
Fixpoint demo_lit (ts : list string) (a : Z) (t : string) : Z :=
  match ts with [] => a | u :: ts => if String.eqb t u then a else demo_lit ts (a + 64) t end.
Definition demo_mem (line : string) : mem :=
  foldr (fun t m => mput m (demo_lit messages 1024 t) (chars t)) (mput (fun _ => 0) 100 (chars line)) messages.
Definition demo_total (line : string) : demo_sh := mkDemoSh (demo_mem line) (replicate 64 0, 0) ∅ 4096 [].
Lemma parsecmd_total_witness : exists o s', parsecmd (demo_lit messages 1024) 80 100 (demo_total "|(;x>f)&;a b") = Ret (o, s') /\
  match o with
  | None => exists msg, complaint (chars "|(;x>f)&;a b") msg /\ ended_with (H2 := ds_writes) (demo_total "|(;x>f)&;a b") msg s'
  | Some c => (exists n, wf 100 112 (lget s') n c /\ (n <= 25)%nat) /\
      only_nuls 100 112 (lget (demo_total "|(;x>f)&;a b")) (lget s') /\ lget (T := gmap Z cmd) (demo_total "|(;x>f)&;a b") ⊆ lget s' /\
      ds_out s' = [] /\ lget (T := list Z * Z) s' = (replicate 64 0, 0)
  end.
Proof.
  apply (parsecmd_total (H2 := ds_writes) (demo_lit messages 1024) 80 100 (chars "|(;x>f)&;a b") (demo_total "|(;x>f)&;a b")); [lia| | | | |].
  - vm_compute. repeat split; discriminate.
  - vm_compute. lia.
  - repeat constructor; vm_compute; try discriminate; lia.
  - split; [done|by vm_compute|by vm_compute].
  - split; [done|]. intros. apply lookup_empty.
Defined.

(** Two lines that do not parse, and what is written for them. *)
Definition demo_says (line : string) : option (list (Z * list Z)) :=
  match parsecmd (demo_lit messages 1024) 80 100 (demo_total line) with Ret (None, s') => Some (ds_out s') | _ => None end.
Example demo_missing : demo_says "(a b" = Some [(2, chars (nl "syntax - missing )"))].
Proof. vm_compute. reflexivity. Qed.
Example demo_leftovers : demo_says "a b ) c" = Some [(2, chars (nl "leftovers: ) c")); (2, chars (nl "syntax"))].
Proof. vm_compute. reflexivity. Qed.
