(* ===== verification/ShRun.v ===== *)
(** Running a command of the shell: src/user/sh.c.

    What a command means is the system calls of the process that runs it
    ([means]): a relation between the tree of a command and a list of events, an
    event being a call with its arguments as the kernel reads them (strings
    rather than addresses) and its result. The kernel's answers are free:
    [fork] may return in the child, in the parent or fail, and so for the
    others; the list is that of the one process whose answers they are.
    [runcmd] is shown to produce just these lists, and [run_line] to take a
    line of text through the parser to them. *)
From S2P Require Import Prelude CString Bytes Spinlock Printf Ustdio Ulib Sh ShTotal.

(** ** What the kernel sees *)

(** A system call, with the memory and the commands of the process around it. *)
Record call : Type := mkCall { c_num : Z; c_args : list Z; c_before : mem; c_after : mem; c_cmds : gmap Z cmd; c_result : option Z }.

(** The memory a call may write. *)
Definition touches (num : Z) (args : list Z) (x : Z) : Prop :=
  num = SYS_sbrk \/ match args with
  | [p] => num = SYS_pipe /\ p <= x < p + 8
  | [_; b; k] => num = SYS_read /\ b <= x < b + k
  | _ => False
  end.

(** [trace] is what the process has called so far. A call comes back, unless it
    is [exit], or an [exec] that succeeds; it writes no memory but that it is
    given, and leaves the heap alone. *)
Class ShellKernel (S : Type) `{ShellOut S} : Type := {
  trace : S -> list call;
  ecall_traced n args s : exists o s', ecall n args s = Ret (o, s') /\
    trace s' = trace s ++ [mkCall n args (lget s) (lget s') (lget s) o] /\
    lget (T := gmap Z cmd) s' = lget s /\ lget (T := list Z * Z) s' = lget s /\
    (o = None -> n = SYS_exec \/ n = SYS_exit) /\
    (forall x, ~ touches n args x -> ld8 (lget s') x = ld8 (lget s) x) /\
    (n <> SYS_sbrk -> forall k, room s k -> room s' k);
  put_traced fd l s : exists r s', put_bytes fd l s = Ret (Some r, s') /\ trace s' = trace s /\
    lget (T := mem) s' = lget s /\ lget (T := gmap Z cmd) s' = lget s /\ lget (T := list Z * Z) s' = lget s;
  trace_of_stdio (x : list Z * Z) s : trace (lput x s) = trace s;
  cmds_of_stdio (x : list Z * Z) s : lget (T := gmap Z cmd) (lput x s) = lget s
}.

(** ** Events *)

Inductive sys : Type :=
| Exec (args : list (list Z))
| Open (path : list Z) (mode : Z)
| Close (fd : Z)
| Fork
| Wait
| Pipe (p0 p1 : Z)
| Dup (fd : Z)
| Exit (code : Z).
Definition event : Type := sys * option Z.

(** The strings at the addresses [qs]. *)
Definition strings (m : mem) : list Z -> list (list Z) -> Prop := Forall2 (fun q w => q <> 0 /\ cstr m q w).

(** The call [c] is the event, its arguments read from the memory. *)
Inductive decodes : call -> sys -> Prop :=
| D_exec a q qs x es w ws m m' N o : N !! a = Some (EXEC (q :: qs ++ 0 :: x) es) -> strings m (q :: qs) (w :: ws) ->
    decodes (mkCall SYS_exec [q; argv_at a] m m' N o) (Exec (w :: ws))
| D_open q w mode m m' N o : cstr m q w -> decodes (mkCall SYS_open [q; mode] m m' N o) (Open w mode)
| D_close fd m m' N o : decodes (mkCall SYS_close [fd] m m' N o) (Close fd)
| D_fork m m' N o : decodes (mkCall SYS_fork [] m m' N o) Fork
| D_wait m m' N o : decodes (mkCall SYS_wait [0] m m' N o) Wait
| D_pipe p m m' N o : decodes (mkCall SYS_pipe [p] m m' N o) (Pipe (s32 (ld32 m' p)) (s32 (ld32 m' (p + 4))))
| D_dup fd m m' N o : decodes (mkCall SYS_dup [fd] m m' N o) (Dup fd)
| D_exit code m m' N o : decodes (mkCall SYS_exit [code] m m' N o) (Exit code).
Definition seen (c : call) (e : event) : Prop := decodes c (fst e) /\ c_result c = snd e.

(** ** The meaning of a command *)

(** [forks r c p]: the process whose [fork] returns [r] goes on as the child
    does, as the parent does, or gives up. *)
Inductive forks (child parent : list event -> Prop) : list event -> Prop :=
| F_child r es : s32 r = 0 -> child es -> forks child parent ((Fork, Some r) :: es)
| F_parent r es : s32 r <> 0 -> s32 r <> -1 -> parent es -> forks child parent ((Fork, Some r) :: es)
| F_fails r o : s32 r = -1 -> forks child parent [(Fork, Some r); (Exit 1, o)].

(** The end of a pipe takes the place of [fd]; both ends are closed. *)
Inductive plugged (fd p p0 p1 : Z) (rest : list event -> Prop) : list event -> Prop :=
| Plugged r1 r2 r3 r4 es : rest es ->
    plugged fd p p0 p1 rest ((Close fd, Some r1) :: (Dup p, Some r2) :: (Close p0, Some r3) :: (Close p1, Some r4) :: es).
(** The shell closes its ends and waits for both sides. *)
Inductive waits_both (p0 p1 : Z) : list event -> Prop :=
| Waits_both r1 r2 r3 r4 o : waits_both p0 p1 [(Close p0, Some r1); (Close p1, Some r2); (Wait, Some r3); (Wait, Some r4); (Exit 0, o)].
Inductive waits (rest : list event -> Prop) : list event -> Prop :=
| Waits r es : rest es -> waits rest ((Wait, Some r) :: es).
Inductive finishes (code : Z) : list event -> Prop :=
| Finishes o : finishes code [(Exit code, o)].

Fixpoint means (t : ast) (tr : list event) : Prop :=
  match t with
  | TExec [] => finishes 1 tr
  | TExec args => tr = [(Exec args, None)] \/ exists r o, tr = [(Exec args, Some r); (Exit 0, o)]
  | TRedir t k f => exists r1 r2 es, tr = (Close (r_fd k), Some r1) :: (Open f (r_mode k), Some r2) :: es /\
      if s32 r2 <? 0 then finishes 1 es else means t es
  | TList a b => forks (means a) (waits (means b)) tr
  | TPipe a b => exists r p0 p1 es, tr = (Pipe p0 p1, Some r) :: es /\
      if s32 r <? 0 then finishes 1 es
      else forks (plugged 1 p1 p0 p1 (means a)) (forks (plugged 0 p0 p0 p1 (means b)) (waits_both p0 p1)) es
  | TBack t => forks (means t) (finishes 0) tr
  end.

(** ** Runs of the shell *)

Lemma s32_s32 x : s32 (s32 x) = s32 x.
Proof.
  assert (Hu : u32 (s32 x) = u32 x); [|unfold s32 at 1; cbv zeta; by rewrite Hu].
  unfold s32. cbv zeta. unfold u32, Prelude.wrap. destruct (_ <? _); [by rewrite Z.mod_mod|].
  by rewrite Zminus_mod, Z.mod_same, Z.sub_0_r, !Z.mod_mod.
Qed.

Section Runs.
Context {S : Type} `{ShellKernel S}.
Context (lit : string -> Z) (fuel : nat) (p_at : Z).
#[local] Abbreviation cmds := (lget (T := gmap Z cmd)).
#[local] Abbreviation memof := (lget (T := mem)).
#[local] Abbreviation stdio := (lget (T := list Z * Z)).
Context (m : mem) (N : gmap Z cmd).

(** The array [p] is on the stack; nothing else is there. *)
Definition clear (q : Z) (w : list Z) : Prop := q + Z.of_nat (length w) < p_at \/ p_at + 8 <= q.
(** The text [w] is at [q], in the memory the command was built in. *)
Definition text (q : Z) (w : list Z) : Prop := q <> 0 /\ cstr m q w /\ clear q w /\ (length w < fuel)%nat.
Context (Hmsgs : Forall (fun t => text (lit t) (chars t)) messages).

(** The process still has this memory, apart from [p], and these commands. *)
Record fits (s : S) : Prop := {
  fi_mem : forall x, ~ (p_at <= x < p_at + 8) -> ld8 (memof s) x = ld8 m x;
  fi_cmds : cmds s = N;
  fi_out : buf_ok (mkUst (memof s) (fst (stdio s)) (snd (stdio s)) [])
}.
Lemma fits_text s q w : fits s -> text q w -> cstr (memof s) q w.
Proof.
  intros Hs (_ & Hc & Hcl & _). eapply cstr_ext; [|exact Hc]. intros x Hx. apply (fi_mem s Hs). unfold clear in Hcl. lia.
Qed.

(** [c] makes the calls that [Q] accepts. *)
Definition acts {A} (c : P S A) (s : S) (Q : option A -> S -> list event -> Prop) : Prop :=
  exists o s' tr es, c s = Ret (o, s') /\ trace s' = trace s ++ tr /\ Forall2 seen tr es /\ (o <> None -> fits s') /\ Q o s' es.

Lemma acts_weaken {A} (c : P S A) s (Q R : option A -> S -> list event -> Prop) : acts c s Q -> (forall o s' es, Q o s' es -> R o s' es) -> acts c s R.
Proof. intros (o & s' & tr & es & R1 & R2 & R3 & R4 & HQ) HR. exists o, s', tr, es. eauto 10. Qed.
Lemma acts_ret {A} (a : A) s (Q : option A -> S -> list event -> Prop) : fits s -> Q (Some a) s [] -> acts (pret a) s Q.
Proof. intros Hs HQ. exists (Some a), s, [], []. rewrite app_nil_r. split; [done|]. split; [done|]. by split. Qed.
Lemma acts_bind {A B} (c : P S A) (k : A -> P S B) s Q R : acts c s Q ->
  (forall a s' es, fits s' -> Q (Some a) s' es -> acts (k a) s' (fun o s'' es' => R o s'' (es ++ es'))) ->
  (forall s' es, Q None s' es -> R None s' es) -> acts (pbind c k) s R.
Proof.
  intros (o & s1 & tr & es & R1 & T1 & F1 & Hf & HQ) Hk Hn. destruct o as [a|].
  - destruct (Hk a s1 es (Hf ltac:(done)) HQ) as (o2 & s2 & tr2 & es2 & R2 & T2 & F2 & Hf2 & HR).
    exists o2, s2, (tr ++ tr2), (es ++ es2). split; [by rewrite (pbind_step _ _ _ _ _ R1)|]. split; [by rewrite T2, T1, app_assoc|].
    split; [by apply Forall2_app|]. by split.
  - exists None, s1, tr, es. split; [unfold pbind; by erewrite kbind_ret by exact R1|]. split; [done|]. split; [done|]. split; [done|by apply Hn].
Qed.
(** Looking changes nothing. *)
Lemma acts_silent {A B} (c : P S A) (k : A -> P S B) s a R : c s = Ret (Some a, s) -> acts (k a) s R -> acts (pbind c k) s R.
Proof. intros R1 (o & s2 & tr & es & R2 & Ho). exists o, s2, tr, es. split; [by rewrite (pbind_step _ _ _ _ _ R1)|done]. Qed.

(** *** System calls *)

Lemma acts_ecall n args (e : mem -> sys) s : fits s -> (forall x, touches n args x -> p_at <= x < p_at + 8) ->
  (forall m' o, decodes (mkCall n args (memof s) m' (cmds s) o) (e m')) ->
  acts (ecall n args) s (fun o s' es => es = [(e (memof s'), o)] /\ (o = None -> n = SYS_exec \/ n = SYS_exit) /\
    (n <> SYS_sbrk -> forall k, room s k -> room s' k)).
Proof.
  intros Hs Ht Hd. destruct (ecall_traced n args s) as (o & s' & R & T & Hc & Hst & Hn & Hm & Hr).
  exists o, s', [mkCall n args (memof s) (memof s') (cmds s) o], [(e (memof s'), o)].
  split; [done|]. split; [done|]. split; [constructor; [|constructor]; split; [apply Hd|done]|]. split; [intros _|by split].
  split; [|by rewrite Hc; apply Hs|].
  - intros x Hx. rewrite Hm by (intros Hx2; by apply Hx, Ht). by apply Hs.
  - rewrite Hst. destruct (fi_out s Hs). by split.
Qed.
(** A call that comes back, and what is made of its result. *)
Lemma acts_call {A} n args (f : Z -> A) (e : mem -> sys) s : fits s -> n <> SYS_exec -> n <> SYS_exit ->
  (forall x, touches n args x -> p_at <= x < p_at + 8) -> (forall m' o, decodes (mkCall n args (memof s) m' (cmds s) o) (e m')) ->
  acts (r <~ ecall n args ;; pret (f r)) s (fun o s' es => exists r, o = Some (f r) /\ es = [(e (memof s'), Some r)]).
Proof.
  intros Hs H1' H2' Ht Hd. eapply acts_bind; [by apply acts_ecall|..].
  - intros r s' es Hs' [-> _]. apply acts_ret; [done|]. by exists r.
  - intros s' es [_ [Hn _]]. by destruct (Hn eq_refl).
Qed.
Lemma fork_acts s : fits s ->
  acts fork s (fun o s' es => exists r, o = Some (s32 r) /\ es = [(Fork, Some r)] /\ forall k, room s k -> room s' k).
Proof.
  intros Hs. eapply acts_bind; [apply (acts_ecall SYS_fork [] (fun _ => Fork) s Hs); [by intros x [?|?]|intros; constructor]|..]; cbv beta.
  - intros r s' es Hs' (-> & _ & Hr). apply acts_ret; [done|]. exists r. split; [done|]. split; [done|]. by apply Hr.
  - intros s' es (_ & Hn & _). by destruct (Hn eq_refl).
Qed.
Lemma wait_acts s : fits s -> acts (wait 0) s (fun o _ es => exists r, o = Some (s32 r) /\ es = [(Wait, Some r)]).
Proof. intros Hs. apply (acts_call SYS_wait [0] s32 (fun _ => Wait)); [done..|by intros x [?|[? ?]]|intros; constructor]. Qed.
Lemma dup_acts fd s : fits s -> acts (dup fd) s (fun o _ es => exists r, o = Some (s32 r) /\ es = [(Dup (s32 fd), Some r)]).
Proof. intros Hs. apply (acts_call SYS_dup [s32 fd] s32 (fun _ => Dup (s32 fd))); [done..|by intros x [?|[? ?]]|intros; constructor]. Qed.
Lemma open_acts q w mode s : fits s -> text q w ->
  acts (open q mode) s (fun o _ es => exists r, o = Some (s32 r) /\ es = [(Open w (s32 mode), Some r)]).
Proof.
  intros Hs Hq. apply (acts_call SYS_open [q; s32 mode] s32 (fun _ => Open w (s32 mode))); [done..|by intros x [?|?]|].
  intros m' o. constructor. by apply fits_text.
Qed.
Lemma pipe_acts s : fits s ->
  acts (pipe p_at) s (fun o s' es => exists r, o = Some (s32 r) /\ es = [(Pipe (s32 (ld32 (memof s') p_at)) (s32 (ld32 (memof s') (p_at + 4))), Some r)]).
Proof.
  intros Hs. apply (acts_call SYS_pipe [p_at] s32 (fun m' => Pipe (s32 (ld32 m' p_at)) (s32 (ld32 m' (p_at + 4))))); [done..| |].
  - by intros x [?|[_ ?]].
  - intros m' o. constructor.
Qed.
Lemma exit_acts {A} code s : fits s -> acts (exit (A := A) code) s (fun o _ es => o = None /\ exists r, es = [(Exit (s32 code), r)]).
Proof.
  intros Hs. eapply acts_bind; [apply (acts_ecall SYS_exit [s32 code] (fun _ => Exit (s32 code)) s Hs); [by intros x [?|[? ?]]|intros; constructor]|..].
  - intros r s' es Hs' [-> _]. exists None, s', [], []. rewrite app_nil_r. split; [done|]. split; [done|]. split; [done|]. split; [done|].
    split; [done|]. by exists (Some r).
  - intros s' es [-> _]. split; [done|]. by exists None.
Qed.

(** *** Messages *)

Lemma spelled_msgs s : fits s -> spelled lit fuel (memof s).
Proof.
  intros Hs. unfold spelled. eapply Forall_impl; [exact Hmsgs|]. cbv beta. intros t Ht. split; [apply Ht|].
  split; [by apply fits_text|]. apply Ht.
Qed.
Lemma put_writes_acts ws : forall s, fits s -> acts (put_writes ws) s (fun o _ es => o = Some tt /\ es = []).
Proof.
  induction ws as [|[fd l] ws IH]; intros s Hs; cbn [put_writes]; [by apply acts_ret|].
  destruct (put_traced fd l s) as (r & s1 & R & T & Hm & Hc & Hst).
  destruct (IH s1) as (o & s2 & tr & es & R2 & T2 & Ho).
  { destruct Hs as [F1 F2 F3]. split; [by rewrite Hm|by rewrite Hc|by rewrite Hm, Hst]. }
  exists o, s2, tr, es. split; [by rewrite (pbind_step _ _ _ _ _ R)|]. split; [by rewrite T2, T|done].
Qed.
Lemma print_acts fd f ap s : fits s -> In f messages -> fmt_ok fuel (memof s) (chars f) ap ->
  acts (uprintf fuel fd (lit f) ap) s (fun o _ es => o = Some tt /\ es = []).
Proof.
  intros Hs Hin Hf. destruct (message lit fuel _ (spelled_msgs s Hs) f Hin) as (_ & Hc & Hl).
  unfold acts, uprintf, Ustdio.fprintf, Ustdio.vprintf.
  destruct (vprintf_loop_ok fuel (chars f) fuel fd (lit f) 0 ap (mkUst (memof s) (fst (stdio s)) (snd (stdio s)) [])) as (x & text & R & [Hx Hm _ _] & _);
    [by rewrite Z.add_0_r|done|apply Hs|done|].
  rewrite R. edestruct (put_writes_acts (u_writes x)) as (o & s2 & tr & es & R2 & T2 & Ho); [|exists o, s2, tr, es; split; [exact R2|]; rewrite T2, trace_of_stdio; by split].
  split; rewrite ?mem_of_stdio, ?cmds_of_stdio, ?lget_lput; [apply Hs..|]. by destruct Hx.
Qed.
Lemma print_word_acts fd f q w s : fits s -> In f messages -> text q w ->
  (forall m, q <> 0 -> (exists l, cstr m q l /\ (length l < fuel)%nat) -> fmt_ok fuel m (chars f) [q]) ->
  acts (uprintf fuel fd (lit f) [q]) s (fun o _ es => o = Some tt /\ es = []).
Proof.
  intros Hs Hin Hq Hf. apply print_acts; [done|done|]. apply Hf; [apply Hq|].
  exists w. split; [by apply fits_text|apply Hq].
Qed.

(** *** The end of a command *)

(** [c] makes calls in [T], and [exit(0)] after it returns is one of them. *)
Definition body (c : P S unit) (s : S) (T : list event -> Prop) : Prop :=
  acts c s (fun o _ es => match o with None => T es | Some _ => forall r, T (es ++ [(Exit 0, r)]) end).
(** [c] makes calls in [T] and does not return. *)
Definition ran (c : P S unit) (s : S) (T : list event -> Prop) : Prop := acts c s (fun o _ es => o = None /\ T es).

Lemma body_ran c s T : body c s T -> ran (c ;~ exit 0) s T.
Proof.
  intros Hc. eapply acts_bind; [exact Hc|..]; cbv beta iota; [|done]. intros _ s' es Hs' HT.
  eapply acts_weaken; [by apply exit_acts|]. cbv beta. intros o s2 es2 [-> (r & ->)]. split; [done|]. apply HT.
Qed.
Lemma ran_body c s T : ran c s T -> body c s T.
Proof. intros Hc. eapply acts_weaken; [exact Hc|]. cbv beta. by intros o s' es [-> HT]. Qed.
Lemma body_weaken c s (T U : list event -> Prop) : body c s T -> (forall es, T es -> U es) -> body c s U.
Proof. intros Hc HU. eapply acts_weaken; [exact Hc|]. cbv beta. intros [[]|] s' es HT; auto. Qed.
Lemma body_step {A} (c : P S A) (f : Z -> A) e k s T : acts c s (fun o _ es => exists r, o = Some (f r) /\ es = [(e, Some r)]) ->
  (forall r s', fits s' -> body (k (f r)) s' (fun es => T ((e, Some r) :: es))) -> body (pbind c k) s T.
Proof.
  intros Hc Hk. eapply acts_bind; [exact Hc|..]; cbv beta; [|by intros s' es (r & ? & _)].
  intros a s' es Hs' (r & [= ->] & ->). by apply Hk.
Qed.
Lemma body_quiet {A} (c : P S A) a k s T : acts c s (fun o _ es => o = Some a /\ es = []) ->
  (forall s', fits s' -> body (k a) s' T) -> body (pbind c k) s T.
Proof.
  intros Hc Hk. eapply acts_bind; [exact Hc|..]; cbv beta; [|by intros s' es [? _]]. intros b s' es Hs' [[= ->] ->]. by apply Hk.
Qed.
Lemma body_silent {A} (c : P S A) k s a T : c s = Ret (Some a, s) -> body (k a) s T -> body (pbind c k) s T.
Proof. apply acts_silent. Qed.
Lemma body_ret s (T : list event -> Prop) : fits s -> (forall r, T [(Exit 0, r)]) -> body (pret tt) s T.
Proof. intros Hs HT. by apply acts_ret. Qed.
Lemma body_exit code s : fits s -> s32 code = code -> body (exit code) s (finishes code).
Proof.
  intros Hs Hc. eapply acts_weaken; [by apply exit_acts|]. cbv beta. intros o s' es [-> (r & ->)]. rewrite Hc. constructor.
Qed.
Lemma panic_acts {A} f s : fits s -> In f messages -> acts (panic lit fuel (A := A) f) s (fun o _ es => o = None /\ exists r, es = [(Exit 1, r)]).
Proof.
  intros Hs Hin. destruct (message lit fuel _ (spelled_msgs s Hs) f Hin) as (Hn & Hc & Hl).
  eapply acts_bind; [apply (print_acts 2 (nl "%s") [lit f] s Hs); [cbn; tauto|]|..]; cbv beta; [|intros _ s' es Hs' [_ ->]; by apply exit_acts|by intros s' es [? _]].
  cbn. split; [done|]. split; [done|]. split; [by exists (chars f)|done].
Qed.
Lemma body_panic f s : fits s -> In f messages -> body (panic lit fuel f) s (finishes 1).
Proof. intros Hs Hin. eapply acts_weaken; [by apply panic_acts|]. cbv beta. intros o s' es [-> (r & ->)]. constructor. Qed.

(** *** The steps of [runcmd] *)

Lemma close_acts fd s : fits s -> acts (close lit fuel fd) s (fun o _ es => exists r, o = Some tt /\ es = [(Close (s32 fd), Some r)]).
Proof.
  intros Hs. eapply acts_bind; [apply (acts_ecall SYS_close [s32 fd] (fun _ => Close (s32 fd)) s Hs); [by intros x [?|[? ?]]|intros; constructor]|..]; cbv beta.
  - intros r s' es Hs' [-> _]. destruct (r <? 0); [|apply acts_ret; [done|by exists r]].
    eapply acts_weaken; [apply (print_acts STDOUT (nl "syscall close fault") [] s' Hs'); [cbn; tauto|done]|]. cbv beta. intros o s2 es [-> ->]. by exists r.
  - intros s' es [_ [Hn _]]. by destruct (Hn eq_refl).
Qed.
Lemma body_close fd k s T : fits s -> s32 fd = fd -> (forall r s', fits s' -> body k s' (fun es => T ((Close fd, Some r) :: es))) -> body (close lit fuel fd ;~ k) s T.
Proof.
  intros Hs Hfd Hk. eapply (body_step _ (fun _ => tt) (Close fd)); [|done].
  eapply acts_weaken; [by apply close_acts|]. cbv beta. by rewrite Hfd.
Qed.
Lemma body_wait k s T : fits s -> (forall r s', fits s' -> body k s' (fun es => T ((Wait, Some r) :: es))) -> body (wait 0 ;~ k) s T.
Proof. intros Hs Hk. eapply body_step; [by apply wait_acts|]. cbv beta. auto. Qed.

Lemma fork1_acts s : fits s -> acts (fork1 lit fuel) s (fun o s' es => exists r, match o with
  | Some pid => pid = s32 r /\ s32 r <> -1 /\ es = [(Fork, Some r)] /\ forall k, room s k -> room s' k
  | None => s32 r = -1 /\ exists x, es = [(Fork, Some r); (Exit 1, x)] end).
Proof.
  intros Hs. eapply acts_bind; [by apply fork_acts|..]; cbv beta; [|by intros s' es (r & ? & _)]. intros a s' es Hs' (r & [= ->] & -> & Hroom).
  destruct (Z.eqb_spec (s32 r) (-1)) as [E|E]; [|apply acts_ret; [done|by exists r]].
  eapply acts_weaken; [apply (panic_acts "fork" s' Hs'); cbn; tauto|]. cbv beta. intros o s3 es [-> (x & ->)]. exists r. split; [done|by exists x].
Qed.
Lemma body_fork child parent s C R : fits s -> (forall s', fits s' -> body child s' C) -> (forall s', fits s' -> body parent s' R) ->
  body (pid <~ fork1 lit fuel ;; if pid =? 0 then child else parent) s (forks C R).
Proof.
  intros Hs Hc Hp. eapply acts_bind; [by apply fork1_acts|..]; cbv beta.
  - intros a s' es Hs' (r & -> & Hn & -> & _). destruct (Z.eqb_spec (s32 r) 0) as [E|E].
    + eapply acts_weaken; [by apply Hc|]. cbv beta. intros [[]|] s2 es HC; [intros x|]; by apply F_child.
    + eapply acts_weaken; [by apply Hp|]. cbv beta. intros [[]|] s2 es HR; [intros x|]; by apply F_parent.
  - intros s' es (r & Hr & x & ->). by apply F_fails.
Qed.

Lemma body_plugged fd p p0 p1 c s T : fits s -> s32 fd = fd -> s32 p = p -> s32 p0 = p0 -> s32 p1 = p1 -> (forall s', fits s' -> body c s' T) ->
  body (close lit fuel fd ;~ dup p ;~ close lit fuel p0 ;~ close lit fuel p1 ;~ c) s (plugged fd p p0 p1 T).
Proof.
  intros Hs Hfd Hp Hp0 Hp1 Hc. apply body_close; [done|done|]. intros r1 s1 Hs1.
  eapply body_step; [by apply dup_acts|]. cbv beta. rewrite Hp. intros r2 s2 Hs2.
  apply body_close; [done|done|]. intros r3 s3 Hs3. apply body_close; [done|done|]. intros r4 s4 Hs4.
  eapply body_weaken; [by apply Hc|]. intros es. by apply Plugged.
Qed.

Lemma body_both p0 p1 s : fits s -> s32 p0 = p0 -> s32 p1 = p1 ->
  body (close lit fuel p0 ;~ close lit fuel p1 ;~ wait 0 ;~ wait 0 ;~ pret tt) s (waits_both p0 p1).
Proof.
  intros Hs Hp0 Hp1. apply body_close; [done|done|]. intros r1 s1 Hs1. apply body_close; [done|done|]. intros r2 s2 Hs2.
  apply body_wait; [done|]. intros r3 s3 Hs3. apply body_wait; [done|]. intros r4 s4 Hs4. apply body_ret; [done|]. constructor.
Qed.
Lemma umem_acts {A} (f : mem -> A) s : umem f s = Ret (Some (f (memof s)), s).
Proof. by apply (umem_ok (memof s)). Qed.
Lemma body_pipe k s T : fits s -> (forall r p0 p1 s', fits s' -> s32 p0 = p0 -> s32 p1 = p1 ->
    s32 (ld32 (memof s') p_at) = p0 -> s32 (ld32 (memof s') (p_at + 4)) = p1 -> body (k (s32 r)) s' (fun es => T ((Pipe p0 p1, Some r) :: es))) ->
  body (x <~ pipe p_at ;; k x) s T.
Proof.
  intros Hs Hk. eapply acts_bind; [by apply pipe_acts|..]; cbv beta; [|by intros s' es (r & ? & _)].
  intros a s' es Hs' (r & [= ->] & ->). apply Hk; try apply s32_s32; done.
Qed.

(** The strings of a command are there; see [shape]. *)
#[local] Abbreviation tree := (shape (fun q _ w => text q w) N).

Lemma exec_acts a q qs x es w ws s : fits s -> N !! a = Some (EXEC (q :: qs ++ 0 :: x) es) -> Forall2 text (q :: qs) (w :: ws) ->
  acts (exec q (argv_at a)) s (fun o _ ev => (o = None /\ ev = [(Exec (w :: ws), None)]) \/ exists r, o = Some (u64 r) /\ ev = [(Exec (w :: ws), Some r)]).
Proof.
  intros Hs Ha Ht. eapply acts_bind; [apply (acts_ecall SYS_exec [q; argv_at a] (fun _ => Exec (w :: ws)) s Hs); [by intros y [?|?]|]|..]; cbv beta.
  - intros m' o. eapply D_exec; [rewrite (fi_cmds s Hs); exact Ha|]. eapply Forall2_impl; [exact Ht|]. cbv beta.
    intros q' w' Hq. split; [apply Hq|by apply fits_text].
  - intros r s' ev Hs' [-> _]. apply acts_ret; [done|]. right. by exists r.
  - intros s' ev [-> _]. by left.
Qed.
Lemma texts_at qs : forall (es : list Z) ws, length qs = length ws -> (forall i w, ws !! i = Some w -> exists q e, qs !! i = Some q /\ es !! i = Some e /\ text q w) ->
  Forall2 text qs ws.
Proof.
  induction qs as [|q qs IH]; intros es [|w ws] Hl Hw; try discriminate; constructor.
  - by destruct (Hw O w eq_refl) as (? & ? & [= <-] & _ & ?).
  - apply (IH (tail es)); [by injection Hl|]. intros i v Hi. destruct (Hw (Datatypes.S i) v Hi) as (q' & e' & Hq & He & Ht).
    exists q', e'. split; [done|]. split; [|done]. by destruct es.
Qed.

(** [runcmd] at a command of the tree. *)
Lemma ran_node (k : cmd -> P S unit) a c s T : fits s -> N !! a = Some c -> body (k c) s T -> ran (c <~ getc a ;; k c ;~ exit 0) s T.
Proof.
  intros Hs Ha Hk. rewrite <- (fi_cmds s Hs) in Ha. unfold ran. eapply acts_silent; [|by apply body_ran].
  unfold getc, plift. erewrite kbind_ret by (apply via_ret; by rewrite Ha). by rewrite lput_lget.
Qed.
Lemma body_exec a args n s : fits s -> valid (TExec args) = true -> tree a (TExec args) -> a <> 0 ->
  ran (runcmd lit fuel p_at (Datatypes.S n) a) s (means (TExec args)).
Proof.
  intros Hs Hv (qs & es & Hl & L1 & L2 & Hw) Ha. cbn [runcmd]. rewrite (proj2 (Z.eqb_neq a 0)) by done.
  apply andb_true_iff in Hv as [Hlen%Z.ltb_lt _]. unfold MAXARGS in Hlen.
  assert (Ht : Forall2 text qs args) by (by apply (texts_at qs es)).
  replace (10 - length args)%nat with (Datatypes.S (9 - length args)) in Hl by lia. cbn [replicate] in Hl.
  eapply ran_node; [done|exact Hl|]. cbv beta iota. destruct Ht as [|q w qs ws Hq Ht]; cbn [app].
  - by apply body_exit.
  - rewrite (proj2 (Z.eqb_neq q 0)) by apply Hq. eapply acts_bind; [eapply exec_acts; [done|exact Hl|by constructor]|..]; cbv beta.
    + intros r s1 ev Hs1 [[? _]|(r1 & [= ->] & ->)]; [done|].
      eapply acts_weaken; [apply (print_word_acts 2 (nl "exec %s failed") q w s1 Hs1); [cbn; tauto|done|by cbn]|].
      cbv beta. intros o s2 ev [-> ->] r. right. by exists r1, r.
    + intros s1 ev [[_ ->]|(? & ? & _)]; [|done]. by left.
Qed.
(** [runcmd] does not return, and its calls are those of the command. *)
Lemma runcmd_acts t : forall n a s, valid t = true -> tree a t -> a <> 0 -> (size t <= n)%nat -> fits s ->
  ran (runcmd lit fuel p_at n a) s (means t).
Proof.
  induction t as [args|t IH r f|l IHl r0 IHr|l IHl r IHr|t IH]; intros [|n] a s Hv HT Ha Hn Hs; cbn [size] in Hn; try lia;
    [by apply body_exec|..]; cbn [runcmd]; rewrite (proj2 (Z.eqb_neq a 0)) by done; cbn [valid] in Hv; cbn [shape] in HT; rewrite ?andb_true_iff in Hv.
  - destruct HT as (c & q & e & Hl & Hq & Ht & Hc). eapply ran_node; [done|exact Hl|]. cbv beta iota.
    apply body_close; [done|by destruct r|]. intros r1 s1 Hs1. eapply body_step; [by apply open_acts|]. cbv beta.
    replace (s32 (r_mode r)) with (r_mode r) by (by destruct r). intros r2 s2 Hs2.
    apply (body_weaken _ _ (fun es => if s32 r2 <? 0 then finishes 1 es else means t es)); [|intros es Hes; by exists r1, r2, es].
    destruct (s32 r2 <? 0).
    + eapply body_quiet; [apply (print_word_acts 2 (nl "open %s failed") q f s2 Hs2); [cbn; tauto|done|by cbn]|]. cbv beta. intros s3 Hs3. by apply body_exit.
    + apply ran_body, IH; try done; [apply Hv|lia].
  - destruct HT as (x & y & Hl & Hx & Hy & Hx0 & Hy0). eapply ran_node; [done|exact Hl|]. cbv beta iota.
    apply body_pipe; [done|]. intros r p0 p1 s1 Hs1 E0 E1 M0 M1.
    apply (body_weaken _ _ (fun es => if s32 r <? 0 then finishes 1 es else
      forks (plugged 1 p1 p0 p1 (means l)) (forks (plugged 0 p0 p0 p1 (means r0)) (waits_both p0 p1)) es)); [|intros es Hes; by exists r, p0, p1, es].
    destruct (s32 r <? 0); [apply body_panic; [done|cbn; tauto]|].
    do 2 (eapply body_silent; [by apply umem_acts|]). rewrite M0, M1.
    apply body_fork; [done|..]; intros s2 Hs2.
    + apply body_plugged; [done..|]. intros s3 Hs3. apply ran_body, IHl; try done; [apply Hv|lia].
    + apply body_fork; [done|..]; intros s3 Hs3; [|by apply body_both].
      apply body_plugged; [done..|]. intros s4 Hs4. apply ran_body, IHr; try done; [apply Hv|lia].
  - destruct HT as (x & y & Hl & Hx & Hy & Hx0 & Hy0). eapply ran_node; [done|exact Hl|]. cbv beta iota.
    apply body_fork; [done|..]; intros s1 Hs1; [apply ran_body, IHl; try done; [apply Hv|lia]|].
    apply body_wait; [done|]. intros r1 s2 Hs2. eapply body_weaken; [apply ran_body, (IHr n y s2); try done; [apply Hv|lia]|]. intros es. by apply Waits.
  - destruct HT as (c & Hl & Ht & Hc). eapply ran_node; [done|exact Hl|]. cbv beta iota.
    apply body_fork; [done|..]; intros s1 Hs1; [by apply ran_body, IH; try done; lia|]. apply body_ret; [done|]. intros r. constructor.
Qed.
End Runs.

(** ** From a line of text *)

(** The strings of a command are in the line. *)
Lemma shape_within lo hi (W : Z -> Z -> list Z -> Prop) N t : 0 < lo -> (forall q e w, W q e w -> 0 < q) ->
  forall a n, shape W N a t -> wf lo hi N n a -> shape (fun q e w => W q e w /\ within lo hi q) N a t.
Proof.
  intros Hlo HW. induction t as [args|t IH r f|l IHl r IHr|l IHl r IHr|t IH]; intros a n; cbn [shape].
  - intros (qs & es & Hl & L1 & L2 & Hw) Hwf. inversion Hwf as [? qs' es' Hl' [K1 K2 F1 F2]| | | |]; subst; try congruence.
    exists qs, es. split; [done|]. split; [done|]. split; [done|]. intros i w Hi. destruct (Hw i w Hi) as (q & e & Hq & He & Hx).
    exists q, e. split; [done|]. split; [done|]. split; [done|].
    assert (Hin : padded qs' !! i = Some q) by (rewrite Hl in Hl'; injection Hl' as <- _; by apply lookup_app_l_Some).
    unfold padded in Hin. apply lookup_app_Some in Hin as [Hin|[_ [E _]%lookup_replicate]]; [by rewrite Forall_lookup in F1; apply (F1 i)|].
    specialize (HW q e w Hx). lia.
  - intros (c & q & e & Hl & Hq & Ht & Hc) Hwf. inversion Hwf; subst; try congruence. simplify_map_eq. exists c, q, e. split; [done|]. split; [done|]. split; [by eapply IH|done].
  - intros (x & y & Hl & Hx & Hy & H0) Hwf. inversion Hwf; subst; try congruence. simplify_map_eq. exists x, y. split; [done|]. split; [by eapply IHl|]. split; [by eapply IHr|done].
  - intros (x & y & Hl & Hx & Hy & H0) Hwf. inversion Hwf; subst; try congruence. simplify_map_eq. exists x, y. split; [done|]. split; [by eapply IHl|]. split; [by eapply IHr|done].
  - intros (c & Hl & Ht & Hc) Hwf. inversion Hwf; subst; try congruence. simplify_map_eq. exists c. split; [done|]. split; [by eapply IH|done].
Qed.

(** A line for [cd] is not for [runcmd]. *)
Definition is_cd (line : list Z) : bool := bool_decide (take 3 line = chars "cd ").
Lemma is_cd_test m a line : cstr m a line -> is_cd line = false ->
  (ld8 m a =? chr "c") && (ld8 m (a + 1) =? chr "d") && (ld8 m (a + 2) =? chr " ") = false.
Proof.
  intros Hc Hcd. apply not_true_iff_false. intros [[E1 E2]%andb_true_iff E3]%andb_true_iff. apply Z.eqb_eq in E1, E2, E3.
  replace (a + 2) with (a + 1 + 1) in E3 by lia. apply bool_decide_eq_false in Hcd. apply Hcd.
  destruct line as [|x [|y [|z line]]]; cbn [cstr] in Hc; destruct_and?; cbn [take]; rewrite ?E1, ?E2, ?E3 in *; try discriminate.
  by subst.
Qed.
Lemma ended_before m lo hi q e w : ended m q e w -> within lo hi q -> ld8 m hi = 0 -> q + Z.of_nat (length w) <= hi.
Proof.
  intros Hw [_ Hq] Hz. destruct (Z.le_gt_cases (q + Z.of_nat (length w)) hi) as [?|Hlt]; [done|].
  apply ended_cstr in Hw. destruct (lookup_lt_is_Some_2 w (Z.to_nat (hi - q))) as [c Hc]; [lia|].
  destruct (cstr_lookup m q w _ c Hw Hc) as [Hl Hn]. by replace (q + Z.of_nat (Z.to_nat (hi - q))) with hi in Hl by lia; congruence.
Qed.
(** A string outside the line stays. *)
Lemma cstr_kept m m' lo hi q w : only_nuls lo hi m m' -> cstr m q w -> q + Z.of_nat (length w) < lo \/ hi < q -> cstr m' q w.
Proof.
  intros Hn Hc Ho. eapply cstr_ext; [|exact Hc]. intros x Hx. destruct (Hn x) as [E|[Hin _]]; [done|unfold within in Hin; lia].
Qed.

Section Lines.
Context {S : Type} `{ShellKernel S}.
Context (lit : string -> Z) (fuel : nat) (p_at : Z).
#[local] Abbreviation stdio := (lget (T := list Z * Z)).

(** Between the states the process has made the calls [es]. *)
Definition calls (s s' : S) (es : list event) : Prop := exists tr, trace s' = trace s ++ tr /\ Forall2 seen tr es.
Lemma acts_calls {A} m N (c : P S A) s Q : acts p_at m N c s Q -> exists o s' es, c s = Ret (o, s') /\ calls s s' es /\ (o <> None -> fits p_at m N s') /\ Q o s' es.
Proof. intros (o & s' & tr & es & R & T & F & Hf & HQ). exists o, s', es. split; [done|]. split; [by exists tr|]. by split. Qed.
Lemma calls_trans s1 s2 s3 e1 e2 : calls s1 s2 e1 -> calls s2 s3 e2 -> calls s1 s3 (e1 ++ e2).
Proof. intros (t1 & T1 & F1) (t2 & T2 & F2). exists (t1 ++ t2). split; [by rewrite T2, T1, app_assoc|by apply Forall2_app]. Qed.

(** The line [line] is at [buf]; the messages and [p] are elsewhere, and the
    line buffer is in order. *)
Record at_prompt (buf : Z) (line : list Z) (s : S) : Prop := {
  ap_line : text fuel p_at (lget s) buf line;
  ap_pos : 0 < buf;
  ap_msgs : Forall (fun t => text fuel p_at (lget s) (lit t) (chars t)) messages;
  ap_apart : Forall (fun t => lit t + Z.of_nat (length (chars t)) < buf \/ buf + Z.of_nat (length line) < lit t) messages;
  ap_out : buf_ok (mkUst (lget s) (fst (stdio s)) (snd (stdio s)) [])
}.
Lemma at_prompt_fits buf line s : at_prompt buf line s -> fits p_at (lget s) (lget s) s.
Proof. intros Hp. split; [done|done|apply Hp]. Qed.
Lemma text_fits m N s q w : fits p_at m N s -> text fuel p_at m q w -> text fuel p_at (lget s) q w.
Proof. intros Hs Ht. split; [apply Ht|]. split; [by eapply fits_text|]. split; apply Ht. Qed.
Lemma at_prompt_kept buf line s s1 : at_prompt buf line s -> fits p_at (lget s) (lget s) s1 -> at_prompt buf line s1.
Proof.
  intros [A1 A2 A3 A4 A5] Hs. split; [by eapply text_fits|done| |done|apply Hs]. eapply Forall_impl; [exact A3|]. intros t. by eapply text_fits.
Qed.

(** The child: the line is parsed and run. *)
Lemma parse_and_run t line buf s : valid t = true -> rendering (print LLine t) line -> at_prompt buf line s ->
  (4 * length line + 4 <= fuel)%nat -> room s (2 * length line + 1) ->
  exists s' c s1 es, (a <~ parsecmd lit fuel buf ;; runcmd lit fuel p_at fuel a) s = Ret (None, s') /\
    parsecmd lit fuel buf s = Ret (Some c, s1) /\ calls s1 s' es /\ means t es.
Proof.
  intros Hv HR Hp Hf Hroom. assert (Hsz := size_print t LLine). assert (Hlen := rendering_app _ _ HR).
  assert (Hroom2 : room s (size t)) by (eapply room_mono; [|exact Hroom]; lia). destruct Hp as [(Hn & Hc & Hcl & Hl) Hpos Hmsgs Hap Hout]. set (hi := buf + Z.of_nat (length line)) in *.
  destruct (parsecmd_builds lit fuel t line buf s Hv HR Hpos Hc Hroom2 ltac:(lia)) as (c & s1 & R1 & HT & _ & _).
  destruct (parsecmd_ends lit fuel buf line s Hpos Hc Hf) as (o & s1' & R1' & Ho); [|done|done|].
  { eapply Forall_impl; [exact Hmsgs|]. intros x Hx. split; [apply Hx|]. split; apply Hx. }
  rewrite R1 in R1'. injection R1' as <- <-. destruct Ho as ((n & Hwf & _) & Hnul & _ & Hout1 & _).
  assert (Hz : ld8 (lget s1) hi = 0) by (destruct (Hnul hi) as [->|[_ ?]]; [by apply cstr_end|done]).
  assert (Hfit : fits p_at (lget s1) (lget s1) s1) by by split.
  destruct (acts_calls (lget s1) (lget s1) (runcmd lit fuel p_at fuel c) s1 (fun o _ es => o = None /\ means t es)) as (o & s2 & es & R2 & C2 & _ & -> & HM).
  { apply runcmd_acts; [|done| |by eapply wf_null|lia|done].
    - rewrite Forall_forall in Hmsgs, Hap |- *. intros x Hx. destruct (Hmsgs x Hx) as (X1 & X2 & X3 & X4). split; [done|]. split; [|by split].
      eapply cstr_kept; [exact Hnul|done|]. by apply Hap.
    - eapply shape_weaken; [reflexivity| |eapply (shape_within buf hi); [done| |exact HT|exact Hwf]]; [|intros q e w [Hw _]; apply Hw].
      intros q e w [Hw Hin]. assert (Hb := ended_before _ _ _ _ _ _ Hw Hin Hz). unfold within, hi in *. split; [lia|]. split; [by eapply ended_cstr|].
      unfold clear in *. split; lia. }
  exists s2, c, s1, es. split; [by rewrite (pbind_step _ _ _ _ _ R1)|]. by split.
Qed.
End Lines.

(** C8. Running a line of the shell. For every command [t] and every text of its
    tokens in the line buffer, other than a [cd], [run_line] forks, and by what
    the [fork] returns: the parent waits for a child and goes on, its memory and
    commands as before; if there is no child the shell says so and exits; and the
    child parses the line and never returns: the system calls of every process
    that runs it are those of [means t]. A command is [exec]ed with its words
    and, if that comes back, the process exits; a redirection closes its
    descriptor and opens the file in its place, or exits; the parts of a list
    run one after the other; the two sides of a pipe run in children of their
    own, each with an end of the pipe for its output or input and both ends
    closed, and the shell closes both and waits twice; the shell does not wait
    for a command in the background. *)
Theorem run_line_means {S} `{ShellKernel S} lit fuel p_at t line buf s :
  valid t = true -> rendering (print LLine t) line -> is_cd line = false -> at_prompt lit fuel p_at buf line s ->
  (4 * length line + 4 <= fuel)%nat -> room s (2 * length line + 1) ->
  exists o s' r, run_line lit fuel p_at buf s = Ret (o, s') /\
    match o with
    | Some _ => s32 r <> 0 /\ s32 r <> -1 /\ exists r', calls s s' [(Fork, Some r); (Wait, Some r')] /\ fits p_at (lget s) (lget s) s'
    | None => s32 r = -1 /\ (exists x, calls s s' [(Fork, Some r); (Exit 1, x)]) \/
        s32 r = 0 /\ exists s1 c s2 es, calls s s1 [(Fork, Some r)] /\ parsecmd lit fuel buf s1 = Ret (Some c, s2) /\ calls s2 s' es /\ means t es
    end.
Proof.
  intros Hv HR Hcd Hp Hf Hr. assert (Hs := at_prompt_fits _ _ _ _ _ _ Hp).
  unfold run_line. rewrite (pbind_step _ _ _ _ _ (umem_ok (lget s) (fun m => m) s eq_refl)), (is_cd_test _ buf line) by (done || apply Hp).
  destruct (acts_calls _ _ _ _ _ _ (fork1_acts lit fuel p_at _ _ (ap_msgs _ _ _ _ _ _ Hp) s Hs)) as ([pid|] & s1 & es & R1 & C1 & F1 & r & HQ).
  - destruct HQ as (-> & Hn & -> & Hroom). rewrite (pbind_step _ _ _ _ _ R1). assert (Hs1 := F1 ltac:(done)). destruct (Z.eqb_spec (s32 r) 0) as [E|E].
    + destruct (parse_and_run lit fuel p_at t line buf s1) as (s' & c & s2 & es & R & HP & HC & HM); [done|done|by eapply at_prompt_kept|done|by apply Hroom|].
      exists None, s', r. split; [done|]. right. split; [done|]. by exists s1, c, s2, es.
    + destruct (acts_calls _ _ _ _ _ _ (wait_acts p_at _ _ s1 Hs1)) as (o & s2 & es & R2 & C2 & F2 & r' & -> & ->).
      exists (Some tt), s2, r. split; [by rewrite (pbind_step _ _ _ _ _ R2)|]. split; [done|]. split; [done|]. exists r'.
      split; [exact (calls_trans s s1 s2 _ _ C1 C2)|by apply F2].
  - destruct HQ as (E & x & ->). exists None, s1, r. split; [unfold pbind; by erewrite kbind_ret by exact R1|]. left. split; [done|by exists x].
Qed.

(** A kernel that answers each call with the next of a list of numbers, 0 at its
    end; an [exec] succeeds. *)
Record run_sh : Type := mkRunSh { rs_mem : mem; rs_stdio : list Z * Z; rs_cmds : gmap Z cmd; rs_next : Z; rs_answers : list Z; rs_trace : list call;
  rs_written : list (Z * list Z) }.
#[local] Instance rs_mem_lens : Lens run_sh mem.
Proof. by refine {| lget := rs_mem; lput x s := mkRunSh x (rs_stdio s) (rs_cmds s) (rs_next s) (rs_answers s) (rs_trace s) (rs_written s) |}; intros; try destruct s. Defined.
#[local] Instance rs_stdio_lens : Lens run_sh (list Z * Z).
Proof. by refine {| lget := rs_stdio; lput x s := mkRunSh (rs_mem s) x (rs_cmds s) (rs_next s) (rs_answers s) (rs_trace s) (rs_written s) |}; intros; try destruct s. Defined.
#[local] Instance rs_cmds_lens : Lens run_sh (gmap Z cmd).
Proof. by refine {| lget := rs_cmds; lput x s := mkRunSh (rs_mem s) (rs_stdio s) x (rs_next s) (rs_answers s) (rs_trace s) (rs_written s) |}; intros; try destruct s. Defined.
Definition answer (n : Z) (s : run_sh) : option Z := if (n =? SYS_exec) || (n =? SYS_exit) then None else Some (hd 0 (rs_answers s)).
#[local] Instance rs_user : User run_sh := {| us_mem := _; us_stdio := _;
  ecall n args s := Ret (answer n s, mkRunSh (rs_mem s) (rs_stdio s) (rs_cmds s) (rs_next s) (tail (rs_answers s))
    (rs_trace s ++ [mkCall n args (rs_mem s) (rs_mem s) (rs_cmds s) (answer n s)]) (rs_written s));
  put_bytes fd l s := Ret (Some (Z.of_nat (length l)),
    mkRunSh (rs_mem s) (rs_stdio s) (rs_cmds s) (rs_next s) (rs_answers s) (rs_trace s) (rs_written s ++ [(fd, l)])) |}.
#[local] Instance rs_shell : Shell run_sh :=
  {| sh_cmds := _; malloc n s := Ret (Some (rs_next s), mkRunSh (rs_mem s) (rs_stdio s) (rs_cmds s) (rs_next s + Z.max 1 n) (rs_answers s) (rs_trace s) (rs_written s)) |}.
#[local] Instance rs_laws : ShellLaws run_sh.
Proof.
  refine {| room s _ := 0 < rs_next s /\ forall b, rs_next s <= b -> rs_cmds s !! b = None |}.
  - intros n s k [Hn Hf]. exists (rs_next s). eexists. split; [reflexivity|]. cbn. split; [lia|]. split; [apply Hf; lia|]. do 2 (split; [done|]).
    intros c. split; [lia|]. intros b Hb. rewrite lookup_insert_ne by lia. apply Hf. lia.
  - intros a c c' s k Ha [Hn Hf]. split; [done|]. cbn. intros b Hb. rewrite lookup_insert_ne; [by apply Hf|]. intros ->. specialize (Hf b Hb). cbn in Ha. congruence.
  - done.
  - done.
Defined.
#[local] Instance rs_out : ShellOut run_sh.
Proof.
  refine {| output := rs_written |}; try done.
  - intros n s r s' [= <- <-]. done.
  - intros n s r s' [= <- <-]. done.
  - intros fd l s. by eexists _, _.
  - intros n args s. by eexists _, _.
Defined.
#[local] Instance rs_kernel : ShellKernel run_sh.
Proof.
  refine {| trace := rs_trace |}; [|intros fd l s; by eexists _, _|done|done].
  intros n args s. eexists _, _. split; [reflexivity|]. do 3 (split; [done|]). split; [|by split].
  unfold answer. destruct (Z.eqb_spec n SYS_exec) as [->|_]; [by left|]. destruct (Z.eqb_spec n SYS_exit) as [->|_]; [by right|done].
Defined.

(** A pipeline, in the child of the shell. *)
Definition run_line_text : string := "ls -l |wc <in".
Definition run_line_tree : ast := TPipe (TExec [chars "ls"; chars "-l"]) (TRedir (TExec [chars "wc"]) RIn (chars "in")).
Definition demo_run : run_sh := mkRunSh (demo_mem run_line_text) (replicate 64 0, 0) ∅ 65536 [0; 0; 7] [] [].

Lemma run_line_means_witness :
  is_cd (chars run_line_text) = false /\ at_prompt (demo_lit messages 1024) 80 16384 100 (chars run_line_text) demo_run /\
  exists o s' r, run_line (demo_lit messages 1024) 80 16384 100 demo_run = Ret (o, s') /\
    match o with
    | Some _ => s32 r <> 0 /\ s32 r <> -1 /\ exists r', calls demo_run s' [(Fork, Some r); (Wait, Some r')] /\ fits 16384 (lget demo_run) (lget demo_run) s'
    | None => s32 r = -1 /\ (exists x, calls demo_run s' [(Fork, Some r); (Exit 1, x)]) \/
        s32 r = 0 /\ exists s1 c s2 es, calls demo_run s1 [(Fork, Some r)] /\ parsecmd (demo_lit messages 1024) 80 100 s1 = Ret (Some c, s2) /\
          calls s2 s' es /\ means run_line_tree es
    end.
Proof.
  assert (Hat : at_prompt (demo_lit messages 1024) 80 16384 100 (chars run_line_text) demo_run).
  { split; [|lia| | |split; [done|by vm_compute|by vm_compute]].
    - split; [done|]. split; [vm_compute; repeat split; discriminate|]. split; [by left|vm_compute; lia].
    - repeat (constructor; [split; [done|split; [vm_compute; repeat split; discriminate|split; [by left|vm_compute; lia]]]|]). constructor.
    - repeat (constructor; [by right|]). constructor. }
  split; [reflexivity|]. split; [exact Hat|].
  apply (run_line_means (H3 := rs_kernel) (demo_lit messages 1024) 80 16384 run_line_tree (chars run_line_text) 100 demo_run); [reflexivity| |reflexivity|exact Hat|vm_compute; lia|].
  - exact (R_tok [] (Word (chars "ls")) _ _ eq_refl eq_refl
      (R_tok [32] (Word (chars "-l")) _ _ eq_refl eq_refl
      (R_tok [32] (Sym 124) _ _ eq_refl eq_refl
      (R_tok [] (Word (chars "wc")) _ _ eq_refl eq_refl
      (R_tok [32] (Sym 60) _ _ eq_refl eq_refl
      (R_tok [] (Word (chars "in")) _ _ eq_refl eq_refl (R_end [] eq_refl) eq_refl)
      eq_refl) eq_refl) eq_refl) eq_refl) eq_refl).
  - split; [done|]. intros. apply lookup_empty.
Defined.
