(* ===== verification/Dtb.v ===== *)
(** The device tree: src/kernel/dtb.c.

    The boot loader leaves a flattened device tree in memory; the kernel prints
    it and takes the address and the size of the memory from it. The state is
    that of printf.c (Printf.v), whose memory holds the tree, with the two
    variables of dtb.c. A string literal is named by its text. *)
From S2P Require Import Prelude CString Bytes Spinlock Printf.

Definition FDT_BEGIN_NODE : Z := 1.
Definition FDT_END_NODE : Z := 2.
Definition FDT_PROP : Z := 3.
Definition FDT_NOP : Z := 4.
Definition FDT_END : Z := 9.

(** [struct MemInfo]. *)
Record MemInfo : Type := mkMemInfo { start : Z; size : Z }.
Record dtst : Type := mkDt { dt_pr : prst; dtbEntry : Z; memInfo : MemInfo }.
Definition dt_mem (s : dtst) : mem := pr_mem (dt_pr s).
Definition set_pr (p : prst) (s : dtst) : dtst := mkDt p (dtbEntry s) (memInfo s).
Definition io {A} (c : K prst A) : K dtst A := zoom dt_pr set_pr c.
Definition mread {A} (f : mem -> A) : K dtst A := kget (fun s => f (dt_mem s)).
Definition mwrite (f : mem -> mem) : K dtst unit :=
  io (kmod (fun p => mkPr (f (pr_mem p)) (pr_buf p) (pr_out p) (pr_lk p))).

Definition swapChar (m : mem) (a b : Z) : mem :=
  let c := ld8 m a in st8 (st8 m a (ld8 m b)) b c.
(** [n] turns of the loop are left. *)
Fixpoint endian_loop (n : nat) (m : mem) (bin i : Z) : mem :=
  match n with
  | O => m
  | S n => endian_loop n (swapChar (swapChar m (bin + i) (bin + i + 3)) (bin + i + 1) (bin + i + 2)) bin (i + 4)
  end.
Definition endianBigToLittle (m : mem) (bin size : Z) : mem := endian_loop (Z.to_nat ((size + 3) / 4)) m bin 0.

(** The fields of [struct FDTHeader]: its words in order. *)
Definition FDTHeader_field (i : Z) (m : mem) (a : Z) : Z := ld32 m (a + 4 * i).
Definition magic := FDTHeader_field 0.
Definition totalsize := FDTHeader_field 1.
Definition off_dt_struct := FDTHeader_field 2.
Definition off_dt_strings := FDTHeader_field 3.
Definition off_mem_rsvmap := FDTHeader_field 4.
Definition version := FDTHeader_field 5.
Definition last_comp_version := FDTHeader_field 6.
Definition boot_cpuid_phys := FDTHeader_field 7.
Definition size_dt_strings := FDTHeader_field 8.
Definition size_dt_struct := FDTHeader_field 9.
Definition SIZEOF_HEADER : Z := 40.

Definition readBigEndian32 (m : mem) (p : Z) : Z :=
  ld8 m (p + 3) + 2 ^ 8 * ld8 m (p + 2) + 2 ^ 16 * ld8 m (p + 1) + 2 ^ 24 * ld8 m p.
Definition readBigEndian64 (m : mem) (p : Z) : Z :=
  ld8 m (p + 7) + 2 ^ 8 * ld8 m (p + 6) + 2 ^ 16 * ld8 m (p + 5) + 2 ^ 24 * ld8 m (p + 4) +
  2 ^ 32 * ld8 m (p + 3) + 2 ^ 40 * ld8 m (p + 2) + 2 ^ 48 * ld8 m (p + 1) + 2 ^ 56 * ld8 m p.
(** [(sz + 4 - 1) & ~(4 - 1)] of a 64-bit number. *)
Definition FOURROUNDUP (sz : Z) : Z := Z.ldiff (u64 (sz + 3)) 3.

(** The lengths whose values are printed as bytes. *)
Definition as_bytes (len : Z) : bool := (len =? 4) || (len =? 8) || (len =? 16) || (len =? 32).

Section Dtb.
Context (lit : string -> Z) (fuel : nat).

Definition log (line : Z) (func fmt : string) (ap : list Z) : K dtst unit :=
  io (_log fuel fuel (lit "[%s:%d][%s] ") (lit "kernel/dtb.c") line (lit func) (lit fmt) ap).

Definition parserFdtHeader (h : Z) : K dtst unit :=
  mwrite (fun m => endianBigToLittle m h SIZEOF_HEADER) ;;
  m <- mread (fun m => m) ;;
  log 35 "parserFdtHeader" (nl "Read FDTHeader:") [] ;;
  log 36 "parserFdtHeader" (nl "magic             = 0x%x") [magic m h] ;;
  log 37 "parserFdtHeader" (nl "totalsize's addr  = 0x%x") [h + 4] ;;
  log 38 "parserFdtHeader" (nl "totalsize         = %d") [totalsize m h] ;;
  log 39 "parserFdtHeader" (nl "off_dt_struct     = 0x%x") [off_dt_struct m h] ;;
  log 40 "parserFdtHeader" (nl "off_dt_strings    = 0x%x") [off_dt_strings m h] ;;
  log 41 "parserFdtHeader" (nl "off_mem_rsvmap    = 0x%x") [off_mem_rsvmap m h] ;;
  log 42 "parserFdtHeader" (nl "version           = %d") [version m h] ;;
  log 43 "parserFdtHeader" (nl "last_comp_version = %d") [last_comp_version m h] ;;
  log 44 "parserFdtHeader" (nl "boot_cpuid_phys   = %d") [boot_cpuid_phys m h] ;;
  log 45 "parserFdtHeader" (nl "size_dt_strings   = %d") [size_dt_strings m h] ;;
  log 46 "parserFdtHeader" (nl "size_dt_struct    = %d") [size_dt_struct m h].

(** [while (readBigEndian32(node) == FDT_NOP) node += 4;] *)
Fixpoint skip_nops (n : nat) (node : Z) : K dtst Z :=
  match n with
  | O => knofuel
  | S n => w <- mread (fun m => readBigEndian32 m node) ;; if w =? FDT_NOP then skip_nops n (node + 4) else kret node
  end.

(** The bytes of a value; [k] are left. *)
Fixpoint print_bytes (k : nat) (a : Z) : K dtst unit :=
  match k with
  | O => kret tt
  | S k => b <- mread (fun m => ld8 m a) ;; io (printf fuel fuel (lit "%02x") [b]) ;; print_bytes k (a + 1)
  end.

(** The loop over the properties; [str] and [value] are [nodeStr] and [value]. *)
Fixpoint props_loop (n : nat) (h node str value : Z) : K dtst (Z * Z * Z) :=
  match n with
  | O => knofuel
  | S n =>
      w <- mread (fun m => readBigEndian32 m node) ;;
      if negb (w =? FDT_PROP) then kret (node, str, value) else
      len <- mread (fun m => readBigEndian32 m (node + 4)) ;;
      nameoff <- mread (fun m => readBigEndian32 m (node + 8)) ;;
      off <- mread (fun m => off_dt_strings m h) ;;
      let node := node + 12 in
      let name := node + off + nameoff in
      c <- mread (fun m => ld8 m name) ;;
      kwhen (negb (c =? 0)) (log 115 "parseFdtNode" (nl "name:   %s") [name]) ;;
      log 117 "parseFdtNode" (nl "len:    %d") [len] ;;
      r <- (if as_bytes len then
              log 122 "parseFdtNode" "%s" [lit "values: "] ;;
              print_bytes (Z.to_nat len) node ;;
              io (printf fuel fuel (lit (nl "")) []) ;;
              kret (str, node)
            else
              log 132 "parseFdtNode" (nl "values: %s") [node] ;;
              kret (node, value)) ;;
      node <- skip_nops fuel (FOURROUNDUP (node + len)) ;;
      props_loop n h node (fst r) (snd r)
  end.

(** After the properties of a node. A null [value] is a [Fault]. *)
Definition take_memory (str value : Z) : K dtst unit :=
  m <- mread (fun m => m) ;;
  if negb (str =? 0) && (strncmp m str (lit "memory") 7 =? 0) then
    if value =? 0 then kfault else
    kmod (fun s => mkDt (dt_pr s) (dtbEntry s) (mkMemInfo (readBigEndian64 m value) (readBigEndian64 m (value + 8))))
  else kret tt.
(** The outer loop. *)
Fixpoint scan_props (n : nat) (h node : Z) : K dtst Z :=
  match n with
  | O => knofuel
  | S n =>
      node <- skip_nops fuel node ;;
      w <- mread (fun m => readBigEndian32 m node) ;;
      if w =? FDT_PROP then
        r <- props_loop fuel h node 0 0 ;;
        take_memory (snd (fst r)) (snd r) ;;
        scan_props n h (fst (fst r))
      else kret node
  end.

(** [n] bounds the depth of the tree and the length of its lists of children. *)
Fixpoint parseFdtNode (n : nat) (h node parent : Z) : K dtst Z :=
  match n with
  | O => knofuel
  | S n =>
      node <- skip_nops fuel node ;;
      w <- mread (fun m => readBigEndian32 m node) ;;
      kassert (w =? FDT_BEGIN_NODE) ;;
      let name := node + 4 in
      log 92 "parseFdtNode" (nl "node's name:    %s") [name] ;;
      log 93 "parseFdtNode" (nl "node's parent:  %s") [parent] ;;
      m <- mread (fun m => m) ;;
      k <- (match strlen fuel m name with Ret k => kret k | _ => knofuel end) ;;
      node <- scan_props fuel h (FOURROUNDUP (name + (k + 1))) ;;
      log 150 "parseFdtNode" (nl "") [] ;;
      node <- children n h node name ;;
      kret (node + 4)
  end
with children (n : nat) (h node name : Z) : K dtst Z :=
  match n with
  | O => knofuel
  | S n =>
      w <- mread (fun m => readBigEndian32 m node) ;;
      if w =? FDT_END_NODE then kret node else
      node <- parseFdtNode n h node name ;;
      node <- skip_nops fuel node ;;
      children n h node name
  end.

Fixpoint roots (n : nat) (h node : Z) : K dtst unit :=
  match n with
  | O => knofuel
  | S n =>
      node <- parseFdtNode fuel h node (lit "root") ;;
      w <- mread (fun m => readBigEndian32 m node) ;;
      if w =? FDT_END then kret tt else roots n h node
  end.
Definition parseDtb : K dtst unit :=
  h <- kget dtbEntry ;;
  log 163 "parseDtb" (nl "Find dtbEntry address at 0x%08x") [h] ;;
  parserFdtHeader h ;;
  off <- mread (fun m => off_dt_struct m h) ;;
  roots fuel h (h + off) ;;
  i <- kget memInfo ;;
  log 172 "parseDtb" (nl "Memory Start Addr = 0x%016x, size = %d MB") [start i; size i / 1024 / 1024].

Definition dtbEntryinit (_dtbEntry : Z) : K dtst unit := kmod (fun s => mkDt (dt_pr s) _dtbEntry (memInfo s)).
End Dtb.

(** ** Trees in memory *)

(** A property: a value printed as text, which reads as the string [w], or as
    bytes. A list of nodes: the first one, its children and the ones after it. *)
Inductive prop : Type := Text (off len : Z) (w : list Z) | Data (off : Z) (v : list Z).
Inductive forest : Type := Nil | Node (name : list Z) (ps : list prop) (kids next : forest).

Definition p_off (x : prop) : Z := match x with Text o _ _ | Data o _ => o end.
Definition p_len (x : prop) : Z := match x with Text _ l _ => l | Data _ v => Z.of_nat (length v) end.

(** What the kernel takes from a node, and from all the nodes in their order:
    the last value printed as text says whether the node describes memory, and
    the last value printed as bytes is the description. *)
Definition last_text (ps : list prop) : option (list Z) :=
  foldl (fun o x => match x with Text _ _ w => Some w | _ => o end) None ps.
Definition last_data (ps : list prop) : option (list Z) :=
  foldl (fun o x => match x with Data _ v => Some v | _ => o end) None ps.
Definition big_endian (l : list Z) : Z := foldl (fun a b => 256 * a + b) 0 l.
Definition node_info (ps : list prop) (i : MemInfo) : MemInfo :=
  match last_text ps, last_data ps with
  | Some w, Some v => if bool_decide (w = chars "memory") then mkMemInfo (big_endian (take 8 v)) (big_endian (take 8 (drop 8 v))) else i
  | _, _ => i
  end.
Fixpoint infos (t : forest) (i : MemInfo) : MemInfo :=
  match t with Nil => i | Node _ ps kids next => infos next (infos kids (node_info ps i)) end.
Fixpoint nodes (t : forest) : nat := match t with Nil => 1 | Node _ _ kids next => S (nodes kids + nodes next) end.

Section Layout.
Context (m : mem) (fuel : nat).
(** A string that is short enough to be printed. *)
Definition str_at (a : Z) (w : list Z) : Prop := cstr m a w /\ (length w < fuel)%nat.

(** [k] padding words from [a] to [b]. *)
Inductive nops : nat -> Z -> Z -> Prop :=
| N_end a : readBigEndian32 m a <> FDT_NOP -> nops O a a
| N_nop k a b : readBigEndian32 m a = FDT_NOP -> nops k (a + 4) b -> nops (S k) a b.
Definition pad (a b : Z) : Prop := exists k, (k < fuel)%nat /\ nops k a b.

Definition value_at (a : Z) (x : prop) : Prop :=
  a <> 0 /\ match x with
  | Text _ len w => as_bytes len = false /\ str_at a w
  | Data _ v => as_bytes (Z.of_nat (length v)) = true /\ bytes_at m a v
  end.
(** The properties from [p] to [q], [off] being where the code looks for their
    names; [str] and [value] are the last values of the two kinds. *)
Inductive props_at (off : Z) : Z -> Z -> Z -> list prop -> Z -> Z -> Z -> Prop :=
| P_end p str value : readBigEndian32 m p <> FDT_PROP -> props_at off p str value [] p str value
| P_prop p str value x ps p' q str' value' :
    readBigEndian32 m p = FDT_PROP -> readBigEndian32 m (p + 4) = p_len x -> readBigEndian32 m (p + 8) = p_off x ->
    (exists w, str_at (p + 12 + off + p_off x) w) -> value_at (p + 12) x ->
    pad (FOURROUNDUP (p + 12 + p_len x)) p' ->
    props_at off p' (match x with Text _ _ _ => p + 12 | _ => str end) (match x with Data _ _ => p + 12 | _ => value end) ps q str' value' ->
    props_at off p str value (x :: ps) q str' value'.

(** [strncmp] tells the string [w] at [a] from "memory": not for the strings
    it reads beyond (a shorter one followed by the wrong byte, and "memory" with
    one more character). *)
Definition clear (a : Z) (w : list Z) : Prop :=
  (w `prefix_of` chars "memory" -> w <> chars "memory" -> ld8 m (a + 7) = 0) /\ (chars "memory" `prefix_of` w -> length w <> 7%nat).
Definition node_ok (ps : list prop) (str : Z) : Prop :=
  forall w, last_text ps = Some w -> clear str w /\ (w = chars "memory" -> exists v, last_data ps = Some v /\ (16 <= length v)%nat).

(** A node up to its children. *)
Definition header_at (off : Z) (name : list Z) (ps : list prop) (p q : Z) : Prop :=
  exists p1 p2 str value,
    pad p p1 /\ readBigEndian32 m p1 = FDT_BEGIN_NODE /\ str_at (p1 + 4) name /\
    pad (FOURROUNDUP (p1 + 4 + (Z.of_nat (length name) + 1))) p2 /\
    props_at off p2 0 0 ps q str value /\ (S (length ps) < fuel)%nat /\ node_ok ps str.
(** The nodes from [p] to [q], padding after each. *)
Fixpoint nodes_at (off : Z) (t : forest) (p q : Z) : Prop :=
  match t with
  | Nil => readBigEndian32 m p = FDT_END_NODE /\ q = p
  | Node name ps kids next =>
      readBigEndian32 m p <> FDT_END_NODE /\
      exists p3 p4 p5, header_at off name ps p p3 /\ nodes_at off kids p3 p4 /\ pad (p4 + 4) p5 /\ nodes_at off next p5 q
  end.
End Layout.

(** ** Printing *)

(** The string literals of the file. *)
Definition literals : list string :=
  ["[%s:%d][%s] "; "kernel/dtb.c"; "parserFdtHeader"; "parseFdtNode"; "parseDtb"; "memory"; "root"; "%s"; "%02x"; "values: ";
   nl "Read FDTHeader:"; nl "magic             = 0x%x"; nl "totalsize's addr  = 0x%x"; nl "totalsize         = %d";
   nl "off_dt_struct     = 0x%x"; nl "off_dt_strings    = 0x%x"; nl "off_mem_rsvmap    = 0x%x"; nl "version           = %d";
   nl "last_comp_version = %d"; nl "boot_cpuid_phys   = %d"; nl "size_dt_strings   = %d"; nl "size_dt_struct    = %d";
   nl "name:   %s"; nl "len:    %d"; nl ""; nl "values: %s"; nl "node's name:    %s"; nl "node's parent:  %s";
   nl "Find dtbEntry address at 0x%08x"; nl "Memory Start Addr = 0x%016x, size = %d MB"]%string.

Section Run.
Context (lit : string -> Z) (fuel : nat) (m : mem).
(** The literals are in memory, and short. *)
Definition spells : Prop := Forall (fun t => str_at m fuel (lit t) (chars t)) literals.
Context (Hspell : spells).

(** From a state that can print and knows [i], [c] returns [a] and knows [j]. *)
Definition at_info (i : MemInfo) (s : dtst) : Prop := dt_mem s = m /\ memInfo s = i /\ printable (dt_pr s).
Definition does {A} (i : MemInfo) (c : K dtst A) (a : A) (j : MemInfo) : Prop :=
  forall s, at_info i s -> exists s', c s = Ret (a, s') /\ at_info j s' /\ dtbEntry s' = dtbEntry s.

Lemma does_ret {A} i (a : A) : does i (kret a) a i.
Proof. intros s Hs. by exists s. Qed.
Lemma does_bind {A B} (c : K dtst A) (k : A -> K dtst B) i a j b l : does i c a j -> does j (k a) b l -> does i (kbind c k) b l.
Proof.
  intros Hc Hk s Hs. destruct (Hc s Hs) as (s1 & R1 & H1 & E1). destruct (Hk s1 H1) as (s2 & R2 & H2 & E2).
  exists s2. split; [by erewrite kbind_ret by exact R1|]. split; [done|congruence].
Qed.
Lemma does_read {A B} (f : mem -> A) (k : A -> K dtst B) i b j : does i (k (f m)) b j -> does i (kbind (mread f) k) b j.
Proof. intros Hk s Hs. destruct (Hk s Hs) as (s2 & R2 & H2). exists s2. split; [|done]. rewrite <- R2. krun. by rewrite (proj1 Hs). Qed.
Lemma does_io (c : K prst unit) i : (forall p, printable p -> pr_mem p = m -> exists text p', c p = Ret (tt, p') /\ prints text p p') -> does i (io c) tt i.
Proof.
  intros Hc s (Hm & Hi & Hp). destruct (Hc (dt_pr s) Hp Hm) as (text & p' & R & HP). exists (set_pr p' s).
  split; [by apply zoom_ret|]. split; [|done]. split; [|split; [done|by eapply prints_printable]]. unfold dt_mem. cbn. by rewrite (pn_mem _ _ _ HP).
Qed.

Lemma spell t : In t literals -> str_at m fuel (lit t) (chars t).
Proof. intros Hin. unfold spells in Hspell. rewrite Forall_forall in Hspell. apply Hspell. by apply list_elem_of_In. Qed.
Lemma spell_arg t w : In t literals -> arg_ok fuel m (115, w) (lit t).
Proof. intros Hin. exists (chars t). by apply spell. Qed.
Definition good_args (fmt : string) (ap : list Z) : Prop := exists ks, convs (chars fmt) None = Some ks /\ Forall2 (arg_ok fuel m) ks ap.

Lemma does_printf fmt ap i : In fmt literals -> good_args fmt ap -> does i (io (printf fuel fuel (lit fmt) ap)) tt i.
Proof.
  intros Hin (ks & Hk & HF). apply does_io. intros p Hp Hm. destruct (spell fmt Hin) as [Hc Hl].
  destruct (render_ok fuel m (chars fmt) None ks ap Hk HF) as (text & Ht).
  destruct (printf_ok fuel fuel (lit fmt) ap (chars fmt) text p) as (p' & R & HP); [done|by rewrite Hm..|done|]. by exists text, p'.
Qed.
Lemma does_log line func fmt ap i : In func literals -> In fmt literals -> good_args fmt ap -> does i (log lit fuel line func fmt ap) tt i.
Proof.
  intros Hfn Hin (ks & Hk & HF). apply does_io. intros p Hp Hm. destruct (spell fmt Hin) as [Hc Hl].
  destruct (render_ok fuel m (chars fmt) None ks ap Hk HF) as (text & Ht).
  destruct (spell "[%s:%d][%s] ") as [Hc0 Hl0]; [cbn; tauto|].
  destruct (render_ok fuel m (chars "[%s:%d][%s] ") None [(115, 0); (100, 0); (115, 0)] [lit "kernel/dtb.c"; line; lit func]) as (text0 & Ht0); [done| |].
  { constructor; [apply spell_arg; cbn; tauto|]. constructor; [done|]. constructor; [by apply spell_arg|constructor]. }
  destruct (log_ok fuel fuel (lit "[%s:%d][%s] ") (lit "kernel/dtb.c") line (lit func) (lit fmt) ap (chars "[%s:%d][%s] ") (chars fmt) text0 text p Hp) as (p' & R & HP); try (by rewrite Hm); try done.
  by exists (text0 ++ text), p'.
Qed.

(** ** Walking the tree *)

#[local] Abbreviation pad := (pad m fuel).
#[local] Abbreviation str_at := (str_at m fuel).

Lemma skip_nops_ok k : forall n a b i, nops m k a b -> (k < n)%nat -> does i (skip_nops n a) b i.
Proof.
  induction k as [|k IH]; intros [|n] a b i Hk Hn; try lia; inversion Hk; subst; cbn [skip_nops]; apply does_read.
  - rewrite (proj2 (Z.eqb_neq _ _)) by done. apply does_ret.
  - rewrite (proj2 (Z.eqb_eq _ _)) by done. apply IH; [done|lia].
Qed.
Lemma does_pad a b i : pad a b -> does i (skip_nops fuel a) b i.
Proof. intros (k & Hk & Hn). by eapply skip_nops_ok. Qed.
Lemma nops_end k a b : nops m k a b -> readBigEndian32 m b <> FDT_NOP.
Proof. by induction 1. Qed.
Lemma pad_end a b : pad a b -> readBigEndian32 m b <> FDT_NOP.
Proof. intros (k & _ & Hn). by eapply nops_end. Qed.
Lemma pad_here a i : readBigEndian32 m a <> FDT_NOP -> (0 < fuel)%nat -> does i (skip_nops fuel a) a i.
Proof. intros Ha Hf. apply does_pad. exists O. split; [done|by constructor]. Qed.

Lemma print_bytes_ok k : forall a i, does i (print_bytes lit fuel k a) tt i.
Proof.
  induction k as [|k IH]; intros a i; cbn [print_bytes]; [apply does_ret|]. apply does_read.
  eapply does_bind; [|apply IH]. apply does_printf; [cbn; tauto|]. exists [(120, 2)]. split; [done|]. by constructor.
Qed.

Ltac log1 k := eapply does_bind; [apply does_log; [cbn; tauto|cbn; tauto|exists k; split; [reflexivity|]]|].

Lemma props_loop_ok h off p str value ps q str' value' : off_dt_strings m h = off -> props_at m fuel off p str value ps q str' value' ->
  forall n i, (length ps < n)%nat -> does i (props_loop lit fuel n h p str value) (q, str', value') i.
Proof.
  intros Ho HP. induction HP as [p str value Hp|p str value x ps p' q str' value' Hw Hlen Hoff Hname [Ha Hv] Hpad HP IH]; intros [|n] i Hn; cbn [length] in Hn; try lia; cbn [props_loop].
  - apply does_read. rewrite (proj2 (Z.eqb_neq _ _) Hp). apply does_ret.
  - apply does_read. rewrite Hw. cbn [Z.eqb negb FDT_PROP Pos.eqb]. apply does_read. rewrite Hlen. apply does_read. rewrite Hoff. apply does_read. rewrite Ho.
    apply does_read. destruct Hname as (w0 & Hname).
    eapply does_bind.
    { unfold kwhen. destruct (negb _); [|apply does_ret]. apply does_log; [cbn; tauto|cbn; tauto|]. exists [(115, 0)]. split; [reflexivity|].
      constructor; [by exists w0|constructor]. }
    log1 [(100, 0)]. { by constructor. }
    destruct x as [o len w|o v]; cbn [p_len p_off] in *.
    + destruct Hv as [Hb Hv]. rewrite Hb. eapply does_bind.
      { log1 [(115, 0)]; [|apply does_ret]. constructor; [by exists w|constructor]. }
      eapply does_bind; [by apply does_pad|]. apply IH. lia.
    + destruct Hv as [Hb Hv]. rewrite Hb. eapply does_bind.
      { log1 [(115, 0)]. { constructor; [apply spell_arg; cbn; tauto|constructor]. }
        eapply does_bind; [apply print_bytes_ok|]. eapply does_bind; [|apply does_ret]. apply does_printf; [cbn; tauto|]. by exists []. }
      eapply does_bind; [by apply does_pad|]. apply IH. lia.
Qed.

(** *** What a node says *)

Definition says (R : Z -> list Z -> Prop) (o : option (list Z)) (a : Z) : Prop :=
  match o with Some w => a <> 0 /\ R a w | None => a = 0 end.
Lemma props_say off p str value ps q str' value' : props_at m fuel off p str value ps q str' value' -> forall o d,
  says (cstr m) o str -> says (bytes_at m) d value ->
  says (cstr m) (foldl (fun o x => match x with Text _ _ w => Some w | _ => o end) o ps) str' /\
  says (bytes_at m) (foldl (fun o x => match x with Data _ v => Some v | _ => o end) d ps) value'.
Proof.
  induction 1 as [p str value Hp|p str value x ps p' q str' value' Hw Hlen Hoff Hname [Ha Hv] Hpad HP IH]; intros o d Ho Hd; [by split|].
  destruct x as [xo len w|xo v]; cbn [foldl]; apply IH; try done; cbn [says]; [by destruct Hv as (_ & ? & _)|by destruct Hv].
Qed.

Lemma bytes_at_drop n : forall a v, bytes_at m a v -> (n <= length v)%nat -> bytes_at m (a + Z.of_nat n) (drop n v).
Proof. intros a v Hb Hn i c Hi. rewrite lookup_drop in Hi. rewrite <- (Hb _ _ Hi). f_equal. lia. Qed.
Lemma read64_ok a v : bytes_at m a v -> (8 <= length v)%nat -> readBigEndian64 m a = big_endian (take 8 v).
Proof.
  intros Hb Hl. assert (Hi : forall i, (i < 8)%nat -> ld8 m (a + Z.of_nat i) = nth i v 0).
  { intros i Hi. destruct (lookup_lt_is_Some_2 v i) as (c & Hc); [lia|]. rewrite (Hb i c Hc). symmetry. by apply nth_lookup_Some. }
  assert (E : forall i x, x = a + Z.of_nat i -> (i < 8)%nat -> ld8 m x = nth i v 0) by (intros i x ->; apply Hi). unfold readBigEndian64.
  rewrite (E 1%nat (a + 1)), (E 2%nat (a + 2)), (E 3%nat (a + 3)), (E 4%nat (a + 4)), (E 5%nat (a + 5)), (E 6%nat (a + 6)), (E 7%nat (a + 7)) by lia.
  assert (H0 := Hi 0%nat ltac:(lia)). rewrite Z.add_0_r in H0. rewrite H0. do 8 (destruct v as [|? v]; [cbn in Hl; lia|]).
  cbn [nth take]. rewrite take_0. unfold big_endian. cbn [foldl]. ring.
Qed.

(** Where the loop of [strncmp] ends, when its bound is not reached. *)
Lemma strncmp_loop_end s1 s2 l2 : forall k l1 i, cstr m (s1 + i) l1 -> cstr m (s2 + i) l2 -> (length l2 < k)%nat ->
  match strncmp_loop k m s1 s2 i with
  | inr d => d <> 0 /\ ~ l1 `prefix_of` l2 /\ ~ l2 `prefix_of` l1
  | inl j => (l1 `prefix_of` l2 /\ j = i + Z.of_nat (length l1)) \/ (l2 `prefix_of` l1 /\ j = i + Z.of_nat (length l2))
  end.
Proof.
  induction l2 as [|c2 l2 IH]; intros [|k] l1 i H1 H2 Hk; cbn [length] in Hk; try lia; cbn [strncmp_loop].
  - cbn in H2. rewrite H2, orb_true_r. right. split; [apply prefix_nil|cbn; lia].
  - destruct H2 as (E2 & N2 & H2). destruct l1 as [|c1 l1].
    + cbn in H1. rewrite H1. cbn. left. split; [apply prefix_nil|lia].
    + destruct H1 as (E1 & N1 & H1). rewrite E1, E2, (proj2 (Z.eqb_neq _ _) N1), (proj2 (Z.eqb_neq _ _) N2). cbn [orb].
      destruct (Z.eqb_spec c1 c2) as [->|Hne]; cbn [negb].
      * rewrite <- Z.add_assoc in H1, H2. specialize (IH k l1 (i + 1) H1 H2 ltac:(lia)).
        destruct (strncmp_loop k m s1 s2 (i + 1)) as [j|d].
        -- destruct IH as [[Hp ->]|[Hp ->]]; [left|right]; (split; [by apply prefix_cons|cbn [length]; lia]).
        -- destruct IH as (Hd & Hp1 & Hp2). split; [done|]. by split; intros Hp%prefix_cons_inv_2.
      * split; [lia|]. split; intros Hp%prefix_cons_inv_1; congruence.
Qed.
Lemma strncmp_memory a w : cstr m a w -> clear m a w -> (strncmp m a (lit "memory") 7 =? 0) = bool_decide (w = chars "memory").
Proof.
  intros Hc [Hs Hl]. destruct (spell "memory") as [Hm _]; [cbn; tauto|]. unfold strncmp. change (Z.to_nat 7) with 7%nat.
  assert (HE := strncmp_loop_end a (lit "memory") (chars "memory") 7 w 0). rewrite !Z.add_0_r in HE. specialize (HE Hc Hm ltac:(cbn; lia)).
  destruct (strncmp_loop 7 m a (lit "memory") 0) as [j|d].
  2:{ destruct HE as (Hd & Hp & _). rewrite (proj2 (Z.eqb_neq _ _) Hd). symmetry. apply bool_decide_eq_false_2. by intros ->. }
  destruct (decide (w = chars "memory")) as [->|Hne].
  - rewrite bool_decide_eq_true_2 by done. assert (j = 6) as -> by (destruct HE as [[_ ->]|[_ ->]]; done). change (7 <=? 6) with false. cbv iota.
    assert (Z1 := cstr_end _ _ _ Hc). assert (Z2 := cstr_end _ _ _ Hm). change (Z.of_nat (length (chars "memory"))) with 6 in Z1, Z2.
    rewrite Z1, Z2. by destruct (negb _).
  - rewrite bool_decide_eq_false_2 by done. apply Z.eqb_neq. destruct HE as [[Hp ->]|[Hp ->]].
    + rewrite (Hs Hp Hne). cbn [Z.eqb negb]. destruct Hp as [r Hr]. rewrite Hr in Hm. apply cstr_app in Hm as [_ Hm].
      assert (length w <= 6)%nat by (change 6%nat with (length (chars "memory")); rewrite Hr, length_app; lia).
      rewrite (proj2 (Z.leb_gt _ _)) by lia. destruct r as [|c r]; [by rewrite app_nil_r in Hr|]. destruct Hm as (Hm & Hn & _). by rewrite Z.add_0_l, Hm.
    + destruct Hp as [r ->]. specialize (Hl (prefix_app_r _ _ _ (reflexivity _))). rewrite length_app in Hl. apply cstr_app in Hc as [_ Hc].
      change (Z.of_nat (length (chars "memory"))) with 6 in Hc |- *. change (length (chars "memory")) with 6%nat in Hl.
      destruct r as [|c [|c2 r]]; [by rewrite app_nil_r in Hne|cbn in Hl; lia|]. destruct Hc as (Hc & Hn & Hc2 & Hn2 & _).
      change (7 <=? 0 + 6) with false. cbv iota. replace (a + 7) with (a + 6 + 1) by lia. rewrite Hc2, (proj2 (Z.eqb_neq _ _) Hn2). cbn [negb]. by rewrite Z.add_0_l, Hc.
Qed.

Lemma take_memory_ok ps str value i : says (cstr m) (last_text ps) str -> says (bytes_at m) (last_data ps) value -> node_ok m ps str ->
  does i (take_memory lit str value) tt (node_info ps i).
Proof.
  intros Ht Hd Hok. unfold take_memory. apply does_read. unfold node_info.
  destruct (last_text ps) as [w|] eqn:Ew; cbn [says] in Ht.
  - destruct Ht as [Ha Hc]. rewrite (proj2 (Z.eqb_neq _ _) Ha). cbn [negb andb]. destruct (Hok w Ew) as [Hcl Hm]. rewrite (strncmp_memory str w Hc Hcl).
    case_bool_decide as E.
    + destruct (Hm E) as (v & Ev & Hv). rewrite Ev in *. cbn [says] in Hd. destruct Hd as [Hz Hb]. rewrite (proj2 (Z.eqb_neq _ _) Hz).
      intros s (H1 & H2 & H3). eexists. split; [reflexivity|]. split; [|done]. split; [done|]. split; [|done]. cbn. f_equal.
      * apply read64_ok; [done|lia].
      * apply read64_ok; [exact (bytes_at_drop 8 value v Hb ltac:(lia))|rewrite length_drop; lia].
    + destruct (last_data ps); apply does_ret.
  - rewrite Ht. apply does_ret.
Qed.

(** *** Nodes *)

Context (h off : Z) (Hoff : off_dt_strings m h = off).

Lemma props_end p str value ps q str' value' : props_at m fuel off p str value ps q str' value' -> readBigEndian32 m p <> FDT_NOP ->
  readBigEndian32 m q <> FDT_NOP /\ readBigEndian32 m q <> FDT_PROP.
Proof. induction 1 as [|p str value x ps p' q str' value' Hw Hlen Ho Hname Hv Hpad HP IH]; [by split|]. intros _. apply IH. by eapply pad_end. Qed.

(** No property, or one run of them. *)
Lemma scan_props_ok a p q str value ps i : pad a p -> props_at m fuel off p 0 0 ps q str value -> (S (length ps) < fuel)%nat -> node_ok m ps str ->
  does i (scan_props lit fuel fuel h a) q (node_info ps i).
Proof.
  intros Hpad HP Hf Hok. destruct (props_end _ _ _ _ _ _ _ HP (pad_end _ _ Hpad)) as [Hq1 Hq2].
  destruct (props_say _ _ _ _ _ _ _ _ HP None None eq_refl eq_refl) as [Ht Hd].
  assert (Hstop : forall n j, (0 < n)%nat -> does j (scan_props lit fuel n h q) q j).
  { intros [|n] j Hn; [lia|]. cbn [scan_props]. eapply does_bind; [apply pad_here; [done|lia]|]. apply does_read.
    rewrite (proj2 (Z.eqb_neq _ _) Hq2). apply does_ret. }
  destruct fuel as [|[|n]] eqn:Efuel; [lia|lia|]. cbn [scan_props]. rewrite <- Efuel in *. eapply does_bind; [by apply does_pad|]. apply does_read.
  destruct (readBigEndian32 m p =? FDT_PROP) eqn:E.
  - eapply does_bind; [eapply props_loop_ok; [exact Hoff|exact HP|lia]|]. cbn [fst snd]. eapply does_bind; [by apply take_memory_ok|].
    change (does (node_info ps i) (scan_props lit fuel (S n) h q) q (node_info ps i)). apply Hstop. lia.
  - apply Z.eqb_neq in E. inversion HP; subst; [|done]. apply does_ret.
Qed.

Lemma strlen_at a w : str_at a w -> strlen fuel m a = Ret (Z.of_nat (length w)).
Proof. intros [Hc Hl]. by apply strlen_cstr. Qed.

Lemma parse_node_ok n p p3 p4 name ps kids parent i : header_at m fuel off name ps p p3 -> (exists w, str_at parent w) ->
  (forall nm j, (exists w, str_at nm w) -> does j (children lit fuel n h p3 nm) p4 (infos kids j)) ->
  does i (parseFdtNode lit fuel (S n) h p parent) (p4 + 4) (infos kids (node_info ps i)).
Proof.
  intros (p1 & p2 & str & value & Hpad & Hbeg & Hname & Hpad2 & HP & Hps & Hok) Hpar Hkids.
  cbn [parseFdtNode]. eapply does_bind; [by apply does_pad|]. apply does_read. rewrite Hbeg. cbn [Z.eqb FDT_BEGIN_NODE Pos.eqb kassert].
  eapply does_bind; [apply does_ret|].
  log1 [(115, 0)]. { constructor; [by exists name|constructor]. }
  log1 [(115, 0)]. { constructor; [exact Hpar|constructor]. }
  apply does_read. rewrite (strlen_at _ _ Hname). eapply does_bind; [apply does_ret|].
  eapply does_bind; [by eapply scan_props_ok|]. log1 (@nil (Z * Z)); [constructor|]. eapply does_bind; [apply Hkids; by exists name|]. apply does_ret.
Qed.
Lemma children_ok t : forall n p q name i, nodes_at m fuel off t p q -> (2 * nodes t <= n)%nat -> (exists w, str_at name w) ->
  does i (children lit fuel n h p name) q (infos t i).
Proof.
  induction t as [|name ps kids IHk next IHn]; intros [|n] p q nm i HN Hn Hnm; cbn [nodes nodes_at infos] in *; try lia.
  - destruct HN as [Hw ->]. cbn [children]. apply does_read. rewrite Hw. apply does_ret.
  - destruct HN as (Hw & p3 & p4 & p5 & Hh & Hk & Hpad & Hnx). cbn [children]. apply does_read. rewrite (proj2 (Z.eqb_neq _ _) Hw).
    destruct n as [|n]; [lia|]. eapply does_bind.
    { eapply parse_node_ok; [exact Hh|exact Hnm|]. intros nm' j Hnm'. apply IHk; [done|lia|done]. }
    eapply does_bind; [by apply does_pad|]. apply IHn; [done|lia|done].
Qed.

(** The rest of [parserFdtHeader] once the header is swapped, and of
    [parseDtb]. *)
Lemma header_logs i : does i (
  m <- mread (fun m => m) ;;
  log lit fuel 35 "parserFdtHeader" (nl "Read FDTHeader:") [] ;;
  log lit fuel 36 "parserFdtHeader" (nl "magic             = 0x%x") [magic m h] ;;
  log lit fuel 37 "parserFdtHeader" (nl "totalsize's addr  = 0x%x") [h + 4] ;;
  log lit fuel 38 "parserFdtHeader" (nl "totalsize         = %d") [totalsize m h] ;;
  log lit fuel 39 "parserFdtHeader" (nl "off_dt_struct     = 0x%x") [off_dt_struct m h] ;;
  log lit fuel 40 "parserFdtHeader" (nl "off_dt_strings    = 0x%x") [off_dt_strings m h] ;;
  log lit fuel 41 "parserFdtHeader" (nl "off_mem_rsvmap    = 0x%x") [off_mem_rsvmap m h] ;;
  log lit fuel 42 "parserFdtHeader" (nl "version           = %d") [version m h] ;;
  log lit fuel 43 "parserFdtHeader" (nl "last_comp_version = %d") [last_comp_version m h] ;;
  log lit fuel 44 "parserFdtHeader" (nl "boot_cpuid_phys   = %d") [boot_cpuid_phys m h] ;;
  log lit fuel 45 "parserFdtHeader" (nl "size_dt_strings   = %d") [size_dt_strings m h] ;;
  log lit fuel 46 "parserFdtHeader" (nl "size_dt_struct    = %d") [size_dt_struct m h]) tt i.
Proof.
  apply does_read. log1 (@nil (Z * Z)); [constructor|].
  log1 [(120, 0)]; [by constructor|]. log1 [(120, 0)]; [by constructor|]. log1 [(100, 0)]; [by constructor|]. log1 [(120, 0)]; [by constructor|].
  log1 [(120, 0)]; [by constructor|]. log1 [(120, 0)]; [by constructor|]. log1 [(100, 0)]; [by constructor|]. log1 [(100, 0)]; [by constructor|].
  log1 [(100, 0)]; [by constructor|]. log1 [(100, 0)]; [by constructor|].
  apply does_log; [cbn; tauto|cbn; tauto|]. exists [(100, 0)]. split; [done|by constructor].
Qed.
Lemma roots_ok p p3 p4 name ps kids i : header_at m fuel off name ps p p3 -> nodes_at m fuel off kids p3 p4 -> readBigEndian32 m (p4 + 4) = FDT_END ->
  (2 * nodes kids + 2 <= fuel)%nat -> does i (roots lit fuel fuel h p) tt (infos kids (node_info ps i)).
Proof.
  intros Hh Hk He Hf. destruct fuel as [|n] eqn:Efuel; [lia|]. cbn [roots]. rewrite <- Efuel in *. eapply does_bind.
  { rewrite Efuel at 2. apply (parse_node_ok n p p3 p4 name ps kids); [done| |].
    - exists (chars "root"). apply spell. cbn. tauto.
    - intros nm j Hnm. apply children_ok; [done|lia|done]. }
  apply does_read. rewrite He. apply does_ret.
Qed.

Lemma does_info {B} (k : MemInfo -> K dtst B) i b j : does i (k i) b j -> does i (kbind (kget memInfo) k) b j.
Proof. intros Hk s Hs. destruct (Hk s Hs) as (s2 & R2 & HQ). exists s2. split; [|done]. rewrite <- R2. krun. by rewrite (proj1 (proj2 Hs)). Qed.
Lemma tree_ok os p3 p4 name ps kids i : off_dt_struct m h = os -> header_at m fuel off name ps (h + os) p3 -> nodes_at m fuel off kids p3 p4 ->
  readBigEndian32 m (p4 + 4) = FDT_END -> (2 * nodes kids + 2 <= fuel)%nat ->
  does i (o <- mread (fun m => off_dt_struct m h) ;;
          roots lit fuel fuel h (h + o) ;;
          j <- kget memInfo ;;
          log lit fuel 172 "parseDtb" (nl "Memory Start Addr = 0x%016x, size = %d MB") [start j; size j / 1024 / 1024])
    tt (infos kids (node_info ps i)).
Proof.
  intros Hos Hh Hk He Hf. apply does_read. rewrite Hos. eapply does_bind; [by eapply roots_ok|]. apply does_info.
  apply does_log; [cbn; tauto|cbn; tauto|]. exists [(120, 7); (100, 0)]. split; [done|]. by do 2 (constructor; [done|]).
Qed.
End Run.

(** ** The header *)

Lemma ld8_swapChar m a b x : ld8 (swapChar m a b) x = if x =? b then ld8 m a else if x =? a then ld8 m b else ld8 m x.
Proof. unfold swapChar. cbv zeta. rewrite !ld8_st8, !u8_small by apply ld8_range. done. Qed.
(** The bytes of every word change places. *)
Lemma ld8_endian n : forall m bin i x, ld8 (endian_loop n m bin i) x =
  if (bin + i <=? x) && (x <? bin + i + 4 * Z.of_nat n)
  then ld8 m (x + 3 - 2 * ((x - (bin + i)) mod 4)) else ld8 m x.
Proof.
  induction n as [|n IH]; intros m bin i x; cbn [endian_loop].
  - repeat case_cmp; cbn [andb]; lia || done.
  - rewrite IH, !ld8_swapChar. assert (E : (x - (bin + i)) mod 4 = (x - (bin + (i + 4))) mod 4 ) by dlia. rewrite <- E. clear E.
    set (d := (x - (bin + i)) mod 4). assert (Hd : 0 <= d < 4) by (apply Z.mod_pos_bound; lia).
    assert (Hx : exists k, x = bin + i + 4 * k + d) by (exists ((x - (bin + i)) / 4); unfold d; dlia). destruct Hx as (k & Hx).
    repeat case_cmp; cbn [andb]; try lia; try (f_equal; lia); try done.
Qed.
Lemma ld8_header m h x : ld8 (endianBigToLittle m h SIZEOF_HEADER) x =
  if (h <=? x) && (x <? h + 40) then ld8 m (x + 3 - 2 * ((x - h) mod 4)) else ld8 m x.
Proof.
  unfold endianBigToLittle, SIZEOF_HEADER. change (Z.to_nat ((40 + 3) / 4)) with 10%nat. rewrite ld8_endian, Z.add_0_r.
  by change (4 * Z.of_nat 10) with 40.
Qed.
Lemma header_field m h i : 0 <= i < 10 -> FDTHeader_field i (endianBigToLittle m h SIZEOF_HEADER) h = readBigEndian32 m (h + 4 * i).
Proof.
  intros Hi. unfold FDTHeader_field, ld32, readBigEndian32. cbn [ldn]. rewrite !ld8_header.
  rewrite !(proj2 (Z.leb_le h _)), !(proj2 (Z.ltb_lt _ (h + 40))) by lia. cbn [andb].
  replace ((h + 4 * i - h) mod 4) with 0 by dlia. replace ((h + 4 * i + 1 - h) mod 4) with 1 by dlia.
  replace ((h + 4 * i + 1 + 1 - h) mod 4) with 2 by dlia. replace ((h + 4 * i + 1 + 1 + 1 - h) mod 4) with 3 by dlia.
  replace (h + 4 * i + 3 - 2 * 0) with (h + 4 * i + 3) by lia. replace (h + 4 * i + 1 + 3 - 2 * 1) with (h + 4 * i + 2) by lia.
  replace (h + 4 * i + 1 + 1 + 3 - 2 * 2) with (h + 4 * i + 1) by lia. replace (h + 4 * i + 1 + 1 + 1 + 3 - 2 * 3) with (h + 4 * i) by lia.
  change (2 ^ 8) with 256. change (2 ^ 16) with 65536. change (2 ^ 24) with 16777216. lia.
Qed.

(** The literals are not in the header. *)
Definition apart (lit : string -> Z) (h : Z) : Prop :=
  Forall (fun t => lit t + Z.of_nat (length (chars t)) < h \/ h + 40 <= lit t) literals.
Lemma spells_header lit fuel m h : apart lit h -> spells lit fuel m -> spells lit fuel (endianBigToLittle m h SIZEOF_HEADER).
Proof.
  intros Ha Hs. unfold spells, apart in *. rewrite Forall_forall in Ha, Hs |- *. intros t Ht. destruct (Hs t Ht) as [Hc Hl], (Ha t Ht) as [Hb|Hb]; (split; [|done]);
    (eapply cstr_ext; [|exact Hc]); intros a Hr; rewrite ld8_header; repeat case_cmp; cbn [andb]; lia || done.
Qed.

(** C31. [parseDtb] walks a well-formed device tree to its end and takes the
    memory from it. [m] is the memory with the words of the header in the order
    of the machine. For every tree of a root node, whatever its nodes, their
    properties and the padding, it returns, and [memInfo] is what the last node
    that describes memory says: the two 64-bit big-endian numbers of its [reg].
    Of the memory only the header is changed. The depth of the recursion and
    the turns of the loops are bounded by the tree. *)
Theorem parseDtb_finds_memory lit fuel s name ps kids p3 p4 :
  let h := dtbEntry s in
  let m := endianBigToLittle (dt_mem s) h SIZEOF_HEADER in
  printable (dt_pr s) -> spells lit fuel (dt_mem s) -> apart lit h ->
  header_at m fuel (readBigEndian32 (dt_mem s) (h + 12)) name ps (h + readBigEndian32 (dt_mem s) (h + 8)) p3 ->
  nodes_at m fuel (readBigEndian32 (dt_mem s) (h + 12)) kids p3 p4 ->
  readBigEndian32 m (p4 + 4) = FDT_END -> (2 * nodes kids + 2 <= fuel)%nat ->
  exists s', parseDtb lit fuel s = Ret (tt, s') /\ memInfo s' = infos kids (node_info ps (memInfo s)) /\ dt_mem s' = m /\ printable (dt_pr s').
Proof.
  intros h m Hp Hs Ha Hh Hk He Hf. assert (Hsm : spells lit fuel m) by (by apply spells_header).
  assert (H3 := header_field (dt_mem s) h 3 ltac:(lia)). assert (H2 := header_field (dt_mem s) h 2 ltac:(lia)).
  change (4 * 3) with 12 in H3. change (4 * 2) with 8 in H2. fold m in H3, H2. fold (off_dt_strings m h) in H3. fold (off_dt_struct m h) in H2.
  assert (Hhs : h = dtbEntry s) by done. clearbody h. assert (Hmm : m = endianBigToLittle (dt_mem s) h SIZEOF_HEADER) by done. clearbody m.
  unfold parseDtb. krun. rewrite <- Hhs.
  destruct (does_log lit fuel (dt_mem s) Hs 163 "parseDtb" (nl "Find dtbEntry address at 0x%08x") [h] (memInfo s) ltac:(cbn; tauto) ltac:(cbn; tauto)
    ltac:(exists [(120, 8)]; split; [done|by constructor]) s) as (s1 & R1 & (Hm1 & Hi1 & Hp1) & _); [done|].
  erewrite kbind_ret by exact R1.
  set (s2 := set_pr (mkPr m (pr_buf (dt_pr s1)) (pr_out (dt_pr s1)) (pr_lk (dt_pr s1))) s1).
  assert (Hs2 : at_info m (memInfo s) s2) by (split; [done|]; split; [done|]; by destruct Hp1).
  assert (Hw : mwrite (fun m => endianBigToLittle m h SIZEOF_HEADER) s1 = Ret (tt, s2)).
  { unfold mwrite, io. erewrite zoom_ret by reflexivity. unfold s2. rewrite Hmm, <- Hm1. done. }
  destruct (header_logs lit fuel m Hsm h (memInfo s) s2 Hs2) as (s3 & R3 & Hs3 & _).
  destruct (tree_ok lit fuel m Hsm h _ H3 _ p3 p4 name ps kids (memInfo s) H2 Hh Hk He Hf s3 Hs3) as (s4 & R4 & (G1 & G2 & G3) & _).
  exists s4. split; [|done]. erewrite kbind_ret; [exact R4|]. unfold parserFdtHeader. by erewrite kbind_ret by exact Hw.
Qed.

(** A root node with a machine name, padding, and the memory of the machine. *)
Definition word (x : Z) : list Z := rev (le32 x).
Definition demo_dtb : list Z :=
  concat (map word [0xd00dfeed; 248; 40; 2000; 0; 17; 16; 0; 0; 208]) ++
  word 1 ++ [0; 0; 0; 0] ++ word 3 ++ word 5 ++ word 0 ++ chars "virt" ++ [0; 0; 0; 0] ++ word 4 ++
  word 1 ++ chars "memory@80000000" ++ [0] ++ word 3 ++ word 7 ++ word 4 ++ chars "memory" ++ [0; 0] ++
  word 3 ++ word 16 ++ word 8 ++ word 0 ++ word 0x80000000 ++ word 0 ++ word 0x08000000 ++ word 2 ++ word 2 ++ word 9.
Definition demo_reg : list Z := word 0 ++ word 0x80000000 ++ word 0 ++ word 0x08000000.
Definition demo_kids : forest := Node (chars "memory@80000000") [Text 4 7 (chars "memory"); Data 8 demo_reg] Nil Nil.
Fixpoint index (t : string) (l : list string) : Z := match l with [] => 0 | x :: l => if String.eqb t x then 0 else 1 + index t l end.
Definition demo_lit (t : string) : Z := 8192 + 64 * index t literals.
Definition demo_dt_mem : mem := fun a =>
  if (4096 <=? a) && (a <? 4348) then nth (Z.to_nat (a - 4096)) demo_dtb 0
  else if (8192 <=? a) && (a <? 10112) then nth (Z.to_nat ((a - 8192) mod 64)) (chars (nth (Z.to_nat ((a - 8192) / 64)) literals ""%string)) 0 else 0.
Definition demo_dt : dtst := mkDt (mkPr demo_dt_mem (replicate 64 0) [] (pr_lk demo_pr)) 4096 (mkMemInfo 0 0).

Ltac leaf := vm_compute; first [reflexivity|discriminate|repeat split; discriminate].
Ltac no_pad := exists O; split; [by apply Nat.ltb_lt|apply N_end; leaf].
Ltac string_here := split; [leaf|by apply Nat.ltb_lt].

Lemma parseDtb_finds_memory_witness :
  exists s', parseDtb demo_lit 100 demo_dt = Ret (tt, s') /\ memInfo s' = mkMemInfo 0x80000000 0x08000000 /\
    dt_mem s' = endianBigToLittle demo_dt_mem 4096 SIZEOF_HEADER /\ printable (dt_pr s').
Proof.
  apply (parseDtb_finds_memory demo_lit 100 demo_dt [] [Text 0 5 (chars "virt")] demo_kids 4168 4240).
  - split; [reflexivity|split; [cbn; lia|done]|reflexivity].
  - repeat (constructor; [split; [vm_compute; repeat split; discriminate|by apply Nat.ltb_lt]|]). constructor.
  - repeat (constructor; [right; vm_compute; discriminate|]). constructor.
  - exists 4136, 4144, 4156, 0. split; [no_pad|]. split; [leaf|]. split; [string_here|].
    split; [replace (FOURROUNDUP _) with 4144 by reflexivity; no_pad|]. split; [|split; [by apply Nat.ltb_lt|]].
    + eapply (P_prop _ _ _ _ _ _ _ _ 4168); [leaf|leaf|leaf|exists []; string_here|split; [done|split; [done|string_here]]| |apply P_end; leaf].
      exists 1%nat. split; [by apply Nat.ltb_lt|]. replace (FOURROUNDUP _) with 4164 by reflexivity. apply N_nop; [leaf|apply N_end; leaf].
    + intros w [= <-]. split; [split; [done|done]|done].
  - split; [leaf|]. exists 4236, 4236, 4240. split; [|split; [by split|split; [no_pad|by split]]].
    exists 4168, 4188, 4200, 4220. split; [no_pad|]. split; [leaf|]. split; [string_here|].
    split; [replace (FOURROUNDUP _) with 4188 by reflexivity; no_pad|]. split; [|split; [by apply Nat.ltb_lt|]].
    + eapply (P_prop _ _ _ _ _ _ _ _ 4208); [leaf|leaf|leaf|exists []; string_here|split; [done|split; [done|string_here]]| |].
      { replace (FOURROUNDUP _) with 4208 by reflexivity. no_pad. }
      eapply (P_prop _ _ _ _ _ _ _ _ 4236); [leaf|leaf|leaf|exists []; string_here| | |apply P_end; leaf].
      * split; [done|]. split; [done|]. intros i c Hi. do 16 (destruct i as [|i]; [injection Hi as <-; reflexivity|]). done.
      * replace (FOURROUNDUP _) with 4236 by reflexivity. no_pad.
    + intros w [= <-]. split; [split; [done|done]|]. intros _. exists demo_reg. split; [done|by apply Nat.leb_le].
  - reflexivity.
  - by apply Nat.leb_le.
Defined.
