(* ===== verification/Boot.v ===== *)
(** Start-up: src/kernel/main.c, and the parts of vm.c that switch paging on or
    print a page table.

    Every hart runs [main]; they share [started]. A hart's code is a list of
    instructions, a load or a store of [started] being one instruction, and a
    step is one instruction of any hart. The functions [main] calls are modelled
    in their own files; here a call is a [call], recorded when it is made. *)
From S2P Require Import Prelude Bytes Spinlock DList Pm Vm Printf Trap.

Definition NCPU : nat := 4.

(** The calls of [main]. *)
Inductive call : Type :=
| W_sie | W_tp | DtbEntryinit | Console_init | Printfinit | Binit | ParseDtb | Hello | Kpminit | Kvminit | Kvminithart
| Trapinit | Trapinithart | Plicinit | Plicinithart | Clock_init | Buddy_init | Slab_init | Process_init | Rb_init | Init_fs
| Sbi_hart_start (i : nat) | Virtio_disk_init | Init_first_proc | Schedule_.

(** [Branch] is the [if] on [started]; [Await] is a loop that reads it until the test
    holds; [Load] and [Incr] are the two halves of [++started]. *)
Inductive instr : Type := Call (c : call) | Branch | Await (test : Z -> bool) | Load | Incr | Put (v : Z).

Definition boot_calls : list call :=
  [DtbEntryinit; Console_init; Printfinit; Binit; ParseDtb; Hello; Hello; Kpminit; Kvminit; Kvminithart; Trapinit; Trapinithart; Plicinit;
   Plicinithart; Clock_init; Buddy_init; Slab_init; Process_init; Rb_init; Init_fs].
(** The branch of the hart that boots, and the one of the others. *)
Definition boot_code (hartid : nat) : list instr :=
  map Call boot_calls ++ [Put 1] ++
  map (fun i => Call (Sbi_hart_start i)) (filter (fun i => i <> hartid) (seq 0 NCPU)) ++
  [Await (fun s => s =? Z.of_nat NCPU); Call Virtio_disk_init; Call Init_first_proc; Call Schedule_].
Definition other_code : list instr :=
  [Await (fun s => negb (s =? 0)); Call Kvminithart; Call Trapinithart; Call Plicinithart; Load; Incr; Call Schedule_].
Definition main : list instr := [Call W_sie; Call W_tp; Branch].

(** A hart that runs: the instructions left and what it last loaded. *)
Record hart : Type := mkHart { code : list instr; loaded : Z }.
Record boot : Type := mkBoot { started : Z; harts : gmap nat hart; calls : list (nat * call) }.

(** [sbi_hart_start] starts a hart that is stopped and fails for another. *)
Definition start_hart (i : nat) (s : boot) : boot :=
  if decide ((i < NCPU)%nat /\ harts s !! i = None) then mkBoot (started s) (<[i := mkHart main 0]> (harts s)) (calls s) else s.
Definition next_code (h : nat) (l : list instr) (r : Z) (s : boot) : boot := mkBoot (started s) (<[h := mkHart l r]> (harts s)) (calls s).
Definition exec_instr (h : nat) (i : instr) (rest : list instr) (r : Z) (s : boot) : boot :=
  match i with
  | Call c =>
      let s := next_code h rest r (mkBoot (started s) (harts s) (calls s ++ [(h, c)])) in
      match c with Sbi_hart_start i => start_hart i s | _ => s end
  | Branch => next_code h (if started s =? 0 then boot_code h else other_code) r s
  | Await test => if test (started s) then next_code h rest r s else s
  | Load => next_code h rest (started s) s
  | Incr => next_code h rest r (mkBoot (s32 (r + 1)) (harts s) (calls s))
  | Put v => next_code h rest r (mkBoot v (harts s) (calls s))
  end.
(** One instruction of hart [h]; [None] when it does not run or is in
    [schedule]. *)
Definition step_hart (h : nat) (s : boot) : option boot :=
  match harts s !! h with Some (mkHart (i :: rest) r) => Some (exec_instr h i rest r s) | _ => None end.
Fixpoint run_harts (hs : list nat) (s : boot) : option boot :=
  match hs with [] => Some s | h :: hs => s' ← step_hart h s; run_harts hs s' end.

(** The firmware starts one hart. *)
Definition powered (b : nat) : boot := mkBoot 0 {[b := mkHart main 0]} [].
Definition step (s s' : boot) : Prop := exists h, step_hart h s = Some s'.
Definition reachable (b : nat) (s : boot) : Prop := rtc step (powered b) s.

(** ** Paging *)

(** [kernel_pagetable] next to the memory. *)
Definition kvminit (fuel : nat) (etext trampoline : Z) : K (pmst * Z) unit :=
  t <- zoom fst (fun p s => (p, snd s)) (kvmmake fuel etext trampoline) ;; kmod (fun s => (fst s, t)).
Definition kvminithart (kernel_pagetable : Z) : K csr unit :=
  kmod (fun c => mkCsr (sstatus c) (sepc c) (scause c) (stval c) (stvec c) (sip c) (MAKE_SATP kernel_pagetable) (ticks c)).

(** [dots] and [format] are the addresses of the two strings; [n] bounds the
    depth. *)
Fixpoint each {S} (f : Z -> K S unit) (l : list Z) : K S unit := match l with [] => kret tt | x :: l => f x ;; each f l end.
Fixpoint vmprint (n fuel : nat) (dots format pgtbl level : Z) : K prst unit :=
  match n with
  | O => knofuel
  | S n =>
      if 2 <? level then kret tt else
      each (fun i =>
        pte <- kget (fun s => ld64 (pr_mem s) (pgtbl + 8 * i)) ;;
        if has PTE_V pte then
          each (fun _ => printf fuel fuel dots []) (seqZ 0 level) ;;
          printf fuel fuel format [i; pte; PTE2PA pte] ;;
          vmprint n fuel dots format (PTE2PA pte) (level + 1)
        else kret tt) (seqZ 0 512)
  end.

(** ** The order of start-up *)

(** Every [y] of the list has an [x] before it. *)
Definition before {A} (l : list A) (x y : A) : Prop := forall l1 l2, l = l1 ++ y :: l2 -> x ∈ l1.
Lemma before_nil {A} (x y : A) : before [] x y.
Proof. by intros [|? ?] l2. Qed.
Lemma before_snoc {A} (l : list A) x y z : before l x y -> (z = y -> x ∈ l) -> before (l ++ [z]) x y.
Proof.
  intros Hb Hz l1 l2 E. destruct l2 as [|w l2 _] using rev_ind.
  - apply app_inj_tail in E as [<- <-]. by apply Hz.
  - rewrite app_comm_cons, app_assoc in E. apply app_inj_tail in E as [-> _]. by apply (Hb l1 l2).
Qed.

Definition late_calls : list call := [Virtio_disk_init; Init_first_proc; Schedule_].
Definition hart_calls : list call := [Kvminithart; Trapinithart; Plicinithart].
Definition starts (l : list nat) : list instr := map (fun i => Call (Sbi_hart_start i)) l.
Definition full (s : Z) : bool := s =? Z.of_nat NCPU.
Definition booted (s : Z) : bool := negb (s =? 0).

Section Order.
Context (b : nat) (Hb : (b < NCPU)%nat).
Definition others : gset nat := set_seq 0 NCPU ∖ {[b]}.
Lemma size_others : size others = 3%nat.
Proof.
  unfold others. rewrite size_difference; [by rewrite size_set_seq, size_singleton|]. intros x Hx%elem_of_singleton. subst. apply elem_of_set_seq. lia.
Qed.
Lemma elem_others h : h ∈ others <-> (h < NCPU)%nat /\ h <> b.
Proof. unfold others. rewrite elem_of_difference, elem_of_singleton, elem_of_set_seq. lia. Qed.

(** Where another hart is: [I] are those that have incremented [started]. *)
Definition made (s : boot) (h : nat) (cs : list call) : Prop := forall c, c ∈ cs -> (h, c) ∈ calls s.
Inductive other_at (s : boot) (I : gset nat) (h : nat) : hart -> Prop :=
| O_main k r : (k <= 2)%nat -> h ∉ I -> other_at s I h (mkHart (drop k main) r)
| O_before k r : (k <= 4)%nat -> h ∉ I -> made s h (take (k - 1) hart_calls) -> other_at s I h (mkHart (drop k other_code) r)
| O_loaded r : h ∉ I -> made s h hart_calls -> 1 <= r <= 1 + Z.of_nat (size I) -> other_at s I h (mkHart (drop 5 other_code) r)
| O_after k r : (6 <= k <= 7)%nat -> h ∈ I -> other_at s I h (mkHart (drop k other_code) r).

(** The hart that boots: before [started] is set, and after. *)
Definition boot_rest : list instr := starts (filter (fun i => i <> b) (seq 0 NCPU)) ++ Await full :: map Call late_calls.
Inductive boot_before (s : boot) : hart -> Prop :=
| B_main k r : (k <= 2)%nat -> boot_before s (mkHart (drop k main) r)
| B_calls l1 l2 r : boot_calls = l1 ++ l2 -> made s b l1 -> boot_before s (mkHart (map Call l2 ++ Put 1 :: boot_rest) r).
Inductive boot_after (s : boot) (I : gset nat) : hart -> Prop :=
| B_starts l r : (b ∉ l) -> boot_after s I (mkHart (starts l ++ Await full :: map Call late_calls) r)
| B_late l1 l2 r : I = others -> late_calls = l1 ++ l2 -> boot_after s I (mkHart (map Call l2) r).

Record inv_before (s : boot) : Prop := {
  ib_started : started s = 0;
  ib_boot : exists x, harts s = {[b := x]} /\ boot_before s x;
  ib_calls : forall h c, (h, c) ∈ calls s -> h = b /\ c ∉ late_calls
}.
Record inv_after (s : boot) (I : gset nat) : Prop := {
  ia_made : made s b boot_calls;
  ia_sub : I ⊆ others;
  ia_inc : forall h, h ∈ I -> made s h hart_calls /\ is_Some (harts s !! h);
  ia_started : 1 <= started s <= 1 + Z.of_nat (size I);
  ia_boot : exists x, harts s !! b = Some x /\ boot_after s I x;
  ia_others : forall h x, h <> b -> harts s !! h = Some x -> (h < NCPU)%nat /\ other_at s I h x
}.
Definition ordered_calls (s : boot) : Prop :=
  (forall h c c', h <> b -> c' ∈ boot_calls -> before (calls s) (b, c') (h, c)) /\
  (forall h c c', h ∈ others -> c ∈ late_calls -> c' ∈ hart_calls -> before (calls s) (h, c') (b, c)).
Definition inv (s : boot) : Prop := ordered_calls s /\ (inv_before s \/ exists I, inv_after s I).

Lemma inv_powered : inv (powered b).
Proof.
  split; [split; intros; apply before_nil|]. left. split; [done| |cbn; intros h c Hc; by apply elem_of_nil in Hc].
  eexists. split; [reflexivity|]. apply (B_main _ 0). lia.
Qed.

(** A step of the booting hart before [started] is set. *)
Lemma made_snoc s h cs c : made s h cs -> forall hs st, made (mkBoot st hs (calls s ++ [(h, c)])) h (cs ++ [c]).
Proof.
  intros Hm hs st c' Hc. cbn. apply elem_of_app in Hc as [Hc|Hc]; apply elem_of_app; [left; by apply Hm|right].
  apply list_elem_of_singleton in Hc as ->. by apply list_elem_of_singleton.
Qed.
Lemma made_more s h h' cs c : made s h cs -> forall hs st, made (mkBoot st hs (calls s ++ [(h', c)])) h cs.
Proof. intros Hm hs st c' Hc. cbn. apply elem_of_app. left. by apply Hm. Qed.
Lemma ordered_snoc s h c hs st : ordered_calls s -> (h <> b -> made s b boot_calls) -> (h = b -> c ∈ late_calls -> forall h', h' ∈ others -> made s h' hart_calls) ->
  ordered_calls (mkBoot st hs (calls s ++ [(h, c)])).
Proof.
  intros [H1 H2] Hn Hl. split.
  - intros h1 c1 c' Hne Hc'. apply before_snoc; [by apply H1|]. intros [= <- <-]. by apply Hn.
  - intros h1 c1 c' Ho Hc Hc'. apply before_snoc; [by apply H2|]. intros [= -> ->]. by apply (Hl eq_refl Hc h1 Ho).
Qed.

Definition plain_call (c : call) : Prop := forall i, c <> Sbi_hart_start i.
Lemma exec_call h c rest r s : plain_call c -> exec_instr h (Call c) rest r s = mkBoot (started s) (<[h := mkHart rest r]> (harts s)) (calls s ++ [(h, c)]).
Proof. intros Hp. destruct c; try done. by destruct (Hp i). Qed.
Lemma boot_call c : c ∈ boot_calls -> plain_call c /\ c ∉ late_calls.
Proof.
  intros Hc. apply list_elem_of_In in Hc. cbn in Hc. split; [intros i ->; naive_solver|]. intros Hl. apply list_elem_of_In in Hl. cbn in Hl. naive_solver.
Qed.
Lemma late_call c : c ∈ late_calls -> plain_call c.
Proof. intros Hc i ->. apply list_elem_of_In in Hc. cbn in Hc. naive_solver. Qed.

Lemma step_before s h s' : ordered_calls s -> inv_before s -> step_hart h s = Some s' -> inv s'.
Proof.
  intros HO [Hst (x & Hx & Hbx) Hcalls]. unfold step_hart. rewrite Hx. destruct (decide (h = b)) as [->|Hne]; [|by rewrite lookup_singleton_ne].
  rewrite lookup_singleton_eq.
  assert (Hcall : forall c rest r, plain_call c -> c ∉ late_calls -> (let s1 := mkBoot (started s) {[b := mkHart rest r]} (calls s ++ [(b, c)]) in boot_before s1 (mkHart rest r)) ->
    inv (exec_instr b (Call c) rest r s)).
  { intros c rest r Hp Hl HB. rewrite exec_call by done. rewrite Hx, insert_singleton_eq. split; [by apply ordered_snoc|]. left. split; [done|by eexists|].
    intros h c' Hc'. apply elem_of_app in Hc' as [Hc'|Hc']; [by apply Hcalls|]. apply list_elem_of_singleton in Hc'. injection Hc' as -> ->. by split. }
  destruct Hbx as [k r Hk|l1 l2 r Hl Hm].
  - assert (Hk' : (k = 0 \/ k = 1 \/ k = 2)%nat) by lia. destruct Hk' as [->|Hk']; [|destruct Hk' as [->|Hk']; [|subst k]]; cbn [drop main]; intros [= <-].
    + apply (Hcall W_sie [Call W_tp; Branch] r); [done| |apply (B_main _ 1); lia]. intros Hl. apply list_elem_of_In in Hl. cbn in Hl. naive_solver.
    + apply (Hcall W_tp [Branch] r); [done| |apply (B_main _ 2); lia]. intros Hl. apply list_elem_of_In in Hl. cbn in Hl. naive_solver.
    + cbn [exec_instr]. rewrite Hst. cbn [Z.eqb]. unfold next_code. rewrite Hx, insert_singleton_eq. split; [done|]. left. split; [done| |done].
      eexists. split; [done|]. apply (B_calls _ [] boot_calls); [done|]. intros c Hc. by apply elem_of_nil in Hc.
  - destruct l2 as [|c l2]; cbn [map app]; intros [= <-].
    + cbn [exec_instr]. unfold next_code. split; [done|]. right. exists ∅. rewrite app_nil_r in Hl. subst l1.
      split; [exact Hm|set_solver|set_solver|cbn [started]; rewrite size_empty; lia| |].
      * exists (mkHart boot_rest r). split; [apply lookup_insert_eq|]. apply B_starts. intros Hin. apply list_elem_of_filter in Hin as [? _]. done.
      * cbn [harts]. intros h y Hne. rewrite Hx, insert_singleton_eq, lookup_singleton_ne by done. done.
    + destruct (boot_call c) as [Hp Hlc]; [rewrite Hl; set_solver|]. apply Hcall; [done|done|]. apply (B_calls _ (l1 ++ [c]) l2); [by rewrite <- app_assoc|].
      by apply made_snoc.
Qed.

(** Another hart seen from a later state. *)
Definition keeps (s s' : boot) : Prop := forall h cs, made s h cs -> made s' h cs.
Lemma keeps_snoc s h c hs st : keeps s (mkBoot st hs (calls s ++ [(h, c)])).
Proof. intros h' cs Hm. by apply made_more. Qed.
Lemma keeps_refl s hs st : keeps s (mkBoot st hs (calls s)).
Proof. by intros h cs Hm. Qed.
Lemma other_keeps s s' I I' h x : keeps s s' -> I ⊆ I' -> (h ∈ I' -> h ∈ I) -> other_at s I h x -> other_at s' I' h x.
Proof.
  intros Hk Hs Hh. assert (Hsz := subseteq_size I I' Hs). destruct 1; [apply O_main|apply O_before|apply O_loaded|apply O_after]; auto; lia.
Qed.

(** Hart [h <> b] has moved on to [x]. *)
Lemma other_moves s I I' h x st cl : inv_after s I -> h <> b -> (h < NCPU)%nat ->
  let s' := mkBoot st (<[h := x]> (harts s)) cl in
  keeps s s' -> (I' = I \/ I' = {[h]} ∪ I /\ made s' h hart_calls) -> 1 <= st <= 1 + Z.of_nat (size I') -> other_at s' I' h x -> inv_after s' I'.
Proof.
  intros [H1 H2 H3 H4 (y & Hy & HB) H6] Hne Hlt s' Hk HI Hst Ho.
  assert (HII : I ⊆ I') by (destruct HI as [->|[-> _]]; set_solver). assert (HI' : forall h', h' ∈ I' -> h' = h \/ h' ∈ I) by (destruct HI as [->|[-> _]]; set_solver).
  assert (Hsub : I' ⊆ others) by (destruct HI as [->|[-> _]]; [done|]; assert (h ∈ others) by (by apply elem_others); set_solver).
  split; [by apply Hk|done| |done| |].
  - intros h' Hh'. unfold s'; cbn [harts]. destruct (decide (h' = h)) as [->|Hd].
    + split; [|rewrite lookup_insert_eq; by eexists]. destruct HI as [->|[_ Hm]]; [|done]. apply Hk. by apply H3.
    + destruct (HI' h' Hh') as [->|Hin]; [done|]. destruct (H3 h' Hin) as [Hm Hr]. split; [by apply Hk|]. by rewrite lookup_insert_ne.
  - exists y. unfold s'; cbn [harts]. rewrite lookup_insert_ne by done. split; [done|]. destruct HB as [l r Hl|l1 l2 r -> Hl]; [by apply B_starts|].
    eapply B_late; [|done]. apply set_eq_subseteq. by split.
  - unfold s'; cbn [harts]. intros h' z Hb' Hz. destruct (decide (h' = h)) as [->|Hd].
    + rewrite lookup_insert_eq in Hz. injection Hz as <-. by split.
    + rewrite lookup_insert_ne in Hz by done. destruct (H6 h' z Hb' Hz) as [Hl Ho']. split; [done|]. eapply other_keeps; [exact Hk|done| |exact Ho'].
      intros Hin. destruct (HI' h' Hin); done.
Qed.

Lemma step_other s I h x s' : ordered_calls s -> inv_after s I -> h <> b -> harts s !! h = Some x -> step_hart h s = Some s' -> inv s'.
Proof.
  intros HO HI Hne Hx. destruct (ia_others _ _ HI h x Hne Hx) as [Hlt Ho]. unfold step_hart. rewrite Hx.
  assert (Hst := ia_started _ _ HI).
  assert (Hcall : forall c rest r, plain_call c -> other_at (mkBoot (started s) (<[h := mkHart rest r]> (harts s)) (calls s ++ [(h, c)])) I h (mkHart rest r) ->
    inv (exec_instr h (Call c) rest r s)).
  { intros c rest r Hp Ho'. rewrite exec_call by done. split; [apply ordered_snoc; [done|intros _; apply (ia_made _ _ HI)|done]|]. right. exists I.
    apply (other_moves s I I h); try done; [apply keeps_snoc|by left]. }
  assert (Hmove : forall rest r, other_at (mkBoot (started s) (<[h := mkHart rest r]> (harts s)) (calls s)) I h (mkHart rest r) -> inv (next_code h rest r s)).
  { intros rest r Ho'. split; [exact HO|]. right. exists I. apply (other_moves s I I h); try done; [apply keeps_refl|by left]. }
  destruct Ho as [k r Hk Hin|k r Hk Hin Hm|r Hin Hm Hr|k r Hk Hin].
  - assert (Hk' : (k = 0 \/ k = 1 \/ k = 2)%nat) by lia. destruct Hk' as [->|Hk']; [|destruct Hk' as [->|Hk']; [|subst k]]; cbn [drop main]; intros [= <-].
    + apply (Hcall W_sie [Call W_tp; Branch] r); [done|]. apply (O_main _ _ _ 1); [lia|done].
    + apply (Hcall W_tp [Branch] r); [done|]. apply (O_main _ _ _ 2); [lia|done].
    + cbn [exec_instr]. rewrite (proj2 (Z.eqb_neq _ _)) by lia. apply Hmove. apply (O_before _ _ _ 0); [lia|done|]. intros c Hc. by apply elem_of_nil in Hc.
  - assert (Hk' : (k = 0 \/ k = 1 \/ k = 2 \/ k = 3 \/ k = 4)%nat) by lia.
    destruct Hk' as [->|Hk']; [|destruct Hk' as [->|Hk']; [|destruct Hk' as [->|Hk']; [|destruct Hk' as [->|Hk']; [|subst k]]]]; cbn [drop other_code Nat.sub hart_calls take] in *; intros [= <-].
    + cbn [exec_instr]. rewrite (proj2 (Z.eqb_neq _ _)) by lia. apply Hmove. by apply (O_before _ _ _ 1); [lia|..].
    + apply (Hcall Kvminithart (drop 2 other_code) r); [done|]. apply (O_before _ _ _ 2); [lia|done|]. exact (made_snoc s h [] Kvminithart Hm _ _).
    + apply (Hcall Trapinithart (drop 3 other_code) r); [done|]. apply (O_before _ _ _ 3); [lia|done|]. exact (made_snoc s h [Kvminithart] Trapinithart Hm _ _).
    + apply (Hcall Plicinithart (drop 4 other_code) r); [done|]. apply (O_before _ _ _ 4); [lia|done|]. exact (made_snoc s h [Kvminithart; Trapinithart] Plicinithart Hm _ _).
    + cbn [exec_instr]. apply (Hmove (drop 5 other_code)). by apply O_loaded.
  - cbn [drop other_code]. intros [= <-]. cbn [exec_instr]. unfold next_code. cbn [started harts calls].
    assert (Hsz : size ({[h]} ∪ I) = S (size I)) by (rewrite size_union, size_singleton; [lia|set_solver]).
    assert (Hmax := subseteq_size _ _ (ia_sub _ _ HI)). rewrite size_others in Hmax.
    split; [exact HO|]. right. exists ({[h]} ∪ I). rewrite s32_small by lia.
    apply (other_moves s I _ h); try done; [apply keeps_refl|by right|rewrite Hsz; lia|]. apply (O_after _ _ _ 6); [lia|set_solver].
  - assert (Hk' : (k = 6 \/ k = 7)%nat) by lia. destruct Hk' as [->| ->]; cbn [drop other_code]; [|done]. intros [= <-].
    apply (Hcall Schedule_ [] r); [done|]. apply (O_after _ _ _ 7); [lia|done].
Qed.

(** A step of the booting hart after [started] is set. *)
Lemma boot_moves s I x hs cl : inv_after s I -> keeps s (mkBoot (started s) hs cl) ->
  hs !! b = Some x -> boot_after (mkBoot (started s) hs cl) I x ->
  (forall h, h <> b -> hs !! h = harts s !! h \/ (harts s !! h = None /\ (h < NCPU)%nat /\ hs !! h = Some (mkHart main 0))) ->
  inv_after (mkBoot (started s) hs cl) I.
Proof.
  intros [H1 H2 H3 H4 _ H6] Hk Hx HB Hh. assert (Hin : forall h, h ∈ I -> h <> b) by (intros h Hi; apply H2, elem_others in Hi; apply Hi).
  split; [by apply Hk|done| |done|by exists x|]; cbn [harts].
  - intros h Hi. destruct (H3 h Hi) as [Hm Hr]. split; [by apply Hk|]. destruct (Hh h (Hin h Hi)) as [E|(E & _)]; [by rewrite E|rewrite E in Hr; by destruct Hr].
  - intros h y Hne Hy. destruct (Hh h Hne) as [E|(E & Hl & E2)].
    + rewrite E in Hy. destruct (H6 h y Hne Hy) as [Hl Ho]. split; [done|]. eapply other_keeps; [exact Hk|done|done|exact Ho].
    + rewrite E2 in Hy. injection Hy as <-. split; [done|]. apply (O_main _ _ _ 0); [lia|]. intros Hi. destruct (H3 h Hi) as [_ Hr]. rewrite E in Hr. by destruct Hr.
Qed.

Lemma step_boot s I s' : ordered_calls s -> inv_after s I -> step_hart b s = Some s' -> inv s'.
Proof.
  intros HO HI. destruct (ia_boot _ _ HI) as (x & Hx & HB). unfold step_hart. rewrite Hx. assert (Hst := ia_started _ _ HI). destruct HB as [l r Hl|l1 l2 r -> Hl].
  - destruct l as [|i l]; cbn [starts map app]; intros [= <-].
    + cbn [exec_instr]. destruct (full (started s)) eqn:Ef; [|by split; [done|right; exists I]].
      apply Z.eqb_eq in Ef. assert (HIo : I = others).
      { apply set_subseteq_size_eq; [apply (ia_sub _ _ HI)|]. rewrite size_others. rewrite Ef in Hst. change (Z.of_nat NCPU) with 4 in Hst. lia. }
      split; [done|]. right. exists I. eapply boot_moves; [done|apply keeps_refl|apply lookup_insert_eq|by apply (B_late _ _ [] late_calls)|].
      intros h Hne. left. by apply lookup_insert_ne.
    + cbn [exec_instr]. set (s1 := next_code b _ r _). assert (Hs1 : s1 = mkBoot (started s) (<[b := mkHart (starts l ++ Await full :: map Call late_calls) r]> (harts s)) (calls s ++ [(b, Sbi_hart_start i)])) by done.
      assert (HO1 : ordered_calls s1).
      { rewrite Hs1. apply ordered_snoc; [done|done|]. intros _ Hc. apply list_elem_of_In in Hc. cbn in Hc. naive_solver. }
      assert (Hbl : b ∉ l) by set_solver. unfold start_hart. destruct (decide _) as [[Hlt Hnone]|_].
      * split; [exact HO1|]. right. exists I. rewrite Hs1 in Hnone |- *. cbn [started harts calls] in *.
        assert (Hib : i <> b) by (intros ->; by rewrite lookup_insert_eq in Hnone). rewrite lookup_insert_ne in Hnone by done.
        eapply boot_moves; [done|apply keeps_snoc|rewrite lookup_insert_ne by done; apply lookup_insert_eq|by apply B_starts|].
        intros h Hne. destruct (decide (h = i)) as [->|Hd]; [right; split; [done|]; split; [done|apply lookup_insert_eq]|left; by rewrite !lookup_insert_ne].
      * split; [exact HO1|]. right. exists I. rewrite Hs1.
        eapply boot_moves; [done|apply keeps_snoc|apply lookup_insert_eq|by apply B_starts|]. intros h Hne. left. by apply lookup_insert_ne.
  - destruct l2 as [|c l2]; cbn [map]; [done|]. intros Es. assert (Es' : s' = exec_instr b (Call c) (map Call l2) r s) by congruence. clear Es. subst s'.
    assert (Hp : plain_call c) by (apply late_call; rewrite Hl; set_solver). rewrite exec_call by done. split.
    + apply ordered_snoc; [done|done|]. intros _ _ h Hh. apply (ia_inc _ _ HI h Hh).
    + right. exists others. eapply boot_moves; [done|apply keeps_snoc|apply lookup_insert_eq|by apply (B_late _ _ (l1 ++ [c]) l2); [|rewrite <- app_assoc]|].
      intros h Hne. left. by apply lookup_insert_ne.
Qed.

Lemma reachable_ordered s : reachable b s -> inv s.
Proof.
  intros HR. unfold reachable in HR. remember (powered b) as s0 eqn:E. apply (rtc_ind_r inv s0) in HR; [done|subst; apply inv_powered|].
  intros s1 s2 _ (h & Hs) [HO [HB|(I & HA)]]; [by eapply step_before|].
  destruct (decide (h = b)) as [->|Hne]; [by eapply step_boot|]. destruct (harts s1 !! h) as [x|] eqn:Hx; [by eapply step_other|].
  unfold step_hart in Hs. by rewrite Hx in Hs.
Qed.
End Order.

(** C19. Start-up is ordered, whichever hart boots and however the harts
    interleave. No other hart makes any call before every initialisation of the
    boot hart; and the boot hart starts the disk, makes the first process and
    enters the scheduler only after every other hart has turned paging on,
    installed its trap vector and enabled its interrupts, although [++started]
    is not atomic. *)
Theorem start_up_ordered b s : (b < NCPU)%nat -> reachable b s ->
  (forall h c c', h <> b -> c' ∈ boot_calls -> before (calls s) (b, c') (h, c)) /\
  (forall h c c', (h < NCPU)%nat -> h <> b -> c ∈ late_calls -> c' ∈ hart_calls -> before (calls s) (h, c') (b, c)).
Proof.
  intros Hb HR. destruct (reachable_ordered b Hb s HR) as [[H1 H2] _]. split; [exact H1|]. intros h c c' Hh Hne. apply H2. by apply elem_others.
Qed.

Lemma run_harts_rtc hs : forall s s', run_harts hs s = Some s' -> rtc step s s'.
Proof.
  induction hs as [|h hs IH]; intros s s'; cbn [run_harts]; [intros [= <-]; reflexivity|]. destruct (step_hart h s) as [s1|] eqn:E; [|done].
  cbn. intros Hr. eapply rtc_l; [by exists h|by apply IH].
Qed.
(** One hart after the other: every hart reaches the scheduler. *)
Definition in_turn : list nat := (replicate 27 0 ++ replicate 10 1 ++ replicate 10 2 ++ replicate 10 3 ++ replicate 4 0)%nat.
(** The other harts all read [started] before one of them writes it. *)
Definition at_once : list nat := (replicate 27 0 ++ replicate 8 1 ++ replicate 8 2 ++ replicate 8 3 ++ [1; 2; 3; 1; 2; 3])%nat.

Lemma start_up_ordered_witness :
  exists s, run_harts in_turn (powered 0) = Some s /\ ((0, Schedule_) ∈ calls s /\ (3, Schedule_) ∈ calls s)%nat /\
    before (calls s) (3, Kvminithart)%nat (0, Virtio_disk_init)%nat.
Proof.
  destruct (run_harts in_turn (powered 0)) as [s|] eqn:E; [|vm_compute in E; discriminate]. exists s. split; [done|].
  assert (HR : reachable 0 s) by exact (run_harts_rtc in_turn _ _ E). split.
  - clear HR. vm_compute in E. injection E as <-. split; apply list_elem_of_In; cbn; tauto.
  - clear E. apply (start_up_ordered 0 s); [apply Nat.lt_0_succ|exact HR|apply Nat.lt_succ_diag_r|discriminate|left|left].
Defined.

Lemma reachable_harts b s h x : (b < NCPU)%nat -> reachable b s -> harts s !! h = Some x -> (h < NCPU)%nat.
Proof.
  intros Hb HR Hx. destruct (decide (h = b)) as [->|Hne]; [done|]. destruct (reachable_ordered b Hb s HR) as [_ [[_ (y & Hy & _) _]|(I & HI)]].
  - by rewrite Hy, lookup_singleton_ne in Hx.
  - by apply (ia_others _ _ _ HI h x).
Qed.

Lemma rtc_stuck {A} (R : A -> A -> Prop) x : (forall y, R x y -> y = x) -> forall y, rtc R x y -> y = x.
Proof. intros Hx y HR. induction HR as [|x y z Hxy _ IH]; [done|]. rewrite (Hx _ Hxy) in IH. by apply IH. Qed.

(** The increments can be lost: a reachable state where every other hart is in
    the scheduler and the boot hart waits for ever, the disk not started. *)
Theorem start_up_can_hang :
  exists s, reachable 0 s /\ (forall h, (1 <= h < NCPU)%nat -> (h, Schedule_) ∈ calls s) /\ started s = 2 /\
    (forall c, c ∈ late_calls -> (0%nat, c) ∉ calls s) /\ (forall s', rtc step s s' -> s' = s).
Proof.
  destruct (run_harts at_once (powered 0)) as [s|] eqn:E; [|vm_compute in E; discriminate]. exists s.
  assert (HR : reachable 0 s) by exact (run_harts_rtc at_once _ _ E). split; [exact HR|].
  assert (Hstep : forall s', step s s' -> s' = s).
  { intros s' (h & Hs). assert (Hh : (h < NCPU)%nat).
    { unfold step_hart in Hs. destruct (harts s !! h) as [x|] eqn:Hx; [|done]. apply (reachable_harts 0 s h x); [unfold NCPU; lia|done|done]. }
    assert (H0 : (run_harts at_once (powered 0) ≫= step_hart 0) = run_harts at_once (powered 0)) by (vm_compute; reflexivity).
    assert (H1 : (run_harts at_once (powered 0) ≫= step_hart 1) = None) by (vm_compute; reflexivity).
    assert (H2 : (run_harts at_once (powered 0) ≫= step_hart 2) = None) by (vm_compute; reflexivity).
    assert (H3 : (run_harts at_once (powered 0) ≫= step_hart 3) = None) by (vm_compute; reflexivity).
    rewrite E in H0, H1, H2, H3. cbn in H0, H1, H2, H3. unfold NCPU in Hh. do 4 (destruct h as [|h]; [congruence|]). lia. }
  assert (Hrtc := rtc_stuck step s Hstep).
  split; [|split; [|split; [|exact Hrtc]]]; clear Hstep Hrtc HR; vm_compute in E; injection E as <-.
  - intros h Hh. unfold NCPU in Hh. apply list_elem_of_In. do 4 (destruct h as [|h]; [first [lia|cbn; tauto]|]). lia.
  - done.
  - intros c Hc Hin. apply list_elem_of_In in Hc, Hin. cbn in Hc, Hin. destruct Hc as [<-|[<-|[<-|[]]]]; repeat (destruct Hin as [Hin|Hin]; [discriminate|]); done.
Qed.
